(* ===== verification/_CoqProject ===== *)
-Q . S2P
Prelude.v
GoStrings.v
Lines.v
Sha256.v
Json.v
Codec.v
AnyValue.v
Utf8.v
Contract.v
Card.v
JsonIndent.v
StateFile.v
Paths.v
Connect.v
Redact.v
Ui.v
Config.v
Skills.v
Setup.v
Ledger.v
Conventions.v
MerkleTree.v
Merkle.v
Rally.v
RallyInv.v
Replay.v
ActionGate.v
Stuck.v
Turns.v
SessionStuck.v
Exit.v
SessionStore.v
A2A.v
Mcp.v
McpTransport.v
McpClient.v
RallyClient.v
TurnLoop.v
TurnLoopInv.v
TurnLoopSpec.v
A2AWire.v
Runner.v
Cycle.v
Gates.v
Adapter.v
Doctor.v
Squash.v
Main.v
CycleApi.v
CycleApiSpec.v
CycleClient.v
Routes.v
Driver.v
DriverSpec.v
OneShot.v
Commands.v
Cli.v
