(* ===== verification/Prelude.v ===== *)
(** * Rallish: a verification library for the rallish broker

    Rallish runs coding agents in turns.  A daemon (the broker) hands a baton round a
    rally of agents, drives a session of roles turn by turn, or drives one agent through
    gated work cycles, and records what happened in append-only logs; the ledger of a cycle
    is hash-chained and can be proved to third parties with Merkle proofs.  This library
    models the Go code of the repository (all paths below are under [src/]) as executable
    definitions and proves what makes it correct.

    ** The parts and how they interact

    The wire types ([pkg/contract]) are at the bottom.  The ledger (entries and chain in
    [pkg/contract/harness_ledger.go], file in [internal/cycle/ledger.go]) stores them; the
    Merkle layer, the replay and the stuck detector only read the ledger's entries.  The
    cycle driver ([internal/cycle/driver.go]) runs a pipeline of gates on a cycle's state,
    appends to the ledger and advances the state; the orchestrator
    ([internal/cycle/orchestrator.go]) puts agent turns, stuck and budget guards and the
    handshake around the driver's step.  The broker ([internal/broker]) offers sessions,
    rallies and cycles over HTTP, MCP and A2A.  The command line ([internal/cli]) finds or
    starts the broker and is its client; the runner ([internal/runner]) puts an agent program
    ([internal/adapter]) at the other end of a session.  The pre-execution gates decide
    whether a pending command may run, and record what they denied in the ledger.

    ** The files

    Foundations:
    - [Prelude.v] (this file): notations, tactics, hint databases, lists and options.
    - [GoStrings.v], [Sha256.v], [Json.v], [Codec.v], [JsonIndent.v], [Lines.v], [Utf8.v]:
      what the code uses of the Go standard library: [strings], [strconv], [encoding/hex],
      [crypto/sha256], [encoding/json] (grammar, encoder with HTML escaping, struct tags,
      omitempty, indentation) and [bufio.Scanner] with its limit on a line; and the texts of
      the server-sent events the broker writes.  They are definitions, not parameters; the
      JSON encoders and the parser are related by round-trip lemmas.
    - [AnyValue.v]: what [encoding/json] makes of a value that passes through an [any].
    - [Contract.v]: [types.go], [cycle.go], [rally.go], [errors.go], [work_contract.go]
      of [pkg/contract]: enumerations, structs, their JSON tables, the parsers of names,
      phases, reasons, patterns and turn payloads.
    - [Card.v]: the agent card of [pkg/contract/a2a.go], base64 and the signature over its
      canonical JSON ([agent_card_sign.go]).  The signature scheme is a class.
    - [Paths.v]: [path/filepath] and [internal/safepath], and the files of a cycle.
    - [Redact.v]: [internal/logx]: the patterns of the redactor on a matcher for the part of
      [regexp] they use, and the handler that every log record goes through.

    The ledger and its readers:
    - [Ledger.v]: [harness_ledger.go] and [internal/cycle/ledger.go].  The file system is a
      map from paths to contents, the process-wide cache of tail hashes is a map from
      paths to hashes, and each append takes the faults it meets as an argument, torn
      writes included.
    - [MerkleTree.v], [Merkle.v]: [merkle.go].  The first is about trees over any digest,
      the second about the functions of the code on SHA-256.
    - [Replay.v]: [replay.go], the control graph rebuilt from a ledger.
    - [ActionGate.v]: [action_gate.go], [secret_containment.go], [tooluse_gate.go].
    - [Conventions.v]: [conventions.go], the sections of convention files and their record.
    - [Stuck.v]: [internal/cycle/stuck.go], [reviver.go], [internal/budget/budget.go].

    Cycles:
    - [Cycle.v]: [internal/cycle/state.go], [result.go], [gate.go]: the immutable state and
      its transitions, and the sequential pipeline over gates of an abstract world.  The
      classes [FramedGate] and [FramedPipeline] say that a gate leaves the budget fields
      of the state alone; the driver's theorems are proved against them and [Gates.v]
      discharges them for the standard pipeline.
    - [Gates.v]: [internal/cycle/gates] and [internal/cycle/autogoal.go]: the seven gates,
      the scanners of the philosophy gate and the discovery of the next goal.
    - [StateFile.v]: [internal/cycle/sync.go]: the text of the state file, its temporary
      file, rename and backup, with every fault and with writers that interleave.
    - [Driver.v], [DriverSpec.v]: [internal/cycle/driver.go], [orchestrator.go];
      definitions and theorems.  The world is an abstract state with operations for every
      command, file, clock reading and fault ([WorldOps]).
    - [CycleApi.v], [CycleApiSpec.v]: [internal/broker/cycle.go]: the store of cycles and the
      handlers, each also as a list of operations that others interleave with.

    Sessions and rallies:
    - [Rally.v], [RallyInv.v]: [internal/broker/rally.go] and the rally tools of
      [internal/broker/mcp.go]; definitions, then the step relation of all interleavings,
      its invariant and the theorems.  One locked section of a handler is one step; what
      a handler does after unlocking (the deferred [close]s) and what the reader
      goroutines do are steps of their own.
    - [Turns.v] ([internal/router], [internal/scratch] and the structs of a turn),
      [SessionStuck.v], [SessionStore.v] ([internal/session]), [Exit.v] ([internal/exit],
      [internal/preset]): what the turn loop uses.
    - [TurnLoop.v], [TurnLoopInv.v], [TurnLoopSpec.v]: [internal/broker/broker.go] and the
      tasks of [a2a.go] over the same sessions, as a step relation.
    - [A2A.v], [A2AWire.v]: [internal/broker/a2a.go], the messages and their decoding, and the handler
      from the bytes of a request to the bytes of its answer or of its stream.
    - [Mcp.v], [McpTransport.v]: [internal/broker/mcp.go], the tools and the transport.

    Agents and the command line:
    - [Adapter.v]: [internal/adapter], prompts, answers and a run of an agent program.
    - [Runner.v]: [internal/runner] and the fake adapter, against the session endpoints.
    - [OneShot.v], [Commands.v]: [cycle run --once], [cycle verify] and the tool-use gate.
    - [Connect.v]: how a command finds the daemon, and how daemons start, announce themselves,
      stop and die, as one system over the files, sockets and ports of a host, in which each
      step is one access to the host and other processes may take ports.
    - [McpClient.v], [RallyClient.v], [CycleClient.v]: the [rally mcp-agent], [rally] and
      [cycle] commands, from their flags to the text they print, against the handlers.
    - [Routes.v]: the mux of [broker.go] with the routes of its components, [net/http]'s routing
      and [net/url]'s escaping, the URLs that clients build, and the [cycle] commands over them.
    - [Cli.v]: the commands themselves, from the flags that are given to what is printed: required
      flags, defaults, the daemon looked for on the host, and the parts between it and the handlers.
    - [Squash.v]: the rest of [internal/cli/squash.go], [registry.go] and the request that
      creates a session, against the session store.
    - [Ui.v], [Config.v]: [internal/ui], [internal/config] and the [config] commands: a
      terminal with its streams, and a settings file with the faults of its calls.
    - [Skills.v], [Setup.v]: [internal/skills], [trigger.go], [bootstrap.go] and [add.go] of
      [internal/cli], on a disk of paths, contents and modes.
    - [Doctor.v]: [internal/doctor], on the host of [Connect.v].
    - [Main.v]: [cmd/rallish/main.go]: exit status, signals, [skill install], and the build
      information.

    ** The conventions

    A Go function that returns [(T, error)] is a function to [E + T].  A call that panics
    or does not return is [None]; in [TurnLoop.v], where a panic inside a lock leaves the
    mutex locked for good, a section is [Done] or [Panics] and [sv_locked] says so.  An
    [int] is a [Z], with its 64-bit wrap-around written
    out where the code shifts or multiplies it ([Merkle.v]); a [string] and a [[]byte] are a
    [string] of bytes.  Structs are records with the source's fields, prefixed where two
    structs share a field name; [r <| f := v |>] is the assignment [r.f = v] on a copy.  Go
    maps are [gmap]s.  Clock readings and random bytes are arguments of the step that makes
    them.  A comment [(* src: path a-b Name *)] before a definition gives the lines it
    translates.  A client's HTTP exchange is a function from the request (path, body) to the
    answer; a theorem about a command and a handler says that the answer is the handler's.

    ** What the theorems show

    - Ledger: a chain that verifies cannot have an entry changed, dropped, inserted or
      reordered without another digest or a SHA-256 collision ([VerifyChain_tamper_evident]);
      appends to a file refine appends to a verified list ([Append_refines],
      [append_ReadAll_verified]); two ways to break the file (invalid UTF-8, torn write).
    - Merkle: proofs made by the code are accepted and accepted proofs are sound, for
      inclusion and consistency, up to 2^62 leaves; what they prove when the size they state is
      not the size of the log; above 2^62, the split never returns.
    - Replay: exactly which steps, edges and cycles the graph has.
    - Conventions: where each line of a file goes, frontmatter, sections or away
      ([sections_partition]).
    - Stuck and budget: each predicate is equivalent to its pattern over the ledger; a
      sealed cycle resumes only after a [validation_green] that follows the seal.
    - Gates and pipeline: a pipeline passes exactly when all gates pass in order; no gate
      runs an empty command; discovered goals, line numbers and warnings behave as stated.
    - State file: readers see whole states only, whoever writes and dies in between; also with
      writes between the reads of the file and its backup, unless the file is damaged.
    - Driver and orchestrator: each branch of a step; the records of a step; the budget
      strictly decreases, so the loops end; which iterations advance a cycle, and what a halt
      leaves in the state file and the ledger, whether or not its record could be written.
    - Cycle endpoints: which operation can panic, what a step records, sealed cycles.
    - Rally: the sessions refine an abstract token that only its holder passes on, in the
      order of the participants; no interleaving sends on or closes a closed channel; which
      faults lose a turn.
    - Turn loop: the server refines an abstract session; accepted turns are numbered without
      a gap; stale pollers wake; which requests can panic and wedge the server; a request over A2A is
      at most one step of it ([request_steps]), and its answers are read back.
    - MCP: the tools served are the tools listed; each message is answered at most once.
    - Pre-execution gates: the combined decision is the most severe one, and the order of
      precedence of the secret policy.
    - Agents: an agent's answer reaches its caller; a runner over HTTP plays the session as
      if the broker called the agent, and how a play ends on each failure ([runner_plays]).
    - Presets: which are accepted, and that the router knows the rule of each ([Load_valid]).
    - Commands: a halt is final over any sequence of one-shot runs; the verdict of the audit;
      a client finds the daemon that is up, whatever died before, while daemons run one at a time
      ([daemon_found]), and the races in which it does not; the one-shot MCP client is one tool
      call, whose answer is lost when it is too long ([agent_runs_tool]); what [join], [done], [watch], [halt], [status] and
      [ledger] print is what the daemon holds, and which waits end too early; [squash] runs the
      session that the daemon made of its request ([squash_creates]).
    - The whole path: a cycle made and stepped, and a baton passed, from the command line through the
      host, the routes and the handlers to the text that is printed ([cycle_end_to_end],
      [baton_end_to_end]).
    - Routes: the routing tree is the list of its patterns ([mux_serves]); redirects end; requests
      for the ids the daemon makes arrive ([requests_arrive]); what a command that changes a cycle
      may reach when its argument is any text ([posts_land]).
    - Setup: [config set] changes one key or nothing ([config_set_get]); [add] writes one file
      below its directory or none ([add_confined]); installing skills twice is installing them
      once; the wizard's defaults; the doctor reports a daemon exactly when somebody listens where
      it looks, which is where a client looks for a clean pointer ([doctor_ok_iff]); the columns of a table line up; which commands outlive a signal.
    - Secrets and signatures: no token of a known kind is left in a log record
      ([no_token_survives]); a signed card verifies after it was sent as JSON, and a changed card
      that verifies is a forgery.

    ** Fuel and bounds

    - [Json.parse_value]: twice the input's length; [decode_encode] shows it is enough.
    - [Sha256.blocks]: the number of words; each block consumes sixteen.
    - [Merkle]: recursions on leaves take one more than the number of leaves as fuel, the
      loops on indices 64 steps, one per bit; the completeness theorems say that this
      returns a result for up to 2^62 leaves.  [largestPowerOfTwoLessThan_spec] shows that
      beyond it no fuel is enough.
    - [Driver.Run], [Driver.orchestrate]: any fuel above the cycles left in the budget;
      [Run_terminates] and [orchestrate_terminates].
    - [CycleApi.run_ops]: three times the operations of a step, fifteen for a halt; each
      operation adds at most two.  [McpClient.await]: one more than the lines that are left.
    - [Redact.replace]: the number of runes of the text; a match is not empty.
    - [Runner.Run]: rounds of a loop that may go on for ever; [runner_plays] gives enough of
      them for every play of a session that ends.

    ** What is not modelled

    The parsing of flags and the help texts (a third-party library), HTTP headers, the call sites of the
    log, the operating system's processes and what agent programs print are input and output
    around the parts above; where a part needs their result it is an argument or an operation of
    the world.  YAML (a third-party library) and [crypto/ed25519] are classes with the laws they
    document; embedded files and downloads are arguments.  [Fields], [TrimSpace] and [ToLower]
    follow the ASCII branch of Go.  The error texts that come from the standard library are
    arguments or left out. *)

From stdpp Require Export base list gmap strings pretty.
From Stdlib Require Export ZArith Lia.

(** ** Notations

    A fallible Go function [func f(..) (T, error)] is modelled as a function to
    [E + T]: [inl] is the returned error, [inr] the value of a nil error. *)
Declare Scope rallish_scope.
Delimit Scope rallish_scope with rallish.
Open Scope rallish_scope.

#[export] Set Warnings "-clear-no-such-hyp".

Notation "'let?' x ':=' e 'in' k" :=
  (match e with inl err => inl err | inr x => k end)
  (at level 10, x pattern, e at level 200, k at level 200) : rallish_scope.

(** ** Automation

    [rallish] collects the resolution hints of the components, [go_simpl] its
    rewriting rules. *)
Create HintDb rallish discriminated.
Create HintDb rallish_wf discriminated.
Create Rewrite HintDb go_simpl.

(** Case analysis on every [match] of the goal or the context whose scrutinee
    is not a variable bound inside the term. *)
Ltac case_all :=
  repeat (case_match || case_decide); simplify_eq/=.

(** Split conjunctions and existentials of the context. *)
Ltac break_hyps :=
  repeat match goal with
    | H : _ /\ _ |- _ => destruct H
    | H : exists _, _ |- _ => destruct H
    | H : prod _ _ |- _ => destruct H
    end.

(** Turn boolean tests of the context and the goal into propositions. *)
Ltac reflect_bools :=
  repeat match goal with
    | H : andb _ _ = true |- _ => apply andb_true_iff in H as [? ?]
    | H : orb _ _ = false |- _ => apply orb_false_iff in H as [? ?]
    | H : negb _ = true |- _ => apply negb_true_iff in H
    | H : negb _ = false |- _ => apply negb_false_iff in H
    | H : (_ =? _)%Z = true |- _ => apply Z.eqb_eq in H
    | H : (_ =? _)%Z = false |- _ => apply Z.eqb_neq in H
    | H : (_ <? _)%Z = true |- _ => apply Z.ltb_lt in H
    | H : (_ <? _)%Z = false |- _ => apply Z.ltb_ge in H
    | H : (_ <=? _)%Z = true |- _ => apply Z.leb_le in H
    | H : (_ <=? _)%Z = false |- _ => apply Z.leb_gt in H
    | H : String.eqb _ _ = true |- _ => apply String.eqb_eq in H
    | H : String.eqb _ _ = false |- _ => apply String.eqb_neq in H
    | H : bool_decide _ = true |- _ => apply bool_decide_eq_true_1 in H
    | H : bool_decide _ = false |- _ => apply bool_decide_eq_false_1 in H
    end.

(** Rewrite the goal with the boolean tests the context knows. *)
Ltac use_bools :=
  repeat match goal with
    | H : ?b = true |- context [?b] => rewrite H
    | H : ?b = false |- context [?b] => rewrite H
    | H : ?a <> ?b |- context [(?a =? ?b)%Z] => rewrite (proj2 (Z.eqb_neq a b) H)
    end.

(** ** Lists *)

Section Lists.
Context {A B : Type}.

(** The last element split off, the shape of Go's [append(sub, x)]. *)
Lemma snoc_cases (l : list A) : l = [] \/ exists l' x, l = l' ++ [x].
Proof. destruct l using rev_ind; eauto. Qed.

Lemma last_length_snoc (l : list A) n :
  length l = S n -> exists l' x, l = l' ++ [x] /\ length l' = n.
Proof.
  destruct (snoc_cases l) as [->|(l' & x & ->)]; [done|].
  rewrite length_app; simpl; intros ?. exists l', x. split; [done|lia].
Qed.

Lemma snoc_inj (l l' : list A) x x' :
  l ++ [x] = l' ++ [x'] -> l = l' /\ x = x'.
Proof. intros H. by apply app_inj_tail in H. Qed.

Lemma take_take_le (l : list A) n m : (n <= m)%nat -> take n (take m l) = take n l.
Proof. intros ?. rewrite take_take. by rewrite Nat.min_l. Qed.

Lemma foldl_snoc (f : B -> A -> B) (l : list A) x b :
  foldl f b (l ++ [x]) = f (foldl f b l) x.
Proof. by rewrite foldl_app. Qed.
End Lists.

Lemma imap_compose {A B C} (f : nat -> B -> C) (g : nat -> A -> B) (l : list A) :
  imap f (imap g l) = imap (fun i x => f i (g i x)) l.
Proof. apply list_eq. intros i. rewrite !list_lookup_imap. by destruct (l !! i). Qed.


#[export] Hint Rewrite @length_app @length_map @length_take @length_drop : go_simpl.

(** ** Record update

    [r <| f := v |>] is the Go assignment [r.f = v] on a copy of the struct.  A
    record declares its fields once, as an [Eta] instance; the setter of a field
    is computed from it. *)
Class Eta (R : Type) := eta : R -> R.
Class Setter {R T : Type} (get : R -> T) := set_with : (T -> T) -> R -> R.
Arguments set_with {R T} get {_} upd r.

Ltac build_setter :=
  lazymatch goal with
  | |- @Setter ?R ?T ?get =>
      let i := constr:(_ : Eta R) in
      let e := eval cbv delta [eta] beta in i in
      let e := eval red in e in
      lazymatch eval pattern get in e with
      | ?s _ => let t := eval cbv beta in (fun (upd : T -> T) => s (fun r : R => upd (get r))) in exact t
      end
  end.
#[export] Hint Extern 0 (Setter _) => build_setter : typeclass_instances.

Notation "r <| f := v |>" := (set_with f (fun _ => v) r)
  (at level 1, f at level 11, v at level 200, left associativity) : rallish_scope.
