(* ===== verification/GoStrings.v ===== *)
(** * Go strings

    The functions of the packages [strings], [encoding/hex] and [strconv] that
    the modelled code calls.  A Go [string] and a [[]byte] are both a
    [String.string], one [ascii] per byte.  [Fields], [TrimSpace], [ToLower] and [Quote]
    follow the ASCII branch of the Go functions: on bytes below 0x80 they are
    the Go functions, on other bytes Go decodes a rune first, so a property that
    depends on them is about commands and documents in ASCII. *)

From S2P Require Import Prelude.
From stdpp Require Import sorting.
From Stdlib Require Import Ascii String.
#[local] Open Scope string_scope.

#[global] Arguments String.append : simpl nomatch.

Definition byte_val (c : ascii) : Z := Z.of_N (N_of_ascii c).
Definition byte_of (z : Z) : ascii := ascii_of_N (Z.to_N (z mod 256)).

(** ** Searching *)

Definition HasPrefix (s p : string) : bool := String.prefix p s.

Fixpoint HasSuffix (s p : string) : bool :=
  String.eqb s p || match s with "" => false | String _ s' => HasSuffix s' p end.

Fixpoint Contains (s sub : string) : bool :=
  String.prefix sub s || match s with "" => false | String _ s' => Contains s' sub end.

Definition ContainsByte (s : string) (c : ascii) : bool := Contains s (String c "").

(** [Index s sub] is the first position of [sub] in [s], -1 when absent. *)
Fixpoint Index (s sub : string) : Z :=
  if String.prefix sub s then 0%Z
  else match s with
       | "" => (-1)%Z
       | String _ s' => let i := Index s' sub in if (i <? 0)%Z then (-1)%Z else (i + 1)%Z
       end.

(** [s[lo:hi]] and [s[lo:]]. *)
Definition slice (s : string) (lo hi : nat) : string := String.substring lo (hi - lo) s.
Definition slice_from (s : string) (lo : nat) : string :=
  String.substring lo (String.length s - lo) s.

(** ** White space and case *)

(** [unicode.IsSpace] on an ASCII byte. *)
Definition is_space (c : ascii) : bool :=
  let n := byte_val c in (n =? 32)%Z || ((9 <=? n)%Z && (n <=? 13)%Z).

(** [unicode.ToLower] on an ASCII byte. *)
Definition lower_byte (c : ascii) : ascii :=
  let n := byte_val c in
  if ((65 <=? n) && (n <=? 90))%Z then byte_of (n + 32) else c.

Fixpoint string_map (f : ascii -> ascii) (s : string) : string :=
  match s with "" => "" | String c s' => String (f c) (string_map f s') end.

Definition ToLower (s : string) : string := string_map lower_byte s.

(** The first word of [s], possibly still open on the left, and the words after it. *)
Fixpoint fields_raw (s : string) : string * list string :=
  match s with
  | "" => ("", [])
  | String c s' =>
      let '(w, ws) := fields_raw s' in
      if is_space c then ("", if String.eqb w "" then ws else w :: ws)
      else (String c w, ws)
  end.

Definition Fields (s : string) : list string :=
  let '(w, ws) := fields_raw s in if String.eqb w "" then ws else w :: ws.

Definition Join (l : list string) (sep : string) : string := String.concat sep l.

Fixpoint trim_left (f : ascii -> bool) (s : string) : string :=
  match s with
  | "" => ""
  | String c s' => if f c then trim_left f s' else s
  end.

Fixpoint trim_right (f : ascii -> bool) (s : string) : string :=
  match s with
  | "" => ""
  | String c s' =>
      let t := trim_right f s' in
      if String.eqb t "" && f c then "" else String c t
  end.

Definition TrimLeft (s : string) (c : ascii) : string := trim_left (Ascii.eqb c) s.
Definition TrimSpace (s : string) : string := trim_right is_space (trim_left is_space s).

(** [strings.Split(s, sep)] for a one-byte separator. *)
Fixpoint Split (s : string) (sep : ascii) : list string :=
  match s with
  | "" => [""]
  | String c s' =>
      if Ascii.eqb c sep then "" :: Split s' sep
      else match Split s' sep with
           | [] => [String c ""]
           | w :: ws => String c w :: ws
           end
  end.

(** [strings.ReplaceAll(s, c, "")] for a one-byte [c]. *)
Fixpoint RemoveAll (s : string) (c : ascii) : string :=
  match s with
  | "" => ""
  | String d s' => if Ascii.eqb c d then RemoveAll s' c else String d (RemoveAll s' c)
  end.

Fixpoint string_forall (P : ascii -> bool) (s : string) : bool :=
  match s with "" => true | String c s' => P c && string_forall P s' end.

(** ** Hexadecimal *)

Definition hex_digit (n : Z) : ascii := byte_of (if (n <? 10)%Z then 48 + n else 87 + n).

Definition hex_val (c : ascii) : option Z :=
  let n := byte_val c in
  if ((48 <=? n) && (n <=? 57))%Z then Some (n - 48)%Z
  else if ((97 <=? n) && (n <=? 102))%Z then Some (n - 87)%Z
  else if ((65 <=? n) && (n <=? 70))%Z then Some (n - 55)%Z
  else None.

(** [hex.EncodeToString] *)
Fixpoint hex_encode (s : string) : string :=
  match s with
  | "" => ""
  | String c s' =>
      String (hex_digit (byte_val c / 16)) (String (hex_digit (byte_val c mod 16)) (hex_encode s'))
  end.

(** [hex.DecodeString], [None] on an error. *)
Fixpoint hex_decode (s : string) : option string :=
  match s with
  | "" => Some ""
  | String _ "" => None
  | String a (String b s') =>
      match hex_val a, hex_val b, hex_decode s' with
      | Some x, Some y, Some r => Some (String (byte_of (x * 16 + y)) r)
      | _, _, _ => None
      end
  end.

(** [strconv.Itoa] and the verb [%d]. *)
Definition Itoa (z : Z) : string := pretty z.

Definition dquote : ascii := byte_of 34.
Definition backslash : ascii := byte_of 92.

(** [strconv.Quote] byte by byte; printable runes above 0x7F are copied. *)
Definition go_quote_byte (c : ascii) : string :=
  let n := byte_val c in
  if (n =? 34)%Z || (n =? 92)%Z then String backslash (String c "")
  else if (n =? 7)%Z then String backslash "a"
  else if (n =? 8)%Z then String backslash "b"
  else if (n =? 12)%Z then String backslash "f"
  else if (n =? 10)%Z then String backslash "n"
  else if (n =? 13)%Z then String backslash "r"
  else if (n =? 9)%Z then String backslash "t"
  else if (n =? 11)%Z then String backslash "v"
  else if (n <? 32)%Z || (n =? 127)%Z then String backslash (String "x" (hex_encode (String c "")))
  else String c "".

Fixpoint go_quote_body (s : string) : string :=
  match s with "" => "" | String c r => go_quote_byte c +:+ go_quote_body r end.

Definition Quote (s : string) : string := String dquote (go_quote_body s +:+ String dquote "").

(** [slices.Sort] on strings, in byte order. *)
Definition string_le (a b : string) : Prop := String.leb a b = true.
#[global] Instance string_le_dec a b : Decision (string_le a b).
Proof. unfold string_le. apply _. Defined.
Definition sort_strings (l : list string) : list string := merge_sort string_le l.

(** ** Lemmas *)

Lemma byte_val_range c : (0 <= byte_val c < 256)%Z.
Proof. unfold byte_val. pose proof (N_ascii_bounded c). lia. Qed.

Lemma byte_of_val c : byte_of (byte_val c) = c.
Proof.
  unfold byte_of. rewrite Z.mod_small by apply byte_val_range.
  unfold byte_val. rewrite N2Z.id. apply ascii_N_embedding.
Qed.

Lemma byte_val_of z : byte_val (byte_of z) = (z mod 256)%Z.
Proof.
  unfold byte_of, byte_val. pose proof (Z.mod_pos_bound z 256).
  rewrite N_ascii_embedding by lia. lia.
Qed.

Lemma byte_val_inj c d : byte_val c = byte_val d -> c = d.
Proof. intros H. by rewrite <-(byte_of_val c), <-(byte_of_val d), H. Qed.

Lemma string_app_nil_r s : s +:+ "" = s.
Proof. induction s; simpl; congruence. Qed.

Lemma string_app_assoc (a b c : string) : a +:+ (b +:+ c) = (a +:+ b) +:+ c.
Proof. induction a; simpl; congruence. Qed.

Lemma string_length_app (a b : string) :
  String.length (a +:+ b) = (String.length a + String.length b)%nat.
Proof. induction a; simpl; congruence. Qed.

Lemma string_app_inj_l (a b c : string) : a +:+ b = a +:+ c -> b = c.
Proof. induction a; simpl; [done|]. intros [=]; auto. Qed.

Lemma string_app_inj_len (a b c d : string) :
  String.length a = String.length b -> a +:+ c = b +:+ d -> a = b /\ c = d.
Proof.
  revert b. induction a as [|x a IH]; intros [|y b]; simpl; try lia; [done|].
  intros Hl [= -> H]. destruct (IH b) as [-> ->]; [lia|done|done].
Qed.

Lemma string_app_inj_r (a b c : string) : a +:+ c = b +:+ c -> a = b.
Proof.
  intros H. apply string_app_inj_len in H as [? _]; [done|].
  apply (f_equal String.length) in H. rewrite !string_length_app in H. lia.
Qed.

Lemma app_cases (a b c d : string) : a +:+ c = b +:+ d ->
  (exists m, b = a +:+ m /\ c = m +:+ d) \/ (exists m, a = b +:+ m /\ d = m +:+ c).
Proof.
  revert b. induction a as [|x a IH]; intros b H.
  - left. by exists b.
  - destruct b as [|y b].
    + right. by exists (String x a).
    + cbn in H. injection H as -> H. destruct (IH b H) as [(m & -> & ->)|(m & -> & ->)]; [left|right]; by exists m.
Qed.

Lemma String_tail_inj c d a b : String c a = String d b -> c = d /\ a = b.
Proof. by intros [= -> ->]. Qed.

Lemma string_forall_app P a b :
  string_forall P (a +:+ b) = string_forall P a && string_forall P b.
Proof. induction a; simpl; [done|]. by rewrite IHa, andb_assoc. Qed.

Lemma prefix_app p s : String.prefix p (p +:+ s) = true.
Proof.
  induction p as [|c p IH]; simpl; [by destruct s|].
  by destruct (ascii_dec c c).
Qed.

Lemma prefix_spec p s : String.prefix p s = true <-> exists r, s = p +:+ r.
Proof.
  split; [|intros [r ->]; apply prefix_app].
  revert s. induction p as [|c p IH]; intros s; simpl; [by eexists|].
  destruct s as [|d s]; simpl; [done|].
  destruct (ascii_dec c d) as [->|]; [|intros [=]].
  intros H. apply IH in H as [r ->]. by exists r.
Qed.

(** [Contains] finds exactly the strings that have [sub] as an infix. *)
Lemma Contains_spec s sub :
  Contains s sub = true <-> exists a b, s = a +:+ (sub +:+ b).
Proof.
  split.
  - induction s as [|c s IH]; cbn [Contains]; rewrite orb_true_iff.
    + intros [H|H]; [|done]. apply prefix_spec in H as [r H]. by exists "", r.
    + intros [H|H].
      * apply prefix_spec in H as [r H]. by exists "", r.
      * destruct (IH H) as (a & b & ->). by exists (String c a), b.
  - intros (a & b & ->). induction a as [|c a IH]; cbn [String.append Contains].
    + destruct (sub +:+ b) eqn:E; cbn [Contains]; rewrite <-E, prefix_app; done.
    + by rewrite IH, orb_true_r.
Qed.

Lemma Contains_app_r a s sub : Contains s sub = true -> Contains (a +:+ s) sub = true.
Proof.
  rewrite !Contains_spec. intros (x & y & ->). exists (a +:+ x), y.
  by rewrite string_app_assoc.
Qed.

Lemma Contains_app_l s b sub : Contains s sub = true -> Contains (s +:+ b) sub = true.
Proof.
  rewrite !Contains_spec. intros (x & y & ->). exists x, (y +:+ b).
  by rewrite <-!string_app_assoc.
Qed.

Lemma HasPrefix_spec s p : HasPrefix s p = true <-> exists r, s = p +:+ r.
Proof. apply prefix_spec. Qed.

Lemma HasSuffix_spec s p : HasSuffix s p = true <-> exists a, s = a +:+ p.
Proof.
  split.
  - induction s as [|c s IH]; cbn [HasSuffix]; rewrite orb_true_iff.
    + intros [H|H]; [|done]. apply String.eqb_eq in H as <-. by exists "".
    + intros [H|H].
      * apply String.eqb_eq in H as <-. by exists "".
      * destruct (IH H) as [a ->]. by exists (String c a).
  - intros [a ->]. induction a as [|c a IH]; cbn [String.append].
    + destruct p; cbn [HasSuffix]; by rewrite String.eqb_refl.
    + cbn [HasSuffix]. by rewrite IH, orb_true_r.
Qed.

(** *** Hexadecimal round trip *)

Lemma hex_val_digit n : (0 <= n < 16)%Z -> hex_val (hex_digit n) = Some n.
Proof.
  intros H. unfold hex_digit, hex_val. destruct (Z.ltb_spec n 10).
  - rewrite byte_val_of, Z.mod_small by lia.
    replace ((48 <=? 48 + n) && (48 + n <=? 57))%Z with true by (symmetry; lia).
    f_equal; lia.
  - rewrite byte_val_of, Z.mod_small by lia.
    replace ((48 <=? 87 + n) && (87 + n <=? 57))%Z with false by (symmetry; lia).
    replace ((97 <=? 87 + n) && (87 + n <=? 102))%Z with true by (symmetry; lia).
    f_equal; lia.
Qed.

Lemma hex_decode_encode s : hex_decode (hex_encode s) = Some s.
Proof.
  induction s as [|c s IH]; [done|]. cbn [hex_encode hex_decode].
  pose proof (byte_val_range c).
  rewrite !hex_val_digit, IH.
  - f_equal. f_equal. rewrite <-(byte_of_val c) at 3. f_equal.
    rewrite (Z.div_mod (byte_val c) 16) at 3 by lia. lia.
  - apply Z.mod_pos_bound; lia.
  - split; [apply Z.div_pos; lia|apply Z.div_lt_upper_bound; lia].
Qed.

Lemma hex_encode_inj a b : hex_encode a = hex_encode b -> a = b.
Proof.
  intros H. apply (f_equal hex_decode) in H. rewrite !hex_decode_encode in H. by injection H.
Qed.

Lemma hex_encode_length s : String.length (hex_encode s) = (2 * String.length s)%nat.
Proof. induction s; simpl; [done|]. rewrite IHs. lia. Qed.

Lemma Itoa_inj a b : Itoa a = Itoa b -> a = b.
Proof. apply (inj pretty). Qed.

(** *** Positions *)

Lemma substring_0_app (a b : string) : String.substring 0 (String.length a) (a +:+ b) = a.
Proof. induction a as [|c a IH]; cbn; [by destruct b|]. by rewrite IH. Qed.

Lemma substring_skip (a b : string) m :
  String.substring (String.length a) m (a +:+ b) = String.substring 0 m b.
Proof. induction a as [|c a IH]; cbn; auto. Qed.

Lemma slice_from_app (a b : string) : slice_from (a +:+ b) (String.length a) = b.
Proof.
  unfold slice_from. rewrite substring_skip, string_length_app.
  replace (String.length a + String.length b - String.length a)%nat with (String.length b) by lia.
  rewrite <-(string_app_nil_r b) at 2. apply substring_0_app.
Qed.

Lemma slice_app_mid (a b c : string) :
  slice (a +:+ b +:+ c) (String.length a) (String.length a + String.length b) = b.
Proof.
  unfold slice. rewrite substring_skip.
  replace (String.length a + String.length b - String.length a)%nat with (String.length b) by lia.
  apply substring_0_app.
Qed.

Definition no_byte (c : ascii) (s : string) : bool := string_forall (fun d => negb (Ascii.eqb c d)) s.

Lemma prefix_byte c d s : String.prefix (String c "") (String d s) = Ascii.eqb c d.
Proof. cbn. destruct (ascii_dec c d) as [->|H]; [by destruct s; rewrite Ascii.eqb_refl|].
  symmetry. by apply Ascii.eqb_neq. Qed.

Lemma Index_byte_none s c : (Index s (String c "") < 0)%Z <-> no_byte c s = true.
Proof.
  induction s as [|d s IH]; [done|]. cbn [Index no_byte string_forall].
  rewrite prefix_byte. destruct (Ascii.eqb c d); cbn [negb andb]; [done|].
  fold (no_byte c s). rewrite <-IH. destruct (Z.ltb_spec (Index s (String c "")) 0); lia.
Qed.

Lemma Index_byte_app a c b : no_byte c a = true ->
  Index (a +:+ String c b) (String c "") = Z.of_nat (String.length a).
Proof.
  induction a as [|d a IH]; intros H.
  - cbn [String.append Index]. by rewrite prefix_byte, Ascii.eqb_refl.
  - cbn [no_byte string_forall] in H. fold (no_byte c a) in H. apply andb_true_iff in H as [Hd H].
    cbn [String.append Index]. rewrite prefix_byte. apply negb_true_iff in Hd. rewrite Hd, IH by done.
    cbn [String.length]. destruct (Z.ltb_spec (Z.of_nat (String.length a)) 0); lia.
Qed.

Lemma Index_byte_some s c : (0 <= Index s (String c ""))%Z ->
  exists a b, s = a +:+ String c b /\ no_byte c a = true.
Proof.
  induction s as [|d s IH]; cbn [Index]; [cbn; lia|]. rewrite prefix_byte.
  destruct (Ascii.eqb_spec c d) as [->|Hd]; [by exists "", s|].
  destruct (Z.ltb_spec (Index s (String c "")) 0); [lia|]. intros _.
  destruct IH as (a & b & -> & H0); [done|]. exists (String d a), b. split; [done|].
  unfold no_byte in *. cbn [string_forall]. rewrite H0. by apply Ascii.eqb_neq in Hd as ->.
Qed.

(** *** Splitting *)

Lemma Split_nonempty s c : Split s c <> [].
Proof. induction s as [|d s IH]; cbn [Split]; [done|]. by repeat case_match. Qed.

Lemma Split_app a b c : Split (a +:+ String c b) c = (Split a c ++ Split b c)%list.
Proof.
  induction a as [|d a IH]; cbn [String.append Split]; [by rewrite Ascii.eqb_refl|].
  rewrite IH. destruct (Ascii.eqb d c); [done|].
  pose proof (Split_nonempty a c). by destruct (Split a c).
Qed.

Lemma Split_no_byte s c : no_byte c s = true -> Split s c = [s].
Proof.
  unfold no_byte. induction s as [|d s IH]; cbn [string_forall Split]; [done|].
  intros H. apply andb_true_iff in H as [Hd H]. apply negb_true_iff in Hd.
  rewrite Ascii.eqb_sym, Hd, IH by done. done.
Qed.

Lemma string_forall_impl (P Q : ascii -> bool) s :
  (forall c, P c = true -> Q c = true) -> string_forall P s = true -> string_forall Q s = true.
Proof.
  intros HPQ. induction s as [|c s IH]; cbn [string_forall]; [done|].
  intros H. apply andb_true_iff in H as [Hc H]. by rewrite HPQ, IH.
Qed.

(** *** Words *)

Definition word (w : string) : Prop := w <> "" /\ string_forall (fun c => negb (is_space c)) w = true.

Lemma fields_raw_spec s :
  string_forall (fun c => negb (is_space c)) (fields_raw s).1 = true /\ Forall word (fields_raw s).2.
Proof.
  induction s as [|c s [IH1 IH2]]; [done|]. cbn [fields_raw]. destruct (fields_raw s) as [w ws]. cbn [fst snd] in *.
  destruct (is_space c) eqn:Hc; cbn [fst snd string_forall]; [|by rewrite Hc, IH1].
  split; [done|]. destruct (String.eqb_spec w ""); [done|]. by constructor.
Qed.

Lemma Fields_words s : Forall word (Fields s).
Proof.
  unfold Fields. pose proof (fields_raw_spec s) as [H1 H2]. destruct (fields_raw s) as [w ws]. cbn [fst snd] in *.
  destruct (String.eqb_spec w ""); [done|]. by constructor.
Qed.

Lemma fields_raw_word w s :
  string_forall (fun c => negb (is_space c)) w = true ->
  fields_raw (w +:+ s) = (w +:+ (fields_raw s).1, (fields_raw s).2).
Proof.
  induction w as [|c w IH]; cbn [String.append string_forall fields_raw]; intros H; [by destruct (fields_raw s)|].
  apply andb_true_iff in H as [Hc H]. apply negb_true_iff in Hc. by rewrite IH, Hc.
Qed.

Lemma Fields_Join ws : Forall word ws -> Fields (Join ws " ") = ws.
Proof.
  intros H. destruct ws as [|w ws]; [done|].
  assert (E : fields_raw (Join (w :: ws) " ") = (w, ws)).
  { revert w H. induction ws as [|w' ws IH]; intros w H; apply Forall_cons in H as [[Hw1 Hw2] H].
    - change (Join [w] " ") with w. rewrite <-(string_app_nil_r w) at 1. rewrite fields_raw_word by done.
      cbn. by rewrite string_app_nil_r.
    - change (Join (w :: w' :: ws) " ") with (w +:+ String " " (Join (w' :: ws) " ")).
      rewrite fields_raw_word by done. cbn [fields_raw]. rewrite IH by done.
      change (is_space " ") with true. cbv iota. cbn [fst snd]. apply Forall_cons in H as [[Hw' _] _].
      apply String.eqb_neq in Hw' as ->. by rewrite string_app_nil_r. }
  unfold Fields. rewrite E. apply Forall_cons in H as [[Hw _] _]. by apply String.eqb_neq in Hw as ->.
Qed.

Lemma is_space_lower c : is_space (lower_byte c) = is_space c.
Proof. by destruct c as [[] [] [] [] [] [] [] []]. Qed.

Lemma lower_byte_idem c : lower_byte (lower_byte c) = lower_byte c.
Proof. by destruct c as [[] [] [] [] [] [] [] []]. Qed.

Lemma ToLower_app a b : ToLower (a +:+ b) = ToLower a +:+ ToLower b.
Proof. unfold ToLower. induction a; cbn; congruence. Qed.

Lemma ToLower_idem s : ToLower (ToLower s) = ToLower s.
Proof. unfold ToLower. induction s as [|c s IH]; cbn; [done|]. by rewrite lower_byte_idem, IH. Qed.

Lemma ToLower_Join ws sep : ToLower (Join ws sep) = Join (map ToLower ws) (ToLower sep).
Proof.
  induction ws as [|w [|w' ws] IH]; [done|done|].
  change (Join (w :: w' :: ws) sep) with (w +:+ sep +:+ Join (w' :: ws) sep).
  rewrite !ToLower_app, IH. done.
Qed.

Lemma ToLower_word w : word w -> word (ToLower w).
Proof.
  intros [Hne H]. split; [by destruct w|]. clear Hne. unfold ToLower. induction w as [|c w IH]; [done|].
  cbn in *. apply andb_true_iff in H as [Hc H]. by rewrite is_space_lower, Hc, IH.
Qed.

Lemma word_no_space w : word w -> no_byte " " w = true.
Proof.
  intros [_ H]. revert H. apply string_forall_impl. intros c Hc. apply negb_true_iff, Ascii.eqb_neq.
  by intros <-.
Qed.

(** ** Quoting and sorting *)

(** The inverse of [go_quote_byte] on the front of a string. *)
Definition unquote_byte (s : string) : option (ascii * string) :=
  match s with
  | "" => None
  | String c r =>
      if Ascii.eqb c backslash then
        match r with
        | "" => None
        | String d r =>
            if Ascii.eqb d "a" then Some (byte_of 7, r) else if Ascii.eqb d "b" then Some (byte_of 8, r)
            else if Ascii.eqb d "f" then Some (byte_of 12, r) else if Ascii.eqb d "n" then Some (byte_of 10, r)
            else if Ascii.eqb d "r" then Some (byte_of 13, r) else if Ascii.eqb d "t" then Some (byte_of 9, r)
            else if Ascii.eqb d "v" then Some (byte_of 11, r)
            else if Ascii.eqb d "x" then
              match r with
              | String h (String l r) =>
                  match hex_val h, hex_val l with
                  | Some x, Some y => Some (byte_of (x * 16 + y), r)
                  | _, _ => None
                  end
              | _ => None
              end
            else Some (d, r)
        end
      else if Ascii.eqb c dquote then None else Some (c, r)
  end.

Lemma unquote_go_quote_byte c r : unquote_byte (go_quote_byte c +:+ r) = Some (c, r).
Proof. destruct c as [[] [] [] [] [] [] [] []]; reflexivity. Qed.

Lemma go_quote_body_inj a b x y :
  go_quote_body a +:+ String dquote x = go_quote_body b +:+ String dquote y -> a = b /\ x = y.
Proof.
  assert (Hq : forall z, unquote_byte (String dquote z) = None) by done.
  revert b. induction a as [|c a IH]; intros [|d b]; cbn [go_quote_body]; intros H.
  - by injection H as ->.
  - apply (f_equal unquote_byte) in H. by rewrite <-string_app_assoc, unquote_go_quote_byte in H.
  - apply (f_equal unquote_byte) in H. by rewrite <-string_app_assoc, unquote_go_quote_byte in H.
  - apply (f_equal unquote_byte) in H. rewrite <-!string_app_assoc, !unquote_go_quote_byte in H.
    injection H as -> H. by destruct (IH b H) as [-> ->].
Qed.

Lemma Quote_app_inj a b x y : Quote a +:+ x = Quote b +:+ y -> a = b /\ x = y.
Proof.
  unfold Quote. cbn [String.append]. intros [= H]. rewrite <-!string_app_assoc in H. by apply go_quote_body_inj in H.
Qed.

#[global] Instance string_le_total : Total string_le.
Proof. intros a b. apply String.leb_total. Qed.
#[global] Instance string_le_antisymm : AntiSymm (=) string_le.
Proof. intros a b. apply String.leb_antisym. Qed.

Lemma string_le_cons c a d b :
  string_le (String c a) (String d b) <->
  (N_of_ascii c < N_of_ascii d)%N \/ (c = d /\ string_le a b).
Proof.
  unfold string_le, String.leb. cbn [String.compare]. unfold Ascii.compare.
  destruct (N.compare_spec (N_of_ascii c) (N_of_ascii d)) as [H|H|H].
  - apply (f_equal ascii_of_N) in H. rewrite !ascii_N_embedding in H. subst. split; [by right|].
    intros [?|[_ ?]]; [lia|done].
  - split; [by left|done].
  - split; [done|]. intros [?|[-> _]]; lia.
Qed.

#[global] Instance string_le_trans : Transitive string_le.
Proof.
  intros a. induction a as [|c a IH]; intros [|d b] [|e g]; try done.
  rewrite !string_le_cons. intros [?|[-> ?]] [?|[-> ?]]; [left; lia|by left|by left|right]. eauto.
Qed.

Lemma sort_strings_perm l l' : sort_strings l = sort_strings l' <-> l ≡ₚ l'.
Proof.
  unfold sort_strings. split.
  - intros H. by rewrite <-(merge_sort_Permutation string_le l), H, merge_sort_Permutation.
  - intros H. apply (Sorted_unique string_le); [apply Sorted_merge_sort, _..|].
    by rewrite !merge_sort_Permutation.
Qed.

(** ** Trimmed text has nothing to trim *)

Lemma trim_right_cons f c s : f c = false -> trim_right f (String c s) = String c (trim_right f s).
Proof. intros H. cbn [trim_right]. by rewrite H, andb_false_r. Qed.

Lemma trim_right_app f p s : string_forall (fun c => negb (f c)) p = true -> trim_right f (p +:+ s) = p +:+ trim_right f s.
Proof.
  induction p as [|c p IH]; [done|]. cbn [string_forall String.append]. intros [Hc Hp]%andb_true_iff.
  rewrite trim_right_cons by (by apply negb_true_iff). by rewrite IH.
Qed.

Lemma trim_left_stop f c s : f c = false -> trim_left f (String c s) = String c s.
Proof. intros H. cbn. by rewrite H. Qed.

Lemma trim_right_idem f s : trim_right f (trim_right f s) = trim_right f s.
Proof.
  induction s as [|c s IH]; [done|]. cbn [trim_right]. destruct (String.eqb_spec (trim_right f s) "") as [E|E]; cbn [andb].
  - destruct (f c) eqn:Hc; [done|]. rewrite trim_right_cons by done. by rewrite IH, E.
  - cbn [trim_right]. rewrite IH. by apply String.eqb_neq in E as ->.
Qed.

Lemma trim_left_head f s : match trim_left f s with "" => True | String c _ => f c = false end.
Proof. induction s as [|c s IH]; cbn; [done|]. by destruct (f c) eqn:E. Qed.

Lemma trim_right_head f c s : f c = false -> exists r, trim_right f (String c s) = String c r.
Proof. intros H. rewrite trim_right_cons by done. eauto. Qed.

Lemma TrimSpace_idem s : TrimSpace (TrimSpace s) = TrimSpace s.
Proof.
  unfold TrimSpace at 1 2. pose proof (trim_left_head is_space s) as H. unfold TrimSpace.
  destruct (trim_left is_space s) as [|c r]; [done|].
  destruct (trim_right_head is_space c r H) as [r' E]. rewrite E, (trim_left_stop _ _ _ H), <- E. apply trim_right_idem.
Qed.
