(* ===== verification/Lines.v ===== *)
(** * Lines of a stream and server-sent events

    [bufio.Scanner] with its default line split and its limit of 64 KiB on a line, which the
    clients of the broker and the parser of conventions read with, and the texts of the
    events the broker writes: [writeSSEMessage] of [internal/broker/mcp.go], [writeSSEEvent]
    of [internal/broker/rally.go] and the heartbeats. *)

From S2P Require Import Prelude GoStrings.
From Stdlib Require Import Ascii String.
#[local] Open Scope string_scope.

Definition nl_byte : ascii := byte_of 10.
Definition cr_byte : ascii := byte_of 13.
Definition nl : string := String nl_byte "".

(** [bufio.MaxScanTokenSize]: the size of the largest buffer; a line must leave room in it
    for its end. *)
Definition MaxScanTokenSize : Z := 65536.
Definition too_long (line : string) : bool := (MaxScanTokenSize <=? Z.of_nat (String.length line))%Z.

(** One carriage return at the end of a line is dropped. *)
Fixpoint drop_cr (s : string) : string :=
  match s with
  | "" => ""
  | String c r => if String.eqb r "" && Ascii.eqb c cr_byte then "" else String c (drop_cr r)
  end.

(** The tokens of the pieces between newlines, and whether the scanner stopped at a piece
    that is too long; the piece after the last newline is no line when it is empty. *)
Fixpoint tokens (pieces : list string) : list string * bool :=
  match pieces with
  | [] => ([], false)
  | p :: r =>
      if too_long p then ([], true)
      else match r with
           | [] => (if String.eqb p "" then [] else [drop_cr p], false)
           | _ => let '(ls, e) := tokens r in (drop_cr p :: ls, e)
           end
  end.

Definition scan (s : string) : list string * bool := tokens (Split s nl_byte).

(** A line that is read back as it was written. *)
Definition line_ok (l : string) : bool := no_byte nl_byte l && no_byte cr_byte l && negb (too_long l).

(** ** Events *)

(** [fmt.Fprintf(w, "event: %s\ndata: %s\n\n", ..)]. *)
Definition named_event (name data : string) : string := "event: " +:+ name +:+ nl +:+ "data: " +:+ data +:+ nl +:+ nl.
(** [fmt.Fprintf(w, "data: %s\n\n", ..)]. *)
Definition data_event (data : string) : string := "data: " +:+ data +:+ nl +:+ nl.

(* src: internal/broker/mcp.go 148-154 writeSSEMessage *)
Definition writeSSEMessage (data : string) : string := named_event "message" data.

(* src: internal/broker/mcp.go 106-107 Server.handleMCPSSE *)
Definition endpoint_path (id : string) : string := "/mcp/message?session_id=" +:+ id.
(* src: internal/broker/mcp.go 107-110 Server.handleMCPSSE *)
Definition endpoint_event (id : string) : string := named_event "endpoint" (endpoint_path id).

(* src: internal/broker/mcp.go 138-143 Server.handleMCPSSE *)
Definition heartbeat : string := ": ping" +:+ nl +:+ nl.

(** ** Scanning what was written *)

Lemma drop_cr_id s : no_byte cr_byte s = true -> drop_cr s = s.
Proof.
  unfold no_byte. induction s as [|c s IH]; [done|]. cbn [string_forall drop_cr]. intros [Hc Hs]%andb_true_iff.
  apply negb_true_iff in Hc. rewrite Ascii.eqb_sym in Hc. rewrite Hc, andb_false_r. by rewrite IH.
Qed.

Lemma drop_cr_app s : drop_cr (s +:+ String cr_byte "") = s.
Proof.
  induction s as [|c s IH]; [done|]. cbn [String.append drop_cr]. rewrite IH.
  assert (String.eqb (s +:+ String cr_byte "") "" = false) as -> by by apply String.eqb_neq; destruct s. done.
Qed.

Lemma scan_empty : scan "" = ([], false).
Proof. reflexivity. Qed.

Lemma scan_line_raw l rest : no_byte nl_byte l = true -> too_long l = false ->
  scan (l +:+ String nl_byte rest) = (drop_cr l :: fst (scan rest), snd (scan rest)).
Proof.
  intros Hn Hl. unfold scan. rewrite Split_app, Split_no_byte by done. cbn [app tokens]. rewrite Hl.
  pose proof (Split_nonempty rest nl_byte). destruct (Split rest nl_byte) as [|p ps]; [done|].
  by destruct (tokens (p :: ps)).
Qed.

Lemma scan_line l rest : line_ok l = true -> scan (l +:+ nl +:+ rest) = (l :: fst (scan rest), snd (scan rest)).
Proof.
  unfold line_ok. intros H. reflect_bools. change (nl +:+ rest) with (String nl_byte rest).
  rewrite scan_line_raw by done. by rewrite drop_cr_id.
Qed.

Lemma scan_empty_line rest : scan (nl +:+ rest) = ("" :: fst (scan rest), snd (scan rest)).
Proof. apply (scan_line ""). reflexivity. Qed.

(** A line at the limit ends the scan: nothing after it is read. *)
Lemma scan_too_long l rest : no_byte nl_byte l = true -> too_long l = true -> scan (l +:+ rest) = ([], true).
Proof.
  intros Hn Hl. unfold scan.
  assert (H : exists p ps, Split (l +:+ rest) nl_byte = p :: ps /\ (String.length l <= String.length p)%nat).
  { clear Hl. unfold no_byte in Hn. induction l as [|c l IH].
    - pose proof (Split_nonempty rest nl_byte). cbn [String.append]. destruct (Split rest nl_byte) as [|p ps]; [done|].
      exists p, ps. cbn. split; [done|lia].
    - cbn [string_forall] in Hn. apply andb_true_iff in Hn as [Hc Hn]. apply negb_true_iff in Hc.
      destruct (IH Hn) as (p & ps & E & Hlen). cbn [String.append Split]. rewrite Ascii.eqb_sym, Hc, E.
      exists (String c p), ps. cbn [String.length]. split; [done|lia]. }
  destruct H as (p & ps & -> & Hlen). cbn [tokens].
  assert (too_long p = true) as ->; [|done]. unfold too_long in *. apply Z.leb_le. apply Z.leb_le in Hl. lia.
Qed.

Lemma line_ok_app a b : line_ok a = true -> line_ok b = true ->
  (Z.of_nat (String.length a) + Z.of_nat (String.length b) < MaxScanTokenSize)%Z -> line_ok (a +:+ b) = true.
Proof.
  unfold line_ok, no_byte, too_long. intros Ha Hb Hl. rewrite !string_forall_app, string_length_app.
  rewrite !andb_true_iff in *. destruct Ha as [[-> ->] _], Hb as [[-> ->] _]. split; [done|].
  apply negb_true_iff, Z.leb_gt. lia.
Qed.

Lemma scan_named_event name data rest : line_ok ("event: " +:+ name) = true -> line_ok ("data: " +:+ data) = true ->
  scan (named_event name data +:+ rest) = (("event: " +:+ name) :: ("data: " +:+ data) :: "" :: fst (scan rest), snd (scan rest)).
Proof.
  intros H1 H2. unfold named_event.
  assert (E : ("event: " +:+ name +:+ nl +:+ "data: " +:+ data +:+ nl +:+ nl) +:+ rest =
              ("event: " +:+ name) +:+ nl +:+ (("data: " +:+ data) +:+ nl +:+ (nl +:+ rest))).
  { rewrite <-!string_app_assoc. done. }
  rewrite E, scan_line, scan_line, scan_empty_line by done. done.
Qed.

Lemma scan_data_event data rest : line_ok ("data: " +:+ data) = true ->
  scan (data_event data +:+ rest) = (("data: " +:+ data) :: "" :: fst (scan rest), snd (scan rest)).
Proof.
  intros H. unfold data_event.
  assert (E : ("data: " +:+ data +:+ nl +:+ nl) +:+ rest = ("data: " +:+ data) +:+ nl +:+ (nl +:+ rest)).
  { rewrite <-!string_app_assoc. done. }
  rewrite E, scan_line, scan_empty_line by done. done.
Qed.

Lemma scan_heartbeat rest : scan (heartbeat +:+ rest) = (": ping" :: "" :: fst (scan rest), snd (scan rest)).
Proof.
  change (heartbeat +:+ rest) with (": ping" +:+ nl +:+ (nl +:+ rest)).
  by rewrite scan_line, scan_empty_line.
Qed.
