(* ===== verification/Sha256.v ===== *)
(** * crypto/sha256

    SHA-256 (FIPS 180-4) over byte strings, executable: the digests the ledger,
    the Merkle log and the gate pins commit to are computed, not assumed.  No
    theorem relies on the internals below: the security properties name the
    absence of a collision among the inputs actually hashed as a hypothesis. *)

From S2P Require Import Prelude GoStrings.
From Stdlib Require Import Ascii String NArith.
#[local] Open Scope N_scope.

Definition w32 (x : N) : N := N.land x 0xffffffff.
Definition rotr (x n : N) : N := N.lor (N.shiftr x n) (w32 (N.shiftl x (32 - n))).

Definition ch (x y z : N) : N := N.lxor (N.land x y) (N.land (N.lxor x (2 ^ 32 - 1)) z).
Definition maj (x y z : N) : N := N.lxor (N.lxor (N.land x y) (N.land x z)) (N.land y z).
Definition bsig0 (x : N) : N := N.lxor (N.lxor (rotr x 2) (rotr x 13)) (rotr x 22).
Definition bsig1 (x : N) : N := N.lxor (N.lxor (rotr x 6) (rotr x 11)) (rotr x 25).
Definition ssig0 (x : N) : N := N.lxor (N.lxor (rotr x 7) (rotr x 18)) (N.shiftr x 3).
Definition ssig1 (x : N) : N := N.lxor (N.lxor (rotr x 17) (rotr x 19)) (N.shiftr x 10).

(** The round constants are the first 32 bits of the fractional parts of the cube roots
    of the first 64 primes, the initial state those of the square roots of the first 8. *)
Definition primes : list N :=
  filter (fun p => forallb (fun d => (d =? 1) || negb (p mod d =? 0)) (map N.of_nat (seq 1 (N.to_nat p - 1))))
    (map N.of_nat (seq 2 310)).

(** The integer cube root of a number below 2^108, bit by bit. *)
Definition cube_root (n : N) : N :=
  fold_left (fun r b => let t := r + 2 ^ b in if t * t * t <=? n then t else r)
    (rev (map N.of_nat (seq 0 36))) 0.

Definition round_constants : list N :=
  Eval vm_compute in map (fun p => w32 (cube_root (p * 2 ^ 96))) primes.

Record hash_state := HashState { h0 : N; h1 : N; h2 : N; h3 : N; h4 : N; h5 : N; h6 : N; h7 : N }.

Definition initial_state : hash_state :=
  Eval vm_compute in
  match map (fun p => w32 (N.sqrt (p * 2 ^ 64))) (take 8 primes) with
  | [a; b; c; d; e; f; g; h] => HashState a b c d e f g h
  | _ => HashState 0 0 0 0 0 0 0 0
  end.

(** The message schedule, most recent word first. *)
Definition next_word (ws : list N) : N :=
  w32 (ssig1 (nth 1 ws 0) + nth 6 ws 0 + ssig0 (nth 14 ws 0) + nth 15 ws 0).

Fixpoint schedule (n : nat) (ws : list N) : list N :=
  match n with O => ws | S n' => schedule n' (next_word ws :: ws) end.

Definition round (s : hash_state) (kw : N * N) : hash_state :=
  let '(k, w) := kw in
  let t1 := h7 s + bsig1 (h4 s) + ch (h4 s) (h5 s) (h6 s) + k + w in
  let t2 := bsig0 (h0 s) + maj (h0 s) (h1 s) (h2 s) in
  HashState (w32 (t1 + t2)) (h0 s) (h1 s) (h2 s) (w32 (h3 s + t1)) (h4 s) (h5 s) (h6 s).

Definition compress (s : hash_state) (block : list N) : hash_state :=
  let ws := rev (schedule 48 (rev block)) in
  let r := fold_left round (combine round_constants ws) s in
  HashState (w32 (h0 s + h0 r)) (w32 (h1 s + h1 r)) (w32 (h2 s + h2 r)) (w32 (h3 s + h3 r))
            (w32 (h4 s + h4 r)) (w32 (h5 s + h5 r)) (w32 (h6 s + h6 r)) (w32 (h7 s + h7 r)).

(** ** Padding and blocks *)

Fixpoint bytes_of (s : string) : list N :=
  match s with EmptyString => [] | String c s' => N_of_ascii c :: bytes_of s' end.

(** [be_bytes n x] is the [n]-byte big-endian form of [x]. *)
Fixpoint be_bytes (n : nat) (x : N) : list N :=
  match n with O => [] | S n' => be_bytes n' (N.shiftr x 8) ++ [N.land x 255] end.

Definition pad (m : list N) : list N :=
  let len := N.of_nat (List.length m) in
  let zeros := (120 - (len + 1) mod 64) mod 64 in
  m ++ 0x80 :: repeat 0 (N.to_nat zeros) ++ be_bytes 8 (8 * len).

Fixpoint words_of (bs : list N) : list N :=
  match bs with
  | a :: b :: c :: d :: r => (((a * 256 + b) * 256 + c) * 256 + d) :: words_of r
  | _ => []
  end.

(** [blocks fuel ws] cuts [ws] into groups of sixteen words; [length ws] is
    enough fuel, since each group consumes at least one word. *)
Fixpoint blocks (fuel : nat) (ws : list N) : list (list N) :=
  match fuel, ws with
  | S f, _ :: _ => take 16 ws :: blocks f (drop 16 ws)
  | _, _ => []
  end.

Definition word_string (x : N) : string :=
  String (ascii_of_N (N.shiftr x 24))
    (String (ascii_of_N (N.land (N.shiftr x 16) 255))
      (String (ascii_of_N (N.land (N.shiftr x 8) 255))
        (String (ascii_of_N (N.land x 255)) EmptyString))).

Definition state_string (s : hash_state) : string :=
  word_string (h0 s) +:+ word_string (h1 s) +:+ word_string (h2 s) +:+ word_string (h3 s) +:+
  word_string (h4 s) +:+ word_string (h5 s) +:+ word_string (h6 s) +:+ word_string (h7 s).

(** [sha256.Sum256] *)
Definition sha256 (m : string) : string :=
  let ws := words_of (pad (bytes_of m)) in
  state_string (fold_left compress (blocks (List.length ws) ws) initial_state).

(** [sha256.Size] *)
Definition Size : nat := 32.

Definition sha256_hex (m : string) : string := hex_encode (sha256 m).

(** No two distinct members of [inputs] have the same digest. *)
Definition CollisionFree (inputs : list string) : Prop :=
  forall a b, a ∈ inputs -> b ∈ inputs -> sha256 a = sha256 b -> a = b.

(** ** Lemmas *)

Lemma sha256_length m : String.length (sha256 m) = Size.
Proof. reflexivity. Qed.

(** Test vectors of FIPS 180-4. *)
Example sha256_empty :
  sha256_hex ""%string = "e3b0c44298fc1c149afbf4c8996fb92427ae41e4649b934ca495991b7852b855"%string.
Proof. vm_compute. reflexivity. Qed.

Example sha256_abc :
  sha256_hex "abc"%string = "ba7816bf8f01cfea414140de5dae2223b00361a396177a9cb410ff61f20015ad"%string.
Proof. vm_compute. reflexivity. Qed.

Example sha256_two_blocks :
  sha256_hex "abcdbcdecdefdefgefghfghighijhijkijkljklmklmnlmnomnopnopq"%string
  = "248d6a61d20638b8e5c026930c3e6039a33ce45964ff2167f6ecedd419db06c1"%string.
Proof. vm_compute. reflexivity. Qed.

#[global] Opaque sha256.

Lemma sha256_hex_length m : String.length (sha256_hex m) = 64%nat.
Proof. unfold sha256_hex. by rewrite hex_encode_length, sha256_length. Qed.

Lemma sha256_hex_inj a b : sha256_hex a = sha256_hex b -> sha256 a = sha256 b.
Proof. apply hex_encode_inj. Qed.

Lemma CollisionFree_mono xs ys : xs ⊆ ys -> CollisionFree ys -> CollisionFree xs.
Proof. intros Hs H a b Ha Hb. apply H; set_solver. Qed.

(** The check that decides [CollisionFree] on a concrete list of inputs. *)
Definition collision_free_b (inputs : list string) : bool :=
  let digests := map (fun a => (a, sha256 a)) inputs in
  forallb (fun p => forallb (fun q =>
    negb (String.eqb (snd p) (snd q)) || String.eqb (fst p) (fst q)) digests) digests.

Lemma collision_free_b_sound inputs : collision_free_b inputs = true -> CollisionFree inputs.
Proof.
  unfold collision_free_b. rewrite forallb_forall. intros H a b Ha Hb E.
  assert (Hin : forall x, x ∈ inputs -> In (x, sha256 x) (map (fun a => (a, sha256 a)) inputs)).
  { intros x Hx. apply in_map_iff. exists x. split; [done|by apply list_elem_of_In]. }
  specialize (H _ (Hin a Ha)). rewrite forallb_forall in H. specialize (H _ (Hin b Hb)).
  simpl in H. rewrite E, String.eqb_refl in H. simpl in H. by apply String.eqb_eq.
Qed.
