(* ===== verification/Json.v ===== *)
(** * encoding/json

    The part of the package [encoding/json] the modelled code relies on: the
    compact encoder ([json.Marshal], HTML escaping on) and the decoder
    ([json.Unmarshal]) as a parser of the JSON grammar, both on byte strings.
    A number keeps its literal, as the decoder converts it only when it knows the
    field's type.  The main result is the round trip [decode_encode]: the encoder's
    output followed by anything parses back to the value, so two values with the
    same encoding are equal even when other bytes follow. *)

From S2P Require Import Prelude GoStrings.
From Stdlib Require Import Ascii String.
#[local] Open Scope string_scope.

Unset Elimination Schemes.
Inductive json : Type :=
  | JNull
  | JBool (b : bool)
  | JNum (lit : string)
  | JStr (s : string)
  | JArr (l : list json)
  | JObj (l : list (string * json)).
Set Elimination Schemes.

(** Induction with the hypothesis for every element and member. *)
Section JsonInd.
Context (P : json -> Prop).
Hypothesis Hnull : P JNull.
Hypothesis Hbool : forall b, P (JBool b).
Hypothesis Hnum : forall n, P (JNum n).
Hypothesis Hstr : forall s, P (JStr s).
Hypothesis Harr : forall l, Forall P l -> P (JArr l).
Hypothesis Hobj : forall l, Forall (fun kv => P (snd kv)) l -> P (JObj l).

Fixpoint json_nested_ind (j : json) : P j :=
  match j with
  | JNull => Hnull
  | JBool b => Hbool b
  | JNum n => Hnum n
  | JStr s => Hstr s
  | JArr l =>
      Harr l ((fix go l : Forall P l :=
        match l with
        | [] => @List.Forall_nil _ _
        | x :: r => @List.Forall_cons _ _ x r (json_nested_ind x) (go r)
        end) l)
  | JObj l =>
      Hobj l ((fix go l : Forall (fun kv => P (snd kv)) l :=
        match l with
        | [] => @List.Forall_nil _ _
        | kv :: r => @List.Forall_cons _ _ kv r (json_nested_ind (snd kv)) (go r)
        end) l)
  end.
End JsonInd.

(** ** UTF-8 *)

Definition in_range (lo hi : Z) (c : ascii) : bool :=
  ((lo <=? byte_val c) && (byte_val c <=? hi))%Z.
Definition is_cont (c : ascii) : bool := in_range 0x80 0xBF c.
Definition is_ascii (c : ascii) : bool := (byte_val c <? 0x80)%Z.

(** [utf8_tail c s]: the number of continuation bytes of the rune that starts with
    the byte [c] followed by [s] ([utf8.DecodeRune]); [None] for a rune error. *)
Definition utf8_tail (c : ascii) (s : string) : option nat :=
  if is_ascii c then Some 0%nat
  else if in_range 0xC2 0xDF c then
    match s with String a _ => if is_cont a then Some 1%nat else None | _ => None end
  else if in_range 0xE0 0xEF c then
    match s with
    | String a (String b _) =>
        let lo := if (byte_val c =? 0xE0)%Z then 0xA0%Z else 0x80%Z in
        let hi := if (byte_val c =? 0xED)%Z then 0x9F%Z else 0xBF%Z in
        if in_range lo hi a && is_cont b then Some 2%nat else None
    | _ => None
    end
  else if in_range 0xF0 0xF4 c then
    match s with
    | String a (String b (String d _)) =>
        let lo := if (byte_val c =? 0xF0)%Z then 0x90%Z else 0x80%Z in
        let hi := if (byte_val c =? 0xF4)%Z then 0x8F%Z else 0xBF%Z in
        if in_range lo hi a && is_cont b && is_cont d then Some 3%nat else None
    | _ => None
    end
  else None.

Fixpoint utf8_valid (s : string) : bool :=
  match s with
  | "" => true
  | String c s' =>
      match utf8_tail c s' with
      | Some 0%nat => utf8_valid s'
      | Some 1%nat => match s' with String _ r => utf8_valid r | _ => false end
      | Some 2%nat => match s' with String _ (String _ r) => utf8_valid r | _ => false end
      | Some _ => match s' with String _ (String _ (String _ r)) => utf8_valid r | _ => false end
      | None => false
      end
  end.

(** [utf8.EncodeRune] *)
Definition utf8_encode (r : Z) : string :=
  if (r <? 0x80)%Z then String (byte_of r) ""
  else if (r <? 0x800)%Z then
    String (byte_of (0xC0 + r / 64)) (String (byte_of (0x80 + r mod 64)) "")
  else if (r <? 0x10000)%Z then
    String (byte_of (0xE0 + r / 4096)) (String (byte_of (0x80 + (r / 64) mod 64))
      (String (byte_of (0x80 + r mod 64)) ""))
  else
    String (byte_of (0xF0 + r / 262144)) (String (byte_of (0x80 + (r / 4096) mod 64))
      (String (byte_of (0x80 + (r / 64) mod 64)) (String (byte_of (0x80 + r mod 64)) ""))).

Definition RuneError : string := utf8_encode 0xFFFD.

(** ** Encoder *)

Definition backslash : ascii := byte_of 92.

(** One ASCII byte inside a JSON string ([htmlSafeSet] and the escapes). *)
Definition escape_byte (c : ascii) : string :=
  let n := byte_val c in
  if ((n =? 34) || (n =? 92))%Z then String backslash (String c "")
  else if (n =? 8)%Z then String backslash "b"
  else if (n =? 12)%Z then String backslash "f"
  else if (n =? 10)%Z then String backslash "n"
  else if (n =? 13)%Z then String backslash "r"
  else if (n =? 9)%Z then String backslash "t"
  else if ((n <? 32) || (n =? 60) || (n =? 62) || (n =? 38))%Z then
    String backslash (String "u" (String "0" (String "0"
      (String (hex_digit (n / 16)) (String (hex_digit (n mod 16)) "")))))
  else String c "".

Definition unicode_escape (hex : string) : string := String backslash (String "u" hex).

Fixpoint quote_body (s : string) : string :=
  match s with
  | "" => ""
  | String c s' =>
      match utf8_tail c s' with
      | Some 0%nat => escape_byte c +:+ quote_body s'
      | Some 1%nat =>
          match s' with String a r => String c (String a (quote_body r)) | _ => "" end
      | Some 2%nat =>
          match s' with
          | String a (String b r) =>
              if ((byte_val c =? 0xE2) && (byte_val a =? 0x80) && (byte_val b =? 0xA8))%Z
              then unicode_escape "2028" +:+ quote_body r
              else if ((byte_val c =? 0xE2) && (byte_val a =? 0x80) && (byte_val b =? 0xA9))%Z
              then unicode_escape "2029" +:+ quote_body r
              else String c (String a (String b (quote_body r)))
          | _ => ""
          end
      | Some _ =>
          match s' with
          | String a (String b (String d r)) =>
              String c (String a (String b (String d (quote_body r))))
          | _ => ""
          end
      | None => unicode_escape "fffd" +:+ quote_body s'
      end
  end.

Definition quote (s : string) : string := String dquote (quote_body s +:+ String dquote "").

Fixpoint encode (j : json) : string :=
  match j with
  | JNull => "null"
  | JBool true => "true"
  | JBool false => "false"
  | JNum lit => lit
  | JStr s => quote s
  | JArr l => "[" +:+ Join (map encode l) "," +:+ "]"
  | JObj l => "{" +:+ Join (map (fun kv => quote (fst kv) +:+ ":" +:+ encode (snd kv)) l) "," +:+ "}"
  end.

(** ** Decoder *)

Definition hex4 (a b c d : ascii) : option Z :=
  match hex_val a, hex_val b, hex_val c, hex_val d with
  | Some x, Some y, Some z, Some w => Some (((x * 16 + y) * 16 + z) * 16 + w)%Z
  | _, _, _, _ => None
  end.

Definition is_high_surrogate (r : Z) : bool := ((0xD800 <=? r) && (r <? 0xDC00))%Z.
Definition is_low_surrogate (r : Z) : bool := ((0xDC00 <=? r) && (r <? 0xE000))%Z.

Definition cons_str (p : string) (r : option (string * string)) : option (string * string) :=
  match r with Some (s, rest) => Some (p +:+ s, rest) | None => None end.

(** The byte a one-letter escape stands for. *)
Definition unescape_byte (c : ascii) : option ascii :=
  let n := byte_val c in
  if ((n =? 34) || (n =? 92) || (n =? 47))%Z then Some c
  else if (n =? 98)%Z then Some (byte_of 8)
  else if (n =? 102)%Z then Some (byte_of 12)
  else if (n =? 110)%Z then Some (byte_of 10)
  else if (n =? 114)%Z then Some (byte_of 13)
  else if (n =? 116)%Z then Some (byte_of 9)
  else None.

(** The rest of a string literal after its opening quote: the decoded bytes and
    the input after the closing quote. *)
Fixpoint parse_string (s : string) : option (string * string) :=
  match s with
  | "" => None
  | String c s' =>
      if (byte_val c =? 34)%Z then Some ("", s')
      else if (byte_val c =? 92)%Z then
        match s' with
        | "" => None
        | String e r =>
            if (byte_val e =? 117)%Z then
              match r with
              | String a (String b (String d (String f r4))) =>
                  match hex4 a b d f with
                  | None => None
                  | Some u =>
                      if is_high_surrogate u then
                        match r4 with
                        | String x (String y (String a' (String b' (String d' (String f' r10))))) =>
                            match hex4 a' b' d' f' with
                            | Some v =>
                                if (byte_val x =? 92)%Z && (byte_val y =? 117)%Z && is_low_surrogate v
                                then cons_str (utf8_encode
                                       (0x10000 + (u - 0xD800) * 1024 + (v - 0xDC00))) (parse_string r10)
                                else cons_str RuneError (parse_string r4)
                            | None => cons_str RuneError (parse_string r4)
                            end
                        | _ => cons_str RuneError (parse_string r4)
                        end
                      else if is_low_surrogate u then cons_str RuneError (parse_string r4)
                      else cons_str (utf8_encode u) (parse_string r4)
                  end
              | _ => None
              end
            else
              match unescape_byte e with
              | Some x => cons_str (String x "") (parse_string r)
              | None => None
              end
        end
      else if (byte_val c <? 32)%Z then None
      else
        match utf8_tail c s' with
        | Some 0%nat => cons_str (String c "") (parse_string s')
        | Some 1%nat =>
            match s' with String a r => cons_str (String c (String a "")) (parse_string r) | _ => None end
        | Some 2%nat =>
            match s' with
            | String a (String b r) => cons_str (String c (String a (String b ""))) (parse_string r)
            | _ => None
            end
        | Some _ =>
            match s' with
            | String a (String b (String d r)) =>
                cons_str (String c (String a (String b (String d "")))) (parse_string r)
            | _ => None
            end
        | None => cons_str RuneError (parse_string s')
        end
  end.

Definition is_json_space (c : ascii) : bool :=
  let n := byte_val c in ((n =? 32) || (n =? 9) || (n =? 10) || (n =? 13))%Z.
Definition skip_ws (s : string) : string := trim_left is_json_space s.

Definition is_digit (c : ascii) : bool := in_range 48 57 c.

(** The longest prefix of digits. *)
Fixpoint span_digits (s : string) : string * string :=
  match s with
  | String c s' =>
      if is_digit c then let '(d, r) := span_digits s' in (String c d, r) else ("", s)
  | "" => ("", "")
  end.

Definition parse_digits1 (s : string) : option (string * string) :=
  match span_digits s with ("", _) => None | p => Some p end.

Definition parse_int_part (s : string) : option (string * string) :=
  match s with
  | String c r => if (byte_val c =? 48)%Z then Some ("0", r) else parse_digits1 s
  | "" => None
  end.

Definition parse_frac (s : string) : option (string * string) :=
  match s with
  | String c r =>
      if (byte_val c =? 46)%Z then cons_str "." (parse_digits1 r) else Some ("", s)
  | "" => Some ("", "")
  end.

Definition parse_exp (s : string) : option (string * string) :=
  match s with
  | String c r =>
      if ((byte_val c =? 101) || (byte_val c =? 69))%Z then
        match r with
        | String d r' =>
            if ((byte_val d =? 43) || (byte_val d =? 45))%Z
            then cons_str (String c (String d "")) (parse_digits1 r')
            else cons_str (String c "") (parse_digits1 r)
        | "" => None
        end
      else Some ("", s)
  | "" => Some ("", "")
  end.

Definition parse_unsigned (s : string) : option (string * string) :=
  match parse_int_part s with
  | Some (i, r1) =>
      match parse_frac r1 with
      | Some (f, r2) => match parse_exp r2 with Some (e, r3) => Some (i +:+ f +:+ e, r3) | None => None end
      | None => None
      end
  | None => None
  end.

Definition parse_number (s : string) : option (string * string) :=
  match s with
  | String c r => if (byte_val c =? 45)%Z then cons_str "-" (parse_unsigned r) else parse_unsigned s
  | "" => None
  end.

(** [strip p s] is what follows the literal [p]. *)
Definition strip (p s : string) : option string :=
  if String.prefix p s then Some (slice_from s (String.length p)) else None.

(** The recursive-descent parser.  Every call either consumes a byte or is
    followed by one that does, so twice the input's length is enough fuel
    ([decode_encode] below shows it for the encoder's output). *)
Fixpoint parse_value (fuel : nat) (s0 : string) : option (json * string) :=
  match fuel with
  | O => None
  | S f =>
      let s := skip_ws s0 in
      match s with
      | "" => None
      | String c r =>
          let n := byte_val c in
          if (n =? 123)%Z then
            match skip_ws r with
            | String d r' =>
                if (byte_val d =? 125)%Z then Some (JObj [], r')
                else match parse_members f r with Some (l, r2) => Some (JObj l, r2) | None => None end
            | "" => None
            end
          else if (n =? 91)%Z then
            match skip_ws r with
            | String d r' =>
                if (byte_val d =? 93)%Z then Some (JArr [], r')
                else match parse_elems f r with Some (l, r2) => Some (JArr l, r2) | None => None end
            | "" => None
            end
          else if (n =? 34)%Z then
            match parse_string r with Some (x, r2) => Some (JStr x, r2) | None => None end
          else if (n =? 116)%Z then option_map (fun r => (JBool true, r)) (strip "true" s)
          else if (n =? 102)%Z then option_map (fun r => (JBool false, r)) (strip "false" s)
          else if (n =? 110)%Z then option_map (fun r => (JNull, r)) (strip "null" s)
          else match parse_number s with Some (l, r2) => Some (JNum l, r2) | None => None end
      end
  end
with parse_elems (fuel : nat) (s : string) : option (list json * string) :=
  match fuel with
  | O => None
  | S f =>
      match parse_value f s with
      | None => None
      | Some (x, r) =>
          match skip_ws r with
          | String d r' =>
              if (byte_val d =? 44)%Z then
                match parse_elems f r' with Some (l, r2) => Some (x :: l, r2) | None => None end
              else if (byte_val d =? 93)%Z then Some ([x], r')
              else None
          | "" => None
          end
      end
  end
with parse_members (fuel : nat) (s : string) : option (list (string * json) * string) :=
  match fuel with
  | O => None
  | S f =>
      match skip_ws s with
      | String q r0 =>
          if (byte_val q =? 34)%Z then
            match parse_string r0 with
            | None => None
            | Some (k, r1) =>
                match skip_ws r1 with
                | String col r2 =>
                    if (byte_val col =? 58)%Z then
                      match parse_value f r2 with
                      | None => None
                      | Some (x, r) =>
                          match skip_ws r with
                          | String d r' =>
                              if (byte_val d =? 44)%Z then
                                match parse_members f r' with
                                | Some (l, r3) => Some ((k, x) :: l, r3)
                                | None => None
                                end
                              else if (byte_val d =? 125)%Z then Some ([(k, x)], r')
                              else None
                          | "" => None
                          end
                      end
                    else None
                | "" => None
                end
            end
          else None
      | "" => None
      end
  end.

Definition parse_prefix (s : string) : option (json * string) :=
  parse_value (S (2 * String.length s)) s.

(** [json.Unmarshal] up to the assignment to the target: one value, then only
    white space. *)
Definition decode (s : string) : option json :=
  match parse_prefix s with
  | Some (j, r) => if String.eqb (skip_ws r) "" then Some j else None
  | None => None
  end.

(** ** Round trip of strings *)

Lemma is_ascii_not_control c : is_ascii c = false -> (128 <= byte_val c)%Z.
Proof. unfold is_ascii. rewrite Z.ltb_ge. done. Qed.

(** A rune read at the head of [c s'] with [k] continuation bytes is read again
    when other bytes follow it. *)
Lemma utf8_tail_1 c s' :
  utf8_tail c s' = Some 1%nat ->
  is_ascii c = false /\ exists a r, s' = String a r /\ forall t, utf8_tail c (String a t) = Some 1%nat.
Proof.
  unfold utf8_tail. repeat case_match; intros; simplify_eq;
    (split; [done|]; do 2 eexists; split; [done|]; intros t; by use_bools).
Qed.

Lemma utf8_tail_2 c s' :
  utf8_tail c s' = Some 2%nat ->
  is_ascii c = false /\ exists a b r, s' = String a (String b r) /\
    forall t, utf8_tail c (String a (String b t)) = Some 2%nat.
Proof.
  unfold utf8_tail. repeat case_match; intros; simplify_eq;
    (split; [done|]; do 3 eexists; split; [done|]; intros t; by use_bools).
Qed.

Lemma utf8_tail_3 c s' k :
  utf8_tail c s' = Some (S (S (S k))) ->
  k = 0%nat /\ is_ascii c = false /\ exists a b d r, s' = String a (String b (String d r)) /\
    forall t, utf8_tail c (String a (String b (String d t))) = Some 3%nat.
Proof.
  unfold utf8_tail. repeat case_match; intros; simplify_eq;
    (split_and!; [done|done|]; do 4 eexists; split; [done|]; intros t; by use_bools).
Qed.

Lemma utf8_tail_0 c s' : utf8_tail c s' = Some 0%nat -> is_ascii c = true.
Proof. unfold utf8_tail. repeat case_match; congruence. Qed.

Lemma parse_escape_byte c t :
  is_ascii c = true ->
  parse_string (escape_byte c +:+ t) = cons_str (String c "") (parse_string t).
Proof.
  destruct c as [[] [] [] [] [] [] [] []]; intros H; first [discriminate H|reflexivity].
Qed.

Lemma parse_wide c s' t :
  is_ascii c = false ->
  parse_string (String c s') = t <->
  match utf8_tail c s' with
  | Some 0%nat => cons_str (String c "") (parse_string s')
  | Some 1%nat =>
      match s' with String a r => cons_str (String c (String a "")) (parse_string r) | _ => None end
  | Some 2%nat =>
      match s' with
      | String a (String b r) => cons_str (String c (String a (String b ""))) (parse_string r)
      | _ => None
      end
  | Some _ =>
      match s' with
      | String a (String b (String d r)) =>
          cons_str (String c (String a (String b (String d "")))) (parse_string r)
      | _ => None
      end
  | None => cons_str RuneError (parse_string s')
  end = t.
Proof.
  intros H%is_ascii_not_control. cbn [parse_string].
  replace (byte_val c =? 34)%Z with false by (symmetry; lia).
  replace (byte_val c =? 92)%Z with false by (symmetry; lia).
  replace (byte_val c <? 32)%Z with false by (symmetry; lia). done.
Qed.

Lemma byte_of_eq c n : byte_val c = n -> c = byte_of n.
Proof. intros <-. by rewrite byte_of_val. Qed.

Lemma parse_quote_body s rest :
  utf8_valid s = true -> parse_string (quote_body s +:+ String dquote rest) = Some (s, rest).
Proof.
  remember (String.length s) as n eqn:Hn. revert s Hn.
  induction n as [n IH] using lt_wf_ind. intros [|c s'] Hn Hv; [done|].
  cbn [utf8_valid] in Hv. cbn [quote_body].
  destruct (utf8_tail c s') as [[|[|[|k]]]|] eqn:E; [| | | |done].
  - rewrite <-string_app_assoc, parse_escape_byte by eauto using utf8_tail_0.
    erewrite (IH (String.length s')); [done|simpl in Hn; lia|done|done].
  - apply utf8_tail_1 in E as (Ha & a & r & -> & Ht).
    cbn [String.append]. apply parse_wide; [done|]. rewrite Ht.
    erewrite (IH (String.length r)); [done|simpl in Hn; lia|done|done].
  - apply utf8_tail_2 in E as (Ha & a & b & r & -> & Ht).
    assert (HIH : parse_string (quote_body r +:+ String dquote rest) = Some (r, rest)).
    { apply (IH (String.length r)); [simpl in Hn; lia|done|done]. }
    repeat case_match; reflect_bools; cbn [String.append].
    + rewrite (byte_of_eq c 0xE2), (byte_of_eq a 0x80), (byte_of_eq b 0xA8) by done.
      change (cons_str (utf8_encode 0x2028) (parse_string (quote_body r +:+ String dquote rest))
              = Some (utf8_encode 0x2028 +:+ r, rest)).
      by rewrite HIH.
    + rewrite (byte_of_eq c 0xE2), (byte_of_eq a 0x80), (byte_of_eq b 0xA9) by done.
      change (cons_str (utf8_encode 0x2029) (parse_string (quote_body r +:+ String dquote rest))
              = Some (utf8_encode 0x2029 +:+ r, rest)).
      by rewrite HIH.
    + apply parse_wide; [done|]. by rewrite Ht, HIH.
  - apply utf8_tail_3 in E as (-> & Ha & a & b & d & r & -> & Ht).
    cbn [String.append]. apply parse_wide; [done|]. rewrite Ht.
    erewrite (IH (String.length r)); [done|simpl in Hn; lia|done|done].
Qed.

(** ** Integers

    [strconv.ParseInt(lit, 10, 64)] on a JSON number literal; the caller checks
    the width of the target field. *)

Fixpoint uint_val (acc : Z) (s : string) : Z :=
  match s with
  | "" => acc
  | String c r => uint_val (acc * 10 + (byte_val c - 48))%Z r
  end.

Definition parse_uint (s : string) : option Z :=
  if negb (String.eqb s "") && string_forall is_digit s then Some (uint_val 0 s) else None.

Definition parse_int (lit : string) : option Z :=
  match lit with
  | String c r => if (byte_val c =? 45)%Z then option_map Z.opp (parse_uint r) else parse_uint lit
  | "" => None
  end.

(** A number literal is delimited by any byte that cannot continue it. *)
Definition num_end (rest : string) : bool :=
  match rest with
  | "" => true
  | String c _ =>
      negb (is_digit c || (byte_val c =? 46) || (byte_val c =? 101) || (byte_val c =? 69))%Z
  end.

Definition int_literal (lit : string) : Prop := exists z, lit = Itoa z.

Lemma uint_val_app acc a b : uint_val acc (a +:+ b) = uint_val (uint_val acc a) b.
Proof. revert acc. induction a; intros; simpl; auto. Qed.

Lemma pretty_char_digit x :
  (x < 10)%N ->
  is_digit (pretty_N_char x) = true /\ byte_val (pretty_N_char x) = (48 + Z.of_N x)%Z.
Proof.
  intros H.
  assert (x = 0 \/ x = 1 \/ x = 2 \/ x = 3 \/ x = 4 \/ x = 5 \/ x = 6 \/ x = 7 \/ x = 8 \/ x = 9)%N
    as Hx by lia.
  repeat destruct Hx as [->|Hx]; try subst x; done.
Qed.

Lemma pretty_go_digits x s :
  (0 < x)%N ->
  exists c d, pretty_N_go x s = String c d +:+ s /\
    string_forall is_digit (String c d) = true /\ byte_val c <> 48%Z /\
    uint_val 0 (String c d) = Z.of_N x.
Proof.
  revert s. induction (N.lt_wf_0 x) as [x _ IH]. intros s Hx.
  rewrite pretty_N_go_step by done.
  assert (Hm : (x mod 10 < 10)%N) by (by apply N.mod_lt).
  destruct (pretty_char_digit _ Hm) as [Hd Hv].
  destruct (decide (x / 10 = 0)%N) as [E|E].
  - rewrite E, pretty_N_go_0. exists (pretty_N_char (x mod 10)), "".
    assert (Hlt : (x < 10)%N) by (apply N.div_small_iff in E; lia).
    rewrite N.mod_small in Hd, Hv |- * by done. split_and!; [done| |lia|].
    + cbn [string_forall]. by rewrite Hd.
    + cbn [uint_val]. lia.
  - destruct (IH (x / 10)%N) with (s := String (pretty_N_char (x mod 10)) s)
      as (c & d & -> & Hall & Hc & Hval); [by apply N.div_lt|by apply N.neq_0_lt_0|].
    exists c, (d +:+ String (pretty_N_char (x mod 10)) "").
    split_and!; [|simpl|done|].
    + simpl. by rewrite <-string_app_assoc.
    + rewrite string_forall_app, andb_assoc. simpl in Hall. rewrite Hall. simpl. by rewrite Hd.
    + change (uint_val 0 (String c d +:+ String (pretty_N_char (x mod 10)) "") = Z.of_N x).
      rewrite uint_val_app, Hval. simpl. rewrite Hv.
      pose proof (N.div_mod x 10). lia.
Qed.

(** Every integer prints as a non-empty run of digits without a leading zero,
    or as ["0"], after an optional minus sign. *)
Lemma Itoa_cases z :
  Itoa z = "0" /\ z = 0%Z \/
  exists c d, string_forall is_digit (String c d) = true /\ byte_val c <> 48%Z /\
    ((0 < z)%Z /\ Itoa z = String c d /\ uint_val 0 (String c d) = z \/
     (z < 0)%Z /\ Itoa z = "-" +:+ String c d /\ uint_val 0 (String c d) = (- z)%Z).
Proof.
  destruct z as [|p|p]; [by left|right|right];
    destruct (pretty_go_digits (Npos p) "" eq_refl) as (c & d & E & Hall & Hc & Hv);
    rewrite string_app_nil_r in E; exists c, d; (split; [done|split; [done|]]).
  - left. split_and!; [lia| |done]. rewrite <-E. reflexivity.
  - right. split_and!; [lia| |lia]. rewrite <-E. reflexivity.
Qed.

Lemma is_digit_not_minus c : is_digit c = true -> (byte_val c =? 45)%Z = false.
Proof. unfold is_digit, in_range. intros ?. lia. Qed.

Lemma parse_int_Itoa z : parse_int (Itoa z) = Some z.
Proof.
  destruct (Itoa_cases z) as [[-> ->]|(c & d & Hall & Hc & [(Hz & -> & Hv)|(Hz & -> & Hv)])];
    [done|..].
  - unfold parse_int, parse_uint. rewrite Hall, Hv. simpl in Hall.
    apply andb_true_iff in Hall as [Hd _]. by rewrite is_digit_not_minus.
  - cbn [String.append]. unfold parse_int, parse_uint. simpl (byte_val _ =? 45)%Z. cbv iota.
    rewrite Hall, Hv. simpl. f_equal. lia.
Qed.

Lemma span_digits_app d rest :
  string_forall is_digit d = true -> num_end rest = true ->
  span_digits (d +:+ rest) = (d, rest).
Proof.
  intros Hd Hr. induction d as [|c d IH]; simpl in *.
  - destruct rest as [|c r]; simpl in *; [done|].
    by destruct (is_digit c).
  - apply andb_true_iff in Hd as [-> Hd]. by rewrite IH.
Qed.

Lemma span_digits_spec s d r : span_digits s = (d, r) -> s = d +:+ r /\ string_forall is_digit d = true.
Proof.
  revert d r. induction s as [|c s IH]; cbn [span_digits]; intros d r; [by intros [= <- <-]|].
  destruct (is_digit c) eqn:Hc; [|by intros [= <- <-]].
  destruct (span_digits s) as [d' r']. intros [= <- <-]. destruct (IH d' r') as [-> Hd]; [done|].
  cbn [string_forall]. by rewrite Hc, Hd.
Qed.

Lemma parse_frac_end rest : num_end rest = true -> parse_frac rest = Some ("", rest).
Proof.
  destruct rest as [|e r]; [done|]. unfold num_end. intros ?. reflect_bools.
  unfold parse_frac. by use_bools.
Qed.

Lemma parse_exp_end rest : num_end rest = true -> parse_exp rest = Some ("", rest).
Proof.
  destruct rest as [|e r]; [done|]. unfold num_end. intros ?. reflect_bools.
  unfold parse_exp. by use_bools.
Qed.

Lemma parse_unsigned_digits c d rest :
  string_forall is_digit (String c d) = true -> byte_val c <> 48%Z -> num_end rest = true ->
  parse_unsigned (String c d +:+ rest) = Some (String c d, rest).
Proof.
  intros Hd Hc Hr. unfold parse_unsigned, parse_int_part.
  cbn [String.append]. rewrite (proj2 (Z.eqb_neq _ _) Hc).
  unfold parse_digits1. change (String c (d +:+ rest)) with (String c d +:+ rest).
  rewrite span_digits_app by done.
  rewrite parse_frac_end, parse_exp_end by done. simpl. by rewrite string_app_nil_r.
Qed.

Lemma parse_number_Itoa z rest :
  num_end rest = true -> parse_number (Itoa z +:+ rest) = Some (Itoa z, rest).
Proof.
  intros Hr.
  destruct (Itoa_cases z) as [[-> ->]|(c & d & Hall & Hc & [(Hz & -> & Hv)|(Hz & -> & Hv)])].
  - change (match parse_frac rest with
            | Some (f, r2) =>
                match parse_exp r2 with Some (e, r3) => Some ("0" +:+ f +:+ e, r3) | None => None end
            | None => None
            end = Some ("0", rest)).
    by rewrite parse_frac_end, parse_exp_end.
  - unfold parse_number. cbn [String.append].
    rewrite is_digit_not_minus by (simpl in Hall; by apply andb_true_iff in Hall as [? _]).
    change (String c (d +:+ rest)) with (String c d +:+ rest).
    by apply parse_unsigned_digits.
  - unfold parse_number. cbn [String.append]. simpl (byte_val _ =? 45)%Z. cbv iota.
    change (String c (d +:+ rest)) with (String c d +:+ rest).
    by rewrite parse_unsigned_digits.
Qed.

(** ** Round trip of values *)

Definition int_literal_b (lit : string) : bool :=
  match parse_int lit with Some z => String.eqb lit (Itoa z) | None => false end.

(** The values the encoder prints faithfully: valid UTF-8 strings and integers. *)
Fixpoint json_wf (j : json) : bool :=
  match j with
  | JNull | JBool _ => true
  | JNum lit => int_literal_b lit
  | JStr s => utf8_valid s
  | JArr l => forallb json_wf l
  | JObj l => forallb (fun kv => utf8_valid (fst kv) && json_wf (snd kv)) l
  end.

(** The fuel the parser needs on the encoding of a value. *)
Fixpoint need (j : json) : nat :=
  match j with
  | JArr l => S (sum_list_with (fun x => S (need x)) l)
  | JObj l => S (sum_list_with (fun kv => S (need (snd kv))) l)
  | _ => 1
  end%nat.

Definition is_num (j : json) : bool := match j with JNum _ => true | _ => false end.

Lemma int_literal_b_spec lit : int_literal_b lit = true -> exists z, lit = Itoa z.
Proof. unfold int_literal_b. case_match; [|done]. intros. reflect_bools. eauto. Qed.

Lemma int_literal_b_Itoa z : int_literal_b (Itoa z) = true.
Proof. unfold int_literal_b. by rewrite parse_int_Itoa, String.eqb_refl. Qed.

Definition value_head (c : ascii) : bool :=
  negb (is_json_space c) && negb (byte_val c =? 93)%Z && negb (byte_val c =? 125)%Z.

Lemma digit_head c : is_digit c = true ->
  value_head c = true /\ (byte_val c =? 123)%Z = false /\ (byte_val c =? 91)%Z = false /\
  (byte_val c =? 34)%Z = false /\ (byte_val c =? 116)%Z = false /\ (byte_val c =? 102)%Z = false /\
  (byte_val c =? 110)%Z = false.
Proof.
  unfold is_digit, in_range, value_head, is_json_space. intros ?. reflect_bools.
  split_and!; lia.
Qed.

Lemma Itoa_head z : exists c r, Itoa z = String c r /\
  value_head c = true /\ (byte_val c =? 123)%Z = false /\ (byte_val c =? 91)%Z = false /\
  (byte_val c =? 34)%Z = false /\ (byte_val c =? 116)%Z = false /\ (byte_val c =? 102)%Z = false /\
  (byte_val c =? 110)%Z = false.
Proof.
  destruct (Itoa_cases z) as [[-> ->]|(c & d & Hall & Hc & [(Hz & -> & Hv)|(Hz & -> & Hv)])].
  - by exists "0"%char, "".
  - exists c, d. split; [done|]. apply digit_head. simpl in Hall. by apply andb_true_iff in Hall as [? _].
  - by exists "-"%char, (String c d).
Qed.

Lemma encode_head j : json_wf j = true ->
  exists c r, encode j = String c r /\ value_head c = true.
Proof.
  destruct j as [|[]|lit|s|l|l]; cbn [encode json_wf]; intros H; try by do 2 eexists.
  apply int_literal_b_spec in H as [z ->]. destruct (Itoa_head z) as (c & r & -> & Hh & _). eauto.
Qed.

Lemma skip_ws_head c r : value_head c = true -> skip_ws (String c r) = String c r.
Proof. unfold value_head, skip_ws. intros. reflect_bools. simpl. by use_bools. Qed.

Lemma value_head_close c :
  value_head c = true -> (byte_val c =? 93)%Z = false /\ (byte_val c =? 125)%Z = false.
Proof. unfold value_head. intros. by reflect_bools; split; apply Z.eqb_neq. Qed.

Lemma strip_app p s : strip p (p +:+ s) = Some s.
Proof.
  unfold strip. rewrite prefix_app. f_equal. unfold slice_from.
  rewrite string_length_app, Nat.add_comm, Nat.add_sub.
  induction p as [|c p IH]; simpl; [|done].
  induction s; simpl; congruence.
Qed.

Lemma Join_cons2 x y l sep : Join (x :: y :: l) sep = x +:+ sep +:+ Join (y :: l) sep.
Proof. done. Qed.

Definition parses (j : json) : Prop :=
  json_wf j = true -> forall fuel rest, (need j <= fuel)%nat ->
  (is_num j = true -> num_end rest = true) ->
  parse_value fuel (encode j +:+ rest) = Some (j, rest).

Lemma parse_elems_comma f s x r :
  parse_value f s = Some (x, String "," r) ->
  parse_elems (S f) s = match parse_elems f r with Some (l, r2) => Some (x :: l, r2) | None => None end.
Proof. intros H. cbn [parse_elems]. rewrite H. reflexivity. Qed.

Lemma parse_elems_last f s x r :
  parse_value f s = Some (x, String "]" r) -> parse_elems (S f) s = Some ([x], r).
Proof. intros H. cbn [parse_elems]. rewrite H. reflexivity. Qed.

Lemma num_end_sep c r : c = ","%char \/ c = "]"%char \/ c = "}"%char -> num_end (String c r) = true.
Proof. by intros [->|[->| ->]]. Qed.

Lemma parse_elems_encode l fuel rest :
  Forall parses l -> forallb json_wf l = true -> l <> [] ->
  (sum_list_with (fun x => S (need x)) l <= fuel)%nat ->
  parse_elems fuel (Join (map encode l) "," +:+ String "]" rest) = Some (l, rest).
Proof.
  revert fuel. induction l as [|x l IH]; intros fuel HP Hwf Hne Hf; [done|].
  apply Forall_cons in HP as [Hx HP]. cbn [forallb] in Hwf. reflect_bools.
  destruct fuel as [|f]; cbn [sum_list_with] in Hf; [lia|].
  destruct l as [|y l]; cbn [map].
  - apply parse_elems_last. apply Hx; auto using num_end_sep; lia.
  - rewrite Join_cons2, <-!string_app_assoc. erewrite parse_elems_comma.
    + rewrite IH; [done..|]. cbn [sum_list_with] in *; lia.
    + cbn [String.append]. apply Hx; auto using num_end_sep; lia.
Qed.

Definition encode_member (kv : string * json) : string := quote (fst kv) +:+ ":" +:+ encode (snd kv).

Lemma encode_obj l : encode (JObj l) = "{" +:+ Join (map encode_member l) "," +:+ "}".
Proof. done. Qed.

Lemma parse_member f k r :
  utf8_valid k = true ->
  parse_members (S f) (quote k +:+ String ":" r) =
  match parse_value f r with
  | None => None
  | Some (x, r) =>
      match skip_ws r with
      | String d r' =>
          if (byte_val d =? 44)%Z then
            match parse_members f r' with
            | Some (l, r3) => Some ((k, x) :: l, r3)
            | None => None
            end
          else if (byte_val d =? 125)%Z then Some ([(k, x)], r')
          else None
      | "" => None
      end
  end.
Proof.
  intros Hk. unfold quote. cbn [parse_members String.append].
  rewrite skip_ws_head by done. rewrite <-string_app_assoc. cbn [String.append].
  change (byte_val dquote =? 34)%Z with true. cbv iota.
  rewrite parse_quote_body by done. reflexivity.
Qed.

Lemma parse_members_encode l fuel rest :
  Forall (fun kv => parses (snd kv)) l ->
  forallb (fun kv => utf8_valid (fst kv) && json_wf (snd kv)) l = true -> l <> [] ->
  (sum_list_with (fun kv => S (need (snd kv))) l <= fuel)%nat ->
  parse_members fuel (Join (map encode_member l) "," +:+ String "}" rest) = Some (l, rest).
Proof.
  revert fuel. induction l as [|[k x] l IH]; intros fuel HP Hwf Hne Hf; [done|].
  apply Forall_cons in HP as [Hx HP]. cbn [forallb fst snd] in *. reflect_bools.
  destruct fuel as [|f]; cbn [sum_list_with snd] in Hf; [lia|].
  destruct l as [|y l]; cbn [map].
  - change (Join [?a] ",") with a. change (encode_member (k, x)) with (quote k +:+ ":" +:+ encode x).
    rewrite <-!string_app_assoc. cbn [String.append]. rewrite parse_member by done.
    rewrite Hx; auto using num_end_sep; lia.
  - rewrite Join_cons2. change (encode_member (k, x)) with (quote k +:+ ":" +:+ encode x).
    rewrite <-!string_app_assoc. cbn [String.append]. rewrite parse_member by done.
    rewrite Hx; [|done|lia|by auto using num_end_sep].
    change (skip_ws (String "," ?s)) with (String "," s).
    change (byte_val "," =? 44)%Z with true. cbv iota.
    change (encode_member y :: map encode_member l) with (map encode_member (y :: l)).
    rewrite (IH f); [done..|]. cbn [sum_list_with snd] in *; lia.
Qed.

Lemma members_head l rest : l <> [] ->
  exists c r, Join (map encode_member l) "," +:+ rest = String c r /\ value_head c = true.
Proof.
  destruct l as [|[k x] [|y l]]; [done| |]; intros _; cbn [map]; by do 2 eexists.
Qed.

Lemma elems_head l rest : forallb json_wf l = true -> l <> [] ->
  exists c r, Join (map encode l) "," +:+ rest = String c r /\ value_head c = true.
Proof.
  destruct l as [|x l]; [done|]. cbn [forallb]. intros ? _. reflect_bools.
  destruct (encode_head x) as (c & r & E & Hh); [done|].
  destruct l; cbn [map Join String.concat]; rewrite E; by do 2 eexists.
Qed.

Lemma parse_encode_num lit : parses (JNum lit).
Proof.
  intros H [|f] rest Hf Hr; cbn [need] in Hf; [lia|].
  cbn [json_wf] in H. apply int_literal_b_spec in H as [z ->].
  destruct (Itoa_head z) as (c & r & E & Hh & H1 & H2 & H3 & H4 & H5 & H6).
  cbn [encode parse_value]. rewrite E. cbn [String.append].
  rewrite skip_ws_head by done. use_bools.
  change (String c (r +:+ rest)) with (String c r +:+ rest). rewrite <-E.
  by rewrite parse_number_Itoa by auto.
Qed.

Lemma parse_encode j : parses j.
Proof.
  induction j as [|b|lit|s|l IH|l IH] using json_nested_ind; try apply parse_encode_num;
    intros Hwf [|f] rest Hf _; cbn [need] in Hf; try lia.
  - change (option_map (fun r => (JNull, r)) (strip "null" ("null" +:+ rest)) = Some (JNull, rest)).
    by rewrite strip_app.
  - destruct b.
    + change (option_map (fun r => (JBool true, r)) (strip "true" ("true" +:+ rest))
              = Some (JBool true, rest)). by rewrite strip_app.
    + change (option_map (fun r => (JBool false, r)) (strip "false" ("false" +:+ rest))
              = Some (JBool false, rest)). by rewrite strip_app.
  - cbn [json_wf] in Hwf. cbn [encode]. unfold quote. cbn [parse_value String.append].
    rewrite skip_ws_head by done. rewrite <-string_app_assoc. cbn [String.append].
    change (parse_value (S f) ?s) with (parse_value (S f) s).
    change (byte_val dquote) with 34%Z. cbn [Z.eqb Pos.eqb].
    by rewrite parse_quote_body.
  - cbn [json_wf] in Hwf. cbn [encode]. cbn [parse_value String.append].
    rewrite skip_ws_head by done. rewrite <-string_app_assoc. cbn [String.append].
    change (byte_val "[") with 91%Z. cbn [Z.eqb Pos.eqb].
    destruct l as [|x l]; [done|].
    destruct (elems_head (x :: l) (String "]" rest)) as (c & r & E & Hh); [done|done|].
    rewrite E. rewrite skip_ws_head by done.
    destruct (value_head_close c Hh) as [H93 H125]. use_bools.
    rewrite <-E. rewrite parse_elems_encode; [done..|lia].
  - cbn [json_wf] in Hwf. rewrite encode_obj. cbn [parse_value String.append].
    rewrite skip_ws_head by done. rewrite <-string_app_assoc. cbn [String.append].
    change (byte_val "{") with 123%Z. cbn [Z.eqb Pos.eqb].
    destruct l as [|x l]; [done|].
    destruct (members_head (x :: l) (String "}" rest)) as (c & r & E & Hh); [done|].
    rewrite E. rewrite skip_ws_head by done.
    destruct (value_head_close c Hh) as [H93 H125]. use_bools.
    rewrite <-E. rewrite parse_members_encode; [done..|lia].
Qed.

(** *** Fuel *)

Lemma quote_length s : (2 <= String.length (quote s))%nat.
Proof. unfold quote. cbn [String.length]. rewrite string_length_app. simpl. lia. Qed.

Lemma Join_length_cons x l sep :
  (String.length x <= String.length (Join (x :: l) sep))%nat.
Proof. destruct l; [done|]. rewrite Join_cons2, string_length_app. lia. Qed.

Lemma need_encode j :
  json_wf j = true -> (need j <= 2 * String.length (encode j))%nat.
Proof.
  induction j as [|b|lit|s|l IH|l IH] using json_nested_ind; cbn [json_wf need]; intros Hwf.
  - cbn; lia.
  - destruct b; cbn; lia.
  - apply int_literal_b_spec in Hwf as [z ->]. cbn [encode].
    destruct (Itoa_head z) as (c & r & -> & _). cbn. lia.
  - cbn [encode]. pose proof (quote_length s). lia.
  - cbn [encode]. rewrite !string_length_app. cbn [String.length].
    enough (sum_list_with (fun x => S (need x)) l
            <= 2 * String.length (Join (map encode l) ",") + 1)%nat by lia.
    induction l as [|x l IHl]; [simpl; lia|].
    apply Forall_cons in IH as [Hx IH]. cbn [forallb] in Hwf. reflect_bools.
    specialize (Hx ltac:(done)). specialize (IHl IH ltac:(done)). cbn [sum_list_with].
    destruct l as [|y l]; [cbn in *; lia|]. cbn [map] in *. rewrite Join_cons2.
    rewrite !string_length_app. cbn [String.length]. lia.
  - rewrite encode_obj, !string_length_app. cbn [String.length].
    enough (sum_list_with (fun kv => S (need (snd kv))) l
            <= 2 * String.length (Join (map encode_member l) ",") + 1)%nat by lia.
    induction l as [|[k x] l IHl]; [simpl; lia|].
    apply Forall_cons in IH as [Hx IH]. cbn [forallb fst snd] in *. reflect_bools.
    specialize (Hx ltac:(done)). specialize (IHl IH ltac:(done)). cbn [sum_list_with snd].
    assert (S (need x) <= 2 * String.length (encode_member (k, x)))%nat.
    { unfold encode_member. rewrite !string_length_app. cbn [fst snd String.length].
      pose proof (quote_length k). lia. }
    destruct l as [|y l]; [cbn [map sum_list_with Join String.concat] in *; lia|].
    cbn [map] in *. rewrite Join_cons2.
    rewrite !string_length_app. cbn [String.length]. lia.
Qed.

(** ** The encoder's output parses back *)

Lemma parse_prefix_encode j rest :
  json_wf j = true -> is_num j = false ->
  parse_prefix (encode j +:+ rest) = Some (j, rest).
Proof.
  intros Hwf Hn. unfold parse_prefix. apply parse_encode; [done| |by rewrite Hn].
  rewrite string_length_app. pose proof (need_encode j Hwf). lia.
Qed.

Lemma decode_encode j : json_wf j = true -> decode (encode j) = Some j.
Proof.
  intros Hwf. unfold decode, parse_prefix. rewrite <-(string_app_nil_r (encode j)).
  rewrite parse_encode; [done|done| |done].
  rewrite string_length_app. pose proof (need_encode j Hwf). lia.
Qed.

(** The encoding of an object or an array delimits itself: the value and the bytes
    after it are both determined. *)
Lemma encode_app_inj j j' rest rest' :
  json_wf j = true -> json_wf j' = true -> is_num j = false -> is_num j' = false ->
  encode j +:+ rest = encode j' +:+ rest' -> j = j' /\ rest = rest'.
Proof.
  intros H1 H2 H3 H4 E. apply (f_equal parse_prefix) in E.
  rewrite !parse_prefix_encode in E by done. by injection E.
Qed.

(** ** The encoder writes no control byte *)

Definition not_control (c : ascii) : bool := (32 <=? byte_val c)%Z.

Lemma substring_0_0 s : String.substring 0 0 s = "".
Proof. by destruct s. Qed.

Lemma not_control_wide c : is_ascii c = false -> not_control c = true.
Proof. intros H%is_ascii_not_control. apply Z.leb_le. lia. Qed.

Lemma not_control_range lo hi c : (32 <= lo)%Z -> in_range lo hi c = true -> not_control c = true.
Proof. unfold in_range, not_control. intros. reflect_bools. apply Z.leb_le. lia. Qed.

(** Every byte of a multi-byte rune is above the ASCII bytes. *)
Definition is_wide (c : ascii) : bool := negb (is_ascii c).

Lemma is_wide_spec c : is_wide c = true <-> (128 <= byte_val c)%Z.
Proof. unfold is_wide, is_ascii. rewrite negb_true_iff, Z.ltb_ge. done. Qed.

Lemma wide_range lo hi c : (128 <= lo)%Z -> in_range lo hi c = true -> is_wide c = true.
Proof. rewrite is_wide_spec. unfold in_range. intros. reflect_bools. lia. Qed.

Lemma wide_not_control c : is_wide c = true -> not_control c = true.
Proof. rewrite is_wide_spec. unfold not_control. intros. apply Z.leb_le. lia. Qed.

Lemma utf8_tail_wide c s k :
  utf8_tail c s = Some (S k) -> is_wide c = true /\ string_forall is_wide (String.substring 0 (S k) s) = true.
Proof.
  intros H. split.
  { revert H. unfold is_wide, utf8_tail. by case_match. }
  revert H. unfold utf8_tail, is_cont. repeat case_match; intros; simplify_eq; reflect_bools;
    cbn [String.substring string_forall];
    repeat match goal with H : in_range _ _ ?a = true |- _ => apply wide_range in H; [|lia] end;
    use_bools; by rewrite ?substring_0_0.
Qed.

Lemma utf8_tail_not_control c s k :
  utf8_tail c s = Some (S k) ->
  not_control c = true /\ string_forall not_control (String.substring 0 (S k) s) = true.
Proof.
  intros [Hc Hs]%utf8_tail_wide. split; [by apply wide_not_control|].
  eapply string_forall_impl; [|done]. apply wide_not_control.
Qed.

Lemma escape_byte_not_control c : string_forall not_control (escape_byte c) = true.
Proof. by destruct c as [[] [] [] [] [] [] [] []]. Qed.

Lemma quote_body_not_control s : string_forall not_control (quote_body s) = true.
Proof.
  remember (String.length s) as n eqn:Hn. revert s Hn.
  induction n as [n IH] using lt_wf_ind. intros [|c s'] Hn; [done|]. cbn [quote_body].
  assert (HIH : forall r, (String.length r <= String.length s')%nat ->
            string_forall not_control (quote_body r) = true).
  { intros r Hr. eapply IH; [|done]. subst n. cbn [String.length]. lia. }
  destruct (utf8_tail c s') as [[|[|[|k]]]|] eqn:E.
  - by rewrite string_forall_app, escape_byte_not_control, HIH.
  - pose proof E as (_ & a & r & -> & _)%utf8_tail_1. apply utf8_tail_not_control in E as [Hc Hs].
    cbn [String.substring string_forall String.length] in *. rewrite !andb_true_iff in Hs.
    destruct Hs as [Hs _].
    rewrite Hc, Hs, HIH by lia. done.
  - pose proof E as (_ & a & b & r & -> & _)%utf8_tail_2. apply utf8_tail_not_control in E as [Hc Hs].
    cbn [String.substring string_forall String.length] in *. rewrite !andb_true_iff in Hs.
    destruct Hs as (Ha & Hb & _).
    repeat case_match; rewrite ?string_forall_app; cbn [string_forall]; by rewrite ?Hc, ?Ha, ?Hb, HIH by lia.
  - pose proof E as (-> & _ & a & b & d & r & -> & _)%utf8_tail_3.
    apply utf8_tail_not_control in E as [Hc Hs].
    cbn [String.substring string_forall String.length] in *. rewrite !andb_true_iff in Hs.
    destruct Hs as (Ha & Hb & Hd & _). by rewrite Hc, Ha, Hb, Hd, HIH by lia.
  - by rewrite string_forall_app, HIH.
Qed.

Lemma quote_not_control s : string_forall not_control (quote s) = true.
Proof.
  unfold quote. cbn [string_forall]. rewrite string_forall_app, quote_body_not_control. done.
Qed.

Lemma Itoa_not_control z : string_forall not_control (Itoa z) = true.
Proof.
  assert (Hd : forall d, string_forall is_digit d = true -> string_forall not_control d = true).
  { intros d. apply string_forall_impl. intros c. by apply not_control_range. }
  destruct (Itoa_cases z) as [[-> ->]|(c & d & Hall & Hc & [(Hz & -> & Hv)|(Hz & -> & Hv)])]; auto.
  apply Hd in Hall. exact Hall.
Qed.

Lemma Join_forall P l sep :
  string_forall P sep = true -> Forall (fun x => string_forall P x = true) l ->
  string_forall P (Join l sep) = true.
Proof.
  intros Hs. induction 1 as [|x l Hx Hl IH]; [done|]. destruct l as [|y l]; [done|].
  rewrite Join_cons2, !string_forall_app. by rewrite Hx, Hs, IH.
Qed.

Lemma encode_not_control j : json_wf j = true -> string_forall not_control (encode j) = true.
Proof.
  induction j as [|b|lit|s|l IH|l IH] using json_nested_ind; cbn [json_wf]; intros Hwf.
  - done.
  - by destruct b.
  - apply int_literal_b_spec in Hwf as [z ->]. apply Itoa_not_control.
  - apply quote_not_control.
  - cbn [encode]. rewrite !string_forall_app, Join_forall; [done|done|].
    rewrite forallb_forall in Hwf. apply Forall_forall. intros x (y & -> & Hy)%list_elem_of_fmap.
    rewrite Forall_forall in IH. apply IH; [done|]. by apply Hwf, list_elem_of_In.
  - rewrite encode_obj, !string_forall_app, Join_forall; [done|done|].
    rewrite forallb_forall in Hwf. apply Forall_forall. intros x (y & -> & Hy)%list_elem_of_fmap.
    rewrite Forall_forall in IH. specialize (IH y Hy).
    specialize (Hwf y). rewrite <-list_elem_of_In in Hwf. specialize (Hwf Hy). reflect_bools.
    unfold encode_member. rewrite !string_forall_app, quote_not_control, IH by done. done.
Qed.

(** An encoded value is one line of text. *)
Lemma encode_one_line j : json_wf j = true -> no_byte (byte_of 10) (encode j) = true.
Proof.
  intros H%encode_not_control. revert H. apply string_forall_impl. intros c Hc.
  apply negb_true_iff, Ascii.eqb_neq. by intros <-.
Qed.

(** An ASCII string is valid UTF-8; a digest in hexadecimal is one. *)
Lemma ascii_utf8 s : string_forall is_ascii s = true -> utf8_valid s = true.
Proof.
  induction s as [|c s IH]; [done|]. cbn [string_forall utf8_valid]. intros H. reflect_bools.
  unfold utf8_tail. use_bools. auto.
Qed.

Lemma hex_encode_ascii s : string_forall is_ascii (hex_encode s) = true.
Proof.
  assert (Hd : forall n, (0 <= n < 16)%Z -> is_ascii (hex_digit n) = true).
  { intros n Hn. unfold is_ascii, hex_digit. rewrite byte_val_of. apply Z.ltb_lt.
    rewrite Z.mod_small; case_match; lia. }
  induction s as [|c s IH]; [done|]. cbn [hex_encode string_forall]. pose proof (byte_val_range c).
  rewrite IH, !Hd; [done|apply Z.mod_pos_bound; lia|].
  split; [apply Z.div_pos; lia|apply Z.div_lt_upper_bound; lia].
Qed.

Lemma hex_encode_utf8 s : utf8_valid (hex_encode s) = true.
Proof. apply ascii_utf8, hex_encode_ascii. Qed.
