(* ===== verification/Codec.v ===== *)
(** * Struct tags

    How [encoding/json] maps a Go struct to a JSON object: a struct is the list of
    its fields, each with its key, its [omitempty] behaviour and how its value is
    decoded into the value the target already holds.  [decode_struct_encode] is the
    round trip for any struct whose fields round-trip. *)

From S2P Require Import Prelude GoStrings Json.
From Stdlib Require Import Ascii String.
#[local] Open Scope string_scope.

(** ** Decoding into a value

    [json.Unmarshal] stores into an existing value: [null] leaves a scalar or a
    struct as it is and empties a pointer or a slice. *)

Definition Into (A : Type) : Type := json -> A -> option A.

Definition min_int64 : Z := (-9223372036854775808)%Z.
Definition max_int64 : Z := 9223372036854775807%Z.
Definition in_int64 (z : Z) : bool := ((min_int64 <=? z) && (z <=? max_int64))%Z.

(** The wrap-around of a 64-bit integer. *)
Definition wrap64 (z : Z) : Z := ((z + 2 ^ 63) mod 2 ^ 64 - 2 ^ 63)%Z.

Lemma wrap64_id z : (min_int64 <= z <= max_int64)%Z -> wrap64 z = z.
Proof. unfold wrap64, min_int64, max_int64. intros H. rewrite Z.mod_small by lia. lia. Qed.

Definition into_string : Into string := fun j cur =>
  match j with JNull => Some cur | JStr s => Some s | _ => None end.

Definition into_bool : Into bool := fun j cur =>
  match j with JNull => Some cur | JBool b => Some b | _ => None end.

(** [int] and [int64]: an integer literal in the 64-bit range. *)
Definition into_int : Into Z := fun j cur =>
  match j with
  | JNull => Some cur
  | JNum lit =>
      match parse_int lit with
      | Some z => if in_int64 z then Some z else None
      | None => None
      end
  | _ => None
  end.

(** The elements go into the ones the slice already has, then into zero values. *)
Fixpoint into_elems {A} (zero : A) (f : Into A) (js : list json) (cur : list A) : option (list A) :=
  match js with
  | [] => Some []
  | j :: js' =>
      let '(c, cs) := match cur with c :: cs => (c, cs) | [] => (zero, []) end in
      match f j c, into_elems zero f js' cs with
      | Some x, Some xs => Some (x :: xs)
      | _, _ => None
      end
  end.

(** A slice for which nil and empty are the same, as for every [omitempty] slice. *)
Definition into_slice {A} (zero : A) (f : Into A) : Into (list A) := fun j cur =>
  match j with JNull => Some [] | JArr l => into_elems zero f l cur | _ => None end.

(** A slice that may be nil ([None]). *)
Definition into_nilable {A} (zero : A) (f : Into A) : Into (option (list A)) := fun j cur =>
  match j with
  | JNull => Some None
  | JArr l => option_map Some (into_elems zero f l (default [] cur))
  | _ => None
  end.

Definition into_ptr {A} (zero : A) (f : Into A) : Into (option A) := fun j cur =>
  match j with JNull => Some None | _ => option_map Some (f j (default zero cur)) end.

(** ** Structs *)

Record Field (R : Type) : Type := MkField {
  f_name : string;
  f_ty : Type;
  f_get : R -> f_ty;
  f_set : f_ty -> R -> R;
  f_enc : f_ty -> option json;
  f_dec : Into f_ty;
}.
Arguments MkField {R} f_name {f_ty} f_get f_set f_enc f_dec.
Arguments f_name {R} _.
Arguments f_get {R} _ _.
Arguments f_set {R} _ _ _.
Arguments f_enc {R} _ _.
Arguments f_dec {R} _ _ _.

(** [Tag "name" get enc dec]: the field read by [get] has the tag [json:"name"]. *)
Abbreviation Tag name get enc dec :=
  (MkField name get (fun v r => set_with get (fun _ => v) r) enc dec) (only parsing).

(** The encoders of a field; the second group has [omitempty]. *)
Definition enc_string (s : string) : option json := Some (JStr s).
Definition enc_bool (b : bool) : option json := Some (JBool b).
Definition enc_int (z : Z) : option json := Some (JNum (Itoa z)).
Definition opt_string (s : string) : option json := if String.eqb s "" then None else Some (JStr s).
Definition opt_bool (b : bool) : option json := if b then Some (JBool true) else None.
Definition opt_int (z : Z) : option json := if (z =? 0)%Z then None else Some (JNum (Itoa z)).
Definition opt_slice {A} (f : A -> json) (l : list A) : option json :=
  match l with [] => None | _ => Some (JArr (map f l)) end.
Definition enc_nilable {A} (f : A -> json) (l : option (list A)) : option json :=
  match l with None => Some JNull | Some l => Some (JArr (map f l)) end.
Definition opt_ptr {A} (f : A -> json) (o : option A) : option json := option_map f o.

(** [foldName]: letters fold to one case; U+017F and U+212A fold to [s] and [k]. *)
Fixpoint fold_name (s : string) : string :=
  match s with
  | "" => ""
  | String c s' =>
      let next := String (lower_byte c) (fold_name s') in
      match s' with
      | String d r =>
          if ((byte_val c =? 0xC5) && (byte_val d =? 0xBF))%Z then String "s" (fold_name r)
          else match r with
               | String e r' =>
                   if ((byte_val c =? 0xE2) && (byte_val d =? 0x84) && (byte_val e =? 0xAA))%Z
                   then String "k" (fold_name r') else next
               | "" => next
               end
      | "" => next
      end
  end.

Section Struct.
Context {R : Type}.

Definition encode_fields (fs : list (Field R)) (r : R) : list (string * json) :=
  omap (fun f => option_map (pair (f_name f)) (f_enc f (f_get f r))) fs.

Definition encode_struct (fs : list (Field R)) (r : R) : json := JObj (encode_fields fs r).

Definition find_field (fs : list (Field R)) (k : string) : option (Field R) :=
  match List.find (fun f => String.eqb (f_name f) k) fs with
  | Some f => Some f
  | None => List.find (fun f => String.eqb (fold_name (f_name f)) (fold_name k)) fs
  end.

(** One member of the object; a key of no field is ignored. *)
Definition into_member (fs : list (Field R)) (cur : R) (kv : string * json) : option R :=
  match find_field fs (fst kv) with
  | None => Some cur
  | Some f => option_map (fun v => f_set f v cur) (f_dec f (snd kv) (f_get f cur))
  end.

Fixpoint into_members (fs : list (Field R)) (l : list (string * json)) (cur : R) : option R :=
  match l with
  | [] => Some cur
  | kv :: l' => match into_member fs cur kv with Some r => into_members fs l' r | None => None end
  end.

Definition into_struct (fs : list (Field R)) : Into R := fun j cur =>
  match j with JNull => Some cur | JObj l => into_members fs l cur | _ => None end.
End Struct.

(** [json.Unmarshal(data, &v)] on a zero [v]: [None] for any error. *)
Definition Unmarshal {A} (zero : A) (f : Into A) (data : string) : option A :=
  match decode data with Some j => f j zero | None => None end.

(** ** Round trip *)

(** [enc_ok f z v]: the encoding of [v] decodes to [v] over the zero value [z]. *)
Definition enc_ok {A} (e : A -> option json) (d : Into A) (z v : A) : Prop :=
  match e v with None => v = z | Some j => d j z = Some v /\ json_wf j = true end.

#[global] Arguments enc_ok : simpl never.
#[global] Arguments into_struct : simpl never.
#[global] Arguments encode_struct : simpl never.

Lemma opt_string_ok s : utf8_valid s = true -> enc_ok opt_string into_string "" s.
Proof. unfold enc_ok, opt_string. by destruct (String.eqb_spec s ""). Qed.

Lemma enc_string_ok s : utf8_valid s = true -> enc_ok enc_string into_string "" s.
Proof. intros. by split. Qed.

Lemma into_int_Itoa z cur : in_int64 z = true -> into_int (JNum (Itoa z)) cur = Some z.
Proof. intros H. cbn [into_int]. by rewrite parse_int_Itoa, H. Qed.

Lemma enc_int_ok z : in_int64 z = true -> enc_ok enc_int into_int 0%Z z.
Proof. intros. split; [by apply into_int_Itoa|apply int_literal_b_Itoa]. Qed.

Lemma opt_int_ok z : in_int64 z = true -> enc_ok opt_int into_int 0%Z z.
Proof.
  unfold enc_ok, opt_int. destruct (Z.eqb_spec z 0); [done|]. intros.
  split; [by apply into_int_Itoa|apply int_literal_b_Itoa].
Qed.

Lemma opt_bool_ok b : enc_ok opt_bool into_bool false b.
Proof. by destruct b. Qed.

Lemma enc_bool_ok b : enc_ok enc_bool into_bool false b.
Proof. done. Qed.

Lemma into_elems_map {A} (zero : A) (f : Into A) (e : A -> json) l :
  Forall (fun x => f (e x) zero = Some x) l -> into_elems zero f (map e l) [] = Some l.
Proof.
  induction 1 as [|x l Hx _ IH]; [done|]. cbn [map into_elems]. by rewrite Hx, IH.
Qed.

Lemma opt_slice_ok {A} (zero : A) (f : Into A) (e : A -> json) l :
  Forall (fun x => f (e x) zero = Some x /\ json_wf (e x) = true) l ->
  enc_ok (opt_slice e) (into_slice zero f) [] l.
Proof.
  intros H. unfold enc_ok, opt_slice. destruct l as [|x l0] eqn:E; [done|]. rewrite <-E in *.
  split.
  - cbn [into_slice]. apply into_elems_map. eapply Forall_impl; [apply H|]. by intros ? [].
  - cbn [json_wf]. apply forallb_forall. intros j Hj. apply in_map_iff in Hj as (y & <- & Hy).
    apply list_elem_of_In in Hy. rewrite Forall_forall in H. by apply H.
Qed.

Lemma enc_nilable_ok {A} (zero : A) (f : Into A) (e : A -> json) l :
  Forall (fun x => f (e x) zero = Some x /\ json_wf (e x) = true) (default [] l) ->
  enc_ok (enc_nilable e) (into_nilable zero f) None l.
Proof.
  intros H. destruct l as [xs|]; [|done]. cbn [default] in H. split.
  - cbn [into_nilable default]. rewrite into_elems_map; [done|].
    eapply Forall_impl; [apply H|]. by intros ? [].
  - cbn [json_wf]. apply forallb_forall. intros j Hj. apply in_map_iff in Hj as (y & <- & Hy).
    apply list_elem_of_In in Hy. rewrite Forall_forall in H. by apply H.
Qed.

Lemma opt_ptr_ok {A} (zero : A) (f : Into A) (e : A -> json) o :
  (forall x, o = Some x -> f (e x) zero = Some x /\ json_wf (e x) = true /\ e x <> JNull) ->
  enc_ok (opt_ptr e) (into_ptr zero f) None o.
Proof.
  destruct o as [x|]; [|done]. intros H. destruct (H x eq_refl) as (H1 & H2 & H3). split; [|done].
  unfold into_ptr. case_match; try done; cbn [default]; by rewrite H1.
Qed.

Lemma str_elem_ok s : utf8_valid s = true ->
  into_string (JStr s) "" = Some s /\ json_wf (JStr s) = true.
Proof. done. Qed.

Section StructRoundTrip.
Context {R : Type} (zero : R).

(** The struct [cur] with the field [f] of [r]. *)
Definition copy (r : R) (cur : R) (f : Field R) : R := f_set f (f_get f r) cur.

(** The laws of the fields of a struct: storing what a field holds changes
    nothing, and storing one field leaves the later ones alone. *)
Definition indep (f g : Field R) : Prop := forall v r, f_get g (f_set f v r) = f_get g r.
Fixpoint lenses (fs : list (Field R)) : Prop :=
  match fs with
  | [] => True
  | f :: fs' => (forall r, f_set f (f_get f r) r = r) /\ foldr (fun g P => indep f g /\ P) True fs' /\ lenses fs'
  end.

(** The value of each field of [fs] in [r] round-trips over the field of [cur]. *)
Fixpoint values_ok (r : R) (fs : list (Field R)) (cur : R) : Prop :=
  match fs with
  | [] => True
  | f :: fs' => enc_ok (f_enc f) (f_dec f) (f_get f cur) (f_get f r) /\ values_ok r fs' cur
  end.

Lemma values_ok_copy r f fs cur :
  foldr (fun g P => indep f g /\ P) True fs -> values_ok r fs cur -> values_ok r fs (copy r cur f).
Proof.
  induction fs as [|g fs IH]; [done|]. intros [Hi Hr] [He Hv]. split; [|by apply IH].
  unfold copy. by rewrite Hi.
Qed.

Lemma into_members_encode r all fs cur :
  (forall f, In f fs -> find_field all (f_name f) = Some f) ->
  lenses fs -> values_ok r fs cur ->
  into_members all (encode_fields fs r) cur = Some (foldl (copy r) cur fs).
Proof.
  revert cur. induction fs as [|f fs IH]; intros cur Hfind HL HV; [done|].
  destruct HL as (Hset & Hi & Hl), HV as [He Hok].
  assert (Hfind' : forall g, In g fs -> find_field all (f_name g) = Some g)
    by (intros g Hg; apply Hfind; by right).
  pose proof (values_ok_copy r f fs cur Hi Hok) as Hok'. unfold encode_fields. cbn [omap list_omap foldl].
  unfold enc_ok in He. destruct (f_enc f (f_get f r)) as [j|].
  - destruct He as [He _]. cbn [option_map into_members]. unfold into_member.
    cbn [fst snd]. rewrite Hfind by (by left). rewrite He. cbn [option_map].
    by apply IH.
  - cbn [option_map]. unfold copy at 2. rewrite He, Hset. by apply IH.
Qed.

Lemma encode_fields_wf r fs cur :
  values_ok r fs cur -> forallb (fun f => utf8_valid (f_name f)) fs = true ->
  json_wf (JObj (encode_fields fs r)) = true.
Proof.
  induction fs as [|f fs IH]; intros Hok Hn; [done|].
  destruct Hok as (He & Hok). cbn [forallb] in Hn. reflect_bools.
  unfold encode_fields. cbn [omap list_omap]. unfold enc_ok in He.
  destruct (f_enc f (f_get f r)) as [j|]; cbn [option_map]; [|by eapply IH].
  destruct He as [_ Hj]. cbn [json_wf forallb fst snd]. use_bools. cbn [andb].
  by eapply IH.
Qed.

(** What a struct's table must satisfy, whatever the values. *)
Definition table_ok (fs : list (Field R)) : Prop :=
  (forall f, In f fs -> find_field fs (f_name f) = Some f) /\
  forallb (fun f => utf8_valid (f_name f)) fs = true /\
  lenses fs /\ (forall r, foldl (copy r) zero fs = r).

Lemma decode_struct_encode fs r :
  table_ok fs -> values_ok r fs zero ->
  into_struct fs (encode_struct fs r) zero = Some r /\ json_wf (encode_struct fs r) = true.
Proof.
  intros (Hf & Hn & Hl & Hr) Hok. split.
  - unfold into_struct, encode_struct. by rewrite into_members_encode, Hr.
  - by eapply encode_fields_wf.
Qed.
End StructRoundTrip.

Lemma Unmarshal_encode {A} (zero : A) f j v :
  json_wf j = true -> f j zero = Some v -> Unmarshal zero f (encode j) = Some v.
Proof. intros H1 H2. unfold Unmarshal. by rewrite decode_encode. Qed.

(** The tables of the structs are closed: their keys are found by computation. *)
Ltac solve_table :=
  split; [let f := fresh in let H := fresh in
          intros f H; cbv [In] in H;
          repeat (destruct H as [<-|H]; [reflexivity|]); destruct H|];
  split; [reflexivity|];
  split; [repeat split; intros []; reflexivity|intros []; reflexivity].

#[export] Hint Resolve opt_string_ok enc_string_ok enc_int_ok opt_int_ok opt_bool_ok enc_bool_ok
  : rallish_wf.

(** ** Structs inside structs *)

(** A struct held by value. *)
Definition enc_struct {R} (fs : list (Field R)) (r : R) : option json := Some (encode_struct fs r).

(** A struct that round-trips, as a field held by value, by pointer or in a slice. *)
Definition struct_ok {R} (fs : list (Field R)) (zero r : R) : Prop :=
  into_struct fs (encode_struct fs r) zero = Some r /\ json_wf (encode_struct fs r) = true.

Lemma enc_struct_ok {R} (fs : list (Field R)) zero r :
  struct_ok fs zero r -> enc_ok (enc_struct fs) (into_struct fs) zero r.
Proof. done. Qed.

Lemma opt_ptr_struct_ok {R} (fs : list (Field R)) zero o :
  (forall r, o = Some r -> struct_ok fs zero r) ->
  enc_ok (opt_ptr (encode_struct fs)) (into_ptr zero (into_struct fs)) None o.
Proof. intros H. apply opt_ptr_ok. intros r Hr. destruct (H r Hr). split_and!; done. Qed.

Lemma opt_slice_struct_ok {R} (fs : list (Field R)) zero l :
  Forall (struct_ok fs zero) l ->
  enc_ok (opt_slice (encode_struct fs)) (into_slice zero (into_struct fs)) [] l.
Proof. intros H. by apply opt_slice_ok. Qed.

#[export] Hint Resolve enc_struct_ok opt_ptr_struct_ok opt_slice_struct_ok : rallish_wf.

Ltac solve_struct table :=
  apply decode_struct_encode; [apply table|cbn; split_and!; eauto with rallish_wf].
