(* ===== verification/AnyValue.v ===== *)
(** * Values of type any

    What [encoding/json] makes of a value that is read into an [any] or a [map[string]any] and
    written again: the numbers become float64s, the keys of an object are sorted, a key that is set
    twice keeps the last value. *)

From S2P Require Import Prelude GoStrings Json Codec.
From Stdlib Require Import Ascii String.
#[local] Open Scope string_scope.

Fixpoint insert_key {A} (k : string) (v : A) (l : list (string * A)) : list (string * A) :=
  match l with
  | [] => [(k, v)]
  | (k', v') :: r =>
      if String.eqb k k' then (k, v) :: r
      else if String.leb k k' then (k, v) :: l
      else (k', v') :: insert_key k v r
  end.

(** A [map[string]any], printed in the order of its keys; a key set twice keeps the last value. *)
Definition go_map {A} (l : list (string * A)) : list (string * A) := foldl (fun m kv => insert_key (fst kv) (snd kv) m) [] l.

(** The integers a float64 holds exactly. *)
Definition small_literal (lit : string) : bool :=
  match parse_int lit with Some z => String.eqb lit (Itoa z) && (Z.abs z <=? 2 ^ 53)%Z | None => false end.

Section Any.
(** How a number that is not such an integer is printed after it was read into a float64;
    [None] when it is out of range. *)
Variable float_literal : string -> option string.

(** What [json.Unmarshal] into an [any] and [json.Marshal] of it make of a value. *)
Fixpoint any_value (j : json) : option json :=
  match j with
  | JNull | JBool _ | JStr _ => Some j
  | JNum lit => if small_literal lit then Some j else option_map JNum (float_literal lit)
  | JArr l => option_map JArr (fold_right (fun x r => match any_value x, r with Some y, Some ys => Some (y :: ys) | _, _ => None end) (Some []) l)
  | JObj l =>
      option_map (fun m => JObj (go_map m))
        (fold_right (fun kv r => match any_value (snd kv), r with Some y, Some ys => Some ((fst kv, y) :: ys) | _, _ => None end) (Some []) l)
  end.

(** [any]: [None] is nil. *)
Definition into_value : Into (option json) := fun j _ => match j with JNull => Some None | _ => option_map Some (any_value j) end.

(** [map[string]any] in a zero value. *)
Definition into_object : Into (option (list (string * json))) := fun j _ =>
  match j with
  | JNull => Some None
  | JObj _ => match any_value j with Some (JObj m) => Some (Some m) | _ => None end
  | _ => None
  end.

(** [omitempty] leaves out a nil map and an empty one. *)
Definition opt_object (m : option (list (string * json))) : option json :=
  match m with None | Some [] => None | Some l => Some (JObj (go_map l)) end.
End Any.
