(* ===== verification/Utf8.v ===== *)
(** * Encoded text on the wire

    Valid pieces of UTF-8 make valid text, and what [json.Marshal] writes is valid whatever the
    bytes of the strings: the text of one encoding can be a string of another one.  An encoding
    that is short enough is one data line of an event. *)

From S2P Require Import Prelude GoStrings Lines Json Codec.
From Stdlib Require Import Ascii String.
#[local] Open Scope string_scope.

Lemma utf8_tail_ascii c s : is_ascii c = true -> utf8_tail c s = Some 0%nat.
Proof. unfold utf8_tail. by intros ->. Qed.

(** A rune read at the head of a string is read whatever follows it. *)
Lemma utf8_valid_rune c s k : utf8_tail c s = Some k ->
  exists t r, s = t +:+ r /\ (forall x, utf8_valid (String c (t +:+ x)) = utf8_valid x).
Proof.
  destruct k as [|[|[|k]]]; intros E.
  - exists "", s. split; [done|]. intros x. apply utf8_tail_0 in E. cbn. by rewrite utf8_tail_ascii.
  - destruct (utf8_tail_1 _ _ E) as (_ & a & r & -> & Ht). exists (String a ""), r. split; [done|]. intros x.
    cbn [String.append utf8_valid]. by rewrite Ht.
  - destruct (utf8_tail_2 _ _ E) as (_ & a & b & r & -> & Ht). exists (String a (String b "")), r. split; [done|].
    intros x. cbn [String.append]. cbn [utf8_valid]. by rewrite Ht.
  - destruct (utf8_tail_3 _ _ _ E) as (-> & _ & a & b & d & r & -> & Ht). exists (String a (String b (String d ""))), r.
    split; [done|]. intros x. cbn [String.append]. cbn [utf8_valid]. by rewrite Ht.
Qed.

Lemma utf8_valid_app a b : utf8_valid a = true -> utf8_valid b = true -> utf8_valid (a +:+ b) = true.
Proof.
  remember (String.length a) as n eqn:Hn. revert a Hn. induction n as [n IH] using lt_wf_ind. intros [|c s] -> Ha Hb; [done|].
  destruct (utf8_tail c s) as [k|] eqn:E; [|by cbn [utf8_valid] in Ha; rewrite E in Ha].
  destruct (utf8_valid_rune c s k E) as (t & r & -> & Ht). rewrite Ht in Ha.
  cbn [String.append]. rewrite <-string_app_assoc, Ht. apply (IH (String.length r)); [|done..].
  cbn [String.length]. rewrite string_length_app. lia.
Qed.

Lemma escape_byte_ascii c : is_ascii c = true -> string_forall is_ascii (escape_byte c) = true.
Proof. by destruct c as [[] [] [] [] [] [] [] []]. Qed.

Lemma utf8_valid_quote_body s : utf8_valid (quote_body s) = true.
Proof.
  remember (String.length s) as n eqn:Hn. revert s Hn. induction n as [n IH] using lt_wf_ind. intros [|c s'] ->; [done|].
  assert (HIH : forall r, (String.length r <= String.length s')%nat -> utf8_valid (quote_body r) = true).
  { intros r Hr. eapply IH; [|done]. cbn [String.length]. lia. }
  cbn [quote_body]. destruct (utf8_tail c s') as [[|[|[|k]]]|] eqn:E.
  - apply utf8_valid_app; [|by apply HIH]. by eapply ascii_utf8, escape_byte_ascii, utf8_tail_0.
  - destruct (utf8_tail_1 _ _ E) as (_ & a & r & -> & Ht). cbn [utf8_valid String.length] in *. rewrite Ht. apply HIH. lia.
  - destruct (utf8_tail_2 _ _ E) as (_ & a & b & r & -> & Ht).
    assert (Hr : utf8_valid (quote_body r) = true) by (apply HIH; cbn [String.length]; lia).
    repeat case_match; [by apply utf8_valid_app..|]. cbn [utf8_valid]. by rewrite Ht.
  - destruct (utf8_tail_3 _ _ _ E) as (-> & _ & a & b & d & r & -> & Ht). cbn [utf8_valid String.length] in *.
    rewrite Ht. apply HIH. lia.
  - apply utf8_valid_app; [done|by apply HIH].
Qed.

Lemma utf8_valid_quote s : utf8_valid (quote s) = true.
Proof. unfold quote. apply (utf8_valid_app (String dquote "")); [done|]. by apply utf8_valid_app; [apply utf8_valid_quote_body|]. Qed.

Lemma utf8_valid_Join l sep : utf8_valid sep = true -> Forall (fun x => utf8_valid x = true) l -> utf8_valid (Join l sep) = true.
Proof.
  intros Hs. induction 1 as [|x l Hx Hl IH]; [done|]. destruct l as [|y l]; [done|].
  rewrite Join_cons2. by apply utf8_valid_app; [|apply utf8_valid_app].
Qed.

Lemma utf8_valid_Itoa z : utf8_valid (Itoa z) = true.
Proof.
  apply ascii_utf8. assert (Hd : forall d, string_forall is_digit d = true -> string_forall is_ascii d = true).
  { intros d. apply string_forall_impl. unfold is_digit, in_range, is_ascii. intros c H. reflect_bools. apply Z.ltb_lt. lia. }
  destruct (Itoa_cases z) as [[-> ->]|(c & d & Hall & Hc & [(Hz & -> & Hv)|(Hz & -> & Hv)])]; auto.
  apply Hd in Hall. exact Hall.
Qed.

Lemma utf8_valid_encode j : json_wf j = true -> utf8_valid (encode j) = true.
Proof.
  induction j as [|b|lit|s|l IH|l IH] using json_nested_ind; cbn [json_wf]; intros Hwf.
  - done.
  - by destruct b.
  - apply int_literal_b_spec in Hwf as [z ->]. apply utf8_valid_Itoa.
  - apply utf8_valid_quote.
  - cbn [encode]. apply utf8_valid_app; [done|]. apply utf8_valid_app; [|done]. apply utf8_valid_Join; [done|].
    rewrite forallb_forall in Hwf. apply Forall_forall. intros x (y & -> & Hy)%list_elem_of_fmap.
    rewrite Forall_forall in IH. apply IH; [done|]. by apply Hwf, list_elem_of_In.
  - rewrite encode_obj. apply utf8_valid_app; [done|]. apply utf8_valid_app; [|done]. apply utf8_valid_Join; [done|].
    rewrite forallb_forall in Hwf. apply Forall_forall. intros x (y & -> & Hy)%list_elem_of_fmap.
    rewrite Forall_forall in IH. specialize (IH y Hy). specialize (Hwf y). rewrite <-list_elem_of_In in Hwf.
    specialize (Hwf Hy). reflect_bools. unfold encode_member.
    apply utf8_valid_app; [apply utf8_valid_quote|]. by apply utf8_valid_app; [|apply IH].
Qed.

#[export] Hint Resolve utf8_valid_quote utf8_valid_Itoa : rallish_wf.

(** ** Data lines *)

(** What one data line can carry. *)
Definition fits (text : string) : bool := (Z.of_nat (String.length text) + 6 <? MaxScanTokenSize)%Z.

Lemma line_ok_encode j : json_wf j = true -> fits (encode j) = true -> line_ok ("data: " +:+ encode j) = true.
Proof.
  intros Hj Hf. unfold fits in Hf. reflect_bools.
  assert (Hc : no_byte cr_byte (encode j) = true).
  { apply encode_not_control in Hj. revert Hj. apply string_forall_impl. intros c Hc. apply negb_true_iff, Ascii.eqb_neq. by intros <-. }
  unfold line_ok. change (no_byte nl_byte ("data: " +:+ encode j)) with (no_byte nl_byte (encode j)).
  change (no_byte cr_byte ("data: " +:+ encode j)) with (no_byte cr_byte (encode j)).
  rewrite Hc. unfold nl_byte. rewrite encode_one_line by done. unfold too_long.
  apply negb_true_iff, Z.leb_gt. rewrite string_length_app. change (String.length "data: ") with 6%nat. lia.
Qed.

Lemma encode_nonempty j : json_wf j = true -> encode j <> "".
Proof. intros H. destruct (encode_head j H) as (c & r & -> & _). done. Qed.

(** A data line that does not fit ends the scan. *)
Lemma scan_long_data data rest : no_byte nl_byte data = true -> fits data = false -> scan (("data: " +:+ data) +:+ rest) = ([], true).
Proof.
  intros Hn Hf. apply scan_too_long; [done|]. unfold too_long, fits in *. reflect_bools. apply Z.leb_le.
  rewrite string_length_app. change (String.length "data: ") with 6%nat. lia.
Qed.
