(* ===== verification/Contract.v ===== *)
(** * pkg/contract: the wire types

    The enumerations, structs and parsers of [types.go], [cycle.go], [rally.go],
    [work_contract.go] and [errors.go]: phases and halt reasons, the parsed names and
    ids of a rally session, the [[pattern:..]] tag, the typed turn payload, and the
    snapshot of a cycle ([CycleState]) with its three budget predicates. *)

From S2P Require Import Prelude GoStrings Json Codec.
From Stdlib Require Import Ascii String.
#[local] Open Scope string_scope.

(** ** Errors *)

(* src: pkg/contract/errors.go 5-65 ErrInvalidName *)
Inductive ContractError : Set :=
  | ErrInvalidName | ErrInvalidSessionID | ErrInvalidPattern | ErrNotHolder
  | ErrSessionNotFound | ErrDuplicateName | ErrTooFewParticipants | ErrSelfHandoff
  | ErrSessionInterrupted | ErrAlreadyConnected | ErrHandoffToNotMember
  | ErrFirstHolderNotMember
  | ErrInvalidCyclePhase | ErrInvalidHaltReason | ErrCycleNotFound | ErrCycleHalted
  | ErrMainBranchForbidden | ErrGoalRequired | ErrInvalidActionVerdict.

#[global] Instance ContractError_eq_dec : EqDecision ContractError.
Proof. solve_decision. Defined.

(** ** Phases and halt reasons *)

(** The named phases, the zero value of the string type, and any other string: the type is a
    string, and a phase read from a file is not validated. *)
(* src: pkg/contract/cycle.go 12-25 CyclePhase *)
Inductive CyclePhase : Set :=
  | CyclePhaseUnset | CyclePhasePreflight | CyclePhaseAudit | CyclePhasePhilosophy | CyclePhasePolish
  | CyclePhaseCommit | CyclePhaseHandoff | CyclePhaseHalted | CyclePhaseOther (s : string).

#[global] Instance CyclePhase_eq_dec : EqDecision CyclePhase.
Proof. solve_decision. Defined.

(* src: pkg/contract/cycle.go 16-40 CyclePhase.String *)
Definition phase_string (p : CyclePhase) : string :=
  match p with
  | CyclePhaseUnset => ""
  | CyclePhasePreflight => "preflight"
  | CyclePhaseAudit => "audit"
  | CyclePhasePhilosophy => "philosophy"
  | CyclePhasePolish => "polish"
  | CyclePhaseCommit => "commit"
  | CyclePhaseHandoff => "handoff"
  | CyclePhaseHalted => "halted"
  | CyclePhaseOther s => s
  end.

(* src: pkg/contract/cycle.go 27-37 ParseCyclePhase *)
Definition ParseCyclePhase (s : string) : ContractError + CyclePhase :=
  if String.eqb s "preflight" then inr CyclePhasePreflight
  else if String.eqb s "audit" then inr CyclePhaseAudit
  else if String.eqb s "philosophy" then inr CyclePhasePhilosophy
  else if String.eqb s "polish" then inr CyclePhasePolish
  else if String.eqb s "commit" then inr CyclePhaseCommit
  else if String.eqb s "handoff" then inr CyclePhaseHandoff
  else if String.eqb s "halted" then inr CyclePhaseHalted
  else inl ErrInvalidCyclePhase.

(* src: pkg/contract/cycle.go 42-59 CyclePhase.Next *)
Definition Next (p : CyclePhase) : CyclePhase :=
  match p with
  | CyclePhasePreflight => CyclePhaseAudit
  | CyclePhaseAudit => CyclePhasePhilosophy
  | CyclePhasePhilosophy => CyclePhasePolish
  | CyclePhasePolish => CyclePhaseCommit
  | CyclePhaseCommit => CyclePhaseHandoff
  | _ => CyclePhaseHalted
  end.

(** Likewise; the zero value, no reason, is [None] where a reason is held. *)
(* src: pkg/contract/cycle.go 61-81 HaltReason *)
Inductive HaltReason : Set :=
  | HaltSelfAuditViolation | HaltSSHAuthFailed | HaltMaxCyclesReached | HaltGateFailure
  | HaltUserRequested | HaltPreflightFailed | HaltSuccess | HaltStuck | HaltBudgetExceeded
  | HaltUnparseableTurn | HaltOther (s : string).

#[global] Instance HaltReason_eq_dec : EqDecision HaltReason.
Proof. solve_decision. Defined.

(* src: pkg/contract/cycle.go 65-97 HaltReason.String *)
Definition halt_string (r : HaltReason) : string :=
  match r with
  | HaltSelfAuditViolation => "self-audit-violation"
  | HaltSSHAuthFailed => "ssh-auth-failed"
  | HaltMaxCyclesReached => "max-cycles-reached"
  | HaltGateFailure => "gate-failure"
  | HaltUserRequested => "user-requested"
  | HaltPreflightFailed => "preflight-failed"
  | HaltSuccess => "success"
  | HaltStuck => "stuck"
  | HaltBudgetExceeded => "budget-exceeded"
  | HaltUnparseableTurn => "unparseable-turn"
  | HaltOther s => s
  end.

(* src: pkg/contract/cycle.go 83-94 ParseHaltReason *)
Definition ParseHaltReason (s : string) : ContractError + HaltReason :=
  if String.eqb s "self-audit-violation" then inr HaltSelfAuditViolation
  else if String.eqb s "ssh-auth-failed" then inr HaltSSHAuthFailed
  else if String.eqb s "max-cycles-reached" then inr HaltMaxCyclesReached
  else if String.eqb s "gate-failure" then inr HaltGateFailure
  else if String.eqb s "user-requested" then inr HaltUserRequested
  else if String.eqb s "preflight-failed" then inr HaltPreflightFailed
  else if String.eqb s "success" then inr HaltSuccess
  else if String.eqb s "stuck" then inr HaltStuck
  else if String.eqb s "budget-exceeded" then inr HaltBudgetExceeded
  else if String.eqb s "unparseable-turn" then inr HaltUnparseableTurn
  else inl ErrInvalidHaltReason.

(** ** Violations, gate reports, turns *)

(* src: pkg/contract/cycle.go 131-138 ViolationCheck *)
Record ViolationCheck := mkViolationCheck { vc_Command : string; vc_Expected : string }.
#[export] Instance eta_ViolationCheck : Eta ViolationCheck :=
  fun r => mkViolationCheck (vc_Command r) (vc_Expected r).

(* src: pkg/contract/cycle.go 140-152 Violation *)
Record Violation := mkViolation {
  v_File : string; v_Line : Z; v_Type : string; v_Message : string; v_Check : option ViolationCheck }.
#[export] Instance eta_Violation : Eta Violation :=
  fun r => mkViolation (v_File r) (v_Line r) (v_Type r) (v_Message r) (v_Check r).

#[global] Instance ViolationCheck_eq_dec : EqDecision ViolationCheck.
Proof. solve_decision. Defined.
#[global] Instance Violation_eq_dec : EqDecision Violation.
Proof. solve_decision. Defined.

(* src: pkg/contract/cycle.go 154-160 ClaimCheck *)
Record ClaimCheck := mkClaimCheck { cc_Violation : Violation; cc_Verified : bool }.

(* src: pkg/contract/cycle.go 162-178 GateReport *)
Record GateReport := mkGateReport {
  g_Gate : string; g_Passed : bool; g_DurationMS : Z; g_Stdout : string; g_Stderr : string;
  g_Violations : list Violation; g_ClaimChecks : list ClaimCheck }.
#[export] Instance eta_GateReport : Eta GateReport :=
  fun r => mkGateReport (g_Gate r) (g_Passed r) (g_DurationMS r) (g_Stdout r) (g_Stderr r)
             (g_Violations r) (g_ClaimChecks r).

(* src: pkg/contract/cycle.go 180-213 GateResult *)
Inductive GateResult :=
  | GateSuccess (r : GateReport)
  | GateFailure (r : GateReport) (reason : HaltReason)
  | GateWarning (r : GateReport).

(* src: pkg/contract/cycle.go 193-213 GateResult.Report *)
Definition Report (g : GateResult) : GateReport :=
  match g with GateSuccess r | GateFailure r _ | GateWarning r => r end.

(* src: pkg/contract/types.go 26-33 HandoffIntent *)
Definition HandoffIntentContinue : string := "continue".
(* src: pkg/contract/types.go 29-33 HandoffIntentCrossCheck *)
Definition HandoffIntentCrossCheck : string := "cross_check".
(* src: pkg/contract/types.go 35-43 SelfEvalBlocked *)
Definition SelfEvalBlocked : string := "blocked".
(* src: pkg/contract/types.go 35-43 SelfEvalConfident *)
Definition SelfEvalConfident : string := "confident".
(* src: pkg/contract/types.go 35-43 SelfEvalUncertain *)
Definition SelfEvalUncertain : string := "uncertain".

(* src: pkg/contract/types.go 86-94 Usage *)
Record Usage := mkUsage { u_TokensIn : Z; u_TokensOut : Z; u_Ms : Z }.

(* src: pkg/contract/types.go 124-144 TurnResponse *)
Record TurnResponse := mkTurnResponse {
  r_Done : bool; r_HandoffTo : string; r_HandoffIntent : string; r_Summary : string;
  r_Artifacts : list string; r_SelfEval : string; r_NotesForHuman : string;
  r_Usage : option Usage; r_Claims : list Violation }.
#[export] Instance eta_TurnResponse : Eta TurnResponse :=
  fun r => mkTurnResponse (r_Done r) (r_HandoffTo r) (r_HandoffIntent r) (r_Summary r)
             (r_Artifacts r) (r_SelfEval r) (r_NotesForHuman r) (r_Usage r) (r_Claims r).

(** The rune U+2192, three bytes of UTF-8. *)
Definition arrow : string := utf8_encode 0x2192.

(* src: pkg/contract/types.go 146-179 TurnResponse.Compact *)
Definition Compact (r : TurnResponse) : string :=
  (if r_Done r then "[done] " else "") +:+
  (if String.eqb (r_HandoffTo r) "" then "" else arrow +:+ " " +:+ r_HandoffTo r +:+ " ") +:+
  "eval=" +:+ r_SelfEval r +:+
  (if String.eqb (r_Summary r) "" then ""
   else " summary=" +:+ String dquote "" +:+ r_Summary r +:+ String dquote "") +:+
  (match r_Artifacts r with [] => "" | l => " artifacts=[" +:+ Join l ", " +:+ "]" end) +:+
  (match r_Usage r with
   | None => ""
   | Some u => " usage=" +:+ Itoa (u_TokensIn u) +:+ "/" +:+ Itoa (u_TokensOut u)
   end).

(** ** The typed turn payload *)

(* src: pkg/contract/cycle.go 99-109 TurnPayload *)
Record TurnPayload := mkTurnPayload {
  p_NextGoal : string; p_ViolationsFound : list Violation; p_HaltRequested : bool }.
#[export] Instance eta_TurnPayload : Eta TurnPayload :=
  fun r => mkTurnPayload (p_NextGoal r) (p_ViolationsFound r) (p_HaltRequested r).

(* src: pkg/contract/cycle.go 131-138 ViolationCheck *)
Definition ViolationCheck_fields : list (Field ViolationCheck) :=
  [ Tag "command" vc_Command opt_string into_string;
    Tag "expected" vc_Expected opt_string into_string ].
Definition ViolationCheck_zero := mkViolationCheck "" "".

(* src: pkg/contract/cycle.go 140-152 Violation *)
Definition Violation_fields : list (Field Violation) :=
  [ Tag "file" v_File opt_string into_string;
    Tag "line" v_Line opt_int into_int;
    Tag "type" v_Type enc_string into_string;
    Tag "message" v_Message enc_string into_string;
    Tag "check" v_Check (opt_ptr (encode_struct ViolationCheck_fields))
      (into_ptr ViolationCheck_zero (into_struct ViolationCheck_fields)) ].
Definition Violation_zero := mkViolation "" 0 "" "" None.

(* src: pkg/contract/cycle.go 102-109 TurnPayload *)
Definition TurnPayload_fields : list (Field TurnPayload) :=
  [ Tag "next_goal" p_NextGoal opt_string into_string;
    Tag "violations_found" p_ViolationsFound (opt_slice (encode_struct Violation_fields))
      (into_slice Violation_zero (into_struct Violation_fields));
    Tag "halt_requested" p_HaltRequested opt_bool into_bool ].
Definition TurnPayload_zero := mkTurnPayload "" [] false.

(** The boolean is Go's second result. *)
(* src: pkg/contract/cycle.go 111-129 ParseTurnPayload *)
Definition ParseTurnPayload (summary : string) : TurnPayload * bool :=
  if String.eqb summary "" then (TurnPayload_zero, true)
  else match Unmarshal TurnPayload_zero (into_struct TurnPayload_fields) summary with
       | None => (TurnPayload_zero, false)
       | Some p => (p, true)
       end.

(** ** Cycles *)

(* src: pkg/contract/cycle.go 318-338 OrchestratorConfig *)
Record OrchestratorConfig := mkOrchestratorConfig {
  o_Agents : option (list string); o_Pattern : string; o_ResetEvery : Z; o_RepoURL : string;
  o_WorkingDir : string; o_MaxLifetimeTurns : Z }.
#[export] Instance eta_OrchestratorConfig : Eta OrchestratorConfig :=
  fun r => mkOrchestratorConfig (o_Agents r) (o_Pattern r) (o_ResetEvery r) (o_RepoURL r)
             (o_WorkingDir r) (o_MaxLifetimeTurns r).

(* src: pkg/contract/work_contract.go 3-24 WorkContract *)
Record WorkContract := mkWorkContract {
  w_Objective : string; w_RepoRoot : string; w_Branch : string; w_PendingFiles : list string;
  w_LocalGates : list string; w_MaxCycles : Z; w_MaxDurationMinutes : Z; w_AutoGoal : bool;
  w_Orchestrator : option OrchestratorConfig }.
#[export] Instance eta_WorkContract : Eta WorkContract :=
  fun r => mkWorkContract (w_Objective r) (w_RepoRoot r) (w_Branch r) (w_PendingFiles r)
             (w_LocalGates r) (w_MaxCycles r) (w_MaxDurationMinutes r) (w_AutoGoal r)
             (w_Orchestrator r).

(* src: pkg/contract/cycle.go 340-363 NewCycleRequest *)
Record NewCycleRequest := mkNewCycleRequest {
  nc_Goal : string; nc_Branch : string; nc_MaxCycles : Z; nc_MaxDurationMinutes : Z;
  nc_AutoGoal : bool; nc_PendingFiles : list string; nc_LocalGates : list string;
  nc_AuditCmd : string; nc_PolishTestCmd : string; nc_Orchestrator : option OrchestratorConfig }.

(* src: pkg/contract/cycle.go 215-262 CycleState *)
Record CycleState := mkCycleState {
  s_ID : string; s_Phase : CyclePhase; s_CompletedCycles : Z; s_MaxCycles : Z; s_Branch : string;
  s_BaselineSHA : string; s_PendingFiles : list string; s_LocalGates : list string;
  s_AuditCmd : string; s_PolishTestCmd : string; s_ViolationsFound : list Violation;
  s_NextCycleGoal : string; s_Halted : bool; s_HaltReason : option HaltReason; s_CreatedAt : Z;
  s_UpdatedAt : Z; s_History : list GateReport; s_LastFailedGate : string; s_AutoGoal : bool;
  s_MaxDurationMinutes : Z; s_StartedAt : Z }.
#[export] Instance eta_CycleState : Eta CycleState :=
  fun r => mkCycleState (s_ID r) (s_Phase r) (s_CompletedCycles r) (s_MaxCycles r) (s_Branch r)
    (s_BaselineSHA r) (s_PendingFiles r) (s_LocalGates r) (s_AuditCmd r) (s_PolishTestCmd r)
    (s_ViolationsFound r) (s_NextCycleGoal r) (s_Halted r) (s_HaltReason r) (s_CreatedAt r)
    (s_UpdatedAt r) (s_History r) (s_LastFailedGate r) (s_AutoGoal r) (s_MaxDurationMinutes r)
    (s_StartedAt r).

(** [CycleState{}] *)
Definition CycleState_zero : CycleState :=
  mkCycleState "" CyclePhaseUnset 0 0 "" "" [] [] "" "" [] "" false None 0 0 [] "" false 0 0.

(** [now] is the clock in Unix milliseconds.  The minutes are a float64 in Go,
    truncated by [int]; they are the integral minutes up to some 90 days. *)
(* src: pkg/contract/cycle.go 264-279 CycleState.CanAdvance *)
Definition CanAdvance (now : Z) (s : CycleState) : bool :=
  if s_Halted s then false
  else if ((0 <? s_MaxCycles s) && (s_MaxCycles s <=? s_CompletedCycles s))%Z then false
  else if ((0 <? s_MaxDurationMinutes s) && (0 <? s_StartedAt s))%Z
          && (s_MaxDurationMinutes s <=? Z.quot (now - s_StartedAt s) 60000)%Z then false
  else true.

(* src: pkg/contract/cycle.go 281-285 CycleState.ShouldRotateAgent *)
Definition ShouldRotateAgent (s : CycleState) : bool :=
  ((0 <? s_CompletedCycles s) && (Z.rem (s_CompletedCycles s) 3 =? 0))%Z.

(* src: pkg/contract/cycle.go 287-303 CycleEvent *)
Record CycleEvent := mkCycleEvent {
  ce_CycleID : string; ce_Phase : CyclePhase; ce_CompletedCycles : Z; ce_Halted : bool;
  ce_HaltReason : option HaltReason; ce_LastFailedGate : string; ce_At : Z }.

(* src: pkg/contract/cycle.go 305-316 NewCycleEvent *)
Definition NewCycleEvent (now : Z) (s : CycleState) : CycleEvent :=
  mkCycleEvent (s_ID s) (s_Phase s) (s_CompletedCycles s) (s_Halted s) (s_HaltReason s)
    (s_LastFailedGate s) now.

(* src: pkg/contract/work_contract.go 26-43 NewCycleRequest.WorkContract *)
Definition WorkContract_of_request (r : NewCycleRequest) : WorkContract :=
  let repoRoot := match nc_Orchestrator r with Some o => o_WorkingDir o | None => "" end in
  mkWorkContract (nc_Goal r) repoRoot (nc_Branch r) (nc_PendingFiles r) (nc_LocalGates r)
    (nc_MaxCycles r) (nc_MaxDurationMinutes r) (nc_AutoGoal r) (nc_Orchestrator r).

(* src: pkg/contract/work_contract.go 45-58 CycleState.WorkContract *)
Definition WorkContract_of_state (s : CycleState) (repoRoot : string)
    (orchestrator : option OrchestratorConfig) : WorkContract :=
  mkWorkContract (s_NextCycleGoal s) repoRoot (s_Branch s) (s_PendingFiles s) (s_LocalGates s)
    (s_MaxCycles s) (s_MaxDurationMinutes s) (s_AutoGoal s) orchestrator.

(* src: pkg/contract/cycle.go 318-338 OrchestratorConfig *)
Definition OrchestratorConfig_fields : list (Field OrchestratorConfig) :=
  [ Tag "agents" o_Agents (enc_nilable JStr) (into_nilable "" into_string);
    Tag "pattern" o_Pattern opt_string into_string;
    Tag "reset_every" o_ResetEvery opt_int into_int;
    Tag "repo_url" o_RepoURL opt_string into_string;
    Tag "working_dir" o_WorkingDir opt_string into_string;
    Tag "max_lifetime_turns" o_MaxLifetimeTurns opt_int into_int ].
Definition OrchestratorConfig_zero := mkOrchestratorConfig None "" 0 "" "" 0.

(* src: pkg/contract/work_contract.go 3-24 WorkContract *)
Definition WorkContract_fields : list (Field WorkContract) :=
  [ Tag "objective" w_Objective enc_string into_string;
    Tag "repo_root" w_RepoRoot opt_string into_string;
    Tag "branch" w_Branch opt_string into_string;
    Tag "pending_files" w_PendingFiles (opt_slice JStr) (into_slice "" into_string);
    Tag "local_gates" w_LocalGates (opt_slice JStr) (into_slice "" into_string);
    Tag "max_cycles" w_MaxCycles opt_int into_int;
    Tag "max_duration_minutes" w_MaxDurationMinutes opt_int into_int;
    Tag "auto_goal" w_AutoGoal opt_bool into_bool;
    Tag "orchestrator" w_Orchestrator (opt_ptr (encode_struct OrchestratorConfig_fields))
      (into_ptr OrchestratorConfig_zero (into_struct OrchestratorConfig_fields)) ].
Definition WorkContract_zero := mkWorkContract "" "" "" [] [] 0 0 false None.

(** ** Rally sessions *)

(** One byte of the class [[a-zA-Z0-9_-]]. *)
(* src: pkg/contract/rally.go 14-17 participantNameRe *)
Definition name_byte (c : ascii) : bool :=
  in_range 97 122 c || in_range 65 90 c || in_range 48 57 c || (byte_val c =? 95)%Z || (byte_val c =? 45)%Z.

(* src: pkg/contract/rally.go 14-17 participantNameRe *)
Definition participantNameRe (s : string) : bool :=
  string_forall name_byte s && (1 <=? String.length s)%nat && (String.length s <=? 16)%nat.

(* src: pkg/contract/rally.go 26-33 NewParticipantName *)
Definition NewParticipantName (s : string) : ContractError + string :=
  if negb (participantNameRe s) then inl ErrInvalidName else inr s.

Definition lower_hex_byte (c : ascii) : bool := in_range 48 57 c || in_range 97 102 c.

(* src: pkg/contract/rally.go 19-20 sessionIDRe *)
Definition sessionIDRe (s : string) : bool :=
  HasPrefix s "rly_" &&
  (let '(digits, rest) := span_digits (slice_from s 4) in
   negb (String.eqb digits "") && HasPrefix rest "_" &&
   (String.length rest =? 5)%nat && string_forall lower_hex_byte (slice_from rest 1)).

(* src: pkg/contract/rally.go 63-70 NewSessionID *)
Definition NewSessionID (s : string) : ContractError + string :=
  if negb (sessionIDRe s) then inl ErrInvalidSessionID else inr s.

(** [UnmarshalJSON] of the two types: a JSON string that the constructor accepts.
    [null] decodes to the empty string, which neither accepts. *)
(* src: pkg/contract/rally.go 43-57 ParticipantName.UnmarshalJSON *)
Definition ParticipantName_UnmarshalJSON (data : string) : option string :=
  match Unmarshal "" into_string data with
  | None => None
  | Some s => match NewParticipantName s with inl _ => None | inr np => Some np end
  end.

(* src: pkg/contract/rally.go 80-93 SessionID.UnmarshalJSON *)
Definition SessionID_UnmarshalJSON (data : string) : option string :=
  match Unmarshal "" into_string data with
  | None => None
  | Some s => match NewSessionID s with inl _ => None | inr np => Some np end
  end.

(* src: pkg/contract/rally.go 38-41 ParticipantName.MarshalJSON *)
Definition ParticipantName_MarshalJSON (p : string) : string := encode (JStr p).
(* src: pkg/contract/rally.go 75-78 SessionID.MarshalJSON *)
Definition SessionID_MarshalJSON (id : string) : string := encode (JStr id).

(* src: pkg/contract/rally.go 95-110 Pattern *)
Inductive Pattern : Set :=
  | PatternUnknown | PatternFreeform | PatternCycle | PatternDiscuss | PatternHelp.

(* src: pkg/contract/rally.go 112-126 Pattern.String *)
Definition pattern_string (p : Pattern) : string :=
  match p with
  | PatternFreeform => "freeform" | PatternCycle => "cycle" | PatternDiscuss => "discuss"
  | PatternHelp => "help" | PatternUnknown => "unknown"
  end.

(* src: pkg/contract/rally.go 128-156 ParsePattern *)
Definition ParsePattern (taskPrefix : string) : ContractError + (Pattern * string) :=
  if negb (HasPrefix taskPrefix "[pattern:") then inr (PatternFreeform, taskPrefix)
  else
    let e := Index taskPrefix "]" in
    if (e <? 0)%Z then inl ErrInvalidPattern
    else
      let name := slice taskPrefix 9 (Z.to_nat e) in
      let rest := TrimLeft (slice_from taskPrefix (Z.to_nat e + 1)) " " in
      if String.eqb name "freeform" then inr (PatternFreeform, rest)
      else if String.eqb name "cycle" then inr (PatternCycle, rest)
      else if String.eqb name "discuss" then inr (PatternDiscuss, rest)
      else if String.eqb name "help" then inr (PatternHelp, rest)
      else inl ErrInvalidPattern.

(* src: pkg/contract/rally.go 158-167 RallyStateIdle *)
Definition RallyStateIdle : string := "idle".
(* src: pkg/contract/rally.go 165-166 RallyStateInterrupted *)
Definition RallyStateInterrupted : string := "interrupted".
(* src: pkg/contract/rally.go 169-173 RallyTurnState *)
Definition RallyTurnState (name : string) : string := name +:+ "_turn".

(* src: pkg/contract/rally.go 175-187 BatonHandoff *)
Record BatonHandoff := mkBatonHandoff {
  h_From : string; h_To : string; h_TurnN : Z; h_Note : string; h_At : Z }.

(* src: pkg/contract/rally.go 189-200 BatonEvent *)
Record BatonEvent := mkBatonEvent {
  be_TurnN : Z; be_From : string; be_Note : string; be_Closed : bool }.

(* src: pkg/contract/rally.go 202-209 DoneRequest *)
Record DoneRequest := mkDoneRequest { d_Note : string; d_HandoffTo : string }.

(* src: pkg/contract/rally.go 211-223 NewRallyRequest *)
Record NewRallyRequest := mkNewRallyRequest {
  nr_Participants : list string; nr_Repo : string; nr_Task : string; nr_FirstHolder : string }.

(* src: pkg/contract/rally.go 225-247 RallySession *)
Record RallySession := mkRallySession {
  rs_ID : string; rs_Participants : list string; rs_Repo : string; rs_Task : string;
  rs_Holder : string; rs_TurnN : Z; rs_Status : string; rs_LastSeen : gmap string Z;
  rs_History : list BatonHandoff; rs_CreatedAt : Z }.
#[export] Instance eta_RallySession : Eta RallySession :=
  fun r => mkRallySession (rs_ID r) (rs_Participants r) (rs_Repo r) (rs_Task r) (rs_Holder r)
    (rs_TurnN r) (rs_Status r) (rs_LastSeen r) (rs_History r) (rs_CreatedAt r).

#[global] Instance BatonHandoff_eq_dec : EqDecision BatonHandoff.
Proof. solve_decision. Defined.
#[global] Instance BatonEvent_eq_dec : EqDecision BatonEvent.
Proof. solve_decision. Defined.

(** ** Well-formed values: what the encoder prints faithfully *)

Definition strings_wf (l : list string) : bool := forallb utf8_valid l.

Definition ViolationCheck_wf (c : ViolationCheck) : bool :=
  utf8_valid (vc_Command c) && utf8_valid (vc_Expected c).

Definition Violation_wf (v : Violation) : bool :=
  utf8_valid (v_File v) && in_int64 (v_Line v) && utf8_valid (v_Type v) && utf8_valid (v_Message v) &&
  match v_Check v with Some c => ViolationCheck_wf c | None => true end.

Definition TurnPayload_wf (p : TurnPayload) : bool :=
  utf8_valid (p_NextGoal p) && forallb Violation_wf (p_ViolationsFound p).

Definition OrchestratorConfig_wf (o : OrchestratorConfig) : bool :=
  strings_wf (default [] (o_Agents o)) && utf8_valid (o_Pattern o) && in_int64 (o_ResetEvery o) &&
  utf8_valid (o_RepoURL o) && utf8_valid (o_WorkingDir o) && in_int64 (o_MaxLifetimeTurns o).

Definition WorkContract_wf (w : WorkContract) : bool :=
  utf8_valid (w_Objective w) && utf8_valid (w_RepoRoot w) && utf8_valid (w_Branch w) &&
  strings_wf (w_PendingFiles w) && strings_wf (w_LocalGates w) && in_int64 (w_MaxCycles w) &&
  in_int64 (w_MaxDurationMinutes w) &&
  match w_Orchestrator w with Some o => OrchestratorConfig_wf o | None => true end.

(** ** Lemmas *)

Lemma strings_elem_ok l : strings_wf l = true ->
  Forall (fun s => into_string (JStr s) "" = Some s /\ json_wf (JStr s) = true) l.
Proof.
  unfold strings_wf. rewrite forallb_forall. intros H. apply Forall_forall. intros s Hs.
  apply list_elem_of_In in Hs. split; [done|]. cbn. auto.
Qed.

Lemma opt_strings_ok l : strings_wf l = true ->
  enc_ok (opt_slice JStr) (into_slice "" into_string) [] l.
Proof. intros. by apply opt_slice_ok, strings_elem_ok. Qed.

#[export] Hint Resolve opt_strings_ok : rallish_wf.

Lemma ViolationCheck_table : table_ok ViolationCheck_zero ViolationCheck_fields.
Proof. solve_table. Qed.

Lemma ViolationCheck_roundtrip c : ViolationCheck_wf c = true ->
  into_struct ViolationCheck_fields (encode_struct ViolationCheck_fields c) ViolationCheck_zero = Some c
  /\ json_wf (encode_struct ViolationCheck_fields c) = true.
Proof.
  unfold ViolationCheck_wf. intros. reflect_bools. apply decode_struct_encode.
  - apply ViolationCheck_table.
  - cbn. eauto 10 with rallish_wf.
Qed.

Lemma Violation_table : table_ok Violation_zero Violation_fields.
Proof. solve_table. Qed.

Lemma Violation_roundtrip v : Violation_wf v = true ->
  into_struct Violation_fields (encode_struct Violation_fields v) Violation_zero = Some v
  /\ json_wf (encode_struct Violation_fields v) = true.
Proof.
  unfold Violation_wf. intros. reflect_bools. apply decode_struct_encode.
  - apply Violation_table.
  - cbn. split_and!; eauto with rallish_wf.
    apply opt_ptr_ok. intros c Hc. rewrite Hc in *. split_and!; [by apply ViolationCheck_roundtrip..|done].
Qed.

Lemma enc_nilable_strings_ok l : strings_wf (default [] l) = true ->
  enc_ok (enc_nilable JStr) (into_nilable "" into_string) None l.
Proof. intros H. by apply enc_nilable_ok, strings_elem_ok. Qed.

Lemma claims_ok l : forallb Violation_wf l = true -> Forall (struct_ok Violation_fields Violation_zero) l.
Proof.
  rewrite forallb_forall. intros H. apply Forall_forall. intros v Hv.
  apply Violation_roundtrip, H. by apply list_elem_of_In.
Qed.

#[export] Hint Resolve enc_nilable_strings_ok claims_ok : rallish_wf.

Lemma TurnPayload_table : table_ok TurnPayload_zero TurnPayload_fields.
Proof. solve_table. Qed.

Lemma TurnPayload_roundtrip p : TurnPayload_wf p = true ->
  into_struct TurnPayload_fields (encode_struct TurnPayload_fields p) TurnPayload_zero = Some p
  /\ json_wf (encode_struct TurnPayload_fields p) = true.
Proof.
  unfold TurnPayload_wf. rewrite andb_true_iff, forallb_forall. intros [? Hv].
  apply decode_struct_encode.
  - apply TurnPayload_table.
  - cbn. split_and!; eauto with rallish_wf. apply opt_slice_ok, Forall_forall.
    intros v Hin. apply Violation_roundtrip, Hv. by apply list_elem_of_In.
Qed.

Lemma OrchestratorConfig_table : table_ok OrchestratorConfig_zero OrchestratorConfig_fields.
Proof. solve_table. Qed.

Lemma OrchestratorConfig_roundtrip o : OrchestratorConfig_wf o = true ->
  into_struct OrchestratorConfig_fields (encode_struct OrchestratorConfig_fields o)
    OrchestratorConfig_zero = Some o
  /\ json_wf (encode_struct OrchestratorConfig_fields o) = true.
Proof.
  unfold OrchestratorConfig_wf. intros. reflect_bools. apply decode_struct_encode.
  - apply OrchestratorConfig_table.
  - cbn. split_and!; eauto with rallish_wf.
Qed.

Lemma WorkContract_table : table_ok WorkContract_zero WorkContract_fields.
Proof. solve_table. Qed.

Lemma WorkContract_roundtrip w : WorkContract_wf w = true ->
  into_struct WorkContract_fields (encode_struct WorkContract_fields w) WorkContract_zero = Some w
  /\ json_wf (encode_struct WorkContract_fields w) = true.
Proof.
  unfold WorkContract_wf. intros. reflect_bools. apply decode_struct_encode.
  - apply WorkContract_table.
  - cbn. split_and!; eauto with rallish_wf.
    apply opt_ptr_ok. intros c Hc. rewrite Hc in *. split_and!; [by apply OrchestratorConfig_roundtrip..|done].
Qed.

Lemma ParsePattern_tagged name body :
  no_byte "]" name = true ->
  ParsePattern ("[pattern:" +:+ name +:+ "]" +:+ body) =
  if String.eqb name "freeform" then inr (PatternFreeform, TrimLeft body " ")
  else if String.eqb name "cycle" then inr (PatternCycle, TrimLeft body " ")
  else if String.eqb name "discuss" then inr (PatternDiscuss, TrimLeft body " ")
  else if String.eqb name "help" then inr (PatternHelp, TrimLeft body " ")
  else inl ErrInvalidPattern.
Proof.
  intros Hn. unfold ParsePattern. unfold HasPrefix at 1. rewrite prefix_app. cbn [negb].
  set (tag := "[pattern:").
  assert (HI : Index (tag +:+ name +:+ "]" +:+ body) "]" = Z.of_nat (9 + String.length name)).
  { rewrite (string_app_assoc tag). change ("]" +:+ body) with (String "]" body).
    rewrite Index_byte_app; [by rewrite string_length_app|]. unfold no_byte in *.
    by rewrite string_forall_app, Hn. }
  rewrite HI. destruct (Z.ltb_spec (Z.of_nat (9 + String.length name)) 0); [lia|].
  rewrite Nat2Z.id.
  assert (slice (tag +:+ name +:+ "]" +:+ body) 9 (9 + String.length name) = name) as ->.
  { apply (slice_app_mid tag). }
  assert (slice_from (tag +:+ name +:+ "]" +:+ body) (9 + String.length name + 1) = body) as ->.
  { rewrite !string_app_assoc. pose proof (slice_from_app ((tag +:+ name) +:+ "]") body) as H'.
    rewrite !string_length_app in H'. exact H'. }
  done.
Qed.

(** [ParsePattern] accepts exactly the untagged tasks, unchanged and freeform, and the
    tasks that start with [[pattern:<name>]] for a known name, whose rest it returns
    without the leading blanks; everything else is [ErrInvalidPattern]. *)
Theorem ParsePattern_spec t p rest :
  ParsePattern t = inr (p, rest) <->
  (HasPrefix t "[pattern:" = false /\ p = PatternFreeform /\ rest = t) \/
  (p <> PatternUnknown /\ exists body,
     t = "[pattern:" +:+ pattern_string p +:+ "]" +:+ body /\ rest = TrimLeft body " ").
Proof.
  split.
  - destruct (HasPrefix t "[pattern:") eqn:Hp.
    2:{ unfold ParsePattern. rewrite Hp. intros [= <- <-]. by left. }
    intros H. right. apply HasPrefix_spec in Hp as [r ->].
    destruct (Z.ltb_spec (Index ("[pattern:" +:+ r) "]") 0) as [Hi|Hi].
    { exfalso. revert H. unfold ParsePattern, HasPrefix. rewrite prefix_app. cbn [negb].
      by apply Z.ltb_lt in Hi as ->. }
    assert (Hr : (0 <= Index r "]")%Z).
    { destruct (Z.ltb_spec (Index r "]") 0) as [Hr|]; [|done].
      apply Index_byte_none in Hr. exfalso. apply Zle_not_lt in Hi. apply Hi, Index_byte_none.
      unfold no_byte in *. by rewrite string_forall_app, Hr. }
    apply Index_byte_some in Hr as (name & body & -> & Hn).
    change (String "]" body) with ("]" +:+ body) in H. rewrite ParsePattern_tagged in H by done.
    repeat case_match; simplify_eq; reflect_bools; subst; (split; [done|]; by exists body).
  - intros [(Hp & -> & ->)|(Hk & body & -> & ->)].
    + unfold ParsePattern. by rewrite Hp.
    + rewrite ParsePattern_tagged by by destruct p. by destruct p.
Qed.

(** A non-empty summary is accepted as a payload only when it is one JSON object (or
    [null], the zero payload): prose, numbers, strings and arrays are refused, and a
    payload that was encoded is read back unchanged. *)
Theorem ParseTurnPayload_structured :
  (forall s p, s <> "" -> ParseTurnPayload s = (p, true) ->
     (decode s = Some JNull /\ p = TurnPayload_zero) \/ exists l, decode s = Some (JObj l)) /\
  (forall s p, ParseTurnPayload s = (p, false) -> s <> "" /\ p = TurnPayload_zero) /\
  (forall p, TurnPayload_wf p = true ->
     ParseTurnPayload (encode (encode_struct TurnPayload_fields p)) = (p, true)).
Proof.
  split_and!.
  - intros s p Hs. unfold ParseTurnPayload. apply String.eqb_neq in Hs as ->.
    unfold Unmarshal. destruct (decode s) as [j|]; [|done].
    destruct j; unfold into_struct; intros; simplify_eq; eauto.
  - intros s p. unfold ParseTurnPayload. destruct (String.eqb_spec s ""); [done|].
    case_match; naive_solver.
  - intros p Hp. destruct (TurnPayload_roundtrip p Hp) as [H1 H2].
    unfold ParseTurnPayload. erewrite Unmarshal_encode by done. done.
Qed.

(** A session id is accepted exactly when it is [rly_], a non-empty run of digits, an
    underscore and four lower-case hexadecimal digits, and the accepted id is the
    string itself. *)
Theorem NewSessionID_spec s id :
  NewSessionID s = inr id <->
  id = s /\ exists d h, s = "rly_" +:+ d +:+ "_" +:+ h /\ d <> "" /\
    string_forall is_digit d = true /\ String.length h = 4%nat /\ string_forall lower_hex_byte h = true.
Proof.
  assert (Hre : sessionIDRe s = true <-> exists d h, s = "rly_" +:+ d +:+ "_" +:+ h /\ d <> "" /\
    string_forall is_digit d = true /\ String.length h = 4%nat /\ string_forall lower_hex_byte h = true).
  { unfold sessionIDRe. rewrite andb_true_iff, HasPrefix_spec. split.
    - intros [[r ->] H]. rewrite (slice_from_app "rly_") in H.
      destruct (span_digits r) as [d rest] eqn:E.
      rewrite !andb_true_iff, HasPrefix_spec, Nat.eqb_eq in H. destruct H as [[[Hd [h ->]] Hl] Hh].
      apply span_digits_spec in E as [-> Hall]. rewrite (slice_from_app "_") in Hh.
      rewrite string_length_app in Hl. simpl in Hl. reflect_bools.
      exists d, h. split_and!; try done; lia.
    - intros (d & h & -> & Hd & Hall & Hlen & Hh). split; [by eexists|].
      rewrite (slice_from_app "rly_"), span_digits_app by done.
      rewrite (slice_from_app "_"), string_length_app, Hlen, Hh.
      unfold HasPrefix. rewrite prefix_app. by apply String.eqb_neq in Hd as ->. }
  unfold NewSessionID. rewrite <-Hre. clear Hre.
  destruct (sessionIDRe s); cbn [negb]; (split; [intros [=]|intros [? ?]]); by subst.
Qed.
