(* ===== verification/Card.v ===== *)
(** * The agent card and its signature

    [pkg/contract/agent_card_sign.go], the card of [pkg/contract/a2a.go] and the handler that
    publishes it ([internal/broker/a2a.go]).  Bytes are strings.  Base64 is modelled as the
    standard library decodes it: line breaks are skipped and the unused bits of the last group
    are ignored.  The signature scheme is a class with the three laws [crypto/ed25519] documents:
    the lengths of its keys, and that a signature verifies; what it does not promise by its
    types, that nobody else can sign, is not assumed but is what the theorem on changed cards
    reduces to. *)

From S2P Require Import Prelude GoStrings Json Codec Sha256 Contract.
From Stdlib Require Import Ascii String.
#[local] Open Scope string_scope.

(** ** Base64 *)

(** Six bits, the highest first. *)
Record Sextet := mkSextet { x5 : bool; x4 : bool; x3 : bool; x2 : bool; x1 : bool; x0 : bool }.
Definition sextet_val (s : Sextet) : nat :=
  let bit (b : bool) (n : nat) := if b then n else 0%nat in
  (bit (x5 s) 32 + bit (x4 s) 16 + bit (x3 s) 8 + bit (x2 s) 4 + bit (x1 s) 2 + bit (x0 s) 1)%nat.
Definition base64_alphabet : string := "ABCDEFGHIJKLMNOPQRSTUVWXYZabcdefghijklmnopqrstuvwxyz0123456789+/".
Definition sextet_char (s : Sextet) : ascii := default "A"%char (String.get (sextet_val s) base64_alphabet).
Definition sextet_of (n : nat) : Sextet :=
  mkSextet (Nat.testbit n 5) (Nat.testbit n 4) (Nat.testbit n 3) (Nat.testbit n 2) (Nat.testbit n 1) (Nat.testbit n 0).
Definition char_sextet (c : ascii) : option Sextet := sextet_of <$> String.index 0 (String c "") base64_alphabet.

Definition pad_char : ascii := "="%char.

(** Three bytes as four groups. *)
Definition split3 (a b c : ascii) : Sextet * Sextet * Sextet * Sextet :=
  let '(Ascii a0 a1 a2 a3 a4 a5 a6 a7) := a in
  let '(Ascii b0 b1 b2 b3 b4 b5 b6 b7) := b in
  let '(Ascii c0 c1 c2 c3 c4 c5 c6 c7) := c in
  (mkSextet a7 a6 a5 a4 a3 a2, mkSextet a1 a0 b7 b6 b5 b4, mkSextet b3 b2 b1 b0 c7 c6, mkSextet c5 c4 c3 c2 c1 c0).
Definition byte1 (p q : Sextet) : ascii := Ascii (x4 q) (x5 q) (x0 p) (x1 p) (x2 p) (x3 p) (x4 p) (x5 p).
Definition byte2 (q r : Sextet) : ascii := Ascii (x2 r) (x3 r) (x4 r) (x5 r) (x0 q) (x1 q) (x2 q) (x3 q).
Definition byte3 (r s : Sextet) : ascii := Ascii (x0 s) (x1 s) (x2 s) (x3 s) (x4 s) (x5 s) (x0 r) (x1 r).

Fixpoint EncodeToString (bytes : string) : string :=
  match bytes with
  | "" => ""
  | String a "" => let '(p, q, _, _) := split3 a zero zero in
      String (sextet_char p) (String (sextet_char q) (String pad_char (String pad_char "")))
  | String a (String b "") => let '(p, q, r, _) := split3 a b zero in
      String (sextet_char p) (String (sextet_char q) (String (sextet_char r) (String pad_char "")))
  | String a (String b (String c rest)) => let '(p, q, r, s) := split3 a b c in
      String (sextet_char p) (String (sextet_char q) (String (sextet_char r) (String (sextet_char s) (EncodeToString rest))))
  end.

Definition is_line_break (c : ascii) : bool := Ascii.eqb c (byte_of 10) || Ascii.eqb c (byte_of 13).
Fixpoint drop_breaks (s : string) : string :=
  match s with "" => "" | String c r => if is_line_break c then drop_breaks r else String c (drop_breaks r) end.

(** Groups of four; a group with padding is the last one. *)
Fixpoint decode_groups (s : string) : option string :=
  match s with
  | "" => Some ""
  | String p (String q (String r (String t rest))) =>
      match char_sextet p, char_sextet q with
      | Some p, Some q =>
          if Ascii.eqb r pad_char then
            if Ascii.eqb t pad_char && String.eqb rest "" then Some (String (byte1 p q) "") else None
          else match char_sextet r with
               | None => None
               | Some r =>
                   if Ascii.eqb t pad_char then
                     if String.eqb rest "" then Some (String (byte1 p q) (String (byte2 q r) "")) else None
                   else match char_sextet t, decode_groups rest with
                        | Some t, Some out => Some (String (byte1 p q) (String (byte2 q r) (String (byte3 r t) out)))
                        | _, _ => None
                        end
               end
      | _, _ => None
      end
  | _ => None
  end.
Definition DecodeString (s : string) : option string := decode_groups (drop_breaks s).

Lemma char_sextet_char s : char_sextet (sextet_char s) = Some s /\ Ascii.eqb (sextet_char s) pad_char = false /\
  is_line_break (sextet_char s) = false /\ is_ascii (sextet_char s) = true.
Proof. by destruct s as [[] [] [] [] [] []]. Qed.

Lemma bytes_of_split3 a b c : let '(p, q, r, s) := split3 a b c in byte1 p q = a /\ byte2 q r = b /\ byte3 r s = c.
Proof. by destruct a, b, c. Qed.

(** Three bytes at a time. *)
Lemma string_ind3 (P : string -> Prop) : P "" -> (forall a, P (String a "")) -> (forall a b, P (String a (String b ""))) ->
  (forall a b c r, P r -> P (String a (String b (String c r)))) -> forall s, P s.
Proof.
  intros H0 H1 H2 H3 s. remember (String.length s) as n eqn:Hn. revert s Hn. induction n as [n IH] using lt_wf_ind.
  intros [|a [|b [|c r]]] ->; auto. apply H3, (IH (String.length r)); [cbn; lia|done].
Qed.

Ltac sextets :=
  repeat match goal with |- context [sextet_char ?s] =>
    let E1 := fresh in let E2 := fresh in let E3 := fresh in
    destruct (char_sextet_char s) as (E1 & E2 & E3 & _);
    revert E1 E2 E3; generalize (sextet_char s); intros ? E1 E2 E3 end.

Ltac solve_group :=
  cbn [drop_breaks]; repeat match goal with H : is_line_break _ = _ |- _ => rewrite ?H; clear H end;
  change (is_line_break pad_char) with false; cbn [decode_groups drop_breaks];
  repeat match goal with H : _ = _ |- _ => rewrite ?H; clear H end.

Lemma DecodeString_EncodeToString bytes : DecodeString (EncodeToString bytes) = Some bytes.
Proof.
  unfold DecodeString. induction bytes as [|a|a b|a b c r IH] using string_ind3; [done|..]; cbn [EncodeToString].
  - pose proof (bytes_of_split3 a zero zero) as H. destruct (split3 a zero zero) as [[[p q] r] s]. destruct H as (<- & _ & _). sextets.
    by solve_group.
  - pose proof (bytes_of_split3 a b zero) as H. destruct (split3 a b zero) as [[[p q] r] s]. destruct H as (<- & <- & _). sextets.
    by solve_group.
  - pose proof (bytes_of_split3 a b c) as H. destruct (split3 a b c) as [[[p q] r'] s]. destruct H as (<- & <- & <-). sextets.
    by solve_group.
Qed.

Lemma EncodeToString_ascii bytes : string_forall is_ascii (EncodeToString bytes) = true.
Proof.
  assert (Hs : forall s, is_ascii (sextet_char s) = true) by (intros s; apply char_sextet_char).
  induction bytes as [|a|a b|a b c r IH] using string_ind3; [done|..]; cbn [EncodeToString].
  all: destruct (split3 _ _ _) as [[[? ?] ?] ?]; cbn [string_forall]; rewrite !Hs; done.
Qed.

(** ** The card *)

(* src: pkg/contract/a2a.go 55-60 AgentCapability *)
Record AgentCapability := mkCapability { ap_Streaming : bool; ap_PushNotifications : bool; ap_StateTransitionHistory : bool }.
#[export] Instance eta_AgentCapability : Eta AgentCapability := fun r => mkCapability (ap_Streaming r) (ap_PushNotifications r) (ap_StateTransitionHistory r).
(* src: pkg/contract/a2a.go 62-69 AgentSkill *)
Record AgentSkill := mkSkill { sk_ID : string; sk_Name : string; sk_Description : string; sk_Tags : list string; sk_Examples : list string }.
#[export] Instance eta_AgentSkill : Eta AgentSkill := fun r => mkSkill (sk_ID r) (sk_Name r) (sk_Description r) (sk_Tags r) (sk_Examples r).
(* src: pkg/contract/a2a.go 94-113 AgentCardSignature *)
Record AgentCardSignature := mkSignature { sg_Algorithm : string; sg_PublicKey : string; sg_Signature : string }.
#[export] Instance eta_AgentCardSignature : Eta AgentCardSignature := fun r => mkSignature (sg_Algorithm r) (sg_PublicKey r) (sg_Signature r).
(* src: pkg/contract/a2a.go 71-92 AgentCard *)
Record AgentCard := mkCard { ca_ProtocolVersion : string; ca_Name : string; ca_Description : string; ca_Version : string; ca_URL : string;
  ca_DocumentationURL : string; ca_Capabilities : AgentCapability; ca_Skills : option (list AgentSkill);
  ca_DefaultInputModes : option (list string); ca_DefaultOutputModes : option (list string); ca_Signature : option AgentCardSignature }.
#[export] Instance eta_AgentCard : Eta AgentCard := fun r =>
  mkCard (ca_ProtocolVersion r) (ca_Name r) (ca_Description r) (ca_Version r) (ca_URL r) (ca_DocumentationURL r) (ca_Capabilities r)
    (ca_Skills r) (ca_DefaultInputModes r) (ca_DefaultOutputModes r) (ca_Signature r).

Definition AgentCapability_zero := mkCapability false false false.
Definition AgentSkill_zero := mkSkill "" "" "" [] [].
Definition AgentCardSignature_zero := mkSignature "" "" "".
Definition AgentCard_zero := mkCard "" "" "" "" "" "" AgentCapability_zero None None None None.

(* src: pkg/contract/a2a.go 55-60 AgentCapability *)
Definition AgentCapability_fields : list (Field AgentCapability) :=
  [ Tag "streaming" ap_Streaming enc_bool into_bool; Tag "pushNotifications" ap_PushNotifications enc_bool into_bool;
    Tag "stateTransitionHistory" ap_StateTransitionHistory enc_bool into_bool ].
(* src: pkg/contract/a2a.go 62-69 AgentSkill *)
Definition AgentSkill_fields : list (Field AgentSkill) :=
  [ Tag "id" sk_ID enc_string into_string; Tag "name" sk_Name enc_string into_string; Tag "description" sk_Description enc_string into_string;
    Tag "tags" sk_Tags (opt_slice JStr) (into_slice "" into_string); Tag "examples" sk_Examples (opt_slice JStr) (into_slice "" into_string) ].
(* src: pkg/contract/a2a.go 94-113 AgentCardSignature *)
Definition AgentCardSignature_fields : list (Field AgentCardSignature) :=
  [ Tag "algorithm" sg_Algorithm enc_string into_string; Tag "publicKey" sg_PublicKey enc_string into_string;
    Tag "signature" sg_Signature enc_string into_string ].
(* src: pkg/contract/a2a.go 71-92 AgentCard *)
Definition AgentCard_fields : list (Field AgentCard) :=
  [ Tag "protocolVersion" ca_ProtocolVersion enc_string into_string; Tag "name" ca_Name enc_string into_string;
    Tag "description" ca_Description enc_string into_string; Tag "version" ca_Version enc_string into_string;
    Tag "url" ca_URL enc_string into_string; Tag "documentationUrl" ca_DocumentationURL opt_string into_string;
    Tag "capabilities" ca_Capabilities (enc_struct AgentCapability_fields) (into_struct AgentCapability_fields);
    Tag "skills" ca_Skills (enc_nilable (encode_struct AgentSkill_fields)) (into_nilable AgentSkill_zero (into_struct AgentSkill_fields));
    Tag "defaultInputModes" ca_DefaultInputModes (enc_nilable JStr) (into_nilable "" into_string);
    Tag "defaultOutputModes" ca_DefaultOutputModes (enc_nilable JStr) (into_nilable "" into_string);
    Tag "signature" ca_Signature (opt_ptr (encode_struct AgentCardSignature_fields)) (into_ptr AgentCardSignature_zero (into_struct AgentCardSignature_fields)) ].

Definition Marshal_card (card : AgentCard) : string := encode (encode_struct AgentCard_fields card).
Definition Unmarshal_card (text : string) : option AgentCard := Unmarshal AgentCard_zero (into_struct AgentCard_fields) text.

(** The published card; [json.NewEncoder] ends it with a newline. *)
(* src: internal/broker/a2a.go 30-62 Server.handleAgentCard *)
Definition handleAgentCard (version host : string) : string :=
  Marshal_card
    (mkCard "1.0" "rallish" "A local broker for multi-agent turn-taking" version ("http://" +:+ host) "https://github.com/jazz1x/rallish"
       (mkCapability true false false)
       (Some [mkSkill "pair-review" "Pair Review" "Planner / executor / reviewer turn-taking with structured output" ["turn-taking"; "review"; "code"] [];
              mkSkill "solo-ralph" "Solo Ralph" "Single-agent execution with budget and exit guardrails" ["solo"; "budget"; "execution"] []])
       (Some ["text/plain"; "application/json"]) (Some ["text/plain"; "application/json"]) None) +:+ String (byte_of 10) "".

(** ** Signing *)

(** [crypto/ed25519] on byte strings. *)
Class Ed25519 := { ed_Sign : string -> string -> string; ed_Public : string -> string; ed_Verify : string -> string -> string -> bool }.
Definition PrivateKeySize : nat := 64.
Definition PublicKeySize : nat := 32.
(** What its documentation states of it. *)
Class Ed25519Law (ed : Ed25519) := {
  ed_public_size : forall priv, String.length priv = PrivateKeySize -> String.length (ed_Public priv) = PublicKeySize;
  ed_verifies : forall priv msg, String.length priv = PrivateKeySize -> ed_Verify (ed_Public priv) msg (ed_Sign priv msg) = true }.

(* src: pkg/contract/agent_card_sign.go 11-15 SignatureAlgorithm *)
Definition SignatureAlgorithm : string := "EdDSA".

(** The sentinel an error wraps. *)
(* src: pkg/contract/agent_card_sign.go 17-35 ErrUnsignedCard *)
Inductive CardError : Set := ErrUnsignedCard | ErrBadSignatureAlgorithm (alg : string) | ErrMalformedSignature | ErrSignatureMismatch.

(** Encoding a card does not fail: it holds no value JSON cannot write. *)
(* src: pkg/contract/agent_card_sign.go 36-56 canonicalAgentCardBytes *)
Definition canonicalAgentCardBytes (card : AgentCard) : string := Marshal_card (card <| ca_Signature := None |>).

Section Sign.
Context {ed : Ed25519}.

(* src: pkg/contract/agent_card_sign.go 58-87 SignAgentCard *)
Definition SignAgentCard (card : AgentCard) (priv : string) : CardError + AgentCard :=
  if negb (Nat.eqb (String.length priv) PrivateKeySize) then inl ErrMalformedSignature
  else
    let msg := canonicalAgentCardBytes card in
    let sig := ed_Sign priv msg in
    let pub := ed_Public priv in
    inr (card <| ca_Signature := Some (mkSignature SignatureAlgorithm (EncodeToString pub) (EncodeToString sig)) |>).

(* src: pkg/contract/agent_card_sign.go 89-129 VerifyAgentCard *)
Definition VerifyAgentCard (card : AgentCard) : option CardError :=
  match ca_Signature card with
  | None => Some ErrUnsignedCard
  | Some sig =>
      if negb (String.eqb (sg_Algorithm sig) SignatureAlgorithm) then Some (ErrBadSignatureAlgorithm (sg_Algorithm sig))
      else match DecodeString (sg_PublicKey sig) with
           | None => Some ErrMalformedSignature
           | Some pubBytes =>
               if negb (Nat.eqb (String.length pubBytes) PublicKeySize) then Some ErrMalformedSignature
               else match DecodeString (sg_Signature sig) with
                    | None => Some ErrMalformedSignature
                    | Some sigBytes =>
                        let msg := canonicalAgentCardBytes card in
                        if negb (ed_Verify pubBytes msg sigBytes) then Some ErrSignatureMismatch else None
                    end
           end
  end.
End Sign.

(** ** Cards that JSON carries *)

Definition AgentSkill_wf (s : AgentSkill) : bool :=
  utf8_valid (sk_ID s) && utf8_valid (sk_Name s) && utf8_valid (sk_Description s) && strings_wf (sk_Tags s) && strings_wf (sk_Examples s).
Definition AgentCardSignature_wf (s : AgentCardSignature) : bool := utf8_valid (sg_Algorithm s) && utf8_valid (sg_PublicKey s) && utf8_valid (sg_Signature s).
Definition AgentCard_wf (c : AgentCard) : bool :=
  utf8_valid (ca_ProtocolVersion c) && utf8_valid (ca_Name c) && utf8_valid (ca_Description c) && utf8_valid (ca_Version c) &&
  utf8_valid (ca_URL c) && utf8_valid (ca_DocumentationURL c) && forallb AgentSkill_wf (default [] (ca_Skills c)) &&
  strings_wf (default [] (ca_DefaultInputModes c)) && strings_wf (default [] (ca_DefaultOutputModes c)) &&
  match ca_Signature c with None => true | Some s => AgentCardSignature_wf s end.

Lemma AgentCapability_table : table_ok AgentCapability_zero AgentCapability_fields.
Proof. solve_table. Qed.
Lemma AgentSkill_table : table_ok AgentSkill_zero AgentSkill_fields.
Proof. solve_table. Qed.
Lemma AgentCardSignature_table : table_ok AgentCardSignature_zero AgentCardSignature_fields.
Proof. solve_table. Qed.
Lemma AgentCard_table : table_ok AgentCard_zero AgentCard_fields.
Proof. solve_table. Qed.

Lemma AgentCapability_roundtrip c : struct_ok AgentCapability_fields AgentCapability_zero c.
Proof. solve_struct AgentCapability_table. Qed.
Lemma AgentSkill_roundtrip s : AgentSkill_wf s = true -> struct_ok AgentSkill_fields AgentSkill_zero s.
Proof. unfold AgentSkill_wf. intros. reflect_bools. solve_struct AgentSkill_table. Qed.
Lemma AgentCardSignature_roundtrip s : AgentCardSignature_wf s = true -> struct_ok AgentCardSignature_fields AgentCardSignature_zero s.
Proof. unfold AgentCardSignature_wf. intros. reflect_bools. solve_struct AgentCardSignature_table. Qed.

Lemma enc_skills_ok l : forallb AgentSkill_wf (default [] l) = true ->
  enc_ok (enc_nilable (encode_struct AgentSkill_fields)) (into_nilable AgentSkill_zero (into_struct AgentSkill_fields)) None l.
Proof.
  intros H. apply enc_nilable_ok. rewrite forallb_forall in H. apply Forall_forall. intros s Hs.
  apply AgentSkill_roundtrip, H. by apply list_elem_of_In.
Qed.

Lemma opt_signature_ok s : match s with None => true | Some s => AgentCardSignature_wf s end = true ->
  enc_ok (opt_ptr (encode_struct AgentCardSignature_fields)) (into_ptr AgentCardSignature_zero (into_struct AgentCardSignature_fields)) None s.
Proof. intros H. apply opt_ptr_struct_ok. intros r ->. by apply AgentCardSignature_roundtrip. Qed.

#[local] Hint Resolve AgentCapability_roundtrip enc_skills_ok opt_signature_ok : rallish_wf.

Lemma AgentCard_roundtrip c : AgentCard_wf c = true -> struct_ok AgentCard_fields AgentCard_zero c.
Proof. unfold AgentCard_wf. intros. reflect_bools. solve_struct AgentCard_table. Qed.

Lemma card_read_back c : AgentCard_wf c = true -> Unmarshal_card (Marshal_card c) = Some c.
Proof. intros H. apply AgentCard_roundtrip in H as [H1 H2]. by apply Unmarshal_encode. Qed.

(** ** What a signature shows *)

(** The content of a card: all of it but the signature. *)
Definition unsigned (c : AgentCard) : AgentCard := c <| ca_Signature := None |>.

Lemma unsigned_wf c : AgentCard_wf c = true -> AgentCard_wf (unsigned c) = true.
Proof. unfold AgentCard_wf. rewrite !andb_true_iff. intros H. destruct_and! H. split_and!; done. Qed.

(** The signed text determines the content. *)
Lemma canonical_inj c c' : AgentCard_wf c = true -> AgentCard_wf c' = true ->
  canonicalAgentCardBytes c = canonicalAgentCardBytes c' -> unsigned c = unsigned c'.
Proof.
  intros H H' E. apply (f_equal Unmarshal_card) in E. unfold canonicalAgentCardBytes in E.
  change (Unmarshal_card (Marshal_card (unsigned c)) = Unmarshal_card (Marshal_card (unsigned c'))) in E.
  rewrite (card_read_back _ (unsigned_wf c H)), (card_read_back _ (unsigned_wf c' H')) in E. by apply (inj Some) in E.
Qed.

Section Signatures.
Context {ed : Ed25519}.

Lemma VerifyAgentCard_None card : VerifyAgentCard card = None <-> exists sig pub s, ca_Signature card = Some sig /\
  sg_Algorithm sig = SignatureAlgorithm /\ DecodeString (sg_PublicKey sig) = Some pub /\ String.length pub = PublicKeySize /\
  DecodeString (sg_Signature sig) = Some s /\ ed_Verify pub (canonicalAgentCardBytes card) s = true.
Proof.
  unfold VerifyAgentCard. split.
  - destruct (ca_Signature card) as [sig|]; [|done]. destruct (String.eqb_spec (sg_Algorithm sig) SignatureAlgorithm); [|done]. cbn [negb].
    destruct (DecodeString (sg_PublicKey sig)) as [pub|] eqn:Ep; [|done]. destruct (Nat.eqb_spec (String.length pub) PublicKeySize); [|done]. cbn [negb].
    destruct (DecodeString (sg_Signature sig)) as [s|] eqn:Es; [|done]. destruct (ed_Verify _ _ _) eqn:Ev; [|done]. intros _. by exists sig, pub, s.
  - intros (sig & pub & s & -> & -> & -> & Hl & -> & ->). rewrite Hl. done.
Qed.

(** C14: Changing a signed card takes a forgery, which the changed card itself carries.  If a received
    card verifies and carries the signer's public key, then its content, every field but the
    signature, is the content that was signed; or else the signature it carries is a forgery:
    decoded, it passes the check of ed25519 under the signer's key for the text of the received
    card, which is not the text that was signed. *)
Theorem changed_card_forged (card signed received : AgentCard) (priv : string) (sig : AgentCardSignature) :
  AgentCard_wf card = true -> AgentCard_wf received = true -> SignAgentCard card priv = inr signed ->
  ca_Signature received = Some sig -> DecodeString (sg_PublicKey sig) = Some (ed_Public priv) -> VerifyAgentCard received = None ->
  unsigned received = unsigned signed \/
  canonicalAgentCardBytes received <> canonicalAgentCardBytes card /\
  exists s, DecodeString (sg_Signature sig) = Some s /\ ed_Verify (ed_Public priv) (canonicalAgentCardBytes received) s = true.
Proof.
  intros Hc Hr Hs Hsig Hpub (sig' & pub & s & E & _ & Ep & _ & Es & Ev)%VerifyAgentCard_None.
  assert (sig' = sig) as -> by congruence. assert (pub = ed_Public priv) as -> by congruence.
  unfold SignAgentCard in Hs. destruct (negb _); [done|]. injection Hs as <-.
  destruct (decide (canonicalAgentCardBytes received = canonicalAgentCardBytes card)) as [Heq|Hne].
  - left. change (unsigned received = unsigned card). by apply canonical_inj.
  - right. split; [done|]. by exists s.
Qed.

Context {law : Ed25519Law ed}.

Lemma signed_wf card priv : AgentCard_wf card = true ->
  AgentCard_wf (card <| ca_Signature := Some (mkSignature SignatureAlgorithm (EncodeToString (ed_Public priv)) (EncodeToString (ed_Sign priv (canonicalAgentCardBytes card)))) |>) = true.
Proof.
  unfold AgentCard_wf. rewrite !andb_true_iff. intros H. destruct_and! H. split_and!; try done.
  unfold AgentCardSignature_wf. cbn. by rewrite !ascii_utf8 by apply EncodeToString_ascii.
Qed.

Lemma verifies_signed card priv : String.length priv = PrivateKeySize ->
  VerifyAgentCard (card <| ca_Signature := Some (mkSignature SignatureAlgorithm (EncodeToString (ed_Public priv)) (EncodeToString (ed_Sign priv (canonicalAgentCardBytes card)))) |>) = None.
Proof.
  intros Hp. apply VerifyAgentCard_None. eexists _, _, _. split; [reflexivity|]. cbn [sg_Algorithm sg_PublicKey sg_Signature].
  rewrite !DecodeString_EncodeToString. split_and!; [done|reflexivity|by apply ed_public_size|reflexivity|].
  change (ed_Verify (ed_Public priv) (canonicalAgentCardBytes card) (ed_Sign priv (canonicalAgentCardBytes card)) = true). by apply ed_verifies.
Qed.

(** C15: A key of the right length signs any card of valid text, replacing the signature the
    card may have and nothing else.  The signed card verifies, and so does the card that a
    client decodes from its JSON text.  A key of another length is refused. *)
Theorem signed_card_verifies (card : AgentCard) (priv : string) : AgentCard_wf card = true ->
  if Nat.eqb (String.length priv) PrivateKeySize then
    exists signed received, SignAgentCard card priv = inr signed /\ unsigned signed = unsigned card /\ VerifyAgentCard signed = None /\
      Unmarshal_card (Marshal_card signed) = Some received /\ VerifyAgentCard received = None
  else SignAgentCard card priv = inl ErrMalformedSignature.
Proof.
  intros Hc. unfold SignAgentCard. destruct (Nat.eqb_spec (String.length priv) PrivateKeySize) as [Hp|_]; [|done]. cbn [negb].
  eexists _, _. split; [reflexivity|]. split; [done|]. split; [by apply verifies_signed|].
  rewrite card_read_back by by apply signed_wf. split; [reflexivity|]. by apply verifies_signed.
Qed.
End Signatures.

(** ** A scheme to compute with *)

(** A keyed digest: it has the laws of the class and none of the secrecy of ed25519. *)
#[local] Instance toy : Ed25519 := {| ed_Public := sha256; ed_Sign priv msg := sha256 (sha256 priv +:+ msg);
                                      ed_Verify pub msg sig := String.eqb sig (sha256 (pub +:+ msg)) |}.
#[local] Instance toy_law : Ed25519Law toy.
Proof. split; [intros; apply sha256_length|]. intros priv msg _. apply String.eqb_refl. Qed.

Definition toy_key : string := "0123456789abcdef0123456789abcdef0123456789abcdef0123456789abcdef".
Definition sample_card (name : string) : AgentCard := AgentCard_zero <| ca_Name := name |>.

Example signed_card_verifies_witness : exists signed received, SignAgentCard (sample_card "rallish") toy_key = inr signed /\
  unsigned signed = unsigned (sample_card "rallish") /\ VerifyAgentCard signed = None /\
  Unmarshal_card (Marshal_card signed) = Some received /\ VerifyAgentCard received = None.
Proof. exact (signed_card_verifies (sample_card "rallish") toy_key eq_refl). Defined.

Definition toy_signed (name : string) : AgentCard := match SignAgentCard (sample_card name) toy_key with inr c => c | inl _ => AgentCard_zero end.

Example changed_card_forged_witness :
  let signed := toy_signed "rallish" in
  let sig := default AgentCardSignature_zero (ca_Signature signed) in
  unsigned signed = unsigned signed \/
  canonicalAgentCardBytes signed <> canonicalAgentCardBytes (sample_card "rallish") /\
  exists s, DecodeString (sg_Signature sig) = Some s /\ ed_Verify (ed_Public toy_key) (canonicalAgentCardBytes signed) s = true.
Proof.
  refine (changed_card_forged (sample_card "rallish") (toy_signed "rallish") (toy_signed "rallish") toy_key
            (default AgentCardSignature_zero (ca_Signature (toy_signed "rallish"))) eq_refl _ eq_refl _ _ _); vm_compute; reflexivity.
Defined.

(** A card whose text is not UTF-8 verifies where it was signed and nowhere else: its JSON text
    says the replacement character as an escape, which is read back as the character itself. *)
Example invalid_text_unverifiable :
  let signed := toy_signed (String (byte_of 255) "") in
  VerifyAgentCard signed = None /\ (VerifyAgentCard <$> Unmarshal_card (Marshal_card signed)) = Some (Some ErrSignatureMismatch).
Proof. split; vm_compute; reflexivity. Qed.

(** The text of a signature is not unique: line breaks and unused bits are ignored. *)
Example signature_text_malleable : DecodeString "QQ==" = Some "A" /\ DecodeString ("Q" +:+ String (byte_of 10) "R==") = Some "A".
Proof. split; vm_compute; reflexivity. Qed.
