(* ===== verification/JsonIndent.v ===== *)
(** * Indented JSON

    [json.MarshalIndent(v, "", "  ")]: the members and the elements each on a line of their
    own.  The parser reads the value back. *)

From S2P Require Import Prelude GoStrings Json Codec.
From Stdlib Require Import Ascii String.
#[local] Open Scope string_scope.

Fixpoint spaces (n : nat) : string := match n with O => "" | S n => String " " (spaces n) end.

(** A line break and the indentation of depth [d]. *)
Definition line (d : nat) : string := String (byte_of 10) (spaces (2 * d)).

Fixpoint encode_indent (d : nat) (j : json) : string :=
  match j with
  | JArr ((_ :: _) as l) =>
      "[" +:+ Join (map (fun x => line (S d) +:+ encode_indent (S d) x) l) "," +:+ line d +:+ "]"
  | JObj ((_ :: _) as l) =>
      "{" +:+ Join (map (fun kv => line (S d) +:+ quote (fst kv) +:+ ": " +:+ encode_indent (S d) (snd kv)) l) "," +:+
      line d +:+ "}"
  | _ => encode j
  end.

Definition MarshalIndent (j : json) : string := encode_indent 0 j.

(** ** White space *)

Lemma skip_ws_spaces n s : skip_ws (spaces n +:+ s) = skip_ws s.
Proof. induction n as [|n IH]; [done|]. exact IH. Qed.

Lemma skip_ws_line d s : skip_ws (line d +:+ s) = skip_ws s.
Proof. exact (skip_ws_spaces (2 * d) s). Qed.

Lemma parse_value_ws f s s' : skip_ws s = skip_ws s' -> parse_value f s = parse_value f s'.
Proof. destruct f as [|f]; [done|]. cbn [parse_value]. by intros ->. Qed.

Lemma parse_elems_ws f s s' : skip_ws s = skip_ws s' -> parse_elems f s = parse_elems f s'.
Proof. destruct f as [|f]; [done|]. cbn [parse_elems]. intros H. by rewrite (parse_value_ws f s s' H). Qed.

Lemma parse_members_ws f s s' : skip_ws s = skip_ws s' -> parse_members f s = parse_members f s'.
Proof. destruct f as [|f]; [done|]. cbn [parse_members]. by intros ->. Qed.

(** ** Parsing back *)

Definition parses_indent (j : json) : Prop :=
  json_wf j = true -> forall d fuel rest, (need j <= fuel)%nat -> (is_num j = true -> num_end rest = true) ->
  parse_value fuel (encode_indent d j +:+ rest) = Some (j, rest).

(** One element with its line, and what may follow it. *)
Definition elem_line (d : nat) (x : json) : string := line d +:+ encode_indent d x.
Definition member_line (d : nat) (kv : string * json) : string := line d +:+ quote (fst kv) +:+ ": " +:+ encode_indent d (snd kv).

Lemma num_end_line d s : num_end (line d +:+ s) = true.
Proof. done. Qed.

Lemma parse_elem_line x d fuel rest : parses_indent x -> json_wf x = true -> (need x <= fuel)%nat -> num_end rest = true ->
  parse_value fuel (elem_line d x +:+ rest) = Some (x, rest).
Proof.
  intros Hx Hwf Hf Hr. unfold elem_line. rewrite <-string_app_assoc, (parse_value_ws _ _ _ (skip_ws_line _ _)). by apply Hx.
Qed.

Lemma parse_elems_indent l d e fuel rest :
  Forall parses_indent l -> forallb json_wf l = true -> l <> [] ->
  (sum_list_with (fun x => S (need x)) l <= fuel)%nat ->
  parse_elems fuel (Join (map (elem_line d) l) "," +:+ line e +:+ String "]" rest) = Some (l, rest).
Proof.
  revert fuel. induction l as [|x l IH]; intros fuel HP Hwf Hne Hf; [done|].
  apply Forall_cons in HP as [Hx HP]. cbn [forallb] in Hwf. reflect_bools.
  destruct fuel as [|f]; cbn [sum_list_with] in Hf; [lia|]. destruct l as [|y l]; cbn [map].
  - cbn [parse_elems]. change (Join [?a] ",") with a. rewrite parse_elem_line; [|done|done|lia|done].
    by rewrite skip_ws_line.
  - rewrite Join_cons2, <-!string_app_assoc. erewrite parse_elems_comma.
    + rewrite IH; [done..|]. cbn [sum_list_with] in *; lia.
    + cbn [String.append]. apply parse_elem_line; auto using num_end_sep; lia.
Qed.

Lemma parse_member_line f d k x rest : utf8_valid k = true -> parses_indent x -> json_wf x = true -> (need x <= f)%nat ->
  num_end rest = true ->
  parse_members (S f) (member_line d (k, x) +:+ rest) =
  match skip_ws rest with
  | String c r' =>
      if (byte_val c =? 44)%Z then match parse_members f r' with Some (l, r3) => Some ((k, x) :: l, r3) | None => None end
      else if (byte_val c =? 125)%Z then Some ([(k, x)], r')
      else None
  | "" => None
  end.
Proof.
  intros Hk Hx Hwf Hf Hr. unfold member_line. cbn [fst snd]. rewrite <-!string_app_assoc.
  rewrite (parse_members_ws _ _ _ (skip_ws_line _ _)). cbn [String.append]. rewrite parse_member by done.
  rewrite (parse_value_ws f _ (encode_indent d x +:+ rest)) by done. by rewrite Hx.
Qed.

Lemma parse_members_indent l d e fuel rest :
  Forall (fun kv => parses_indent (snd kv)) l ->
  forallb (fun kv => utf8_valid (fst kv) && json_wf (snd kv)) l = true -> l <> [] ->
  (sum_list_with (fun kv => S (need (snd kv))) l <= fuel)%nat ->
  parse_members fuel (Join (map (member_line d) l) "," +:+ line e +:+ String "}" rest) = Some (l, rest).
Proof.
  revert fuel. induction l as [|[k x] l IH]; intros fuel HP Hwf Hne Hf; [done|].
  apply Forall_cons in HP as [Hx HP]. cbn [forallb fst snd] in *. reflect_bools.
  destruct fuel as [|f]; cbn [sum_list_with snd] in Hf; [lia|]. destruct l as [|y l]; cbn [map].
  - change (Join [?a] ",") with a. rewrite parse_member_line; [|done|done|done|lia|done]. by rewrite skip_ws_line.
  - rewrite Join_cons2, <-!string_app_assoc. rewrite parse_member_line; [|done|done|done|lia|done].
    change (skip_ws ("," +:+ ?s)) with (String "," s). change (byte_val "," =? 44)%Z with true. cbv iota.
    change (member_line d y :: map (member_line d) l) with (map (member_line d) (y :: l)).
    rewrite (IH f); [done..|]. cbn [sum_list_with snd] in *; lia.
Qed.

(** The first byte after the white space. *)
Lemma encode_indent_head d j : json_wf j = true -> exists c r, encode_indent d j = String c r /\ value_head c = true.
Proof.
  intros Hwf. destruct j as [|b|lit|s|[|x l]|[|x l]]; cbn [encode_indent]; try (by apply encode_head); by do 2 eexists.
Qed.

Lemma parse_encode_indent j : parses_indent j.
Proof.
  induction j as [|b|lit|s|l IH|l IH] using json_nested_ind; intros Hwf d fuel rest Hf Hn;
    try (by apply parse_encode).
  - destruct l as [|x l]; [by apply parse_encode|]. destruct fuel as [|f]; cbn [need] in Hf; [lia|].
    change (encode_indent d (JArr (x :: l))) with ("[" +:+ Join (map (elem_line (S d)) (x :: l)) "," +:+ line d +:+ "]").
    rewrite <-!string_app_assoc. cbn [parse_value String.append]. rewrite skip_ws_head by done.
    change (byte_val "[") with 91%Z. cbn [Z.eqb Pos.eqb]. cbn [json_wf] in Hwf.
    set (body := Join _ ",").
    assert (exists c r, skip_ws (body +:+ line d +:+ String "]" rest) = String c r /\ value_head c = true) as (c & r & E & Hh).
    { subst body. cbn [forallb] in Hwf. reflect_bools.
      destruct (encode_indent_head (S d) x) as (c & r & E & Hh); [done|].
      destruct l; cbn [map]; [change (Join [?a] ",") with a|rewrite Join_cons2];
        unfold elem_line at 1; rewrite <-!string_app_assoc, skip_ws_line, E; cbn [String.append];
        rewrite skip_ws_head by done; by do 2 eexists. }
    rewrite E. destruct (value_head_close c Hh) as [H93 H125]. use_bools.
    subst body. rewrite parse_elems_indent; [done|done|done|done|lia].
  - destruct l as [|[k x] l]; [by apply parse_encode|]. destruct fuel as [|f]; cbn [need] in Hf; [lia|].
    change (encode_indent d (JObj ((k, x) :: l))) with
      ("{" +:+ Join (map (member_line (S d)) ((k, x) :: l)) "," +:+ line d +:+ "}").
    rewrite <-!string_app_assoc. cbn [parse_value String.append]. rewrite skip_ws_head by done.
    change (byte_val "{") with 123%Z. cbn [Z.eqb Pos.eqb]. cbn [json_wf] in Hwf.
    set (body := Join _ ",").
    assert (exists r, skip_ws (body +:+ line d +:+ String "}" rest) = String dquote r) as (r & E).
    { subst body. destruct l; cbn [map]; [change (Join [?a] ",") with a|rewrite Join_cons2];
        unfold member_line at 1; rewrite <-!string_app_assoc, skip_ws_line; unfold quote; cbn [fst String.append];
        rewrite skip_ws_head by done; by eexists. }
    rewrite E. change (byte_val dquote =? 125)%Z with false. cbv iota.
    subst body. rewrite parse_members_indent; [done|done|done|done|lia].
Qed.

(** ** Fuel *)

Lemma line_length d s : (String.length s <= String.length (line d +:+ s))%nat.
Proof. rewrite string_length_app. lia. Qed.

Lemma Join_length_mono {A} (f g : A -> string) l sep : Forall (fun x => String.length (f x) <= String.length (g x))%nat l ->
  (String.length (Join (map f l) sep) <= String.length (Join (map g l) sep))%nat.
Proof.
  induction 1 as [|x l Hx Hl IH]; [done|]. destruct l as [|y l]; [done|]. cbn [map] in *.
  rewrite !Join_cons2, !string_length_app. lia.
Qed.

Lemma encode_indent_length j d : (String.length (encode j) <= String.length (encode_indent d j))%nat.
Proof.
  revert d. induction j as [|b|lit|s|l IH|l IH] using json_nested_ind; intros d; try done.
  - destruct l as [|x l]; [done|]. cbn [encode encode_indent]. rewrite !string_length_app.
    assert (H : (String.length (Join (map encode (x :: l)) ",") <= String.length (Join (map (elem_line (S d)) (x :: l)) ","))%nat).
    { apply Join_length_mono. eapply Forall_impl; [exact IH|]. intros y Hy. unfold elem_line. rewrite string_length_app.
      specialize (Hy (S d)). lia. }
    unfold elem_line in H. lia.
  - destruct l as [|x l]; [done|]. rewrite encode_obj. cbn [encode_indent]. rewrite !string_length_app.
    assert (H : (String.length (Join (map encode_member (x :: l)) ",") <= String.length (Join (map (member_line (S d)) (x :: l)) ","))%nat).
    { apply Join_length_mono. eapply Forall_impl; [exact IH|]. intros y Hy. unfold encode_member, member_line.
      rewrite !string_length_app. specialize (Hy (S d)). cbn [String.length]. lia. }
    unfold member_line in H. lia.
Qed.

Lemma decode_MarshalIndent j : json_wf j = true -> is_num j = false -> decode (MarshalIndent j) = Some j.
Proof.
  intros Hwf Hn. unfold decode, parse_prefix, MarshalIndent. rewrite <-(string_app_nil_r (encode_indent 0 j)).
  rewrite parse_encode_indent; [done|done| |by rewrite Hn].
  rewrite string_length_app. pose proof (need_encode j Hwf). pose proof (encode_indent_length j 0). lia.
Qed.
