(* ===== verification/StateFile.v ===== *)
(** * The state file of a cycle

    [internal/cycle/sync.go]: the cycle state as indented JSON, written to a temporary file
    that is renamed over the state file, with the previous contents kept as a backup; and
    the JSON form of the state ([pkg/contract/cycle.go]).

    [Write] and [Read] are the functions with the faults of the file system as arguments.
    [wstep] is the same write as a relation of single effects on the files, for any number
    of writers: it is what a reader or a crash in between can see. *)

From S2P Require Import Prelude GoStrings Json Codec JsonIndent Contract.
From Stdlib Require Import Ascii String.
#[local] Open Scope string_scope.

(** ** The JSON form of a cycle state *)

#[export] Instance eta_ClaimCheck : Eta ClaimCheck := fun r => mkClaimCheck (cc_Violation r) (cc_Verified r).

(* src: pkg/contract/cycle.go 154-160 ClaimCheck *)
Definition ClaimCheck_fields : list (Field ClaimCheck) :=
  [ Tag "violation" cc_Violation (enc_struct Violation_fields) (into_struct Violation_fields);
    Tag "verified" cc_Verified enc_bool into_bool ].
Definition ClaimCheck_zero := mkClaimCheck Violation_zero false.

(* src: pkg/contract/cycle.go 162-178 GateReport *)
Definition GateReport_fields : list (Field GateReport) :=
  [ Tag "gate" g_Gate enc_string into_string;
    Tag "passed" g_Passed enc_bool into_bool;
    Tag "duration_ms" g_DurationMS enc_int into_int;
    Tag "stdout" g_Stdout opt_string into_string;
    Tag "stderr" g_Stderr opt_string into_string;
    Tag "violations" g_Violations (opt_slice (encode_struct Violation_fields))
      (into_slice Violation_zero (into_struct Violation_fields));
    Tag "claim_checks" g_ClaimChecks (opt_slice (encode_struct ClaimCheck_fields))
      (into_slice ClaimCheck_zero (into_struct ClaimCheck_fields)) ].
Definition GateReport_zero := mkGateReport "" false 0 "" "" [] [].

(** A phase and a reason are strings; no value is refused. *)
Definition phase_of (s : string) : CyclePhase :=
  match ParseCyclePhase s with inr p => p | inl _ => if String.eqb s "" then CyclePhaseUnset else CyclePhaseOther s end.
Definition into_phase : Into CyclePhase := fun j cur =>
  match j with JNull => Some cur | JStr s => Some (phase_of s) | _ => None end.
Definition enc_phase (p : CyclePhase) : option json := Some (JStr (phase_string p)).

Definition reason_of (s : string) : option HaltReason :=
  match ParseHaltReason s with inr r => Some r | inl _ => if String.eqb s "" then None else Some (HaltOther s) end.
Definition into_reason : Into (option HaltReason) := fun j cur =>
  match j with JNull => Some cur | JStr s => Some (reason_of s) | _ => None end.
Definition opt_reason (r : option HaltReason) : option json := option_map (fun r => JStr (halt_string r)) r.

(* src: pkg/contract/cycle.go 215-262 CycleState *)
Definition CycleState_fields : list (Field CycleState) :=
  [ Tag "id" s_ID enc_string into_string;
    Tag "phase" s_Phase enc_phase into_phase;
    Tag "completed_cycles" s_CompletedCycles enc_int into_int;
    Tag "max_cycles" s_MaxCycles enc_int into_int;
    Tag "branch" s_Branch enc_string into_string;
    Tag "baseline_sha" s_BaselineSHA enc_string into_string;
    Tag "pending_files" s_PendingFiles (opt_slice JStr) (into_slice "" into_string);
    Tag "local_gates" s_LocalGates (opt_slice JStr) (into_slice "" into_string);
    Tag "audit_cmd" s_AuditCmd opt_string into_string;
    Tag "polish_test_cmd" s_PolishTestCmd opt_string into_string;
    Tag "violations_found" s_ViolationsFound (opt_slice (encode_struct Violation_fields))
      (into_slice Violation_zero (into_struct Violation_fields));
    Tag "next_cycle_goal" s_NextCycleGoal enc_string into_string;
    Tag "halted" s_Halted enc_bool into_bool;
    Tag "halt_reason" s_HaltReason opt_reason into_reason;
    Tag "created_at" s_CreatedAt enc_int into_int;
    Tag "updated_at" s_UpdatedAt enc_int into_int;
    Tag "history" s_History (opt_slice (encode_struct GateReport_fields))
      (into_slice GateReport_zero (into_struct GateReport_fields));
    Tag "last_failed_gate" s_LastFailedGate opt_string into_string;
    Tag "auto_goal" s_AutoGoal opt_bool into_bool;
    Tag "max_duration_minutes" s_MaxDurationMinutes opt_int into_int;
    Tag "started_at" s_StartedAt enc_int into_int ].

(* src: internal/cycle/sync.go 62-65 StateFileSync.Write *)
Definition Marshal_state (state : CycleState) : string := MarshalIndent (encode_struct CycleState_fields state).

(** The states the encoder prints faithfully: valid UTF-8, 64-bit integers, and a phase and
    a reason in their canonical form. *)
Definition ClaimCheck_wf (c : ClaimCheck) : bool := Violation_wf (cc_Violation c).
Definition GateReport_wf (g : GateReport) : bool :=
  utf8_valid (g_Gate g) && in_int64 (g_DurationMS g) && utf8_valid (g_Stdout g) && utf8_valid (g_Stderr g) &&
  forallb Violation_wf (g_Violations g) && forallb ClaimCheck_wf (g_ClaimChecks g).
Definition phase_wf (p : CyclePhase) : bool :=
  bool_decide (phase_of (phase_string p) = p) && utf8_valid (phase_string p).
Definition reason_wf (r : option HaltReason) : bool :=
  match r with Some r => bool_decide (reason_of (halt_string r) = Some r) && utf8_valid (halt_string r) | None => true end.
Definition CycleState_wf (s : CycleState) : bool :=
  utf8_valid (s_ID s) && phase_wf (s_Phase s) && in_int64 (s_CompletedCycles s) && in_int64 (s_MaxCycles s) &&
  utf8_valid (s_Branch s) && utf8_valid (s_BaselineSHA s) && strings_wf (s_PendingFiles s) && strings_wf (s_LocalGates s) &&
  utf8_valid (s_AuditCmd s) && utf8_valid (s_PolishTestCmd s) && forallb Violation_wf (s_ViolationsFound s) &&
  utf8_valid (s_NextCycleGoal s) && reason_wf (s_HaltReason s) && in_int64 (s_CreatedAt s) && in_int64 (s_UpdatedAt s) &&
  forallb GateReport_wf (s_History s) && utf8_valid (s_LastFailedGate s) && in_int64 (s_MaxDurationMinutes s) &&
  in_int64 (s_StartedAt s).

Lemma ClaimCheck_table : table_ok ClaimCheck_zero ClaimCheck_fields.
Proof. solve_table. Qed.
Lemma GateReport_table : table_ok GateReport_zero GateReport_fields.
Proof. solve_table. Qed.
Lemma CycleState_table : table_ok CycleState_zero CycleState_fields.
Proof. solve_table. Qed.

Lemma struct_ok_all {R} (fs : list (Field R)) zero wf l : (forall x, wf x = true -> struct_ok fs zero x) ->
  forallb wf l = true -> Forall (struct_ok fs zero) l.
Proof. rewrite forallb_forall. intros Hok H. apply Forall_forall. intros x Hx. apply Hok, H. by apply list_elem_of_In. Qed.

Lemma ClaimCheck_roundtrip c : ClaimCheck_wf c = true -> struct_ok ClaimCheck_fields ClaimCheck_zero c.
Proof. unfold ClaimCheck_wf. intros. solve_struct ClaimCheck_table. by apply Violation_roundtrip. Qed.

Lemma claim_checks_ok l : forallb ClaimCheck_wf l = true -> Forall (struct_ok ClaimCheck_fields ClaimCheck_zero) l.
Proof. apply struct_ok_all, ClaimCheck_roundtrip. Qed.

#[export] Hint Resolve claim_checks_ok : rallish_wf.

Lemma GateReport_roundtrip g : GateReport_wf g = true -> struct_ok GateReport_fields GateReport_zero g.
Proof. unfold GateReport_wf. intros. reflect_bools. solve_struct GateReport_table. Qed.

Lemma reports_ok l : forallb GateReport_wf l = true -> Forall (struct_ok GateReport_fields GateReport_zero) l.
Proof. apply struct_ok_all, GateReport_roundtrip. Qed.

Lemma enc_phase_ok p : phase_wf p = true -> enc_ok enc_phase into_phase CyclePhaseUnset p.
Proof. unfold phase_wf. intros H. reflect_bools. split; [|done]. cbn. by f_equal. Qed.

Lemma opt_reason_ok r : reason_wf r = true -> enc_ok opt_reason into_reason None r.
Proof.
  destruct r as [r|]; [|done]. unfold reason_wf. intros H. reflect_bools. split; [|done]. cbn. by f_equal.
Qed.

#[export] Hint Resolve reports_ok enc_phase_ok opt_reason_ok : rallish_wf.

Lemma CycleState_roundtrip s : CycleState_wf s = true -> struct_ok CycleState_fields CycleState_zero s.
Proof. unfold CycleState_wf. intros. reflect_bools. solve_struct CycleState_table. Qed.

Lemma decode_Marshal_state s : CycleState_wf s = true ->
  decode (Marshal_state s) = Some (encode_struct CycleState_fields s) /\
  into_struct CycleState_fields (encode_struct CycleState_fields s) CycleState_zero = Some s.
Proof. intros [H1 H2]%CycleState_roundtrip. split; [by apply decode_MarshalIndent|done]. Qed.

(** ** Reading *)

Abbreviation Files := (gmap string string).
Definition bak_path (path : string) : string := path +:+ ".bak".
(** [os.CreateTemp] chooses the suffix. *)
Definition temp_path (path suffix : string) : string := path +:+ ".tmp-" +:+ suffix.

Inductive ReadError : Set := RIO | RNoBackup | RBackupCorrupt.

Section Read.
(** What [json.Unmarshal] has stored in the target when it fails on a well-formed value
    that does not fit the struct. *)
Variable leftover : json -> CycleState.

(** One file is decoded into [cur]: [inl] is a failure, with what it leaves. *)
Definition unmarshal_into (cur : CycleState) (data : string) : CycleState + CycleState :=
  match decode data with
  | None => inl cur
  | Some j => match into_struct CycleState_fields j cur with Some s => inr s | None => inl (leftover j) end
  end.

(** [io] and [bak_io]: the reads of the two files do not fail.  No lock is held: [files] is what is
    there when the state file is read, [later] when the backup is. *)
(* src: internal/cycle/sync.go 31-54 StateFileSync.Read *)
Definition Read_over (io bak_io : bool) (files later : Files) (path : string) : ReadError + CycleState :=
  if negb io then inl RIO
  else
    match files !! path with
    | None => inr CycleState_zero
    | Some data =>
        match unmarshal_into CycleState_zero data with
        | inr cs => inr cs
        | inl cs =>
            match (if bak_io then later !! bak_path path else None) with
            | None => inl RNoBackup
            | Some bakData => match unmarshal_into cs bakData with inr cs => inr cs | inl _ => inl RBackupCorrupt end
            end
        end
    end.

(** A read with nothing in between. *)
(* src: internal/cycle/sync.go 31-54 StateFileSync.Read *)
Definition Read (io bak_io : bool) (files : Files) (path : string) : ReadError + CycleState := Read_over io bak_io files files path.

(** There is no state file or it holds a state. *)
Definition intact (files : Files) (path : string) : Prop :=
  forall data, files !! path = Some data -> is_Some (match unmarshal_into CycleState_zero data with inr s => Some s | inl _ => None end).

(** The backup of an intact file is not looked at. *)
Lemma Read_over_intact io bak_io files later path : intact files path -> Read_over io bak_io files later path = Read io bak_io files path.
Proof.
  intros H. unfold Read, Read_over. destruct (files !! path) as [data|] eqn:E; [|done]. destruct (H data E) as [s Hs].
  by destruct (unmarshal_into CycleState_zero data).
Qed.
End Read.

(** ** Writing *)

Inductive WriteFault : Set :=
  | WOk | WMkdir | WReadPrior | WCreateTemp | WTempWrite (n : nat) | WTempSync | WTempClose | WChmod | WRename
  | WBackupOpen | WBackupWrite (n : nat).

(** The temporary file of a failed write; its removal may fail, unnoticed. *)
Definition discard (removed : bool) (tmp content : string) (files : Files) : Files :=
  if removed then delete tmp files else <[tmp := content]> files.

(** The error is the operation that failed. *)
(* src: internal/cycle/sync.go 56-122 StateFileSync.Write *)
Definition Write (fault : WriteFault) (removed : bool) (suffix : string) (files : Files) (path : string) (state : CycleState)
    : Files * option WriteFault :=
  let data := Marshal_state state in
  let tmp := temp_path path suffix in
  match fault with
  | WMkdir | WReadPrior | WCreateTemp => (files, Some fault)
  | WTempWrite n => (discard removed tmp (slice data 0 n) files, Some fault)
  | WTempSync | WTempClose | WChmod | WRename => (discard removed tmp data files, Some fault)
  | _ =>
      let prior := files !! path in
      let files := <[path := data]> (delete tmp files) in
      match prior with
      | None => (files, None)
      | Some prior =>
          match fault with
          | WBackupOpen => (files, Some fault)
          | WBackupWrite n => (<[bak_path path := slice prior 0 n]> files, Some fault)
          | _ => (<[bak_path path := prior]> files, None)
          end
      end
  end.

(* src: internal/cycle/sync.go 127-133 StateFileSync.Remove *)
Definition Remove (io : bool) (files : Files) (path : string) : Files * bool :=
  if io then (delete path files, true) else (files, false).

(** ** The names *)

Lemma app_ext_ne a b : b <> "" -> a +:+ b <> a.
Proof.
  intros Hb E. apply (f_equal String.length) in E. rewrite string_length_app in E. destruct b; [done|]. cbn in E. lia.
Qed.

Lemma bak_path_ne path : bak_path path <> path.
Proof. by apply app_ext_ne. Qed.
Lemma temp_path_ne path suffix : temp_path path suffix <> path.
Proof. by apply app_ext_ne. Qed.
Lemma temp_path_bak path suffix : temp_path path suffix <> bak_path path.
Proof. unfold temp_path, bak_path. by intros E%string_app_inj_l. Qed.

Create HintDb state_file.
#[export] Hint Resolve bak_path_ne temp_path_ne temp_path_bak not_eq_sym : state_file.

(** What a reader sees is the primary and the backup. *)
Lemma Read_ext leftover io bak_io files files' path :
  files' !! path = files !! path -> files' !! bak_path path = files !! bak_path path ->
  Read leftover io bak_io files' path = Read leftover io bak_io files path.
Proof. unfold Read, Read_over. by intros -> ->. Qed.

Lemma Read_written leftover bak_io files path s : CycleState_wf s = true -> files !! path = Some (Marshal_state s) ->
  Read leftover true bak_io files path = inr s.
Proof.
  intros Hwf Hp. unfold Read, Read_over. rewrite Hp. cbn [negb]. destruct (decode_Marshal_state s Hwf) as [H1 H2].
  unfold unmarshal_into. by rewrite H1, H2.
Qed.

Lemma discard_other removed tmp c files p : p <> tmp -> discard removed tmp c files !! p = files !! p.
Proof. intros Hp. unfold discard. destruct removed; [by rewrite lookup_delete_ne|by rewrite lookup_insert_ne]. Qed.

Definition backup_fault (fault : WriteFault) : bool := match fault with WBackupOpen | WBackupWrite _ => true | _ => false end.

(** The ways a write ends. *)
Lemma Write_cases fault removed suffix files path s files' e : Write fault removed suffix files path s = (files', e) ->
  (files' !! path = Some (Marshal_state s) /\
    match files !! path with
    | None => e = None
    | Some prior => e = None /\ files' !! bak_path path = Some prior \/ e = Some WBackupOpen \/ exists n, e = Some (WBackupWrite n)
    end) \/
  (e = Some fault /\ backup_fault fault = false /\ files' !! path = files !! path /\ files' !! bak_path path = files !! bak_path path).
Proof.
  unfold Write. intros H.
  assert (Hd : forall c, (discard removed (temp_path path suffix) c files) !! path = files !! path /\
    (discard removed (temp_path path suffix) c files) !! bak_path path = files !! bak_path path).
  { intros c. split; apply discard_other; auto with state_file. }
  assert (Hb : forall c, (<[bak_path path := c]> (<[path := Marshal_state s]> (delete (temp_path path suffix) files))) !! path
    = Some (Marshal_state s)).
  { intros c. rewrite lookup_insert_ne by auto with state_file. by rewrite lookup_insert_eq. }
  destruct fault; try (injection H as <- <-; right; split; [done|]; split; [done|]; first [done|apply Hd]);
    left; destruct (files !! path) as [prior|]; injection H as <- <-; rewrite ?Hb, ?lookup_insert_eq; (split; [done|]); eauto.
Qed.

(** ** Single effects *)

(** Where a write is: the prior contents read, the temporary file holding [n] bytes, the
    rename done, the backup being written. *)
Inductive Stage : Set :=
  | AtStart | AtPrior (prior : option string) | AtTemp (prior : option string) (n : nat) | AtBackup (prior : string) | AtEnd.

Record Writer := mkWriter { wr_state : CycleState; wr_suffix : string; wr_stage : Stage }.
#[export] Instance eta_Writer : Eta Writer := fun r => mkWriter (wr_state r) (wr_suffix r) (wr_stage r).

(** The next effect of one writer.  A writer may give up while its temporary file is there,
    and may stop for ever anywhere. *)
(* src: internal/cycle/sync.go 66-122 StateFileSync.Write *)
Inductive effect (path : string) : Files * Writer -> Files * Writer -> Prop :=
  | E_prior files w : wr_stage w = AtStart -> effect path (files, w) (files, w <| wr_stage := AtPrior (files !! path) |>)
  | E_create files w prior : wr_stage w = AtPrior prior -> files !! temp_path path (wr_suffix w) = None ->
      effect path (files, w) (<[temp_path path (wr_suffix w) := ""]> files, w <| wr_stage := AtTemp prior 0 |>)
  | E_write files w prior n n' : wr_stage w = AtTemp prior n ->
      effect path (files, w) (<[temp_path path (wr_suffix w) := slice (Marshal_state (wr_state w)) 0 n']> files,
                              w <| wr_stage := AtTemp prior n' |>)
  | E_give_up files w prior n : wr_stage w = AtTemp prior n ->
      effect path (files, w) (delete (temp_path path (wr_suffix w)) files, w <| wr_stage := AtEnd |>)
  | E_rename files w prior n content : wr_stage w = AtTemp prior n -> (String.length (Marshal_state (wr_state w)) <= n)%nat ->
      files !! temp_path path (wr_suffix w) = Some content ->
      effect path (files, w) (<[path := content]> (delete (temp_path path (wr_suffix w)) files),
                              w <| wr_stage := match prior with Some prior => AtBackup prior | None => AtEnd end |>)
  | E_backup files w prior n : wr_stage w = AtBackup prior ->
      effect path (files, w) (<[bak_path path := slice prior 0 n]> files, w).

(** Any number of writers, of one process or of several. *)
Inductive wstep (path : string) : Files * gmap nat Writer -> Files * gmap nat Writer -> Prop :=
  | W_step files ws i w files' w' : ws !! i = Some w -> effect path (files, w) (files', w') ->
      wstep path (files, ws) (files', <[i := w']> ws).

(** ** What a reader sees between the effects *)

Lemma temp_path_inj path s s' : temp_path path s = temp_path path s' -> s = s'.
Proof. unfold temp_path. by intros E%string_app_inj_l%string_app_inj_l. Qed.

Lemma slice_all s n : (String.length s <= n)%nat -> slice s 0 n = s.
Proof.
  unfold slice. rewrite Nat.sub_0_r. revert n. induction s as [|c s IH]; intros n H; [by destruct n|].
  destruct n as [|n]; cbn in *; [lia|]. f_equal. apply IH. lia.
Qed.

Section Writers.
Context (path : string) (files0 : Files) (ws0 : gmap nat Writer).
Hypothesis Hstart : forall i w, ws0 !! i = Some w -> wr_stage w = AtStart.

Definition at_temp (w : Writer) : bool := match wr_stage w with AtTemp _ _ => true | _ => false end.

(** A temporary file holds a prefix of its writer's data and no other writer uses it; and
    unless some writer's data is in place, neither the state file nor its backup has been
    touched. *)
Record winv (files : Files) (ws : gmap nat Writer) : Prop := mkWinv {
  w_same : forall i, option_map (fun w => (wr_state w, wr_suffix w)) (ws !! i) = option_map (fun w => (wr_state w, wr_suffix w)) (ws0 !! i);
  w_temp : forall i w prior n, ws !! i = Some w -> wr_stage w = AtTemp prior n ->
    files !! temp_path path (wr_suffix w) = Some (slice (Marshal_state (wr_state w)) 0 n);
  w_excl : forall i j w w', ws !! i = Some w -> ws !! j = Some w' -> at_temp w = true -> at_temp w' = true ->
    wr_suffix w = wr_suffix w' -> i = j;
  w_seen : (exists i w, ws !! i = Some w /\ files !! path = Some (Marshal_state (wr_state w))) \/
    (files !! path = files0 !! path /\ files !! bak_path path = files0 !! bak_path path /\
     forall i w prior, ws !! i = Some w -> wr_stage w <> AtBackup prior) }.

Lemma winv_start : winv files0 ws0.
Proof.
  split; [done| | |].
  - intros i w prior n Hi%Hstart. congruence.
  - intros i j w w' Hi%Hstart _ Hw. unfold at_temp in Hw. by rewrite Hi in Hw.
  - right. split_and!; [done..|]. intros i w prior Hi%Hstart. congruence.
Qed.

(** Writer [i] enters a stage without its temporary file, which is gone or never was. *)
Lemma winv_leave files ws i w stage files' : winv files ws -> ws !! i = Some w -> at_temp (w <| wr_stage := stage |>) = false ->
  (forall s, (at_temp w = true -> s <> wr_suffix w) -> files' !! temp_path path s = files !! temp_path path s) ->
  ((exists j w', <[i := w <| wr_stage := stage |>]> ws !! j = Some w' /\ files' !! path = Some (Marshal_state (wr_state w'))) \/
   (files' !! path = files !! path /\ files' !! bak_path path = files !! bak_path path /\ forall prior, stage <> AtBackup prior)) ->
  winv files' (<[i := w <| wr_stage := stage |>]> ws).
Proof.
  intros [S T X V] Hi Ht Hf Hv. set (w1 := w <| wr_stage := stage |>) in *. split.
  - intros j. destruct (decide (j = i)) as [->|]; [|by rewrite lookup_insert_ne]. rewrite lookup_insert_eq, <-S, Hi. done.
  - intros j w' prior n Hj Hs. destruct (decide (j = i)) as [->|].
    + rewrite lookup_insert_eq in Hj. injection Hj as <-. unfold at_temp in Ht. by rewrite Hs in Ht.
    + rewrite lookup_insert_ne in Hj by done. rewrite Hf; [eauto|]. intros Ha E.
      assert (i = j); [|done]. apply (X i j w w'); try done. unfold at_temp. by rewrite Hs.
  - intros j k wj wk Hj Hk Hj' Hk' E. destruct (decide (j = i)) as [->|], (decide (k = i)) as [->|]; try done.
    + rewrite lookup_insert_eq in Hj. injection Hj as <-. by rewrite Ht in Hj'.
    + rewrite lookup_insert_eq in Hk. injection Hk as <-. by rewrite Ht in Hk'.
    + rewrite lookup_insert_ne in Hj, Hk by done. eauto.
  - destruct Hv as [Hv|(H1 & H2 & H3)]; [by left|]. destruct V as [(j & w' & Hj & Hp)|(V1 & V2 & V3)].
    + left. destruct (decide (j = i)) as [->|].
      * exists i, w1. rewrite lookup_insert_eq. split; [done|]. rewrite H1, Hp. by assert (w' = w) as -> by congruence.
      * exists j, w'. rewrite lookup_insert_ne by done. by rewrite H1.
    + right. split_and!; [congruence..|]. intros j w' prior Hj. destruct (decide (j = i)) as [->|].
      * rewrite lookup_insert_eq in Hj. injection Hj as <-. apply H3.
      * rewrite lookup_insert_ne in Hj by done. eauto.
Qed.

(** Writer [i] has written [n] bytes into its temporary file. *)
Lemma winv_temp files ws i w prior n : winv files ws -> ws !! i = Some w ->
  at_temp w = true \/ files !! temp_path path (wr_suffix w) = None ->
  winv (<[temp_path path (wr_suffix w) := slice (Marshal_state (wr_state w)) 0 n]> files)
    (<[i := w <| wr_stage := AtTemp prior n |>]> ws).
Proof.
  intros [S T X V] Hi Ht.
  assert (Hne : forall j w', ws !! j = Some w' -> at_temp w' = true -> j <> i -> wr_suffix w' <> wr_suffix w).
  { intros j w' Hj Hw Hne E. destruct Ht as [Ht|Ht]; [exact (Hne (X _ _ _ _ Hj Hi Hw Ht E))|]. unfold at_temp in Hw.
    destruct (wr_stage w') as [| |pr m| |] eqn:Es; try done. pose proof (T _ _ _ _ Hj Es) as Hf. rewrite E in Hf. congruence. }
  split.
  - intros j. destruct (decide (j = i)) as [->|]; [|by rewrite lookup_insert_ne]. rewrite lookup_insert_eq, <-S, Hi. done.
  - intros j w' pr m Hj Hs. destruct (decide (j = i)) as [->|].
    + rewrite lookup_insert_eq in Hj. injection Hj as <-. injection Hs as <- <-. cbn. by rewrite lookup_insert_eq.
    + rewrite lookup_insert_ne in Hj by done. rewrite lookup_insert_ne; [eauto|]. intros E%temp_path_inj.
      apply (Hne j w'); try done. unfold at_temp. by rewrite Hs.
  - intros j k wj wk Hj Hk Hj' Hk' E. destruct (decide (j = i)) as [->|], (decide (k = i)) as [->|]; try done.
    + rewrite lookup_insert_eq in Hj. injection Hj as <-. rewrite lookup_insert_ne in Hk by done. by destruct (Hne _ _ Hk Hk' n0 (eq_sym E)).
    + rewrite lookup_insert_eq in Hk. injection Hk as <-. rewrite lookup_insert_ne in Hj by done. by destruct (Hne _ _ Hj Hj' n0 E).
    + rewrite lookup_insert_ne in Hj, Hk by done. eauto.
  - destruct V as [(j & w' & Hj & Hp)|(V1 & V2 & V3)].
    + left. destruct (decide (j = i)) as [->|].
      * eexists i, _. rewrite lookup_insert_eq. split; [done|]. cbn. rewrite lookup_insert_ne by auto with state_file.
        by assert (w = w') as -> by congruence.
      * exists j, w'. rewrite !lookup_insert_ne by auto with state_file. done.
    + right. rewrite !lookup_insert_ne by auto with state_file. split_and!; [done..|]. intros j w' pr Hj.
      destruct (decide (j = i)) as [->|]; [rewrite lookup_insert_eq in Hj; by injection Hj as <-|].
      rewrite lookup_insert_ne in Hj by done. eauto.
Qed.

Lemma winv_step files ws files' ws' : winv files ws -> wstep path (files, ws) (files', ws') -> winv files' ws'.
Proof.
  intros HW H. inversion H as [? ? i w ? w' Hi He]; subst. inversion He; subst.
  - eapply winv_leave; try done. right. split_and!; [done..|]. by intros ?.
  - apply (winv_temp files ws i w prior 0 HW Hi). by right.
  - apply (winv_temp files ws i w prior n' HW Hi). left. unfold at_temp. by match goal with E : wr_stage w = _ |- _ => rewrite E end.
  - eapply winv_leave; try done.
    + intros s Hs. rewrite lookup_delete_ne; [done|]. intros E%temp_path_inj. apply Hs; [|done].
      unfold at_temp. by match goal with E : wr_stage w = _ |- _ => rewrite E end.
    + right. rewrite !lookup_delete_ne by auto with state_file. split_and!; [done..|]. by intros ?.
  - match goal with Hst : wr_stage w = AtTemp _ _, Hc : files !! _ = Some content |- _ =>
      pose proof (w_temp _ _ HW _ _ _ _ Hi Hst) as Hd; rewrite Hc in Hd; rename Hst into Hstage end.
    injection Hd as ->. rewrite slice_all by done. eapply winv_leave; try done.
    + unfold at_temp. by destruct prior.
    + intros s Hs. rewrite lookup_insert_ne by auto with state_file. rewrite lookup_delete_ne; [done|]. intros E%temp_path_inj.
      apply Hs; [|done]. unfold at_temp. by rewrite Hstage.
    + left. eexists i, _. rewrite lookup_insert_eq. split; [done|]. by rewrite lookup_insert_eq.
  - match goal with Hst : wr_stage w' = AtBackup _ |- _ => rename Hst into Hstage end.
    assert (HB : exists j w0, ws !! j = Some w0 /\ files !! path = Some (Marshal_state (wr_state w0))).
    { destruct (w_seen _ _ HW) as [?|(_ & _ & V3)]; [done|]. by destruct (V3 _ _ _ Hi Hstage). }
    rewrite (insert_id ws i w' Hi). destruct HW as [S T X V]. split; [done| |done|].
    + intros j w0 pr m Hj Hs. rewrite lookup_insert_ne by auto with state_file. eauto.
    + left. destruct HB as (j & w0 & Hj & Hp). exists j, w0. split; [done|]. by rewrite lookup_insert_ne by auto with state_file.
Qed.

Lemma winv_steps files ws : rtc (wstep path) (files0, ws0) (files, ws) -> winv files ws.
Proof.
  intros H. pose proof winv_start as HW. remember (files0, ws0) as a eqn:Ea. remember (files, ws) as b eqn:Eb.
  assert (G : forall f w, a = (f, w) -> winv f w) by (intros ? ? E; congruence). clear HW Ea.
  revert G. induction H as [x|x y z Hs _ IH]; intros G; [eauto|]. apply IH; [done|]. destruct x as [f w]. intros f' w' ->.
  eapply winv_step; eauto.
Qed.
End Writers.

(** A write is a run of effects. *)
Lemma Write_run fault removed suffix files path s files' e : files !! temp_path path suffix = None ->
  Write fault removed suffix files path s = (files', e) ->
  exists w', rtc (effect path) (files, mkWriter s suffix AtStart) (files', w').
Proof.
  intros Hf H. set (w := mkWriter s suffix). set (tmp := temp_path path suffix) in *. set (data := Marshal_state s) in *.
  set (pr := files !! path).
  assert (Htemp : forall n, rtc (effect path) (files, w AtStart) (<[tmp := slice data 0 n]> files, w (AtTemp pr n))).
  { intros n. eapply rtc_l; [exact (E_prior path files (w AtStart) eq_refl)|].
    eapply rtc_l; [exact (E_create path files (w (AtPrior pr)) pr eq_refl Hf)|].
    apply rtc_once. rewrite <-(insert_insert_eq files tmp (slice data 0 n) "").
    exact (E_write path (<[tmp := ""]> files) (w (AtTemp pr 0)) pr 0 n eq_refl). }
  assert (Hdisc : forall n, exists w', rtc (effect path) (files, w AtStart) (discard removed tmp (slice data 0 n) files, w')).
  { intros n. unfold discard. destruct removed; [|eexists; apply Htemp]. exists (w AtEnd). eapply rtc_r; [apply (Htemp n)|].
    rewrite <-(delete_insert_eq files tmp (slice data 0 n)).
    exact (E_give_up path (<[tmp := slice data 0 n]> files) (w (AtTemp pr n)) pr n eq_refl). }
  assert (Hren : rtc (effect path) (files, w AtStart) (<[path := data]> (delete tmp files),
    w match pr with Some prior => AtBackup prior | None => AtEnd end)).
  { eapply rtc_r; [apply (Htemp (String.length data))|]. rewrite slice_all by lia.
    rewrite <-(delete_insert_eq files tmp data).
    apply (E_rename path (<[tmp := data]> files) (w (AtTemp pr (String.length data))) pr (String.length data) data eq_refl (le_n _)).
    by rewrite lookup_insert_eq. }
  assert (Hbak : forall prior n, pr = Some prior -> exists w', rtc (effect path) (files, w AtStart)
    (<[bak_path path := slice prior 0 n]> (<[path := data]> (delete tmp files)), w')).
  { intros prior n Hpr. rewrite Hpr in Hren. eexists. eapply rtc_r; [exact Hren|]. by apply E_backup. }
  unfold Write in H. fold tmp data pr in H.
  destruct fault; try (injection H as <- <-; first [by eexists; apply rtc_refl|by apply Hdisc
    |by rewrite <-(slice_all data (String.length data)) by lia; apply Hdisc]);
    destruct pr as [prior|] eqn:Hpr; injection H as <- <-; try (by eexists; exact Hren);
    try (by apply Hbak); rewrite <-(slice_all prior (String.length prior)) by lia; by apply Hbak.
Qed.

(** The effects of one writer are steps. *)
Lemma effects_wsteps path f w f' w' ws i : rtc (effect path) (f, w) (f', w') -> ws !! i = Some w ->
  rtc (wstep path) (f, ws) (f', <[i := w']> ws).
Proof.
  intros H. remember (f, w) as a eqn:Ea. remember (f', w') as b eqn:Eb. revert f w ws Ea.
  induction H as [x|x [f1 w1] z Hs _ IH]; intros f w ws -> Hi.
  - injection Eb as -> ->. by rewrite insert_id.
  - eapply rtc_l; [exact (W_step path f ws i w f1 w1 Hi Hs)|]. rewrite <-(insert_insert_eq ws i w' w1).
    apply (IH Eb f1 w1); [done|]. by rewrite lookup_insert_eq.
Qed.

(** ** Theorems *)

Section Theorems.
Context (leftover : json -> CycleState).

(** C19: A write either installs the new state or leaves what a reader sees untouched.  On
    every fault: when it reports no error, the next read returns the state written, and the
    previous contents are the backup; when it fails before the rename, the next read returns
    what it returned before; and when only the backup fails, an error is reported although
    the new state is in place.  A removal makes the next read return the zero state,
    whatever the backup holds. *)
Theorem Write_Read fault removed suffix files path s files' e io bak_io : CycleState_wf s = true ->
  Write fault removed suffix files path s = (files', e) ->
  match e with
  | None => Read leftover true bak_io files' path = inr s /\
      (forall prior, files !! path = Some prior -> files' !! bak_path path = Some prior)
  | Some WBackupOpen | Some (WBackupWrite _) => Read leftover true bak_io files' path = inr s
  | Some _ => Read leftover io bak_io files' path = Read leftover io bak_io files path
  end /\
  Read leftover true bak_io (fst (Remove true files' path)) path = inr CycleState_zero.
Proof.
  intros Hwf H. split; [|unfold Read, Read_over; cbn; by rewrite lookup_delete_eq].
  destruct (Write_cases _ _ _ _ _ _ _ _ H) as [[Hp Hc]|(-> & Hb & H1 & H2)].
  - assert (HR : Read leftover true bak_io files' path = inr s) by by apply Read_written.
    destruct (files !! path) as [prior|]; [|by subst e].
    destruct Hc as [[-> Hb]|[->|[n ->]]]; [|done..]. split; [done|]. by intros ? [= <-].
  - assert (HR : Read leftover io bak_io files' path = Read leftover io bak_io files path) by by apply Read_ext.
    by destruct fault.
Qed.

(** C18: A reader never sees a state that is missing, half written or mixed: with any number
    of writers that interleave their single effects on the files (temporary files written
    piece by piece, renames, backups), that give up or stop for ever at any point, as in a
    crash, what a reader sees at any moment is what it saw before the first effect, or the
    whole state of one of the writers.  And when the state file was intact before, a reader that
    reads the two files one after the other, with any effects of the writers in between, sees
    what is there at the first of the two moments. *)
Theorem whole_states path files0 ws0 files ws io bak_io :
  (forall i w, ws0 !! i = Some w -> wr_stage w = AtStart /\ CycleState_wf (wr_state w) = true) ->
  rtc (wstep path) (files0, ws0) (files, ws) ->
  (Read leftover io bak_io files path = Read leftover io bak_io files0 path \/
   exists i w, ws0 !! i = Some w /\ Read leftover true bak_io files path = inr (wr_state w)) /\
  (intact leftover files0 path -> forall later ws', rtc (wstep path) (files, ws) (later, ws') ->
   Read_over leftover io bak_io files later path = Read leftover io bak_io files path).
Proof.
  intros Hs H. destruct (winv_steps path files0 ws0 (fun i w Hi => proj1 (Hs i w Hi)) files ws H) as [S _ _ V].
  assert (Hw : forall i w, ws !! i = Some w -> exists w0, ws0 !! i = Some w0 /\ wr_state w0 = wr_state w /\ CycleState_wf (wr_state w) = true).
  { intros i w Hi. specialize (S i). rewrite Hi in S. destruct (ws0 !! i) as [w0|] eqn:Hi0; [|done]. injection S as E1 E2.
    exists w0. split_and!; [done..|]. rewrite E1. by apply (Hs i). }
  split.
  - destruct V as [(i & w & Hi & Hp)|(V1 & V2 & _)]; [right|left; by apply Read_ext].
    destruct (Hw i w Hi) as (w0 & Hi0 & E & Hwf). exists i, w0. split; [done|]. rewrite E. by apply Read_written.
  - intros H0 later ws' _. apply Read_over_intact. intros data Hd. destruct V as [(i & w & Hi & Hp)|(V1 & _)]; [|apply H0; congruence].
    destruct (Hw i w Hi) as (_ & _ & _ & Hwf). rewrite Hp in Hd. injection Hd as <-. destruct (decode_Marshal_state _ Hwf) as [H1 H2].
    unfold unmarshal_into. by rewrite H1, H2.
Qed.

(** Every write, on every fault, is a run of such effects of one writer: the function
    and the relation are the same code. *)
Theorem Write_effects fault removed suffix files path s files' e : files !! temp_path path suffix = None ->
  Write fault removed suffix files path s = (files', e) ->
  exists w', rtc (effect path) (files, mkWriter s suffix AtStart) (files', w').
Proof. apply Write_run. Qed.

(** The backup is used when the state file is not JSON: after a write over the file of an
    earlier state, whatever text that is no JSON value replaces the state file (a torn
    write, a truncation), the next read returns the earlier state. *)
Theorem backup_recovers fault removed suffix files path s s' files' torn : CycleState_wf s = true ->
  files !! path = Some (Marshal_state s) -> Write fault removed suffix files path s' = (files', None) -> decode torn = None ->
  Read leftover true true (<[path := torn]> files') path = inr s.
Proof.
  intros Hwf Hp H Ht. destruct (Write_cases _ _ _ _ _ _ _ _ H) as [[_ Hc]|([=] & _)]. rewrite Hp in Hc.
  destruct Hc as [[_ Hb]|[[=]|[n [=]]]]. unfold Read, Read_over. cbn [negb]. rewrite lookup_insert_eq.
  rewrite lookup_insert_ne by auto with state_file. rewrite Hb. unfold unmarshal_into at 1. rewrite Ht.
  destruct (decode_Marshal_state s Hwf) as [H1 H2]. unfold unmarshal_into. by rewrite H1, H2.
Qed.
End Theorems.

(** ** Concrete states *)

Definition cycle_path : string := "/c/cycle-cyc_1.json".
Definition first_state : CycleState :=
  mkCycleState "cyc_1" CyclePhasePreflight 0 3 "feat/x" "" ["a.go"] [] "" "" [] "first goal" false None 1 1 [] "" false 0 1.
Definition second_state : CycleState := first_state <| s_Phase := CyclePhaseHalted |> <| s_Halted := true |> <| s_HaltReason := Some HaltStuck |>
  <| s_UpdatedAt := 2%Z |> <| s_History := [mkGateReport "audit" false 12 "out" "" [mkViolation "a.go" 3 "todo" "m" None] []] |>.
Definition first_files : Files := {[ cycle_path := Marshal_state first_state ]}.
Definition second_files : Files := fst (Write WOk true "1" first_files cycle_path second_state).
Definition no_leftover (j : json) : CycleState := CycleState_zero.

Lemma Write_Read_witness :
  Read no_leftover true true second_files cycle_path = inr second_state /\
  second_files !! bak_path cycle_path = Some (Marshal_state first_state).
Proof.
  assert (H : Write WOk true "1" first_files cycle_path second_state = (second_files, None)) by reflexivity.
  assert (Hwf : CycleState_wf second_state = true) by (vm_compute; reflexivity).
  destruct (Write_Read no_leftover WOk true "1" first_files cycle_path second_state second_files None true true Hwf H)
    as [[HR Hb] _].
  split; [exact HR|]. apply Hb. unfold first_files. apply lookup_singleton_eq.
Defined.

(** The first of two writers is done, the other has not begun. *)
Definition two_writers : gmap nat Writer := {[ 0%nat := mkWriter second_state "1" AtStart; 1%nat := mkWriter first_state "2" AtStart ]}.

Lemma two_writers_start i w : two_writers !! i = Some w -> wr_stage w = AtStart /\ CycleState_wf (wr_state w) = true.
Proof.
  unfold two_writers. intros [[_ <-]|[_ [_ <-]%lookup_singleton_Some]]%lookup_insert_Some;
    (split; [done|vm_compute; reflexivity]).
Qed.

Lemma whole_states_witness :
  Read no_leftover true true second_files cycle_path = Read no_leftover true true first_files cycle_path \/
  exists i w, two_writers !! i = Some w /\ Read no_leftover true true second_files cycle_path = inr (wr_state w).
Proof.
  assert (Hf : first_files !! temp_path cycle_path "1" = None) by (vm_compute; reflexivity).
  assert (H : Write WOk true "1" first_files cycle_path second_state = (second_files, None)) by reflexivity.
  destruct (Write_run _ _ _ _ _ _ _ _ Hf H) as [w' Hrun].
  assert (Hi : two_writers !! 0%nat = Some (mkWriter second_state "1" AtStart)) by (vm_compute; reflexivity).
  exact (proj1 (whole_states no_leftover cycle_path first_files two_writers _ _ true true two_writers_start
    (effects_wsteps _ _ _ _ _ _ _ Hrun Hi))).
Defined.

Lemma Write_effects_witness :
  exists w', rtc (effect cycle_path) (first_files, mkWriter second_state "1" AtStart) (second_files, w').
Proof.
  assert (Hf : first_files !! temp_path cycle_path "1" = None) by (vm_compute; reflexivity).
  assert (H : Write WOk true "1" first_files cycle_path second_state = (second_files, None)) by reflexivity.
  exact (Write_effects WOk true "1" first_files cycle_path second_state second_files None Hf H).
Defined.

Lemma backup_recovers_witness :
  Read no_leftover true true (<[cycle_path := "{"]> second_files) cycle_path = inr first_state.
Proof.
  assert (Hwf : CycleState_wf first_state = true) by (vm_compute; reflexivity).
  assert (H : Write WOk true "1" first_files cycle_path second_state = (second_files, None)) by reflexivity.
  assert (Ht : decode "{" = None) by (vm_compute; reflexivity).
  assert (Hp : first_files !! cycle_path = Some (Marshal_state first_state)) by (unfold first_files; apply lookup_singleton_eq).
  exact (backup_recovers no_leftover WOk true "1" first_files cycle_path first_state second_state second_files "{" Hwf Hp H Ht).
Defined.

(** A reader of a damaged state file that a writer overtakes finds the damaged text in the backup as
    well, though there is a state before and after: the reads of the two files are not one. *)
Example overtaken_reader :
  let damaged := <[cycle_path := "{"]> second_files in
  let written := fst (Write WOk true "3" damaged cycle_path second_state) in
  Read no_leftover true true damaged cycle_path = inr first_state /\ Read no_leftover true true written cycle_path = inr second_state /\
  Read_over no_leftover true true damaged written cycle_path = inl RBackupCorrupt.
Proof. cbv zeta. split_and!; vm_compute; reflexivity. Qed.
