(* ===== verification/Paths.v ===== *)
(** * Paths

    [internal/safepath/safepath.go], with what it uses of [path/filepath] on Unix, and the
    paths of the files of a cycle, which the broker and the command line build from a
    directory and the id of a cycle.  The working directory is an argument. *)

From S2P Require Import Prelude GoStrings.
From Stdlib Require Import Ascii String.
#[local] Open Scope string_scope.

Definition slash : ascii := "/"%char.

(** ** [path/filepath] *)

(** One element of a path, on the elements kept so far, the last one first. *)
Definition clean_elem (rooted : bool) (out : list string) (e : string) : list string :=
  if String.eqb e "" || String.eqb e "." then out
  else if String.eqb e ".." then
    match out with
    | [] => if rooted then [] else [".."]
    | last :: rest => if String.eqb last ".." then ".." :: out else rest
    end
  else e :: out.

Definition clean_elems (rooted : bool) (es : list string) : list string := rev (foldl (clean_elem rooted) [] es).

Definition filepath_Clean (path : string) : string :=
  let es := clean_elems (HasPrefix path "/") (Split path slash) in
  if HasPrefix path "/" then "/" +:+ Join es "/" else match es with [] => "." | _ => Join es "/" end.

(** Leading empty elements are dropped. *)
Fixpoint filepath_Join (es : list string) : string :=
  match es with
  | [] => ""
  | e :: rest => if String.eqb e "" then filepath_Join rest else filepath_Clean (Join es "/")
  end.

(** [filepath.Base]. *)
Definition filepath_Base (path : string) : string :=
  if String.eqb path "" then "."
  else match last (List.filter (fun e => negb (String.eqb e "")) (Split path slash)) with Some e => e | None => "/" end.

(** [cwd] is the working directory, or the error of looking it up. *)
Definition filepath_Abs (cwd : string + string) (path : string) : string + string :=
  if HasPrefix path "/" then inr (filepath_Clean path)
  else match cwd with inl e => inl e | inr wd => inr (filepath_Join [wd; path]) end.

(** ** [safepath] *)

Inductive PathError : Set := ErrEmpty | ErrAbsolute (e : string) | ErrDotDot | ErrInvalidRoot (e : PathError) | ErrEscapes.

(* src: internal/safepath/safepath.go 14-30 Clean *)
Definition Clean (cwd : string + string) (p : string) : PathError + string :=
  if String.eqb p "" then inl ErrEmpty
  else match filepath_Abs cwd p with
       | inl e => inl (ErrAbsolute e)
       | inr abs => if existsb (fun seg => String.eqb seg "..") (Split abs slash) then inl ErrDotDot else inr abs
       end.

(** [None] is a nil error. *)
(* src: internal/safepath/safepath.go 35-52 UnderRoot *)
Definition UnderRoot (cwd : string + string) (p root : string) : option PathError :=
  match Clean cwd p with
  | inl e => Some e
  | inr cleanP =>
      match Clean cwd root with
      | inl e => Some (ErrInvalidRoot e)
      | inr cleanRoot =>
          let cleanRoot := if HasSuffix cleanRoot "/" then cleanRoot else cleanRoot +:+ "/" in
          if HasPrefix (cleanP +:+ "/") cleanRoot then None else Some ErrEscapes
      end
  end.

(** ** The files of a cycle *)

Definition defaultCyclesDir : string := "tmp".

(* src: internal/broker/cycle.go 66-71 cycleStore.dir *)
Definition cycles_dir (baseDir : string) : string := if String.eqb baseDir "" then defaultCyclesDir else baseDir.
(* src: internal/broker/cycle.go 55-57 cycleStore.statePath *)
Definition statePath (baseDir id : string) : string := filepath_Join [cycles_dir baseDir; "cycle-" +:+ id +:+ ".json"].
(* src: internal/broker/cycle.go 60-62 cycleStore.ledgerPath *)
Definition ledgerPath (baseDir id : string) : string := filepath_Join [cycles_dir baseDir; "cycle-" +:+ id +:+ "-ledger.jsonl"].

(* src: internal/cli/cycle_run.go 200-206 CyclesDir *)
Definition CyclesDir (home : string + string) : string + string :=
  match home with inl e => inl e | inr home => inr (filepath_Join [home; ".rallish"; "cycles"]) end.
(** [trimmed] is the flag without the white space around it. *)
(* src: internal/cli/cycle_run.go 211-216 resolveStateDir *)
Definition resolveStateDir (home : string + string) (flag : string) : string + string :=
  if negb (String.eqb (TrimSpace flag) "") then inr flag else CyclesDir home.

(** ** Clean paths *)

Definition name_ok (e : string) : bool :=
  negb (String.eqb e "") && negb (String.eqb e ".") && negb (String.eqb e "..") && no_byte slash e.

Lemma Split_no_slash s : Forall (fun e => no_byte slash e = true) (Split s slash).
Proof.
  induction s as [|c s IH]; cbn [Split]; [by repeat constructor|]. destruct (Ascii.eqb c slash) eqn:E; [by constructor|].
  pose proof (Split_nonempty s slash); destruct (Split s slash) as [|p ps]; [done|]. inversion_clear IH. constructor; [|done]. unfold no_byte in *. cbn [string_forall].
  by rewrite (Ascii.eqb_sym slash c), E.
Qed.

Lemma clean_elems_ok es : Forall (fun e => no_byte slash e = true) es -> Forall (fun e => name_ok e = true) (clean_elems true es).
Proof.
  intros H. unfold clean_elems. apply Forall_rev. assert (HG : Forall (fun e => name_ok e = true) []) by constructor. revert HG.
  generalize (@nil string) as out. induction H as [|e es He _ IH]; intros out HG; cbn; [done|]. apply IH. unfold clean_elem.
  destruct (String.eqb e "" || String.eqb e ".") eqn:E1; [done|]. destruct (String.eqb e "..") eqn:E2.
  - destruct HG as [|x out Hx HG]; [constructor|]. destruct (String.eqb x "..") eqn:E3; [|done].
    unfold name_ok in Hx. rewrite E3 in Hx. by rewrite andb_false_r in Hx.
  - constructor; [|done]. unfold name_ok. apply orb_false_iff in E1 as [-> ->]. by rewrite E2.
Qed.

(** Clean names are kept as they are. *)
Lemma clean_names es : Forall (fun e => name_ok e = true) es -> clean_elems true es = es.
Proof.
  intros H. unfold clean_elems. enough (HG : forall out, foldl (clean_elem true) out es = (rev es ++ out)%list).
  { by rewrite HG, app_nil_r, rev_involutive. }
  induction H as [|e es He _ IH]; intros out; cbn; [done|]. rewrite IH, <-app_assoc. f_equal. cbn. unfold clean_elem.
  unfold name_ok in He. destruct (String.eqb e ""), (String.eqb e "."), (String.eqb e ".."); by try discriminate He.
Qed.

(** An absolute clean path and its names. *)
Definition abs_path (es : list string) : string := "/" +:+ Join es "/".
Definition slashed (es : list string) : string := fold_right (fun e s => e +:+ "/" +:+ s) "" es.

Lemma Join_slashed es : es <> [] -> Join es "/" +:+ "/" = slashed es.
Proof.
  induction es as [|e [|e' es] IH]; [done|done|]. intros _. change (Join (e :: e' :: es) "/") with (e +:+ "/" +:+ Join (e' :: es) "/").
  rewrite <-!string_app_assoc, IH by done. done.
Qed.

Lemma Split_abs_path es : Forall (fun e => name_ok e = true) es -> clean_elems true (Split (abs_path es) slash) = es.
Proof.
  intros H. change (abs_path es) with ("" +:+ String slash (Join es "/")). rewrite Split_app. cbn [Split app].
  change (clean_elems true ("" :: Split (Join es "/") slash)) with (clean_elems true (Split (Join es "/") slash)).
  rewrite <-(clean_names es H) at 2. destruct es as [|e es]; [done|]. f_equal. revert e H.
  induction es as [|e' es IH]; intros e H; inversion_clear H as [|? ? He Hes].
  - apply Split_no_byte. unfold name_ok in He. by apply andb_true_iff in He as [_ ?].
  - change (Join (e :: e' :: es) "/") with (e +:+ String slash (Join (e' :: es) "/")). rewrite Split_app, IH by done.
    rewrite Split_no_byte; [done|]. unfold name_ok in He. by apply andb_true_iff in He as [_ ?].
Qed.

(** The names of a path, seen from the working directory [wd]. *)
Definition names (wd path : string) : list string :=
  clean_elems true (Split (if HasPrefix path "/" then path else wd +:+ "/" +:+ path) slash).

Lemma names_ok wd path : Forall (fun e => name_ok e = true) (names wd path).
Proof. apply clean_elems_ok, Split_no_slash. Qed.

Lemma filepath_Clean_abs path : HasPrefix path "/" = true -> filepath_Clean path = abs_path (clean_elems true (Split path slash)).
Proof. intros H. unfold filepath_Clean. by rewrite H. Qed.

Lemma filepath_Abs_names wd path : HasPrefix wd "/" = true -> path <> "" -> filepath_Abs (inr wd) path = inr (abs_path (names wd path)).
Proof.
  intros Hw Hp. unfold filepath_Abs, names. destruct (HasPrefix path "/") eqn:E; [by rewrite filepath_Clean_abs|].
  cbn [filepath_Join]. destruct (String.eqb_spec wd "") as [->|]; [done|]. change (Join [wd; path] "/") with (wd +:+ "/" +:+ path).
  rewrite filepath_Clean_abs; [done|]. apply HasPrefix_spec in Hw as [r ->]. apply HasPrefix_spec. exists (r +:+ "/" +:+ path).
  reflexivity.
Qed.

Lemma Clean_names_abs wd path : HasPrefix wd "/" = true -> path <> "" -> Clean (inr wd) path = inr (abs_path (names wd path)).
Proof.
  intros Hw Hp. unfold Clean. rewrite (proj2 (String.eqb_neq _ _) Hp), filepath_Abs_names by done.
  assert (H : existsb (fun seg => String.eqb seg "..") (Split (abs_path (names wd path)) slash) = false); [|by rewrite H].
  pose proof (names_ok wd path) as Hn. revert Hn. generalize (names wd path) as es. intros es H.
  change (abs_path es) with ("" +:+ String slash (Join es "/")). rewrite Split_app. cbn [Split app existsb String.eqb orb].
  destruct es as [|e es]; [done|]. revert e H. induction es as [|e' es IH]; intros e H; inversion_clear H as [|? ? He Hes];
    unfold name_ok in He; rewrite !andb_true_iff, !negb_true_iff in He; destruct He as [[_ He] Hb].
  - cbn [Join String.concat]. rewrite Split_no_byte by done. cbn. by rewrite He.
  - change (Join (e :: e' :: es) "/") with (e +:+ String slash (Join (e' :: es) "/")). rewrite Split_app, existsb_app, IH by done.
    rewrite Split_no_byte by done. cbn. by rewrite He.
Qed.

(** ** Containment *)

Lemma cut_eq a b r r' : no_byte slash a = true -> no_byte slash b = true -> a +:+ String slash r = b +:+ String slash r' -> a = b /\ r = r'.
Proof.
  intros Ha Hb E. assert (ES := f_equal (fun s => hd "" (Split s slash)) E). cbv beta in ES.
  rewrite !Split_app, (Split_no_byte a), (Split_no_byte b) in ES by done. cbn in ES. subst b. split; [done|].
  apply string_app_inj_l in E. by injection E.
Qed.

Lemma HasPrefix_cons e e' r r' : no_byte slash e = true -> no_byte slash e' = true ->
  (e = e' /\ HasPrefix r' r = true) <-> HasPrefix (e' +:+ "/" +:+ r') (e +:+ "/" +:+ r) = true.
Proof.
  intros He He'. rewrite !HasPrefix_spec. split.
  - intros [-> [x ->]]. exists x. by rewrite !string_app_assoc.
  - intros [x E]. rewrite <-!string_app_assoc in E. apply cut_eq in E as [-> ->]; [|done..]. split; [done|]. by exists x.
Qed.

Lemma slashed_prefix es es' : Forall (fun e => name_ok e = true) es -> Forall (fun e => name_ok e = true) es' ->
  HasPrefix (slashed es') (slashed es) = true <-> es `prefix_of` es'.
Proof.
  intros H. revert es'. induction H as [|e es He _ IH]; intros es' H'.
  - split; [intros _; apply prefix_nil|]. intros _. by apply HasPrefix_spec; eexists.
  - assert (Hb : no_byte slash e = true) by (unfold name_ok in He; by apply andb_true_iff in He as [_ ?]).
    destruct H' as [|e' es' He' H'].
    + split; [|by intros [? [=]]]. intros [r E]%HasPrefix_spec. exfalso. revert E. cbn. by destruct e.
    + assert (Hb' : no_byte slash e' = true) by (unfold name_ok in He'; by apply andb_true_iff in He' as [_ ?]).
      cbn [slashed fold_right]. fold (slashed es) (slashed es'). rewrite <-(HasPrefix_cons e e') by done. split.
      * intros [-> E]. apply IH in E; [|done]. by apply prefix_cons.
      * intros E. split; [by apply prefix_cons_inv_1 in E|]. apply IH; [done|]. by apply prefix_cons_inv_2 in E.
Qed.

Lemma abs_path_slashed es : es <> [] -> abs_path es +:+ "/" = "/" +:+ slashed es.
Proof. intros H. unfold abs_path. by rewrite <-string_app_assoc, Join_slashed. Qed.

Lemma abs_path_suffix es : Forall (fun e => name_ok e = true) es -> HasSuffix (abs_path es) "/" = true -> es = [].
Proof.
  intros H [r E]%HasSuffix_spec. destruct es as [|e es]; [done|]. exfalso.
  assert (HS := Split_abs_path (e :: es) H). rewrite E in HS. change (r +:+ "/") with (r +:+ String slash "") in E.
  (* the last name would be empty *)
  assert (HL : last (Split (abs_path (e :: es)) slash) = Some "").
  { rewrite E, Split_app. cbn [Split]. by rewrite last_snoc. }
  clear HS E r. change (abs_path (e :: es)) with ("" +:+ String slash (Join (e :: es) "/")) in HL. rewrite Split_app in HL.
  revert e H HL. induction es as [|e' es IH]; intros e H HL; inversion_clear H as [|? ? He Hes];
    unfold name_ok in He; rewrite !andb_true_iff, !negb_true_iff in He; destruct He as [[[He _] _] Hb].
  - cbn [Join String.concat] in HL. rewrite (Split_no_byte e) in HL by done. change (Some e = Some "") in HL. by injection HL as ->.
  - change (Join (e :: e' :: es) "/") with (e +:+ String slash (Join (e' :: es) "/")) in HL.
    rewrite Split_app, (Split_no_byte e) in HL by done. apply (IH e'); [done|]. rewrite <-HL.
    cbn [Split app]. rewrite !last_cons. pose proof (Split_nonempty (Join (e' :: es) "/") slash).
    by destruct (last (Split (Join (e' :: es) "/") slash)) eqn:El; [|apply last_None in El].
Qed.

(** Containment is a prefix of the names. *)
Lemma UnderRoot_names wd p root : HasPrefix wd "/" = true -> p <> "" -> root <> "" ->
  UnderRoot (inr wd) p root = if decide (names wd root `prefix_of` names wd p) then None else Some ErrEscapes.
Proof.
  intros Hw Hp Hr. unfold UnderRoot. rewrite !Clean_names_abs by done. pose proof (names_ok wd p) as HP. pose proof (names_ok wd root) as HR.
  revert HP HR. generalize (names wd p) as es, (names wd root) as rs. intros es rs HP HR.
  assert (HR2 : (if HasSuffix (abs_path rs) "/" then abs_path rs else abs_path rs +:+ "/") = "/" +:+ slashed rs).
  { destruct (HasSuffix (abs_path rs) "/") eqn:E; [by apply abs_path_suffix in E as ->|]. apply abs_path_slashed. by intros ->. }
  rewrite HR2. assert (HX : HasPrefix (abs_path es +:+ "/") ("/" +:+ slashed rs) = true <-> rs `prefix_of` es).
  { destruct es as [|e es].
    - destruct rs as [|r rs]; [split; [intros _; apply prefix_nil|done]|]. split; [|by intros [? [=]]].
      intros [x E]%HasPrefix_spec. exfalso. inversion_clear HR as [|? ? Hn _]. unfold name_ok in Hn.
      rewrite !andb_true_iff, !negb_true_iff in Hn. destruct Hn as [[[Hn _] _] Hb]. cbn in E. destruct r as [|c r]; [done|].
      cbn in E. injection E as <- _. unfold no_byte in Hb. by cbn in Hb.
    - rewrite abs_path_slashed by done. rewrite <-slashed_prefix by done. rewrite !HasPrefix_spec. split; intros [x E]; exists x.
      + rewrite <-string_app_assoc in E. by apply string_app_inj_l in E.
      + by rewrite E, string_app_assoc. }
  case_decide as D; [by rewrite (proj2 HX D)|]. destruct (HasPrefix (abs_path es +:+ "/") _); [|done]. by destruct D; apply HX.
Qed.

(** A path is under a root exactly when the names of the root are the first names of the
    path: with an absolute working directory the guard never fails for another reason, it
    is not fooled by a common prefix of two names, and dots are resolved before it looks. *)
Theorem UnderRoot_spec wd p root : HasPrefix wd "/" = true -> p <> "" -> root <> "" ->
  UnderRoot (inr wd) p root = if decide (names wd root `prefix_of` names wd p) then None else Some ErrEscapes.
Proof. apply UnderRoot_names. Qed.

(** A path that is not empty is always made clean: the result is absolute, its names are
    neither empty nor dots, and cleaning it again, from anywhere, changes nothing; the check
    for a remaining dot-dot never fires. *)
Theorem Clean_spec wd p : HasPrefix wd "/" = true -> p <> "" ->
  exists es, Clean (inr wd) p = inr (abs_path es) /\ Forall (fun e => name_ok e = true) es /\
    forall wd', HasPrefix wd' "/" = true -> Clean (inr wd') (abs_path es) = inr (abs_path es).
Proof.
  intros Hw Hp. exists (names wd p). split; [by apply Clean_names_abs|]. pose proof (names_ok wd p) as HN. split; [done|].
  intros wd' Hw'. rewrite Clean_names_abs by done. f_equal. f_equal. unfold names at 1.
  assert (HasPrefix (abs_path (names wd p)) "/" = true) as -> by (apply HasPrefix_spec; by eexists). by apply Split_abs_path.
Qed.

(** ** The files of a cycle stay in their directory *)

Lemma clean_elems_snoc es f : name_ok f = true -> clean_elems true (es ++ [f]) = (clean_elems true es ++ [f])%list.
Proof.
  intros Hf. unfold clean_elems. rewrite foldl_snoc. unfold clean_elem at 1. unfold name_ok in Hf.
  destruct (String.eqb f ""), (String.eqb f "."), (String.eqb f ".."); try discriminate Hf. done.
Qed.

Lemma join_name dir f : HasPrefix dir "/" = true -> name_ok f = true ->
  filepath_Join [dir; f] = abs_path (clean_elems true (Split dir slash) ++ [f]).
Proof.
  intros Hd Hf. cbn [filepath_Join]. destruct (String.eqb_spec dir "") as [->|]; [done|]. change (Join [dir; f] "/") with (dir +:+ String slash f).
  rewrite filepath_Clean_abs.
  - rewrite Split_app, (Split_no_byte f), clean_elems_snoc; [done|done|]. unfold name_ok in Hf. by apply andb_true_iff in Hf as [_ ?].
  - apply HasPrefix_spec in Hd as [r ->]. apply HasPrefix_spec. by eexists.
Qed.

Lemma no_byte_app c a b : no_byte c (a +:+ b) = no_byte c a && no_byte c b.
Proof. apply string_forall_app. Qed.

Lemma cycle_name_ok id suffix : no_byte slash id = true -> no_byte slash suffix = true -> name_ok ("cycle-" +:+ id +:+ suffix) = true.
Proof. intros H H'. unfold name_ok. rewrite !no_byte_app, H, H'. done. Qed.

Lemma join_name_under wd dir f : HasPrefix dir "/" = true -> HasPrefix wd "/" = true -> name_ok f = true ->
  names wd dir `prefix_of` names wd (filepath_Join [dir; f]) /\ filepath_Join [dir; f] <> "".
Proof.
  intros Hd Hw Hf. rewrite join_name by done. unfold names at 2. rewrite (proj2 (HasPrefix_spec (abs_path _) "/")) by by eexists.
  rewrite Split_abs_path.
  - unfold names. rewrite Hd. split; [by apply prefix_app_r|done].
  - apply Forall_app. split; [apply clean_elems_ok, Split_no_slash|by constructor].
Qed.

Lemma last_byte_inj a b c d : a +:+ String c "" = b +:+ String d "" -> c = d.
Proof.
  intros E. assert (String.length a = String.length b) as Hl.
  { apply (f_equal String.length) in E. rewrite !string_length_app in E. cbn in E. lia. }
  apply string_app_inj_len in E as [_ [= ->]]; done.
Qed.

(** The state file and the ledger of a cycle lie in the directory of the cycles, no two
    cycles share a file, and no state file is a ledger, for ids that hold no slash. *)
Theorem cycle_paths wd dir id id' : HasPrefix wd "/" = true -> HasPrefix dir "/" = true ->
  no_byte slash id = true -> no_byte slash id' = true ->
  UnderRoot (inr wd) (statePath dir id) dir = None /\ UnderRoot (inr wd) (ledgerPath dir id) dir = None /\
  (statePath dir id = statePath dir id' -> id = id') /\ (ledgerPath dir id = ledgerPath dir id' -> id = id') /\
  statePath dir id <> ledgerPath dir id'.
Proof.
  intros Hw Hd Hi Hi'. unfold statePath, ledgerPath, cycles_dir.
  assert (Hne : dir <> "") by (by intros ->). rewrite (proj2 (String.eqb_neq _ _) Hne).
  assert (HU : forall f, name_ok f = true -> UnderRoot (inr wd) (filepath_Join [dir; f]) dir = None).
  { intros f Hf. destruct (join_name_under wd dir f Hd Hw Hf) as [H1 H2]. rewrite UnderRoot_names by done. by case_decide. }
  assert (HJ : forall f f', name_ok f = true -> name_ok f' = true -> filepath_Join [dir; f] = filepath_Join [dir; f'] -> f = f').
  { intros f f' Hf Hf' E. rewrite !join_name in E by done. apply (f_equal (fun p => clean_elems true (Split p slash))) in E.
    rewrite !Split_abs_path in E; [|apply Forall_app; split; [apply clean_elems_ok, Split_no_slash|by constructor]..]. by apply app_inj_tail in E as [_ ?]. }
  assert (HN : forall i s, no_byte slash i = true -> no_byte slash s = true -> name_ok ("cycle-" +:+ i +:+ s) = true) by (intros; by apply cycle_name_ok).
  split_and!.
  - by apply HU, HN.
  - by apply HU, HN.
  - intros E%HJ; [|by apply HN..]. apply string_app_inj_l in E. by apply string_app_inj_r in E.
  - intros E%HJ; [|by apply HN..]. apply string_app_inj_l in E. by apply string_app_inj_r in E.
  - intros E%HJ; [|by apply HN..]. apply string_app_inj_l in E.
    apply (f_equal (fun s => HasSuffix s "n")) in E.
    assert (HasSuffix (id +:+ ".json") "n" = true) as Hn by (apply HasSuffix_spec; exists (id +:+ ".jso"); by rewrite <-string_app_assoc).
    rewrite Hn in E. symmetry in E. apply HasSuffix_spec in E as [a E]. replace (id' +:+ "-ledger.jsonl") with ((id' +:+ "-ledger.json") +:+ "l") in E
      by by rewrite <-string_app_assoc. by apply last_byte_inj in E.
Qed.

(** An id that holds slashes leaves the directory; no handler looks for them. *)
Example state_path_escapes : statePath "/h/.rallish/cycles" "/../../x" = "/h/.rallish/x.json" /\
  UnderRoot (inr "/") (statePath "/h/.rallish/cycles" "/../../x") "/h/.rallish/cycles" = Some ErrEscapes.
Proof. vm_compute. split; reflexivity. Qed.

Lemma UnderRoot_spec_witness : UnderRoot (inr "/w") "../w/a/./../b" "/w" = None /\ UnderRoot (inr "/w") "/wa" "/w" = Some ErrEscapes.
Proof.
  split.
  - rewrite (UnderRoot_spec "/w" "../w/a/./../b" "/w" eq_refl); [vm_compute; reflexivity|discriminate|discriminate].
  - rewrite (UnderRoot_spec "/w" "/wa" "/w" eq_refl); [vm_compute; reflexivity|discriminate|discriminate].
Defined.

Lemma Clean_spec_witness : exists es, Clean (inr "/w") "a//b/../c" = inr (abs_path es) /\ Forall (fun e => name_ok e = true) es /\
    forall wd', HasPrefix wd' "/" = true -> Clean (inr wd') (abs_path es) = inr (abs_path es).
Proof. apply (Clean_spec "/w" "a//b/../c"); [reflexivity|discriminate]. Defined.

Lemma cycle_paths_witness :
  UnderRoot (inr "/w") (statePath "/h/.rallish/cycles" "cyc_1") "/h/.rallish/cycles" = None /\
  UnderRoot (inr "/w") (ledgerPath "/h/.rallish/cycles" "cyc_1") "/h/.rallish/cycles" = None /\
  (statePath "/h/.rallish/cycles" "cyc_1" = statePath "/h/.rallish/cycles" "cyc_2" -> "cyc_1" = "cyc_2") /\
  (ledgerPath "/h/.rallish/cycles" "cyc_1" = ledgerPath "/h/.rallish/cycles" "cyc_2" -> "cyc_1" = "cyc_2") /\
  statePath "/h/.rallish/cycles" "cyc_1" <> ledgerPath "/h/.rallish/cycles" "cyc_2".
Proof. apply (cycle_paths "/w" "/h/.rallish/cycles" "cyc_1" "cyc_2"); reflexivity. Defined.
