(* ===== verification/Connect.v ===== *)
(** * Finding the daemon

    [internal/cli/broker_client.go], the parts of [internal/cli/daemon.go], [squash.go] and
    [internal/ipc/socket.go] that announce and find a daemon: the files [socket] and [port] of
    the directory [.rallish], which outlive a daemon that was killed, and the probes that tell
    a live daemon from what a dead one left.  Daemons start, announce themselves, serve, stop
    and die, clients look for them, and other processes take ports, each a step at a time and
    in any order: a step is one access to the host. *)

From S2P Require Import Prelude GoStrings Paths.
From Stdlib Require Import Ascii String.
#[local] Open Scope string_scope.

(** ** The host *)

(** The files, the socket files with the process that listens there ([None]: nobody any
    more), and the ports with theirs. *)
Record Host := mkHost { ho_files : gmap string string; ho_sock : gmap string (option nat); ho_ports : gmap string nat }.
#[export] Instance eta_Host : Eta Host := fun r => mkHost (ho_files r) (ho_sock r) (ho_ports r).

Definition remove_file (path : string) (h : Host) : Host := h <| ho_files := delete path (ho_files h) |>.
Definition write_file (path text : string) (h : Host) : Host := h <| ho_files := <[path := text]> (ho_files h) |>.

(** No file, or nobody who answers: no live daemon. *)
(* src: internal/cli/daemon.go 139-152 dialExistingDaemon *)
Definition dialExistingDaemon (h : Host) (socketPath : string) : bool :=
  match ho_sock h !! socketPath with Some (Some _) => true | _ => false end.

(* src: internal/cli/broker_client.go 114-124 dialPort *)
Definition dialPort (h : Host) (port : string) : bool :=
  if String.eqb port "" then false else match ho_ports h !! port with Some _ => true | None => false end.

(* src: internal/cli/squash.go 276-282 readPortFile *)
Definition readPortFile (h : Host) (path : string) : option string := TrimSpace <$> (ho_files h !! path).

(** [filepath.Rel] of two clean absolute paths, on their names. *)
Fixpoint rel_names (base targ : list string) : list string :=
  match base, targ with
  | b :: base', t :: targ' => if String.eqb b t then rel_names base' targ' else (map (fun _ => "..") base ++ targ)%list
  | _, _ => (map (fun _ => "..") base ++ targ)%list
  end.
Definition filepath_Rel (base targ : string) : string :=
  match rel_names (clean_elems true (Split base slash)) (clean_elems true (Split targ slash)) with [] => "." | ns => Join ns "/" end.

(* src: internal/cli/squash.go 256-274 socketUnderRoot *)
Definition socketUnderRoot (cwd : string + string) (path sockDir : string) : bool :=
  match filepath_Abs cwd path, filepath_Abs cwd sockDir with
  | inr absPath, inr absDir =>
      let rel := filepath_Rel (filepath_Clean absDir) (filepath_Clean absPath) in
      negb (String.eqb rel "..") && negb (HasPrefix rel "../")
  | _, _ => false
  end.

(** ** Resolving *)

(* src: internal/cli/broker_client.go 17-21 brokerClient *)
Inductive Via : Set := OverSocket (path : string) | OverPort (port : string).
Record brokerClient := mkBrokerClient { bc_via : Via; bc_Timeout : Z }.

(* src: internal/cli/broker_client.go 55 resolveBrokerClient *)
Definition bc_URL (c : brokerClient) : string :=
  match bc_via c with OverSocket _ => "http://rallish.local" | OverPort port => "http://127.0.0.1:" +:+ port end.

(** The daemon of the client answers. *)
Definition reaches (h : Host) (v : Via) : bool :=
  match v with OverSocket path => dialExistingDaemon h path | OverPort port => dialPort h port end.

(** Who listens where a client is connected to. *)
Definition listener (h : Host) (v : Via) : option nat :=
  match v with
  | OverSocket path => match ho_sock h !! path with Some (Some pid) => Some pid | _ => None end
  | OverPort port => ho_ports h !! port
  end.

Section Resolve.
Variable homeDir : string.
Variable cwd : string + string.

Definition sockDir : string := filepath_Join [homeDir; ".rallish"].
Definition socketFile : string := filepath_Join [sockDir; "socket"].
Definition portFile : string := filepath_Join [sockDir; "port"].
Definition sockPath : string := filepath_Join [sockDir; "rallish.sock"].

(** The socket the pointer names, when the pointer is to be followed. *)
(* src: internal/cli/broker_client.go 38-42 resolveBrokerClient *)
Definition pointer (h : Host) : option string :=
  match ho_files h !! socketFile with
  | Some text => let trimmed := TrimSpace text in
                 if negb (String.eqb trimmed "") && socketUnderRoot cwd trimmed sockDir then Some trimmed else None
  | None => None
  end.

(** [None] is the error [errBrokerNotRunning], the only one. *)
(* src: internal/cli/broker_client.go 34-75 resolveBrokerClient *)
Definition resolveBrokerClient (connectTimeout : Z) (h : Host) : Host * option brokerClient :=
  let connectTimeout := if (connectTimeout =? 0)%Z then 30000000000%Z else connectTimeout in
  let by_port (h : Host) :=
    match readPortFile h portFile with
    | None => (h, None)
    | Some port => if dialPort h port then (h, Some (mkBrokerClient (OverPort port) connectTimeout)) else (remove_file portFile h, None)
    end in
  match pointer h with
  | Some path =>
      if dialExistingDaemon h path then (h, Some (mkBrokerClient (OverSocket path) connectTimeout))
      else by_port (remove_file socketFile h)
  | None => by_port h
  end.

(** The polls after the daemon was started; [elapse] is what happens on the host while the
    client sleeps. *)
(* src: internal/cli/broker_client.go 94-106 ensureBrokerClient *)
Fixpoint poll_daemon (n : nat) (elapse : Host -> Host) (connectTimeout : Z) (h : Host) : Host * option brokerClient :=
  match n with
  | O => (h, None)
  | S n =>
      match resolveBrokerClient connectTimeout (elapse h) with
      | (h, Some bc) => (h, Some bc)
      | (h, None) => poll_daemon n elapse connectTimeout h
      end
  end.

(* src: internal/cli/broker_client.go 83-107 ensureBrokerClient *)
Definition ensureBrokerClient (startDaemon : Host -> option Host) (elapse : Host -> Host) (connectTimeout : Z) (h : Host)
    : Host * option brokerClient :=
  match resolveBrokerClient connectTimeout h with
  | (h, Some bc) => (h, Some bc)
  | (h, None) => match startDaemon h with None => (h, None) | Some h => poll_daemon 20 elapse connectTimeout h end
  end.

(** The polls of [squash], which look at the port file only and do not probe it. *)
(* src: internal/cli/squash.go 101-107 RunSquash *)
Fixpoint poll_port (n : nat) (elapse : Host -> Host) (h : Host) : Host * option string :=
  match n with
  | O => (h, None)
  | S n => match readPortFile h portFile with Some port => (h, Some port) | None => poll_port n elapse (elapse h) end
  end.

(* src: internal/cli/squash.go 59-117 RunSquash *)
Definition squash_connect (startDaemon : Host -> option Host) (elapse : Host -> Host) (h : Host) : Host * option brokerClient :=
  let client := 30000000000%Z in
  match (match pointer h with Some path => if dialExistingDaemon h path then Some path else None | None => None end) with
  | Some path => (h, Some (mkBrokerClient (OverSocket path) client))
  | None =>
      let h := match pointer h with Some _ => remove_file socketFile h | None => h end in
      match readPortFile h portFile with
      | Some port =>
          if dialPort h (TrimSpace port) then (h, Some (mkBrokerClient (OverPort (TrimSpace port)) client))
          else
            let h := remove_file portFile h in
            match startDaemon h with
            | None => (h, None)
            | Some h => match poll_port 20 elapse h with
                        | (h, Some port) => (h, Some (mkBrokerClient (OverPort (TrimSpace port)) client))
                        | (h, None) => (h, None)
                        end
            end
      | None =>
          match startDaemon h with
          | None => (h, None)
          | Some h => match poll_port 20 elapse h with
                      | (h, Some port) => (h, Some (mkBrokerClient (OverPort (TrimSpace port)) client))
                      | (h, None) => (h, None)
                      end
          end
      end
  end.

(** ** A lookup, an access at a time *)

(** What a client that resolves does next: read the pointer; dial the socket it names; remove
    the pointer; read the port file; dial the port; remove the port file; it has ended. *)
Inductive Lookup : Set :=
| LkPointer | LkDial (path : string) | LkDropSocket | LkReadPort | LkDialPort (port : string) | LkDropPort
| LkDone (found : option Via).

(* src: internal/cli/broker_client.go 34-75 resolveBrokerClient *)
Definition look (k : Lookup) (h : Host) : option (Host * Lookup) :=
  match k with
  | LkPointer => Some (h, match pointer h with Some path => LkDial path | None => LkReadPort end)
  | LkDial path => Some (h, if dialExistingDaemon h path then LkDone (Some (OverSocket path)) else LkDropSocket)
  | LkDropSocket => Some (remove_file socketFile h, LkReadPort)
  | LkReadPort => Some (h, match readPortFile h portFile with Some port => LkDialPort port | None => LkDone None end)
  | LkDialPort port => Some (h, if dialPort h port then LkDone (Some (OverPort port)) else LkDropPort)
  | LkDropPort => Some (remove_file portFile h, LkDone None)
  | LkDone _ => None
  end.

(** ** The daemon *)

(** What a daemon that shuts down removes. *)
Inductive Cleanup : Set := RmSocket | RmPointer | RmPort.

(** How far a daemon is: its port listens; the port file is open, and empty; it is written;
    nobody answered on the socket; what was there is removed; it listens on the socket; the
    pointer file is open, and empty; it serves, with a socket or without; its listeners are
    closed, and it removes its files. *)
Inductive Stage : Set :=
| Bound (port : string) | Opened (port : string) | Announced (port : string) | Checked (port : string) | Cleared (port : string)
| Listening (port : string) | Pointing (port : string) | Serving (port : string) (unix : bool)
| Closing (port : string) (todo : list Cleanup).

Definition stage_port (s : Stage) : string :=
  match s with
  | Bound p | Opened p | Announced p | Checked p | Cleared p | Listening p | Pointing p | Serving p _ | Closing p _ => p
  end.

Record System := mkSystem { sy_host : Host; sy_daemons : gmap nat Stage; sy_clients : gmap nat Lookup; sy_next : nat }.
#[export] Instance eta_System : Eta System := fun r => mkSystem (sy_host r) (sy_daemons r) (sy_clients r) (sy_next r).

(** [ok]: the access succeeds. *)
Inductive Step : Set :=
| DListen (port : string)                 (** a daemon starts: a port nobody has *)
| DOpenPort (pid : nat) (ok : bool)       (** it opens the port file, *)
| DWritePort (pid : nat) (ok : bool)      (** and writes it *)
| DCheck (pid : nat)                      (** it looks for another daemon *)
| DRemove (pid : nat) (ok : bool)         (** it removes what is at the path of the socket *)
| DBind (pid : nat) (ok : bool)           (** it listens there *)
| DOpenPointer (pid : nat) (ok : bool)    (** it opens the pointer file, *)
| DWritePointer (pid : nat) (ok : bool)   (** and writes it *)
| DClose (pid : nat)                      (** it shuts down: its listeners are closed *)
| DClean (pid : nat)                      (** it removes its next file, or ends *)
| DKill (pid : nat)                       (** it dies *)
| FListen (port : string)                 (** some other process takes a port nobody has *)
| FClose (port : string)                  (** and gives it back *)
| CStart (c : nat)                        (** a client resolves *)
| CLook (c : nat)                         (** the next access of its lookup *)
| CEnd (c : nat).                         (** it goes on with what it found *)

(** The sockets when nobody runs as [pid] any more. *)
Definition orphan (pid : nat) (socks : gmap string (option nat)) : gmap string (option nat) :=
  (fun o => if bool_decide (o = Some pid) then None else o) <$> socks.

Definition close_port (pid : nat) (port : string) (ports : gmap string nat) : gmap string nat :=
  if bool_decide (ports !! port = Some pid) then delete port ports else ports.

(** The listeners of a process are closed: nobody has its port, its socket has no listener. *)
Definition close_all (pid : nat) (port : string) (h : Host) : Host :=
  h <| ho_ports := close_port pid port (ho_ports h) |> <| ho_sock := orphan pid (ho_sock h) |>.

(** The process is gone. *)
Definition process_end (pid : nat) (port : string) (s : System) : System :=
  s <| sy_host := close_all pid port (sy_host s) |> <| sy_daemons := delete pid (sy_daemons s) |>.

(** The text of a file that is open; a file that was removed since keeps its name no more. *)
Definition write_open (path text : string) (h : Host) : Host :=
  match ho_files h !! path with Some _ => write_file path text h | None => h end.

Definition at_stage (pid : nat) (st : Stage) (h : Host) (s : System) : System :=
  s <| sy_host := h |> <| sy_daemons := <[pid := st]> (sy_daemons s) |>.

(* src: internal/cli/daemon.go 48-51 RunDaemon *)
Definition daemon_listen (port : string) (s : System) : option System :=
  match ho_ports (sy_host s) !! port with
  | Some _ => None
  | None => Some (at_stage (sy_next s) (Bound port) ((sy_host s) <| ho_ports := <[port := sy_next s]> (ho_ports (sy_host s)) |>) s
                    <| sy_next := S (sy_next s) |>)
  end.

(** The port file is opened, which empties it, and then written ([os.WriteFile]); a failure ends
    the daemon. *)
(* src: internal/cli/daemon.go 53-57 RunDaemon *)
Definition daemon_announce (pid : nat) (ok : bool) (s : System) : option System :=
  match sy_daemons s !! pid with
  | Some (Bound port) =>
      Some (if ok then at_stage pid (Opened port) (write_file portFile "" (sy_host s)) s else process_end pid port s)
  | Some (Opened port) =>
      Some (if ok then at_stage pid (Announced port) (write_open portFile port (sy_host s)) s else process_end pid port s)
  | _ => None
  end.

(** A live daemon on the socket ends this one, which leaves the port file as it wrote it. *)
(* src: internal/cli/daemon.go 82-86 RunDaemon *)
Definition daemon_check (pid : nat) (s : System) : option System :=
  match sy_daemons s !! pid with
  | Some (Announced port) =>
      Some (if dialExistingDaemon (sy_host s) sockPath then process_end pid port s else at_stage pid (Checked port) (sy_host s) s)
  | _ => None
  end.

(** What is at the path of the socket is removed first, whoever listens there; a failure is
    logged. *)
(* src: internal/cli/daemon.go 88-90 RunDaemon *)
Definition daemon_remove (pid : nat) (ok : bool) (s : System) : option System :=
  match sy_daemons s !! pid with
  | Some (Checked port) =>
      let h := sy_host s in
      Some (at_stage pid (Cleared port) (if ok then h <| ho_sock := delete sockPath (ho_sock h) |> else h) s)
  | _ => None
  end.

(** Nothing may be at the path; a daemon without a socket serves its port. *)
(* src: internal/cli/daemon.go 92-116 RunDaemon *)
Definition daemon_bind (pid : nat) (ok : bool) (s : System) : option System :=
  match sy_daemons s !! pid with
  | Some (Cleared port) =>
      let h := sy_host s in
      Some (match ho_sock h !! sockPath, ok with
            | None, true => at_stage pid (Listening port) (h <| ho_sock := <[sockPath := Some pid]> (ho_sock h) |>) s
            | _, _ => at_stage pid (Serving port false) h s
            end)
  | _ => None
  end.

(** A pointer that cannot be opened or written is logged, and the daemon serves. *)
(* src: internal/cli/daemon.go 101-112 RunDaemon *)
Definition daemon_point (pid : nat) (ok : bool) (s : System) : option System :=
  match sy_daemons s !! pid with
  | Some (Listening port) =>
      Some (if ok then at_stage pid (Pointing port) (write_file socketFile "" (sy_host s)) s else at_stage pid (Serving port true) (sy_host s) s)
  | Some (Pointing port) =>
      Some (at_stage pid (Serving port true) (if ok then write_open socketFile sockPath (sy_host s) else sy_host s) s)
  | _ => None
  end.

(** Closing the socket removes what is at its path. *)
(* src: internal/cli/daemon.go 61-75 RunDaemon *)
Definition daemon_close (pid : nat) (s : System) : option System :=
  match sy_daemons s !! pid with
  | Some (Serving port unix) =>
      let h := close_all pid port (sy_host s) in
      Some (at_stage pid (Closing port (if unix then [RmSocket; RmPointer; RmPort] else [RmPort]))
              (if unix then h <| ho_sock := delete sockPath (ho_sock h) |> else h) s)
  | _ => None
  end.

(* src: internal/cli/daemon.go 117-130 RunDaemon *)
Definition daemon_clean (pid : nat) (s : System) : option System :=
  match sy_daemons s !! pid with
  | Some (Closing port []) => Some (process_end pid port s)
  | Some (Closing port (f :: todo)) =>
      let h := sy_host s in
      Some (at_stage pid (Closing port todo)
              (match f with
               | RmSocket => h <| ho_sock := delete sockPath (ho_sock h) |>
               | RmPointer => remove_file socketFile h
               | RmPort => remove_file portFile h
               end) s)
  | _ => None
  end.

Definition daemon_kill (pid : nat) (s : System) : option System :=
  match sy_daemons s !! pid with Some st => Some (process_end pid (stage_port st) s) | None => None end.

(** Other processes, which are no daemons. *)
Definition foreign_listen (port : string) (s : System) : option System :=
  match ho_ports (sy_host s) !! port with
  | Some _ => None
  | None => Some (s <| sy_host := (sy_host s) <| ho_ports := <[port := sy_next s]> (ho_ports (sy_host s)) |> |> <| sy_next := S (sy_next s) |>)
  end.
Definition foreign_close (port : string) (s : System) : option System :=
  match ho_ports (sy_host s) !! port with
  | Some q => match sy_daemons s !! q with
              | Some _ => None
              | None => Some (s <| sy_host := (sy_host s) <| ho_ports := delete port (ho_ports (sy_host s)) |> |>)
              end
  | None => None
  end.

Definition client_look (c : nat) (s : System) : option System :=
  match sy_clients s !! c with
  | Some k => match look k (sy_host s) with
              | Some (h, k) => Some (s <| sy_host := h |> <| sy_clients := <[c := k]> (sy_clients s) |>)
              | None => None
              end
  | None => None
  end.

(** [None]: the step cannot happen now. *)
Definition step (e : Step) (s : System) : option System :=
  match e with
  | DListen port => if String.eqb port "" || negb (String.eqb (TrimSpace port) port) then None else daemon_listen port s
  | DOpenPort pid ok => match sy_daemons s !! pid with Some (Bound _) => daemon_announce pid ok s | _ => None end
  | DWritePort pid ok => match sy_daemons s !! pid with Some (Opened _) => daemon_announce pid ok s | _ => None end
  | DCheck pid => daemon_check pid s
  | DRemove pid ok => daemon_remove pid ok s
  | DBind pid ok => daemon_bind pid ok s
  | DOpenPointer pid ok => match sy_daemons s !! pid with Some (Listening _) => daemon_point pid ok s | _ => None end
  | DWritePointer pid ok => match sy_daemons s !! pid with Some (Pointing _) => daemon_point pid ok s | _ => None end
  | DClose pid => daemon_close pid s
  | DClean pid => daemon_clean pid s
  | DKill pid => daemon_kill pid s
  | FListen port => foreign_listen port s
  | FClose port => foreign_close port s
  | CStart c => match sy_clients s !! c with Some _ => None | None => Some (s <| sy_clients := <[c := LkPointer]> (sy_clients s) |>) end
  | CLook c => client_look c s
  | CEnd c => match sy_clients s !! c with
              | Some (LkDone _) => Some (s <| sy_clients := delete c (sy_clients s) |>)
              | _ => None
              end
  end.
End Resolve.

(** ** The paths *)

Section Paths.
Variable homeDir : string.
Variable cwd : string + string.
Hypothesis home_abs : HasPrefix homeDir "/" = true.
Abbreviation sockDir := (sockDir homeDir).
Abbreviation socketFile := (socketFile homeDir).
Abbreviation portFile := (portFile homeDir).
Abbreviation sockPath := (sockPath homeDir).

Definition dir_names : list string := (clean_elems true (Split homeDir slash) ++ [".rallish"])%list.

Lemma dir_names_ok : Forall (fun e => name_ok e = true) dir_names.
Proof. apply Forall_app; split; [apply clean_elems_ok, Split_no_slash|by constructor]. Qed.

Lemma sockDir_abs : sockDir = abs_path dir_names.
Proof. by apply join_name. Qed.

Lemma in_dir f : name_ok f = true -> filepath_Join [sockDir; f] = abs_path (dir_names ++ [f]).
Proof.
  intros Hf. rewrite join_name; [|rewrite sockDir_abs; apply HasPrefix_spec; by eexists|done].
  rewrite sockDir_abs at 1. by rewrite Split_abs_path by apply dir_names_ok.
Qed.

Lemma in_dir_names f : name_ok f = true -> clean_elems true (Split (filepath_Join [sockDir; f]) slash) = (dir_names ++ [f])%list.
Proof. intros Hf. rewrite in_dir by done. apply Split_abs_path. apply Forall_app; split; [apply dir_names_ok|by constructor]. Qed.

Lemma in_dir_inj f f' : name_ok f = true -> name_ok f' = true -> filepath_Join [sockDir; f] = filepath_Join [sockDir; f'] -> f = f'.
Proof. intros Hf Hf' E. apply (f_equal (fun p => clean_elems true (Split p slash))) in E. rewrite !in_dir_names in E by done. by apply app_inj_tail in E as [_ ?]. Qed.

Lemma socket_port : socketFile <> portFile.
Proof. intros E%in_dir_inj; done. Qed.

Lemma clean_in_dir f : name_ok f = true -> filepath_Clean (filepath_Join [sockDir; f]) = filepath_Join [sockDir; f].
Proof.
  intros Hf. rewrite filepath_Clean_abs; [by rewrite in_dir_names, in_dir|]. rewrite in_dir by done. apply HasPrefix_spec. by eexists.
Qed.

Lemma rel_names_under base f : rel_names base (base ++ [f]) = [f].
Proof. induction base as [|b base IH]; [done|]. cbn [app rel_names]. by rewrite String.eqb_refl. Qed.

(** The daemon's socket is where pointers are followed. *)
Lemma sockPath_under : socketUnderRoot cwd sockPath sockDir = true.
Proof.
  assert (Ha : HasPrefix sockPath "/" = true) by (unfold Connect.sockPath; rewrite in_dir by done; apply HasPrefix_spec; by eexists).
  assert (Hd : HasPrefix sockDir "/" = true) by (rewrite sockDir_abs; apply HasPrefix_spec; by eexists).
  unfold socketUnderRoot, filepath_Abs. rewrite Ha, Hd.
  assert (E : filepath_Clean sockPath = sockPath) by by apply clean_in_dir. rewrite E.
  assert (E' : filepath_Clean sockDir = sockDir).
  { rewrite filepath_Clean_abs by done. rewrite sockDir_abs at 1. rewrite Split_abs_path by apply dir_names_ok. by rewrite sockDir_abs. }
  rewrite E', E', E. unfold filepath_Rel, Connect.sockPath. rewrite in_dir_names by done.
  rewrite sockDir_abs, Split_abs_path by apply dir_names_ok. by rewrite rel_names_under.
Qed.

Lemma trim_right_last a c : is_space c = false -> trim_right is_space (a +:+ String c "") = a +:+ String c "".
Proof.
  intros Hc. induction a as [|x a IH]; cbn [String.append trim_right]; [by rewrite Hc|]. rewrite IH.
  assert (String.eqb (a +:+ String c "") "" = false) as ->; [|done]. apply String.eqb_neq. by destruct a.
Qed.

Lemma sockPath_trim : TrimSpace sockPath = sockPath /\ sockPath <> "".
Proof.
  unfold Connect.sockPath. rewrite in_dir by done. unfold abs_path.
  assert (HJ : exists a, Join (dir_names ++ ["rallish.sock"]) "/" = a +:+ "k").
  { induction dir_names as [|e l [a IH]]; [by exists "rallish.soc"|]. destruct l as [|e' l].
    { exists (e +:+ "/" +:+ "rallish.soc"). change (Join ([e] ++ ["rallish.sock"]) "/") with (e +:+ "/" +:+ "rallish.sock"). by rewrite <-!string_app_assoc. }
    exists (e +:+ "/" +:+ a). change (Join ((e :: e' :: l) ++ ["rallish.sock"]) "/") with (e +:+ "/" +:+ Join ((e' :: l) ++ ["rallish.sock"]) "/").
    rewrite IH. by rewrite <-!string_app_assoc. }
  destruct HJ as [a ->]. split; [|done]. unfold TrimSpace. cbn [String.append trim_left]. change (is_space "/") with false. cbn iota.
  apply (trim_right_last ("/" +:+ a)). done.
Qed.
End Paths.

(** ** What resolving does *)

Section Resolving.
Variable homeDir : string.
Variable cwd : string + string.
Hypothesis home_abs : HasPrefix homeDir "/" = true.
Abbreviation socketFile := (socketFile homeDir).
Abbreviation portFile := (portFile homeDir).
Abbreviation sockPath := (sockPath homeDir).
Abbreviation pointer := (pointer homeDir cwd).
Abbreviation resolve := (resolveBrokerClient homeDir cwd).

(** The endpoint that is announced and answers. *)
Definition announced (h : Host) : option Via :=
  match (match pointer h with Some path => if dialExistingDaemon h path then Some path else None | None => None end) with
  | Some path => Some (OverSocket path)
  | None => match readPortFile h portFile with Some port => if dialPort h port then Some (OverPort port) else None | None => None end
  end.

Definition timeout_of (t : Z) : Z := if (t =? 0)%Z then 30000000000%Z else t.

Lemma pointer_removed h : pointer (remove_file socketFile h) = None.
Proof. unfold Connect.pointer, remove_file. cbn. by rewrite lookup_delete_eq. Qed.

Lemma pointer_port h : pointer (remove_file portFile h) = pointer h.
Proof. unfold Connect.pointer, remove_file. cbn. rewrite lookup_delete_ne; [done|]. intros E. by apply (socket_port homeDir home_abs). Qed.

Lemma port_removed h : ho_files (remove_file portFile h) !! portFile = None.
Proof. apply lookup_delete_eq. Qed.

Lemma port_socket h : ho_files (remove_file socketFile h) !! portFile = ho_files h !! portFile.
Proof. apply lookup_delete_ne, (socket_port homeDir home_abs). Qed.

Lemma readPortFile_socket h : readPortFile (remove_file socketFile h) portFile = readPortFile h portFile.
Proof. unfold readPortFile. by rewrite port_socket. Qed.

Lemma readPortFile_none h : readPortFile h portFile = None -> ho_files h !! portFile = None.
Proof. unfold readPortFile. by destruct (ho_files h !! portFile). Qed.

Lemma resolve_shape t h : exists h', resolve t h = (h', (fun v => mkBrokerClient v (timeout_of t)) <$> announced h) /\
  ho_sock h' = ho_sock h /\ ho_ports h' = ho_ports h /\
  (h' = h \/ h' = remove_file socketFile h \/ h' = remove_file portFile h \/ h' = remove_file portFile (remove_file socketFile h)) /\
  (announced h = None -> pointer h' = None /\ ho_files h' !! portFile = None).
Proof.
  unfold resolveBrokerClient, announced. fold (timeout_of t). destruct (pointer h) as [path|] eqn:Ep.
  - destruct (dialExistingDaemon h path) eqn:Ed; [exists h; split_and!; auto; done|]. rewrite readPortFile_socket.
    destruct (readPortFile h portFile) as [port|] eqn:Er.
    + change (dialPort (remove_file socketFile h) port) with (dialPort h port). destruct (dialPort h port) eqn:Edp.
      * exists (remove_file socketFile h). split_and!; auto; done.
      * exists (remove_file portFile (remove_file socketFile h)). split_and!; auto. intros _.
        by rewrite pointer_port, pointer_removed, port_removed.
    + exists (remove_file socketFile h). split_and!; auto. intros _. rewrite pointer_removed, port_socket. split; [done|by apply readPortFile_none].
  - destruct (readPortFile h portFile) as [port|] eqn:Er.
    + destruct (dialPort h port) eqn:Edp; [exists h; split_and!; auto; done|]. exists (remove_file portFile h). split_and!; auto. intros _.
      by rewrite pointer_port, port_removed.
    + exists h. split_and!; auto. intros _. split; [done|by apply readPortFile_none].
Qed.

Lemma announced_reaches h v : announced h = Some v -> reaches h v = true.
Proof.
  unfold announced. destruct (pointer h) as [path|]; [destruct (dialExistingDaemon h path) eqn:E|];
    [by intros [= <-]|..]; destruct (readPortFile h portFile) as [port|]; try done; destruct (dialPort h port) eqn:E'; try done; by intros [= <-].
Qed.

(** Resolving finds a daemon exactly when one is announced that answers, by its socket before
    its port; the client it returns reaches it.  When it finds none it has removed what a dead daemon
    left: neither pointer is there to be followed again.  Nothing else on the host is touched. *)
Theorem resolve_spec t h :
  exists h', resolve t h = (h', (fun v => mkBrokerClient v (timeout_of t)) <$> announced h) /\
    (forall v, announced h = Some v -> reaches h' v = true) /\
    (announced h = None -> pointer h' = None /\ ho_files h' !! portFile = None) /\
    ho_sock h' = ho_sock h /\ ho_ports h' = ho_ports h /\
    (forall path, path <> socketFile -> path <> portFile -> ho_files h' !! path = ho_files h !! path).
Proof.
  destruct (resolve_shape t h) as (h' & Hr & Hs & Hp & Hh & Hn). exists h'. split_and!; [done| |done|done|done|].
  - intros v Hv%announced_reaches. destruct v; unfold reaches, dialExistingDaemon, dialPort in *; by rewrite ?Hs, ?Hp.
  - intros path H1 H2. destruct Hh as [-> | [-> | [-> | ->]]]; unfold remove_file; cbn; by rewrite ?lookup_delete_ne by done.
Qed.

(** A command that may start the daemon gets a client that answered when it was made, or nothing. *)
Lemma ensure_sound start elapse t h h' c : ensureBrokerClient homeDir cwd start elapse t h = (h', Some c) -> reaches h' (bc_via c) = true /\ bc_Timeout c = timeout_of t.
Proof.
  assert (HR : forall h h' c, resolve t h = (h', Some c) -> reaches h' (bc_via c) = true /\ bc_Timeout c = timeout_of t).
  { intros h0 h1 c0 H. destruct (resolve_shape t h0) as (h2 & Hr & Hs & Hp & _). rewrite Hr in H. injection H as <- H.
    destruct (announced h0) as [v|] eqn:Ev; [|done]. injection H as <-. apply announced_reaches in Ev. split; [|done]. cbn.
    destruct v; unfold reaches, dialExistingDaemon, dialPort in *; by rewrite ?Hs, ?Hp. }
  unfold ensureBrokerClient. destruct (resolve t h) as [h0 [c0|]] eqn:E; [intros [= <- <-]; by apply (HR h)|].
  destruct (start h0) as [h1|]; [|done]. generalize 20%nat. intros n. revert h1. induction n as [|n IH]; intros h1; [done|]. cbn [poll_daemon].
  destruct (resolve t (elapse h1)) as [h2 [c2|]] eqn:E2; [intros [= <- <-]; by apply (HR (elapse h1))|apply IH].
Qed.

(** [squash] finds the daemon that resolving finds. *)
Lemma squash_same start elapse h v : announced h = Some v -> exists h', resolve 0 h = (h', Some (mkBrokerClient v 30000000000)) /\
  squash_connect homeDir cwd start elapse h = (h', Some (mkBrokerClient v 30000000000)).
Proof.
  unfold resolveBrokerClient, squash_connect, announced. change (0 =? 0)%Z with true. cbn iota.
  assert (HP : forall port, readPortFile h portFile = Some port -> TrimSpace port = port).
  { unfold readPortFile. intros port. destruct (ho_files h !! portFile); cbn; [|done]. intros [= <-]. apply TrimSpace_idem. }
  destruct (pointer h) as [path|].
  - destruct (dialExistingDaemon h path); [intros [= <-]; by eexists|]. rewrite readPortFile_socket. destruct (readPortFile h portFile) as [port|] eqn:Er; [|done].
    rewrite (HP port eq_refl). change (dialPort (remove_file socketFile h) port) with (dialPort h port). destruct (dialPort h port); [|done]. intros [= <-]. by eexists.
  - destruct (readPortFile h portFile) as [port|] eqn:Er; [|done]. rewrite (HP port eq_refl). destruct (dialPort h port); [|done]. intros [= <-]. by eexists.
Qed.
End Resolving.

(** ** One lookup, undisturbed *)

Section Alone.
Variable homeDir : string.
Variable cwd : string + string.

Fixpoint looks (n : nat) (k : Lookup) (h : Host) : Host * Lookup :=
  match n with
  | O => (h, k)
  | S n => match look homeDir cwd k h with Some (h, k) => looks n k h | None => (h, k) end
  end.

(** The accesses of a lookup with nothing in between are [resolveBrokerClient], six at most. *)
Lemma looks_resolve t h : looks 6 LkPointer h =
  (fst (resolveBrokerClient homeDir cwd t h), LkDone (bc_via <$> snd (resolveBrokerClient homeDir cwd t h))).
Proof.
  unfold resolveBrokerClient. cbn [looks look]. destruct (pointer homeDir cwd h) as [path|]; cbn [looks look];
    [destruct (dialExistingDaemon h path); [done|]; cbn [looks look]|];
    (destruct (readPortFile _ _) as [port|]; [|done]); cbn [looks look]; by destruct (dialPort _ port).
Qed.
End Alone.

(** ** Daemons that run one at a time *)

(** A daemon that has announced itself and does not shut down. *)
Definition is_up (st : Stage) : bool := match st with Bound _ | Opened _ | Closing _ _ => false | _ => true end.
Definition is_opened (st : Stage) : bool := match st with Opened _ => true | _ => false end.
Definition is_closing (st : Stage) : bool := match st with Closing _ _ => true | _ => false end.
Definition has_unix (st : Stage) : bool := match st with Listening _ | Pointing _ | Serving _ true => true | _ => false end.

(** A client that has read the port file and has not ended. *)
Definition probing (k : Lookup) : bool := match k with LkDialPort _ | LkDropPort => true | _ => false end.

Definition port_ok (port : string) : Prop := port <> "" /\ TrimSpace port = port.

Section Solo.
Variable homeDir : string.
Variable cwd : string + string.
Hypothesis home_abs : HasPrefix homeDir "/" = true.
Abbreviation socketFile := (socketFile homeDir).
Abbreviation portFile := (portFile homeDir).
Abbreviation sockPath := (sockPath homeDir).
Abbreviation pointer := (pointer homeDir cwd).
Abbreviation step := (step homeDir cwd).

(** A daemon starts only when none is there; and from the opening of its port file until it is
    written, no client is between reading that file and the end of its lookup. *)
Definition undisturbed (e : Step) (s : System) : Prop :=
  match e with
  | DListen _ => sy_daemons s = ∅
  | DOpenPort _ _ => forall c k, sy_clients s !! c = Some k -> probing k = false
  | CLook c => sy_clients s !! c = Some LkReadPort -> forall pid st, sy_daemons s !! pid = Some st -> is_opened st = false
  | _ => True
  end.

Inductive Solo : System -> Prop :=
| Solo_init : Solo (mkSystem (mkHost ∅ ∅ ∅) ∅ ∅ 0)
| Solo_step s e s' : Solo s -> step e s = Some s' -> undisturbed e s -> Solo s'.

Definition pointer_ok (h : Host) : Prop :=
  ho_files h !! socketFile = None \/ ho_files h !! socketFile = Some "" \/ ho_files h !! socketFile = Some sockPath.

(** What the daemon relies on of the host, and on where the clients are. *)
Record StageOk (h : Host) (pid : nat) (st : Stage) : Prop := {
  st_port : port_ok (stage_port st);
  st_bound : is_closing st = false -> ho_ports h !! stage_port st = Some pid;
  st_sock : has_unix st = true -> ho_sock h !! sockPath = Some (Some pid);
  st_opened : is_opened st = true -> ho_files h !! portFile = Some "";
  st_up : is_up st = true -> ho_files h !! portFile = Some (stage_port st) }.

Definition client_ok (st : Stage) (k : Lookup) : Prop :=
  (is_opened st = true -> probing k = false) /\
  (is_up st = true -> k <> LkDropPort /\ forall p, k = LkDialPort p -> p = stage_port st).

Record SoloInv (s : System) : Prop := {
  i_pointer : pointer_ok (sy_host s);
  i_sock : forall p o, ho_sock (sy_host s) !! p = Some (Some o) -> p = sockPath /\ exists st, sy_daemons s !! o = Some st /\ has_unix st = true;
  i_ports : forall p q, ho_ports (sy_host s) !! p = Some q -> (q < sy_next s)%nat /\ forall st, sy_daemons s !! q = Some st -> p = stage_port st;
  i_one : forall a b st st', sy_daemons s !! a = Some st -> sy_daemons s !! b = Some st' -> a = b;
  i_stage : forall pid st, sy_daemons s !! pid = Some st -> (pid < sy_next s)%nat /\ StageOk (sy_host s) pid st;
  i_dial : forall c path, sy_clients s !! c = Some (LkDial path) -> path = sockPath;
  i_clients : forall c k pid st, sy_clients s !! c = Some k -> sy_daemons s !! pid = Some st -> client_ok st k }.

Lemma socket_port_ne : socketFile <> portFile.
Proof. by apply socket_port. Qed.

(** The pointer is to the daemon's socket. *)
Lemma pointer_cases h : pointer_ok h -> pointer h = None \/ pointer h = Some sockPath.
Proof.
  unfold pointer_ok, Connect.pointer. intros [->|[->| ->]]; [by left..|]. destruct (sockPath_trim homeDir home_abs) as [-> Hne].
  rewrite (proj2 (String.eqb_neq _ _) Hne), (sockPath_under homeDir cwd home_abs). by right.
Qed.

Lemma orphan_live pid socks p o : orphan pid socks !! p = Some (Some o) <-> socks !! p = Some (Some o) /\ o <> pid.
Proof.
  unfold orphan. rewrite lookup_fmap. destruct (socks !! p) as [[q|]|]; cbn; [|split; [done|by intros []]..].
  case_bool_decide; simplify_eq; naive_solver.
Qed.

Lemma close_port_Some pid port ports p q : close_port pid port ports !! p = Some q -> ports !! p = Some q /\ (p = port -> q <> pid).
Proof.
  unfold close_port. case_bool_decide as E.
  - intros [Hne H]%lookup_delete_Some. split; [done|]. congruence.
  - intros H. split; [done|]. intros -> ->. done.
Qed.

(** The one daemon goes from stage to stage. *)
Lemma inv_at_stage s pid st st' h : SoloInv s -> sy_daemons s !! pid = Some st -> stage_port st' = stage_port st -> pointer_ok h ->
  (forall p o, ho_sock h !! p = Some (Some o) -> p = sockPath /\ o = pid /\ has_unix st' = true) ->
  (forall p q, ho_ports h !! p = Some q -> ho_ports (sy_host s) !! p = Some q) ->
  StageOk h pid st' -> (forall c k, sy_clients s !! c = Some k -> client_ok st' k) ->
  SoloInv (at_stage pid st' h s).
Proof.
  intros [I1 I2 I3 I4 I5 I6 I7] Hd Hp Hptr Hsock Hports Hst Hc.
  assert (Hat : forall q x, <[pid := st']> (sy_daemons s) !! q = Some x -> q = pid /\ x = st').
  { intros q x [[<- <-]|[Hne Hq]]%lookup_insert_Some; [done|]. by pose proof (I4 _ _ _ _ Hd Hq). }
  constructor; cbn.
  - done.
  - intros p o H%Hsock. destruct H as (-> & -> & Hu). split; [done|]. exists st'. by rewrite (lookup_insert_eq (M := gmap nat)).
  - intros p q H%Hports. pose proof (I3 _ _ H) as [Hq Hown]. split; [done|]. intros x [-> ->]%Hat. rewrite Hp. by apply Hown.
  - intros a b x y [-> _]%Hat [-> _]%Hat. done.
  - intros q x [-> ->]%Hat. split; [|done]. by destruct (I5 _ _ Hd).
  - done.
  - intros c k q x Hk [_ ->]%Hat. by eapply Hc.
Qed.

Lemma sock_of s pid st p o : SoloInv s -> sy_daemons s !! pid = Some st -> ho_sock (sy_host s) !! p = Some (Some o) ->
  p = sockPath /\ o = pid /\ has_unix st = true.
Proof.
  intros HI Hd Hs. destruct (i_sock _ HI _ _ Hs) as (-> & st' & Hd' & Hu). pose proof (i_one _ HI _ _ _ _ Hd Hd') as <-. naive_solver.
Qed.

(** It is gone, and what it left has no listener. *)
Lemma inv_process_end s pid st port : SoloInv s -> sy_daemons s !! pid = Some st -> stage_port st = port -> SoloInv (process_end pid port s).
Proof.
  intros HI Hd <-. pose proof HI as [I1 I2 I3 I4 I5 I6 I7].
  assert (Hat : forall q, delete pid (sy_daemons s) !! q = None).
  { intros q. apply eq_None_not_Some. intros [x [Hne Hq]%lookup_delete_Some]. by pose proof (I4 _ _ _ _ Hd Hq). }
  constructor; cbn; [done|..].
  - intros p o [H Hne]%orphan_live. by destruct (sock_of _ _ _ _ _ HI Hd H) as (_ & -> & _).
  - intros p q [H _]%close_port_Some. destruct (I3 _ _ H) as [Hq _]. split; [done|]. intros x Hx. by rewrite Hat in Hx.
  - intros a b x y Hx. by rewrite Hat in Hx.
  - intros q x Hx. by rewrite Hat in Hx.
  - done.
  - intros c k q x _ Hx. by rewrite Hat in Hx.
Qed.

(** A step that moves no daemon: what it may change of the host. *)
Lemma inv_host s h clients next : SoloInv s -> pointer_ok h -> ho_sock h = ho_sock (sy_host s) ->
  (forall p q, ho_ports h !! p = Some q -> (q < next)%nat /\ (ho_ports (sy_host s) !! p = Some q \/ sy_daemons s !! q = None)) ->
  (sy_next s <= next)%nat ->
  (forall pid st, sy_daemons s !! pid = Some st -> ho_ports (sy_host s) !! stage_port st = Some pid -> ho_ports h !! stage_port st = Some pid) ->
  (forall pid st, sy_daemons s !! pid = Some st -> is_opened st = true \/ is_up st = true -> ho_files h !! portFile = ho_files (sy_host s) !! portFile) ->
  (forall c path, clients !! c = Some (LkDial path) -> path = sockPath) ->
  (forall c k pid st, clients !! c = Some k -> sy_daemons s !! pid = Some st -> client_ok st k) ->
  SoloInv (mkSystem h (sy_daemons s) clients next).
Proof.
  intros [I1 I2 I3 I4 I5 I6 I7] Hp Hs Hports Hn Hown Hf Hd Hc. constructor; cbn; [done| | |done| |done|done].
  - by rewrite Hs.
  - intros p q H. destruct (Hports _ _ H) as [Hq [Ho|Hno]]; (split; [done|]); [by apply I3|]. intros st Hst. by rewrite Hno in Hst.
  - intros pid st Hst. destruct (I5 _ _ Hst) as [Hlt [S1 S2 S3 S4 S5]]. split; [lia|]. constructor; [done|..].
    + intros Hcl. apply Hown; auto.
    + rewrite Hs. done.
    + intros Ho. rewrite (Hf _ _ Hst) by auto. auto.
    + intros Ho. rewrite (Hf _ _ Hst) by auto. auto.
Qed.

Lemma inv_look s c s' : SoloInv s -> client_look homeDir cwd c s = Some s' -> undisturbed (CLook c) s -> SoloInv s'.
Proof.
  intros HI H Hu. pose proof HI as [I1 I2 I3 I4 I5 I6 I7]. unfold client_look in H. destruct (sy_clients s !! c) as [k|] eqn:Ek; [|done].
  destruct (look homeDir cwd k (sy_host s)) as [[h k']|] eqn:El; [|done]. injection H as <-. cbn in Hu.
  assert (Hports : forall p q, ho_ports (sy_host s) !! p = Some q -> (q < sy_next s)%nat /\ (ho_ports (sy_host s) !! p = Some q \/ sy_daemons s !! q = None)).
  { intros p q Hpq. split; [by destruct (I3 _ _ Hpq)|by left]. }
  assert (Hcl : (forall path, k' = LkDial path -> path = sockPath) -> (forall pid st, sy_daemons s !! pid = Some st -> client_ok st k') ->
    (forall c' path, <[c := k']> (sy_clients s) !! c' = Some (LkDial path) -> path = sockPath) /\
    (forall c' k0 pid st, <[c := k']> (sy_clients s) !! c' = Some k0 -> sy_daemons s !! pid = Some st -> client_ok st k0)).
  { intros Hd Hc. split.
    - intros c' path [[_ E]|[_ Hx]]%lookup_insert_Some; [by apply Hd|by eapply I6].
    - intros c' k0 pid st [[_ <-]|[_ Hx]]%lookup_insert_Some; [by apply Hc|by apply (I7 c')]. }
  assert (Hown : forall pid st, sy_daemons s !! pid = Some st -> client_ok st k) by (intros pid st; by apply (I7 c)).
  assert (Hready : forall st, client_ok st LkReadPort) by (intros st; split; [done|]; intros _; by split).
  destruct k as [|path| | |port| |r]; cbn [look] in El; try done; injection El as <- <-.
  - assert (Hk : pointer (sy_host s) = None \/ pointer (sy_host s) = Some sockPath) by by apply pointer_cases.
    destruct Hcl as [H1 H2]; [..|by apply (inv_host s (sy_host s) (<[c := _]> (sy_clients s)) (sy_next s))].
    + intros path. destruct Hk as [->| ->]; [done|]. by intros [= <-].
    + intros pid st Hst. destruct Hk as [->| ->]; [done|]. split; [done|]. intros _. by split.
  - destruct Hcl as [H1 H2]; [..|by apply (inv_host s (sy_host s) (<[c := _]> (sy_clients s)) (sy_next s))].
    + intros path'. by destruct (dialExistingDaemon (sy_host s) path).
    + intros pid st Hst. destruct (dialExistingDaemon (sy_host s) path); (split; [done|]; intros _; by split).
  - destruct Hcl as [H1 H2]; [done|done|]. apply (inv_host s (remove_file socketFile (sy_host s)) (<[c := _]> (sy_clients s)) (sy_next s)); try done.
    + left. apply lookup_delete_eq.
    + intros pid st _ _. apply lookup_delete_ne, socket_port_ne.
  - destruct Hcl as [H1 H2]; [..|by apply (inv_host s (sy_host s) (<[c := _]> (sy_clients s)) (sy_next s))].
    + intros path. by destruct (readPortFile (sy_host s) portFile).
    + intros pid st Hst. destruct (I5 _ _ Hst) as [_ [[Hne Ht] _ _ S4 S5]]. unfold readPortFile. split.
      * intros Ho. exfalso. specialize (Hu Ek _ _ Hst). congruence.
      * intros Hup. rewrite (S5 Hup). cbn. rewrite Ht. split; [done|]. by intros p [= <-].
  - destruct Hcl as [H1 H2]; [..|by apply (inv_host s (sy_host s) (<[c := _]> (sy_clients s)) (sy_next s))].
    + intros path. by destruct (dialPort (sy_host s) port).
    + intros pid st Hst. destruct (Hown _ _ Hst) as [Ho Hup]. destruct (I5 _ _ Hst) as [_ [[Hne Ht] S2 _ _ _]]. split.
      * intros E. by specialize (Ho E).
      * intros E. destruct (Hup E) as [_ Hp]. rewrite (Hp _ eq_refl). unfold dialPort. rewrite (proj2 (String.eqb_neq _ _) Hne), S2 by by destruct st.
        by split.
  - destruct Hcl as [H1 H2]; [done|intros pid st _; split; [done|]; intros _; by split|].
    apply (inv_host s (remove_file portFile (sy_host s)) (<[c := _]> (sy_clients s)) (sy_next s)); try done.
    + unfold pointer_ok, remove_file. cbn. rewrite lookup_delete_ne; [done|]. apply not_eq_sym, socket_port_ne.
    + intros pid st Hst E. exfalso. destruct (Hown _ _ Hst) as [Ho Hup]. destruct E as [E|E]; [by specialize (Ho E)|by destruct (Hup E)].
Qed.

Lemma client_ok_up st st' k : stage_port st' = stage_port st -> is_up st = true -> is_opened st' = false -> client_ok st k -> client_ok st' k.
Proof. intros Hp Hu Ho [_ H]. split; [by rewrite Ho|]. intros _. rewrite Hp. by apply H. Qed.

Lemma client_ok_down st k : is_opened st = false -> is_up st = false -> client_ok st k.
Proof. intros Ho Hu. split; [by rewrite Ho|by rewrite Hu]. Qed.

(** A daemon that is up goes on without touching its port or the port file. *)
Lemma inv_up s pid st st' h : SoloInv s -> sy_daemons s !! pid = Some st -> stage_port st' = stage_port st ->
  is_up st = true -> is_up st' = true -> pointer_ok h -> ho_ports h = ho_ports (sy_host s) ->
  ho_files h !! portFile = ho_files (sy_host s) !! portFile ->
  (forall p o, ho_sock h !! p = Some (Some o) -> p = sockPath /\ o = pid /\ has_unix st' = true) ->
  (has_unix st' = true -> ho_sock h !! sockPath = Some (Some pid)) ->
  SoloInv (at_stage pid st' h s).
Proof.
  intros HI Hd Hp Hu Hu' Hptr Hports Hf Hs Hs'. pose proof (i_stage _ HI _ _ Hd) as [_ [S1 S2 S3 S4 S5]].
  assert (Hno : is_opened st' = false) by by destruct st'.
  apply (inv_at_stage s pid st); [done..|by rewrite Hports| |].
  - constructor; [by rewrite Hp|rewrite Hp, Hports; intros _; apply S2; by destruct st|done|by rewrite Hno|]. intros _. rewrite Hf, Hp. auto.
  - intros c k Hk. apply (client_ok_up st); [done..|]. by apply (i_clients _ HI c k pid).
Qed.

Lemma not_live s pid st : SoloInv s -> sy_daemons s !! pid = Some st -> has_unix st = false -> forall p o, ho_sock (sy_host s) !! p <> Some (Some o).
Proof. intros HI Hd Hu p o H. destruct (sock_of _ _ _ _ _ HI Hd H) as (_ & _ & H'). congruence. Qed.

Lemma pointer_write text h : text = "" \/ text = sockPath -> pointer_ok (write_file socketFile text h).
Proof. intros [->| ->]; right; [left|right]; apply lookup_insert_eq. Qed.
Lemma pointer_other path text h : path <> socketFile -> pointer_ok h -> pointer_ok (write_file path text h).
Proof. intros Hne H. unfold pointer_ok, write_file. cbn. by rewrite lookup_insert_ne. Qed.
Lemma write_open_there path text old h : ho_files h !! path = Some old -> write_open path text h = write_file path text h.
Proof. unfold write_open. by intros ->. Qed.

(** The two steps with which a daemon announces its port. *)
Lemma inv_announce s pid ok s' : SoloInv s -> daemon_announce homeDir pid ok s = Some s' ->
  (forall port, sy_daemons s !! pid = Some (Bound port) -> forall c k, sy_clients s !! c = Some k -> probing k = false) -> SoloInv s'.
Proof.
  intros HI H Hu. unfold daemon_announce in H. destruct (sy_daemons s !! pid) as [[port|port| | | | | | |]|] eqn:Hd; try done; injection H as <-;
    (destruct ok; [|by eapply inv_process_end]); pose proof (i_stage _ HI _ _ Hd) as [_ [S1 S2 S3 S4 S5]];
    pose proof (not_live _ _ _ HI Hd eq_refl) as Hlive.
  - eapply inv_at_stage; [done|done|done| | |done| |].
    + apply pointer_other; [apply not_eq_sym, socket_port_ne|by apply i_pointer].
    + intros p o Hs. by apply Hlive in Hs.
    + constructor; [done|done|done|intros _; apply lookup_insert_eq|done].
    + intros c k Hk. split; [|done]. intros _. by apply (Hu port eq_refl c).
  - rewrite (write_open_there _ _ "") by auto. eapply inv_at_stage; [done|done|done| | |done| |].
    + apply pointer_other; [apply not_eq_sym, socket_port_ne|by apply i_pointer].
    + intros p o Hs. by apply Hlive in Hs.
    + constructor; [done|done|done|done|intros _; apply lookup_insert_eq].
    + intros c k Hk. destruct (i_clients _ HI _ _ _ _ Hk Hd) as [Ho _]. split; [done|]. intros _. by destruct k; specialize (Ho eq_refl).
Qed.

(** The steps of a daemon that is up. *)
Lemma inv_serve s pid ok s' :
  SoloInv s -> daemon_check homeDir pid s = Some s' \/ daemon_remove homeDir pid ok s = Some s' \/ daemon_bind homeDir pid ok s = Some s' \/
    daemon_point homeDir pid ok s = Some s' -> SoloInv s'.
Proof.
  intros HI H. unfold daemon_check, daemon_remove, daemon_bind, daemon_point in H.
  destruct (sy_daemons s !! pid) as [st|] eqn:Hd; [|by decompose [or] H].
  pose proof (i_pointer _ HI) as Hptr. pose proof (i_stage _ HI _ _ Hd) as [_ [_ _ S3 _ _]]. pose proof (fun p o => sock_of _ _ _ p o HI Hd) as Hsock.
  destruct st as [port|port|port|port|port|port|port|port unix|port todo]; (destruct H as [H|[H|[H|H]]]; try done); injection H as <-.
  - destruct (dialExistingDaemon (sy_host s) sockPath) eqn:E; [|by eapply inv_up].
    unfold dialExistingDaemon in E. destruct (ho_sock (sy_host s) !! sockPath) as [[o|]|] eqn:Es; [|done..]. by apply Hsock in Es as (_ & _ & ?).
  - destruct ok; eapply inv_up; try done. intros p o; cbn. intros [_ Hp]%lookup_delete_Some. by apply Hsock in Hp.
  - destruct (ho_sock (sy_host s) !! sockPath) as [o|] eqn:Es; [by eapply inv_up|]. destruct ok; [|by eapply inv_up].
    eapply inv_up; try done.
    + intros p o; cbn. intros [[<- [= <-]]|[_ Hp]]%lookup_insert_Some; [done|]. by apply Hsock in Hp as (_ & _ & ?).
    + intros _. apply lookup_insert_eq.
  - destruct ok; eapply inv_up; try done; [apply pointer_write; by left|]. apply lookup_insert_ne, socket_port_ne.
  - destruct ok; [|by eapply inv_up]. unfold write_open. destruct (ho_files (sy_host s) !! socketFile); [|by eapply inv_up].
    eapply inv_up; try done; [apply pointer_write; by right|]. apply lookup_insert_ne, socket_port_ne.
Qed.

(** The steps of a daemon that shuts down or dies. *)
Lemma inv_close s pid s' : SoloInv s -> daemon_close homeDir pid s = Some s' \/ daemon_clean homeDir pid s = Some s' \/ daemon_kill pid s = Some s' -> SoloInv s'.
Proof.
  intros HI H. unfold daemon_close, daemon_clean, daemon_kill in H.
  destruct (sy_daemons s !! pid) as [st|] eqn:Hd; [|by decompose [or] H].
  destruct H as [H|[H|H]]; [| |injection H as <-; by eapply inv_process_end].
  - destruct st as [| | | | | | |port unix|]; try done. injection H as <-.
    assert (Hno : forall p o, orphan pid (ho_sock (sy_host s)) !! p <> Some (Some o)).
    { intros p o [H Hne]%orphan_live. by destruct (sock_of _ _ _ _ _ HI Hd H) as (_ & -> & _). }
    pose proof (i_stage _ HI _ _ Hd) as [_ [S1 _ _ _ _]].
    eapply inv_at_stage; [done|done|done| | | | |intros; by apply client_ok_down].
    + destruct unix; apply (i_pointer _ HI).
    + destruct unix; intros p o; cbn; [intros [_ H]%lookup_delete_Some|intros H]; by apply Hno in H.
    + destruct unix; intros p q [H _]%close_port_Some; done.
    + by destruct unix; constructor.
  - destruct st as [| | | | | | | |port [|f todo]]; try done; injection H as <-; [by eapply inv_process_end|].
    pose proof (not_live _ _ _ HI Hd eq_refl) as Hlive. pose proof (i_stage _ HI _ _ Hd) as [_ [S1 _ _ _ _]].
    pose proof (i_pointer _ HI) as Hptr.
    eapply inv_at_stage; [done|done|done| | | |by destruct f; constructor|intros; by apply client_ok_down].
    + destruct f; [done|left; apply lookup_delete_eq|]. unfold pointer_ok, remove_file. cbn. by rewrite lookup_delete_ne by apply not_eq_sym, socket_port_ne.
    + destruct f; intros p o; cbn; [intros [_ H]%lookup_delete_Some|intros H..]; by apply Hlive in H.
    + by destruct f.
Qed.

Lemma inv_listen s port s' : SoloInv s -> daemon_listen port s = Some s' -> port_ok port -> sy_daemons s = ∅ -> SoloInv s'.
Proof.
  intros [I1 I2 I3 I4 I5 I6 I7] H Hp He. unfold daemon_listen in H. destruct (ho_ports (sy_host s) !! port) eqn:E; [done|]. injection H as <-.
  assert (Hat : forall q x, <[sy_next s := Bound port]> (sy_daemons s) !! q = Some x -> q = sy_next s /\ x = Bound port).
  { intros q x [[<- <-]|[_ Hq]]%lookup_insert_Some; [done|]. by rewrite He in Hq. }
  constructor; cbn; [done| | | | |done|].
  - intros p o H. destruct (I2 _ _ H) as (_ & st & Hst & _). by rewrite He in Hst.
  - intros p q [[<- <-]|[_ H]]%lookup_insert_Some.
    + split; [lia|]. intros st [_ ->]%Hat. done.
    + destruct (I3 _ _ H) as [Hq _]. split; [lia|]. intros st [-> _]%Hat. lia.
  - intros a b x y [-> _]%Hat [-> _]%Hat. done.
  - intros q x [-> ->]%Hat. split; [lia|]. constructor; try done. intros _. apply lookup_insert_eq.
  - intros c k q x _ [_ ->]%Hat. by apply client_ok_down.
Qed.

(** Other processes and clients that start or end. *)
Lemma inv_other s e s' : SoloInv s -> step e s = Some s' ->
  match e with FListen _ | FClose _ | CStart _ | CEnd _ => True | _ => False end -> SoloInv s'.
Proof.
  intros HI H He. pose proof HI as [I1 I2 I3 I4 I5 I6 I7].
  assert (Hports : forall p q, ho_ports (sy_host s) !! p = Some q -> (q < sy_next s)%nat /\ (ho_ports (sy_host s) !! p = Some q \/ sy_daemons s !! q = None)).
  { intros p q Hpq. split; [by destruct (I3 _ _ Hpq)|by left]. }
  destruct e as [| | | | | | | | | | |port|port|c| |c]; try done; cbn [Connect.step] in H.
  - unfold foreign_listen in H. destruct (ho_ports (sy_host s) !! port) eqn:E; [done|]. injection H as <-.
    apply (inv_host s _ (sy_clients s) (S (sy_next s))); try done; cbn.
    + intros p q [[<- <-]|[_ Hpq]]%lookup_insert_Some; [|destruct (I3 _ _ Hpq); split; [lia|by left]]. split; [lia|]. right.
      apply eq_None_not_Some. intros [st Hst]. destruct (I5 _ _ Hst). lia.
    + lia.
    + intros pid st _ Hp. rewrite lookup_insert_ne; [done|]. congruence.
  - unfold foreign_close in H. destruct (ho_ports (sy_host s) !! port) as [q|] eqn:E; [|done]. destruct (sy_daemons s !! q) eqn:Eq; [done|]. injection H as <-.
    apply (inv_host s _ (sy_clients s) (sy_next s)); try done; cbn.
    + intros p q' [_ Hpq]%lookup_delete_Some. by apply Hports.
    + intros pid st Hst Hp. rewrite lookup_delete_ne; [done|]. congruence.
  - destruct (sy_clients s !! c) eqn:E; [done|]. injection H as <-. apply (inv_host s (sy_host s) (<[c := LkPointer]> (sy_clients s)) (sy_next s)); try done.
    + intros c' path [[_ Hx]|[_ Hx]]%lookup_insert_Some; [done|by eapply I6].
    + intros c' k pid st [[_ <-]|[_ Hx]]%lookup_insert_Some Hst; [split; [done|]; intros _; by split|by eapply I7].
  - destruct (sy_clients s !! c) as [[]|] eqn:E; try done. injection H as <-. apply (inv_host s (sy_host s) (delete c (sy_clients s)) (sy_next s)); try done.
    + intros c' path [_ Hx]%lookup_delete_Some. by eapply I6.
    + intros c' k pid st [_ Hx]%lookup_delete_Some. by eapply I7.
Qed.

Lemma solo_inv_step s e s' : SoloInv s -> step e s = Some s' -> undisturbed e s -> SoloInv s'.
Proof.
  intros HI Hs Hu. destruct e as [port|pid ok|pid ok|pid|pid ok|pid ok|pid ok|pid ok|pid|pid|pid|port|port|c|c|c];
    try (by eapply inv_other); cbn [Connect.step] in Hs.
  - destruct (String.eqb port "" || negb (String.eqb (TrimSpace port) port)) eqn:Ep; [done|]. apply orb_false_iff in Ep as [Ep1 Ep2].
    apply negb_false_iff in Ep2. eapply inv_listen; [done|done|split; [by apply String.eqb_neq|by apply String.eqb_eq]|done].
  - destruct (sy_daemons s !! pid) as [[]|] eqn:Hd; try done. eapply inv_announce; [done|done|]. intros _ _. exact Hu.
  - destruct (sy_daemons s !! pid) as [[]|] eqn:Hd; try done. eapply inv_announce; [done|done|]. intros p0 Hb. rewrite Hd in Hb. discriminate Hb.
  - eapply (inv_serve s pid true); auto.
  - eapply inv_serve; eauto.
  - eapply inv_serve; eauto.
  - destruct (sy_daemons s !! pid) as [[]|] eqn:Hd; try done. eapply inv_serve; eauto.
  - destruct (sy_daemons s !! pid) as [[]|] eqn:Hd; try done. eapply inv_serve; eauto.
  - eapply inv_close; eauto.
  - eapply inv_close; eauto.
  - eapply inv_close; eauto.
  - by eapply inv_look.
Qed.

Lemma solo_inv s : Solo s -> SoloInv s.
Proof.
  induction 1 as [|s e s' _ IH Hs Hl]; [|by eapply solo_inv_step].
  constructor; cbn; try done. by left.
Qed.

(** Where a client that looks now finds a daemon that is up. *)
Definition address (h : Host) (st : Stage) : Via :=
  if has_unix st && bool_decide (ho_files h !! socketFile = Some sockPath) then OverSocket sockPath else OverPort (stage_port st).

Lemma listens_unix s pid st : SoloInv s -> sy_daemons s !! pid = Some st -> has_unix st = true ->
  dialExistingDaemon (sy_host s) sockPath = true /\ listener (sy_host s) (OverSocket sockPath) = Some pid.
Proof. intros HI Hd Hu. destruct (i_stage _ HI _ _ Hd) as [_ [_ _ Hs _ _]]. unfold dialExistingDaemon, listener. by rewrite Hs. Qed.

Lemma dial_unix s pid st path : SoloInv s -> sy_daemons s !! pid = Some st -> dialExistingDaemon (sy_host s) path = true ->
  has_unix st = true /\ path = sockPath.
Proof.
  intros HI Hd. unfold dialExistingDaemon. destruct (ho_sock (sy_host s) !! path) as [[o|]|] eqn:E; try done. intros _.
  by destruct (sock_of _ _ _ _ _ HI Hd E) as (-> & -> & Hu).
Qed.

Lemma listens_port s pid st : SoloInv s -> sy_daemons s !! pid = Some st -> is_up st = true ->
  readPortFile (sy_host s) portFile = Some (stage_port st) /\ dialPort (sy_host s) (stage_port st) = true /\
  listener (sy_host s) (OverPort (stage_port st)) = Some pid.
Proof.
  intros HI Hd Hu. destruct (i_stage _ HI _ _ Hd) as [_ [[Hne Ht] Hp _ _ Hf]]. assert (Hc : is_closing st = false) by by destruct st.
  unfold readPortFile, dialPort, listener. rewrite (Hf Hu), (Hp Hc), (proj2 (String.eqb_neq _ _) Hne). cbn. by rewrite Ht.
Qed.

(** What one lookup finds with nothing in between. *)
Lemma solo_found s t pid st : Solo s -> sy_daemons s !! pid = Some st -> is_up st = true ->
  snd (resolveBrokerClient homeDir cwd t (sy_host s)) = Some (mkBrokerClient (address (sy_host s) st) (timeout_of t)) /\
  listener (sy_host s) (address (sy_host s) st) = Some pid.
Proof.
  intros HI%solo_inv Hd Hu. destruct (resolve_shape homeDir cwd home_abs t (sy_host s)) as (h' & -> & _). cbn [snd].
  destruct (listens_port _ _ _ HI Hd Hu) as (Hr & Hp & Hl). unfold announced, address.
  assert (Hptr : pointer (sy_host s) = if bool_decide (ho_files (sy_host s) !! socketFile = Some sockPath) then Some sockPath else None).
  { unfold Connect.pointer. destruct (sockPath_trim homeDir home_abs) as [Ht Hne]. pose proof (i_pointer _ HI) as H. case_bool_decide as E.
    - rewrite E, Ht, (proj2 (String.eqb_neq _ _) Hne), (sockPath_under homeDir cwd home_abs). done.
    - by destruct H as [->|[->|H]]. }
  rewrite Hptr. destruct (has_unix st) eqn:Eu; cbn [andb].
  - destruct (listens_unix _ _ _ HI Hd Eu) as [Hd' Hl']. case_bool_decide; [by rewrite Hd'|]. by rewrite Hr, Hp.
  - assert (Hno : dialExistingDaemon (sy_host s) sockPath = false).
    { apply not_true_is_false. intros E. destruct (dial_unix _ _ _ _ HI Hd E). congruence. }
    case_bool_decide; [rewrite Hno|]; by rewrite Hr, Hp.
Qed.

(** Without a daemon that is up there is no socket to be found. *)
Lemma solo_none s path : SoloInv s -> (forall pid st, sy_daemons s !! pid = Some st -> is_up st = false) -> dialExistingDaemon (sy_host s) path = false.
Proof.
  intros HI Hno. apply not_true_is_false. unfold dialExistingDaemon. destruct (ho_sock (sy_host s) !! path) as [[o|]|] eqn:E; try done.
  destruct (i_sock _ HI _ _ E) as (_ & st & Hst & Hu). specialize (Hno _ _ Hst). by destruct st.
Qed.

Lemma dial_port h port : dialPort h port = true -> exists q, ho_ports h !! port = Some q.
Proof. unfold dialPort. destruct (String.eqb port ""); [done|]. destruct (ho_ports h !! port) as [q|]; [by exists q|done]. Qed.

(** A client looks with nothing in between: the system goes on. *)
Lemma solo_resolves s t : Solo s -> (forall pid st, sy_daemons s !! pid = Some st -> is_opened st = false) ->
  Solo (s <| sy_host := fst (resolveBrokerClient homeDir cwd t (sy_host s)) |>).
Proof.
  intros HS Ho. pose (c := fresh (dom (sy_clients s))).
  assert (Hc : sy_clients s !! c = None) by (apply not_elem_of_dom, is_fresh).
  assert (HR : forall n k h s0, Solo s0 -> s0 = mkSystem h (sy_daemons s) (<[c := k]> (sy_clients s)) (sy_next s) ->
    Solo (mkSystem (fst (looks homeDir cwd n k h)) (sy_daemons s) (<[c := snd (looks homeDir cwd n k h)]> (sy_clients s)) (sy_next s))).
  { induction n as [|n IH]; intros k h s0 HS0 ->; [done|]. cbn [looks]. destruct (look homeDir cwd k h) as [[h' k']|] eqn:El; [|done].
    eapply IH; [|reflexivity]. eapply (Solo_step _ (CLook c)); [exact HS0| |by intros _].
    cbn. unfold client_look. cbn. rewrite (lookup_insert_eq (M := gmap nat)), El. by rewrite insert_insert_eq. }
  assert (H1 : Solo (mkSystem (sy_host s) (sy_daemons s) (<[c := LkPointer]> (sy_clients s)) (sy_next s))).
  { eapply (Solo_step s (CStart c)); [done| |done]. cbn. by rewrite Hc. }
  pose proof (HR 6%nat _ _ _ H1 eq_refl) as H2. rewrite (looks_resolve homeDir cwd t) in H2. cbn [fst snd] in H2.
  eapply (Solo_step _ (CEnd c)); [exact H2| |done]. cbn. rewrite (lookup_insert_eq (M := gmap nat)). by rewrite delete_insert_id.
Qed.

(** How a lookup ends. *)
Lemma look_ends s c s' r : step (CLook c) s = Some s' -> sy_clients s' !! c = Some (LkDone r) ->
  exists k, sy_clients s !! c = Some k /\ ho_sock (sy_host s') = ho_sock (sy_host s) /\ ho_ports (sy_host s') = ho_ports (sy_host s) /\
  match r with
  | Some (OverSocket path) => k = LkDial path /\ dialExistingDaemon (sy_host s) path = true
  | Some (OverPort port) => k = LkDialPort port /\ dialPort (sy_host s) port = true
  | None => k = LkReadPort /\ readPortFile (sy_host s) portFile = None \/ k = LkDropPort
  end.
Proof.
  intros Hs. cbn in Hs. unfold client_look in Hs. destruct (sy_clients s !! c) as [k|] eqn:Ek; [|done].
  destruct (look homeDir cwd k (sy_host s)) as [[h k']|] eqn:El; [|done]. injection Hs as <-. cbn. rewrite (lookup_insert_eq (M := gmap nat)). intros [= ->].
  exists k. split; [done|]. destruct k as [|path| | |port| |]; cbn [look] in El; try done; injection El as <- E; try done.
  - by destruct (pointer (sy_host s)).
  - destruct (dialExistingDaemon (sy_host s) path) eqn:Ed; [|done]. by injection E as <-.
  - destruct (readPortFile (sy_host s) portFile) eqn:Er; [done|]. injection E as <-. split_and!; [done..|]. left. by split.
  - destruct (dialPort (sy_host s) port) eqn:Ed; [|done]. by injection E as <-.
  - subst r. split_and!; [done..|]. by right.
Qed.

(** C12: finding the daemon, an access to the host at a time: daemons run one at a time, they and
    their files die and are left behind anywhere on the way, any of their writes may fail, other
    processes take ports, and clients look at the same time.  Provided that no client is between
    reading the port file and the end of its lookup while a daemon writes that file, a daemon that has
    announced itself and does not shut down is found by every lookup, one with nothing in between
    and one that ends with others in between: over its socket once that listens and the pointer to it
    is written, over its port before that.  With no such daemon a lookup finds none, or a process that
    listens on the port that the file of an earlier daemon names. *)
Theorem daemon_found s : Solo s ->
  (forall pid st, sy_daemons s !! pid = Some st -> is_up st = true ->
     (forall t, snd (resolveBrokerClient homeDir cwd t (sy_host s)) = Some (mkBrokerClient (address (sy_host s) st) (timeout_of t))) /\
     listener (sy_host s) (address (sy_host s) st) = Some pid /\
     forall c s' r, step (CLook c) s = Some s' -> sy_clients s' !! c = Some (LkDone r) ->
       exists v, r = Some v /\ listener (sy_host s') v = Some pid) /\
  ((forall pid st, sy_daemons s !! pid = Some st -> is_up st = false) ->
     (forall t, snd (resolveBrokerClient homeDir cwd t (sy_host s)) = None \/
        exists port q, snd (resolveBrokerClient homeDir cwd t (sy_host s)) = Some (mkBrokerClient (OverPort port) (timeout_of t)) /\
          readPortFile (sy_host s) portFile = Some port /\ ho_ports (sy_host s) !! port = Some q) /\
     forall c s' r, step (CLook c) s = Some s' -> sy_clients s' !! c = Some (LkDone r) ->
       r = None \/ exists port q, r = Some (OverPort port) /\ ho_ports (sy_host s') !! port = Some q).
Proof.
  intros HS. pose proof (solo_inv _ HS) as HI. split.
  - intros pid st Hd Hu. split_and!; [intros t; by destruct (solo_found s t pid st HS Hd Hu)|by destruct (solo_found s 0 pid st HS Hd Hu)|].
    intros c s' r Hs Hc. destruct (look_ends _ _ _ _ Hs Hc) as (k & Ek & Hsock & Hports & Hr).
    destruct (listens_port _ _ _ HI Hd Hu) as (Hf & Hp & Hl). destruct (i_clients _ HI _ _ _ _ Ek Hd) as [_ Hk]. destruct (Hk Hu) as [Hn Hport].
    destruct r as [[path|port]|].
    + destruct Hr as [-> Ed]. destruct (dial_unix _ _ _ _ HI Hd Ed) as [Eu ->]. eexists. split; [done|]. unfold listener. rewrite Hsock.
      by destruct (listens_unix _ _ _ HI Hd Eu).
    + destruct Hr as [-> Ed]. rewrite (Hport _ eq_refl) in *. eexists. split; [done|]. unfold listener. by rewrite Hports.
    + destruct Hr as [[-> E]| ->]; [|done]. congruence.
  - intros Hno. split.
    + intros t. destruct (resolve_shape homeDir cwd home_abs t (sy_host s)) as (h' & -> & _). cbn [snd]. unfold announced.
      assert (E : match pointer (sy_host s) with Some path => if dialExistingDaemon (sy_host s) path then Some path else None | None => None end = None).
      { destruct (pointer (sy_host s)) as [path|]; [|done]. by rewrite solo_none. }
      rewrite E. destruct (readPortFile (sy_host s) portFile) as [port|]; [|by left]. destruct (dialPort (sy_host s) port) eqn:Ed; [|by left].
      right. destruct (dial_port _ _ Ed) as [q Hq]. by exists port, q.
    + intros c s' r Hs Hc. destruct (look_ends _ _ _ _ Hs Hc) as (k & Ek & Hsock & Hports & Hr). destruct r as [[path|port]|]; [| |by left].
      * destruct Hr as [_ Ed]. by rewrite solo_none in Ed.
      * right. destruct Hr as [_ Ed]. destruct (dial_port _ _ Ed) as [q Hq]. exists port, q. by rewrite Hports.
Qed.

(** Every access brings a lookup nearer to its end, which it reaches after six at most, whatever
    happens in between. *)
Definition rank (k : Lookup) : nat :=
  match k with LkPointer => 6 | LkDial _ => 5 | LkDropSocket => 4 | LkReadPort => 3 | LkDialPort _ => 2 | LkDropPort => 1 | LkDone _ => 0 end.

Lemma look_ranks k h : match look homeDir cwd k h with Some (_, k') => (rank k' < rank k)%nat | None => exists r, k = LkDone r end.
Proof.
  destruct k as [|path| | |port| |r]; cbn [look]; [destruct (pointer h)|destruct (dialExistingDaemon h path)| |destruct (readPortFile h portFile)|destruct (dialPort h port)| |];
    cbn [rank]; try lia. by exists r.
Qed.
End Solo.

(** ** Examples *)

Definition no_host : System := mkSystem (mkHost ∅ ∅ ∅) ∅ ∅ 0.
Definition run_steps (es : list Step) : option System :=
  foldl (fun o e => match o with Some s => step "/h" (inr "/") e s | None => None end) (Some no_host) es.
Definition after (es : list Step) : System := default no_host (run_steps es).
Definition found (es : list Step) : option Via := bc_via <$> snd (resolveBrokerClient "/h" (inr "/") 0 (sy_host (after es))).

Definition announces (pid : nat) : list Step := [DOpenPort pid true; DWritePort pid true].
Definition points (pid : nat) : list Step := [DRemove pid true; DBind pid true; DOpenPointer pid true; DWritePointer pid true].
Definition serves (port : string) (pid : nat) : list Step := (DListen port :: announces pid ++ DCheck pid :: points pid)%list.

(** A daemon is killed while it serves, another one is started and killed before it serves; a
    third one is found on its port although the pointer is stale. *)
Definition crashes : list Step :=
  (serves "1" 0 ++ DKill 0 :: DListen "2" :: announces 1 ++ DKill 1 :: DListen "3" :: announces 2 ++ [DCheck 2])%list.
Example found_after_crashes : found crashes = Some (OverPort "3") /\ found (crashes ++ points 2) = Some (OverSocket "/h/.rallish/rallish.sock").
Proof. vm_compute. done. Qed.

(** [Solo] as a function. *)
Definition undisturbedb (e : Step) (s : System) : bool :=
  match e with
  | DListen _ => Nat.eqb (size (sy_daemons s)) 0
  | DOpenPort _ _ => forallb (fun ck => negb (probing (snd ck))) (map_to_list (sy_clients s))
  | CLook c => match sy_clients s !! c with
               | Some LkReadPort => forallb (fun ds => negb (is_opened (snd ds))) (map_to_list (sy_daemons s))
               | _ => true
               end
  | _ => true
  end.

Lemma undisturbedb_sound e s : undisturbedb e s = true -> undisturbed e s.
Proof.
  assert (Hall : forall A (f : A -> bool) (m : gmap nat A), forallb (fun x => negb (f (snd x))) (map_to_list m) = true -> forall i x, m !! i = Some x -> f x = false).
  { intros A f m H i x Hx. rewrite forallb_forall in H. apply elem_of_map_to_list, list_elem_of_In, H in Hx. by apply negb_true_iff in Hx. }
  destruct e as [| | | | | | | | | | | | | |c|]; cbn; try done.
  - intros H%Nat.eqb_eq. by apply map_size_empty_iff.
  - intros H. by apply (Hall _ probing).
  - intros H E. rewrite E in H. by apply (Hall _ is_opened).
Qed.

Fixpoint solo_run (es : list Step) (s : System) : option System :=
  match es with
  | [] => Some s
  | e :: es => if undisturbedb e s then match step "/h" (inr "/") e s with Some s => solo_run es s | None => None end else None
  end.

Lemma solo_run_Solo es s s' : Solo "/h" (inr "/") s -> solo_run es s = Some s' -> Solo "/h" (inr "/") s'.
Proof.
  revert s. induction es as [|e es IH]; intros s HS; cbn [solo_run]; [by intros [= <-]|].
  destruct (undisturbedb e s) eqn:E; [|done]. destruct (step "/h" (inr "/") e s) as [s1|] eqn:Es; [|done]. apply IH.
  eapply Solo_step; [done|done|by apply undisturbedb_sound].
Qed.

Definition solo_after (es : list Step) : System := default no_host (solo_run es no_host).
Lemma solo_after_Solo es : Solo "/h" (inr "/") (solo_after es).
Proof.
  unfold solo_after. destruct (solo_run es no_host) as [s|] eqn:E; [by apply (solo_run_Solo es no_host); [apply Solo_init|]|apply Solo_init].
Qed.

(** Another process takes the port of the daemon that was killed; a client that saw the pointer of
    that daemon looks on while the next one announces itself. *)
Definition crowd : list Step :=
  (serves "1" 0 ++ [DKill 0; FListen "1"; CStart 0; CLook 0; CLook 0; CLook 0] ++ DListen "2" :: announces 2 ++ [CLook 0])%list.

Lemma daemon_found_witness :
  exists pid st, sy_daemons (solo_after crowd) !! pid = Some st /\ is_up st = true /\
    snd (resolveBrokerClient "/h" (inr "/") 0 (sy_host (solo_after crowd))) = Some (mkBrokerClient (address "/h" (sy_host (solo_after crowd)) st) 30000000000) /\
    exists s' v, step "/h" (inr "/") (CLook 0) (solo_after crowd) = Some s' /\ sy_clients s' !! 0%nat = Some (LkDone (Some v)) /\
      listener (sy_host s') v = Some pid.
Proof.
  destruct (daemon_found "/h" (inr "/") eq_refl (solo_after crowd) (solo_after_Solo crowd)) as [Hup _].
  assert (Hd : sy_daemons (solo_after crowd) !! 2%nat = Some (Announced "2")) by (vm_compute; reflexivity).
  destruct (Hup _ _ Hd eq_refl) as (H1 & _ & H3). exists 2%nat, (Announced "2"). split; [exact Hd|]. split; [reflexivity|]. split; [exact (H1 0%Z)|].
  assert (Hc : match step "/h" (inr "/") (CLook 0) (solo_after crowd) with
               | Some s' => sy_clients s' !! 0%nat = Some (LkDone (Some (OverPort "2"))) | None => False end) by (vm_compute; reflexivity).
  destruct (step "/h" (inr "/") (CLook 0) (solo_after crowd)) as [s'|] eqn:Es; [|destruct Hc].
  destruct (H3 0%nat s' _ Es Hc) as (v & Hv & Hl). injection Hv as <-. exists s', (OverPort "2"). split; [reflexivity|]. split; [exact Hc|exact Hl].
Defined.

(** A client has found the port of a dead daemon closed and is about to remove the port file; the
    next daemon writes it first: its announcement is removed, and a daemon that has no socket is
    not found any more. *)
Example lookup_hides_daemon :
  let es := (DListen "1" :: announces 0 ++ [DKill 0; CStart 0; CLook 0; CLook 0; CLook 0] ++ DListen "2" :: announces 1 ++
             [CLook 0; DCheck 1; DRemove 1 true; DBind 1 false])%list in
  sy_daemons (after es) !! 1%nat = Some (Serving "2" false) /\ found es = None.
Proof. vm_compute. done. Qed.

(** A process that has taken the port of a daemon that was killed is taken for the daemon. *)
Example stale_port_taken :
  let es := (DListen "1" :: announces 0 ++ [DKill 0; FListen "1"])%list in
  sy_daemons (after es) = ∅ /\ found es = Some (OverPort "1").
Proof. vm_compute. done. Qed.

(** A second start overwrites the port file before it finds the first daemon and gives up: the file
    names a port nobody listens on. *)
Example second_start :
  let s := after (serves "1" 0 ++ DListen "2" :: announces 1 ++ [DCheck 1])%list in
  sy_daemons s !! 0%nat = Some (Serving "1" true) /\ sy_daemons s !! 1%nat = None /\
  ho_files (sy_host s) !! portFile "/h" = Some "2" /\ dialPort (sy_host s) "2" = false.
Proof. vm_compute. done. Qed.

(** Two daemons that start at the same time both serve, the second on the socket of the first; when
    one stops it removes the socket and both pointers of the other, which no client finds any more. *)
Example race_hides_daemon :
  let es := (DListen "1" :: DListen "2" :: announces 0 ++ announces 1 ++ DCheck 0 :: DCheck 1 :: points 0 ++ points 1 ++
             [DClose 0; DClean 0; DClean 0; DClean 0; DClean 0])%list in
  sy_daemons (after es) !! 1%nat = Some (Serving "2" true) /\ found es = None.
Proof. vm_compute. done. Qed.
