(* ===== verification/Ui.v ===== *)
(** * The terminal

    [internal/ui]: status lines, prompts and tables of the command line.  A terminal is what was
    printed on its two streams and what is left of its input.  The theorems: the columns of a
    table begin below each other, and the prompts answer within the choices. *)

From S2P Require Import Prelude GoStrings Json Codec Lines Utf8 Redact.
From Stdlib Require Import Ascii String.
#[local] Open Scope string_scope.

(* src: internal/ui/ui.go 94-111 Theme *)
Record Term := mkTerm { tm_color : bool; tm_out : string; tm_err : string; tm_in : string }.
#[export] Instance eta_Term : Eta Term := fun t => mkTerm (tm_color t) (tm_out t) (tm_err t) (tm_in t).

Definition print (s : string) (t : Term) : Term := t <| tm_out := tm_out t +:+ s |>.
Definition eprint (s : string) (t : Term) : Term := t <| tm_err := tm_err t +:+ s |>.

(* src: internal/ui/ui.go 35-35 GlyphInfo *)
Definition GlyphInfo : string := "◇".
(* src: internal/ui/ui.go 36-36 GlyphOK *)
Definition GlyphOK : string := "✓".
(* src: internal/ui/ui.go 37-37 GlyphErr *)
Definition GlyphErr : string := "■".
(* src: internal/ui/ui.go 38-38 GlyphWarn *)
Definition GlyphWarn : string := "⚠".
(* src: internal/ui/ui.go 39-39 GlyphPrompt *)
Definition GlyphPrompt : string := "◆".
(* src: internal/ui/ui.go 40-40 GlyphFooter *)
Definition GlyphFooter : string := "└".
(* src: internal/ui/ui.go 42-42 GlyphArrow *)
Definition GlyphArrow : string := "→".
(* src: internal/ui/ui.go 43-43 GlyphPipe *)
Definition GlyphPipe : string := "│".

Definition esc : ascii := byte_of 27.
Definition csi (code : string) : string := String esc ("[" +:+ code +:+ "m").
Definition ansiReset : string := csi "0".

(* src: internal/ui/ui.go 69-69 Style *)
Inductive Style : Set := StylePlain | StyleInfo | StyleSuccess | StyleWarn | StyleError | StyleDim | StylePrompt | StyleAccent | StyleHeading.

(** [tty] is the file behind the stream, if it is one, and whether it is a character device. *)
(* src: internal/ui/ui.go 124-143 detectColor *)
Definition detectColor (no_color : option string) (TERM : string) (tty : option bool) : bool :=
  match no_color with
  | Some _ => false
  | None => if String.eqb TERM "dumb" then false else match tty with Some chardev => chardev | None => false end
  end.

(* src: internal/ui/ui.go 159-183 Theme.styleANSI *)
Definition styleANSI (color : bool) (s : Style) : string * string :=
  if negb color then ("", "")
  else match s with
       | StyleInfo => (csi "94", ansiReset)
       | StyleSuccess => (csi "92", ansiReset)
       | StyleWarn => (csi "93", ansiReset)
       | StyleError => (csi "91", ansiReset)
       | StyleDim => (csi "2", ansiReset)
       | StylePrompt => (csi "96", ansiReset)
       | StyleAccent => (csi "35", ansiReset)
       | StyleHeading => (csi "1", ansiReset)
       | StylePlain => ("", "")
       end.
Definition styled (color : bool) (s : Style) (text : string) : string :=
  let '(o, c) := styleANSI color s in o +:+ text +:+ c.

(** ** Status lines *)

(* src: internal/ui/ui.go 283-288 Theme.line *)
Definition status_line (color : bool) (g : string) (s : Style) (text : string) : string := styled color s g +:+ "  " +:+ text +:+ nl.
(* src: internal/ui/ui.go 195-198 Theme.Info *)
Definition Info (text : string) (t : Term) : Term := print (status_line (tm_color t) GlyphInfo StyleInfo text) t.
(* src: internal/ui/ui.go 206-209 Theme.OK *)
Definition OK (text : string) (t : Term) : Term := print (status_line (tm_color t) GlyphOK StyleSuccess text) t.
(* src: internal/ui/ui.go 217-220 Theme.Warn *)
Definition Warn (text : string) (t : Term) : Term := eprint (status_line (tm_color t) GlyphWarn StyleWarn text) t.
(* src: internal/ui/ui.go 222-225 Theme.Err *)
Definition Err (text : string) (t : Term) : Term := eprint (status_line (tm_color t) GlyphErr StyleError text) t.
Definition numbered (idx total : Z) (text : string) : string := "[" +:+ Itoa idx +:+ "/" +:+ Itoa total +:+ "] " +:+ text.
(* src: internal/ui/ui.go 200-204 Theme.Step *)
Definition Step (idx total : Z) (text : string) (t : Term) : Term := Info (numbered idx total text) t.
(* src: internal/ui/ui.go 211-215 Theme.StepOK *)
Definition StepOK (idx total : Z) (text : string) (t : Term) : Term := OK (numbered idx total text) t.
(* src: internal/ui/ui.go 227-231 Theme.StepErr *)
Definition StepErr (idx total : Z) (text : string) (t : Term) : Term := Err (numbered idx total text) t.
(* src: internal/ui/ui.go 233-239 Theme.Detail *)
Definition Detail (text : string) (t : Term) : Term := print (GlyphPipe +:+ "  " +:+ styled (tm_color t) StyleDim text +:+ nl) t.
(* src: internal/ui/ui.go 241-246 Theme.Heading *)
Definition Heading (text : string) (t : Term) : Term := print (nl +:+ styled (tm_color t) StyleHeading text +:+ nl) t.
(* src: internal/ui/ui.go 248-253 Theme.Footer *)
Definition Footer (text : string) (t : Term) : Term :=
  print (nl +:+ GlyphFooter +:+ "  " +:+ styled (tm_color t) StyleAccent text +:+ nl +:+ nl) t.

Fixpoint blanks (n : nat) : string := match n with O => "" | S n => String " " (blanks n) end.
(** [%-ns] counts runes. *)
Definition pad_runes (n : nat) (s : string) : string := s +:+ blanks (n - List.length (runes s)).

(* src: internal/ui/ui.go 266-281 Theme.KvSource *)
Definition KvSource (label value source : string) (t : Term) : Term :=
  let suffix := if String.eqb source "" then "" else "  " +:+ styled (tm_color t) StyleDim ("(" +:+ source +:+ ")") in
  print ("  " +:+ styled (tm_color t) StyleSuccess "✔" +:+ " " +:+ pad_runes 18 label +:+ " " +:+ GlyphArrow +:+ " " +:+ value +:+ " " +:+ suffix +:+ nl) t.

(** ** Input *)

(** A line, without its end, and what follows; the flag is [io.EOF]. *)
Fixpoint read_string (s : string) : string * string * bool :=
  match s with
  | "" => ("", "", true)
  | String c r => if Ascii.eqb c nl_byte then ("", r, false) else let '(l, rest, eof) := read_string r in (String c l, rest, eof)
  end.
(* src: internal/ui/reader.go 21-32 bufioLineReader.readLine *)
Definition readLine (s : string) : string * string * bool := let '(l, rest, eof) := read_string s in (drop_cr l, rest, eof).

Definition input (t : Term) : string * Term := let '(l, rest, _) := readLine (tm_in t) in (l, t <| tm_in := rest |>).

Inductive PromptError : Set := ErrPromptRequired | ErrNoChoices | ErrNotANumber (ans : string) | ErrOutOfRange (n : Z).

(** An error of the input other than its end is not modelled. *)
(* src: internal/ui/prompt.go 14-40 Theme.Ask *)
Definition Ask (question def : string) (t : Term) : Term * (PromptError + string) :=
  let hint := if String.eqb def "" then "" else " " +:+ styled (tm_color t) StyleDim ("(" +:+ def +:+ ")") in
  let t := print (styled (tm_color t) StylePrompt GlyphPrompt +:+ "  " +:+ question +:+ hint +:+ " ") t in
  let '(line, t) := input t in
  let ans := TrimSpace line in
  (t, if String.eqb ans "" then (if String.eqb def "" then inl ErrPromptRequired else inr def) else inr ans).

(* src: internal/ui/prompt.go 42-62 Theme.Confirm *)
Definition Confirm (question : string) (defaultYes : bool) (t : Term) : Term * bool :=
  let hint := if defaultYes then "Y/n" else "y/N" in
  let t := print (styled (tm_color t) StylePrompt GlyphPrompt +:+ "  " +:+ question +:+ " " +:+ styled (tm_color t) StyleDim ("(" +:+ hint +:+ ")") +:+ " ") t in
  let '(line, t) := input t in
  let ans := ToLower (TrimSpace line) in
  (t, if String.eqb ans "" then defaultYes else String.eqb ans "y" || String.eqb ans "yes").

(** [fmt.Sscanf(ans, "%d", &idx)]: a sign and the digits at the head; what follows is left. *)
Definition scan_int (ans : string) : option Z :=
  let '(neg, s) := match ans with
                   | String c r => if Ascii.eqb c "-" then (true, r) else if Ascii.eqb c "+" then (false, r) else (false, ans)
                   | "" => (false, ans)
                   end in
  let '(ds, _) := span_digits s in
  if String.eqb ds "" then None
  else let n := uint_val 0 ds in let z := if (neg : bool) then (- n)%Z else n in
       if in_int64 z then Some z else None.

Fixpoint choice_lines (i : Z) (defaultIdx : Z) (choices : list string) : string :=
  match choices with
  | [] => ""
  | c :: rest => "  " +:+ (if (i =? defaultIdx)%Z then "›" else " ") +:+ " " +:+ Itoa (i + 1) +:+ ") " +:+ c +:+ nl +:+ choice_lines (i + 1) defaultIdx rest
  end.

(* src: internal/ui/prompt.go 64-103 Theme.SelectOne *)
Definition SelectOne (question : string) (choices : list string) (defaultIdx : Z) (t : Term) : Term * (PromptError + (string * Z)) :=
  let n := Z.of_nat (List.length choices) in
  match choices with
  | [] => (t, inl ErrNoChoices)
  | _ =>
      let defaultIdx := if (defaultIdx <? 0)%Z || (n <=? defaultIdx)%Z then 0%Z else defaultIdx in
      let '(o, c) := styleANSI (tm_color t) StyleDim in
      let t := print (styled (tm_color t) StylePrompt GlyphPrompt +:+ "  " +:+ question +:+ nl +:+ choice_lines 0 defaultIdx choices +:+
                      o +:+ "  pick (1-" +:+ Itoa n +:+ ", enter=" +:+ Itoa (defaultIdx + 1) +:+ "):" +:+ c +:+ " ") t in
      let '(line, t) := input t in
      let ans := TrimSpace line in
      (t, if String.eqb ans "" then inr (nth (Z.to_nat defaultIdx) choices "", defaultIdx)
          else match scan_int ans with
               | None => inl (ErrNotANumber ans)
               | Some idx => if (idx <? 1)%Z || (n <? idx)%Z then inl (ErrOutOfRange idx)
                             else inr (nth (Z.to_nat (idx - 1)) choices "", (idx - 1)%Z)
               end)
  end.

(** What is selected is one of the choices, at the index that is returned. *)
Lemma SelectOne_within question choices d t t' c i : SelectOne question choices d t = (t', inr (c, i)) ->
  (0 <= i)%Z /\ choices !! Z.to_nat i = Some c.
Proof.
  unfold SelectOne. destruct choices as [|c0 cs]; [done|]. set (l := c0 :: cs). set (n := Z.of_nat (List.length l)).
  set (d' := if (d <? 0)%Z || (n <=? d)%Z then 0%Z else d).
  assert (Hd : (0 <= d' < n)%Z).
  { unfold d'. destruct (Z.ltb_spec d 0), (Z.leb_spec n d); cbn [orb]; try lia; unfold n, l; cbn [List.length]; lia. }
  assert (Hnth : forall k, (0 <= k < n)%Z -> l !! Z.to_nat k = Some (nth (Z.to_nat k) l "")).
  { intros k Hk. destruct (nth_lookup_or_length l (Z.to_nat k) ""); [done|]. unfold n in Hk. lia. }
  destruct (styleANSI (tm_color t) StyleDim). destruct (input _) as [line t1]. case_match; [|case_match; [case_match|]].
  all: intros H'; simplify_eq.
  - split; [lia|]. by apply Hnth.
  - reflect_bools. split; [lia|]. apply Hnth. lia.
Qed.

(** At the end of the input the answer is the default, which need not be the first choice. *)
Lemma SelectOne_eof question choices d t : tm_in t = "" -> (0 <= d < Z.of_nat (List.length choices))%Z ->
  snd (SelectOne question choices d t) = inr (nth (Z.to_nat d) choices "", d).
Proof.
  intros Ht Hd. unfold SelectOne. destruct choices as [|c0 cs]; [cbn [List.length] in Hd; lia|].
  rewrite (proj2 (Z.ltb_ge d 0)), (proj2 (Z.leb_gt _ d)) by lia. cbn [orb].
  destruct (styleANSI (tm_color t) StyleDim). unfold input, readLine. cbn. by rewrite Ht.
Qed.

(** ** Tables *)

(** The code point of a rune; a byte that starts none is U+FFFD. *)
Definition rune_val (x : string) : Z :=
  let cont c := (byte_val c - 0x80)%Z in
  match x with
  | String c "" => if is_ascii c then byte_val c else 0xFFFD
  | String c (String a "") => ((byte_val c - 0xC0) * 64 + cont a)%Z
  | String c (String a (String b "")) => ((byte_val c - 0xE0) * 4096 + cont a * 64 + cont b)%Z
  | String c (String a (String b (String d ""))) => ((byte_val c - 0xF0) * 262144 + cont a * 4096 + cont b * 64 + cont d)%Z
  | _ => 0xFFFD
  end.

(** Escape sequences are removed up to their [m], or to the end of the text. *)
(* src: internal/ui/ui.go 290-306 stripANSI *)
Fixpoint strip_ansi (inside : bool) (l : list string) : list string :=
  match l with
  | [] => []
  | x :: r =>
      if inside then strip_ansi (negb (String.eqb x "m")) r
      else match r with
           | y :: r' => if String.eqb x (String esc "") && String.eqb y "[" then strip_ansi true r' else x :: strip_ansi false r
           | [] => [x]
           end
  end.

(** The tables [unicode.Hangul], [Han], [Hiragana] and [Katakana]. *)
Definition scripts : list (Z * Z) :=
  [ (0x1100, 0x11FF); (0x302E, 0x302F); (0x3131, 0x318E); (0x3200, 0x321E); (0x3260, 0x327E); (0xA960, 0xA97C); (0xAC00, 0xD7A3);
    (0xD7B0, 0xD7C6); (0xD7CB, 0xD7FB); (0xFFA0, 0xFFBE); (0xFFC2, 0xFFC7); (0xFFCA, 0xFFCF); (0xFFD2, 0xFFD7); (0xFFDA, 0xFFDC);
    (0x2E80, 0x2E99); (0x2E9B, 0x2EF3); (0x2F00, 0x2FD5); (0x3005, 0x3005); (0x3007, 0x3007); (0x3021, 0x3029); (0x3038, 0x303B);
    (0x3400, 0x4DBF); (0x4E00, 0x9FFF); (0xF900, 0xFA6D); (0xFA70, 0xFAD9); (0x16FE2, 0x16FE3); (0x16FF0, 0x16FF1); (0x20000, 0x2A6DF);
    (0x2A700, 0x2B739); (0x2B740, 0x2B81D); (0x2B820, 0x2CEA1); (0x2CEB0, 0x2EBE0); (0x2F800, 0x2FA1D); (0x30000, 0x3134A); (0x31350, 0x323AF);
    (0x3041, 0x3096); (0x309D, 0x309F); (0x1B001, 0x1B11F); (0x1B132, 0x1B132); (0x1B150, 0x1B152); (0x1F200, 0x1F200);
    (0x30A1, 0x30FA); (0x30FD, 0x30FF); (0x31F0, 0x31FF); (0x32D0, 0x32FE); (0x3300, 0x3357); (0xFF66, 0xFF6F); (0xFF71, 0xFF9D);
    (0x1AFF0, 0x1AFF3); (0x1AFF5, 0x1AFFB); (0x1AFFD, 0x1AFFE); (0x1B000, 0x1B000); (0x1B120, 0x1B122); (0x1B155, 0x1B155); (0x1B164, 0x1B167) ]%Z.
Definition within (r : Z) (p : Z * Z) : bool := ((fst p <=? r) && (r <=? snd p))%Z.

(* src: internal/ui/table.go 76-94 runeWidth *)
Definition runeWidth (r : Z) : nat :=
  if (r <? 0x80)%Z then 1
  else if existsb (within r) scripts then 2
  else if within r (0xFF00, 0xFFEF)%Z then 2
  else if within r (0x2E80, 0x303E)%Z then 2
  else 1.

(* src: internal/ui/table.go 62-74 visualWidth *)
Definition visualWidth (s : string) : nat := sum_list_with (fun x => runeWidth (rune_val x)) (strip_ansi false (runes s)).

(* src: internal/ui/table.go 96-102 padRight *)
Definition padRight (s : string) (w : nat) : string := s +:+ blanks (w - visualWidth s).

(* src: internal/ui/table.go 9-17 Table *)
Record Table := mkTable { tb_Headers : list string; tb_Rows : list (list string) }.

(** The widths of the columns: the widest cell of each, the cells beyond the headers left aside. *)
(* src: internal/ui/table.go 22-35 Theme.Render *)
Fixpoint widen (widths : list nat) (row : list string) : list nat :=
  match widths, row with
  | w :: ws, cell :: cells => Nat.max w (visualWidth cell) :: widen ws cells
  | ws, _ => ws
  end.
Definition widths_of (table : Table) : list nat := foldl widen (map visualWidth (tb_Headers table)) (tb_Rows table).

(** The cells of a line, each padded, with two blanks after every cell but the last of the row;
    the blanks stay when the cells after it are dropped. *)
(* src: internal/ui/table.go 47-58 Theme.Render *)
Fixpoint row_text (widths : list nat) (row : list string) : string :=
  match widths, row with
  | w :: ws, cell :: cells => padRight cell w +:+ (match cells with [] => "" | _ => "  " end) +:+ row_text ws cells
  | _, _ => ""
  end.

(* src: internal/ui/table.go 19-58 Theme.Render *)
Definition Render (table : Table) (t : Term) : Term :=
  let widths := widths_of table in
  print (styled (tm_color t) StyleDim (row_text widths (tb_Headers table)) +:+ nl +:+
         String.concat "" (map (fun row => row_text widths row +:+ nl) (tb_Rows table))) t.

Example two_columns : tm_out (Render (mkTable ["KEY"; "VALUE"] [["a"; "한글"]; ["long"; "x"]]) (mkTerm false "" "" "")) =
  "KEY   VALUE" +:+ nl +:+ "a     한글 " +:+ nl +:+ "long  x    " +:+ nl.
Proof. vm_compute. reflexivity. Qed.

(** ** The columns of a table *)

(** Text the terminal shows as it is: valid UTF-8 without escape sequences. *)
Definition plain (s : string) : bool := utf8_valid s && no_byte esc s.

Lemma rune_split c s k : utf8_tail c s = Some k ->
  exists t r, s = t +:+ r /\ (forall x, utf8_valid (String c (t +:+ x)) = utf8_valid x) /\ (forall x, runes (String c (t +:+ x)) = String c t :: runes x).
Proof.
  destruct k as [|[|[|k]]]; intros E.
  - exists "", s. apply utf8_tail_0 in E. split_and!; [done|intros x; cbn; by rewrite (utf8_tail_ascii c x E)..].
  - destruct (utf8_tail_1 _ _ E) as (_ & a & r & -> & Ht). exists (String a ""), r.
    split_and!; [done|intros x; cbn [String.append utf8_valid runes]; by rewrite Ht..].
  - destruct (utf8_tail_2 _ _ E) as (_ & a & b & r & -> & Ht). exists (String a (String b "")), r.
    split_and!; [done|intros x; cbn [String.append]; cbn [utf8_valid runes]; by rewrite Ht..].
  - destruct (utf8_tail_3 _ _ _ E) as (-> & _ & a & b & d & r & -> & Ht). exists (String a (String b (String d ""))), r.
    split_and!; [done|intros x; cbn [String.append]; cbn [utf8_valid runes]; by rewrite Ht..].
Qed.

Lemma runes_app a b : utf8_valid a = true -> runes (a +:+ b) = (runes a ++ runes b)%list.
Proof.
  remember (String.length a) as n eqn:Hn. revert a Hn. induction n as [n IH] using lt_wf_ind. intros [|c s] -> Ha; [done|].
  destruct (utf8_tail c s) as [k|] eqn:E; [|by cbn [utf8_valid] in Ha; rewrite E in Ha].
  destruct (rune_split c s k E) as (t & r & -> & Hv & Hr). rewrite Hv in Ha.
  cbn [String.append]. rewrite <-string_app_assoc, !Hr. cbn [app]. f_equal.
  apply (IH (String.length r)); [|done..]. cbn [String.length]. rewrite string_length_app. lia.
Qed.

Lemma text_runes_no_byte c l : no_byte c (text l) = true -> String c "" ∉ l.
Proof.
  unfold no_byte. induction l as [|x l IH]; cbn [text fold_right]; intros H; [by apply not_elem_of_nil|].
  rewrite string_forall_app in H. apply andb_true_iff in H as [Hx Hl]. apply not_elem_of_cons. split; [|by apply IH].
  intros <-. cbn in Hx. by rewrite Ascii.eqb_refl in Hx.
Qed.

Lemma strip_ansi_plain l : String esc "" ∉ l -> strip_ansi false l = l.
Proof.
  induction l as [|x l IH]; [done|]. intros [Hx Hl]%not_elem_of_cons. destruct l as [|y l]; [done|].
  change (strip_ansi false (x :: y :: l)) with
    (if String.eqb x (String esc "") && String.eqb y "[" then strip_ansi true l else x :: strip_ansi false (y :: l)).
  destruct (String.eqb_spec x (String esc "")) as [->|_]; [done|]. cbn [andb]. by rewrite IH.
Qed.

Definition width (s : string) : nat := sum_list_with (fun x => runeWidth (rune_val x)) (runes s).

Lemma visualWidth_plain s : plain s = true -> visualWidth s = width s.
Proof.
  unfold plain, visualWidth, width. intros [_ He]%andb_true_iff. rewrite strip_ansi_plain; [done|].
  apply text_runes_no_byte. by rewrite (proj2 (runes_good s)).
Qed.

Lemma width_app a b : utf8_valid a = true -> width (a +:+ b) = (width a + width b)%nat.
Proof. intros H. unfold width. by rewrite runes_app, sum_list_with_app. Qed.

Lemma plain_app a b : plain a = true -> plain b = true -> plain (a +:+ b) = true.
Proof.
  unfold plain, no_byte. intros [Ha Ea]%andb_true_iff [Hb Eb]%andb_true_iff.
  by rewrite utf8_valid_app, string_forall_app, Ea, Eb.
Qed.

Lemma blanks_plain n : plain (blanks n) = true.
Proof. induction n as [|n IH]; [done|]. change (blanks (S n)) with (" " +:+ blanks n). by apply plain_app. Qed.

Lemma width_blanks n : width (blanks n) = n.
Proof. induction n as [|n IH]; [done|]. change (blanks (S n)) with (" " +:+ blanks n). rewrite width_app by done. by rewrite IH. Qed.

Lemma padRight_plain s w : plain s = true -> plain (padRight s w) = true.
Proof. intros H. apply plain_app; [done|apply blanks_plain]. Qed.

Lemma width_padRight s w : plain s = true -> (visualWidth s <= w)%nat -> width (padRight s w) = w.
Proof.
  intros H Hw. unfold padRight. rewrite width_app, width_blanks, <-visualWidth_plain by (done || by apply andb_true_iff in H as [? _]). lia.
Qed.

(** *** The widths *)

Lemma widen_length ws row : List.length (widen ws row) = List.length ws.
Proof. revert row. induction ws as [|w ws IH]; intros [|c row]; cbn; auto. Qed.

(** Every column is at least as wide as its cells. *)
Definition covers (ws : list nat) (row : list string) : Prop := forall j w cell, ws !! j = Some w -> row !! j = Some cell -> (visualWidth cell <= w)%nat.
Definition wider (ws ws' : list nat) : Prop := List.length ws = List.length ws' /\ forall j w w', ws !! j = Some w -> ws' !! j = Some w' -> (w <= w')%nat.

Lemma widen_wider ws row : wider ws (widen ws row).
Proof.
  split; [by rewrite widen_length|]. revert row. induction ws as [|w ws IH]; intros [|c row] [|j] x x'; cbn; intros H H'; simplify_eq; try lia; [].
  by eapply IH.
Qed.

Lemma widen_covers ws row : covers (widen ws row) row.
Proof.
  unfold covers. revert row. induction ws as [|w ws IH]; intros [|c row] [|j] x cell; cbn; intros H H'; simplify_eq; try lia; [].
  by eapply IH.
Qed.

Lemma wider_trans a b c : wider a b -> wider b c -> wider a c.
Proof.
  intros [Hl H] [Hl' H']. split; [congruence|]. intros j w w' Hw Hw'.
  destruct (lookup_lt_is_Some_2 b j) as [x Hx]; [rewrite <-Hl; by eapply lookup_lt_Some|].
  etrans; [exact (H _ _ _ Hw Hx)|exact (H' _ _ _ Hx Hw')].
Qed.

Lemma covers_wider a b row : wider a b -> covers a row -> covers b row.
Proof.
  intros [Hl H] Hc j w cell Hw Hcell. destruct (lookup_lt_is_Some_2 a j) as [x Hx]; [rewrite Hl; by eapply lookup_lt_Some|].
  etrans; [by eapply Hc|by eapply H].
Qed.

Lemma foldl_widen_wider rows : forall ws, wider ws (foldl widen ws rows).
Proof.
  induction rows as [|r rows IH]; intros ws; cbn [foldl]; [by split; [|intros; simplify_eq]|].
  eapply wider_trans; [apply widen_wider|apply IH].
Qed.

Lemma foldl_widen_covers rows row : row ∈ rows -> forall ws, covers (foldl widen ws rows) row.
Proof.
  induction 1 as [row rows|row r rows _ IH]; intros ws; cbn [foldl]; [|apply IH].
  eapply covers_wider; [apply foldl_widen_wider|apply widen_covers].
Qed.

Lemma widths_cover table row : row ∈ tb_Headers table :: tb_Rows table -> covers (widths_of table) row.
Proof.
  unfold widths_of. intros [->|H]%elem_of_cons; [|by apply foldl_widen_covers].
  eapply covers_wider; [apply foldl_widen_wider|]. intros j w cell Hw Hc. rewrite list_lookup_fmap, Hc in Hw. by simplify_eq/=.
Qed.

Lemma widths_length table : List.length (widths_of table) = List.length (tb_Headers table).
Proof. unfold widths_of. destruct (foldl_widen_wider (tb_Rows table) (map visualWidth (tb_Headers table))) as [<- _]. by rewrite length_map. Qed.

(** *** A cell of a line *)

Lemma row_text_cell ws row j cell : covers ws row -> Forall (fun s => plain s = true) row -> (j < List.length ws)%nat -> row !! j = Some cell ->
  exists before after, row_text ws row = before +:+ cell +:+ after /\ plain before = true /\
    width before = (sum_list (take j ws) + 2 * j)%nat.
Proof.
  revert row j. induction ws as [|w ws IH]; intros row j Hc Hp Hj Hcell; cbn [List.length] in Hj; [lia|].
  destruct row as [|c row]; [done|]. inversion_clear Hp as [|? ? Hpc Hpr]. destruct j as [|j]; cbn in Hcell.
  - injection Hcell as ->. exists "". eexists. split_and!; [|done..].
    cbn [row_text]. unfold padRight. cbn [String.append]. by rewrite <-string_app_assoc.
  - assert (Hcr : covers ws row) by (intros i; exact (Hc (S i))).
    destruct (IH row j Hcr Hpr ltac:(lia) Hcell) as (before & after & E & Hb & Hw).
    exists (padRight c w +:+ "  " +:+ before), after. split_and!.
    + cbn [row_text]. rewrite E. destruct row; [done|]. by rewrite !string_app_assoc.
    + apply plain_app; [by apply padRight_plain|]. by apply plain_app.
    + assert (Hv : utf8_valid (padRight c w) = true) by (by apply (padRight_plain c w), andb_true_iff in Hpc as [? _]).
      rewrite (width_app (padRight c w)), (width_app "  ") by done.
      rewrite width_padRight by (done || exact (Hc 0%nat _ _ eq_refl eq_refl)). rewrite Hw.
      change (width "  ") with 2%nat. change (sum_list (take (S j) (w :: ws))) with (w + sum_list (take j ws))%nat. lia.
Qed.

(** Whatever the cells of a table hold, plain text in any script, the cells of one column
    begin at the same place of the terminal: before the cell of column j of the header or of a
    row the line holds what the widths of the columns to its left and two blanks each take, and
    these widths are those of the widest cells.  No cell is cut. *)
Theorem columns_align (table : Table) (row : list string) (j : nat) (cell : string) :
  Forall (Forall (fun s => plain s = true)) (tb_Headers table :: tb_Rows table) ->
  row ∈ tb_Headers table :: tb_Rows table -> row !! j = Some cell -> (j < List.length (tb_Headers table))%nat ->
  exists before after, row_text (widths_of table) row = before +:+ cell +:+ after /\
    visualWidth before = (sum_list (take j (widths_of table)) + 2 * j)%nat.
Proof.
  intros Hp Hrow Hcell Hj. destruct (row_text_cell (widths_of table) row j cell) as (b & a & E & Hb & Hw); try done.
  - by apply widths_cover.
  - rewrite Forall_forall in Hp. by apply Hp.
  - by rewrite widths_length.
  - exists b, a. split; [done|]. by rewrite visualWidth_plain.
Qed.

Example columns_align_witness :
  exists before after, row_text (widths_of (mkTable ["KEY"; "VALUE"] [["한글"; "a"]])) ["한글"; "a"] = before +:+ "a" +:+ after /\ visualWidth before = 6%nat.
Proof. apply (columns_align (mkTable ["KEY"; "VALUE"] [["한글"; "a"]]) ["한글"; "a"] 1 "a"); [repeat constructor|set_solver|done|cbn; lia]. Defined.
