(* ===== verification/Config.v ===== *)
(** * The configuration

    [internal/config/config.go] and [internal/cli/config.go]: the settings in
    [~/.rallish/config.yaml], layered over the built-in defaults, and the commands [config list],
    [get], [set], [path] and [edit].  YAML is a third-party library: the two functions used of it
    are parameters, with the law that what was written is read back.

    The theorem: [config set] either fails and leaves the file alone, or from then on [config get]
    answers the new value for that key and what it answered before for every other key. *)

From S2P Require Import Prelude GoStrings Json Codec Lines Paths Ui.
From stdpp Require Import sorting.
From Stdlib Require Import Ascii String.
#[local] Open Scope string_scope.

(** ** Settings *)

(* src: internal/config/config.go 34-46 Config *)
Record Config := mkConfig { cf_DefaultPreset : string; cf_DefaultAdapter : string; cf_CodingCLI : string;
                            cf_Editor : string; cf_WaitMode : string; cf_Telemetry : string }.
#[export] Instance eta_Config : Eta Config := fun c =>
  mkConfig (cf_DefaultPreset c) (cf_DefaultAdapter c) (cf_CodingCLI c) (cf_Editor c) (cf_WaitMode c) (cf_Telemetry c).
Definition Config_zero : Config := mkConfig "" "" "" "" "" "".

(* src: internal/config/config.go 48-49 Source *)
Inductive Source : Set := SourceFile | SourceEnv | SourceDefault.
Definition source_string (s : Source) : string := match s with SourceFile => "file" | SourceEnv => "env" | SourceDefault => "default" end.

(* src: internal/config/config.go 58-64 Entry *)
Record Entry := mkEntry { en_Key : string; en_Value : string; en_Source : Source; en_Description : string }.

(* src: internal/config/config.go 66-77 Defaults *)
Definition Defaults : Config := mkConfig "solo-ralph" "claude" "claude" "" "yield" "off".

(* src: internal/config/config.go 79-90 Keys *)
Definition Keys : list string := ["coding_cli"; "default_adapter"; "default_preset"; "editor"; "telemetry"; "wait_mode"].
(* src: internal/config/config.go 92-100 KnownKey *)
Definition KnownKey (k : string) : bool := existsb (fun x => String.eqb x k) Keys.

(* src: internal/config/config.go 102-121 Describe *)
Definition Describe (k : string) : string :=
  if String.eqb k "default_preset" then "Preset used when `rallish squash` is run without --preset"
  else if String.eqb k "default_adapter" then "Adapter (runtime) presets default to (e.g. claude, kimi)"
  else if String.eqb k "coding_cli" then "Coding-CLI vendor for skill install path (claude / kimi / codex)"
  else if String.eqb k "editor" then "Editor opened by `rallish config edit` (else $EDITOR, $VISUAL, vi)"
  else if String.eqb k "wait_mode" then "Default rally WAIT_MODE (yield = poll on user msg; block = blocking join)"
  else if String.eqb k "telemetry" then "Reserved for future opt-in usage telemetry (on / off)"
  else "".

(** [errors.Is] tells the first two; the texts of the others begin as their names say. *)
(* src: internal/config/config.go 22-32 ErrUnknownKey *)
Inductive ConfigError : Set :=
  | ErrUnknownKey (key : string) | ErrInvalidValue (key : string)
  | GetHomeDir | ReadConfig | ParseConfig | CreateConfigDir | MarshalConfig | WriteConfig | RenameConfig
  | UnknownKeyArg (key : string) | KeyNotResolved (key : string) | EditorFails.

(* src: internal/config/config.go 240-259 Get *)
Definition config_Get (cfg : Config) (key : string) : ConfigError + string :=
  if String.eqb key "default_preset" then inr (cf_DefaultPreset cfg)
  else if String.eqb key "default_adapter" then inr (cf_DefaultAdapter cfg)
  else if String.eqb key "coding_cli" then inr (cf_CodingCLI cfg)
  else if String.eqb key "editor" then inr (cf_Editor cfg)
  else if String.eqb key "wait_mode" then inr (cf_WaitMode cfg)
  else if String.eqb key "telemetry" then inr (cf_Telemetry cfg)
  else inl (ErrUnknownKey key).

(* src: internal/config/config.go 327-333 validCodingCLI *)
Definition validCodingCLI (v : string) : bool := String.eqb v "claude" || String.eqb v "kimi" || String.eqb v "codex".
(** The empty value is always allowed. *)
Definition unset_or (valid : string -> bool) (v : string) : bool := String.eqb v "" || valid v.

(* src: internal/config/config.go 261-291 Set *)
Definition config_Set (cfg : Config) (key value : string) : ConfigError + Config :=
  let value := TrimSpace value in
  if String.eqb key "default_preset" then inr (cfg <| cf_DefaultPreset := value |>)
  else if String.eqb key "default_adapter" then inr (cfg <| cf_DefaultAdapter := value |>)
  else if String.eqb key "coding_cli" then
    if unset_or validCodingCLI value then inr (cfg <| cf_CodingCLI := value |>) else inl (ErrInvalidValue key)
  else if String.eqb key "editor" then inr (cfg <| cf_Editor := value |>)
  else if String.eqb key "wait_mode" then
    if unset_or (fun v => String.eqb v "yield" || String.eqb v "block") value then inr (cfg <| cf_WaitMode := value |>) else inl (ErrInvalidValue key)
  else if String.eqb key "telemetry" then
    if unset_or (fun v => String.eqb v "on" || String.eqb v "off") value then inr (cfg <| cf_Telemetry := value |>) else inl (ErrInvalidValue key)
  else inl (ErrUnknownKey key).

(** ** The file *)

(** The variables read, and what [os.UserHomeDir] answers. *)
Record ConfigEnv := mkConfigEnv { ce_RALLISH_HOME : string; ce_home : option string; ce_VISUAL : string; ce_EDITOR : string }.

(* src: internal/config/config.go 133-143 Dir *)
Definition Dir (env : ConfigEnv) : ConfigError + string :=
  if negb (String.eqb (ce_RALLISH_HOME env) "") then inr (ce_RALLISH_HOME env)
  else match ce_home env with None => inl GetHomeDir | Some home => inr (filepath_Join [home; ".rallish"]) end.
(* src: internal/config/config.go 123-131 Path *)
Definition config_Path (env : ConfigEnv) : ConfigError + string :=
  match Dir env with inl e => inl e | inr dir => inr (filepath_Join [dir; "config.yaml"]) end.

(* src: internal/config/config.go 197-202 LoadResult *)
Record LoadResult := mkLoadResult { lr_Path : string; lr_FileExists : bool; lr_fileKeys : gset string }.
#[export] Instance eta_LoadResult : Eta LoadResult := fun r => mkLoadResult (lr_Path r) (lr_FileExists r) (lr_fileKeys r).
(* src: internal/config/config.go 204-209 LoadResult.fromFile *)
Definition fromFile (r : LoadResult) (k : string) : LoadResult := r <| lr_fileKeys := {[k]} ∪ lr_fileKeys r |>.
(* src: internal/config/config.go 211-214 LoadResult.IsFromFile *)
Definition IsFromFile (r : LoadResult) (k : string) : bool := bool_decide (k ∈ lr_fileKeys r).

(** One setting of the file over the default. *)
(* src: internal/config/config.go 170-173 Load *)
Definition layer (k v : string) (upd : string -> Config -> Config) (acc : Config * LoadResult) : Config * LoadResult :=
  let '(merged, res) := acc in
  if negb (String.eqb v "") then (upd v merged, fromFile res k) else (merged, res).

Abbreviation Files := (gmap string string).
(** Where a save fails; a failed write leaves what it left in the temporary file. *)
Inductive SaveFault : Set := SaveOK | MkdirFault | WriteFault (left_ : option string) | RenameFault.

(** What is used of [goccy/go-yaml]. *)
Class Yaml := { yaml_Marshal : Config -> option string; yaml_Unmarshal : string -> option Config }.

Section Config.
Context {yaml : Yaml}.
Variable env : ConfigEnv.

(** [readable]: the file, if it is there, can be read. *)
(* src: internal/config/config.go 145-195 Load *)
Definition config_Load (readable : bool) (fs : Files) : Config * LoadResult * option ConfigError :=
  match config_Path env with
  | inl e => (Defaults, mkLoadResult "" false ∅, Some e)
  | inr path =>
      let res := mkLoadResult path false ∅ in
      match fs !! path with
      | None => (Defaults, res, None)
      | Some data =>
          if negb readable then (Defaults, res, Some ReadConfig)
          else
            let res := res <| lr_FileExists := true |> in
            match yaml_Unmarshal data with
            | None => (Defaults, res, Some ParseConfig)
            | Some cfg =>
                let merged :=
                  layer "telemetry" (cf_Telemetry cfg) (fun v c => c <| cf_Telemetry := v |>)
                  (layer "wait_mode" (cf_WaitMode cfg) (fun v c => c <| cf_WaitMode := v |>)
                  (layer "editor" (cf_Editor cfg) (fun v c => c <| cf_Editor := v |>)
                  (layer "coding_cli" (cf_CodingCLI cfg) (fun v c => c <| cf_CodingCLI := v |>)
                  (layer "default_adapter" (cf_DefaultAdapter cfg) (fun v c => c <| cf_DefaultAdapter := v |>)
                  (layer "default_preset" (cf_DefaultPreset cfg) (fun v c => c <| cf_DefaultPreset := v |>) (Defaults, res)))))) in
                (merged, None)
            end
      end
  end.

(* src: internal/config/config.go 216-238 Save *)
Definition config_Save (fault : SaveFault) (cfg : Config) (fs : Files) : Files * option ConfigError :=
  match config_Path env with
  | inl e => (fs, Some e)
  | inr path =>
      match fault with
      | MkdirFault => (fs, Some CreateConfigDir)
      | _ =>
          match yaml_Marshal cfg with
          | None => (fs, Some MarshalConfig)
          | Some data =>
              let tmp := path +:+ ".tmp" in
              match fault with
              | WriteFault left_ => (match left_ with Some text => <[tmp := text]> fs | None => fs end, Some WriteConfig)
              | RenameFault => (<[tmp := data]> fs, Some RenameConfig)
              | _ => (<[path := data]> (delete tmp fs), None)
              end
          end
      end
  end.

(** ** Resolving *)

Definition entry_le (a b : Entry) : Prop := string_le (en_Key a) (en_Key b).
#[export] Instance entry_le_dec a b : Decision (entry_le a b) := decide (string_le (en_Key a) (en_Key b)).

(** The value of a key and where it comes from. *)
(* src: internal/config/config.go 299-316 Resolve *)
Definition resolve_key (cfg : Config) (res : LoadResult) (k : string) : string * Source :=
  let val := match config_Get cfg k with inr v => v | inl _ => "" end in
  if String.eqb k "editor" && String.eqb val "" then
    if negb (String.eqb (ce_VISUAL env) "") then (ce_VISUAL env, SourceEnv)
    else if negb (String.eqb (ce_EDITOR env) "") then (ce_EDITOR env, SourceEnv)
    else ("vi", SourceDefault)
  else (val, if IsFromFile res k then SourceFile else SourceDefault).

(** The keys differ, so it does not matter that the sort is not stable. *)
(* src: internal/config/config.go 293-325 Resolve *)
Definition Resolve (cfg : Config) (res : LoadResult) : list Entry :=
  merge_sort entry_le (map (fun k => mkEntry k (fst (resolve_key cfg res k)) (snd (resolve_key cfg res k)) (Describe k)) Keys).

(** ** The commands *)

(* src: internal/cli/config.go 127-157 RunConfigList *)
Definition RunConfigList (readable : bool) (fs : Files) (t : Term) : Term * option ConfigError :=
  match config_Load readable fs with
  | (_, _, Some e) => (t, Some e)
  | (cfg, res, None) =>
      let t := if lr_FileExists res then Info ("config file: " +:+ lr_Path res) t
               else Detail ("no config file yet — showing built-in defaults (" +:+ lr_Path res +:+ ")") t in
      let rows := map (fun e => [en_Key e; if String.eqb (en_Value e) "" then "(unset)" else en_Value e;
                                 source_string (en_Source e); en_Description e]) (Resolve cfg res) in
      let t := print nl (Render (mkTable ["KEY"; "VALUE"; "SOURCE"; "DESCRIPTION"] rows) (print nl t)) in
      (Detail "open in editor:  rallish config edit" (Detail "change a value:  rallish config set <key> <value>" t), None)
  end.

(* src: internal/cli/config.go 159-176 RunConfigGet *)
Definition RunConfigGet (readable : bool) (key : string) (fs : Files) (t : Term) : Term * option ConfigError :=
  if negb (KnownKey key) then (t, Some (UnknownKeyArg key))
  else match config_Load readable fs with
       | (_, _, Some e) => (t, Some e)
       | (cfg, res, None) =>
           match List.find (fun e => String.eqb (en_Key e) key) (Resolve cfg res) with
           | Some e => (print (en_Value e +:+ nl) t, None)
           | None => (t, Some (KeyNotResolved key))
           end
       end.

(* src: internal/cli/config.go 178-195 RunConfigSet *)
Definition RunConfigSet (readable : bool) (fault : SaveFault) (key value : string) (fs : Files) (t : Term) : Files * Term * option ConfigError :=
  match config_Load readable fs with
  | (_, _, Some e) => (fs, t, Some e)
  | (cfg, _, None) =>
      match config_Set cfg key value with
      | inl e => (fs, t, Some e)
      | inr cfg =>
          match config_Save fault cfg fs with
          | (fs, Some e) => (fs, t, Some e)
          | (fs, None) =>
              let path := match config_Path env with inr p => p | inl _ => "" end in
              (fs, Detail ("file: " +:+ path) (OK ("set " +:+ key +:+ " = " +:+ value) t), None)
          end
      end
  end.

(* src: internal/cli/config.go 102-115 configPathCmd *)
Definition configPath (t : Term) : Term * option ConfigError :=
  match config_Path env with inl e => (t, Some e) | inr p => (print (p +:+ nl) t, None) end.

(* src: internal/cli/config.go 233-246 chooseEditor *)
Definition chooseEditor (cfgValue : string) : string :=
  if negb (String.eqb cfgValue "") then cfgValue
  else if negb (String.eqb (ce_VISUAL env) "") then ce_VISUAL env
  else if negb (String.eqb (ce_EDITOR env) "") then ce_EDITOR env
  else "vi".

(** [runner] is the editor: what it leaves of the files, and whether it ended well. *)
(* src: internal/cli/config.go 197-231 RunConfigEdit *)
Definition RunConfigEdit (runner : string -> string -> Files -> Files * bool) (readable : bool) (fault : SaveFault) (fs : Files) (t : Term)
    : Files * Term * option ConfigError :=
  match config_Path env with
  | inl e => (fs, t, Some e)
  | inr path =>
      let created :=
        match fs !! path with
        | Some _ => (fs, t, None)
        | None =>
            match config_Load readable fs with
            | (_, _, Some e) => (fs, t, Some e)
            | (cfg, _, None) =>
                match config_Save fault cfg fs with
                | (fs, Some e) => (fs, t, Some e)
                | (fs, None) => (fs, Detail ("created " +:+ path +:+ " with defaults") t, None)
                end
            end
        end in
      match created with
      | (fs, t, Some e) => (fs, t, Some e)
      | (fs, t, None) =>
          match config_Load readable fs with
          | (_, _, Some e) => (fs, t, Some e)
          | (cfg, _, None) =>
              let editor := chooseEditor (cf_Editor cfg) in
              let t := Info ("opening " +:+ path +:+ " in " +:+ editor) t in
              let '(fs, ok) := runner editor path fs in
              (fs, t, if ok : bool then None else Some EditorFails)
          end
      end
  end.
End Config.

(** The text of a value as YAML can carry it. *)
Definition Config_wf (c : Config) : bool :=
  forallb utf8_valid [cf_DefaultPreset c; cf_DefaultAdapter c; cf_CodingCLI c; cf_Editor c; cf_WaitMode c; cf_Telemetry c].
Class YamlLaw (yaml : Yaml) := yaml_read_back : forall c, Config_wf c = true -> exists data, yaml_Marshal c = Some data /\ yaml_Unmarshal data = Some c.

(** ** Facts *)

Section Facts.
Context {yaml : Yaml} {law : YamlLaw yaml}.
Variable env : ConfigEnv.

(** The sort changes nothing: the keys are listed in order. *)
Lemma Keys_sorted (v : string -> string) (s : string -> Source) (d : string -> string) :
  merge_sort entry_le (map (fun k => mkEntry k (v k) (s k) (d k)) Keys) = map (fun k => mkEntry k (v k) (s k) (d k)) Keys.
Proof. vm_compute. reflexivity. Qed.

Lemma Resolve_sorted cfg res : Resolve env cfg res =
  map (fun k => mkEntry k (fst (resolve_key env cfg res k)) (snd (resolve_key env cfg res k)) (Describe k)) Keys.
Proof. exact (Keys_sorted (fun k => fst (resolve_key env cfg res k)) (fun k => snd (resolve_key env cfg res k)) Describe). Qed.

Lemma KnownKey_Keys k : KnownKey k = true <-> k ∈ Keys.
Proof.
  unfold KnownKey. rewrite existsb_exists. split.
  - intros (x & Hx & ->%String.eqb_eq). by apply list_elem_of_In.
  - intros H. exists k. by rewrite String.eqb_refl, <-list_elem_of_In.
Qed.

Lemma find_key {A} (f : string -> A) (key_of : A -> string) k l : (forall x, key_of (f x) = x) -> k ∈ l ->
  List.find (fun e => String.eqb (key_of e) k) (map f l) = Some (f k).
Proof.
  intros Hf. induction 1 as [k l|k x l _ IH]; cbn; rewrite Hf; [by rewrite String.eqb_refl|].
  by destruct (String.eqb_spec x k) as [->|_].
Qed.

(** [config get] answers the resolved value. *)
Lemma RunConfigGet_value k fs cfg res t : k ∈ Keys -> config_Load env true fs = (cfg, res, None) ->
  RunConfigGet env true k fs t = (print (fst (resolve_key env cfg res k) +:+ nl) t, None).
Proof.
  intros Hk Hl. unfold RunConfigGet. rewrite (proj2 (KnownKey_Keys k) Hk), Hl. cbn [negb]. rewrite Resolve_sorted.
  rewrite (find_key (fun k => mkEntry k (fst (resolve_key env cfg res k)) (snd (resolve_key env cfg res k)) (Describe k)) en_Key k Keys); [done|done|exact Hk].
Qed.

(** What a setting of the file makes of a default. *)
Definition over (def v : string) : string := if String.eqb v "" then def else v.
Definition overlay (c : Config) : Config :=
  mkConfig (over (cf_DefaultPreset Defaults) (cf_DefaultPreset c)) (over (cf_DefaultAdapter Defaults) (cf_DefaultAdapter c))
    (over (cf_CodingCLI Defaults) (cf_CodingCLI c)) (over (cf_Editor Defaults) (cf_Editor c))
    (over (cf_WaitMode Defaults) (cf_WaitMode c)) (over (cf_Telemetry Defaults) (cf_Telemetry c)).
(** Every key is one of six. *)
Lemma Keys_cases (P : string -> Prop) : P "coding_cli" -> P "default_adapter" -> P "default_preset" -> P "editor" -> P "telemetry" -> P "wait_mode" ->
  forall k, k ∈ Keys -> P k.
Proof. intros ? ? ? ? ? ? k Hk. unfold Keys in Hk. rewrite !elem_of_cons, elem_of_nil in Hk. destruct_or? Hk; subst; done. Qed.

Lemma layer_value k v upd acc : fst (layer k v upd acc) = if String.eqb v "" then fst acc else upd v (fst acc).
Proof. destruct acc. unfold layer. by destruct (String.eqb v ""). Qed.

Lemma layer_exists k v upd acc : lr_FileExists (snd (layer k v upd acc)) = lr_FileExists (snd acc).
Proof. destruct acc. unfold layer. by destruct (String.eqb v ""). Qed.

Lemma layer_from k v upd acc x : IsFromFile (snd (layer k v upd acc)) x = (String.eqb x k && negb (String.eqb v "")) || IsFromFile (snd acc) x.
Proof.
  destruct acc as [m res]. unfold layer, IsFromFile. destruct (String.eqb v ""); cbn; [by rewrite andb_false_r|]. rewrite andb_true_r.
  destruct (String.eqb_spec x k) as [->|Hn]; cbn; [apply bool_decide_eq_true; set_solver|].
  apply bool_decide_ext. set_solver.
Qed.

(** A file over the defaults: its values, and which keys come from it. *)
Lemma config_Load_file fs path data c : config_Path env = inr path -> fs !! path = Some data -> yaml_Unmarshal data = Some c ->
  exists res, config_Load env true fs = (overlay c, res, None) /\ lr_FileExists res = true /\
    forall k v, k ∈ Keys -> config_Get c k = inr v -> IsFromFile res k = negb (String.eqb v "").
Proof.
  intros Hp Hf Hu. unfold config_Load. rewrite Hp, Hf. cbn [negb]. rewrite Hu.
  match goal with |- exists res, (?p, None) = _ /\ _ => exists (snd p); rewrite (surjective_pairing p) at 1 end.
  split; [|split].
  - f_equal. f_equal. rewrite !layer_value. destruct c as [a b d e f g]. unfold overlay, over; cbn.
    by destruct (String.eqb a ""), (String.eqb b ""), (String.eqb d ""), (String.eqb e ""), (String.eqb f ""), (String.eqb g "").
  - by rewrite !layer_exists.
  - intros k v Hk. rewrite !layer_from. revert v. pattern k. revert k Hk. apply Keys_cases; cbn; intros v [= <-]; by rewrite ?orb_false_r.
Qed.

Lemma config_Get_unknown c k : k ∉ Keys -> config_Get c k = inl (ErrUnknownKey k).
Proof.
  intros Hk. unfold Keys in Hk. rewrite !not_elem_of_cons in Hk. destruct_and! Hk. unfold config_Get.
  by repeat match goal with H : k <> ?x |- _ => rewrite (proj2 (String.eqb_neq k x) H); clear H end.
Qed.

Lemma config_Get_overlay c k : k ∈ Keys -> exists d v, config_Get Defaults k = inr d /\ config_Get c k = inr v /\ config_Get (overlay c) k = inr (over d v).
Proof. revert k. apply Keys_cases; eexists _, _; split_and!; reflexivity. Qed.

Lemma over_idem d v : over d (over d v) = over d v.
Proof. unfold over. destruct (String.eqb v "") eqn:E; [by destruct (String.eqb d "")|by rewrite E]. Qed.

Lemma overlay_idem c : overlay (overlay c) = overlay c.
Proof. destruct c. unfold overlay. cbn. by rewrite !over_idem. Qed.

(** What a load answers has no setting unset that has a default. *)
Lemma config_Load_full fs cfg res : config_Load env true fs = (cfg, res, None) -> overlay cfg = cfg.
Proof.
  intros H. destruct (config_Path env) as [e|path] eqn:Hp; [by unfold config_Load in H; rewrite Hp in H|].
  destruct (fs !! path) as [data|] eqn:Hf; [|by unfold config_Load in H; rewrite Hp, Hf in H; injection H as <- _].
  destruct (yaml_Unmarshal data) as [c|] eqn:Hu; [|by unfold config_Load in H; rewrite Hp, Hf in H; cbn [negb] in H; rewrite Hu in H].
  destruct (config_Load_file fs path data c Hp Hf Hu) as (res' & E & _). rewrite E in H. injection H as <- _. apply overlay_idem.
Qed.

(** *** Setting *)

(** The values a key may have; [None]: any. *)
Definition enumeration (key : string) : option (list string) :=
  if String.eqb key "coding_cli" then Some ["claude"; "kimi"; "codex"]
  else if String.eqb key "wait_mode" then Some ["yield"; "block"]
  else if String.eqb key "telemetry" then Some ["on"; "off"]
  else None.
Definition accepts (key value : string) : bool :=
  KnownKey key && match enumeration key with None => true | Some l => String.eqb value "" || existsb (String.eqb value) l end.

Lemma config_Get_set cfg cfg' key v : (forall k, k <> key -> config_Get cfg' k = config_Get cfg k) -> config_Get cfg' key = inr v ->
  forall k, config_Get cfg' k = if decide (k = key) then inr v else config_Get cfg k.
Proof. intros H E k. destruct (decide (k = key)) as [->|Hn]; [done|by apply H]. Qed.

(** A setter of one field. *)
Ltac solve_set :=
  split; [by apply KnownKey_Keys|]; split;
  [ unfold Config_wf; cbn [forallb]; rewrite !andb_true_iff; cbn; intuition
  | apply config_Get_set; [|reflexivity]; intros k Hk; unfold config_Get; by rewrite (proj2 (String.eqb_neq _ _) Hk) ].

Lemma config_Set_spec cfg key value :
  match config_Set cfg key value with
  | inr cfg' => accepts key (TrimSpace value) = true /\ key ∈ Keys /\
      (Config_wf cfg = true -> utf8_valid (TrimSpace value) = true -> Config_wf cfg' = true) /\
      forall k, config_Get cfg' k = if decide (k = key) then inr (TrimSpace value) else config_Get cfg k
  | inl _ => accepts key (TrimSpace value) = false
  end.
Proof.
  unfold config_Set, accepts. generalize (TrimSpace value). intros v.
  repeat match goal with |- context [if String.eqb key ?x then _ else _] => destruct (String.eqb_spec key x) as [->|?] end.
  all: try (split; [reflexivity|solve_set]).
  1-3: match goal with |- match (if ?b then _ else _) with _ => _ end => destruct b eqn:E end;
    unfold unset_or, validCodingCLI in E; rewrite <-?orb_assoc in E; cbn; rewrite orb_false_r, E; [split; [reflexivity|solve_set]|reflexivity].
  unfold KnownKey, Keys. cbn [existsb]. rewrite !(String.eqb_sym _ key).
  repeat match goal with H : key <> ?x |- _ => rewrite (proj2 (String.eqb_neq key x) H); clear H end. reflexivity.
Qed.

(** *** Saving *)

Lemma config_Save_spec fault cfg fs path : config_Path env = inr path -> Config_wf cfg = true ->
  match config_Save env fault cfg fs with
  | (fs', None) => fault = SaveOK /\ exists data, fs' !! path = Some data /\ yaml_Unmarshal data = Some cfg
  | (fs', Some _) => fault <> SaveOK /\ fs' !! path = fs !! path
  end.
Proof.
  intros Hp Hw. destruct (yaml_read_back cfg Hw) as (data & Hm & Hu). unfold config_Save. rewrite Hp, Hm.
  assert (Ht : path +:+ ".tmp" <> path).
  { intros H. apply (f_equal String.length) in H. rewrite string_length_app in H. cbn in H. lia. }
  destruct fault as [| |[text|]|]; split; try done.
  - exists data. by rewrite lookup_insert_eq.
  - by rewrite lookup_insert_ne.
  - by rewrite lookup_insert_ne.
Qed.

(** The value shown for a key: the editor may come from a variable. *)
Definition shown (key v : string) : string :=
  if String.eqb key "editor" && String.eqb v "" then chooseEditor env "" else v.

Lemma resolve_key_shown cfg res k v : config_Get cfg k = inr v -> fst (resolve_key env cfg res k) = shown k v.
Proof.
  intros E. unfold resolve_key, shown, chooseEditor. rewrite E. cbn [negb String.eqb].
  destruct (String.eqb k "editor" && String.eqb v ""); [|done]. by repeat case_match.
Qed.

Lemma config_get_shown k fs cfg res v t : k ∈ Keys -> config_Load env true fs = (cfg, res, None) -> config_Get cfg k = inr v ->
  RunConfigGet env true k fs t = (print (shown k v +:+ nl) t, None).
Proof. intros Hk Hl Hv. rewrite (RunConfigGet_value k fs cfg res t Hk Hl). by rewrite (resolve_key_shown _ _ _ v Hv). Qed.

Lemma config_get_reloaded k fs fs' path : config_Path env = inr path -> fs' !! path = fs !! path -> forall t, RunConfigGet env true k fs' t = RunConfigGet env true k fs t.
Proof.
  intros Hp Hf t. assert (E : config_Load env true fs' = config_Load env true fs) by (unfold config_Load; by rewrite Hp, Hf).
  unfold RunConfigGet. by rewrite E.
Qed.

Lemma config_Load_path fs cfg res : config_Load env true fs = (cfg, res, None) -> exists path, config_Path env = inr path.
Proof. unfold config_Load. destruct (config_Path env) as [e|path]; [done|by exists path]. Qed.

Lemma Keys_Get c k : k ∈ Keys -> exists v, config_Get c k = inr v.
Proof. intros Hk. destruct (config_Get_overlay c k Hk) as (d & v & _ & Hv & _). by exists v. Qed.

(** What [config get] answers when a setting [v] of a key was written. *)
Lemma config_get_written k fs c path data t v : k ∈ Keys -> config_Path env = inr path -> fs !! path = Some data -> yaml_Unmarshal data = Some c ->
  config_Get c k = inr v -> exists d, config_Get Defaults k = inr d /\ RunConfigGet env true k fs t = (print (shown k (over d v) +:+ nl) t, None).
Proof.
  intros Hk Hp Hf Hu Hv. destruct (config_Load_file fs path data c Hp Hf Hu) as (res & El & _).
  destruct (config_Get_overlay c k Hk) as (d & v' & Hd & Hv' & Ho). assert (v' = v) as -> by congruence.
  exists d. split; [done|]. by apply (config_get_shown k fs (overlay c) res).
Qed.

(** C34: [config set] is all or nothing.  On the file system as it is, with a file that can be
    loaded or none, it succeeds exactly when the key is known, the value is one of those the key
    allows and no call of the file system fails.  Then [config get] answers the new value (for
    an empty one, what it answers without a file), and for every other key what it answered
    before.  When it fails nothing is printed and every key answers as before. *)
Theorem config_set_get (fs : Files) (fault : SaveFault) (key value : string) (t : Term) (cfg : Config) (res : LoadResult) :
  config_Load env true fs = (cfg, res, None) -> Config_wf cfg = true -> utf8_valid (TrimSpace value) = true ->
  match RunConfigSet env true fault key value fs t with
  | (fs', _, None) => accepts key (TrimSpace value) = true /\ fault = SaveOK /\ forall k t0, k ∈ Keys ->
      RunConfigGet env true k fs' t0 =
        if decide (k = key) then
          if String.eqb (TrimSpace value) "" then RunConfigGet env true k ∅ t0 else (print (TrimSpace value +:+ nl) t0, None)
        else RunConfigGet env true k fs t0
  | (fs', t', Some _) => (accepts key (TrimSpace value) = false \/ fault <> SaveOK) /\ t' = t /\
      forall k t0, RunConfigGet env true k fs' t0 = RunConfigGet env true k fs t0
  end.
Proof.
  intros Hl Hw Hv. destruct (config_Load_path fs cfg res Hl) as [path Hp]. pose proof (config_Load_full fs cfg res Hl) as Hfull.
  unfold RunConfigSet. rewrite Hl. pose proof (config_Set_spec cfg key value) as Hs.
  destruct (config_Set cfg key value) as [e|cfg']; [by split; [left|]|]. destruct Hs as (Ha & Hkey & Hw' & Hget). specialize (Hw' Hw Hv).
  pose proof (config_Save_spec fault cfg' fs path Hp Hw') as Hsave. destruct (config_Save env fault cfg' fs) as [fs' [e|]]; destruct Hsave as [Hfault Hsave].
  - split; [by right|]. split; [done|]. intros k t0. by eapply config_get_reloaded.
  - destruct Hsave as (data & Hf & Hu). split; [done|]. split; [done|]. intros k t0 Hk. specialize (Hget k). destruct (decide (k = key)) as [->|Hne].
    + destruct (config_get_written key fs' cfg' path data t0 _ Hk Hp Hf Hu Hget) as (d & Hd & ->). unfold over.
      destruct (String.eqb_spec (TrimSpace value) "") as [_|Hn].
      * symmetry. eapply config_get_shown; [done| |done]. unfold config_Load. by rewrite Hp, lookup_empty.
      * unfold shown. by rewrite (proj2 (String.eqb_neq _ _) Hn), andb_false_r.
    + destruct (Keys_Get cfg k Hk) as [v Ev]. rewrite Ev in Hget.
      destruct (config_get_written k fs' cfg' path data t0 v Hk Hp Hf Hu Hget) as (d & Hd & ->).
      rewrite (config_get_shown k fs cfg res v t0 Hk Hl Ev).
      destruct (config_Get_overlay cfg k Hk) as (d' & v' & Hd' & Hv' & Ho). rewrite Hfull, Ev in Ho. congruence.
Qed.

(** After any successful [config set] every setting that has a value comes from the file,
    although only one was set. *)
Lemma set_fixes_defaults fs key value t cfg res fs' t' : config_Load env true fs = (cfg, res, None) -> Config_wf cfg = true ->
  utf8_valid (TrimSpace value) = true -> RunConfigSet env true SaveOK key value fs t = (fs', t', None) ->
  exists cfg' res', config_Load env true fs' = (cfg', res', None) /\
    forall k v, k ∈ Keys -> k <> key -> config_Get cfg k = inr v -> v <> "" -> IsFromFile res' k = true.
Proof.
  intros Hl Hw Hv. destruct (config_Load_path fs cfg res Hl) as [path Hp].
  unfold RunConfigSet. rewrite Hl. pose proof (config_Set_spec cfg key value) as Hs.
  destruct (config_Set cfg key value) as [e|c]; [done|]. destruct Hs as (Ha & Hkey & Hw' & Hget). specialize (Hw' Hw Hv).
  pose proof (config_Save_spec SaveOK c fs path Hp Hw') as Hsave. destruct (config_Save env SaveOK c fs) as [fs1 [e|]]; [done|].
  intros [= -> _]. destruct Hsave as (_ & data & Hf & Hu). destruct (config_Load_file fs' path data c Hp Hf Hu) as (res' & El & _ & Ek).
  exists (overlay c), res'. split; [done|]. intros k v Hk Hne Ev Hnv. rewrite (Ek k v Hk) by (by rewrite Hget, decide_False).
  by apply negb_true_iff, String.eqb_neq.
Qed.
End Facts.

(** ** An instance *)

(** JSON is YAML: the settings as an object without the empty ones. *)
Definition Config_fields : list (Field Config) :=
  [ Tag "default_preset" cf_DefaultPreset opt_string into_string; Tag "default_adapter" cf_DefaultAdapter opt_string into_string;
    Tag "coding_cli" cf_CodingCLI opt_string into_string; Tag "editor" cf_Editor opt_string into_string;
    Tag "wait_mode" cf_WaitMode opt_string into_string; Tag "telemetry" cf_Telemetry opt_string into_string ].
#[local] Instance json_yaml : Yaml :=
  {| yaml_Marshal c := Some (encode (encode_struct Config_fields c)); yaml_Unmarshal := Unmarshal Config_zero (into_struct Config_fields) |}.

Lemma Config_table : table_ok Config_zero Config_fields.
Proof. solve_table. Qed.

Lemma Config_roundtrip c : Config_wf c = true -> struct_ok Config_fields Config_zero c.
Proof. unfold Config_wf. intros H. cbn in H. reflect_bools. solve_struct Config_table. Qed.

#[local] Instance json_yaml_law : YamlLaw json_yaml.
Proof.
  intros c H. apply Config_roundtrip in H as [H1 H2]. eexists. split; [reflexivity|]. by apply Unmarshal_encode.
Qed.

Definition sample_env : ConfigEnv := mkConfigEnv "" (Some "/home/u") "" "nano".

Example config_set_get_witness :
  match RunConfigSet sample_env true SaveOK "wait_mode" " block " ∅ (mkTerm false "" "" "") with
  | (fs', _, None) => accepts "wait_mode" "block" = true /\ SaveOK = SaveOK /\ forall k t0, k ∈ Keys ->
      RunConfigGet sample_env true k fs' t0 =
        if decide (k = "wait_mode") then if String.eqb "block" "" then RunConfigGet sample_env true k ∅ t0 else (print ("block" +:+ nl) t0, None)
        else RunConfigGet sample_env true k ∅ t0
  | (fs', t', Some _) => (accepts "wait_mode" "block" = false \/ SaveOK <> SaveOK) /\ t' = mkTerm false "" "" "" /\
      forall k t0, RunConfigGet sample_env true k fs' t0 = RunConfigGet sample_env true k ∅ t0
  end.
Proof.
  exact (config_set_get sample_env ∅ SaveOK "wait_mode" " block " (mkTerm false "" "" "") Defaults
           (mkLoadResult "/home/u/.rallish/config.yaml" false ∅) eq_refl eq_refl eq_refl).
Defined.

(** An unset editor is shown from the environment; the setting of the file goes before it. *)
Example editor_from_env : tm_out (fst (RunConfigGet sample_env true "editor" ∅ (mkTerm false "" "" ""))) = "nano" +:+ nl.
Proof. vm_compute. reflexivity. Qed.
