(* ===== verification/Skills.v ===== *)
(** * The embedded skills

    [internal/skills/skills.go] and [internal/cli/trigger.go]: the skill bundles that are built
    into the program, their installation, and the phrase that selects one.  The embedded files
    are a parameter, in the order in which a walk visits them; the disk is a map from paths to
    contents and modes, with the faults of its calls as arguments.  The theorems: what an
    installation leaves on the disk, and that repeating it changes nothing. *)

From S2P Require Import Prelude GoStrings Lines Paths.
From Stdlib Require Import Ascii String.
#[local] Open Scope string_scope.

Definition TrimPrefix (s p : string) : string := if HasPrefix s p then slice_from s (String.length p) else s.

(** [filepath.Dir] of a clean path. *)
Definition filepath_Dir (path : string) : string :=
  match rev (Split path slash) with _ :: rest => filepath_Clean (Join (rev rest) "/" +:+ (if HasPrefix path "/" then "/" else "")) | [] => "." end.

(** ** The disk *)

(** 0755 and 0644. *)
Definition mode_exec : Z := 493.
Definition mode_plain : Z := 420.

Abbreviation Disk := (gmap string (string * Z)).

Inductive Action : Set := Created | Written | Unchanged.
Definition action_string (a : Action) : string := match a with Created => "created" | Written => "written" | Unchanged => "unchanged" end.
(* src: internal/skills/skills.go 17-21 InstallResult *)
Record InstallResult := mkInstall { in_Path : string; in_Action : Action }.

Inductive InstallError : Set := CreateTargetDir (dir : string) | WalkFails | CreateParentDir (path : string) | OverwriteFails (path : string) | CreateFails (path : string).

(** Which calls succeed; a write that fails leaves what [wf_left] says of the file. *)
Record DiskFaults := mkDiskFaults { df_read : string -> bool; df_mkdir : string -> bool; df_write : string -> bool; wf_left : string -> option string }.
Definition no_faults : DiskFaults := mkDiskFaults (fun _ => true) (fun _ => true) (fun _ => true) (fun _ => None).

(** [os.WriteFile]: the mode counts only for a file that is created. *)
Definition os_WriteFile (f : DiskFaults) (path content : string) (mode : Z) (d : Disk) : Disk * bool :=
  let put text := <[path := (text, match d !! path with Some (_, m) => m | None => mode end)]> d in
  if df_write f path then (put content, true) else (match wf_left f path with Some text => put text | None => d end, false).

(* src: internal/skills/skills.go 23-43 writeFileIfChanged *)
Definition writeFileIfChanged (f : DiskFaults) (destPath content : string) (mode : Z) (d : Disk) : Disk * (InstallError + InstallResult) :=
  match (if df_read f destPath then d !! destPath else None) with
  | Some (existing, _) =>
      if String.eqb existing content then (d, inr (mkInstall destPath Unchanged))
      else let '(d, ok) := os_WriteFile f destPath content mode d in
           (d, if ok : bool then inr (mkInstall destPath Written) else inl (OverwriteFails destPath))
  | None =>
      let '(d, ok) := os_WriteFile f destPath content mode d in
      (d, if ok : bool then inr (mkInstall destPath Created) else inl (CreateFails destPath))
  end.

Section Skills.
(** The files built into the program with their paths, in the order of a walk. *)
Variable embedded : list (string * string).
Variable f : DiskFaults.

(* src: internal/skills/skills.go 127-131 ReadEmbeddedSkill *)
Definition ReadEmbeddedSkill (path : string) : option string := snd <$> List.find (fun e => String.eqb (fst e) path) embedded.
(* src: internal/skills/skills.go 250-254 SkillFileExists *)
Definition SkillFileExists (path : string) : bool := match ReadEmbeddedSkill path with Some _ => true | None => false end.

(** The files below a directory; the walk fails at a root that is not there. *)
Definition walk (root : string) : option (list (string * string)) :=
  match List.filter (fun e => HasPrefix (fst e) (root +:+ "/")) embedded with [] => None | l => Some l end.

(** One destination: where a file goes and with which mode; [None]: it is skipped. *)
Definition Place := string -> option (string * string * Z).

(** The loop over the files: the directory, then the file, until the first error. *)
Fixpoint install_files (place : Place) (files : list (string * string)) (d : Disk) : Disk * list InstallResult * option InstallError :=
  match files with
  | [] => (d, [], None)
  | (path, content) :: rest =>
      match place path with
      | None => install_files place rest d
      | Some (dir, destPath, mode) =>
          if negb (df_mkdir f dir) then (d, [], Some (CreateParentDir destPath))
          else match writeFileIfChanged f destPath content mode d with
               | (d, inl e) => (d, [], Some e)
               | (d, inr r) => let '(d, rs, e) := install_files place rest d in (d, r :: rs, e)
               end
      end
  end.

(** Files under [scripts/] are executable. *)
(* src: internal/skills/skills.go 80-96 InstallNamed *)
Definition named_place (skillName targetDir : string) : Place := fun path =>
  let rel := TrimPrefix path (skillName +:+ "/") in
  let destPath := filepath_Join [targetDir; rel] in
  Some (filepath_Dir destPath, destPath, if HasPrefix rel "scripts/" then mode_exec else mode_plain).

(* src: internal/skills/skills.go 59-109 InstallNamed *)
Definition InstallNamed (skillName targetDir : string) (d : Disk) : Disk * list InstallResult * option InstallError :=
  if negb (df_mkdir f targetDir) then (d, [], Some (CreateTargetDir targetDir))
  else match walk skillName with
       | None => (d, [], Some WalkFails)
       | Some files => install_files (named_place skillName targetDir) files d
       end.

(* src: internal/skills/skills.go 45-57 Install *)
Definition Install (targetDir : string) (d : Disk) := InstallNamed "rallish" targetDir d.

(** Scripts and runbooks go below [~/.claude] by their last name. *)
(* src: internal/skills/skills.go 215-233 InstallCompanionFiles *)
Definition companion_place (skillName homeDir : string) : Place := fun path =>
  let rel := TrimPrefix path (skillName +:+ "/") in
  if HasPrefix rel "scripts/" then
    let dir := filepath_Join [homeDir; ".claude"; "scripts"] in Some (dir, filepath_Join [dir; filepath_Base rel], mode_exec)
  else if HasPrefix rel "runbooks/" then
    let dir := filepath_Join [homeDir; ".claude"; "runbooks"] in Some (dir, filepath_Join [dir; filepath_Base rel], mode_plain)
  else None.

(* src: internal/skills/skills.go 202-248 InstallCompanionFiles *)
Definition InstallCompanionFiles (skillName homeDir : string) (d : Disk) : Disk * list InstallResult * option InstallError :=
  match walk skillName with
  | None => (d, [], Some WalkFails)
  | Some files => install_files (companion_place skillName homeDir) files d
  end.

(** ** Selecting a skill *)

(** The directories at the root, by name. *)
(* src: internal/skills/skills.go 111-125 ListEmbeddedSkills *)
Definition ListEmbeddedSkills : list string :=
  sort_strings (remove_dups (omap (fun e => match Split (fst e) slash with dir :: _ :: _ => Some dir | _ => None end) embedded)).

(** A line of the frontmatter: whether it matches, and whether the block of triggers goes on. *)
(* src: internal/skills/skills.go 176-197 containsTrigger *)
Definition trigger_line (phrase : string) (inTriggers : bool) (line : string) : bool * bool :=
  let line := TrimSpace line in
  if HasPrefix line "Triggers:" then (Contains (ToLower (TrimPrefix line "Triggers:")) phrase, true)
  else if inTriggers then
    if HasPrefix line "-" then
      let triggerText := TrimSpace (ToLower (TrimPrefix line "-")) in
      let triggerText := trim_right (Ascii.eqb dquote) (trim_left (Ascii.eqb dquote) triggerText) in
      (Contains triggerText phrase || Contains phrase triggerText, true)
    else (false, String.eqb line "" || HasPrefix line "#")
  else (false, false).

Fixpoint trigger_lines (phrase : string) (inTriggers : bool) (lines : list string) : bool :=
  match lines with
  | [] => false
  | line :: rest => let '(hit, inTriggers) := trigger_line phrase inTriggers line in hit || trigger_lines phrase inTriggers rest
  end.
(* src: internal/skills/skills.go 173-200 containsTrigger *)
Definition containsTrigger (frontmatter phrase : string) : bool := trigger_lines phrase false (Split frontmatter nl_byte).

(** The document of one skill against the phrase, in lower case. *)
(* src: internal/skills/skills.go 144-167 MatchSkillByTrigger *)
Definition skill_matches (phraseLower name : string) : bool :=
  match ReadEmbeddedSkill (name +:+ "/SKILL.md") with
  | None => false
  | Some content =>
      if negb (HasPrefix content "---") then false
      else let endIdx := Index (slice_from content 3) "---" in
           if (endIdx =? -1)%Z then false
           else containsTrigger (slice content 3 (3 + Z.to_nat endIdx)) phraseLower || Contains (ToLower content) phraseLower
  end.

(** [None]: no skill matched. *)
(* src: internal/skills/skills.go 133-171 MatchSkillByTrigger *)
Definition MatchSkillByTrigger (phrase : string) : option string := List.find (skill_matches (ToLower phrase)) ListEmbeddedSkills.

(** ** [rallish trigger] *)

Inductive TriggerError : Set := NoSkillMatched (phrase : string) | NoRegisteredAction (skill : string).
(** A dry run, or [cycle start] with these flags. *)
Inductive TriggerRun : Set := DryRun | StartCycle (flags : list (string * string)).

(** The printed text and what is run; [now] is the formatted time. *)
(* src: internal/cli/trigger.go 12-75 TriggerCmd *)
Definition runTrigger (now phrase goal : string) (maxCycles maxDurationMins : Z) (agents : string) (autoGoal dryRun : bool)
    : string * (TriggerError + TriggerRun) :=
  match MatchSkillByTrigger phrase with
  | None => ("", inl (NoSkillMatched phrase))
  | Some skillName =>
      let out := "matched skill: " +:+ skillName +:+ nl in
      if String.eqb skillName "autonomous-cycle" then
        let goal := if String.eqb goal "" then "feat: autonomous-cycle run" else goal in
        let logFile := "tmp/autonomous-" +:+ now +:+ ".log" in
        let auto := if autoGoal then "true" else "false" in
        if dryRun then
          (out +:+ "dry-run: would execute:" +:+ nl +:+ "  rallish cycle start \" +:+ nl +:+
           "    --goal " +:+ Quote goal +:+ " \" +:+ nl +:+ "    --max-cycles " +:+ Itoa maxCycles +:+ " \" +:+ nl +:+
           "    --max-duration " +:+ Itoa maxDurationMins +:+ " \" +:+ nl +:+ "    --auto-goal=" +:+ auto +:+ " \" +:+ nl +:+
           (if negb (String.eqb agents "") then "    --agents " +:+ Quote agents +:+ " \" +:+ nl else "") +:+
           "    --log-file " +:+ Quote logFile +:+ nl, inr DryRun)
        else
          (out, inr (StartCycle ([("goal", goal); ("max-cycles", Itoa maxCycles); ("max-duration", Itoa maxDurationMins); ("auto-goal", auto)] ++
                                 (if negb (String.eqb agents "") then [("agents", agents)] else []) ++ [("log-file", logFile)])%list))
      else (out, inl (NoRegisteredAction skillName))
  end.
End Skills.

(** ** What an installation leaves *)

Lemma writeFileIfChanged_ok p c m d : exists mode, writeFileIfChanged no_faults p c m d =
  (<[p := (c, mode)]> d, inr (mkInstall p (match d !! p with None => Created | Some (c', _) => if String.eqb c' c then Unchanged else Written end))).
Proof.
  unfold writeFileIfChanged, os_WriteFile. cbn [df_read no_faults df_write]. destruct (d !! p) as [[c' mode]|] eqn:E; [|by exists m].
  destruct (String.eqb_spec c' c) as [->|_]; exists mode; [by rewrite insert_id|done].
Qed.

Lemma writeFileIfChanged_same p c m mode d : d !! p = Some (c, mode) -> writeFileIfChanged no_faults p c m d = (d, inr (mkInstall p Unchanged)).
Proof. intros E. unfold writeFileIfChanged. cbn [df_read no_faults]. by rewrite E, String.eqb_refl. Qed.

(** The destinations of the files that are not skipped. *)
Definition dests (place : Place) (files : list (string * string)) : list string :=
  omap (fun e => (fun t => snd (fst t)) <$> place (fst e)) files.

Definition unchanged (r : InstallResult) : InstallResult := mkInstall (in_Path r) Unchanged.

(** The disk [d] holds every file where it belongs. *)
Definition installed (place : Place) (files : list (string * string)) (d : Disk) : Prop :=
  forall path content dir p m, (path, content) ∈ files -> place path = Some (dir, p, m) -> exists mode, d !! p = Some (content, mode).

Lemma install_files_ok place files : NoDup (dests place files) -> forall d, exists d' rs,
  install_files no_faults place files d = (d', rs, None) /\ map in_Path rs = dests place files /\
  (forall p, p ∉ dests place files -> d' !! p = d !! p) /\ installed place files d'.
Proof.
  induction files as [|[path content] files IH]; intros Hn d.
  { exists d, []. split_and!; try done. intros ? ? ? ? ? []%not_elem_of_nil. }
  unfold dests in Hn. cbn [omap list_omap fst] in Hn. cbn [install_files]. destruct (place path) as [[[dir p] m]|] eqn:Ep; cbn [fmap option_fmap option_map fst snd] in Hn.
  - apply NoDup_cons in Hn as [Hp Hn]. cbn [negb df_mkdir no_faults]. destruct (writeFileIfChanged_ok p content m d) as [mode ->].
    destruct (IH Hn (<[p := (content, mode)]> d)) as (d' & rs & -> & Hm & Ho & Hi). eexists _, _. split; [reflexivity|]. unfold dests. cbn [omap list_omap fst].
    rewrite Ep. cbn [fmap option_fmap option_map fst snd map in_Path]. split_and!.
    + by rewrite Hm.
    + intros p' [Hne Hp']%not_elem_of_cons. rewrite Ho by done. by rewrite lookup_insert_ne.
    + intros path' content' dir' p' m' [[= -> ->]|Hin]%elem_of_cons E; [|by eapply Hi].
      rewrite Ep in E. injection E as <- <- <-. exists mode. rewrite Ho by done. by rewrite lookup_insert_eq.
  - destruct (IH Hn d) as (d' & rs & -> & Hm & Ho & Hi). exists d', rs. unfold dests. cbn [omap list_omap fst]. rewrite Ep. split_and!; try done.
    intros path' content' dir' p' m' [[= -> ->]|Hin]%elem_of_cons E; [congruence|by eapply Hi].
Qed.

Lemma install_files_again place files d : installed place files d ->
  install_files no_faults place files d = (d, map (fun p => mkInstall p Unchanged) (dests place files), None).
Proof.
  induction files as [|[path content] files IH]; intros Hi; [done|]. unfold dests. cbn [install_files omap list_omap fst].
  assert (IH' : install_files no_faults place files d = (d, map (fun p => mkInstall p Unchanged) (dests place files), None)).
  { apply IH. intros ? ? ? ? ? ?. apply Hi. by right. }
  destruct (place path) as [[[dir p] m]|] eqn:Ep; [|exact IH'].
  destruct (Hi path content dir p m) as [mode Hp]; [by left|done|]. cbn [negb df_mkdir no_faults].
  rewrite (writeFileIfChanged_same p content m mode d Hp), IH'. done.
Qed.

(** What a first run does, and that a second one does nothing. *)
Definition settles (place : Place) (files : list (string * string)) (run : Disk -> Disk * list InstallResult * option InstallError) : Prop :=
  NoDup (dests place files) -> forall d, exists d' rs, run d = (d', rs, None) /\ map in_Path rs = dests place files /\
    (forall p, p ∉ dests place files -> d' !! p = d !! p) /\ installed place files d' /\ run d' = (d', map unchanged rs, None).

Lemma install_files_settles place files : settles place files (install_files no_faults place files).
Proof.
  intros Hn d. destruct (install_files_ok place files Hn d) as (d' & rs & E & Hm & Ho & Hi). exists d', rs. split_and!; try done.
  rewrite (install_files_again place files d' Hi), <-Hm, map_map. done.
Qed.

(** Installing a skill, or its companion files, on a disk without faults puts every file of
    the bundle where it belongs with its contents and leaves every other file alone, when no
    two files have one destination.  Installing it once more changes nothing and reports every
    file as unchanged. *)
Theorem install_settles (embedded files : list (string * string)) (skillName targetDir homeDir : string) :
  walk embedded skillName = Some files ->
  settles (named_place skillName targetDir) files (InstallNamed embedded no_faults skillName targetDir) /\
  settles (companion_place skillName homeDir) files (InstallCompanionFiles embedded no_faults skillName homeDir).
Proof.
  intros Hw. pose proof (install_files_settles (named_place skillName targetDir) files) as H1.
  pose proof (install_files_settles (companion_place skillName homeDir) files) as H2.
  unfold settles, InstallNamed, InstallCompanionFiles. cbn [df_mkdir no_faults negb]. by rewrite Hw.
Qed.

Definition sample_files : list (string * string) :=
  [("demo/SKILL.md", "---" +:+ nl +:+ "Triggers: hello" +:+ nl +:+ "---" +:+ nl +:+ "start here"); ("demo/scripts/run.sh", "#!/bin/sh");
   ("later/SKILL.md", "---" +:+ nl +:+ "Triggers: start" +:+ nl +:+ "---" +:+ nl)].

Example install_settles_witness : exists d' rs, InstallNamed sample_files no_faults "demo" "/h/.claude/skills/demo" ∅ = (d', rs, None) /\
  (exists mode, d' !! "/h/.claude/skills/demo/scripts/run.sh" = Some ("#!/bin/sh", mode)) /\
  InstallNamed sample_files no_faults "demo" "/h/.claude/skills/demo" d' = (d', map unchanged rs, None).
Proof.
  destruct (install_settles sample_files (take 2 sample_files) "demo" "/h/.claude/skills/demo" "/h" eq_refl) as [H _].
  destruct (H ltac:(apply (bool_decide_unpack _); vm_compute; exact I) ∅) as (d' & rs & E & _ & _ & Hi & Ea). exists d', rs. split; [exact E|]. split; [|exact Ea].
  eapply (Hi "demo/scripts/run.sh"); [by right; left|vm_compute; reflexivity].
Defined.

(** Two companion files with one last name share a destination: each installation writes both. *)
Example companions_collide :
  let files := [("s/scripts/a/run.sh", "1"); ("s/scripts/b/run.sh", "2")] in
  let '(d, rs, _) := InstallCompanionFiles files no_faults "s" "/h" ∅ in
  map in_Action (snd (fst (InstallCompanionFiles files no_faults "s" "/h" d))) = [Written; Written].
Proof. vm_compute. reflexivity. Qed.

(** ** Which skill a phrase selects *)

(** The first skill by name whose document matches. *)
Lemma MatchSkillByTrigger_first embedded phrase name : MatchSkillByTrigger embedded phrase = Some name <->
  exists before after, ListEmbeddedSkills embedded = (before ++ name :: after)%list /\ skill_matches embedded (ToLower phrase) name = true /\
    Forall (fun n => skill_matches embedded (ToLower phrase) n = false) before.
Proof.
  unfold MatchSkillByTrigger. induction (ListEmbeddedSkills embedded) as [|n ns IH]; cbn [List.find].
  - split; [done|]. intros ([] & ? & ? & _); done.
  - destruct (skill_matches embedded (ToLower phrase) n) eqn:E.
    + split; [intros [= <-]; by exists [], ns|]. intros ([|b before] & after & [= -> ->] & Hm & Hb); [done|]. inversion_clear Hb. congruence.
    + rewrite IH. split; intros (before & after & Hns & Hm & Hb).
      * exists (n :: before), after. cbn. rewrite Hns. auto.
      * destruct before as [|b before]; [injection Hns as -> _; congruence|]. injection Hns as -> ->. inversion_clear Hb. by exists before, after.
Qed.

(** A trigger of a later skill that an earlier document mentions selects the earlier one. *)
Example earlier_document_wins : containsTrigger (nl +:+ "Triggers: start" +:+ nl) "start" = true /\
  MatchSkillByTrigger sample_files "start" = Some "demo" /\ MatchSkillByTrigger sample_files "hello" = Some "demo".
Proof. vm_compute. auto. Qed.

(** An empty item in the list of triggers matches whatever is said. *)
Example empty_trigger_matches : containsTrigger ("Triggers:" +:+ nl +:+ "-" +:+ nl) "order a pizza" = true.
Proof. vm_compute. reflexivity. Qed.
