(* ===== verification/Setup.v ===== *)
(** * Setting up

    [internal/cli/bootstrap.go] and [internal/cli/add.go]: the one-shot setup with its wizard, and
    the command that installs presets, adapters and skills.  What is built into the program and
    what a download answers are parameters; the disk is that of [Skills.v], the configuration
    file that of [Config.v], the host that of [Connect.v].  The theorems: what the wizard leaves
    when every question is answered by enter, and that [add] writes one file below its
    directory, or none. *)

From S2P Require Import Prelude GoStrings Lines Paths Connect Ui Config Skills.
From stdpp Require Import sorting.
From Stdlib Require Import Ascii String.
#[local] Open Scope string_scope.

(** ** Bootstrap *)

(** [Yes], [SkipSkill] and [SkipConfig]. *)
(* src: internal/cli/bootstrap.go 26-41 BootstrapOptions *)
Record BootstrapOptions := mkBootstrap { bo_Yes : bool; bo_SkipSkill : bool; bo_SkipConfig : bool }.

(* src: internal/cli/bootstrap.go 287-295 indexOf *)
Fixpoint indexOf (s : list string) (v : string) : Z :=
  match s with
  | [] => (-1)%Z
  | x :: rest => if String.eqb x v then 0%Z else let i := indexOf rest v in if (i <? 0)%Z then (-1)%Z else (i + 1)%Z
  end.

(* src: internal/cli/bootstrap.go 297-306 firstWord *)
Fixpoint firstWord (s : string) : string :=
  match s with "" => "" | String c r => if Ascii.eqb c " " then "" else String c (firstWord r) end.

Inductive SetupError : Set :=
  | SConfig (e : ConfigError) | SPrompt (e : PromptError) | SInstall (e : InstallError) | SHomeDir | SCancelled.

Section Bootstrap.
Context {yaml : Yaml}.
Variable env : ConfigEnv.
(** The configuration file, if it is there, can be read; where saving it fails. *)
Variable readable : bool.
Variable fault : SaveFault.

Definition save (cfg : Config) (fs : Files) (t : Term) : Files * Term * option SetupError :=
  let '(fs, e) := config_Save env fault cfg fs in (fs, t, SConfig <$> e).

Definition vendors : list string := ["claude"; "kimi"; "codex"].
Definition wait_modes : list string := ["yield (poll on each user message — default)"; "block (blocking baton join)"].

(** An error in setting the adapter is ignored. *)
(* src: internal/cli/bootstrap.go 174-226 runConfigWizard *)
Definition runConfigWizard (opts : BootstrapOptions) (fs : Files) (t : Term) : Files * Term * option SetupError :=
  match config_Load env readable fs with
  | (_, _, Some e) => (fs, t, Some (SConfig e))
  | (cfg, _, None) =>
      if bo_Yes opts then save cfg fs t
      else
        match Ask "Default preset (used by `rallish squash`)?" (cf_DefaultPreset cfg) t with
        | (t, inl e) => (fs, t, Some (SPrompt e))
        | (t, inr preset) =>
            match config_Set cfg "default_preset" preset with
            | inl e => (fs, t, Some (SConfig e))
            | inr cfg =>
                let def := indexOf vendors (cf_CodingCLI cfg) in
                let def := if (def <? 0)%Z then 0%Z else def in
                match SelectOne "Which coding-CLI vendor do you use day-to-day?" vendors def t with
                | (t, inl e) => (fs, t, Some (SPrompt e))
                | (t, inr (cli, _)) =>
                    match config_Set cfg "coding_cli" cli with
                    | inl e => (fs, t, Some (SConfig e))
                    | inr cfg =>
                        let cfg := match config_Set cfg "default_adapter" cli with inr cfg => cfg | inl _ => cfg end in
                        match SelectOne "Rally wait mode?" wait_modes 0 t with
                        | (t, inl e) => (fs, t, Some (SPrompt e))
                        | (t, inr (wm, _)) =>
                            match config_Set cfg "wait_mode" (firstWord wm) with
                            | inl e => (fs, t, Some (SConfig e))
                            | inr cfg => save cfg fs t
                            end
                        end
                    end
                end
            end
        end
  end.

(* src: internal/cli/bootstrap.go 228-247 ensureConfigFile *)
Definition ensureConfigFile (fs : Files) (t : Term) : Files * Term :=
  match config_Path env with
  | inl _ => (fs, t)
  | inr path =>
      match fs !! path with
      | Some _ => (fs, t)
      | None =>
          match config_Load env readable fs with
          | (_, _, Some _) => (fs, t)
          | (cfg, _, None) =>
              match config_Save env fault cfg fs with
              | (fs, Some _) => (fs, Warn ("could not write " +:+ path) t)
              | (fs, None) => (fs, Detail ("created " +:+ path +:+ " with built-in defaults") t)
              end
          end
      end
  end.

(* src: internal/cli/bootstrap.go 249-267 showConfigSummary *)
Definition showConfigSummary (idx total : Z) (fs : Files) (t : Term) : Term * option SetupError :=
  match config_Load env readable fs with
  | (_, _, Some e) => (t, Some (SConfig e))
  | (cfg, res, None) =>
      let t := Ui.Step idx total "config summary" t in
      let path := match config_Path env with inr p => p | inl _ => "" end in
      let source := if lr_FileExists res then path else "defaults" in
      let t := KvSource "default_preset" (cf_DefaultPreset cfg) source t in
      let t := KvSource "coding_cli" (cf_CodingCLI cfg) source t in
      let t := KvSource "wait_mode" (cf_WaitMode cfg) source t in
      (StepOK idx total "config OK" t, None)
  end.

(** The pointer and the port file are looked at, not what they point to. *)
Definition daemon_status (home : string) (h : Host) : string :=
  let sockDir := filepath_Join [home; ".rallish"] in
  match ho_files h !! filepath_Join [sockDir; "socket"] with
  | Some (String _ _) => "daemon reachable"
  | _ => match ho_files h !! filepath_Join [sockDir; "port"] with
         | Some _ => "daemon reachable (port-fallback)"
         | None => "daemon not running — will auto-spawn on `rally new`"
         end
  end.
(* src: internal/cli/bootstrap.go 269-285 showDaemonStatus *)
Definition showDaemonStatus (idx total : Z) (home : string) (h : Host) (t : Term) : Term :=
  StepOK idx total (daemon_status home h) (Ui.Step idx total "daemon check" t).

Section Install.
Variable embedded : list (string * string).
Variable df : DiskFaults.

Definition show_results (rs : list InstallResult) (t : Term) : Term :=
  foldl (fun t r => Detail (action_string (in_Action r) +:+ " " +:+ filepath_Base (in_Path r)) t) t rs.

(** Files installed before an error stay. *)
(* src: internal/cli/bootstrap.go 99-130 RunBootstrap *)
Definition install_step (opts : BootstrapOptions) (total : Z) (home : string) (d : Disk) (t : Term) : Disk * Term * option SetupError :=
  if bo_SkipSkill opts then (d, StepOK 1 total "skill install — skipped" t, None)
  else
    let skillDir := filepath_Join [home; ".claude"; "skills"; "rallish"] in
    let t := Ui.Step 1 total ("installing skill → " +:+ skillDir) t in
    match Install embedded df skillDir d with
    | (d, _, Some e) => (d, StepErr 1 total "skill install failed" t, Some (SInstall e))
    | (d, results, None) =>
        let t := show_results results t in
        let mcpSkillDir := filepath_Join [home; ".claude"; "skills"; "rallish-mcp"] in
        let t := Detail ("installing mcp skill → " +:+ mcpSkillDir) t in
        match InstallNamed embedded df "rallish-mcp" mcpSkillDir d with
        | (d, _, Some e) => (d, StepErr 1 total "mcp skill install failed" t, Some (SInstall e))
        | (d, mcpResults, None) =>
            let t := show_results mcpResults t in
            let '(d, companionResults, compErr) := InstallCompanionFiles embedded df "autonomous-cycle" home d in
            let t := match compErr with Some _ => Warn "companion files" t | None => show_results companionResults t end in
            let n := (List.length results + List.length mcpResults + List.length companionResults)%nat in
            (d, StepOK 1 total ("skills installed (" +:+ Itoa (Z.of_nat n) +:+ " files)") t, None)
        end
    end.

(** [cancelled i]: the context is done when step [i] is to begin. *)
(* src: internal/cli/bootstrap.go 79-172 RunBootstrap *)
Definition RunBootstrap (cancelled : nat -> bool) (opts : BootstrapOptions) (h : Host) (d : Disk) (fs : Files) (t : Term)
    : Disk * Files * Term * option SetupError :=
  let total := 4%Z in
  let t := Detail "4 quick steps · enter to accept defaults · ctrl-c to abort" (Heading "rallish setup" t) in
  match ce_home env with
  | None => (d, fs, t, Some SHomeDir)
  | Some home =>
      if cancelled 1%nat then (d, fs, t, Some SCancelled)
      else match install_step opts total home d t with
      | (d, t, Some e) => (d, fs, t, Some e)
      | (d, t, None) =>
          if cancelled 2%nat then (d, fs, t, Some SCancelled)
          else
            let configured :=
              if bo_SkipConfig opts then
                let '(fs, t) := ensureConfigFile fs (StepOK 2 total "config wizard — skipped" t) in (fs, t, None)
              else match runConfigWizard opts fs t with
                   | (fs, t, Some e) => (fs, StepErr 2 total "config wizard" t, Some e)
                   | (fs, t, None) => (fs, StepOK 2 total "config saved" t, None)
                   end in
            match configured with
            | (fs, t, Some e) => (d, fs, t, Some e)
            | (fs, t, None) =>
                if cancelled 3%nat then (d, fs, t, Some SCancelled)
                else match showConfigSummary 3 total fs t with
                     | (t, Some e) => (d, fs, t, Some e)
                     | (t, None) =>
                         if cancelled 4%nat then (d, fs, t, Some SCancelled)
                         else
                           let t := showDaemonStatus 4 total home h t in
                           let t := Footer ("setup complete — say " +:+ String dquote ("랠리보낼 준비해" +:+ String dquote (" (or " +:+ String dquote ("let's serve" +:+ String dquote ") to start")))) t in
                           (d, fs, Detail "change settings later: rallish config list / set / edit" t, None)
                     end
            end
      end
  end.
End Install.
End Bootstrap.

(** ** Answering by enter *)

Definition blank (s : string) : bool := string_forall is_space s.

Lemma trim_left_blank s : blank s = true -> trim_left is_space s = "".
Proof. unfold blank. induction s as [|c s IH]; cbn; [done|]. intros [-> H]%andb_true_iff. by apply IH. Qed.

Lemma TrimSpace_blank s : blank s = true -> TrimSpace s = "".
Proof. intros H. unfold TrimSpace. by rewrite trim_left_blank. Qed.

Lemma drop_cr_blank s : blank s = true -> blank (drop_cr s) = true.
Proof.
  unfold blank. induction s as [|c s IH]; [done|]. cbn [string_forall]. intros [Hc Hs]%andb_true_iff. cbn [drop_cr].
  repeat case_match; cbn [string_forall]; rewrite ?Hc; cbn; auto.
Qed.

Lemma input_blank t : blank (tm_in t) = true -> exists line t', input t = (line, t') /\ TrimSpace line = "" /\ blank (tm_in t') = true.
Proof.
  assert (Hr : forall s, blank s = true -> exists l rest eof, read_string s = (l, rest, eof) /\ blank l = true /\ blank rest = true).
  { unfold blank. induction s as [|c s IH]; intros H; [by exists "", "", true|]. cbn in H. apply andb_true_iff in H as [Hc Hs]. cbn [read_string].
    destruct (Ascii.eqb c nl_byte); [by exists "", s, false|]. destruct (IH Hs) as (l & rest & eof & -> & Hl & Hre). exists (String c l), rest, eof. cbn. by rewrite Hc, Hl. }
  intros H. unfold input, readLine. destruct (Hr _ H) as (l & rest & eof & -> & Hl & Hre). eexists _, _. split; [reflexivity|].
  split; [by apply TrimSpace_blank, drop_cr_blank|done].
Qed.

Lemma Ask_blank question def t : blank (tm_in t) = true -> def <> "" -> exists t', Ask question def t = (t', inr def) /\ blank (tm_in t') = true.
Proof.
  intros H Hd. unfold Ask. set (t1 := print _ t). destruct (input_blank t1 H) as (line & t' & E & Hl & Hb). rewrite E, Hl.
  rewrite (proj2 (String.eqb_neq def "") Hd). by exists t'.
Qed.

Lemma SelectOne_blank question choices d t : blank (tm_in t) = true -> (0 <= d < Z.of_nat (List.length choices))%Z ->
  exists t', SelectOne question choices d t = (t', inr (nth (Z.to_nat d) choices "", d)) /\ blank (tm_in t') = true.
Proof.
  intros H Hd. unfold SelectOne. destruct choices as [|c0 cs]; [cbn [List.length] in Hd; lia|].
  rewrite (proj2 (Z.ltb_ge d 0)), (proj2 (Z.leb_gt _ d)) by lia. cbn [orb]. destruct (styleANSI (tm_color t) StyleDim) as [o c].
  set (t1 := print _ t). destruct (input_blank t1 H) as (line & t' & E & Hl & Hb). rewrite E, Hl. by exists t'.
Qed.

(** The vendor that enter selects. *)
Definition vendor (cfg : Config) : string := if existsb (String.eqb (cf_CodingCLI cfg)) vendors then cf_CodingCLI cfg else "claude".

Lemma vendor_index cli : let i := indexOf vendors cli in let d := if (i <? 0)%Z then 0%Z else i in
  (0 <= d < 3)%Z /\ nth (Z.to_nat d) vendors "" = (if existsb (String.eqb cli) vendors then cli else "claude").
Proof.
  assert (H : forall i : Z, i = 0%Z \/ i = 1%Z \/ i = 2%Z -> (0 <= i < 3)%Z) by lia.
  unfold vendors. cbn [indexOf existsb]. rewrite !(String.eqb_sym _ cli).
  destruct (String.eqb_spec cli "claude") as [->|_]; [split; [by apply H; left|done]|].
  destruct (String.eqb_spec cli "kimi") as [->|_]; [split; [by apply H; right; left|done]|].
  destruct (String.eqb_spec cli "codex") as [->|_]; (split; [apply H; cbn; tauto|done]).
Qed.

Lemma vendor_cases cfg : vendor cfg = "claude" \/ vendor cfg = "kimi" \/ vendor cfg = "codex".
Proof.
  unfold vendor, vendors. cbn [existsb]. destruct (String.eqb_spec (cf_CodingCLI cfg) "claude") as [->|_]; [by left|].
  destruct (String.eqb_spec (cf_CodingCLI cfg) "kimi") as [->|_]; [by right; left|].
  destruct (String.eqb_spec (cf_CodingCLI cfg) "codex") as [->|_]; [by right; right|by left].
Qed.

(** What the wizard saves. *)
Definition entered (cfg : Config) : Config :=
  mkConfig (cf_DefaultPreset cfg) (vendor cfg) (vendor cfg) (cf_Editor cfg) "yield" (cf_Telemetry cfg).

Section Wizard.
Context {yaml : Yaml} {law : YamlLaw yaml}.
Variable env : ConfigEnv.

Lemma wizard_saves readable fault opts fs t cfg res : config_Load env readable fs = (cfg, res, None) ->
  cf_DefaultPreset cfg <> "" -> TrimSpace (cf_DefaultPreset cfg) = cf_DefaultPreset cfg -> blank (tm_in t) = true ->
  exists t', runConfigWizard env readable fault opts fs t = save env fault (if bo_Yes opts then cfg else entered cfg) fs t'.
Proof.
  intros Hl Hp Ht Hb. unfold runConfigWizard. rewrite Hl. destruct (bo_Yes opts); [by exists t|].
  destruct (Ask_blank "Default preset (used by `rallish squash`)?" (cf_DefaultPreset cfg) t Hb Hp) as (t1 & -> & Hb1).
  change (config_Set cfg "default_preset" (cf_DefaultPreset cfg)) with (@inr ConfigError Config (cfg <| cf_DefaultPreset := TrimSpace (cf_DefaultPreset cfg) |>)).
  rewrite Ht. destruct (vendor_index (cf_CodingCLI cfg)) as [Hi Hn].
  set (cfg1 := cfg <| cf_DefaultPreset := cf_DefaultPreset cfg |>). change (cf_CodingCLI cfg1) with (cf_CodingCLI cfg). cbv zeta.
  destruct (SelectOne_blank "Which coding-CLI vendor do you use day-to-day?" vendors _ t1 Hb1 Hi) as (t2 & -> & Hb2). rewrite Hn. fold (vendor cfg).
  destruct (SelectOne_blank "Rally wait mode?" wait_modes 0 t2 Hb2) as (t3 & E3 & _); [done|].
  assert (Hv : config_Set cfg1 "coding_cli" (vendor cfg) = inr (cfg1 <| cf_CodingCLI := vendor cfg |>)) by (by destruct (vendor_cases cfg) as [-> | [-> | ->]]).
  rewrite Hv. change (config_Set (cfg1 <| cf_CodingCLI := vendor cfg |>) "default_adapter" (vendor cfg))
    with (@inr ConfigError Config (cfg1 <| cf_CodingCLI := vendor cfg |> <| cf_DefaultAdapter := TrimSpace (vendor cfg) |>)).
  rewrite E3. exists t3. unfold entered. by destruct (vendor_cases cfg) as [-> | [-> | ->]].
Qed.

(** The setup wizard on a terminal where every question is answered by enter, or nothing is
    to be read.  With [--yes] every setting keeps its value.  Without it the preset, the editor and
    the telemetry keep theirs, and the vendor does when it is known; but the default adapter
    becomes the vendor, and the wait mode becomes yield, whatever they were. *)
Theorem wizard_enter (opts : BootstrapOptions) (fs : Files) (t : Term) (cfg : Config) (res : LoadResult) :
  config_Load env true fs = (cfg, res, None) -> Config_wf cfg = true -> TrimSpace (cf_DefaultPreset cfg) = cf_DefaultPreset cfg -> blank (tm_in t) = true ->
  exists fs' t', runConfigWizard env true SaveOK opts fs t = (fs', t', None) /\ forall k t0, k ∈ Keys ->
    RunConfigGet env true k fs' t0 =
      if bo_Yes opts then RunConfigGet env true k fs t0
      else if String.eqb k "wait_mode" then (print ("yield" +:+ nl) t0, None)
      else if String.eqb k "default_adapter" || String.eqb k "coding_cli" then (print (vendor cfg +:+ nl) t0, None)
      else RunConfigGet env true k fs t0.
Proof.
  intros Hl Hw Ht Hb. destruct (config_Load_path env fs cfg res Hl) as [path Hp]. pose proof (config_Load_full env fs cfg res Hl) as Hfull.
  assert (Hne : cf_DefaultPreset cfg <> "") by (rewrite <-Hfull; cbn; unfold over; by destruct (String.eqb_spec (cf_DefaultPreset cfg) "")).
  destruct (wizard_saves true SaveOK opts fs t cfg res Hl Hne Ht Hb) as [t' ->]. unfold save.
  set (c := if bo_Yes opts then cfg else entered cfg).
  assert (Hwc : Config_wf c = true).
  { unfold c. destruct (bo_Yes opts); [done|]. unfold Config_wf in *. cbn [forallb] in *. rewrite !andb_true_iff in *. destruct_and! Hw. cbn.
    split_and!; try done; destruct (vendor_cases cfg) as [-> | [-> | ->]]; done. }
  pose proof (config_Save_spec env SaveOK c fs path Hp Hwc) as Hs. destruct (config_Save env SaveOK c fs) as [fs' [e|]]; [by destruct Hs|].
  destruct Hs as (_ & data & Hf & Hu). exists fs', t'. split; [done|]. intros k t0 Hk.
  destruct (Keys_Get c k Hk) as [v Ev]. destruct (config_get_written env k fs' c path data t0 v Hk Hp Hf Hu Ev) as (d & Hd & ->).
  assert (Hsame : forall v', config_Get cfg k = inr v' -> v' = v -> (print (shown env k (over d v) +:+ nl) t0, None) = RunConfigGet env true k fs t0).
  { intros v' Ev' ->. rewrite (config_get_shown env k fs cfg res v t0 Hk Hl Ev'). destruct (config_Get_overlay cfg k Hk) as (d' & v2 & Hd' & Hv2 & Ho).
    rewrite Hfull in Ho. congruence. }
  assert (Hvn : String.eqb (vendor cfg) "" = false) by (destruct (vendor_cases cfg) as [-> | [-> | ->]]; done).
  unfold c in Ev. destruct (bo_Yes opts); [by eapply Hsame|].
  revert k Hk Ev Hd Hsame. refine (Keys_cases _ _ _ _ _ _ _); cbn; intros [= <-] [= <-] Hsame; try (by eapply Hsame; reflexivity).
  all: unfold shown, over; cbn; rewrite ?Hvn; reflexivity.
Qed.
End Wizard.

(** ** Adding components *)

(* src: internal/cli/add.go 25-29 addAsset *)
Record addAsset := mkAsset { aa_Name : string; aa_Type : string; aa_Description : string }.

Inductive AddError : Set :=
  | UnknownType (typ : string) | EmptyName | InvalidName (name : string) | AddHomeDir | AddGetwd | DownloadFails | NoBuiltIn (typ name : string)
  | NoData | InstallSkill (e : InstallError) | CreateDirectory | WriteFile | AddPrompt (e : PromptError) | NoneFound (typ : string).

(* src: internal/cli/add.go 266-273 validateType *)
Definition validateType (typ : string) : option AddError :=
  if String.eqb typ "adapter" || String.eqb typ "preset" || String.eqb typ "skill" then None else Some (UnknownType typ).
(* src: internal/cli/add.go 275-283 validateName *)
Definition validateName (name : string) : option AddError :=
  if String.eqb name "" then Some EmptyName
  else if Contains name "/" || Contains name (String backslash "") || String.eqb name "." || String.eqb name ".." then Some (InvalidName name)
  else None.

(** [Global], [From] and [Yes]. *)
(* src: internal/cli/add.go 31-40 AddOptions *)
Record AddOptions := mkAddOptions { ad_Global : bool; ad_From : string; ad_Yes : bool }.

Section Add.
(** The presets by the name in them with their descriptions, and the text of a preset file;
    the adapter files: name, the name and the description in the file, the text. *)
Variable presets : gmap string string.
Variable ReadRaw : string -> option string.
Variable adapter_files : list (string * (string * string * string)).
Variable embedded : list (string * string).
(** The body that a URL answers with status 200. *)
Variable downloadURL : string -> option string.
(** [os.UserHomeDir] and [os.Getwd]. *)
Variable userHome getwd : option string.
Variable df : DiskFaults.

(* src: internal/cli/add.go 411-437 loadAdapters *)
Definition loadAdapters : gmap string addAsset :=
  list_to_map (map (fun e => let '(file, (name, description, _)) := e in (file, mkAsset name "adapter" description)) adapter_files).

(* src: internal/cli/add.go 334-358 loadAllBuiltIns *)
Definition loadAllBuiltIns : list addAsset :=
  (map (fun e => mkAsset (fst e) "preset" (snd e)) (map_to_list presets) ++ map snd (map_to_list loadAdapters) ++
   map (fun name => mkAsset name "skill" "Embedded skill bundle") (ListEmbeddedSkills embedded))%list.

(* src: internal/cli/add.go 360-396 findBuiltIn *)
Definition findBuiltIn (typ name : string) : option addAsset :=
  if String.eqb typ "preset" then (fun d => mkAsset name "preset" d) <$> presets !! name
  else if String.eqb typ "adapter" then (fun a => mkAsset name "adapter" (aa_Description a)) <$> loadAdapters !! name
  else if String.eqb typ "skill" then
    if existsb (String.eqb name) (ListEmbeddedSkills embedded) then Some (mkAsset name "skill" "Embedded skill bundle") else None
  else None.

(* src: internal/cli/add.go 398-409 loadBuiltInData *)
Definition loadBuiltInData (typ name : string) : option string :=
  if String.eqb typ "preset" then ReadRaw name
  else if String.eqb typ "adapter" then (fun e => snd (snd e)) <$> List.find (fun e => String.eqb (fst e) name) adapter_files
  else if String.eqb typ "skill" then ReadEmbeddedSkill embedded (filepath_Join [name; "SKILL.md"])
  else None.

(* src: internal/cli/add.go 285-298 resolveTargetDir *)
Definition resolveTargetDir (typ : string) (global : bool) : AddError + string :=
  if global then match userHome with None => inl AddHomeDir | Some home => inr (filepath_Join [home; ".rallish"; typ +:+ "s"]) end
  else match getwd with None => inl AddGetwd | Some cwd => inr (filepath_Join [cwd; ".rallish"; typ +:+ "s"]) end.

Definition exists_at (d : Disk) (path : string) : bool := match d !! path with Some _ => true | None => false end.

(** Where the data comes from, and what is said about it. *)
(* src: internal/cli/add.go 174-201 runAdd *)
Definition add_data (opts : AddOptions) (typ name : string) (t : Term) : Term * (AddError + string) :=
  if negb (String.eqb (ad_From opts) "") then
    (Info ("Download from " +:+ ad_From opts) t, match downloadURL (ad_From opts) with None => inl DownloadFails | Some data => inr data end)
  else match findBuiltIn typ name with
       | None => (t, inl (NoBuiltIn typ name))
       | Some asset =>
           let t := Info ("Found built-in " +:+ typ +:+ ": " +:+ name) t in
           let t := if negb (String.eqb (aa_Description asset) "") then Detail (aa_Description asset) t else t in
           (t, match loadBuiltInData typ name with None => inl NoData | Some data => inr data end)
       end.

(** A skill is installed from the program, whatever the data. *)
(* src: internal/cli/add.go 203-223 runAdd *)
Definition add_skill (opts : AddOptions) (name targetDir : string) (d : Disk) (t : Term) : Disk * Term * option AddError :=
  let dir := if ad_Global opts then (fun home => filepath_Join [home; ".claude"; "skills"; name]) <$> userHome else Some (filepath_Join [targetDir; name]) in
  match dir with
  | None => (d, t, Some AddHomeDir)
  | Some dir =>
      match InstallNamed embedded df name dir d with
      | (d, _, Some e) => (d, t, Some (InstallSkill e))
      | (d, results, None) =>
          let t := show_results results (OK ("installed skill " +:+ name +:+ " → " +:+ dir) t) in
          (d, Detail "reload your coding-CLI session to pick up the skill" t, None)
      end
  end.

(* src: internal/cli/add.go 225-263 runAdd *)
Definition add_file (opts : AddOptions) (typ name targetDir data : string) (d : Disk) (t : Term) : Disk * Term * option AddError :=
  let targetPath := filepath_Join [targetDir; name +:+ ".yaml"] in
  let msg := (if exists_at d targetPath then "Overwrite " else "Install to ") +:+ targetPath +:+ "?" in
  let '(t, ok) := if ad_Yes opts then (t, true) else Confirm msg true t in
  if negb ok then (d, print ("Cancelled." +:+ nl) t, None)
  else if negb (df_mkdir df targetDir) then (d, t, Some CreateDirectory)
  else
    let '(d, written) := os_WriteFile df targetPath data mode_plain d in
    if negb written then (d, t, Some WriteFile)
    else
      let usage := if String.eqb typ "preset" then "rallish squash --preset " +:+ name else "Use runtime " +:+ Quote name +:+ " in your presets" in
      (d, Detail ("Usage: " +:+ usage) (OK ("Installed " +:+ typ +:+ " " +:+ name +:+ " to " +:+ targetPath) t), None).

(* src: internal/cli/add.go 153-264 runAdd *)
Definition runAdd (opts : AddOptions) (typ name : string) (d : Disk) (t : Term) : Disk * Term * option AddError :=
  match validateType typ with
  | Some e => (d, t, Some e)
  | None =>
      match validateName name with
      | Some e => (d, t, Some e)
      | None =>
          match resolveTargetDir typ (ad_Global opts) with
          | inl e => (d, t, Some e)
          | inr targetDir =>
              match add_data opts typ name t with
              | (t, inl e) => (d, t, Some e)
              | (t, inr data) =>
                  if String.eqb typ "skill" then add_skill opts name targetDir d t else add_file opts typ name targetDir data d t
              end
          end
      end
  end.

(* src: internal/cli/add.go 108-151 runAddInteractive *)
Definition runAddInteractive (opts : AddOptions) (d : Disk) (t : Term) : Disk * Term * option AddError :=
  let t := Detail "Press enter to accept the highlighted choice. Ctrl-C to abort." (Heading "rallish add — pick a component to install" t) in
  match SelectOne "Component type?" ["preset"; "adapter"] 0 t with
  | (t, inl e) => (d, t, Some (AddPrompt e))
  | (t, inr (typ, _)) =>
      let names := sort_strings (map aa_Name (List.filter (fun a => String.eqb (aa_Type a) typ) loadAllBuiltIns)) in
      match names with
      | [] => (d, t, Some (NoneFound typ))
      | _ =>
          match SelectOne ("Which " +:+ typ +:+ "?") names 0 t with
          | (t, inl e) => (d, t, Some (AddPrompt e))
          | (t, inr (picked, _)) =>
              match SelectOne "Install scope?" ["local (./.rallish)"; "global (~/.rallish)"] 0 t with
              | (t, inl e) => (d, t, Some (AddPrompt e))
              | (t, inr (scope, _)) => runAdd (mkAddOptions (HasPrefix scope "global") (ad_From opts) (ad_Yes opts)) typ picked d t
              end
          end
      end
  end.

(** By type and then by name; rows that agree on both may come in any order. *)
Definition asset_key (a : addAsset) : string * string := (aa_Type a, aa_Name a).
Definition asset_le (a b : addAsset) : Prop :=
  if String.eqb (aa_Type a) (aa_Type b) then string_le (aa_Name a) (aa_Name b) else string_le (aa_Type a) (aa_Type b).
#[export] Instance asset_le_dec a b : Decision (asset_le a b).
Proof. unfold asset_le. destruct (String.eqb _ _); apply _. Defined.

(* src: internal/cli/add.go 300-332 listComponents *)
Definition listComponents (t : Term) : Term :=
  Render (mkTable ["TYPE"; "NAME"; "DESCRIPTION"] (map (fun r => [aa_Type r; aa_Name r; aa_Description r]) (merge_sort asset_le loadAllBuiltIns))) t.

(** *** What is written *)

Lemma no_slash_contains s : Contains s "/" = false -> no_byte slash s = true.
Proof.
  unfold no_byte. induction s as [|c s IH]; [done|]. intros [H1 H2]%orb_false_iff. cbn [string_forall]. rewrite IH by done. rewrite andb_true_r.
  apply negb_true_iff, Ascii.eqb_neq. intros <-. cbn in H1. by destruct s.
Qed.

Lemma valid_file_name name : validateName name = None -> name_ok (name +:+ ".yaml") = true.
Proof.
  unfold validateName. destruct (String.eqb_spec name ""); [done|]. destruct (Contains name "/") eqn:Es; [done|]. intros _.
  assert (H : forall x, (String.length x < 5)%nat -> String.eqb (name +:+ ".yaml") x = false).
  { intros x Hx. apply String.eqb_neq. intros <-. rewrite string_length_app in Hx. cbn in Hx. lia. }
  unfold name_ok. rewrite no_byte_app, (no_slash_contains name Es), !H by (cbn; lia). done.
Qed.

(** The question of [rallish add] is answered by yes, as it is by enter: the next line of the
    input, whatever was printed before. *)
Definition accepted (t : Term) : bool :=
  let ans := ToLower (TrimSpace (fst (input t))) in String.eqb ans "" || String.eqb ans "y" || String.eqb ans "yes".

Lemma Confirm_accepted question t : snd (Confirm question true t) = accepted t.
Proof.
  unfold Confirm, accepted, input, print. cbn [tm_in set_with eta]. destruct (readLine (tm_in t)) as [[line rest] eof].
  cbn [fst]. by destruct (String.eqb (ToLower (TrimSpace line)) "").
Qed.

Lemma add_data_in opts typ name t : tm_in (fst (add_data opts typ name t)) = tm_in t.
Proof. unfold add_data. destruct (negb _); [done|]. destruct (findBuiltIn typ name) as [a|]; [|done]. by destruct (negb _). Qed.

Lemma accepted_in t t' : tm_in t = tm_in t' -> accepted t = accepted t'.
Proof. unfold accepted, input. intros ->. by destruct (readLine (tm_in t')) as [[line rest] eof]. Qed.

(** C35: Adding a preset or an adapter, built in or downloaded, answered in whatever way and on
    whatever disk, leaves every file alone but one: the file of that name directly in the
    directory of the type.  Something is written only if the type and the name are valid, the data
    is there, and the question was answered by yes or by enter, or not asked ([--yes]).  When the
    command ends without an error the file holds the data, or the answer was no and nothing at
    all was written. *)
Theorem add_confined (opts : AddOptions) (typ name dir : string) (d : Disk) (t : Term) :
  resolveTargetDir typ (ad_Global opts) = inr dir -> HasPrefix dir "/" = true -> typ <> "skill" ->
  let '(d', t', e) := runAdd opts typ name d t in
  let path := abs_path (clean_elems true (Split dir slash) ++ [name +:+ ".yaml"]) in
  let allowed := ad_Yes opts || accepted t in
  (forall p, p <> path -> d' !! p = d !! p) /\
  (d' <> d -> validateType typ = None /\ validateName name = None /\ allowed = true /\ exists data, snd (add_data opts typ name t) = inr data) /\
  (e = None -> exists data, snd (add_data opts typ name t) = inr data /\ if allowed then fst <$> d' !! path = Some data else d' = d).
Proof.
  intros Hd Ha Ht. unfold runAdd. destruct (validateType typ) as [e|]; [by split_and!|]. destruct (validateName name) as [e|] eqn:En; [by split_and!|].
  rewrite Hd. pose proof (add_data_in opts typ name t) as Hin. destruct (add_data opts typ name t) as [t1 [e|data]]; [by split_and!|].
  apply accepted_in in Hin. cbn [fst] in Hin. rewrite (proj2 (String.eqb_neq _ _) Ht).
  unfold add_file. rewrite (join_name dir (name +:+ ".yaml") Ha (valid_file_name name En)). set (path := abs_path _). cbv zeta.
  set (msg := _ +:+ path +:+ "?"). pose proof (Confirm_accepted msg t1) as Hc. rewrite Hin in Hc.
  assert (Hok : snd (if ad_Yes opts then (t1, true) else Confirm msg true t1) = ad_Yes opts || accepted t) by by destruct (ad_Yes opts).
  destruct (if ad_Yes opts then (t1, true) else Confirm msg true t1) as [t2 ok]. cbn [snd] in Hok. rewrite <-Hok.
  destruct ok; cbn [negb]; [|by split_and!; [| |intros _; exists data]].
  destruct (df_mkdir df dir); [|by split_and!]. cbn [negb]. unfold os_WriteFile. cbv zeta.
  destruct (df_write df path); cbn [negb].
  - split_and!; [intros p Hp; by rewrite lookup_insert_ne|intros _; by split_and!; [..|exists data]|].
    intros _. exists data. split; [done|]. by rewrite lookup_insert_eq.
  - destruct (wf_left df path) as [text|]; [|by split_and!].
    split_and!; [intros p Hp; by rewrite lookup_insert_ne|intros _; by split_and!; [..|exists data]|done].
Qed.
End Add.

(** ** On concrete inputs *)

#[local] Existing Instances json_yaml json_yaml_law.

Definition set_all (l : list (string * string)) : Files :=
  foldl (fun fs kv => fst (fst (RunConfigSet sample_env true SaveOK (fst kv) (snd kv) fs (mkTerm false "" "" "")))) ∅ l.
Definition custom : Files := set_all [("wait_mode", "block"); ("default_adapter", "fake"); ("coding_cli", "kimi")].
Definition custom_config : Config := mkConfig "solo-ralph" "fake" "kimi" "" "block" "off".

Example wizard_enter_witness : exists fs' t', runConfigWizard sample_env true SaveOK (mkBootstrap false false false) custom (mkTerm false "" "" nl) = (fs', t', None) /\
  RunConfigGet sample_env true "wait_mode" fs' (mkTerm false "" "" "") = (mkTerm false ("yield" +:+ nl) "" "", None) /\
  RunConfigGet sample_env true "default_adapter" fs' (mkTerm false "" "" "") = (mkTerm false ("kimi" +:+ nl) "" "", None).
Proof.
  destruct (wizard_enter sample_env (mkBootstrap false false false) custom (mkTerm false "" "" nl) custom_config (snd (fst (config_Load sample_env true custom))))
    as (fs' & t' & E & Hg); [vm_compute; reflexivity..|]. exists fs', t'. split; [exact E|].
  split; (rewrite Hg; [reflexivity|by apply KnownKey_Keys]).
Defined.

(** The setup calls a daemon reachable that the doctor, and every client, find dead. *)
Example status_trusts_pointer : let h := mkHost {["/h/.rallish/socket" := "/h/.rallish/rallish.sock"]} {["/h/.rallish/rallish.sock" := None]} ∅ in
  daemon_status "/h" h = "daemon reachable" /\ snd (resolveBrokerClient "/h" (inr "/") 0 h) = None.
Proof. vm_compute. auto. Qed.

Definition demo_add (opts : AddOptions) (typ name : string) : Disk * Term * option AddError :=
  runAdd {["solo" := "alone"]} (fun n => if String.eqb n "solo" then Some "name: solo" else None) [] sample_files
    (fun _ => Some "downloaded") (Some "/h") (Some "/w") no_faults opts typ name ∅ (mkTerm false "" "" "").

Example add_confined_witness :
  let '(d', t', e) := demo_add (mkAddOptions true "" true) "preset" "solo" in
  let path := abs_path (clean_elems true (Split "/h/.rallish/presets" slash) ++ ["solo.yaml"]) in
  e = None /\ (forall p, p <> path -> d' !! p = (∅ : Disk) !! p) /\ fst <$> d' !! path = Some "name: solo".
Proof.
  pose proof (add_confined {["solo" := "alone"]} (fun n => if String.eqb n "solo" then Some "name: solo" else None) [] sample_files (fun _ => Some "downloaded")
           (Some "/h") (Some "/w") no_faults (mkAddOptions true "" true) "preset" "solo" "/h/.rallish/presets" ∅ (mkTerm false "" "" "")
           eq_refl eq_refl ltac:(discriminate)) as H.
  fold (demo_add (mkAddOptions true "" true) "preset" "solo") in H.
  assert (He : snd (demo_add (mkAddOptions true "" true) "preset" "solo") = None) by (vm_compute; reflexivity).
  destruct (demo_add (mkAddOptions true "" true) "preset" "solo") as [[d' t'] e]. cbn [snd] in He. destruct H as (H1 & _ & H3).
  destruct (H3 He) as (data & Hd & H4). vm_compute in Hd. injection Hd as <-. split; [exact He|]. split; [exact H1|exact H4].
Defined.

(** An answer that is no. *)
Example add_refused :
  let '(d', _, e) := runAdd {["solo" := "alone"]} (fun n => if String.eqb n "solo" then Some "name: solo" else None) [] sample_files
    (fun _ => Some "downloaded") (Some "/h") (Some "/w") no_faults (mkAddOptions true "" false) "preset" "solo" ∅ (mkTerm false "" "" ("n" +:+ nl)) in
  d' = ∅ /\ e = None.
Proof. vm_compute. auto. Qed.

(** What is downloaded for a skill is dropped: the skill of that name in the program is installed. *)
Example skill_download_ignored : let '(d, _, e) := demo_add (mkAddOptions false "https://example.org/skill" true) "skill" "demo" in
  e = None /\ fst <$> d !! "/w/.rallish/skills/demo/scripts/run.sh" = Some "#!/bin/sh" /\ forallb (fun kv => negb (String.eqb (fst (snd kv)) "downloaded")) (map_to_list d) = true.
Proof. vm_compute. auto. Qed.
