(* ===== verification/Ledger.v ===== *)
(** * The harness ledger

    [pkg/contract/harness_ledger.go] (the entries, the hash chain and its verifier,
    the gate pins) and [internal/cycle/ledger.go] (the append-only JSONL file with its
    process-wide cache of tail hashes).  The file system is a map from absolute paths
    to contents; the faults an append can meet are an argument of [Append]. *)

From S2P Require Import Prelude GoStrings Sha256 Json Codec Contract.
From Stdlib Require Import Ascii String.
#[local] Open Scope string_scope.

(** ** Event types *)

Definition LedgerEventType : Set := string.
(* src: pkg/contract/harness_ledger.go 11-23 LedgerEventCycleCreated *)
Definition LedgerEventCycleCreated : LedgerEventType := "cycle_created".
(* src: pkg/contract/harness_ledger.go 17 LedgerEventAgentTurn *)
Definition LedgerEventAgentTurn : LedgerEventType := "agent_turn".
(* src: pkg/contract/harness_ledger.go 18 LedgerEventGatePassed *)
Definition LedgerEventGatePassed : LedgerEventType := "gate_passed".
(* src: pkg/contract/harness_ledger.go 19 LedgerEventGateFailed *)
Definition LedgerEventGateFailed : LedgerEventType := "gate_failed".
(* src: pkg/contract/harness_ledger.go 20 LedgerEventHandoffCreated *)
Definition LedgerEventHandoffCreated : LedgerEventType := "handoff_created".
(* src: pkg/contract/harness_ledger.go 21 LedgerEventCycleHalted *)
Definition LedgerEventCycleHalted : LedgerEventType := "cycle_halted".
(* src: pkg/contract/harness_ledger.go 22 LedgerEventCycleCompleted *)
Definition LedgerEventCycleCompleted : LedgerEventType := "cycle_completed".
(* src: pkg/contract/harness_ledger.go 23 LedgerEventValidationGreen *)
Definition LedgerEventValidationGreen : LedgerEventType := "validation_green".
(* src: pkg/contract/harness_ledger.go 24-29 LedgerEventActionDenied *)
Definition LedgerEventActionDenied : LedgerEventType := "action_denied".
(* src: pkg/contract/harness_ledger.go 30-36 LedgerEventSecretFlagged *)
Definition LedgerEventSecretFlagged : LedgerEventType := "secret_flagged".
(* src: pkg/contract/harness_ledger.go 37-45 LedgerEventGatesPinned *)
Definition LedgerEventGatesPinned : LedgerEventType := "gates_pinned".
(* src: pkg/contract/harness_ledger.go 46-51 LedgerEventGateTampered *)
Definition LedgerEventGateTampered : LedgerEventType := "gate_tampered".
(* src: pkg/contract/harness_ledger.go 52-60 LedgerEventToolUseDecision *)
Definition LedgerEventToolUseDecision : LedgerEventType := "tooluse_decision".
(* src: pkg/contract/harness_ledger.go 61-63 LedgerEventClaimRegistered *)
Definition LedgerEventClaimRegistered : LedgerEventType := "claim_registered".
(* src: pkg/contract/harness_ledger.go 64-65 LedgerEventClaimVerified *)
Definition LedgerEventClaimVerified : LedgerEventType := "claim_verified".
(* src: pkg/contract/harness_ledger.go 66-68 LedgerEventClaimFalsified *)
Definition LedgerEventClaimFalsified : LedgerEventType := "claim_falsified".

(* src: pkg/contract/harness_ledger.go 70-73 LedgerSchemaVersion *)
Definition LedgerSchemaVersion : string := "1".

(** ** Entries *)

(* src: pkg/contract/harness_ledger.go 75-107 HarnessLedgerEntry *)
Record HarnessLedgerEntry := mkEntry {
  SchemaVersion : string; At : Z; CycleID : string; Type_ : LedgerEventType; Agent : string;
  HandoffTo : string; Gate : string; Summary : string; Files : list string;
  EntryContract : option WorkContract; PrevHash : string; Hash : string }.
#[export] Instance eta_HarnessLedgerEntry : Eta HarnessLedgerEntry :=
  fun r => mkEntry (SchemaVersion r) (At r) (CycleID r) (Type_ r) (Agent r) (HandoffTo r) (Gate r)
             (Summary r) (Files r) (EntryContract r) (PrevHash r) (Hash r).

(* src: pkg/contract/harness_ledger.go 75-107 HarnessLedgerEntry *)
Definition Entry_fields : list (Field HarnessLedgerEntry) :=
  [ Tag "schema_version" SchemaVersion enc_string into_string;
    Tag "at" At enc_int into_int;
    Tag "cycle_id" CycleID enc_string into_string;
    Tag "type" Type_ enc_string into_string;
    Tag "agent" Agent opt_string into_string;
    Tag "handoff_to" HandoffTo opt_string into_string;
    Tag "gate" Gate opt_string into_string;
    Tag "summary" Summary opt_string into_string;
    Tag "files" Files (opt_slice JStr) (into_slice "" into_string);
    Tag "work_contract" EntryContract (opt_ptr (encode_struct WorkContract_fields))
      (into_ptr WorkContract_zero (into_struct WorkContract_fields));
    Tag "prev_hash" PrevHash opt_string into_string;
    Tag "hash" Hash opt_string into_string ].
Definition Entry_zero : HarnessLedgerEntry := mkEntry "" 0 "" "" "" "" "" "" [] None "" "".

(** [json.Marshal(entry)]: an entry holds nothing the encoder refuses. *)
Definition Marshal_entry (e : HarnessLedgerEntry) : string := encode (encode_struct Entry_fields e).
Definition Unmarshal_entry (line : string) : option HarnessLedgerEntry :=
  Unmarshal Entry_zero (into_struct Entry_fields) line.

(** ** The hash chain *)

(* src: pkg/contract/harness_ledger.go 109-112 LedgerGenesisHash *)
Definition LedgerGenesisHash : string :=
  "0000000000000000000000000000000000000000000000000000000000000000".

(** The bytes [ChainHash] digests. *)
(* src: pkg/contract/harness_ledger.go 128-137 ChainHash *)
Definition chain_input (entry : HarnessLedgerEntry) (prevHash : string) : string :=
  Marshal_entry (entry <| Hash := "" |>) +:+ prevHash.

(* src: pkg/contract/harness_ledger.go 114-140 ChainHash *)
Definition ChainHash (entry : HarnessLedgerEntry) (prevHash : string) : string :=
  sha256_hex (chain_input entry prevHash).

(* src: pkg/contract/harness_ledger.go 142-143 NoBrokenLink *)
Definition NoBrokenLink : Z := (-1)%Z.

(** The loop of [VerifyChain] from index [i] on. *)
(* src: pkg/contract/harness_ledger.go 156-167 VerifyChain *)
Fixpoint verify_from (prev : string) (i : Z) (entries : list HarnessLedgerEntry) : Z * bool :=
  match entries with
  | [] => (NoBrokenLink, true)
  | entry :: rest =>
      if negb (String.eqb (PrevHash entry) prev) then (i, false)
      else if negb (String.eqb (Hash entry) (ChainHash entry (PrevHash entry))) then (i, false)
      else verify_from (Hash entry) (i + 1)%Z rest
  end.

(* src: pkg/contract/harness_ledger.go 145-168 VerifyChain *)
Definition VerifyChain (entries : list HarnessLedgerEntry) : Z * bool :=
  verify_from LedgerGenesisHash 0 entries.

(** ** Constructors of entries *)

(* src: pkg/contract/harness_ledger.go 170-180 NewHarnessLedgerEntry *)
Definition NewHarnessLedgerEntry (at_ : Z) (cycleID : string) (typ : LedgerEventType)
    (summary : string) (files : list string) : HarnessLedgerEntry :=
  mkEntry LedgerSchemaVersion at_ cycleID typ "" "" "" summary files None "" "".

(* src: pkg/contract/harness_ledger.go 182-194 NewGateLedgerEntry *)
Definition NewGateLedgerEntry (at_ : Z) (cycleID : string) (report : GateReport) : HarnessLedgerEntry :=
  let eventType := if g_Passed report then LedgerEventGatePassed else LedgerEventGateFailed in
  let entry := (NewHarnessLedgerEntry at_ cycleID eventType (g_Stderr report) []) <| Gate := g_Gate report |> in
  if g_Passed report then entry <| Summary := g_Stdout report |> else entry.

(* src: pkg/contract/harness_ledger.go 196-201 NewAgentTurnLedgerEntry *)
Definition NewAgentTurnLedgerEntry (at_ : Z) (cycleID agent : string) (resp : TurnResponse) : HarnessLedgerEntry :=
  (NewHarnessLedgerEntry at_ cycleID LedgerEventAgentTurn (r_Summary resp) (r_Artifacts resp))
    <| Agent := agent |>.

(* src: pkg/contract/harness_ledger.go 203-209 NewHandoffLedgerEntry *)
Definition NewHandoffLedgerEntry (at_ : Z) (cycleID agent : string) (resp : TurnResponse) : HarnessLedgerEntry :=
  (NewHarnessLedgerEntry at_ cycleID LedgerEventHandoffCreated (r_Summary resp) (r_Artifacts resp))
    <| Agent := agent |> <| HandoffTo := r_HandoffTo resp |>.

(** ** Gate pins *)

(* src: pkg/contract/harness_ledger.go 211-219 GatePin *)
Record GatePin := mkGatePin { gp_Name : string; gp_CommandHash : string }.

Definition newline : string := String (byte_of 10) "".

(* src: pkg/contract/harness_ledger.go 221-246 PinGates *)
Definition PinGates (commands : list string) : string * list GatePin :=
  (sha256_hex (Join commands newline),
   map (fun cmd => mkGatePin ("cmd:" +:+ cmd) (sha256_hex cmd)) commands).

(* src: pkg/contract/harness_ledger.go 248-257 GatesTampered *)
Definition GatesTampered (pinnedDigest : string) (current : list string) : bool :=
  negb (String.eqb (fst (PinGates current)) pinnedDigest).

(* src: pkg/contract/harness_ledger.go 259-282 NewGatesPinnedEntry *)
Definition NewGatesPinnedEntry (at_ : Z) (cycleID digest : string) (pins : list GatePin)
    (tampered : bool) : HarnessLedgerEntry :=
  let '(typ, summaryPrefix) :=
    if tampered then (LedgerEventGateTampered, "gate set tampered: live digest differs from pinned")
    else (LedgerEventGatesPinned, "gates pinned") in
  let summary := summaryPrefix +:+ ": digest=" +:+ digest +:+ " count=" +:+ Itoa (Z.of_nat (List.length pins)) in
  (NewHarnessLedgerEntry at_ cycleID typ summary [])
    <| Files := map (fun p => gp_Name p +:+ "=" +:+ gp_CommandHash p) pins |>.

(** ** The ledger file *)

(** The process: the files, and the tail hash each opened ledger caches
    ([ledgerLocks]).  Paths are the absolute ones [safepath.Clean] returns.  A lock
    covers the whole of [Append], so appends to one path are sequential. *)
(* src: internal/cycle/ledger.go 17-46 ledgerLocks *)
Record LedgerFS := mkLedgerFS { lf_files : gmap string string; lf_locks : gmap string string }.
#[export] Instance eta_LedgerFS : Eta LedgerFS := fun r => mkLedgerFS (lf_files r) (lf_locks r).

Inductive LedgerError : Set := ErrUnmarshal | ErrMkdir | ErrOpen | ErrRead | ErrWrite.

(** What the operating system does during one [Append]; a failed write may have
    written some bytes. *)
Inductive AppendFault : Set := NoFault | MkdirFault | OpenFault | WriteFault (written : nat).

(** The lines [forEachLedgerLine] hands to its callback. *)
(* src: internal/cycle/ledger.go 156-182 forEachLedgerLine *)
Definition ledger_lines (content : string) : list string :=
  List.filter (fun line => negb (String.eqb line "")) (Split content (byte_of 10)).

(** Each line decoded in turn; the first failure aborts the read. *)
(* src: internal/cycle/ledger.go 195-207 LedgerFileSync.ReadAll *)
Fixpoint decode_lines (lines : list string) : LedgerError + list HarnessLedgerEntry :=
  match lines with
  | [] => inr []
  | line :: rest =>
      match Unmarshal_entry line with
      | None => inl ErrUnmarshal
      | Some entry => let? entries := decode_lines rest in inr (entry :: entries)
      end
  end.

(* src: internal/cycle/ledger.go 184-208 LedgerFileSync.ReadAll *)
Definition ReadAll (st : LedgerFS) (path : string) : LedgerError + list HarnessLedgerEntry :=
  match lf_files st !! path with
  | None => inr []
  | Some content => decode_lines (ledger_lines content)
  end.

(** How the file is read: to its end, not at all, or its first [n] bytes before a read fails; a file
    that does not exist is no failure. *)
Inductive LedgerRead : Set := ReadToEnd | OpenRefused | ReadStops (n : nat).

(** The lines before a failed read, the last of which may be cut, are decoded before it is noticed. *)
(* src: internal/cycle/ledger.go 184-208 LedgerFileSync.ReadAll *)
Definition ReadAll_over (how : LedgerRead) (st : LedgerFS) (path : string) : LedgerError + list HarnessLedgerEntry :=
  match how, lf_files st !! path with
  | OpenRefused, _ => inl ErrOpen
  | ReadStops n, Some content => let? _ := decode_lines (ledger_lines (slice content 0 n)) in inl ErrRead
  | _, _ => ReadAll st path
  end.

(** A failed read is never taken for a shorter ledger. *)
Lemma ReadAll_over_whole how st path entries : ReadAll_over how st path = inr entries -> ReadAll st path = inr entries.
Proof.
  unfold ReadAll_over. destruct how as [| |n]; [done..|]. destruct (lf_files st !! path); [|done].
  by destruct (decode_lines (ledger_lines (slice s 0 n))).
Qed.

(** A read of it that fails has no effect and is an error, as a line that cannot be decoded is. *)
(* src: internal/cycle/ledger.go 124-154 readLastHash *)
Definition readLastHash (st : LedgerFS) (path : string) : LedgerError + string :=
  match lf_files st !! path with
  | None => inr LedgerGenesisHash
  | Some content =>
      let? entries := decode_lines (ledger_lines content) in
      inr (foldl (fun _ e => Hash e) LedgerGenesisHash entries)
  end.

(* src: internal/cycle/ledger.go 48-67 lockForLedger *)
Definition lockForLedger (st : LedgerFS) (path : string) : LedgerError + (LedgerFS * string) :=
  match lf_locks st !! path with
  | Some h => inr (st, h)
  | None =>
      let? last := readLastHash st path in
      inr (st <| lf_locks := <[path := last]> (lf_locks st) |>, last)
  end.

(** The entry as [Append] writes it. *)
(* src: internal/cycle/ledger.go 100-106 LedgerFileSync.Append *)
Definition chained (entry : HarnessLedgerEntry) (prevHash : string) : HarnessLedgerEntry :=
  let entry := entry <| PrevHash := prevHash |> in
  entry <| Hash := ChainHash entry prevHash |>.

Definition file_of (st : LedgerFS) (path : string) : string := default "" (lf_files st !! path).

(* src: internal/cycle/ledger.go 79-122 LedgerFileSync.Append *)
Definition Append (fault : AppendFault) (st : LedgerFS) (path : string) (entry : HarnessLedgerEntry)
    : LedgerFS * option LedgerError :=
  match lockForLedger st path with
  | inl err => (st, Some err)
  | inr (st, prevHash) =>
      match fault with
      | MkdirFault => (st, Some ErrMkdir)
      | _ =>
          let entry := chained entry prevHash in
          let data := Marshal_entry entry +:+ newline in
          match fault with
          | OpenFault => (st, Some ErrOpen)
          | WriteFault n =>
              (st <| lf_files := <[path := file_of st path +:+ slice data 0 n]> (lf_files st) |>, Some ErrWrite)
          | _ =>
              (mkLedgerFS (<[path := file_of st path +:+ data]> (lf_files st))
                          (<[path := Hash entry]> (lf_locks st)), None)
          end
      end
  end.

(** ** Well-formed entries *)

Definition Entry_wf (e : HarnessLedgerEntry) : bool :=
  utf8_valid (SchemaVersion e) && in_int64 (At e) && utf8_valid (CycleID e) && utf8_valid (Type_ e) &&
  utf8_valid (Agent e) && utf8_valid (HandoffTo e) && utf8_valid (Gate e) && utf8_valid (Summary e) &&
  strings_wf (Files e) && utf8_valid (PrevHash e) && utf8_valid (Hash e) &&
  match EntryContract e with Some w => WorkContract_wf w | None => true end.

Lemma Entry_table : table_ok Entry_zero Entry_fields.
Proof. solve_table. Qed.

Lemma Entry_roundtrip e : Entry_wf e = true ->
  into_struct Entry_fields (encode_struct Entry_fields e) Entry_zero = Some e
  /\ json_wf (encode_struct Entry_fields e) = true.
Proof.
  unfold Entry_wf. intros. reflect_bools. apply decode_struct_encode.
  - apply Entry_table.
  - cbn. split_and!; eauto with rallish_wf.
    apply opt_ptr_ok. intros c Hc. rewrite Hc in *. split_and!; [by apply WorkContract_roundtrip..|done].
Qed.

Lemma Unmarshal_Marshal_entry e : Entry_wf e = true -> Unmarshal_entry (Marshal_entry e) = Some e.
Proof. intros H. apply Entry_roundtrip in H as [H1 H2]. by apply Unmarshal_encode. Qed.

(** ** The chain as a predicate *)

(** What [VerifyChain] asks of one entry after a predecessor with hash [prev]. *)
Definition linked (prev : string) (e : HarnessLedgerEntry) : Prop :=
  PrevHash e = prev /\ Hash e = ChainHash e prev.

Fixpoint chain_from (prev : string) (es : list HarnessLedgerEntry) : Prop :=
  match es with [] => True | e :: r => linked prev e /\ chain_from (Hash e) r end.

Definition tail_hash (prev : string) (es : list HarnessLedgerEntry) : string :=
  foldl (fun _ e => Hash e) prev es.

(** The hash the entry at [i] must link to. *)
Definition prev_hash (es : list HarnessLedgerEntry) (i : nat) : string :=
  tail_hash LedgerGenesisHash (take i es).

Lemma verify_from_step prev i e es :
  (linked prev e /\ verify_from prev i (e :: es) = verify_from (Hash e) (i + 1) es) \/
  (~ linked prev e /\ verify_from prev i (e :: es) = (i, false)).
Proof.
  unfold linked. cbn [verify_from]. destruct (String.eqb_spec (PrevHash e) prev) as [->|]; [|by right; naive_solver].
  destruct (String.eqb_spec (Hash e) (ChainHash e prev)); [by left|by right; naive_solver].
Qed.

Lemma verify_from_true prev i es :
  verify_from prev i es = (NoBrokenLink, true) <-> chain_from prev es.
Proof.
  revert prev i. induction es as [|e es IH]; intros prev i; [done|].
  destruct (verify_from_step prev i e es) as [[Hl ->]|[Hl ->]]; cbn [chain_from].
  - rewrite IH. naive_solver.
  - naive_solver.
Qed.

Lemma VerifyChain_chain es : VerifyChain es = (NoBrokenLink, true) <-> chain_from LedgerGenesisHash es.
Proof. apply verify_from_true. Qed.

Lemma tail_hash_snoc prev es e : tail_hash prev (es ++ [e]) = Hash e.
Proof. unfold tail_hash. by rewrite foldl_snoc. Qed.

Lemma chain_from_snoc prev es e :
  chain_from prev (es ++ [e]) <-> chain_from prev es /\ linked (tail_hash prev es) e.
Proof.
  revert prev. induction es as [|x es IH]; intros prev; cbn [app chain_from]; [naive_solver|].
  rewrite IH. unfold tail_hash. cbn [foldl]. naive_solver.
Qed.

Lemma verify_from_first prev i es :
  (verify_from prev i es = (NoBrokenLink, true) /\
   forall k e, es !! k = Some e -> linked (tail_hash prev (take k es)) e) \/
  (exists k e, verify_from prev i es = ((i + Z.of_nat k)%Z, false) /\ es !! k = Some e /\
   ~ linked (tail_hash prev (take k es)) e /\
   forall j e', (j < k)%nat -> es !! j = Some e' -> linked (tail_hash prev (take j es)) e').
Proof.
  revert prev i. induction es as [|x es IH]; intros prev i; [by left|].
  destruct (verify_from_step prev i x es) as [[Hl ->]|[Hl ->]].
  - destruct (IH (Hash x) (i + 1)%Z) as [[-> H]|(k & e & -> & Hk & Hn & H)].
    + left. split; [done|]. intros [|k] e Hk; cbn in *; [by simplify_eq|by apply H].
    + right. exists (S k), e. split_and!; [f_equal; lia|done..|].
      intros [|j] e' Hj Hj'; cbn in *; [by simplify_eq|apply H; [lia|done]].
  - right. exists 0%nat, x. split_and!; [f_equal; lia|done..|]. lia.
Qed.

(** [VerifyChain] accepts exactly when every entry links to its predecessor (the
    genesis hash for the first) and carries the hash of its own content; otherwise the
    index it returns is that of the first entry that does not. *)
Theorem VerifyChain_spec es :
  (VerifyChain es = (NoBrokenLink, true) /\
   forall i e, es !! i = Some e -> linked (prev_hash es i) e) \/
  (exists i e, VerifyChain es = (Z.of_nat i, false) /\ es !! i = Some e /\
   ~ linked (prev_hash es i) e /\
   forall j e', (j < i)%nat -> es !! j = Some e' -> linked (prev_hash es j) e').
Proof. apply verify_from_first. Qed.

(** ** Tamper evidence *)

(** Every byte string [VerifyChain] digests when it accepts [es]. *)
Definition hashed_inputs (es : list HarnessLedgerEntry) : list string :=
  map (fun e => chain_input e (PrevHash e)) es.

Lemma Entry_wf_unhash e : Entry_wf e = true -> Entry_wf (e <| Hash := "" |>) = true.
Proof.
  unfold Entry_wf. destruct e. cbn. rewrite !andb_true_iff. naive_solver.
Qed.

Lemma chain_input_inj e e' p p' :
  Entry_wf e = true -> Entry_wf e' = true ->
  chain_input e p = chain_input e' p' -> e <| Hash := "" |> = e' <| Hash := "" |> /\ p = p'.
Proof.
  intros H%Entry_wf_unhash H'%Entry_wf_unhash E.
  apply Entry_roundtrip in H as [H1 H2]. apply Entry_roundtrip in H' as [H1' H2'].
  apply encode_app_inj in E as [E ->]; [|done..]. split; [|done]. congruence.
Qed.

Lemma unhash_inj e e' : e <| Hash := "" |> = e' <| Hash := "" |> -> Hash e = Hash e' -> e = e'.
Proof. destruct e, e'. unfold set_with. cbn. congruence. Qed.

Lemma hashed_inputs_snoc es e :
  hashed_inputs (es ++ [e]) = (hashed_inputs es ++ [chain_input e (PrevHash e)])%list.
Proof. unfold hashed_inputs. by rewrite map_app. Qed.

(** A chain whose last hash is the genesis hash has digested an input to it. *)
Lemma chain_genesis es e xs :
  chain_from LedgerGenesisHash (es ++ [e]) -> Hash e = LedgerGenesisHash ->
  hashed_inputs (es ++ [e]) ⊆ xs -> LedgerGenesisHash ∈ map sha256_hex xs.
Proof.
  intros [_ [Hp Hh]]%chain_from_snoc He Hs. rewrite <-He, Hh, <-Hp. unfold ChainHash.
  apply (list_elem_of_fmap_2 sha256_hex), Hs. rewrite hashed_inputs_snoc. apply elem_of_app. right. by left.
Qed.

Lemma chain_unique es es' :
  chain_from LedgerGenesisHash es -> chain_from LedgerGenesisHash es' ->
  forallb Entry_wf es = true -> forallb Entry_wf es' = true ->
  CollisionFree (hashed_inputs es ++ hashed_inputs es') ->
  LedgerGenesisHash ∉ map sha256_hex (hashed_inputs es ++ hashed_inputs es') ->
  tail_hash LedgerGenesisHash es = tail_hash LedgerGenesisHash es' ->
  es = es'.
Proof.
  revert es'. induction es as [|e es IH] using rev_ind; intros es' H1 H2 Hw1 Hw2 Hcf Hg Ht;
    (destruct (snoc_cases es') as [->|(l & x & ->)]; [try done|]).
  - rewrite tail_hash_snoc in Ht. exfalso. eapply Hg, chain_genesis; [done|by symmetry|done].
  - rewrite tail_hash_snoc in Ht. exfalso. eapply Hg, chain_genesis; [done|done|by rewrite app_nil_r].
  - rewrite !tail_hash_snoc in Ht.
    apply chain_from_snoc in H1 as [H1 [Hp1 Hh1]]. apply chain_from_snoc in H2 as [H2 [Hp2 Hh2]].
    rewrite forallb_app in Hw1, Hw2. cbn [forallb] in Hw1, Hw2. reflect_bools.
    rewrite !hashed_inputs_snoc in Hcf, Hg.
    assert (E : chain_input e (PrevHash e) = chain_input x (PrevHash x)).
    { apply Hcf; [set_solver-..|]. apply sha256_hex_inj.
      unfold ChainHash in *. by rewrite Hp1, Hp2, <-Hh1, <-Hh2. }
    apply chain_input_inj in E as [E Ep]; [|done..].
    apply unhash_inj in E; [|done]. subst x. f_equal. apply IH; try done; [| |congruence].
    + eapply CollisionFree_mono, Hcf. set_solver-.
    + intros Hin. apply Hg. clear -Hin. apply (list_elem_of_fmap sha256_hex) in Hin as (y & -> & Hy).
      apply (list_elem_of_fmap_2 sha256_hex). set_solver.
Qed.

(** C1: tamper evidence.  Two chains that [VerifyChain] accepts and that end in the same
    hash are the same chain: no entry can be altered, inserted, dropped or reordered
    under an accepted tail hash, unless two of the inputs actually digested collide (or
    one digests to the genesis constant). *)
Theorem VerifyChain_tamper_evident es es'
  (Hwf : forallb Entry_wf es = true) (Hwf' : forallb Entry_wf es' = true)
  (Hcf : CollisionFree (hashed_inputs es ++ hashed_inputs es'))
  (Hgen : LedgerGenesisHash ∉ map sha256_hex (hashed_inputs es ++ hashed_inputs es'))
  (Hv : VerifyChain es = (NoBrokenLink, true)) (Hv' : VerifyChain es' = (NoBrokenLink, true))
  (Htail : tail_hash LedgerGenesisHash es = tail_hash LedgerGenesisHash es') :
  es = es'.
Proof. apply VerifyChain_chain in Hv, Hv'. by apply chain_unique. Qed.

Definition entry_a : HarnessLedgerEntry :=
  chained (NewHarnessLedgerEntry 1 "c" LedgerEventCycleCreated "go" []) LedgerGenesisHash.
Definition entry_b : HarnessLedgerEntry :=
  chained (NewHarnessLedgerEntry 2 "c" LedgerEventAgentTurn "done" ["main.go"]) (Hash entry_a).

Example VerifyChain_tamper_evident_witness : [entry_a; entry_b] = [entry_a; entry_b].
Proof.
  apply VerifyChain_tamper_evident.
  - vm_compute. reflexivity.
  - vm_compute. reflexivity.
  - apply collision_free_b_sound. vm_compute. reflexivity.
  - refine (bool_decide_unpack _ _). vm_compute. exact I.
  - vm_compute. reflexivity.
  - vm_compute. reflexivity.
  - reflexivity.
Defined.

(** ** The file *)

Definition closed_lines (c : string) : Prop := c = "" \/ exists c0, c = c0 +:+ newline.

(** A ledger file that holds the chain [es], with a cached tail that agrees. *)
Definition ledger_ok (st : LedgerFS) (path : string) (es : list HarnessLedgerEntry) : Prop :=
  closed_lines (file_of st path) /\
  decode_lines (ledger_lines (file_of st path)) = inr es /\
  chain_from LedgerGenesisHash es /\
  (forall h, lf_locks st !! path = Some h -> h = tail_hash LedgerGenesisHash es).

Lemma ledger_lines_app c line :
  closed_lines c -> no_byte (byte_of 10) line = true -> line <> "" ->
  ledger_lines (c +:+ line +:+ newline) = (ledger_lines c ++ [line])%list.
Proof.
  intros Hc Hn Hne. apply String.eqb_neq in Hne.
  assert (Hl : ledger_lines (line +:+ newline) = [line]).
  { unfold ledger_lines, newline. rewrite Split_app, Split_no_byte by done. cbn. by rewrite Hne. }
  destruct Hc as [->|[c0 ->]]; [done|].
  assert (E : forall x, ledger_lines (c0 +:+ String (byte_of 10) x) = (ledger_lines c0 ++ ledger_lines x)%list).
  { intros x. unfold ledger_lines. by rewrite Split_app, List.filter_app. }
  unfold newline at 1 3. rewrite <-string_app_assoc. cbn [String.append].
  rewrite E, Hl, E. change (ledger_lines "") with (@nil string). by rewrite app_nil_r.
Qed.

Lemma decode_lines_app l1 l2 es1 es2 :
  decode_lines l1 = inr es1 -> decode_lines l2 = inr es2 -> decode_lines (l1 ++ l2) = inr (es1 ++ es2)%list.
Proof.
  revert es1. induction l1 as [|x l1 IH]; cbn [decode_lines app]; intros es1; [by intros [= <-]|].
  destruct (Unmarshal_entry x); [|done]. destruct (decode_lines l1); [done|].
  intros [= <-] H. by rewrite (IH _ eq_refl H).
Qed.

Lemma Marshal_entry_line e :
  Entry_wf e = true -> no_byte (byte_of 10) (Marshal_entry e) = true /\ Marshal_entry e <> "".
Proof.
  intros [_ H]%Entry_roundtrip. split; [by apply encode_one_line|].
  unfold Marshal_entry. by destruct (encode_head _ H) as (? & ? & -> & _).
Qed.

Lemma readLastHash_ok st path es :
  ledger_ok st path es -> readLastHash st path = inr (tail_hash LedgerGenesisHash es).
Proof.
  intros (_ & Hd & _ & _). unfold readLastHash, file_of in *.
  destruct (lf_files st !! path); cbn [from_option id] in Hd; [by rewrite Hd|by injection Hd as <-].
Qed.

Lemma lockForLedger_ok st path es :
  ledger_ok st path es -> exists st1, lockForLedger st path = inr (st1, tail_hash LedgerGenesisHash es) /\
    ledger_ok st1 path es /\ lf_files st1 = lf_files st /\
    (forall p, p <> path -> lf_locks st1 !! p = lf_locks st !! p).
Proof.
  intros Hok. unfold lockForLedger. destruct (lf_locks st !! path) as [h|] eqn:Hl.
  - exists st. pose proof Hok as (_ & _ & _ & Hh). by rewrite (Hh h Hl).
  - rewrite (readLastHash_ok _ _ _ Hok). eexists. split; [done|]. split_and!; [|done|].
    + destruct Hok as (? & ? & ? & _). split_and!; try done. unfold set_with. cbn. intros h.
      rewrite lookup_insert_eq. by intros [= <-].
    + intros p Hp. unfold set_with. cbn. by rewrite lookup_insert_ne.
Qed.

Lemma chained_wf e prev : Entry_wf e = true -> utf8_valid prev = true -> Entry_wf (chained e prev) = true.
Proof.
  intros H Hp. assert (Hh : utf8_valid (ChainHash (e <| PrevHash := prev |>) prev) = true).
  { apply hex_encode_utf8. }
  unfold Entry_wf, chained, set_with in *. cbn in *. rewrite !andb_true_iff in *. naive_solver.
Qed.

Lemma tail_hash_utf8 es : chain_from LedgerGenesisHash es -> utf8_valid (tail_hash LedgerGenesisHash es) = true.
Proof.
  destruct (snoc_cases es) as [->|(l & x & ->)]; [done|]. intros [_ [_ Hh]]%chain_from_snoc.
  rewrite tail_hash_snoc, Hh. apply hex_encode_utf8.
Qed.

Lemma chained_linked e prev : linked prev (chained e prev).
Proof. split; [done|]. by destruct e. Qed.

Lemma Append_ok st path es e :
  ledger_ok st path es -> Entry_wf e = true ->
  exists st', Append NoFault st path e = (st', None) /\
    ledger_ok st' path (es ++ [chained e (tail_hash LedgerGenesisHash es)]) /\
    (forall p, p <> path -> lf_files st' !! p = lf_files st !! p /\ lf_locks st' !! p = lf_locks st !! p).
Proof.
  intros Hok Hwf. destruct (lockForLedger_ok _ _ _ Hok) as (st1 & E & Hok1 & Hf & Hl).
  unfold Append. rewrite E. eexists. split; [done|]. destruct Hok1 as (Hc & Hd & Hch & _).
  assert (Hwf' : Entry_wf (chained e (tail_hash LedgerGenesisHash es)) = true)
    by by apply chained_wf; [|apply tail_hash_utf8].
  destruct (Marshal_entry_line _ Hwf') as [Hn Hne].
  assert (Hch' : chain_from LedgerGenesisHash (es ++ [chained e (tail_hash LedgerGenesisHash es)])).
  { apply chain_from_snoc. split; [done|apply chained_linked]. }
  split.
  - split_and!; try done.
    + right. eexists. unfold file_of at 1. cbn [lf_files]. rewrite lookup_insert_eq. cbn [from_option id].
      apply string_app_assoc.
    + unfold file_of at 1. cbn [lf_files]. rewrite lookup_insert_eq. cbn [from_option id].
      rewrite ledger_lines_app by done. apply decode_lines_app; [done|]. cbn [decode_lines].
      by rewrite Unmarshal_Marshal_entry.
    + cbn [lf_locks]. intros h. rewrite lookup_insert_eq, tail_hash_snoc. by intros [= <-].
  - intros p Hp. cbn [lf_files lf_locks]. rewrite !lookup_insert_ne by done. by rewrite Hf, Hl.
Qed.

Lemma ReadAll_ok st path es : ledger_ok st path es -> ReadAll st path = inr es.
Proof.
  intros (_ & Hd & _). unfold ReadAll, file_of in *. destruct (lf_files st !! path); [done|].
  cbn in Hd. by injection Hd as <-.
Qed.

(** A run of successful appends to one ledger. *)
Fixpoint append_all (st : LedgerFS) (path : string) (es : list HarnessLedgerEntry) : LedgerFS :=
  match es with [] => st | e :: r => append_all (fst (Append NoFault st path e)) path r end.

(** The entries as they end up on disk. *)
Fixpoint chain_entries (prev : string) (es : list HarnessLedgerEntry) : list HarnessLedgerEntry :=
  match es with [] => [] | e :: r => let e' := chained e prev in e' :: chain_entries (Hash e') r end.

Lemma append_all_ok es st path old :
  ledger_ok st path old -> forallb Entry_wf es = true ->
  ledger_ok (append_all st path es) path (old ++ chain_entries (tail_hash LedgerGenesisHash old) es).
Proof.
  revert st old. induction es as [|e es IH]; intros st old Hok Hwf; [by rewrite app_nil_r|].
  cbn [forallb append_all chain_entries] in *. reflect_bools.
  destruct (Append_ok _ _ _ e Hok) as (st' & -> & Hok' & _); [done|]. cbn [fst].
  specialize (IH st' _ Hok' ltac:(done)). rewrite tail_hash_snoc, <-app_assoc in IH. exact IH.
Qed.

(** Refinement of the ledger file to a list of entries.  On a ledger that holds the
    chain [es], an append adds exactly the entry linked to the tail and keeps the chain
    verified and the cached tail right; an append that fails before any byte is
    written reports its error and changes neither the entries nor the chain; no other
    ledger is touched. *)
Theorem Append_refines fault st path es e
  (Hok : ledger_ok st path es) (Hwf : Entry_wf e = true)
  (Hfault : forall n, fault = WriteFault n -> n = 0%nat) :
  exists st' err, Append fault st path e = (st', err) /\
    (err = None <-> fault = NoFault) /\
    ledger_ok st' path
      match err with
      | Some _ => es
      | None => (es ++ [chained e (tail_hash LedgerGenesisHash es)])%list
      end /\
    (forall p, p <> path -> lf_files st' !! p = lf_files st !! p /\ lf_locks st' !! p = lf_locks st !! p).
Proof.
  destruct (lockForLedger_ok _ _ _ Hok) as (st1 & E & Hok1 & Hf & Hl).
  assert (Hp : forall p, p <> path -> lf_files st1 !! p = lf_files st !! p /\ lf_locks st1 !! p = lf_locks st !! p).
  { intros p Hp. by rewrite Hf, Hl. }
  destruct fault as [| | |n].
  - destruct (Append_ok _ _ _ _ Hok Hwf) as (st' & Ha & H1 & H2). by exists st', None.
  - exists st1, (Some ErrMkdir). unfold Append. by rewrite E.
  - exists st1, (Some ErrOpen). unfold Append. by rewrite E.
  - rewrite (Hfault n eq_refl). do 2 eexists. unfold Append. rewrite E. split; [done|]. split; [done|].
    change (slice ?d 0 0) with (slice d 0 0).
    assert (Hs : forall d, slice d 0 0 = "") by (intros []; done). rewrite Hs, string_app_nil_r.
    split.
    + destruct Hok1 as (H1 & H2 & H3 & H4). unfold set_with.
      assert (Hfile : forall l, file_of (mkLedgerFS (<[path:=file_of st1 path]> (lf_files st1)) l) path = file_of st1 path).
      { intros l. unfold file_of at 1. cbn [lf_files]. by rewrite lookup_insert_eq. }
      split_and!; rewrite ?Hfile; done.
    + intros p Hne. unfold set_with. cbn [lf_files lf_locks]. rewrite lookup_insert_ne by done. auto.
Qed.

Definition empty_fs : LedgerFS := mkLedgerFS ∅ ∅.

Lemma ledger_ok_empty path : ledger_ok empty_fs path [].
Proof. unfold ledger_ok, file_of. cbn. rewrite !lookup_empty. split_and!; [by left|done|done|done]. Qed.

Definition entry_1 : HarnessLedgerEntry := NewHarnessLedgerEntry 1 "c" LedgerEventCycleCreated "go" [].
Definition entry_2 : HarnessLedgerEntry := NewHarnessLedgerEntry 2 "c" LedgerEventAgentTurn "ok" ["main.go"].

Example Append_refines_witness :
  exists st' err, Append NoFault empty_fs "l.jsonl" entry_1 = (st', err) /\
    (err = None <-> NoFault = NoFault) /\
    ledger_ok st' "l.jsonl"
      match err with
      | Some _ => []
      | None => ([] ++ [chained entry_1 (tail_hash LedgerGenesisHash [])])%list
      end /\
    (forall p, p <> "l.jsonl" -> lf_files st' !! p = lf_files empty_fs !! p /\
                                 lf_locks st' !! p = lf_locks empty_fs !! p).
Proof. apply (Append_refines NoFault); [apply ledger_ok_empty|reflexivity|discriminate]. Defined.

(** C32: round trip of the ledger.  Whatever well-formed entries are appended to a new
    ledger, in whatever number, [ReadAll] returns them in order, linked, and
    [VerifyChain] accepts them. *)
Theorem append_ReadAll_verified path es (Hwf : forallb Entry_wf es = true) :
  ReadAll (append_all empty_fs path es) path = inr (chain_entries LedgerGenesisHash es) /\
  VerifyChain (chain_entries LedgerGenesisHash es) = (NoBrokenLink, true).
Proof.
  pose proof (append_all_ok es empty_fs path [] (ledger_ok_empty path) Hwf) as H. split.
  - by apply ReadAll_ok in H.
  - by apply VerifyChain_chain; destruct H as (_ & _ & H & _).
Qed.

Example append_ReadAll_verified_witness :
  ReadAll (append_all empty_fs "l.jsonl" [entry_1; entry_2]) "l.jsonl"
    = inr (chain_entries LedgerGenesisHash [entry_1; entry_2]) /\
  VerifyChain (chain_entries LedgerGenesisHash [entry_1; entry_2]) = (NoBrokenLink, true).
Proof. apply append_ReadAll_verified. vm_compute. reflexivity. Defined.

(** A gate whose output holds a byte that is not UTF-8, as a truncated or binary
    output does. *)
Definition binary_report : GateReport :=
  mkGateReport "audit" true 10 (String (byte_of 255) "") "" [] [].

(** An entry with invalid UTF-8 defeats the chain.  Appending the ledger entry of a
    gate report whose output holds the byte 0xFF succeeds, and the ledger reads back
    one entry, but [VerifyChain] rejects it: the digest was taken over the escape the
    encoder writes for the byte, the verifier's over the replacement character it
    decodes to. *)
Theorem Append_invalid_utf8_breaks_chain :
  exists st e,
    Append NoFault empty_fs "l.jsonl" (NewGateLedgerEntry 5 "c" binary_report) = (st, None) /\
    ReadAll st "l.jsonl" = inr [e] /\ VerifyChain [e] = (0%Z, false).
Proof. do 2 eexists. split; [|split]; [vm_compute; reflexivity..|vm_compute; reflexivity]. Qed.

(** A short write makes the ledger unreadable.  When a write stops after some bytes,
    the error is reported, but the next append succeeds on the torn line, and from
    then on [ReadAll] fails for the whole ledger. *)
Theorem Append_torn_write :
  exists st1 st2,
    Append (WriteFault 20) empty_fs "l.jsonl" entry_1 = (st1, Some ErrWrite) /\
    Append NoFault st1 "l.jsonl" entry_2 = (st2, None) /\
    ReadAll st2 "l.jsonl" = inl ErrUnmarshal.
Proof. do 2 eexists. split; [|split]; [vm_compute; reflexivity..|vm_compute; reflexivity]. Qed.

(** ** Gate pins *)

Lemma Split_Join l c :
  l <> [] -> forallb (no_byte c) l = true -> Split (Join l (String c "")) c = l.
Proof.
  induction l as [|x l IH]; [done|]. intros _ H. cbn [forallb] in H. reflect_bools.
  destruct l as [|y l]; [by apply Split_no_byte|].
  rewrite Join_cons2. cbn [String.append]. rewrite Split_app, Split_no_byte, IH; done.
Qed.

(** The digest of [PinGates] binds the gate set, order and number included, for
    non-empty sets of one-line commands, unless the two joined texts collide: then
    [GatesTampered] is false exactly for the pinned set.  Outside of that the binding
    fails: a two-line gate and the two gates of its lines, or no gate and one empty
    gate, have the same digest. *)
Theorem GatesTampered_spec :
  (forall pinned live,
     pinned <> [] -> live <> [] ->
     forallb (no_byte (byte_of 10)) pinned = true -> forallb (no_byte (byte_of 10)) live = true ->
     CollisionFree [Join pinned newline; Join live newline] ->
     (GatesTampered (fst (PinGates pinned)) live = false <-> live = pinned)) /\
  GatesTampered (fst (PinGates ["go vet" +:+ newline +:+ "go test"])) ["go vet"; "go test"] = false /\
  GatesTampered (fst (PinGates [])) [""] = false.
Proof.
  split; [|by vm_compute]. intros pinned live Hp Hl Hn Hn' Hcf. unfold GatesTampered.
  rewrite negb_false_iff, String.eqb_eq. split; [|by intros ->]. intros E. symmetry.
  rewrite <-(Split_Join pinned (byte_of 10)), <-(Split_Join live (byte_of 10)) by done. f_equal.
  apply Hcf; [by left|by right; left|]. by apply sha256_hex_inj.
Qed.
