(* ===== verification/Conventions.v ===== *)
(** * Convention files

    [pkg/contract/conventions.go]: the sections, directives and digests of AGENTS.md and
    CLAUDE.md.  The theorems say where each line of a file goes: into the frontmatter, into the
    sections, in order, each in one place, or away: a line of 64 KiB and all that follows it. *)

From S2P Require Import Prelude GoStrings Sha256 Lines Ledger.
From Stdlib Require Import Ascii String.
#[local] Open Scope string_scope.

(* src: pkg/contract/conventions.go 32-40 ConventionSection *)
Record ConventionSection := mkSection { sec_Heading : string; sec_Directives : list string; sec_RawLines : list string }.

(* src: pkg/contract/conventions.go 45-52 Conventions *)
Record Conventions := mkConventions { cv_Sections : gmap string (list ConventionSection); cv_Digests : gmap string string }.

(** [s[n:]]. *)
Definition skip_bytes (n : nat) (s : string) : string := slice_from s n.

(* src: pkg/contract/conventions.go 150-154 isATXHeading *)
Definition isATXHeading (line : string) : bool :=
  let trimmed := TrimLeft line "#" in
  let hashes := (String.length line - String.length trimmed)%nat in
  (1 <=? hashes)%nat && (hashes <=? 6)%nat && match trimmed with "" => true | String c _ => Ascii.eqb c " " end.

(* src: pkg/contract/conventions.go 157-160 parseHeading *)
Definition parseHeading (line : string) : string := TrimSpace (TrimLeft line "#").

(* src: pkg/contract/conventions.go 165-174 parseBullet *)
Definition parseBullet (line : string) : option string :=
  match TrimSpace line with
  | String a (String b rest) =>
      if (Ascii.eqb a "-" || Ascii.eqb a "*" || Ascii.eqb a "+") && Ascii.eqb b " " then Some (TrimSpace rest) else None
  | _ => None
  end.

(** Where the scan of the lines is with the frontmatter. *)
(* src: pkg/contract/conventions.go 94-97 parseSections *)
Record Front := mkFront { fr_lines : list string; fr_in : bool; fr_done : bool; fr_first : bool }.
#[export] Instance eta_Front : Eta Front := fun r => mkFront (fr_lines r) (fr_in r) (fr_done r) (fr_first r).

Definition fence : string := "---".

(* src: pkg/contract/conventions.go 98-117 parseSections *)
Definition front_line (st : Front) (line : string) : Front :=
  if fr_first st && negb (fr_done st) && String.eqb (TrimSpace line) fence then st <| fr_in := true |> <| fr_first := false |>
  else
    let st := if fr_first st && negb (fr_done st) then st <| fr_first := false |> else st in
    if fr_in st
    then (if String.eqb (TrimSpace line) fence then st <| fr_in := false |> <| fr_done := true |> else st)
    else st <| fr_lines := (fr_lines st ++ [line])%list |>.

(** The error of the scanner is not looked at. *)
(* src: pkg/contract/conventions.go 88-117 parseSections *)
Definition content_lines (content : string) : list string :=
  fr_lines (foldl front_line (mkFront [] false false true) (fst (scan content))).

(** The sections that are complete, and the one that is open. *)
Abbreviation Open_ := (list ConventionSection * option ConventionSection)%type.

(* src: pkg/contract/conventions.go 122-127 parseSections *)
Definition flush (st : Open_) : list ConventionSection :=
  match snd st with Some s => (fst st ++ [s])%list | None => fst st end.

(* src: pkg/contract/conventions.go 129-144 parseSections *)
Definition section_line (st : Open_) (line : string) : Open_ :=
  if isATXHeading line then (flush st, Some (mkSection (parseHeading line) [] []))
  else
    let cur := default (mkSection "" [] []) (snd st) in
    (fst st, Some (mkSection (sec_Heading cur)
                     (match parseBullet line with Some d => (sec_Directives cur ++ [d])%list | None => sec_Directives cur end)
                     (sec_RawLines cur ++ [line])%list)).

Definition sections_of (lines : list string) : list ConventionSection := flush (foldl section_line ([], None) lines).

(* src: pkg/contract/conventions.go 88-147 parseSections *)
Definition parseSections (content : string) : list ConventionSection := sections_of (content_lines content).

(** An empty content is an absent file. *)
(* src: pkg/contract/conventions.go 69-84 ParseConventions *)
Definition ParseConventions (sources : gmap string string) : Conventions :=
  let present := filter (fun kv : string * string => kv.2 <> "") sources in
  mkConventions (parseSections <$> present) (sha256_hex <$> present).

(* src: pkg/contract/conventions.go 181 LedgerEventConventionsLoaded *)
Definition LedgerEventConventionsLoaded : LedgerEventType := "conventions_loaded".

(** [order] is the order in which the range over the map of digests meets its keys. *)
(* src: pkg/contract/conventions.go 190-207 NewConventionsLoadedEntry *)
Definition NewConventionsLoadedEntry (at_ : Z) (cycleID : string) (order : list (string * string)) : HarnessLedgerEntry :=
  let summary := match order with
                 | [] => "conventions loaded: none (no convention files present)"
                 | _ => "conventions loaded: " +:+ Join (map fst order) ", "
                 end in
  (NewHarnessLedgerEntry at_ cycleID LedgerEventConventionsLoaded summary [])
    <| Files := map (fun kv => fst kv +:+ "=" +:+ snd kv) order |>.

(** ** The frontmatter *)

(** The lines after the first one that closes the frontmatter. *)
Fixpoint after_fence (lines : list string) : list string :=
  match lines with [] => [] | l :: r => if String.eqb (TrimSpace l) fence then r else after_fence r end.

Lemma front_open lines acc : fr_lines (foldl front_line (mkFront acc true false false) lines) = (acc ++ after_fence lines)%list.
Proof.
  revert acc. induction lines as [|l r IH]; intros acc; cbn [foldl after_fence]; [by rewrite app_nil_r|].
  change (front_line (mkFront acc true false false) l) with
    (if String.eqb (TrimSpace l) fence then mkFront acc false true false else mkFront acc true false false).
  destruct (String.eqb (TrimSpace l) fence); [|apply IH].
  clear. revert acc. induction r as [|l r IH]; intros acc; [by rewrite app_nil_r|]. cbn [foldl].
  change (front_line (mkFront acc false true false) l) with (mkFront (acc ++ [l]) false true false).
  rewrite IH. by rewrite <-app_assoc.
Qed.

Lemma front_closed lines acc : fr_lines (foldl front_line (mkFront acc false false false) lines) = (acc ++ lines)%list.
Proof.
  revert acc. induction lines as [|l r IH]; intros acc; [by rewrite app_nil_r|]. cbn [foldl].
  change (front_line (mkFront acc false false false) l) with (mkFront (acc ++ [l]) false false false).
  rewrite IH. by rewrite <-app_assoc.
Qed.

(** Only a first line of three dashes opens a frontmatter; one that is never closed is the whole file. *)
Lemma content_lines_spec content :
  content_lines content =
    match fst (scan content) with
    | [] => []
    | l :: r => if String.eqb (TrimSpace l) fence then after_fence r else l :: r
    end.
Proof.
  unfold content_lines. destruct (fst (scan content)) as [|l r]; [done|]. cbn [foldl].
  change (front_line (mkFront [] false false true) l) with
    (if String.eqb (TrimSpace l) fence then mkFront [] true false false else mkFront [l] false false false).
  destruct (String.eqb (TrimSpace l) fence); [apply front_open|apply front_closed].
Qed.

(** ** The sections *)

(** A block of lines: a heading line, or none, and the lines under it. *)
Definition Block : Type := option string * list string.
Definition block_lines (b : Block) : list string := match fst b with Some h => h :: snd b | None => snd b end.
Definition block_section (b : Block) : ConventionSection :=
  mkSection (match fst b with Some h => parseHeading h | None => "" end) (omap parseBullet (snd b)) (snd b).

(** Only the first block may lack its heading, and then it holds a line. *)
Definition block_ok (b : Block) : Prop :=
  Forall (fun l => isATXHeading l = false) (snd b) /\ match fst b with Some h => isATXHeading h = true | None => snd b <> [] end.
Definition blocks_ok (bs : list Block) : Prop := Forall block_ok bs /\ Forall (fun b => is_Some (fst b)) (tail bs).

Definition same_open (st : Open_) (bs : list Block) (cur : option Block) : Prop :=
  fst st = map block_section bs /\ snd st = option_map block_section cur.

Lemma tail_snoc {A} (l : list A) x : l <> [] -> tail (l ++ [x]) = (tail l ++ [x])%list.
Proof. by destruct l. Qed.

Lemma blocks_ok_snoc bs b : blocks_ok bs -> block_ok b -> (bs <> [] -> is_Some (fst b)) -> blocks_ok (bs ++ [b]).
Proof.
  intros [H1 H2] Hb Hs. split; [by apply Forall_app; split; [|constructor]|]. destruct bs as [|b0 bs]; [constructor|].
  rewrite tail_snoc by done. apply Forall_app; split; [done|]. constructor; [by apply Hs|constructor].
Qed.

Lemma section_heading st l : isATXHeading l = true -> section_line st l = (flush st, Some (block_section (Some l, []))).
Proof. intros E. unfold section_line. by rewrite E. Qed.

Lemma section_body st l b : isATXHeading l = false -> default (mkSection "" [] []) (snd st) = block_section b ->
  section_line st l = (fst st, Some (block_section (fst b, (snd b ++ [l])%list))).
Proof.
  intros E Hb. unfold section_line. rewrite E, Hb. unfold block_section. cbn [sec_Heading sec_Directives sec_RawLines fst snd].
  rewrite omap_app. cbn. by destruct (parseBullet l); rewrite ?app_nil_r.
Qed.

(** What was read so far, as blocks: complete ones, and one that is open. *)
Lemma sections_blocks lines : exists bs,
  blocks_ok bs /\ List.concat (map block_lines bs) = lines /\
  match bs with
  | [] => foldl section_line ([], None) lines = ([], None)
  | _ => exists bs' b, bs = (bs' ++ [b])%list /\ foldl section_line ([], None) lines = (map block_section bs', Some (block_section b))
  end.
Proof.
  induction lines as [|l lines IH] using rev_ind; [by exists []|]. destruct IH as (bs & Hok & Hc & Hst).
  rewrite foldl_snoc. destruct (isATXHeading l) eqn:E.
  - exists (bs ++ [(Some l, [])])%list. split_and!.
    + apply blocks_ok_snoc; [done| |by eexists]. split; [constructor|done].
    + by rewrite map_app, concat_app, Hc.
    + assert (HF : section_line (foldl section_line ([], None) lines) l = (map block_section bs, Some (block_section (Some l, [])))).
      { rewrite section_heading by done. f_equal. destruct bs as [|b0 bs0]; [by rewrite Hst|]. destruct Hst as (bs' & b & -> & ->).
        unfold flush. cbn [fst snd]. by rewrite map_app. }
      rewrite HF. destruct bs as [|b0 bs0]; [by exists [], (Some l, [])|]. by exists (b0 :: bs0), (Some l, []).
  - destruct bs as [|b0 bs0].
    + exists [(None, [l])]. cbn in Hc. subst lines. split_and!; [|done|].
      * split; [|constructor]. constructor; [|constructor]. split; [by constructor|done].
      * exists [], (None, [l]). split; [done|]. by rewrite Hst, (section_body _ _ (None, [])).
    + destruct Hst as (bs' & b & Hb & Hf). rewrite Hb in *. exists (bs' ++ [(fst b, (snd b ++ [l])%list)])%list. split_and!.
      * destruct Hok as [H1 H2]. apply Forall_app in H1 as [H1 [Hb1 Hb2]%Forall_cons_1%proj1]. split.
        -- apply Forall_app; split; [done|]. constructor; [|constructor]. split; cbn [fst snd].
           ++ apply Forall_app; split; [done|]. by constructor.
           ++ destruct (fst b); [done|]. by destruct (snd b).
        -- destruct bs' as [|b1 bs1]; [constructor|]. rewrite tail_snoc in * by done. apply Forall_app in H2 as [H2 H3].
           apply Forall_app; split; [done|]. apply Forall_cons_1 in H3 as [H3 _]. by constructor.
      * rewrite <-Hc, !map_app, !concat_app. cbn [map List.concat]. rewrite !app_nil_r, <-app_assoc. f_equal.
        unfold block_lines. cbn [fst snd]. by destruct (fst b).
      * assert (HF : section_line (foldl section_line ([], None) lines) l = (map block_section bs', Some (block_section (fst b, (snd b ++ [l])%list)))).
        { by rewrite Hf, (section_body _ _ b). }
        rewrite HF. destruct (bs' ++ [(fst b, (snd b ++ [l])%list)])%list eqn:EE; [by destruct bs'|]. rewrite <-EE. by eexists _, _.
Qed.

(** ** The lines of a file *)

(** The lines of a file whatever their length: the pieces between newlines, without the carriage
    return at their end; the piece after the last newline is no line when it is empty. *)
Fixpoint whole_lines (pieces : list string) : list string :=
  match pieces with
  | [] => []
  | [p] => if String.eqb p "" then [] else [drop_cr p]
  | p :: r => drop_cr p :: whole_lines r
  end.
Definition file_lines (content : string) : list string := whole_lines (Split content nl_byte).

(** The first line of 64 KiB or more, and all the lines after it. *)
Definition from_long_line (content : string) : list string :=
  match list_find (fun p => too_long p = true) (Split content nl_byte) with
  | Some (i, _) => drop i (file_lines content)
  | None => []
  end.

Lemma tokens_lost pieces :
  (fst (tokens pieces) ++ match list_find (fun p => too_long p = true) pieces with Some (i, _) => drop i (whole_lines pieces) | None => [] end)%list
  = whole_lines pieces.
Proof.
  induction pieces as [|p r IH]; [done|]. cbn [tokens list_find]. destruct (too_long p) eqn:El.
  - by rewrite decide_True by done.
  - rewrite decide_False by done. destruct r as [|q r]; [cbn; destruct (String.eqb p ""); reflexivity|].
    change (whole_lines (p :: q :: r)) with (drop_cr p :: whole_lines (q :: r)).
    destruct (tokens (q :: r)) as [ls e]. cbn [fst app] in *. f_equal. revert IH. by destruct (list_find _ (q :: r)) as [[i x]|].
Qed.

Lemma scan_lost content : (fst (scan content) ++ from_long_line content)%list = file_lines content.
Proof. apply tokens_lost. Qed.

(** What of the lines [front ++ rest] is frontmatter: nothing, unless the first line is three dashes;
    then the lines up to the next such line, with it; and everything when there is none. *)
Inductive Frontmatter : list string -> list string -> Prop :=
  | front_none rest : (forall l, head rest = Some l -> TrimSpace l <> fence) -> Frontmatter [] rest
  | front_closed_by l body c rest : TrimSpace l = fence -> Forall (fun x => TrimSpace x <> fence) body -> TrimSpace c = fence ->
      Frontmatter (l :: body ++ [c]) rest
  | front_unclosed l body : TrimSpace l = fence -> Forall (fun x => TrimSpace x <> fence) body -> Frontmatter (l :: body) [].

Lemma after_fence_split lines :
  (exists body c, lines = (body ++ c :: after_fence lines)%list /\ Forall (fun x => TrimSpace x <> fence) body /\ TrimSpace c = fence) \/
  (after_fence lines = [] /\ Forall (fun x => TrimSpace x <> fence) lines).
Proof.
  induction lines as [|l r IH]; cbn [after_fence]; [by right|]. destruct (String.eqb_spec (TrimSpace l) fence) as [E|E].
  - left. by exists [], l.
  - destruct IH as [(body & c & Hr & Hb & Hc)|[-> Hr]]; [left|right; split; [done|by constructor]].
    exists (l :: body), c. split_and!; [by rewrite Hr at 1|by constructor|done].
Qed.

Lemma content_lines_front content : exists front, Frontmatter front (content_lines content) /\ fst (scan content) = (front ++ content_lines content)%list.
Proof.
  rewrite content_lines_spec. destruct (fst (scan content)) as [|l r]; [exists []; split; [by constructor|done]|].
  destruct (String.eqb_spec (TrimSpace l) fence) as [E|E].
  - destruct (after_fence_split r) as [(body & c & Hr & Hb & Hc)|[-> Hr]].
    + exists (l :: body ++ [c])%list. split; [by constructor|]. cbn [app]. rewrite <-app_assoc. f_equal. done.
    + exists (l :: r). split; [by constructor|by rewrite app_nil_r].
  - exists []. split; [|done]. constructor. by intros ? [= <-].
Qed.

(** C36: every line of a file is in one of three places, and they follow each other in this order: the
    frontmatter; the blocks of lines that are the sections, each under its own heading line, in the
    order of the file; and the first line of 64 KiB with all the lines after it, which the parser drops
    without an error.  The frontmatter is empty unless the first line is three dashes, and the whole
    of what was read when no line closes it.  Only the first block may have no heading, and then it is
    not empty; the raw lines of a section are all the lines of its block, and its directives are the
    bullets among them.  So of a file without a frontmatter and without such a line, no line is lost. *)
Theorem sections_partition content : exists front bs,
  file_lines content = (front ++ List.concat (map block_lines bs) ++ from_long_line content)%list /\
  Frontmatter front (List.concat (map block_lines bs)) /\
  blocks_ok bs /\ parseSections content = map block_section bs.
Proof.
  destruct (content_lines_front content) as (front & Hf & Hs).
  destruct (sections_blocks (content_lines content)) as (bs & Hok & Hc & Hst). exists front, bs. split_and!; [|by rewrite Hc|done|].
  { by rewrite <-scan_lost, Hs, Hc, <-app_assoc. }
  unfold parseSections, sections_of, flush. destruct bs as [|b0 bs0]; [by rewrite Hst|].
  destruct Hst as (bs' & b & -> & ->). cbn [fst snd]. by rewrite map_app.
Qed.

(** A frontmatter that is never closed drops the whole file. *)
Lemma unclosed_frontmatter content l r : fst (scan content) = l :: r -> TrimSpace l = fence ->
  Forall (fun x => TrimSpace x <> fence) r -> parseSections content = [].
Proof.
  intros E Hl Hr. unfold parseSections. rewrite content_lines_spec, E, Hl. change (String.eqb fence fence) with true. cbn iota.
  assert (after_fence r = []) as ->; [|done]. clear E Hl. induction Hr as [|x r Hx _ IH]; [done|]. cbn [after_fence].
  by apply String.eqb_neq in Hx as ->.
Qed.

(** A line at the limit of the scanner drops itself and everything after it, without an error. *)
Lemma long_line_drops_rest l long rest : line_ok l = true -> no_byte nl_byte long = true -> too_long long = true ->
  parseSections (l +:+ nl +:+ (long +:+ rest)) = parseSections (l +:+ nl).
Proof.
  intros Hl Hn Ht. unfold parseSections. f_equal. rewrite !content_lines_spec, scan_line, scan_too_long by done.
  assert (scan (l +:+ nl) = ([l], false)) as ->; [|done].
  rewrite <-(string_app_nil_r nl), scan_line by done. done.
Qed.

(** The entry of two files has two texts, after the order in which the map was walked. *)
Example entry_order :
  let ds := [("AGENTS.md", "aa"); ("CLAUDE.md", "bb")] in
  Summary (NewConventionsLoadedEntry 1 "cyc_1" ds) <> Summary (NewConventionsLoadedEntry 1 "cyc_1" (rev ds)).
Proof. cbn. discriminate. Qed.

(** A file with a blank line before the dashes has no frontmatter. *)
Example blank_first : map sec_RawLines (parseSections (nl +:+ "---" +:+ nl +:+ "a: 1" +:+ nl +:+ "---" +:+ nl)) = [[""; "---"; "a: 1"; "---"]].
Proof. reflexivity. Qed.
Example frontmatter_example :
  parseSections ("---" +:+ nl +:+ "a: 1" +:+ nl +:+ "---" +:+ nl +:+ "# Rules " +:+ nl +:+ "text" +:+ nl +:+ " - run tests" +:+ nl +:+ "####### no" +:+ nl)
  = [mkSection "Rules" ["run tests"] ["text"; " - run tests"; "####### no"]].
Proof. reflexivity. Qed.
