(* ===== verification/MerkleTree.v ===== *)
(** * Merkle trees of RFC 9162

    The trees behind [pkg/contract/merkle.go], over an abstract digest and an
    abstract node hash: the shape of a tree of [n] leaves, its root, its audit and
    consistency paths, and the top-down reconstruction of a root from a path.  The
    bottom-up loops of the verifiers, which only see indices shifted bit by bit, are
    proved to compute that reconstruction ([fold_istep_edge], [fold_cstep_edge]).
    [Merkle.v] instantiates this with SHA-256. *)

From S2P Require Import Prelude.
From Stdlib Require Import Arith.
#[local] Open Scope nat_scope.

(** The split point: the largest power of two below [n]. *)
Definition split_point (n : nat) : nat := 2 ^ Nat.log2 (n - 1).

Lemma split_point_bounds n : 2 <= n -> 1 <= split_point n < n /\ n <= 2 * split_point n.
Proof.
  intros H. unfold split_point. pose proof (Nat.log2_spec (n - 1) ltac:(lia)) as [H1 H2].
  rewrite Nat.pow_succ_r' in H2. pose proof (Nat.pow_nonzero 2 (Nat.log2 (n - 1))). lia.
Qed.

Lemma split_point_unique n h : 2 ^ h < n <= 2 ^ S h -> split_point n = 2 ^ h.
Proof.
  intros H. unfold split_point. f_equal. apply Nat.log2_unique; [lia|].
  pose proof (Nat.pow_nonzero 2 h). lia.
Qed.

Section Tree.
Context {D : Type} (node : D -> D -> D) (d0 : D).

Inductive tree : Type := L (d : D) | B (t1 t2 : tree).

Fixpoint size (t : tree) : nat := match t with L _ => 1 | B t1 t2 => size t1 + size t2 end.
Fixpoint hash (t : tree) : D := match t with L d => d | B t1 t2 => node (hash t1) (hash t2) end.
Fixpoint leaves (t : tree) : list D :=
  match t with L d => [d] | B t1 t2 => leaves t1 ++ leaves t2 end.

(** ** Shapes *)

Inductive perfect : nat -> tree -> Prop :=
  | perfect_leaf d : perfect 0 (L d)
  | perfect_node h t1 t2 : perfect h t1 -> perfect h t2 -> perfect (S h) (B t1 t2).

(** [rfc h t]: [t] has the shape of RFC 9162 and the height [h]. *)
Inductive rfc : nat -> tree -> Prop :=
  | rfc_leaf d : rfc 0 (L d)
  | rfc_node k h t1 t2 : perfect k t1 -> rfc h t2 -> h <= k -> rfc (S k) (B t1 t2).

Lemma perfect_size h t : perfect h t -> size t = 2 ^ h.
Proof. induction 1; cbn; lia. Qed.

Lemma perfect_rfc h t : perfect h t -> rfc h t.
Proof. induction 1; [constructor|]. by apply rfc_node with h. Qed.

Lemma size_pos t : 1 <= size t.
Proof. induction t; cbn; lia. Qed.

Lemma rfc_size h t : rfc h t -> size t <= 2 ^ h.
Proof.
  induction 1 as [|k h t1 t2 Hp _ IH Hh]; cbn; [lia|]. rewrite (perfect_size _ _ Hp).
  pose proof (Nat.pow_le_mono_r 2 h k). lia.
Qed.

Lemma rfc_split k t1 t2 : rfc (S k) (B t1 t2) -> split_point (size (B t1 t2)) = size t1.
Proof.
  inversion_clear 1 as [|? h ? ? Hp Hr Hh]. rewrite (perfect_size _ _ Hp).
  apply split_point_unique. cbn [size]. rewrite (perfect_size _ _ Hp).
  pose proof (rfc_size _ _ Hr). pose proof (size_pos t2). pose proof (Nat.pow_le_mono_r 2 h k).
  cbn [Nat.pow]. lia.
Qed.

(** ** The tree of a list of leaves *)

Fixpoint tree_f (fuel : nat) (l : list D) : tree :=
  match fuel with
  | 0 => L d0
  | S f =>
      match l with
      | [] => L d0
      | [x] => L x
      | _ => let k := split_point (length l) in B (tree_f f (take k l)) (tree_f f (drop k l))
      end
  end.
Definition tree_of (l : list D) : tree := tree_f (length l) l.

Lemma tree_f_fuel f g l : length l <= f -> length l <= g -> tree_f f l = tree_f g l.
Proof.
  revert g l. induction f as [|f IH]; intros [|g] l Hf Hg;
    try (destruct l; cbn in *; [done|lia]).
  destruct l as [|x [|y l]]; [done|done|]. cbn [tree_f]. set (l' := x :: y :: l) in *.
  destruct (split_point_bounds (length l')) as [? ?]; [cbn; lia|].
  f_equal; apply IH; autorewrite with go_simpl; lia.
Qed.

Lemma tree_of_split l : 2 <= length l ->
  tree_of l = B (tree_of (take (split_point (length l)) l)) (tree_of (drop (split_point (length l)) l)).
Proof.
  intros H. destruct (split_point_bounds (length l) H) as [? ?].
  unfold tree_of at 1. destruct l as [|x [|y l]]; cbn in H; [lia|lia|].
  set (l' := x :: y :: l) in *. change (length l') with (S (length (y :: l))) at 1.
  change (tree_f (S (length (y :: l))) l') with
    (B (tree_f (length (y :: l)) (take (split_point (length l')) l'))
       (tree_f (length (y :: l)) (drop (split_point (length l')) l'))).
  unfold tree_of. f_equal; apply tree_f_fuel; autorewrite with go_simpl; cbn [length l'] in *; lia.
Qed.

(** Induction along the split points. *)
Lemma split_ind (P : list D -> Prop) :
  (forall x, P [x]) ->
  (forall l k, 2 <= length l -> k = split_point (length l) -> 1 <= k < length l ->
     P (take k l) -> P (drop k l) -> P l) ->
  forall l, l <> [] -> P l.
Proof.
  intros H1 H2 l. remember (length l) as n eqn:Hn. revert l Hn.
  induction n as [n IH] using lt_wf_ind. intros [|x [|y l]] -> Hne; [done|done|].
  set (l' := x :: y :: l) in *. assert (2 <= length l') by (cbn; lia).
  destruct (split_point_bounds (length l')) as [? ?]; [done|].
  assert (Hlen : forall l : list D, 1 <= length l -> l <> []) by (intros []; cbn; [lia|done]).
  apply (H2 l' (split_point (length l'))); try done;
    (eapply IH; [|reflexivity|apply Hlen]); autorewrite with go_simpl; lia.
Qed.

Lemma tree_of_leaves l : l <> [] -> leaves (tree_of l) = l.
Proof.
  revert l. apply split_ind; [done|]. intros l k H2 -> _ IH1 IH2.
  rewrite tree_of_split by done. cbn [leaves]. rewrite IH1, IH2. apply take_drop.
Qed.

Lemma leaves_size t : length (leaves t) = size t.
Proof. induction t; cbn; [done|]. rewrite length_app. lia. Qed.

Lemma tree_of_size l : l <> [] -> size (tree_of l) = length l.
Proof. intros H. by rewrite <-leaves_size, tree_of_leaves. Qed.

Lemma perfect_list h l : length l = 2 ^ h -> perfect h (tree_of l).
Proof.
  revert l. induction h as [|h IH]; intros l Hl.
  - cbn in Hl. destruct l as [|x [|y l]]; cbn in Hl; try lia. apply perfect_leaf.
  - pose proof (Nat.pow_nonzero 2 h). cbn [Nat.pow] in Hl.
    rewrite tree_of_split, (split_point_unique _ h) by (cbn [Nat.pow]; lia).
    constructor; apply IH; autorewrite with go_simpl; lia.
Qed.

Lemma tree_of_rfc l : l <> [] -> rfc (Nat.log2_up (length l)) (tree_of l).
Proof.
  revert l. apply split_ind; [intros; apply rfc_leaf|]. intros l k H2 Hk Hb _ IH.
  rewrite tree_of_split, <-Hk by done. destruct (split_point_bounds (length l) H2) as [_ Hb2].
  assert (Hu : Nat.log2_up (length l) = S (Nat.log2 (length l - 1))).
  { rewrite Nat.log2_up_eqn by lia. by rewrite Nat.sub_1_r. }
  rewrite Hu. eapply rfc_node; [|apply IH|].
  - apply perfect_list. rewrite length_take, Hk. unfold split_point in *. lia.
  - autorewrite with go_simpl. apply Nat.log2_up_le_pow2; [lia|]. unfold split_point in *. lia.
Qed.

(** ** Inclusion *)

(** The audit path of leaf [m], from the leaf up. *)
Fixpoint audit (t : tree) (m : nat) : list D :=
  match t with
  | L _ => []
  | B t1 t2 =>
      if m <? size t1 then audit t1 m ++ [hash t2] else audit t2 (m - size t1) ++ [hash t1]
  end.

Fixpoint depth (t : tree) (m : nat) : nat :=
  match t with
  | L _ => 0
  | B t1 t2 => S (if m <? size t1 then depth t1 m else depth t2 (m - size t1))
  end.

Lemma audit_length t m : length (audit t m) = depth t m.
Proof.
  revert m. induction t; intros m; cbn; [done|].
  case_match; rewrite length_app; cbn; rewrite ?IHt1, ?IHt2; lia.
Qed.

(** The root rebuilt from the path [rp], read from the root down; the tree gives
    the shape only. *)
Fixpoint recon (t : tree) (m : nat) (acc : D) (rp : list D) : D :=
  match t, rp with
  | B t1 t2, s :: rp' =>
      if m <? size t1 then node (recon t1 m acc rp') s else node s (recon t2 (m - size t1) acc rp')
  | _, _ => acc
  end.

Definition leaf (t : tree) (m : nat) : D := nth m (leaves t) d0.

Lemma leaf_B t1 t2 m :
  leaf (B t1 t2) m = if m <? size t1 then leaf t1 m else leaf t2 (m - size t1).
Proof.
  unfold leaf. cbn [leaves]. destruct (Nat.ltb_spec m (size t1)).
  - apply app_nth1. by rewrite leaves_size.
  - rewrite app_nth2; rewrite leaves_size; [done|lia].
Qed.

Lemma recon_audit t m : m < size t -> recon t m (leaf t m) (rev (audit t m)) = hash t.
Proof.
  revert m. induction t as [d|t1 IH1 t2 IH2]; intros m Hm.
  - cbn in *. by replace m with 0 by lia.
  - rewrite leaf_B. cbn [audit]. cbn [size] in Hm.
    destruct (Nat.ltb_spec m (size t1)) as [H|H]; rewrite rev_unit; cbn [recon hash].
    + apply Nat.ltb_lt in H as E. rewrite E. f_equal. by apply IH1.
    + apply Nat.ltb_ge in H as E. rewrite E. f_equal. apply IH2. lia.
Qed.

(** The pairs hashed by a reconstruction, and those of the tree. *)
Fixpoint recon_inputs (t : tree) (m : nat) (acc : D) (rp : list D) : list (D * D) :=
  match t, rp with
  | B t1 t2, s :: rp' =>
      if m <? size t1 then (recon t1 m acc rp', s) :: recon_inputs t1 m acc rp'
      else (s, recon t2 (m - size t1) acc rp') :: recon_inputs t2 (m - size t1) acc rp'
  | _, _ => []
  end.

Fixpoint tree_inputs (t : tree) : list (D * D) :=
  match t with L _ => [] | B t1 t2 => (hash t1, hash t2) :: tree_inputs t1 ++ tree_inputs t2 end.

Definition node_inj (ps : list (D * D)) : Prop :=
  forall p q, p ∈ ps -> q ∈ ps -> node p.1 p.2 = node q.1 q.2 -> p = q.

Lemma node_inj_mono ps qs : ps ⊆ qs -> node_inj qs -> node_inj ps.
Proof. intros Hs H p q Hp Hq. apply H; auto. Qed.

(** A path that rebuilds the root is the audit path, and the leaf is the leaf. *)
Lemma recon_sound t m acc rp :
  m < size t -> length rp = depth t m ->
  node_inj (recon_inputs t m acc rp ++ tree_inputs t) ->
  recon t m acc rp = hash t -> acc = leaf t m /\ rp = rev (audit t m).
Proof.
  revert m rp. induction t as [d|t1 IH1 t2 IH2]; intros m rp Hm Hl Hinj E.
  - cbn in *. destruct rp; [|done]. by replace m with 0 by lia.
  - rewrite leaf_B. destruct rp as [|s rp]; cbn [depth length] in Hl; [done|]. cbn [size] in Hm.
    cbn [audit recon recon_inputs tree_inputs hash] in *. destruct (Nat.ltb_spec m (size t1)) as [H|H].
    + assert (Hp : (recon t1 m acc rp, s) = (hash t1, hash t2)) by (apply Hinj; [set_solver-..|done]).
      injection Hp as Hr ->. destruct (IH1 m rp) as [-> ->]; try done; [lia| |by rewrite rev_unit].
      eapply node_inj_mono, Hinj. set_solver-.
    + assert (Hp : (s, recon t2 (m - size t1) acc rp) = (hash t1, hash t2)) by (apply Hinj; [set_solver-..|done]).
      injection Hp as -> Hr. destruct (IH2 (m - size t1) rp) as [-> ->]; try done; [lia|lia| |by rewrite rev_unit].
      eapply node_inj_mono, Hinj. set_solver-.
Qed.

(** ** The bottom-up loop of the inclusion verifier

    [fn] and [sn] are the index of the leaf and of the last leaf, shifted right
    as levels are consumed. *)

(** [for fn%2 == 0 && fn != 0 { fn >>= 1; sn >>= 1 }] *)
Fixpoint shift_even (fuel fn sn : nat) : nat * nat :=
  match fuel with
  | 0 => (fn, sn)
  | S f => if Nat.even fn && negb (fn =? 0) then shift_even f (Nat.div2 fn) (Nat.div2 sn) else (fn, sn)
  end.

Definition next_indices (fn sn : nat) : nat * nat :=
  let '(f, s) := if Nat.odd fn || (fn =? sn) then shift_even fn fn sn else (fn, sn) in
  (Nat.div2 f, Nat.div2 s).

Definition istep (st : D * nat * nat) (sib : D) : D * nat * nat :=
  let '(acc, fn, sn) := st in
  (if Nat.odd fn || (fn =? sn) then node sib acc else node acc sib,
   (next_indices fn sn).1, (next_indices fn sn).2).

Lemma shift_even_odd fuel fn sn : Nat.odd fn = true -> shift_even fuel fn sn = (fn, sn).
Proof.
  intros H. rewrite <-Nat.negb_even in H. apply negb_true_iff in H. destruct fuel; cbn; [done|]. by rewrite H.
Qed.

Lemma shift_even_pow fuel e q :
  e <= fuel -> shift_even fuel ((2 * q + 1) * 2 ^ e) ((2 * q + 1) * 2 ^ e) = (2 * q + 1, 2 * q + 1).
Proof.
  revert fuel. induction e as [|e IH]; intros fuel H.
  - rewrite Nat.mul_1_r. apply shift_even_odd. rewrite Nat.odd_spec. by exists q.
  - destruct fuel as [|f]; [lia|]. cbn [shift_even]. pose proof (Nat.pow_nonzero 2 e).
    replace ((2 * q + 1) * 2 ^ S e) with (2 * ((2 * q + 1) * 2 ^ e)) by (rewrite Nat.pow_succ_r'; lia).
    assert (Nat.even (2 * ((2 * q + 1) * 2 ^ e)) = true) as -> by (rewrite Nat.even_spec; by eexists).
    assert ((2 * ((2 * q + 1) * 2 ^ e) =? 0) = false) as -> by (apply Nat.eqb_neq; nia).
    cbn [andb negb]. rewrite Nat.div2_double. apply IH. lia.
Qed.

Lemma next_odd b s : next_indices (2 * b + 1) s = (b, Nat.div2 s).
Proof.
  unfold next_indices. assert (Ho : Nat.odd (2 * b + 1) = true) by (rewrite Nat.odd_spec; by exists b).
  rewrite Ho. cbn [orb]. rewrite shift_even_odd by done. f_equal.
  rewrite Nat.add_1_r. apply Nat.div2_succ_double.
Qed.

Lemma next_even b s : s <> 2 * b -> next_indices (2 * b) s = (b, Nat.div2 s).
Proof.
  intros H. unfold next_indices. assert (Ho : Nat.odd (2 * b) = false).
  { rewrite <-Nat.negb_even. apply negb_false_iff, Nat.even_spec. by exists b. }
  rewrite Ho. cbn [orb]. assert ((2 * b =? s) = false) as -> by (apply Nat.eqb_neq; lia).
  by rewrite Nat.div2_double.
Qed.

Lemma next_edge a e : next_indices ((2 * a + 1) * 2 ^ e) ((2 * a + 1) * 2 ^ e) = (a, a).
Proof.
  unfold next_indices. rewrite Nat.eqb_refl, orb_true_r. rewrite shift_even_pow.
  - by rewrite Nat.add_1_r, Nat.div2_succ_double.
  - pose proof (Nat.pow_gt_lin_r 2 e). nia.
Qed.

Lemma istep_left b sn acc s :
  sn <> 2 * b -> istep (acc, 2 * b, sn) s = (node acc s, b, Nat.div2 sn).
Proof.
  intros H. unfold istep. rewrite next_even by done.
  assert (Nat.odd (2 * b) = false) as -> by (rewrite <-Nat.negb_even; apply negb_false_iff, Nat.even_spec; by exists b).
  by assert ((2 * b =? sn) = false) as -> by (apply Nat.eqb_neq; lia).
Qed.

Lemma istep_right b sn acc s : istep (acc, 2 * b + 1, sn) s = (node s acc, b, Nat.div2 sn).
Proof.
  unfold istep. rewrite next_odd.
  by assert (Nat.odd (2 * b + 1) = true) as -> by (rewrite Nat.odd_spec; by exists b).
Qed.

Lemma istep_edge a e acc s :
  istep (acc, (2 * a + 1) * 2 ^ e, (2 * a + 1) * 2 ^ e) s = (node s acc, a, a).
Proof. unfold istep. by rewrite next_edge, Nat.eqb_refl, orb_true_r. Qed.

Lemma div2_bit c r : r < 2 -> Nat.div2 (2 * c + r) = c.
Proof. intros H. rewrite Nat.div2_div. rewrite Nat.mul_comm, Nat.div_add_l by lia. rewrite Nat.div_small; lia. Qed.

(** The split of the last index at a level. *)
Lemma level_split c j r : r < 2 ^ S j ->
  exists p r', p < 2 /\ r' < 2 ^ j /\ c * 2 ^ S j + r = (2 * c + p) * 2 ^ j + r'.
Proof.
  intros H. pose proof (Nat.pow_nonzero 2 j). rewrite Nat.pow_succ_r' in H.
  destruct (Nat.lt_ge_cases r (2 ^ j)); [exists 0, r|exists 1, (r - 2 ^ j)]; rewrite Nat.pow_succ_r'; nia.
Qed.

(** A subtree that is not on the right edge: [j] levels are consumed and the loop
    goes on with the indices [b < c] of the subtree and of the edge. *)
Lemma fold_istep_interior j t m acc rp b c r :
  perfect j t -> m < 2 ^ j -> r < 2 ^ j -> b < c -> length rp = depth t m ->
  foldl istep (acc, b * 2 ^ j + m, c * 2 ^ j + r) (rev rp) = (recon t m acc rp, b, c).
Proof.
  intros Hp. revert m acc rp b c r.
  induction Hp as [d|j t1 t2 H1 IH1 H2 IH2]; intros m acc rp b c r Hm Hr Hbc Hl.
  - destruct rp; [|done]. cbn in *. do 2 f_equal; lia.
  - destruct rp as [|s rp]; [done|]. cbn [rev]. rewrite foldl_snoc. cbn [depth recon length] in *.
    destruct (level_split c j r Hr) as (p & r' & Hp & Hr' & ->).
    rewrite (perfect_size _ _ H1) in *. rewrite Nat.pow_succ_r' in Hm.
    destruct (Nat.ltb_spec m (2 ^ j)) as [H|H].
    + replace (b * 2 ^ S j + m) with ((2 * b) * 2 ^ j + m) by (rewrite Nat.pow_succ_r'; lia).
      rewrite IH1 by lia. rewrite istep_left by lia. by rewrite div2_bit.
    + replace (b * 2 ^ S j + m) with ((2 * b + 1) * 2 ^ j + (m - 2 ^ j)) by (rewrite Nat.pow_succ_r'; lia).
      rewrite IH2 by lia. rewrite istep_right. by rewrite div2_bit.
Qed.

(** A subtree that ends with the last leaf: the loop ends at the edge. *)
Lemma fold_istep_edge h t m acc rp a :
  rfc h t -> m < size t -> length rp = depth t m ->
  foldl istep (acc, a * 2 ^ h + m, a * 2 ^ h + (size t - 1)) (rev rp) = (recon t m acc rp, a, a).
Proof.
  intros Hr. revert m acc rp a.
  induction Hr as [d|k h t1 t2 Hp Hr IH Hh]; intros m acc rp a Hm Hl.
  - destruct rp; [|done]. cbn in *. do 2 f_equal; lia.
  - destruct rp as [|s rp]; [done|]. cbn [rev]. rewrite foldl_snoc. cbn [depth recon size length] in *.
    rewrite (perfect_size _ _ Hp) in *. pose proof (rfc_size _ _ Hr). pose proof (size_pos t2).
    pose proof (Nat.pow_le_mono_r 2 h k ltac:(lia) Hh).
    destruct (Nat.ltb_spec m (2 ^ k)) as [H'|H'].
    + replace (a * 2 ^ S k + m) with ((2 * a) * 2 ^ k + m) by (rewrite Nat.pow_succ_r'; lia).
      replace (a * 2 ^ S k + (2 ^ k + size t2 - 1)) with ((2 * a + 1) * 2 ^ k + (size t2 - 1))
        by (rewrite Nat.pow_succ_r'; lia).
      rewrite (fold_istep_interior k t1) by (done || lia). rewrite istep_left by lia. by rewrite div2_bit by lia.
    + replace (a * 2 ^ S k + m) with (((2 * a + 1) * 2 ^ (k - h)) * 2 ^ h + (m - 2 ^ k)).
      2:{ rewrite <-Nat.mul_assoc, <-Nat.pow_add_r, Nat.sub_add by done. rewrite Nat.pow_succ_r'; lia. }
      replace (a * 2 ^ S k + (2 ^ k + size t2 - 1)) with (((2 * a + 1) * 2 ^ (k - h)) * 2 ^ h + (size t2 - 1)).
      2:{ rewrite <-Nat.mul_assoc, <-Nat.pow_add_r, Nat.sub_add by done. rewrite Nat.pow_succ_r'; lia. }
      rewrite IH by lia. by rewrite istep_edge.
Qed.

(** ** Consistency *)

(** [SUBPROOF(m, D[n], b)] *)
Fixpoint sub_proof (t : tree) (m : nat) (b : bool) : list D :=
  if m =? size t then (if b then [] else [hash t])
  else match t with
       | L _ => []
       | B t1 t2 =>
           if m <=? size t1 then sub_proof t1 m b ++ [hash t2]
           else sub_proof t2 (m - size t1) false ++ [hash t1]
       end.

(** The same path without its first element, which is the hash of the largest
    subtree that ends with the old tree; [base_level] is that subtree's height. *)
Fixpoint tail_path (t : tree) (m : nat) : list D :=
  if m =? size t then []
  else match t with
       | L _ => []
       | B t1 t2 =>
           if m <=? size t1 then tail_path t1 m ++ [hash t2] else tail_path t2 (m - size t1) ++ [hash t1]
       end.

Fixpoint base (t : tree) (m : nat) : tree :=
  if m =? size t then t
  else match t with
       | L _ => t
       | B t1 t2 => if m <=? size t1 then base t1 m else base t2 (m - size t1)
       end.

Definition base_level (t : tree) (m : nat) : nat := Nat.log2 (size (base t m)).

(** The old tree is the leftmost subtree of its size. *)
Fixpoint all_left (t : tree) (m : nat) : bool :=
  (m =? size t) ||
  match t with L _ => false | B t1 t2 => (m <=? size t1) && all_left t1 m end.

(** The old root and the new root rebuilt from the path [rp], read from the root
    down, and the hash [seed] of the base. *)
Fixpoint recon2 (t : tree) (m : nat) (seed : D) (rp : list D) : D * D :=
  if m =? size t then (seed, seed)
  else match t, rp with
       | B t1 t2, s :: rp' =>
           if m <=? size t1 then let '(fr, sr) := recon2 t1 m seed rp' in (fr, node sr s)
           else let '(fr, sr) := recon2 t2 (m - size t1) seed rp' in (node s fr, node s sr)
       | _, _ => (seed, seed)
       end.

Fixpoint tail_len (t : tree) (m : nat) : nat :=
  if m =? size t then 0
  else match t with
       | L _ => 0
       | B t1 t2 => S (if m <=? size t1 then tail_len t1 m else tail_len t2 (m - size t1))
       end.

(** The tree of the first [m] leaves. *)
Fixpoint trunc (t : tree) (m : nat) : tree :=
  if m =? size t then t
  else match t with
       | L _ => t
       | B t1 t2 => if m <=? size t1 then trunc t1 m else B t1 (trunc t2 (m - size t1))
       end.

Lemma sub_proof_eq t m b :
  1 <= m <= size t ->
  sub_proof t m b = (if b && all_left t m then [] else [hash (base t m)]) ++ tail_path t m.
Proof.
  revert m b. induction t as [d|t1 IH1 t2 IH2]; intros m b Hm;
    cbn [sub_proof all_left base tail_path].
  - cbn [size] in *. assert (m = 1) as -> by lia. by destruct b.
  - destruct (Nat.eqb_spec m (size (B t1 t2))) as [E|E]; [by destruct b|]. cbn [size orb] in *.
    destruct (Nat.leb_spec m (size t1)) as [H|H]; cbn [andb].
    + rewrite IH1 by lia. by rewrite app_assoc.
    + rewrite andb_false_r, IH2 by lia. cbn [andb]. by rewrite app_assoc.
Qed.

Lemma tail_path_length t m : length (tail_path t m) = tail_len t m.
Proof.
  revert m. induction t as [d|t1 IH1 t2 IH2]; intros m; cbn [tail_path tail_len].
  - by destruct (m =? size (L d)).
  - destruct (m =? size (B t1 t2)); [done|].
    destruct (m <=? size t1); rewrite length_app, ?IH1, ?IH2; cbn [length]; lia.
Qed.

Lemma recon2_tail t m :
  1 <= m <= size t -> recon2 t m (hash (base t m)) (rev (tail_path t m)) = (hash (trunc t m), hash t).
Proof.
  revert m. induction t as [d|t1 IH1 t2 IH2]; intros m Hm; cbn [base tail_path recon2 trunc].
  - cbn [size] in *. assert (m = 1) as -> by lia. done.
  - destruct (Nat.eqb_spec m (size (B t1 t2))) as [E|E]; [done|]. cbn [size] in *.
    destruct (Nat.leb_spec m (size t1)) as [H|H]; rewrite rev_unit.
    + by rewrite IH1 by lia.
    + by rewrite IH2 by lia.
Qed.

Fixpoint recon2_inputs (t : tree) (m : nat) (seed : D) (rp : list D) : list (D * D) :=
  if m =? size t then []
  else match t, rp with
       | B t1 t2, s :: rp' =>
           if m <=? size t1 then ((recon2 t1 m seed rp').2, s) :: recon2_inputs t1 m seed rp'
           else (s, (recon2 t2 (m - size t1) seed rp').2) :: recon2_inputs t2 (m - size t1) seed rp'
       | _, _ => []
       end.

(** A path that rebuilds the new root rebuilds the old one. *)
Lemma recon2_sound t m seed rp :
  1 <= m <= size t -> length rp = tail_len t m ->
  node_inj (recon2_inputs t m seed rp ++ tree_inputs t) ->
  (recon2 t m seed rp).2 = hash t -> (recon2 t m seed rp).1 = hash (trunc t m).
Proof.
  revert m rp. induction t as [d|t1 IH1 t2 IH2]; intros m rp Hm Hl Hinj; cbn [recon2 trunc].
  - cbn [size] in *. assert (m = 1) as -> by lia. done.
  - cbn [recon2_inputs tail_len tree_inputs] in *.
    destruct (Nat.eqb_spec m (size (B t1 t2))) as [E|E]; [done|].
    destruct rp as [|s rp]; [done|]. cbn [size length] in *.
    destruct (Nat.leb_spec m (size t1)) as [H|H].
    + destruct (recon2 t1 m seed rp) as [fr sr] eqn:Er. cbn [fst snd hash]. intros E'.
      assert (Hp : (sr, s) = (hash t1, hash t2)) by (apply Hinj; [set_solver-..|done]).
      injection Hp as -> ->. specialize (IH1 m rp). rewrite Er in IH1. apply IH1; [lia|lia| |done].
      eapply node_inj_mono, Hinj. set_solver-.
    + destruct (recon2 t2 (m - size t1) seed rp) as [fr sr] eqn:Er. cbn [fst snd hash]. intros E'.
      assert (Hp : (s, sr) = (hash t1, hash t2)) by (apply Hinj; [set_solver-..|done]).
      injection Hp as -> ->. f_equal. specialize (IH2 (m - size t1) rp). rewrite Er in IH2.
      apply IH2; [lia|lia| |done]. eapply node_inj_mono, Hinj. set_solver-.
Qed.

Lemma trunc_tree_of l m : 1 <= m <= length l -> trunc (tree_of l) m = tree_of (take m l).
Proof.
  destruct (decide (l = [])) as [->|Hne]; [cbn; lia|]. revert l Hne m.
  apply (split_ind (fun l => forall m, 1 <= m <= length l -> trunc (tree_of l) m = tree_of (take m l))).
  - intros x m Hm. cbn [length] in Hm. by assert (m = 1) as -> by lia.
  - intros l k H2 Hk Hb IH1 IH2 m Hm. pose proof (tree_of_split l H2) as E. rewrite <-Hk in E.
    assert (Hs : size (tree_of l) = length l) by (apply tree_of_size; by destruct l).
    assert (Hs1 : size (tree_of (take k l)) = k).
    { rewrite tree_of_size; [rewrite length_take; lia|]. intros H%(f_equal length). rewrite length_take in H. cbn in H. lia. }
    destruct (Nat.eq_dec m (length l)) as [->|Hml].
    { rewrite firstn_all. destruct (tree_of l) eqn:Et; cbn [trunc]; by rewrite Hs, Nat.eqb_refl. }
    rewrite E in Hs |- *. cbn [trunc]. rewrite Hs, Hs1. apply Nat.eqb_neq in Hml as Hmb. rewrite Hmb.
    destruct (Nat.leb_spec m k) as [H|H].
    + rewrite IH1 by (rewrite length_take; lia). by rewrite take_take_le.
    + rewrite IH2 by (rewrite length_drop; lia).
      destruct (split_point_bounds (length l) H2) as [_ Hb2]. rewrite <-Hk in Hb2.
      rewrite (tree_of_split (take m l)) by (rewrite length_take; lia).
      assert (split_point (length (take m l)) = k) as ->.
      { rewrite length_take, Nat.min_l by lia. rewrite Hk. unfold split_point at 2.
        apply split_point_unique. unfold split_point in Hk. rewrite <-Hk. cbn [Nat.pow]. lia. }
      rewrite take_take_le by lia. f_equal. f_equal. rewrite skipn_firstn_comm. done.
Qed.

(** ** The bottom-up loop of the consistency verifier *)

(** [for fn%2 == 1 { fn >>= 1; sn >>= 1 }] *)
Fixpoint strip_ones (fuel fn sn : nat) : nat * nat :=
  match fuel with
  | 0 => (fn, sn)
  | S f => if Nat.odd fn then strip_ones f (Nat.div2 fn) (Nat.div2 sn) else (fn, sn)
  end.

(** One proof node; [None] when the new tree is already exhausted. *)
Definition cstep (st : D * D * nat * nat) (nd : D) : option (D * D * nat * nat) :=
  let '(fr, sr, fn, sn) := st in
  if sn =? 0 then None
  else
    let '(fr', sr') :=
      if Nat.odd fn || (fn =? sn) then (node nd fr, node nd sr) else (fr, node sr nd) in
    Some (fr', sr', (next_indices fn sn).1, (next_indices fn sn).2).

Fixpoint csteps (st : D * D * nat * nat) (path : list D) : option (D * D * nat * nat) :=
  match path with
  | [] => Some st
  | nd :: p => match cstep st nd with Some st' => csteps st' p | None => None end
  end.

Lemma csteps_app st p q :
  csteps st (p ++ q) = match csteps st p with Some st' => csteps st' q | None => None end.
Proof. revert st. induction p as [|x p IH]; intros st; cbn; [done|]. by destruct (cstep st x). Qed.

Lemma csteps_snoc st p x :
  csteps st (p ++ [x]) = match csteps st p with Some st' => cstep st' x | None => None end.
Proof. rewrite csteps_app. destruct (csteps st p) as [st'|]; [cbn|done]. by destruct (cstep st' x). Qed.

Lemma cstep_left b sn fr sr x :
  2 * b < sn -> cstep (fr, sr, 2 * b, sn) x = Some (fr, node sr x, b, Nat.div2 sn).
Proof.
  intros H. unfold cstep. assert ((sn =? 0) = false) as -> by (apply Nat.eqb_neq; lia).
  rewrite next_even by lia.
  assert (Nat.odd (2 * b) = false) as -> by (rewrite <-Nat.negb_even; apply negb_false_iff, Nat.even_spec; by exists b).
  by assert ((2 * b =? sn) = false) as -> by (apply Nat.eqb_neq; lia).
Qed.

Lemma cstep_right b sn fr sr x :
  2 * b < sn -> cstep (fr, sr, 2 * b + 1, sn) x = Some (node x fr, node x sr, b, Nat.div2 sn).
Proof.
  intros H. unfold cstep. assert ((sn =? 0) = false) as -> by (apply Nat.eqb_neq; lia).
  rewrite next_odd. by assert (Nat.odd (2 * b + 1) = true) as -> by (rewrite Nat.odd_spec; by exists b).
Qed.

Lemma cstep_edge a e fr sr x :
  cstep (fr, sr, (2 * a + 1) * 2 ^ e, (2 * a + 1) * 2 ^ e) x = Some (node x fr, node x sr, a, a).
Proof.
  unfold cstep. rewrite next_edge, Nat.eqb_refl, orb_true_r.
  assert (((2 * a + 1) * 2 ^ e =? 0) = false) as ->; [|done].
  apply Nat.eqb_neq. pose proof (Nat.pow_nonzero 2 e). nia.
Qed.

Lemma base_level_self t m h : perfect h t -> m = size t -> base_level t m = h.
Proof.
  intros Hp ->. unfold base_level. assert (base t (size t) = t) as ->.
  { destruct t; cbn [base]; by rewrite Nat.eqb_refl. }
  rewrite (perfect_size _ _ Hp). by rewrite Nat.log2_pow2 by lia.
Qed.

Lemma base_left t1 t2 m :
  m <> size (B t1 t2) ->
  base (B t1 t2) m = if m <=? size t1 then base t1 m else base t2 (m - size t1).
Proof. intros H. cbn [base]. by apply Nat.eqb_neq in H as ->. Qed.

(** The old size is an odd multiple of the size of the base. *)
Lemma base_odd_perfect j t m b :
  perfect j t -> 1 <= m < 2 ^ j ->
  exists q, b * 2 ^ j + m = (2 * q + 1) * 2 ^ base_level t m.
Proof.
  intros Hp. revert m b. induction Hp as [d|j t1 t2 H1 IH1 H2 IH2]; intros m b Hm; [cbn in Hm; lia|].
  pose proof (perfect_size _ _ H1) as Hs1. pose proof (perfect_size _ _ H2) as Hs2.
  rewrite Nat.pow_succ_r' in Hm.
  unfold base_level. rewrite base_left by (cbn [size]; lia). rewrite Hs1.
  destruct (Nat.leb_spec m (2 ^ j)) as [H|H].
  - fold (base_level t1 m). destruct (Nat.eq_dec m (2 ^ j)) as [->|].
    + exists b. rewrite (base_level_self _ _ j) by done. rewrite Nat.pow_succ_r'. lia.
    + destruct (IH1 m (2 * b)) as [q Hq]; [lia|]. exists q. rewrite <-Hq, Nat.pow_succ_r'. lia.
  - fold (base_level t2 (m - 2 ^ j)). destruct (IH2 (m - 2 ^ j) (2 * b + 1)) as [q Hq]; [lia|].
    exists q. rewrite <-Hq, Nat.pow_succ_r'. lia.
Qed.

Lemma base_odd_rfc h t m a :
  rfc h t -> 1 <= m < size t ->
  exists q, a * 2 ^ h + m = (2 * q + 1) * 2 ^ base_level t m.
Proof.
  intros Hr. revert m a. induction Hr as [d|k h t1 t2 Hp Hr IH Hh]; intros m a Hm; [cbn in Hm; lia|].
  pose proof (perfect_size _ _ Hp) as Hs1. cbn [size] in Hm.
  unfold base_level. rewrite base_left by (cbn [size]; lia). rewrite Hs1.
  destruct (Nat.leb_spec m (2 ^ k)) as [H|H].
  - fold (base_level t1 m). destruct (Nat.eq_dec m (2 ^ k)) as [->|].
    + exists a. rewrite (base_level_self _ _ k) by done. rewrite Nat.pow_succ_r'. lia.
    + destruct (base_odd_perfect k t1 m (2 * a)) as [q Hq]; [done|lia|]. exists q.
      rewrite <-Hq, Nat.pow_succ_r'. lia.
  - fold (base_level t2 (m - 2 ^ k)).
    destruct (IH (m - 2 ^ k) ((2 * a + 1) * 2 ^ (k - h))) as [q Hq]; [lia|].
    exists q. rewrite <-Hq. rewrite <-Nat.mul_assoc, <-Nat.pow_add_r, Nat.sub_add by done.
    rewrite Nat.pow_succ_r'. lia.
Qed.

(** As [fold_istep_interior]; [M] and [N] are the old size and the last index. *)
Lemma csteps_interior j t m seed rp b c r M N :
  perfect j t -> 1 <= m <= 2 ^ j -> r < 2 ^ j -> b < c -> length rp = tail_len t m ->
  M = b * 2 ^ j + m -> N = c * 2 ^ j + r ->
  csteps (seed, seed, M / 2 ^ base_level t m - 1, N / 2 ^ base_level t m) (rev rp) =
  Some (recon2 t m seed rp, b, c).
Proof.
  intros Hp. revert m rp b c r. induction Hp as [d|j t1 t2 H1 IH1 H2 IH2];
    intros m rp b c r Hm Hr Hbc Hl HM HN.
  - cbn in Hm. assert (m = 1) as -> by lia. cbn in Hl, Hr. destruct rp; [|done].
    rewrite (base_level_self _ _ 0) by (done || constructor). cbn [Nat.pow rev csteps recon2 size Nat.eqb] in *.
    rewrite !Nat.div_1_r. do 2 f_equal; [f_equal|]; lia.
  - pose proof (perfect_size _ _ H1) as Hs1. pose proof (perfect_size _ _ H2) as Hs2.
    destruct (Nat.eq_dec m (size (B t1 t2))) as [E|E].
    + rewrite (base_level_self _ _ (S j)) by (done || by constructor).
      cbn [tail_len recon2] in *. apply Nat.eqb_eq in E as Eb. rewrite Eb in *. destruct rp; [|done].
      cbn [rev csteps]. cbn [size] in E. rewrite Hs1, Hs2 in E.
      assert (m = 2 ^ S j) as -> by (rewrite Nat.pow_succ_r'; lia).
      pose proof (Nat.pow_nonzero 2 (S j)). subst M N.
      rewrite !Nat.div_add_l by lia. rewrite Nat.div_same, Nat.div_small by lia.
      do 2 f_equal; [f_equal|]; lia.
    + destruct (level_split c j r Hr) as (p & r' & Hp & Hr' & Hsplit). rewrite Hsplit in HN.
      unfold base_level. rewrite base_left by done. cbn [tail_len recon2] in *.
      apply Nat.eqb_neq in E as Eb. rewrite Eb in *. cbn [size] in E.
      destruct rp as [|s rp]; [done|]. cbn [rev length] in *. rewrite csteps_snoc. rewrite Hs1 in *.
      rewrite Nat.pow_succ_r' in HM, Hm.
      destruct (Nat.leb_spec m (2 ^ j)) as [H|H].
      * fold (base_level t1 m). rewrite (IH1 m rp (2 * b) (2 * c + p) r') by lia.
        destruct (recon2 t1 m seed rp) as [fr sr]. rewrite cstep_left by lia. by rewrite div2_bit.
      * fold (base_level t2 (m - 2 ^ j)). rewrite (IH2 (m - 2 ^ j) rp (2 * b + 1) (2 * c + p) r') by lia.
        destruct (recon2 t2 (m - 2 ^ j) seed rp) as [fr sr]. rewrite cstep_right by lia. by rewrite div2_bit.
Qed.

Lemma csteps_edge h t m seed rp a M N :
  rfc h t -> 1 <= m < size t -> length rp = tail_len t m ->
  M = a * 2 ^ h + m -> N = a * 2 ^ h + (size t - 1) ->
  csteps (seed, seed, M / 2 ^ base_level t m - 1, N / 2 ^ base_level t m) (rev rp) =
  Some (recon2 t m seed rp, a, a).
Proof.
  intros Hr. revert m rp a. induction Hr as [d|k h t1 t2 Hp Hr IH Hh];
    intros m rp a Hm Hl HM HN; [cbn in Hm; lia|].
  pose proof (perfect_size _ _ Hp) as Hs1. pose proof (rfc_size _ _ Hr) as Hs2.
  pose proof (Nat.pow_le_mono_r 2 h k ltac:(lia) Hh). pose proof (size_pos t2).
  assert (E : m <> size (B t1 t2)) by lia. unfold base_level. rewrite base_left by done.
  cbn [tail_len recon2] in *. apply Nat.eqb_neq in E as Eb. rewrite Eb in *. cbn [size] in *.
  destruct rp as [|s rp]; [done|]. cbn [rev length] in *. rewrite csteps_snoc. rewrite Hs1 in *.
  rewrite Nat.pow_succ_r' in HM, HN.
  destruct (Nat.leb_spec m (2 ^ k)) as [H'|H'].
  - fold (base_level t1 m).
    rewrite (csteps_interior k t1 m seed rp (2 * a) (2 * a + 1) (size t2 - 1)) by (done || lia).
    destruct (recon2 t1 m seed rp) as [fr sr]. rewrite cstep_left by lia. by rewrite div2_bit by lia.
  - fold (base_level t2 (m - 2 ^ k)).
    assert (E2 : (2 * a + 1) * 2 ^ (k - h) * 2 ^ h = (2 * a + 1) * 2 ^ k).
    { by rewrite <-Nat.mul_assoc, <-Nat.pow_add_r, Nat.sub_add. }
    rewrite (IH (m - 2 ^ k) rp ((2 * a + 1) * 2 ^ (k - h))) by lia.
    destruct (recon2 t2 (m - 2 ^ k) seed rp) as [fr sr]. by rewrite cstep_edge.
Qed.

Lemma strip_ones_spec fuel q v sn :
  v <= fuel -> strip_ones fuel ((2 * q + 1) * 2 ^ v - 1) sn = (2 * q, sn / 2 ^ v).
Proof.
  revert fuel sn. induction v as [|v IH]; intros fuel sn H.
  - replace ((2 * q + 1) * 2 ^ 0 - 1) with (2 * q) by (cbn; lia). rewrite Nat.div_1_r.
    assert (Ho : Nat.odd (2 * q) = false) by (rewrite <-Nat.negb_even; apply negb_false_iff, Nat.even_spec; by exists q).
    destruct fuel; cbn [strip_ones]; [done|]. by rewrite Ho.
  - destruct fuel as [|f]; [lia|]. cbn [strip_ones]. pose proof (Nat.pow_nonzero 2 v).
    replace ((2 * q + 1) * 2 ^ S v - 1) with (2 * ((2 * q + 1) * 2 ^ v - 1) + 1) by (rewrite Nat.pow_succ_r'; nia).
    assert (Nat.odd (2 * ((2 * q + 1) * 2 ^ v - 1) + 1) = true) as -> by (rewrite Nat.odd_spec; by eexists).
    rewrite Nat.add_1_r, Nat.div2_succ_double. rewrite IH by lia. f_equal.
    rewrite Nat.div2_div, Nat.Div0.div_div. f_equal.
Qed.

Lemma base_perfect h t m :
  perfect h t -> 1 <= m <= size t -> exists i, perfect i (base t m).
Proof.
  intros Hp. revert m. induction Hp as [d|j t1 t2 H1 IH1 H2 IH2]; intros m Hm; cbn [base].
  - exists 0. case_match; constructor.
  - destruct (Nat.eqb_spec m (size (B t1 t2))); [exists (S j); by constructor|]. cbn [size] in *.
    destruct (Nat.leb_spec m (size t1)); [apply IH1|apply IH2]; lia.
Qed.

Lemma base_perfect_rfc h t m : rfc h t -> 1 <= m < size t -> exists i, perfect i (base t m).
Proof.
  intros Hr. revert m. induction Hr as [d|k h t1 t2 Hp Hr IH Hh]; intros m Hm; [cbn in *; lia|].
  rewrite base_left by lia. cbn [size] in Hm.
  destruct (Nat.leb_spec m (size t1)); [eapply base_perfect; [done|lia]|apply IH; lia].
Qed.

Lemma base_size h t m : rfc h t -> 1 <= m < size t -> size (base t m) = 2 ^ base_level t m.
Proof.
  intros Hr Hm. destruct (base_perfect_rfc _ _ _ Hr Hm) as [i Hp]. unfold base_level.
  rewrite (perfect_size _ _ Hp). by rewrite Nat.log2_pow2 by lia.
Qed.

Lemma base_le t m : 1 <= m <= size t -> size (base t m) <= m.
Proof.
  revert m. induction t as [d|t1 IH1 t2 IH2]; intros m Hm; cbn [base]; [case_match; cbn in *; lia|].
  destruct (Nat.eqb_spec m (size (B t1 t2))); [lia|]. cbn [size] in *.
  destruct (Nat.leb_spec m (size t1)); [apply IH1; lia|]. specialize (IH2 (m - size t1)). lia.
Qed.

Lemma all_left_true t m : 1 <= m <= size t -> all_left t m = true -> m = size (base t m).
Proof.
  revert m. induction t as [d|t1 IH1 t2 IH2]; intros m Hm; cbn [all_left base].
  - rewrite orb_false_r, Nat.eqb_eq. intros ->. done.
  - destruct (Nat.eqb_spec m (size (B t1 t2))) as [E|E]; [by rewrite <-E|]. cbn [orb].
    rewrite andb_true_iff. intros [H Ha]. rewrite H. apply Nat.leb_le in H. apply IH1; [lia|done].
Qed.

Lemma all_left_false t m : 1 <= m <= size t -> all_left t m = false -> size (base t m) < m.
Proof.
  revert m. induction t as [d|t1 IH1 t2 IH2]; intros m Hm; cbn [all_left base].
  - cbn [size] in *. by assert (m = 1) as -> by lia.
  - destruct (Nat.eqb_spec m (size (B t1 t2))) as [E|E]; [done|]. cbn [orb size] in *.
    destruct (Nat.leb_spec m (size t1)) as [H|H]; cbn [andb]; [apply IH1; lia|]. intros _.
    pose proof (base_le t2 (m - size t1)). pose proof (size_pos t1). lia.
Qed.

Lemma trunc_base t m : 1 <= m <= size t -> all_left t m = true -> trunc t m = base t m.
Proof.
  induction t as [d|t1 IH1 t2 IH2]; intros Hm; cbn [all_left trunc base]; [done|].
  destruct (Nat.eqb_spec m (size (B t1 t2))); [done|]. cbn [orb].
  rewrite andb_true_iff. intros [H1 H2]. rewrite H1. apply Nat.leb_le in H1. apply IH1; [lia|done].
Qed.

Lemma tail_path_nonempty t m : 1 <= m < size t -> tail_path t m <> [].
Proof.
  destruct t as [d|t1 t2]; cbn [tail_path]; intros Hm; [cbn in Hm; lia|].
  destruct (Nat.eqb_spec m (size (B t1 t2))); [lia|]. intros E.
  case_match; apply app_nil in E as [_ E]; done.
Qed.

(** What the verifier finds before its loop: the shifted indices, and whether the
    base is the whole old tree. *)
Lemma strip_ones_start h t m fuel :
  rfc h t -> 1 <= m < size t -> m <= fuel ->
  exists f, strip_ones fuel (m - 1) (size t - 1) = (f, (size t - 1) / 2 ^ base_level t m) /\
    f = m / 2 ^ base_level t m - 1 /\ (f = 0 <-> all_left t m = true).
Proof.
  intros Hr Hm Hf. destruct (base_odd_rfc h t m 0 Hr Hm) as [q Hq]. cbn [Nat.mul Nat.add] in Hq.
  set (v := base_level t m) in *. pose proof (Nat.pow_nonzero 2 v).
  assert (Hv : v <= fuel).
  { pose proof (Nat.pow_gt_lin_r 2 v). nia. }
  exists (2 * q). assert (Em : m - 1 = (2 * q + 1) * 2 ^ v - 1) by lia.
  rewrite Em, strip_ones_spec by done. split; [done|]. split.
  - assert (Ed : m / 2 ^ v = 2 * q + 1) by (rewrite Hq; by apply Nat.div_mul; lia). lia.
  - pose proof (base_size h t m Hr Hm) as Hb. fold v in Hb. destruct (all_left t m) eqn:Ea.
    + split; [done|]. intros _. apply all_left_true in Ea; [|lia]. nia.
    + split; [|done]. intros Hz. apply all_left_false in Ea; [|lia]. assert (q = 0) as -> by lia. lia.
Qed.

(** The loop succeeds only on paths of the right length. *)
Lemma csteps_length st p st' x :
  csteps st p = Some (st', 0) -> forall q, csteps st (p ++ x :: q) = None.
Proof.
  intros H q. rewrite csteps_app, H. destruct st' as [[fr sr] fn]. done.
Qed.
End Tree.
Arguments tree D : clear implicits.
