(* ===== verification/Merkle.v ===== *)
(** * The Merkle layer of the ledger

    [pkg/contract/merkle.go]: the leaf and node hashes, the root, the inclusion and
    consistency proofs and their verifiers.  Slices are lists, an [int] is a [Z] kept
    to 64 bits where the code shifts it left, and [None] is a call that does not
    return: [largestPowerOfTwoLessThan] loops for ever above 2^62.  The tree-shaped
    reasoning is in [MerkleTree.v]. *)

From S2P Require Import Prelude GoStrings Sha256 Json Codec Contract Ledger MerkleTree.
From Stdlib Require Import Ascii String Arith.
#[local] Open Scope string_scope.

(** A digest, [[sha256.Size]byte]. *)
Definition digest : Set := string.

(* src: pkg/contract/merkle.go 46-52 merkleLeafPrefix *)
Definition merkleLeafPrefix : ascii := byte_of 0.
(* src: pkg/contract/merkle.go 51 merkleNodePrefix *)
Definition merkleNodePrefix : ascii := byte_of 1.

(* src: pkg/contract/merkle.go 54-58 EmptyMerkleRoot *)
Definition EmptyMerkleRoot : string :=
  "e3b0c44298fc1c149afbf4c8996fb92427ae41e4649b934ca495991b7852b855".

(* src: pkg/contract/merkle.go 60-72 ErrMerkleEmptyLog *)
Inductive MerkleError : Set :=
  | ErrMerkleIndexOutOfRange | ErrMerkleEmptyLog | ErrMerkleConsistencyRange.

(** ** Hashes *)

(* src: pkg/contract/merkle.go 82-85 merkleLeafHash *)
Definition leaf_data (entry : HarnessLedgerEntry) : string :=
  match hex_decode (Hash entry) with Some b => b | None => Hash entry end.

Definition leaf_input (entry : HarnessLedgerEntry) : string := String merkleLeafPrefix (leaf_data entry).
Definition node_input (lr : digest * digest) : string := String merkleNodePrefix (lr.1 +:+ lr.2).

(* src: pkg/contract/merkle.go 74-92 merkleLeafHash *)
Definition merkleLeafHash (entry : HarnessLedgerEntry) : digest := sha256 (leaf_input entry).

(* src: pkg/contract/merkle.go 94-104 merkleNodeHash *)
Definition merkleNodeHash (left right : digest) : digest := sha256 (node_input (left, right)).

(* src: pkg/contract/merkle.go 140-148 computeLeafHashes *)
Definition computeLeafHashes (entries : list HarnessLedgerEntry) : list digest :=
  map merkleLeafHash entries.

(** ** The split point *)

(* src: pkg/contract/merkle.go 112-115 largestPowerOfTwoLessThan *)
Fixpoint lp2_loop (fuel : nat) (k n : Z) : option Z :=
  match fuel with
  | O => None
  | S f =>
      let k' := wrap64 (Z.shiftl k 1) in
      if (k' <? n)%Z then lp2_loop f k' n else Some k
  end.

(** Sixty-four rounds are enough whenever the loop ends ([lp2_spec], [lp2_diverges]). *)
(* src: pkg/contract/merkle.go 106-116 largestPowerOfTwoLessThan *)
Definition largestPowerOfTwoLessThan (n : Z) : option Z := lp2_loop 64 1 n.

(** ** The root *)

Definition len {A} (l : list A) : Z := Z.of_nat (List.length l).
Definition slice_to {A} (l : list A) (k : Z) : list A := take (Z.to_nat k) l.
Definition slice_at {A} (l : list A) (k : Z) : list A := drop (Z.to_nat k) l.

(* src: pkg/contract/merkle.go 118-138 merkleTreeHash *)
Fixpoint merkleTreeHash_f (fuel : nat) (leaves : list digest) : option digest :=
  match fuel with
  | O => None
  | S f =>
      match leaves with
      | [] => Some (sha256 "")
      | [l] => Some l
      | _ =>
          k ← largestPowerOfTwoLessThan (len leaves);
          left ← merkleTreeHash_f f (slice_to leaves k);
          right ← merkleTreeHash_f f (slice_at leaves k);
          Some (merkleNodeHash left right)
      end
  end.
Definition merkleTreeHash (leaves : list digest) : option digest :=
  merkleTreeHash_f (S (List.length leaves)) leaves.

(* src: pkg/contract/merkle.go 150-161 MerkleRoot *)
Definition MerkleRoot (entries : list HarnessLedgerEntry) : option string :=
  sum ← merkleTreeHash (computeLeafHashes entries); Some (hex_encode sum).

(** ** Inclusion *)

(* src: pkg/contract/merkle.go 163-176 MerkleInclusionProof *)
Record MerkleInclusionProof := mkInclusion {
  ip_LeafIndex : Z; ip_TreeSize : Z; ip_AuditPath : list string }.

(* src: pkg/contract/merkle.go 202-224 inclusionPath *)
Fixpoint inclusionPath_f (fuel : nat) (m : Z) (leaves : list digest) : option (list digest) :=
  match fuel with
  | O => None
  | S f =>
      if (len leaves =? 1)%Z then Some []
      else
        k ← largestPowerOfTwoLessThan (len leaves);
        if (m <? k)%Z then
          sub ← inclusionPath_f f m (slice_to leaves k);
          right ← merkleTreeHash (slice_at leaves k);
          Some (sub ++ [right])%list
        else
          sub ← inclusionPath_f f (m - k)%Z (slice_at leaves k);
          left ← merkleTreeHash (slice_to leaves k);
          Some (sub ++ [left])%list
  end.
Definition inclusionPath (m : Z) (leaves : list digest) : option (list digest) :=
  inclusionPath_f (S (List.length leaves)) m leaves.

(* src: pkg/contract/merkle.go 178-200 InclusionProof *)
Definition InclusionProof (entries : list HarnessLedgerEntry) (i : Z)
    : option (MerkleError + MerkleInclusionProof) :=
  let n := len entries in
  if (n =? 0)%Z then Some (inl ErrMerkleEmptyLog)
  else if ((i <? 0) || (n <=? i))%Z then Some (inl ErrMerkleIndexOutOfRange)
  else
    path ← inclusionPath i (computeLeafHashes entries);
    Some (inr (mkInclusion i n (map hex_encode path))).

(* src: pkg/contract/merkle.go 279-291 inclusionPathLen *)
Fixpoint inclusionPathLen_f (fuel : nat) (m n : Z) : option Z :=
  match fuel with
  | O => None
  | S f =>
      if (n <=? 1)%Z then Some 0%Z
      else
        k ← largestPowerOfTwoLessThan n;
        if (m <? k)%Z then d ← inclusionPathLen_f f m k; Some (d + 1)%Z
        else d ← inclusionPathLen_f f (m - k)%Z (n - k)%Z; Some (d + 1)%Z
  end.
(** The size at least halves, rounded up, at each level. *)
Definition inclusionPathLen (m n : Z) : option Z := inclusionPathLen_f 64 m n.

(** [for fn%2 == 0 && fn != 0 { fn >>= 1; sn >>= 1 }]; an [int] has 63 bits to shift. *)
(* src: pkg/contract/merkle.go 266-269 VerifyInclusion *)
Fixpoint shift_even_z (fuel : nat) (fn sn : Z) : Z * Z :=
  match fuel with
  | O => (fn, sn)
  | S f =>
      if ((Z.rem fn 2 =? 0) && negb (fn =? 0))%Z then shift_even_z f (Z.shiftr fn 1) (Z.shiftr sn 1)
      else (fn, sn)
  end.

(* src: pkg/contract/merkle.go 262-274 VerifyInclusion *)
Definition next_indices_z (fn sn : Z) : Z * Z :=
  let '(fn, sn) := if ((Z.rem fn 2 =? 1) || (fn =? sn))%Z then shift_even_z 64 fn sn else (fn, sn) in
  (Z.shiftr fn 1, Z.shiftr sn 1).

(** One proof element: the hexadecimal text of a digest. *)
(* src: pkg/contract/merkle.go 256-261 VerifyInclusion *)
Definition decode_node (h : string) : option digest :=
  match hex_decode h with
  | Some b => if (String.length b =? Size)%nat then Some b else None
  | None => None
  end.

(** The loop over the audit path; [None] is its early [return false]. *)
(* src: pkg/contract/merkle.go 255-275 VerifyInclusion *)
Fixpoint fold_audit (acc : digest) (fn sn : Z) (path : list string) : option digest :=
  match path with
  | [] => Some acc
  | sibHex :: rest =>
      sib ← decode_node sibHex;
      let acc := if ((Z.rem fn 2 =? 1) || (fn =? sn))%Z then merkleNodeHash sib acc
                 else merkleNodeHash acc sib in
      let '(fn, sn) := next_indices_z fn sn in
      fold_audit acc fn sn rest
  end.

(* src: pkg/contract/merkle.go 226-277 VerifyInclusion *)
Definition VerifyInclusion (leafEntry : HarnessLedgerEntry) (proof : MerkleInclusionProof)
    (root : string) : option bool :=
  if ((ip_TreeSize proof <=? 0) || (ip_LeafIndex proof <? 0) || (ip_TreeSize proof <=? ip_LeafIndex proof))%Z
  then Some false
  else
    n ← inclusionPathLen (ip_LeafIndex proof) (ip_TreeSize proof);
    if negb (len (ip_AuditPath proof) =? n)%Z then Some false
    else
      match fold_audit (merkleLeafHash leafEntry) (ip_LeafIndex proof) (ip_TreeSize proof - 1)%Z
              (ip_AuditPath proof) with
      | None => Some false
      | Some acc => Some (String.eqb (hex_encode acc) root)
      end.

(** ** Consistency *)

(* src: pkg/contract/merkle.go 293-304 MerkleConsistencyProof *)
Record MerkleConsistencyProof := mkConsistency { cp_OldSize : Z; cp_NewSize : Z; cp_Path : list string }.

(* src: pkg/contract/merkle.go 338-370 subProof *)
Fixpoint subProof_f (fuel : nat) (m : Z) (leaves : list digest) (b : bool) : option (list digest) :=
  match fuel with
  | O => None
  | S f =>
      if (m =? len leaves)%Z then
        if b then Some [] else h ← merkleTreeHash leaves; Some [h]
      else
        k ← largestPowerOfTwoLessThan (len leaves);
        if (m <=? k)%Z then
          sub ← subProof_f f m (slice_to leaves k) b;
          right ← merkleTreeHash (slice_at leaves k);
          Some (sub ++ [right])%list
        else
          sub ← subProof_f f (m - k)%Z (slice_at leaves k) false;
          left ← merkleTreeHash (slice_to leaves k);
          Some (sub ++ [left])%list
  end.
Definition subProof (m : Z) (leaves : list digest) (b : bool) : option (list digest) :=
  subProof_f (S (List.length leaves)) m leaves b.

(* src: pkg/contract/merkle.go 306-336 ConsistencyProof *)
Definition ConsistencyProof (oldSize : Z) (entries : list HarnessLedgerEntry)
    : option (MerkleError + MerkleConsistencyProof) :=
  let n := len entries in
  if ((oldSize <? 0) || (n <? oldSize))%Z then Some (inl ErrMerkleConsistencyRange)
  else
    path ← (if (negb (oldSize =? 0) && negb (oldSize =? n))%Z
            then subProof oldSize (computeLeafHashes entries) true else Some []);
    Some (inr (mkConsistency oldSize n (map hex_encode path))).

(* src: pkg/contract/merkle.go 461-465 isHexSize *)
Definition isHexSize (s : string) : bool :=
  match hex_decode s with Some b => (String.length b =? Size)%nat | None => false end.

Definition zero_digest : digest := string_of_list_ascii (repeat (byte_of 0) Size).

(* src: pkg/contract/merkle.go 467-476 decodeRoot *)
Definition decodeRoot (s : string) : digest :=
  match decode_node s with Some b => b | None => zero_digest end.

(* src: pkg/contract/merkle.go 478-490 decodeNodes *)
Fixpoint decodeNodes (hexNodes : list string) : option (list digest) :=
  match hexNodes with
  | [] => Some []
  | h :: rest => b ← decode_node h; bs ← decodeNodes rest; Some (b :: bs)
  end.

(** [for fn%2 == 1 { fn >>= 1; sn >>= 1 }] *)
(* src: pkg/contract/merkle.go 414-418 VerifyConsistency *)
Fixpoint strip_ones_z (fuel : nat) (fn sn : Z) : Z * Z :=
  match fuel with
  | O => (fn, sn)
  | S f => if (Z.rem fn 2 =? 1)%Z then strip_ones_z f (Z.shiftr fn 1) (Z.shiftr sn 1) else (fn, sn)
  end.

(** The loop over the proof nodes; [None] is its early [return false]. *)
(* src: pkg/contract/merkle.go 432-454 VerifyConsistency *)
Fixpoint fold_consistency (fr sr : digest) (fn sn : Z) (path : list digest)
    : option (digest * digest * Z * Z) :=
  match path with
  | [] => Some (fr, sr, fn, sn)
  | node :: rest =>
      if (sn =? 0)%Z then None
      else
        let '(fr, sr) :=
          if ((Z.rem fn 2 =? 1) || (fn =? sn))%Z then (merkleNodeHash node fr, merkleNodeHash node sr)
          else (fr, merkleNodeHash sr node) in
        let '(fn, sn) := next_indices_z fn sn in
        fold_consistency fr sr fn sn rest
  end.

(* src: pkg/contract/merkle.go 372-459 VerifyConsistency *)
Definition VerifyConsistency (proof : MerkleConsistencyProof) (oldRoot newRoot : string) : bool :=
  let first := cp_OldSize proof in
  let second := cp_NewSize proof in
  if ((first <? 0) || (second <? 0) || (second <? first))%Z then false
  else if (first =? 0)%Z then
    match cp_Path proof with [] => String.eqb oldRoot EmptyMerkleRoot && isHexSize newRoot | _ => false end
  else if (first =? second)%Z then
    match cp_Path proof with [] => String.eqb oldRoot newRoot && isHexSize oldRoot | _ => false end
  else
    match decodeNodes (cp_Path proof) with
    | None | Some [] => false
    | Some ((p0 :: rest) as path) =>
        let '(fn, sn) := strip_ones_z 64 (first - 1)%Z (second - 1)%Z in
        let '(seed, nodes) := if (fn =? 0)%Z then (decodeRoot oldRoot, path) else (p0, rest) in
        match fold_consistency seed seed fn sn nodes with
        | None => false
        | Some (fr, sr, _, sn) =>
            (sn =? 0)%Z && String.eqb (hex_encode fr) oldRoot && String.eqb (hex_encode sr) newRoot
        end
    end.

(** ** Examples *)

Definition log_entry (h : string) : HarnessLedgerEntry := Entry_zero <| Hash := h |>.
Definition log5 : list HarnessLedgerEntry := map log_entry ["aa"; "bb"; "cc"; "dd"; "ee"].

Example MerkleRoot_empty : MerkleRoot [] = Some EmptyMerkleRoot.
Proof. vm_compute. reflexivity. Qed.

(** ** The split point: termination *)

Lemma pow2_Z i : Z.of_nat (2 ^ i) = (2 ^ Z.of_nat i)%Z.
Proof. by rewrite Nat2Z.inj_pow. Qed.

Lemma pow2_mono i j : (i <= j)%nat -> (2 ^ Z.of_nat i <= 2 ^ Z.of_nat j)%Z.
Proof. intros. apply Z.pow_le_mono_r; lia. Qed.

Lemma lp2_loop_spec fuel i n :
  (2 ^ i < n)%nat -> (Z.of_nat n <= 2 ^ 62)%Z -> (Nat.log2 (n - 1) < i + fuel)%nat ->
  lp2_loop fuel (2 ^ Z.of_nat i) (Z.of_nat n) = Some (Z.of_nat (split_point n)).
Proof.
  revert i. induction fuel as [|f IH]; intros i Hi Hn Hf.
  - exfalso. assert (Nat.log2 (2 ^ i) <= Nat.log2 (n - 1))%nat by (apply Nat.log2_le_mono; lia).
    rewrite Nat.log2_pow2 in H by lia. lia.
  - cbn [lp2_loop]. rewrite Z.shiftl_mul_pow2 by lia.
    assert (Hlt : (2 ^ Z.of_nat i < 2 ^ 62)%Z) by (rewrite <-pow2_Z; lia).
    apply Z.pow_lt_mono_r_iff in Hlt; [|lia..].
    replace (2 ^ Z.of_nat i * 2 ^ 1)%Z with (2 ^ Z.of_nat (S i))%Z
      by (rewrite Nat2Z.inj_succ, Z.pow_succ_r by lia; lia).
    assert (Hb : (2 ^ Z.of_nat (S i) <= 2 ^ Z.of_nat 62)%Z) by (apply pow2_mono; lia).
    rewrite wrap64_id by (unfold min_int64, max_int64; change (2 ^ Z.of_nat 62)%Z with (2 ^ 62)%Z in Hb; lia).
    destruct (Z.ltb_spec (2 ^ Z.of_nat (S i)) (Z.of_nat n)) as [H|H].
    + apply IH; [rewrite <-pow2_Z in H; lia|done|lia].
    + f_equal. rewrite (split_point_unique n i), pow2_Z; [done|]. rewrite <-pow2_Z in H. lia.
Qed.

Lemma lp2_split n : (2 <= n)%nat -> (Z.of_nat n <= 2 ^ 62)%Z ->
  largestPowerOfTwoLessThan (Z.of_nat n) = Some (Z.of_nat (split_point n)).
Proof.
  intros H1 H2. apply (lp2_loop_spec 64 0); [cbn; lia|done|].
  apply Nat.log2_lt_pow2; [lia|]. apply Nat2Z.inj_lt. rewrite pow2_Z.
  apply Z.lt_le_trans with (2 ^ 62)%Z; [lia|]. by apply Z.pow_le_mono_r.
Qed.

Lemma lp2_zero fuel n : (0 < n)%Z -> lp2_loop fuel 0 n = None.
Proof.
  intros H. induction fuel as [|f IH]; [done|]. cbn [lp2_loop]. change (wrap64 (Z.shiftl 0 1)) with 0%Z.
  apply Z.ltb_lt in H as ->. done.
Qed.

Lemma lp2_diverges fuel i n :
  (i <= 62)%nat -> (2 ^ 62 < n)%Z -> lp2_loop fuel (2 ^ Z.of_nat i) n = None.
Proof.
  revert i. induction fuel as [|f IH]; intros i Hi Hn; [done|]. cbn [lp2_loop].
  destruct (Nat.eq_dec i 62) as [->|Hne].
  - change (wrap64 (Z.shiftl (2 ^ Z.of_nat 62) 1)) with min_int64.
    assert ((min_int64 <? n)%Z = true) as -> by (unfold min_int64; lia).
    destruct f as [|f]; [done|]. cbn [lp2_loop]. change (wrap64 (Z.shiftl min_int64 1)) with 0%Z.
    assert ((0 <? n)%Z = true) as -> by lia. apply lp2_zero. lia.
  - rewrite Z.shiftl_mul_pow2 by lia.
    replace (2 ^ Z.of_nat i * 2 ^ 1)%Z with (2 ^ Z.of_nat (S i))%Z
      by (rewrite Nat2Z.inj_succ, Z.pow_succ_r by lia; lia).
    assert (Hb : (2 ^ Z.of_nat (S i) <= 2 ^ Z.of_nat 62)%Z) by (apply pow2_mono; lia).
    change (2 ^ Z.of_nat 62)%Z with (2 ^ 62)%Z in Hb.
    rewrite wrap64_id by (unfold min_int64, max_int64; lia).
    assert ((2 ^ Z.of_nat (S i) <? n)%Z = true) as -> by (apply Z.ltb_lt; eapply Z.le_lt_trans; eassumption). apply IH; lia.
Qed.

(** [largestPowerOfTwoLessThan] returns the largest power of two below [n] for [n] from
    2 to 2^62; for a larger 64-bit [n] its loop never ends, the left shift having
    wrapped round to zero, whatever the number of rounds. *)
Theorem largestPowerOfTwoLessThan_spec :
  (forall n : nat, (2 <= n)%nat -> (Z.of_nat n <= 2 ^ 62)%Z -> exists h,
     largestPowerOfTwoLessThan (Z.of_nat n) = Some (2 ^ Z.of_nat h)%Z /\
     (2 ^ Z.of_nat h < Z.of_nat n <= 2 * 2 ^ Z.of_nat h)%Z) /\
  (forall n fuel, (2 ^ 62 < n)%Z -> lp2_loop fuel 1 n = None).
Proof.
  split.
  - intros n H1 H2. exists (Nat.log2 (n - 1)). rewrite <-pow2_Z, lp2_split by done.
    split; [done|]. destruct (split_point_bounds n H1). unfold split_point in *. lia.
  - intros n fuel Hn. by apply (lp2_diverges fuel 0); [lia|].
Qed.

(** ** The recursive functions compute the tree *)

Section Bridge.
Let t_hash := hash merkleNodeHash.

Definition shape (entries : list HarnessLedgerEntry) : MerkleTree.tree digest :=
  tree_of zero_digest (computeLeafHashes entries).

Lemma split_slices (l : list digest) :
  (2 <= List.length l)%nat -> (len l <= 2 ^ 62)%Z ->
  exists k, k = split_point (List.length l) /\ (1 <= k < List.length l)%nat /\
    largestPowerOfTwoLessThan (len l) = Some (Z.of_nat k) /\
    slice_to l (Z.of_nat k) = take k l /\ slice_at l (Z.of_nat k) = drop k l /\
    (len (take k l) <= 2 ^ 62)%Z /\ (len (drop k l) <= 2 ^ 62)%Z.
Proof.
  intros H1 H2. exists (split_point (List.length l)). destruct (split_point_bounds _ H1) as [H3 _].
  unfold slice_to, slice_at, len in *. rewrite Nat2Z.id, lp2_split by done.
  rewrite length_take, length_drop. split_and!; try done; lia.
Qed.

Lemma merkleTreeHash_f_eq fuel l :
  l <> [] -> (len l <= 2 ^ 62)%Z -> (List.length l < fuel)%nat ->
  merkleTreeHash_f fuel l = Some (t_hash (tree_of zero_digest l)).
Proof.
  intros Hne. revert l Hne fuel. apply (split_ind (fun l => forall fuel, (len l <= 2 ^ 62)%Z ->
    (List.length l < fuel)%nat -> merkleTreeHash_f fuel l = Some (t_hash (tree_of zero_digest l)))).
  - intros x [|f] _ Hf; [lia|done].
  - intros l k H2 Hk Hb IH1 IH2 [|f] Hl Hf; [lia|].
    destruct (split_slices l H2 Hl) as (k' & -> & _ & E1 & E2 & E3 & Hl1 & Hl2). rewrite <-Hk in *.
    rewrite tree_of_split by done. rewrite <-Hk. destruct l as [|x [|y l]]; cbn in H2; [lia|lia|].
    cbn [merkleTreeHash_f]. rewrite E1. cbn [mbind option_bind]. rewrite E2, E3.
    rewrite IH1, IH2; [done|done|rewrite length_drop; lia|done|rewrite length_take; lia].
Qed.

Lemma merkleTreeHash_eq l :
  l <> [] -> (len l <= 2 ^ 62)%Z -> merkleTreeHash l = Some (t_hash (tree_of zero_digest l)).
Proof. intros. apply merkleTreeHash_f_eq; [done|done|lia]. Qed.

Lemma MerkleRoot_eq es : es <> [] -> (len es <= 2 ^ 62)%Z ->
  MerkleRoot es = Some (hex_encode (t_hash (shape es))).
Proof.
  intros H1 H2. unfold MerkleRoot. rewrite merkleTreeHash_eq; [done|by destruct es|].
  unfold len, computeLeafHashes in *. by rewrite length_map.
Qed.

Lemma nonempty_len {A} (l : list A) : (1 <= List.length l)%nat -> l <> [].
Proof. destruct l; cbn; [lia|done]. Qed.

Lemma inclusionPath_f_eq fuel m l :
  l <> [] -> (m < List.length l)%nat -> (len l <= 2 ^ 62)%Z -> (List.length l < fuel)%nat ->
  inclusionPath_f fuel (Z.of_nat m) l = Some (audit merkleNodeHash (tree_of zero_digest l) m).
Proof.
  intros Hne. revert l Hne m fuel. apply (split_ind (fun l => forall m fuel, (m < List.length l)%nat ->
    (len l <= 2 ^ 62)%Z -> (List.length l < fuel)%nat ->
    inclusionPath_f fuel (Z.of_nat m) l = Some (audit merkleNodeHash (tree_of zero_digest l) m))).
  - intros x m [|f] Hm _ Hf; [lia|]. cbn in Hm. by assert (m = 0)%nat as -> by lia.
  - intros l k H2 Hk Hb IH1 IH2 m [|f] Hm Hl Hf; [lia|].
    destruct (split_slices l H2 Hl) as (k' & -> & _ & E1 & E2 & E3 & Hl1 & Hl2). rewrite <-Hk in *.
    rewrite tree_of_split by done. rewrite <-Hk. cbn [inclusionPath_f audit].
    assert ((len l =? 1)%Z = false) as -> by (unfold len; lia).
    rewrite E1. cbn [mbind option_bind]. rewrite E2, E3.
    rewrite tree_of_size by (apply nonempty_len; rewrite length_take; lia).
    rewrite length_take, Nat.min_l by lia.
    rewrite !merkleTreeHash_eq; try done; try (apply nonempty_len; rewrite ?length_take, ?length_drop; lia).
    destruct (Nat.ltb_spec m k) as [H|H].
    + assert ((Z.of_nat m <? Z.of_nat k)%Z = true) as -> by lia.
      rewrite IH1 by (rewrite ?length_take; done || lia). done.
    + assert ((Z.of_nat m <? Z.of_nat k)%Z = false) as -> by lia.
      rewrite <-Nat2Z.inj_sub by lia. rewrite IH2 by (rewrite ?length_drop; done || lia). done.
Qed.

Lemma inclusionPathLen_f_eq h (t : MerkleTree.tree digest) m fuel :
  rfc h t -> (m < size t)%nat -> (Z.of_nat (size t) <= 2 ^ 62)%Z -> (h < fuel)%nat ->
  inclusionPathLen_f fuel (Z.of_nat m) (Z.of_nat (size t)) = Some (Z.of_nat (depth t m)).
Proof.
  revert h m fuel. induction t as [d|t1 IH1 t2 IH2]; intros h m fuel Hr Hm Hn Hf.
  - destruct fuel as [|f]; [lia|done].
  - destruct fuel as [|f]; [lia|]. destruct h as [|k]; [inversion Hr|].
    cbn [inclusionPathLen_f]. pose proof (size_pos t1). pose proof (size_pos t2).
    assert ((Z.of_nat (size (B t1 t2)) <=? 1)%Z = false) as -> by (cbn [size]; apply Z.leb_gt; lia).
    rewrite lp2_split by (cbn [size] in *; lia). rewrite (rfc_split _ _ _ Hr). cbn [mbind option_bind].
    cbn [depth size] in *. inversion Hr as [|? h' ? ? Hp Hr2 Hh]; subst.
    destruct (Nat.ltb_spec m (size t1)) as [H'|H'].
    + assert ((Z.of_nat m <? Z.of_nat (size t1))%Z = true) as -> by lia.
      rewrite (IH1 k) by (by apply perfect_rfc || lia). cbn [mbind option_bind]. f_equal. lia.
    + assert ((Z.of_nat m <? Z.of_nat (size t1))%Z = false) as -> by lia.
      rewrite <-!Nat2Z.inj_sub by lia. replace (size t1 + size t2 - size t1)%nat with (size t2) by lia.
      rewrite (IH2 h') by (done || lia). cbn [mbind option_bind]. f_equal. lia.
Qed.
End Bridge.

(** ** The loops of the verifiers on machine integers *)

Lemma shiftr_div2 n : Z.shiftr (Z.of_nat n) 1 = Z.of_nat (Nat.div2 n).
Proof. rewrite Z.shiftr_div_pow2 by lia. rewrite Nat.div2_div, Nat2Z.inj_div. done. Qed.

Lemma rem2_odd n : (Z.rem (Z.of_nat n) 2 =? 1)%Z = Nat.odd n.
Proof.
  rewrite Z.rem_mod_nonneg by lia. change 2%Z with (Z.of_nat 2). rewrite <-Nat2Z.inj_mod.
  pose proof (Nat.mod_upper_bound n 2). pose proof (Nat.div_mod_eq n 2).
  destruct (Nat.odd n) eqn:E.
  - apply Nat.odd_spec in E as [q Hq]. lia.
  - rewrite <-Nat.negb_even in E. apply negb_false_iff, Nat.even_spec in E as [q Hq]. lia.
Qed.

Lemma rem2_even n : (Z.rem (Z.of_nat n) 2 =? 0)%Z = Nat.even n.
Proof.
  rewrite Z.rem_mod_nonneg by lia. change 2%Z with (Z.of_nat 2). rewrite <-Nat2Z.inj_mod.
  pose proof (Nat.mod_upper_bound n 2). pose proof (Nat.div_mod_eq n 2).
  destruct (Nat.even n) eqn:E.
  - apply Nat.even_spec in E as [q Hq]. lia.
  - rewrite <-Nat.negb_odd in E. apply negb_false_iff, Nat.odd_spec in E as [q Hq]. lia.
Qed.

Lemma eqb_of_nat a b : (Z.of_nat a =? Z.of_nat b)%Z = (a =? b)%nat.
Proof. destruct (Nat.eqb_spec a b); lia. Qed.

Definition pair_Z (p : nat * nat) : Z * Z := (Z.of_nat p.1, Z.of_nat p.2).

Lemma shift_even_fuel f g fn sn :
  (fn < 2 ^ f)%nat -> (fn < 2 ^ g)%nat -> shift_even f fn sn = shift_even g fn sn.
Proof.
  revert g fn sn. induction f as [|f IH]; intros [|g] fn sn Hf Hg; try done;
    try (cbn [Nat.pow] in *; assert (fn = 0)%nat as -> by lia; by cbn).
  cbn [shift_even]. destruct (Nat.even fn && negb (fn =? 0)%nat) eqn:E; [|done].
  apply IH; rewrite Nat.div2_div; apply Nat.Div0.div_lt_upper_bound; cbn [Nat.pow] in *; lia.
Qed.

Lemma shift_even_z_eq fuel fn sn :
  shift_even_z fuel (Z.of_nat fn) (Z.of_nat sn) = pair_Z (shift_even fuel fn sn).
Proof.
  revert fn sn. induction fuel as [|f IH]; intros fn sn; [done|]. cbn [shift_even_z shift_even].
  rewrite rem2_even. change 0%Z with (Z.of_nat 0). rewrite eqb_of_nat.
  destruct (Nat.even fn && negb (fn =? 0)%nat); [|done]. by rewrite !shiftr_div2, IH.
Qed.

Lemma strip_ones_z_eq fuel fn sn :
  strip_ones_z fuel (Z.of_nat fn) (Z.of_nat sn) = pair_Z (strip_ones fuel fn sn).
Proof.
  revert fn sn. induction fuel as [|f IH]; intros fn sn; [done|]. cbn [strip_ones_z strip_ones].
  rewrite rem2_odd. destruct (Nat.odd fn); [|done]. by rewrite !shiftr_div2, IH.
Qed.

Lemma strip_ones_fuel f g fn sn :
  (fn < 2 ^ f)%nat -> (fn < 2 ^ g)%nat -> strip_ones f fn sn = strip_ones g fn sn.
Proof.
  revert g fn sn. induction f as [|f IH]; intros [|g] fn sn Hf Hg; try done;
    try (cbn [Nat.pow] in *; assert (fn = 0)%nat as -> by lia; by cbn).
  cbn [strip_ones]. destruct (Nat.odd fn); [|done].
  apply IH; rewrite Nat.div2_div; apply Nat.Div0.div_lt_upper_bound; cbn [Nat.pow] in *; lia.
Qed.

(** An index an [int] can hold needs fewer than 64 shifts. *)
Lemma index_bound fn : (Z.of_nat fn < 2 ^ 63)%Z -> (fn < 2 ^ 64)%nat.
Proof.
  intros H. apply Nat2Z.inj_lt. rewrite pow2_Z. eapply Z.lt_trans; [done|]. by apply Z.pow_lt_mono_r.
Qed.

Lemma lt_pow2 n : (n < 2 ^ n)%nat.
Proof. apply Nat.pow_gt_lin_r. lia. Qed.

Lemma next_indices_z_eq fn sn :
  (Z.of_nat fn < 2 ^ 63)%Z ->
  next_indices_z (Z.of_nat fn) (Z.of_nat sn) = pair_Z (next_indices fn sn).
Proof.
  intros H. unfold next_indices_z, next_indices. rewrite rem2_odd, eqb_of_nat.
  destruct (Nat.odd fn || (fn =? sn)%nat).
  - rewrite shift_even_z_eq. rewrite (shift_even_fuel 64 fn) by auto using index_bound, lt_pow2.
    destruct (shift_even fn fn sn) as [f s]. cbn [pair_Z fst snd]. by rewrite !shiftr_div2.
  - by rewrite !shiftr_div2.
Qed.

Lemma shift_even_le fuel fn sn : ((shift_even fuel fn sn).1 <= fn)%nat.
Proof.
  revert fn sn. induction fuel as [|f IH]; intros fn sn; cbn [shift_even]; [done|].
  destruct (Nat.even fn && negb (fn =? 0)%nat); [|done]. etransitivity; [apply IH|].
  apply Nat.div2_decr. lia.
Qed.

Lemma next_indices_le fn sn : ((next_indices fn sn).1 <= fn)%nat.
Proof.
  unfold next_indices. pose proof (shift_even_le fn fn sn) as H.
  destruct (Nat.odd fn || (fn =? sn)%nat).
  - destruct (shift_even fn fn sn) as [f s]. cbn [fst snd] in *. pose proof (Nat.div2_decr f f). lia.
  - cbn [fst]. apply Nat.div2_decr. lia.
Qed.

(** The loop of [VerifyInclusion] is [istep] over the decoded siblings. *)
Lemma fold_audit_eq path sibs acc fn sn :
  decodeNodes path = Some sibs -> (Z.of_nat fn < 2 ^ 63)%Z ->
  fold_audit acc (Z.of_nat fn) (Z.of_nat sn) path =
  Some (foldl (istep merkleNodeHash) (acc, fn, sn) sibs).1.1.
Proof.
  revert sibs acc fn sn. induction path as [|h path IH]; intros sibs acc fn sn Hd Hb.
  { by injection Hd as <-. }
  cbn [decodeNodes] in Hd. cbn [fold_audit]. destruct (decode_node h) as [b|]; [|done].
  cbn [mbind option_bind] in *. destruct (decodeNodes path) as [bs|]; [|done].
  injection Hd as <-. cbn [foldl]. rewrite next_indices_z_eq, rem2_odd, eqb_of_nat by done.
  unfold istep at 2. pose proof (next_indices_le fn sn).
  destruct (next_indices fn sn) as [f s]. cbn [pair_Z fst snd] in *. apply IH; [done|lia].
Qed.

Lemma fold_audit_bad path acc fn sn : decodeNodes path = None -> fold_audit acc fn sn path = None.
Proof.
  revert acc fn sn. induction path as [|h path IH]; intros acc fn sn; [done|].
  cbn [decodeNodes fold_audit]. destruct (decode_node h) as [b|]; [|done]. cbn [mbind option_bind].
  destruct (decodeNodes path) as [bs|]; [done|]. intros _. destruct (next_indices_z fn sn). by apply IH.
Qed.

Definition conv (st : digest * digest * nat * nat) : digest * digest * Z * Z :=
  let '(fr, sr, fn, sn) := st in (fr, sr, Z.of_nat fn, Z.of_nat sn).

Lemma fold_consistency_eq nodes fr sr fn sn :
  (Z.of_nat fn < 2 ^ 63)%Z ->
  fold_consistency fr sr (Z.of_nat fn) (Z.of_nat sn) nodes =
  option_map conv (csteps merkleNodeHash (fr, sr, fn, sn) nodes).
Proof.
  revert fr sr fn sn. induction nodes as [|x nodes IH]; intros fr sr fn sn Hb; [done|].
  cbn [fold_consistency csteps]. unfold cstep. change 0%Z with (Z.of_nat 0). rewrite eqb_of_nat.
  destruct (sn =? 0)%nat; [done|]. rewrite next_indices_z_eq, rem2_odd, eqb_of_nat by done.
  pose proof (next_indices_le fn sn). destruct (next_indices fn sn) as [f s]. cbn [pair_Z fst snd] in *.
  destruct (Nat.odd fn || (fn =? sn)%nat); apply IH; lia.
Qed.

(** ** Digests have [Size] bytes *)

Definition sized (d : digest) : Prop := String.length d = Size.

Lemma merkleLeafHash_sized e : sized (merkleLeafHash e).
Proof. apply sha256_length. Qed.
Lemma merkleNodeHash_sized l r : sized (merkleNodeHash l r).
Proof. apply sha256_length. Qed.

Lemma decode_node_encode d : sized d -> decode_node (hex_encode d) = Some d.
Proof. intros H. unfold decode_node. rewrite hex_decode_encode, H. done. Qed.

Lemma decode_node_sized h d : decode_node h = Some d -> sized d.
Proof.
  unfold decode_node. destruct (hex_decode h); [|done]. destruct (Nat.eqb_spec (String.length s) Size); [|done].
  by intros [= <-].
Qed.

Lemma decodeNodes_encode l : Forall sized l -> decodeNodes (map hex_encode l) = Some l.
Proof.
  induction 1 as [|d l Hd Hl IH]; [done|]. cbn [map decodeNodes]. by rewrite decode_node_encode, IH.
Qed.

Lemma decodeNodes_sized path l : decodeNodes path = Some l -> Forall sized l /\ List.length l = List.length path.
Proof.
  revert l. induction path as [|h path IH]; intros l; cbn [decodeNodes]; [by intros [= <-]|].
  destruct (decode_node h) as [b|] eqn:Hb; [|done]. cbn [mbind option_bind].
  destruct (decodeNodes path) as [bs|]; [|done]. intros [= <-]. destruct (IH bs eq_refl) as [H1 H2].
  split; [constructor; [by eapply decode_node_sized|done]|cbn; lia].
Qed.

Definition sized_tree (t : MerkleTree.tree digest) : Prop := Forall sized (leaves t).

Lemma hash_sized t : sized_tree t -> sized (hash merkleNodeHash t).
Proof.
  destruct t; intros H; [|apply merkleNodeHash_sized]. by apply Forall_inv in H.
Qed.

Lemma sized_tree_B t1 t2 : sized_tree (B t1 t2) <-> sized_tree t1 /\ sized_tree t2.
Proof. unfold sized_tree. cbn [leaves]. by rewrite Forall_app. Qed.

Lemma shape_sized es : es <> [] -> sized_tree (shape es).
Proof.
  intros H. unfold sized_tree, shape. rewrite tree_of_leaves by by destruct es.
  apply Forall_forall. intros d (e & -> & _)%list_elem_of_fmap. apply merkleLeafHash_sized.
Qed.

Lemma shape_size es : es <> [] -> size (shape es) = List.length es.
Proof.
  intros H. unfold shape. rewrite tree_of_size by by destruct es. unfold computeLeafHashes. apply length_map.
Qed.

Lemma audit_sized t m : sized_tree t -> Forall sized (audit merkleNodeHash t m).
Proof.
  revert m. induction t as [d|t1 IH1 t2 IH2]; intros m H; cbn [audit]; [constructor|].
  apply sized_tree_B in H as [H1 H2].
  case_match; apply Forall_app; (split; [auto|repeat constructor; by apply hash_sized]).
Qed.

Lemma recon_sized t m acc rp :
  sized acc -> Forall sized rp -> sized (recon merkleNodeHash t m acc rp).
Proof.
  intros Ha. destruct t as [d|t1 t2], rp as [|s rp]; cbn [recon]; try done. intros _.
  case_match; apply merkleNodeHash_sized.
Qed.

Definition sized_pair (p : digest * digest) : Prop := sized p.1 /\ sized p.2.

Lemma recon_inputs_sized t m acc rp :
  sized acc -> Forall sized rp -> Forall sized_pair (recon_inputs merkleNodeHash t m acc rp).
Proof.
  intros Ha. revert m rp. induction t as [d|t1 IH1 t2 IH2]; intros m rp Hr; cbn [recon_inputs]; [constructor|].
  destruct rp as [|s rp]; [constructor|]. inversion Hr; subst.
  case_match; (constructor; [split; cbn; [try by apply recon_sized|try by apply recon_sized]; done|auto]).
Qed.

Lemma tree_inputs_sized t : sized_tree t -> Forall sized_pair (tree_inputs merkleNodeHash t).
Proof.
  induction t as [d|t1 IH1 t2 IH2]; intros H; cbn [tree_inputs]; [constructor|].
  apply sized_tree_B in H as [H1 H2]. constructor; [split; by apply hash_sized|].
  apply Forall_app. auto.
Qed.

(** Collision freedom of the digested inputs is injectivity of the node hash on them. *)
Lemma collision_free_node_inj ps :
  Forall sized_pair ps -> CollisionFree (map node_input ps) -> node_inj merkleNodeHash ps.
Proof.
  intros Hs Hcf [l r] [l' r'] Hp Hq E. rewrite Forall_forall in Hs.
  pose proof (Hs _ Hp) as [H1 _]. pose proof (Hs _ Hq) as [H1' _]. cbn [fst snd] in *.
  assert (Ei : node_input (l, r) = node_input (l', r')).
  { apply Hcf; [by apply (list_elem_of_fmap_2 node_input)..|done]. }
  injection Ei as Ei. unfold sized in *. apply string_app_inj_len in Ei as [-> ->]; [done|congruence].
Qed.

(** ** Inclusion proofs *)

Lemma log2_up_62 n : (1 <= n)%nat -> (Z.of_nat n <= 2 ^ 62)%Z -> (Nat.log2_up n <= 62)%nat.
Proof.
  intros H1 H2. apply Nat.log2_up_le_pow2; [lia|]. apply Nat2Z.inj_le. by rewrite pow2_Z.
Qed.

Lemma shape_rfc es : es <> [] -> rfc (Nat.log2_up (List.length es)) (shape es).
Proof.
  intros H. pose proof (tree_of_rfc zero_digest (computeLeafHashes es)) as Hr.
  unfold computeLeafHashes in Hr. rewrite length_map in Hr. apply Hr. by destruct es.
Qed.

Lemma inclusionPathLen_eq es m :
  es <> [] -> (m < List.length es)%nat -> (len es <= 2 ^ 62)%Z ->
  inclusionPathLen (Z.of_nat m) (len es) = Some (Z.of_nat (depth (shape es) m)).
Proof.
  intros H1 H2 H3. unfold len in *. rewrite <-(shape_size es) by done.
  eapply inclusionPathLen_f_eq; [by apply shape_rfc|by rewrite shape_size..|].
  pose proof (log2_up_62 (List.length es)). lia.
Qed.

(** The value the loop of [VerifyInclusion] ends with. *)
Lemma fold_audit_recon es m acc path sibs :
  es <> [] -> (m < List.length es)%nat -> (len es <= 2 ^ 62)%Z ->
  decodeNodes path = Some sibs -> List.length sibs = depth (shape es) m ->
  fold_audit acc (Z.of_nat m) (len es - 1)%Z path = Some (recon merkleNodeHash (shape es) m acc (rev sibs)).
Proof.
  intros H1 H2 H3 Hd Hl. unfold len in *.
  replace (Z.of_nat (List.length es) - 1)%Z with (Z.of_nat (List.length es - 1)) by lia.
  rewrite (fold_audit_eq _ _ _ _ _ Hd) by lia. rewrite <-(rev_involutive sibs) at 1.
  pose proof (fold_istep_edge merkleNodeHash _ (shape es) m acc (rev sibs) 0 (shape_rfc es H1)) as E.
  rewrite shape_size in E by done. cbn [Nat.mul Nat.add] in E. rewrite E; [done|done|by rewrite length_rev].
Qed.

Lemma leaf_shape es m e : es !! m = Some e -> leaf zero_digest (shape es) m = merkleLeafHash e.
Proof.
  intros H. assert (es <> []) by by destruct es. unfold leaf, shape.
  rewrite tree_of_leaves by by destruct es. unfold computeLeafHashes.
  apply lookup_lt_Some in H as Hl. rewrite nth_indep with (d' := merkleLeafHash e) by by rewrite length_map.
  rewrite map_nth. f_equal. by apply nth_lookup_Some.
Qed.

(** The proof built is accepted. *)
Lemma inclusion_complete es i e
  (Hi : es !! i = Some e) (Hlen : (len es <= 2 ^ 62)%Z) :
  exists root p, MerkleRoot es = Some root /\ InclusionProof es (Z.of_nat i) = Some (inr p) /\
    VerifyInclusion e p root = Some true.
Proof.
  apply lookup_lt_Some in Hi as Hl. assert (Hne : es <> []) by by destruct es.
  eexists _, _. split; [by apply MerkleRoot_eq|].
  unfold InclusionProof. assert (H0 : (len es =? 0)%Z = false) by (apply Z.eqb_neq; unfold len; lia).
  assert (Hrange : ((Z.of_nat i <? 0) || (len es <=? Z.of_nat i))%Z = false)
    by (apply orb_false_iff; split; [apply Z.ltb_ge|apply Z.leb_gt]; unfold len; lia).
  rewrite H0, Hrange. unfold inclusionPath.
  rewrite inclusionPath_f_eq; [|by destruct es|unfold computeLeafHashes, len in *; rewrite ?length_map; lia..].
  cbn [mbind option_bind]. split; [done|]. fold (shape es).
  unfold VerifyInclusion. cbn [ip_TreeSize ip_LeafIndex ip_AuditPath].
  assert (((len es <=? 0) || (Z.of_nat i <? 0) || (len es <=? Z.of_nat i))%Z = false) as ->.
  { rewrite <-orb_assoc, Hrange, orb_false_r. apply Z.leb_gt. unfold len. lia. }
  rewrite inclusionPathLen_eq by done. cbn [mbind option_bind].
  assert ((len (map hex_encode (audit merkleNodeHash (shape es) i)) =? Z.of_nat (depth (shape es) i))%Z = true) as ->.
  { apply Z.eqb_eq. unfold len. by rewrite length_map, audit_length. }
  cbn [negb]. erewrite fold_audit_recon; [|done..| |by rewrite audit_length].
  2:{ apply decodeNodes_encode, audit_sized. by apply shape_sized. }
  rewrite <-(leaf_shape es i e) by done. rewrite recon_audit by by rewrite shape_size.
  by rewrite String.eqb_refl.
Qed.

(** Completeness of inclusion.  For every entry of a log of up to 2^62 entries, the proof
    that [InclusionProof] builds is accepted by [VerifyInclusion] against the root that
    [MerkleRoot] computes; all three return. *)
Theorem VerifyInclusion_complete es i e
  (Hi : es !! i = Some e) (Hlen : (len es <= 2 ^ 62)%Z) :
  exists root p, MerkleRoot es = Some root /\ InclusionProof es (Z.of_nat i) = Some (inr p) /\
    VerifyInclusion e p root = Some true.
Proof. by apply inclusion_complete. Qed.

Example VerifyInclusion_complete_witness :
  exists root p, MerkleRoot log5 = Some root /\ InclusionProof log5 (Z.of_nat 4) = Some (inr p) /\
    VerifyInclusion (log_entry "ee") p root = Some true.
Proof. apply VerifyInclusion_complete; [reflexivity|done]. Defined.

(** The inputs the tree over [es] digests. *)
Definition tree_digested (es : list HarnessLedgerEntry) : list string :=
  map leaf_input es ++ map node_input (tree_inputs merkleNodeHash (shape es)).

(** The inputs [VerifyInclusion] digests on the siblings [sibs]. *)
Definition inclusion_digested (es : list HarnessLedgerEntry) (e : HarnessLedgerEntry) (m : nat)
    (sibs : list digest) : list string :=
  leaf_input e :: map node_input (recon_inputs merkleNodeHash (shape es) m (merkleLeafHash e) (rev sibs)).

(** A proof that states the size of the log. *)
Lemma inclusion_sized_sound es e p root sibs
  (Hroot : MerkleRoot es = Some root) (Hlen : (len es <= 2 ^ 62)%Z)
  (Hsize : ip_TreeSize p = len es) (Hsibs : decodeNodes (ip_AuditPath p) = Some sibs)
  (Hcf : CollisionFree (tree_digested es ++ inclusion_digested es e (Z.to_nat (ip_LeafIndex p)) sibs))
  (Hv : VerifyInclusion e p root = Some true) :
  exists e' q, es !! Z.to_nat (ip_LeafIndex p) = Some e' /\ leaf_data e' = leaf_data e /\
    InclusionProof es (ip_LeafIndex p) = Some (inr q) /\ decodeNodes (ip_AuditPath q) = Some sibs.
Proof.
  unfold VerifyInclusion in Hv. rewrite Hsize in Hv.
  destruct ((len es <=? 0) || (ip_LeafIndex p <? 0) || (len es <=? ip_LeafIndex p))%Z eqn:Hr; [done|].
  pose proof Hr as Hr'. rewrite !orb_false_iff, Z.leb_gt, Z.ltb_ge, Z.leb_gt in Hr'. destruct Hr' as [[Hn H0] H1].
  set (m := Z.to_nat (ip_LeafIndex p)) in *. assert (Em : ip_LeafIndex p = Z.of_nat m) by (subst m; lia).
  assert (Hm : (m < List.length es)%nat) by (unfold len in *; lia).
  assert (Hne : es <> []) by (apply nonempty_len; lia).
  rewrite Em, inclusionPathLen_eq in Hv by done. cbn [mbind option_bind] in Hv.
  destruct (Z.eqb_spec (len (ip_AuditPath p)) (Z.of_nat (depth (shape es) m))) as [Hl|]; [|done].
  cbn [negb] in Hv. destruct (decodeNodes_sized _ _ Hsibs) as [Hss Hsl].
  assert (Hd : List.length sibs = depth (shape es) m) by (unfold len in Hl; lia).
  rewrite (fold_audit_recon es m _ _ _ Hne Hm Hlen Hsibs Hd) in Hv.
  rewrite MerkleRoot_eq in Hroot by done. injection Hroot as <-.
  injection Hv as Hv. apply String.eqb_eq, hex_encode_inj in Hv.
  assert (Hs : sized_tree (shape es)) by by apply shape_sized.
  destruct (recon_sound merkleNodeHash zero_digest (shape es) m (merkleLeafHash e) (rev sibs)) as [Ha Hp].
  - by rewrite shape_size.
  - by rewrite length_rev.
  - apply collision_free_node_inj.
    + apply Forall_app. split; [|by apply tree_inputs_sized].
      apply recon_inputs_sized; [apply merkleLeafHash_sized|by apply Forall_rev].
    + eapply CollisionFree_mono, Hcf. rewrite map_app. unfold tree_digested, inclusion_digested. set_solver-.
  - done.
  - destruct (lookup_lt_is_Some_2 es m Hm) as [e' He']. rewrite (leaf_shape es m e' He') in Ha.
    assert (Hli : leaf_input e = leaf_input e').
    { apply Hcf; [unfold inclusion_digested; set_solver-| |done]. unfold tree_digested.
      do 2 (apply elem_of_app; left). apply (list_elem_of_fmap_2 leaf_input). by eapply list_elem_of_lookup_2. }
    injection Hli as Hli. eexists e', _. split; [done|]. split; [done|].
    assert (Hpath : rev (rev sibs) = rev (rev (audit merkleNodeHash (shape es) m))) by by rewrite Hp.
    rewrite !rev_involutive in Hpath.
    unfold InclusionProof. rewrite !orb_false_iff in Hr. destruct Hr as [[Hr1 Hr2] Hr3].
    assert ((len es =? 0)%Z = false) as -> by (apply Z.eqb_neq; lia). rewrite Hr2, Hr3. cbn [orb].
    unfold inclusionPath. rewrite Em, inclusionPath_f_eq;
      [|by destruct es|unfold computeLeafHashes, len in *; rewrite ?length_map; lia..].
    cbn [mbind option_bind]. split; [done|]. cbn [ip_AuditPath]. fold (shape es). rewrite <-Hpath.
    by apply decodeNodes_encode.
Qed.

(** Whatever size a proof states: the pairs of hashes that the loop of [VerifyInclusion] digests. *)
Fixpoint audit_pairs (acc : digest) (fn sn : Z) (path : list string) : list (digest * digest) :=
  match path with
  | [] => []
  | sibHex :: rest =>
      match decode_node sibHex with
      | None => []
      | Some sib =>
          let pair := if ((Z.rem fn 2 =? 1) || (fn =? sn))%Z then (sib, acc) else (acc, sib) in
          let '(fn, sn) := next_indices_z fn sn in
          pair :: audit_pairs (merkleNodeHash pair.1 pair.2) fn sn rest
      end
  end.

(** The inputs digested for the root of a log, the empty one included, and by [VerifyInclusion]. *)
Definition log_digested (es : list HarnessLedgerEntry) : list string := match es with [] => [""] | _ => tree_digested es end.
Definition audit_digested (e : HarnessLedgerEntry) (p : MerkleInclusionProof) : list string :=
  leaf_input e :: map node_input (audit_pairs (merkleLeafHash e) (ip_LeafIndex p) (ip_TreeSize p - 1)%Z (ip_AuditPath p)).

Fixpoint subtrees (t : tree digest) : list (tree digest) := t :: match t with L _ => [] | B t1 t2 => subtrees t1 ++ subtrees t2 end.

Lemma subtrees_leaf t d : L d ∈ subtrees t -> d ∈ leaves t.
Proof.
  induction t as [x|t1 IH1 t2 IH2]; cbn [subtrees leaves]; rewrite elem_of_cons; [intros [[= ->]|[]%not_elem_of_nil]; by left|].
  intros [[=]|[H|H]%elem_of_app]; apply elem_of_app; auto.
Qed.

Lemma subtrees_node t a b : B a b ∈ subtrees t ->
  a ∈ subtrees t /\ b ∈ subtrees t /\ (hash merkleNodeHash a, hash merkleNodeHash b) ∈ tree_inputs merkleNodeHash t.
Proof.
  assert (Hself : forall t, t ∈ subtrees t) by (intros []; by left).
  induction t as [x|t1 IH1 t2 IH2]; cbn [subtrees tree_inputs]; rewrite elem_of_cons; [intros [[=]|[]%not_elem_of_nil]|].
  intros [[= -> ->]|[H|H]%elem_of_app].
  - split_and!; [right; apply elem_of_app; by left|right; apply elem_of_app; by right|by left].
  - destruct (IH1 H) as (H1 & H2 & H3). split_and!; right; apply elem_of_app; by left.
  - destruct (IH2 H) as (H1 & H2 & H3). split_and!; right; apply elem_of_app; by right.
Qed.

Lemma node_pair (b : bool) sib acc :
  (if b then merkleNodeHash sib acc else merkleNodeHash acc sib) =
    merkleNodeHash (if b then (sib, acc) else (acc, sib)).1 (if b then (sib, acc) else (acc, sib)).2.
Proof. by destruct b. Qed.

(** What the loop starts from is the hash of a part of the tree whose hash it ends with. *)
Lemma audit_member es path acc fn sn : es <> [] -> sized acc ->
  CollisionFree (tree_digested es ++ map node_input (audit_pairs acc fn sn path)) ->
  fold_audit acc fn sn path = Some (hash merkleNodeHash (shape es)) -> exists t, t ∈ subtrees (shape es) /\ acc = hash merkleNodeHash t.
Proof.
  intros Hne. revert acc fn sn. induction path as [|h path IH]; intros acc fn sn Ha Hcf; cbn [fold_audit].
  { intros [= ->]. exists (shape es). split; [by destruct (shape es); left|done]. }
  cbn [audit_pairs] in Hcf. destruct (decode_node h) as [sib|] eqn:Eh; [|done]. cbn [mbind option_bind]. apply decode_node_sized in Eh. rewrite node_pair.
  set (pair := if ((Z.rem fn 2 =? 1) || (fn =? sn))%Z then (sib, acc) else (acc, sib)) in *. destruct (next_indices_z fn sn) as [fn' sn']. intros Hf.
  destruct (IH (merkleNodeHash pair.1 pair.2) fn' sn') as (t & Ht & E); [apply merkleNodeHash_sized| |exact Hf|].
  { eapply CollisionFree_mono, Hcf. cbn [map]. set_solver-. }
  assert (Hin : node_input pair ∈ (tree_digested es ++ map node_input (pair :: audit_pairs (merkleNodeHash pair.1 pair.2) fn' sn' path))%list)
    by (apply elem_of_app; right; by left).
  destruct t as [d|a b].
  - apply subtrees_leaf in Ht. unfold shape in Ht. rewrite tree_of_leaves in Ht by by destruct es.
    apply list_elem_of_fmap in Ht as (e & -> & He). cbn [hash] in E.
    assert (Hl : leaf_input e ∈ (tree_digested es ++ map node_input (pair :: audit_pairs (merkleNodeHash pair.1 pair.2) fn' sn' path))%list).
    { apply elem_of_app. left. apply elem_of_app. left. by apply (list_elem_of_fmap_2 leaf_input). }
    by pose proof (Hcf _ _ Hin Hl E).
  - apply subtrees_node in Ht as (H1 & H2 & H3). cbn [hash] in E.
    assert (Hl : node_input (hash merkleNodeHash a, hash merkleNodeHash b) ∈ (tree_digested es ++ map node_input (pair :: audit_pairs (merkleNodeHash pair.1 pair.2) fn' sn' path))%list).
    { apply elem_of_app. left. apply elem_of_app. right. by apply (list_elem_of_fmap_2 node_input). }
    pose proof (Hcf _ _ Hin Hl E) as Ei. injection Ei as Ei.
    assert (Hs1 : sized pair.1) by (subst pair; by destruct (_ || _)).
    pose proof (tree_inputs_sized _ (shape_sized es Hne)) as HT. rewrite Forall_forall in HT. destruct (HT _ H3) as [Hs2 _]. cbn [fst snd] in *.
    unfold sized in *. apply string_app_inj_len in Ei as [E1 E2]; [|congruence].
    subst pair. destruct ((Z.rem fn 2 =? 1) || (fn =? sn))%Z; cbn [fst snd] in *; [by exists b|by exists a].
Qed.

(** What the loop ends with is the digest of an input that is not empty. *)
Lemma audit_digest out path x acc fn sn : acc = sha256 x -> x <> "" -> fold_audit acc fn sn path = Some out ->
  exists y, y ∈ x :: map node_input (audit_pairs acc fn sn path) /\ y <> "" /\ sha256 y = out.
Proof.
  revert x acc fn sn. induction path as [|h path IH]; intros x acc fn sn Hx Hxe; cbn [fold_audit audit_pairs].
  - intros [= ->]. exists x. split; [by left|done].
  - destruct (decode_node h) as [sib|]; [|done]. cbn [mbind option_bind]. rewrite node_pair.
    set (pair := if ((Z.rem fn 2 =? 1) || (fn =? sn))%Z then (sib, acc) else (acc, sib)).
    destruct (next_indices_z fn sn) as [fn' sn']. intros Hf.
    destruct (IH (node_input pair) (merkleNodeHash pair.1 pair.2) fn' sn') as (y & Hy & Hye & E); [by destruct pair|done|exact Hf|].
    exists y. split; [right; cbn [map]; exact Hy|done].
Qed.

Lemma inclusion_member es e p root : MerkleRoot es = Some root -> (len es <= 2 ^ 62)%Z ->
  CollisionFree (log_digested es ++ audit_digested e p) -> VerifyInclusion e p root = Some true ->
  exists i e', es !! i = Some e' /\ leaf_data e' = leaf_data e.
Proof.
  intros Hroot Hlen Hcf Hv. unfold VerifyInclusion in Hv. destruct (_ || _ || _)%Z; [done|]. destruct (inclusionPathLen _ _) as [n|]; [|done].
  cbn [mbind option_bind] in Hv. destruct (negb _); [done|]. destruct (fold_audit _ _ _ _) as [acc|] eqn:Ef; [|done].
  injection Hv as Hv. apply String.eqb_eq in Hv. destruct (decide (es = [])) as [->|Hne].
  - exfalso. rewrite MerkleRoot_empty in Hroot. injection Hroot as <-.
    assert (He : EmptyMerkleRoot = hex_encode (sha256 "")) by (vm_compute; reflexivity). rewrite He in Hv. apply hex_encode_inj in Hv. subst acc.
    destruct (audit_digest (sha256 "") (ip_AuditPath p) (leaf_input e) (merkleLeafHash e) (ip_LeafIndex p) (ip_TreeSize p - 1)%Z) as (x & Hx & Hxe & E);
      [done|done|exact Ef|].
    apply Hxe, Hcf; [apply elem_of_app; by right|apply elem_of_app; left; by left|exact E].
  - rewrite MerkleRoot_eq in Hroot by done. injection Hroot as <-. apply hex_encode_inj in Hv. subst acc.
    assert (Hld : log_digested es = tree_digested es) by by destruct es. rewrite Hld in Hcf.
    destruct (audit_member es (ip_AuditPath p) (merkleLeafHash e) (ip_LeafIndex p) (ip_TreeSize p - 1)%Z Hne (merkleLeafHash_sized e)) as (t & Ht & E); [|exact Ef|].
    { eapply CollisionFree_mono, Hcf. unfold audit_digested. set_solver-. }
    assert (Hin : leaf_input e ∈ (tree_digested es ++ audit_digested e p)%list) by (apply elem_of_app; right; by left).
    destruct t as [d|a b].
    + apply subtrees_leaf in Ht. unfold shape in Ht. rewrite tree_of_leaves in Ht by by destruct es.
      apply list_elem_of_fmap in Ht as (e' & -> & He). cbn [hash] in E. apply list_elem_of_lookup in He as [i Hi].
      assert (Hl : leaf_input e' ∈ (tree_digested es ++ audit_digested e p)%list).
      { do 2 (apply elem_of_app; left). apply (list_elem_of_fmap_2 leaf_input). by eapply list_elem_of_lookup_2. }
      pose proof (Hcf _ _ Hin Hl E) as Ei. injection Ei as Ei. by exists i, e'.
    + exfalso. apply subtrees_node in Ht as (_ & _ & H3). cbn [hash] in E.
      assert (Hl : node_input (hash merkleNodeHash a, hash merkleNodeHash b) ∈ (tree_digested es ++ audit_digested e p)%list).
      { apply elem_of_app. left. apply elem_of_app. right. by apply (list_elem_of_fmap_2 node_input). }
      by pose proof (Hcf _ _ Hin Hl E).
Qed.

(** C30: soundness of inclusion.  An entry that [VerifyInclusion] accepts against the root of a log,
    whatever index and size the proof states, has the leaf data of some entry of that log,
    unless two of the inputs digested collide.  When the proof states the size of the log, that
    entry is the one at the index it states, and its audit path is the genuine one.  (The
    verifier has no size but the stated one: with another, the entry is in the log but the index
    may be wrong, see [index_of_wrong_size].) *)
Theorem VerifyInclusion_sound es e p root
  (Hroot : MerkleRoot es = Some root) (Hlen : (len es <= 2 ^ 62)%Z) (Hv : VerifyInclusion e p root = Some true) :
  (CollisionFree (log_digested es ++ audit_digested e p) -> exists i e', es !! i = Some e' /\ leaf_data e' = leaf_data e) /\
  (forall sibs, ip_TreeSize p = len es -> decodeNodes (ip_AuditPath p) = Some sibs ->
     CollisionFree (tree_digested es ++ inclusion_digested es e (Z.to_nat (ip_LeafIndex p)) sibs) ->
     exists e' q, es !! Z.to_nat (ip_LeafIndex p) = Some e' /\ leaf_data e' = leaf_data e /\
       InclusionProof es (ip_LeafIndex p) = Some (inr q) /\ decodeNodes (ip_AuditPath q) = Some sibs).
Proof.
  split; [intros Hcf; by apply (inclusion_member es e p root)|]. intros sibs Hs Hd Hcf. by apply (inclusion_sized_sound es e p root).
Qed.

Definition log5_proof : MerkleInclusionProof :=
  match InclusionProof log5 4 with Some (inr p) => p | _ => mkInclusion 0 0 [] end.
Definition log5_root : string := default "" (MerkleRoot log5).
Definition log5_sibs : list digest := default [] (decodeNodes (ip_AuditPath log5_proof)).

Example VerifyInclusion_sound_witness :
  (exists i e', log5 !! i = Some e' /\ leaf_data e' = leaf_data (log_entry "ee")) /\
  exists e' q, log5 !! Z.to_nat (ip_LeafIndex log5_proof) = Some e' /\ leaf_data e' = leaf_data (log_entry "ee") /\
    InclusionProof log5 (ip_LeafIndex log5_proof) = Some (inr q) /\ decodeNodes (ip_AuditPath q) = Some log5_sibs.
Proof.
  destruct (VerifyInclusion_sound log5 (log_entry "ee") log5_proof log5_root) as [H1 H2].
  - vm_compute. reflexivity.
  - vm_compute. discriminate.
  - vm_compute. reflexivity.
  - split; [apply H1|apply H2].
    + apply collision_free_b_sound. vm_compute. reflexivity.
    + vm_compute. reflexivity.
    + vm_compute. reflexivity.
    + apply collision_free_b_sound. vm_compute. reflexivity.
Defined.

(** The verifier knows the size of a log only from the proof: one that states two entries for a log
    of three, with the hash of the first two as a sibling, is accepted for the third entry at the
    index of the second. *)
Definition log3 : list HarnessLedgerEntry := map log_entry ["aa"; "bb"; "cc"].
Definition pair_hash : string := default "" (MerkleRoot (take 2 log3)).
Example index_of_wrong_size :
  VerifyInclusion (log_entry "cc") (mkInclusion 1 2 [pair_hash]) (default "" (MerkleRoot log3)) = Some true /\
  log3 !! 1%nat = Some (log_entry "bb").
Proof. split; vm_compute; reflexivity. Qed.

(** What the leaf commits to.  The leaf is the [Hash] text of an entry and nothing else:
    an entry with any other content but the same [Hash], or with the letters of its
    hexadecimal [Hash] in the other case, has the same leaf, and so verifies under the
    same proofs and yields the same root. *)
Theorem merkleLeafHash_only_hash :
  (forall e e', leaf_data e = leaf_data e' -> merkleLeafHash e = merkleLeafHash e' /\
     forall p root, VerifyInclusion e p root = VerifyInclusion e' p root) /\
  (forall e summary, merkleLeafHash (e <| Summary := summary |>) = merkleLeafHash e) /\
  MerkleRoot [log_entry "AB"] = MerkleRoot [log_entry "ab"].
Proof.
  split_and!.
  - intros e e' H. assert (E : merkleLeafHash e = merkleLeafHash e').
    { unfold merkleLeafHash, leaf_input. by rewrite H. }
    split; [done|]. intros p root. unfold VerifyInclusion. by rewrite E.
  - intros e s. unfold merkleLeafHash, leaf_input, leaf_data. by destruct e.
  - vm_compute. reflexivity.
Qed.

(** ** Consistency proofs *)

Lemma subProof_f_eq fuel m l b :
  l <> [] -> (1 <= m <= List.length l)%nat -> (len l <= 2 ^ 62)%Z -> (List.length l < fuel)%nat ->
  subProof_f fuel (Z.of_nat m) l b = Some (sub_proof merkleNodeHash (tree_of zero_digest l) m b).
Proof.
  intros Hne. revert l Hne m b fuel. apply (split_ind (fun l => forall m b fuel,
    (1 <= m <= List.length l)%nat -> (len l <= 2 ^ 62)%Z -> (List.length l < fuel)%nat ->
    subProof_f fuel (Z.of_nat m) l b = Some (sub_proof merkleNodeHash (tree_of zero_digest l) m b))).
  - intros x m b [|f] Hm _ Hf; [lia|]. cbn in Hm. assert (m = 1)%nat as -> by lia. by destruct b.
  - intros l k H2 Hk Hb IH1 IH2 m b [|f] Hm Hl Hf; [lia|].
    destruct (split_slices l H2 Hl) as (k' & -> & _ & E1 & E2 & E3 & Hl1 & Hl2). rewrite <-Hk in *.
    assert (Hs : size (tree_of zero_digest l) = List.length l) by (apply tree_of_size, nonempty_len; lia).
    cbn [subProof_f]. change (len l) with (Z.of_nat (List.length l)) at 1. rewrite eqb_of_nat.
    destruct (Nat.eqb_spec m (List.length l)) as [->|Hml].
    + rewrite merkleTreeHash_eq by (done || apply nonempty_len; lia). cbn [mbind option_bind].
      rewrite <-Hs at 1. destruct (tree_of zero_digest l); cbn [sub_proof]; rewrite Nat.eqb_refl; by destruct b.
    + rewrite E1. cbn [mbind option_bind]. rewrite E2, E3.
      rewrite tree_of_split in Hs |- * by done. rewrite <-Hk in *. cbn [sub_proof]. rewrite Hs.
      rewrite tree_of_size by (apply nonempty_len; rewrite length_take; lia).
      rewrite length_take, Nat.min_l by lia. apply Nat.eqb_neq in Hml as Hmb. rewrite Hmb.
      rewrite !merkleTreeHash_eq; try done; try (apply nonempty_len; rewrite ?length_take, ?length_drop; lia).
      destruct (Nat.leb_spec m k) as [H|H].
      * assert ((Z.of_nat m <=? Z.of_nat k)%Z = true) as -> by lia.
        rewrite IH1 by (rewrite ?length_take; done || lia). done.
      * assert ((Z.of_nat m <=? Z.of_nat k)%Z = false) as -> by lia.
        rewrite <-Nat2Z.inj_sub by lia. rewrite IH2 by (rewrite ?length_drop; done || lia). done.
Qed.

Lemma tail_path_sized t m : sized_tree t -> Forall sized (tail_path merkleNodeHash t m).
Proof.
  revert m. induction t as [d|t1 IH1 t2 IH2]; intros m H; cbn [tail_path]; [case_match; constructor|].
  apply sized_tree_B in H as [H1 H2]. destruct (m =? size (B t1 t2))%nat; [constructor|].
  destruct (m <=? size t1)%nat; apply Forall_app; (split; [auto|by apply Forall_singleton, hash_sized]).
Qed.

Lemma base_sized t m : sized_tree t -> sized_tree (base t m).
Proof.
  revert m. induction t as [d|t1 IH1 t2 IH2]; intros m H; cbn [base]; [by case_match|].
  apply sized_tree_B in H as H'. destruct H' as [H1 H2]. repeat case_match; auto.
Qed.

(** What [VerifyConsistency] does between the range checks and its last test, for an
    old size strictly inside the log [es]: it always ends its first loop at the level of
    the base, reads the base's hash from the old root exactly when the base is the
    whole old tree, and then needs one node per remaining level. *)
Section Consistency.
Context (es : list HarnessLedgerEntry) (m : nat).
Hypothesis Hlen : (len es <= 2 ^ 62)%Z.
Hypothesis Hm : (1 <= m < List.length es)%nat.

Let t := shape es.

Lemma es_nonempty : es <> [].
Proof. apply nonempty_len. lia. Qed.

Lemma t_size : size t = List.length es.
Proof. apply shape_size, es_nonempty. Qed.

Lemma strip_start :
  exists f, strip_ones_z 64 (Z.of_nat m - 1)%Z (len es - 1)%Z =
      (Z.of_nat f, Z.of_nat ((List.length es - 1) / 2 ^ base_level t m)) /\
    f = (m / 2 ^ base_level t m - 1)%nat /\ ((Z.of_nat f =? 0)%Z = all_left t m) /\ (Z.of_nat f < 2 ^ 63)%Z.
Proof.
  destruct (strip_ones_start _ t m m (shape_rfc es es_nonempty)) as (f & E & Hf & H0);
    [rewrite t_size; lia|done|]. rewrite t_size in E.
  exists f. replace (Z.of_nat m - 1)%Z with (Z.of_nat (m - 1)) by lia.
  unfold len in *. replace (Z.of_nat (List.length es) - 1)%Z with (Z.of_nat (List.length es - 1)) by lia.
  rewrite strip_ones_z_eq, (strip_ones_fuel 64 m).
  - rewrite E. split_and!; [done|done| |].
    + change 0%Z with (Z.of_nat 0). rewrite eqb_of_nat.
      destruct (Nat.eqb_spec f 0) as [Hz|Hz], (all_left t m); naive_solver.
    + assert (f <= m)%nat by (subst f; pose proof (Nat.Div0.div_le_upper_bound m (2 ^ base_level t m) m);
        pose proof (Nat.pow_nonzero 2 (base_level t m)); nia). lia.
  - apply index_bound. lia.
  - pose proof (lt_pow2 m). lia.
Qed.

Lemma loop_result seed rp :
  List.length rp = tail_len t m ->
  csteps merkleNodeHash
    (seed, seed, (m / 2 ^ base_level t m - 1)%nat, ((List.length es - 1) / 2 ^ base_level t m)%nat) (rev rp) =
  Some (recon2 merkleNodeHash t m seed rp, 0%nat, 0%nat).
Proof.
  intros Hl. eapply (csteps_edge merkleNodeHash _ t m seed rp 0); [by apply shape_rfc, es_nonempty| |done|done|].
  - rewrite t_size. lia.
  - rewrite t_size. lia.
Qed.

(** The loop consumes one node per level, neither more nor fewer. *)
Lemma loop_length seed nodes fr sr fn :
  csteps merkleNodeHash
    (seed, seed, (m / 2 ^ base_level t m - 1)%nat, ((List.length es - 1) / 2 ^ base_level t m)%nat) nodes =
  Some (fr, sr, fn, 0%nat) -> List.length nodes = tail_len t m.
Proof.
  intros E. destruct (lt_eq_lt_dec (List.length nodes) (tail_len t m)) as [[Hlt|]|Hgt]; [exfalso|done|exfalso].
  - pose proof (loop_result seed (rev (nodes ++ repeat seed (tail_len t m - List.length nodes)))) as E'.
    rewrite rev_involutive, length_rev, length_app, repeat_length in E'. specialize (E' ltac:(lia)).
    destruct (tail_len t m - List.length nodes)%nat as [|d] eqn:Hd; [lia|]. cbn [repeat] in E'.
    rewrite (csteps_length merkleNodeHash _ _ _ _ E) in E'. done.
  - pose proof (loop_result seed (rev (take (tail_len t m) nodes))) as E'.
    rewrite rev_involutive, length_rev, length_take in E'. specialize (E' ltac:(lia)).
    rewrite <-(take_drop (tail_len t m) nodes) in E.
    destruct (drop (tail_len t m) nodes) as [|x q] eqn:Hd.
    + apply (f_equal List.length) in Hd. rewrite length_drop in Hd. cbn in Hd. lia.
    + rewrite (csteps_length merkleNodeHash _ _ (_, _) _ E') in E. done.
Qed.
End Consistency.

(** The seed of the running hashes and the proof nodes left for the loop. *)
(* src: pkg/contract/merkle.go 414-430 VerifyConsistency *)
Definition consistency_start (proof : MerkleConsistencyProof) (oldRoot : string) : digest * list digest :=
  match decodeNodes (cp_Path proof) with
  | Some ((p0 :: rest) as path) =>
      let '(fn, _) := strip_ones_z 64 (cp_OldSize proof - 1)%Z (cp_NewSize proof - 1)%Z in
      if (fn =? 0)%Z then (decodeRoot oldRoot, path) else (p0, rest)
  | _ => (zero_digest, [])
  end.

(** [VerifyConsistency] for an old size strictly inside the log. *)
Lemma VerifyConsistency_inside es m path oldRoot newRoot :
  (len es <= 2 ^ 62)%Z -> (1 <= m < List.length es)%nat ->
  let p := mkConsistency (Z.of_nat m) (len es) path in
  let '(seed, nodes) := consistency_start p oldRoot in
  VerifyConsistency p oldRoot newRoot = true <->
  match decodeNodes path with Some [] | None => False | Some _ => True end /\
  List.length nodes = tail_len (shape es) m /\
  hex_encode (recon2 merkleNodeHash (shape es) m seed (rev nodes)).1 = oldRoot /\
  hex_encode (recon2 merkleNodeHash (shape es) m seed (rev nodes)).2 = newRoot.
Proof.
  intros Hlen Hm p. destruct (strip_start es m Hlen Hm) as (f & Es & Hf & Ha & Hb).
  unfold consistency_start, VerifyConsistency, p. cbn [cp_OldSize cp_NewSize cp_Path].
  assert (((Z.of_nat m <? 0) || (len es <? 0) || (len es <? Z.of_nat m))%Z = false) as ->
    by (rewrite !orb_false_iff, !Z.ltb_ge; unfold len; lia).
  assert ((Z.of_nat m =? 0)%Z = false) as -> by lia.
  assert ((Z.of_nat m =? len es)%Z = false) as -> by (apply Z.eqb_neq; unfold len; lia).
  destruct (decodeNodes path) as [[|p0 rest]|];
    [by split; [|intros []]| |by split; [|intros []]].
  rewrite Es. destruct (if (Z.of_nat f =? 0)%Z then _ else _) as [seed nodes].
  rewrite fold_consistency_eq by done. rewrite Hf. clear Hf.
  pose proof (loop_length es m Hm seed nodes) as Hll.
  pose proof (loop_result es m Hm seed (rev nodes)) as Hlr.
  rewrite rev_involutive, length_rev in Hlr.
  destruct (csteps merkleNodeHash _ nodes) as [[[[fr sr] fn] sn]|] eqn:Ec; cbn [option_map conv].
  - rewrite !andb_true_iff, !String.eqb_eq, Z.eqb_eq. split.
    + intros [[Hz H1] H2]. assert (sn = 0%nat) as -> by lia. specialize (Hll _ _ _ eq_refl).
      specialize (Hlr Hll). injection Hlr as Hfs _. rewrite <-Hfs. done.
    + intros (_ & Hl & H1 & H2). specialize (Hlr Hl). injection Hlr as Hfs _ ->. rewrite <-Hfs in H1, H2. done.
  - split; [done|]. intros (_ & Hl & _). specialize (Hlr Hl). done.
Qed.

Lemma MerkleRoot_hex es : (len es <= 2 ^ 62)%Z -> exists root, MerkleRoot es = Some root /\ isHexSize root = true.
Proof.
  intros H. destruct es as [|e es]; [exists EmptyMerkleRoot; split; [apply MerkleRoot_empty|done]|].
  eexists. split; [by apply MerkleRoot_eq|]. unfold isHexSize. rewrite hex_decode_encode.
  apply Nat.eqb_eq. by apply hash_sized, shape_sized.
Qed.

Lemma MerkleRoot_take es m :
  (len es <= 2 ^ 62)%Z -> (1 <= m <= List.length es)%nat ->
  MerkleRoot (take m es) = Some (hex_encode (hash merkleNodeHash (trunc (shape es) m))).
Proof.
  intros H Hm. rewrite MerkleRoot_eq.
  - unfold shape. rewrite trunc_tree_of by (unfold computeLeafHashes; by rewrite length_map).
    unfold computeLeafHashes. by rewrite firstn_map.
  - apply nonempty_len. rewrite length_take. lia.
  - unfold len in *. rewrite length_take. lia.
Qed.

(** The path of [ConsistencyProof] for an old size strictly inside the log. *)
Lemma ConsistencyProof_inside es m :
  (len es <= 2 ^ 62)%Z -> (1 <= m < List.length es)%nat ->
  ConsistencyProof (Z.of_nat m) es =
  Some (inr (mkConsistency (Z.of_nat m) (len es) (map hex_encode (sub_proof merkleNodeHash (shape es) m true)))).
Proof.
  intros Hlen Hm. assert (Hne : es <> []) by (apply nonempty_len; lia). unfold ConsistencyProof.
  assert (((Z.of_nat m <? 0) || (len es <? Z.of_nat m))%Z = false) as ->
    by (rewrite orb_false_iff, !Z.ltb_ge; unfold len; lia).
  assert ((negb (Z.of_nat m =? 0) && negb (Z.of_nat m =? len es))%Z = true) as ->.
  { rewrite andb_true_iff, !negb_true_iff, !Z.eqb_neq. unfold len. lia. }
  unfold subProof. rewrite subProof_f_eq; [done|by destruct es|..];
    unfold computeLeafHashes, len in *; rewrite ?length_map; lia.
Qed.

Lemma sub_proof_sized t m b : (1 <= m <= size t)%nat -> sized_tree t -> Forall sized (sub_proof merkleNodeHash t m b).
Proof.
  intros Hm Hs. rewrite sub_proof_eq by done. apply Forall_app. split; [|by apply tail_path_sized].
  destruct (b && all_left t m); [constructor|]. by apply Forall_singleton, hash_sized, base_sized.
Qed.

(** The seed and the nodes the verifier reads from an honest proof. *)
Lemma consistency_start_honest es m :
  (len es <= 2 ^ 62)%Z -> (1 <= m < List.length es)%nat ->
  let t := shape es in
  consistency_start (mkConsistency (Z.of_nat m) (len es) (map hex_encode (sub_proof merkleNodeHash t m true)))
    (hex_encode (hash merkleNodeHash (trunc t m))) =
  (hash merkleNodeHash (base t m), tail_path merkleNodeHash t m).
Proof.
  intros Hlen Hm t. assert (Hne : es <> []) by (apply nonempty_len; lia).
  assert (Hb : (1 <= m < size t)%nat) by (unfold t; rewrite shape_size; [lia|done]).
  assert (Hs : sized_tree t) by by apply shape_sized.
  destruct (strip_start es m Hlen Hm) as (f & Es & _ & Ha & _). fold t in Ha.
  unfold consistency_start. cbn [cp_OldSize cp_NewSize cp_Path].
  rewrite decodeNodes_encode by (apply sub_proof_sized; [lia|done]).
  rewrite sub_proof_eq by lia. rewrite Es, Ha. cbn [andb].
  pose proof (tail_path_nonempty merkleNodeHash t m Hb) as Hp.
  destruct (all_left t m) eqn:Eal; cbn [app]; [|done].
  destruct (tail_path merkleNodeHash t m) as [|p0 rest]; [done|].
  rewrite trunc_base; [|lia|done]. unfold decodeRoot.
  rewrite decode_node_encode; [done|]. by apply hash_sized, base_sized.
Qed.

(** The proof built is accepted. *)
Lemma consistency_complete es m
  (Hm : (m <= List.length es)%nat) (Hlen : (len es <= 2 ^ 62)%Z) :
  exists oldRoot newRoot p,
    MerkleRoot (take m es) = Some oldRoot /\ MerkleRoot es = Some newRoot /\
    ConsistencyProof (Z.of_nat m) es = Some (inr p) /\ VerifyConsistency p oldRoot newRoot = true.
Proof.
  destruct (MerkleRoot_hex es Hlen) as (newRoot & Hnew & Hhex).
  unfold ConsistencyProof.
  assert (((Z.of_nat m <? 0) || (len es <? Z.of_nat m))%Z = false) as ->
    by (rewrite orb_false_iff, !Z.ltb_ge; unfold len; lia).
  destruct (Nat.eq_dec m 0) as [->|Hm0]; [|destruct (Nat.eq_dec m (List.length es)) as [->|Hmn]].
  - exists EmptyMerkleRoot, newRoot, (mkConsistency 0 (len es) []). split_and!; [apply MerkleRoot_empty|done|done|].
    unfold VerifyConsistency. cbn [cp_OldSize cp_NewSize cp_Path].
    assert (((0 <? 0) || (len es <? 0) || (len es <? 0))%Z = false) as ->
      by (rewrite !orb_false_iff, !Z.ltb_ge; unfold len; lia).
    change (0 =? 0)%Z with true. cbv iota. by rewrite String.eqb_refl.
  - rewrite firstn_all. exists newRoot, newRoot, (mkConsistency (len es) (len es) []).
    change (Z.of_nat (List.length es)) with (len es). rewrite Z.eqb_refl, andb_false_r.
    split_and!; [done|done|done|]. unfold VerifyConsistency. cbn [cp_OldSize cp_NewSize cp_Path].
    assert (((len es <? 0) || (len es <? 0) || (len es <? len es))%Z = false) as ->
      by (rewrite !orb_false_iff, !Z.ltb_ge; unfold len; lia).
    assert ((len es =? 0)%Z = false) as -> by (apply Z.eqb_neq; unfold len; lia).
    by rewrite Z.eqb_refl, String.eqb_refl.
  - assert (Hmi : (1 <= m < List.length es)%nat) by lia.
    assert (Hne : es <> []) by (apply nonempty_len; lia).
    pose proof (ConsistencyProof_inside es m Hlen Hmi) as Hp. unfold ConsistencyProof in Hp.
    assert (((Z.of_nat m <? 0) || (len es <? Z.of_nat m))%Z = false) as E
      by (rewrite orb_false_iff, !Z.ltb_ge; unfold len; lia).
    rewrite E in Hp. rewrite Hp. do 3 eexists.
    split_and!; [apply MerkleRoot_take; [done|lia]|done|done|].
    pose proof (consistency_start_honest es m Hlen Hmi) as Hc. cbn zeta in Hc.
    pose proof (VerifyConsistency_inside es m (map hex_encode (sub_proof merkleNodeHash (shape es) m true))
                  (hex_encode (hash merkleNodeHash (trunc (shape es) m))) newRoot Hlen Hmi) as Hv.
    cbn zeta in Hv. rewrite Hc in Hv. apply Hv.
    assert (Hb : (1 <= m < size (shape es))%nat) by (rewrite shape_size; [lia|done]).
    rewrite recon2_tail by lia. cbn [fst snd]. rewrite MerkleRoot_eq in Hnew by done. injection Hnew as <-.
    split_and!; [|by rewrite tail_path_length|done|done].
    rewrite decodeNodes_encode by (apply sub_proof_sized; [lia|by apply shape_sized]).
    rewrite sub_proof_eq by lia. pose proof (tail_path_nonempty merkleNodeHash _ _ Hb).
    destruct (tail_path merkleNodeHash (shape es) m); [done|]. by destruct (true && _).
Qed.

(** Completeness of consistency.  For every prefix of a log of up to 2^62 entries, the
    proof that [ConsistencyProof] builds is accepted by [VerifyConsistency] against the
    roots of the prefix and of the log. *)
Theorem VerifyConsistency_complete es m
  (Hm : (m <= List.length es)%nat) (Hlen : (len es <= 2 ^ 62)%Z) :
  exists oldRoot newRoot p,
    MerkleRoot (take m es) = Some oldRoot /\ MerkleRoot es = Some newRoot /\
    ConsistencyProof (Z.of_nat m) es = Some (inr p) /\ VerifyConsistency p oldRoot newRoot = true.
Proof. by apply consistency_complete. Qed.

Example VerifyConsistency_complete_witness :
  exists oldRoot newRoot p,
    MerkleRoot (take 3 log5) = Some oldRoot /\ MerkleRoot log5 = Some newRoot /\
    ConsistencyProof (Z.of_nat 3) log5 = Some (inr p) /\ VerifyConsistency p oldRoot newRoot = true.
Proof. apply VerifyConsistency_complete; [cbn; lia|done]. Defined.

(** The node inputs [VerifyConsistency] digests toward the new root. *)
Definition consistency_digested (es : list HarnessLedgerEntry) (p : MerkleConsistencyProof)
    (oldRoot : string) : list string :=
  let '(seed, nodes) := consistency_start p oldRoot in
  map node_input (recon2_inputs merkleNodeHash (shape es) (Z.to_nat (cp_OldSize p)) seed (rev nodes)).

Lemma recon2_sized t m seed rp :
  sized seed -> Forall sized rp -> sized (recon2 merkleNodeHash t m seed rp).2.
Proof.
  intros Hs. revert m rp. induction t as [d|t1 IH1 t2 IH2]; intros m rp Hr; cbn [recon2].
  - by case_match.
  - destruct (m =? size (B t1 t2))%nat; [done|]. destruct rp as [|s rp]; [done|].
    destruct (m <=? size t1)%nat; destruct (recon2 _ _ _ _ _); apply merkleNodeHash_sized.
Qed.

Lemma recon2_inputs_sized t m seed rp :
  sized seed -> Forall sized rp -> Forall sized_pair (recon2_inputs merkleNodeHash t m seed rp).
Proof.
  intros Hs. revert m rp. induction t as [d|t1 IH1 t2 IH2]; intros m rp Hr; cbn [recon2_inputs].
  - case_match; constructor.
  - destruct (m =? size (B t1 t2))%nat; [constructor|]. destruct rp as [|s rp]; [constructor|].
    inversion Hr; subst.
    destruct (m <=? size t1)%nat; (constructor; [split; cbn [fst snd]; auto using recon2_sized|auto]).
Qed.

Lemma consistency_start_sized p oldRoot :
  sized (consistency_start p oldRoot).1 /\ Forall sized (consistency_start p oldRoot).2.
Proof.
  unfold consistency_start. destruct (decodeNodes (cp_Path p)) as [[|p0 rest]|] eqn:Hd; try done.
  apply decodeNodes_sized in Hd as [Hs _]. destruct (strip_ones_z _ _ _) as [fn sn].
  destruct (fn =? 0)%Z; cbn [fst snd].
  - split; [|done]. unfold decodeRoot. destruct (decode_node oldRoot) eqn:E; [by eapply decode_node_sized|done].
  - by inversion Hs.
Qed.

(** C31: soundness of consistency, for a proof that states the size of the log.  If
    [VerifyConsistency] accepts it between an old root and the root of the log, then the old root
    is the root of the log's own prefix of the old size: no entry below it was rewritten,
    reordered or dropped, unless two of the inputs digested collide.  (The verifier has no size
    but the stated ones: what a proof with another new size shows is in [prefix_of_wrong_size].) *)
Theorem VerifyConsistency_sound es p oldRoot newRoot
  (Hroot : MerkleRoot es = Some newRoot) (Hlen : (len es <= 2 ^ 62)%Z) (Hsize : cp_NewSize p = len es)
  (Hcf : CollisionFree (tree_digested es ++ consistency_digested es p oldRoot))
  (Hv : VerifyConsistency p oldRoot newRoot = true) :
  MerkleRoot (take (Z.to_nat (cp_OldSize p)) es) = Some oldRoot.
Proof.
  destruct p as [old new path]. cbn [cp_NewSize cp_OldSize] in *. subst new.
  pose proof Hv as Hv'. unfold VerifyConsistency in Hv'. cbn [cp_OldSize cp_NewSize cp_Path] in Hv'.
  destruct ((old <? 0) || (len es <? 0) || (len es <? old))%Z eqn:Hr; [done|].
  rewrite !orb_false_iff, !Z.ltb_ge in Hr. destruct Hr as [[H0 _] Hle].
  destruct (Z.eqb_spec old 0) as [->|Hne0].
  { destruct path; [|done]. apply andb_true_iff in Hv' as [Ho _]. apply String.eqb_eq in Ho as ->.
    apply MerkleRoot_empty. }
  destruct (Z.eqb_spec old (len es)) as [->|Hnen].
  { destruct path; [|done]. apply andb_true_iff in Hv' as [Ho _]. apply String.eqb_eq in Ho as ->.
    unfold len. by rewrite Nat2Z.id, firstn_all. }
  clear Hv'. set (m := Z.to_nat old) in *. assert (Em : old = Z.of_nat m) by (subst m; lia).
  assert (Hm : (1 <= m < List.length es)%nat) by (unfold len in *; lia).
  assert (Hne : es <> []) by (apply nonempty_len; lia). rewrite Em in *.
  pose proof (VerifyConsistency_inside es m path oldRoot newRoot Hlen Hm) as Hin. cbn zeta in Hin.
  unfold consistency_digested in Hcf.
  destruct (consistency_start_sized (mkConsistency (Z.of_nat m) (len es) path) oldRoot) as [Hss Hsn].
  destruct (consistency_start (mkConsistency (Z.of_nat m) (len es) path) oldRoot) as [seed nodes].
  cbn [fst snd cp_OldSize] in *. rewrite Nat2Z.id in Hcf.
  destruct (proj1 Hin Hv) as (_ & Hl & Hold & Hnew). clear Hin Hv.
  rewrite MerkleRoot_eq in Hroot by done. injection Hroot as <-. apply hex_encode_inj in Hnew.
  rewrite MerkleRoot_take by (done || lia). f_equal. rewrite <-Hold. f_equal. symmetry.
  assert (Hst : sized_tree (shape es)) by by apply shape_sized.
  apply recon2_sound; [rewrite shape_size by done; lia|by rewrite length_rev| |done].
  apply collision_free_node_inj.
  - apply Forall_app. split; [apply recon2_inputs_sized; [done|by apply Forall_rev]|by apply tree_inputs_sized].
  - eapply CollisionFree_mono, Hcf. rewrite map_app. unfold tree_digested. set_solver-.
Qed.

Definition log5_consistency : MerkleConsistencyProof :=
  match ConsistencyProof 3 log5 with Some (inr p) => p | _ => mkConsistency 0 0 [] end.
Definition log3_root : string := default "" (MerkleRoot (take 3 log5)).

Example VerifyConsistency_sound_witness :
  MerkleRoot (take (Z.to_nat (cp_OldSize log5_consistency)) log5) = Some log3_root.
Proof.
  apply (VerifyConsistency_sound log5 log5_consistency log3_root log5_root).
  1,3,5: vm_compute; reflexivity.
  - vm_compute. discriminate.
  - apply collision_free_b_sound. vm_compute. reflexivity.
Defined.

(** A proof that states a log of two entries, with the hash of the third as its path, is accepted
    between the hash of the first two entries and the root of all three: the old root is that of
    the first two entries, while the proof says that it is that of one. *)
Example prefix_of_wrong_size :
  let p := mkConsistency 1 2 [hex_encode (merkleLeafHash (log_entry "cc"))] in
  VerifyConsistency p pair_hash (default "" (MerkleRoot log3)) = true /\
  String.eqb (default "" (MerkleRoot (take 1 log3))) pair_hash = false.
Proof. split; vm_compute; reflexivity. Qed.
