(* ===== verification/Rally.v ===== *)
(** * Rally: baton passing

    [internal/broker/rally.go] and the rally tools of [internal/broker/mcp.go]: the
    store of sessions, the creation, join, done, status and interrupt operations with
    the locked section of each handler as one step, the buffered event channels, the
    goroutines that read them, and the closing of channels outside the lock.

    A channel is a location of a heap ([chans]) with a buffer of one event; the
    operations return [None] where Go panics (send on a closed channel, close of a
    closed channel).  Clock readings and random bytes are arguments. *)

From S2P Require Import Prelude GoStrings Json Codec Contract Merkle.
From Stdlib Require Import Ascii String.
#[local] Open Scope string_scope.

(** ** State *)

(** A [chan contract.BatonEvent] of capacity 1. *)
Record Chan := mkChan { ch_buf : option BatonEvent; ch_closed : bool }.
#[export] Instance eta_Chan : Eta Chan := fun r => mkChan (ch_buf r) (ch_closed r).

(* src: internal/broker/rally.go 38-60 rallySession *)
Record rallySession := mkRally {
  rl_id : string; rl_participants : list string; rl_repo : string; rl_task : string;
  rl_pattern : Pattern; rl_holder : string; rl_turnN : Z; rl_status : string;
  rl_lastSeen : gmap string Z; rl_history : list BatonHandoff; rl_createdAt : Z;
  rl_streams : gmap string nat; rl_staleThreshold : Z }.
#[export] Instance eta_rallySession : Eta rallySession :=
  fun r => mkRally (rl_id r) (rl_participants r) (rl_repo r) (rl_task r) (rl_pattern r) (rl_holder r)
    (rl_turnN r) (rl_status r) (rl_lastSeen r) (rl_history r) (rl_createdAt r) (rl_streams r)
    (rl_staleThreshold r).

(** The goroutine that serves a registered stream: an SSE response whose headers are
    not flushed yet, its loop, or one MCP join. *)
Inductive Transport : Set := SSEOpening | SSE | MCP.
Record Reader := mkReader { rd_session : string; rd_name : string; rd_transport : Transport }.

(** The process: the store [rallies], the heap of channels, the live reader of each
    channel, and the channels an interrupt has detached and not yet closed. *)
(* src: internal/broker/rally.go 31-36 rallyStore *)
Record Rallies := mkRallies {
  ra_sessions : gmap string rallySession; ra_chans : gmap nat Chan; ra_next : nat;
  ra_readers : gmap nat Reader; ra_pending : list nat }.
#[export] Instance eta_Rallies : Eta Rallies :=
  fun r => mkRallies (ra_sessions r) (ra_chans r) (ra_next r) (ra_readers r) (ra_pending r).

(* src: internal/broker/rally.go 62-65 newRallyStore *)
Definition newRallyStore : Rallies := mkRallies ∅ ∅ 0 ∅ [].

(** ** Channels *)

(** [ch <- ev] and [select { case ch <- ev: default: }]; the first would block on
    a full buffer, but its only caller has just made the channel. *)

Definition try_send (chans : gmap nat Chan) (ch : nat) (ev : BatonEvent) : option (gmap nat Chan * bool) :=
  match chans !! ch with
  | None => None
  | Some c =>
      if ch_closed c then None
      else match ch_buf c with
           | None => Some (<[ch := mkChan (Some ev) false]> chans, true)
           | Some _ => Some (chans, false)
           end
  end.

Definition close_chan (chans : gmap nat Chan) (ch : nat) : option (gmap nat Chan) :=
  match chans !! ch with
  | None => None
  | Some c => if ch_closed c then None else Some (<[ch := c <| ch_closed := true |>]> chans)
  end.

(** ** Helpers of the store *)

(** The position of the first element equal to [x]. *)
Fixpoint index_of (x : string) (l : list string) : option nat :=
  match l with
  | [] => None
  | y :: r => if String.eqb y x then Some 0%nat else option_map S (index_of x r)
  end.

Definition member (x : string) (l : list string) : bool := existsb (fun y => String.eqb y x) l.

(** [rs.participants[i]]; a session has at least two participants. *)
Definition nth_name (l : list string) (i : nat) : string := nth i l "".

(* src: internal/broker/rally.go 67-89 rallySession.nextParticipant *)
Definition nextParticipant (rs : rallySession) (current preferredNext : string) : string :=
  if negb (String.eqb preferredNext "") && member preferredNext (rl_participants rs) then preferredNext
  else
    let n := List.length (rl_participants rs) in
    match index_of current (rl_participants rs) with
    | Some i => nth_name (rl_participants rs) ((i + 1) mod n)
    | None => nth_name (rl_participants rs) 0
    end.

(** [now] is the clock, [b] the two random bytes. *)
(* src: internal/broker/rally.go 91-98 generateRallyID *)
Definition generateRallyID (now : Z) (b : string) : string :=
  "rly_" +:+ Itoa now +:+ "_" +:+ hex_encode b.

(* src: internal/broker/rally.go 100-131 rallySession.toPublic *)
Definition toPublic (rs : rallySession) (nowMS : Z) : RallySession :=
  mkRallySession (rl_id rs) (rl_participants rs) (rl_repo rs) (rl_task rs) (rl_holder rs) (rl_turnN rs)
    (rl_status rs) (rl_lastSeen rs) (rl_history rs) (rl_createdAt rs).

Definition put_session (st : Rallies) (id : string) (s : rallySession) : Rallies :=
  st <| ra_sessions := <[id := s]> (ra_sessions st) |>.

(** ** Creation *)

(** The loop over the requested participants: the validated names, in order. *)
(* src: internal/broker/rally.go 190-202 createRallySession *)
Fixpoint validate_participants (seen : list string) (raws : list string) : ContractError + list string :=
  match raws with
  | [] => inr []
  | raw :: rest =>
      let? pn := NewParticipantName raw in
      if member pn seen then inl ErrDuplicateName
      else let? names := validate_participants (pn :: seen) rest in inr (pn :: names)
  end.

(* src: internal/broker/rally.go 204-215 createRallySession *)
Definition validate_first_holder (names : list string) (first : string) : ContractError + string :=
  if String.eqb first "" then inr ""
  else
    let? fh := NewParticipantName first in
    if member fh names then inr fh else inl ErrFirstHolderNotMember.

(** Creation errors: a typed error, or the failure of the random source. *)
Inductive RallyError : Set := Typed (e : ContractError) | ErrRandom | ErrNotInSession | ErrArguments.

(* src: internal/broker/rally.go 217-246 createRallySession *)
Definition new_session (now : Z) (id : string) (names : list string) (firstHolder : string)
    (req : NewRallyRequest) : rallySession :=
  let pattern := match ParsePattern (nr_Task req) with inr (p, _) => p | inl _ => PatternUnknown end in
  let sess := mkRally id names (nr_Repo req) (nr_Task req) pattern "" 0 RallyStateIdle ∅ [] now ∅ 30000 in
  if String.eqb firstHolder "" then sess
  else sess <| rl_holder := firstHolder |> <| rl_status := RallyTurnState firstHolder |>
            <| rl_turnN := 1%Z |> <| rl_lastSeen := {[ firstHolder := now ]} |>.

(** [rand] is [None] when [rand.Read] fails; [now1] and [now2] are the two readings of
    the clock. *)
(* src: internal/broker/rally.go 183-253 createRallySession *)
Definition createRallySession (now1 now2 : Z) (rand : option string) (st : Rallies) (req : NewRallyRequest)
    : Rallies * (RallyError + RallySession) :=
  if (List.length (nr_Participants req) <? 2)%nat then (st, inl (Typed ErrTooFewParticipants))
  else
    match validate_participants [] (nr_Participants req) with
    | inl e => (st, inl (Typed e))
    | inr names =>
        match validate_first_holder names (nr_FirstHolder req) with
        | inl e => (st, inl (Typed e))
        | inr firstHolder =>
            match rand with
            | None => (st, inl ErrRandom)
            | Some b =>
                let id := generateRallyID now1 b in
                let sess := new_session now2 id names firstHolder req in
                (put_session st id sess, inr (toPublic sess now2))
            end
        end
    end.

(** ** Joining: the locked section of [handleRallyBaton] and of [mcpToolRallyJoin] *)

Inductive JoinResult : Set :=
  | JoinError (e : ContractError)   (* 404 or 409 *)
  | JoinForbidden                   (* not a participant *)
  | JoinClosed                      (* interrupted: the close sentinel at once *)
  | JoinStream (ch : nat).          (* registered; the goroutine goes on reading [ch] *)

(** The event queued at once, and the session after it. *)
(* src: internal/broker/rally.go 356-375 handleRallyBaton *)
Definition immediate_event (sess : rallySession) (as_ : string) : rallySession * option BatonEvent :=
  if String.eqb (rl_status sess) RallyStateIdle && String.eqb (nth_name (rl_participants sess) 0) as_ then
    let sess := sess <| rl_turnN := (rl_turnN sess + 1)%Z |> <| rl_holder := as_ |>
                     <| rl_status := RallyTurnState as_ |> in
    (sess, Some (mkBatonEvent (rl_turnN sess) "" "" false))
  else if String.eqb (rl_status sess) (RallyTurnState as_) then
    let '(from, note) := match last (rl_history sess) with
                         | Some h => (h_From h, h_Note h)
                         | None => ("", "")
                         end in
    (sess, Some (mkBatonEvent (rl_turnN sess) from note false))
  else (sess, None).

(* src: internal/broker/rally.go 305-383 handleRallyBaton *)
Definition join (now : Z) (t : Transport) (st : Rallies) (id as_ : string) : option (Rallies * JoinResult) :=
  match ra_sessions st !! id with
  | None => Some (st, JoinError ErrSessionNotFound)
  | Some sess =>
      if negb (member as_ (rl_participants sess)) then Some (st, JoinForbidden)
      else if String.eqb (rl_status sess) RallyStateInterrupted then Some (st, JoinClosed)
      else match rl_streams sess !! as_ with
      | Some _ => Some (st, JoinError ErrAlreadyConnected)
      | None =>
          let ch := ra_next st in
          let chans := <[ch := mkChan None false]> (ra_chans st) in
          let sess := sess <| rl_streams := <[as_ := ch]> (rl_streams sess) |>
                           <| rl_lastSeen := <[as_ := now]> (rl_lastSeen sess) |> in
          let '(sess, ev) := immediate_event sess as_ in
          let done chans :=
            Some (mkRallies (<[id := sess]> (ra_sessions st)) chans (S ch)
                    (<[ch := mkReader id as_ t]> (ra_readers st)) (ra_pending st), JoinStream ch) in
          match ev with
          | None => done chans
          | Some ev =>
              match try_send chans ch ev with
              | None => None
              | Some (chans, _) => done chans
              end
          end
      end
  end.

(* src: internal/broker/rally.go 504-511 cleanupStream *)
Definition cleanupStream (st : Rallies) (id participant : string) : Rallies :=
  match ra_sessions st !! id with
  | None => st
  | Some sess => put_session st id (sess <| rl_streams := delete participant (rl_streams sess) |>)
  end.

(** ** The reader goroutines *)

(** What a reader does next: the headers are flushed or that fails, the client's context
    ends, a receive succeeds (the write to the client may then fail), a heartbeat fires,
    or, for an MCP join, the timer. *)
Inductive ReaderEvent : Set :=
  | Headers (flush_ok : bool) | CtxDone | Receive (write_ok : bool)
  | Heartbeat (write_ok : bool) (now : Z) | TimerFires.

(** What the client sees. *)
Inductive Delivery : Set := Nothing | Event (ev : BatonEvent) | CloseSentinel | Ping | Timeout.

Definition end_reader (st : Rallies) (ch : nat) (r : Reader) (cleanup : bool) : Rallies :=
  let st := st <| ra_readers := delete ch (ra_readers st) |> in
  if cleanup then cleanupStream st (rd_session r) (rd_name r) else st.

Definition set_chan (st : Rallies) (ch : nat) (c : Chan) : Rallies :=
  st <| ra_chans := <[ch := c]> (ra_chans st) |>.

(** The SSE loop; [None] when the event cannot happen now. *)
(* src: internal/broker/rally.go 409-474 streamBatonEvents *)
Definition sse_step (st : Rallies) (ch : nat) (r : Reader) (c : Chan) (e : ReaderEvent)
    : option (Rallies * Delivery) :=
  match e with
  | CtxDone => Some (end_reader st ch r true, Nothing)
  | Receive ok =>
      match ch_buf c with
      | Some ev =>
          let st := set_chan st ch (c <| ch_buf := None |>) in
          if be_Closed ev then Some (end_reader st ch r true, if ok then CloseSentinel else Nothing)
          else if ok then Some (st, Event ev)
          else Some (end_reader st ch r true, Nothing)
      | None =>
          if ch_closed c then Some (end_reader st ch r true, if ok then CloseSentinel else Nothing) else None
      end
  | Heartbeat ok now =>
      if ok then
        Some (match ra_sessions st !! rd_session r with
              | Some s => put_session st (rd_session r) (s <| rl_lastSeen := <[rd_name r := now]> (rl_lastSeen s) |>)
              | None => st
              end, Ping)
      else Some (end_reader st ch r true, Nothing)
  | TimerFires | Headers _ => None
  end.

(** The first flush; when it fails the handler returns without [cleanupStream]. *)
(* src: internal/broker/rally.go 385-407 handleRallyBaton *)
Definition open_step (st : Rallies) (ch : nat) (r : Reader) (e : ReaderEvent) : option (Rallies * Delivery) :=
  match e with
  | Headers true =>
      Some (st <| ra_readers := <[ch := mkReader (rd_session r) (rd_name r) SSE]> (ra_readers st) |>, Nothing)
  | Headers false => Some (end_reader st ch r false, Nothing)
  | _ => None
  end.

(** The [select] of an MCP join, which ends the call in every case. *)
(* src: internal/broker/mcp.go 518-540 mcpToolRallyJoin *)
Definition mcp_step (st : Rallies) (ch : nat) (r : Reader) (c : Chan) (e : ReaderEvent)
    : option (Rallies * Delivery) :=
  match e with
  | CtxDone => Some (end_reader st ch r true, Nothing)
  | Receive _ =>
      match ch_buf c with
      | Some ev => Some (end_reader (set_chan st ch (c <| ch_buf := None |>)) ch r true, Event ev)
      | None => if ch_closed c then Some (end_reader st ch r false, CloseSentinel) else None
      end
  | TimerFires =>
      let st := end_reader st ch r true in
      Some (set_chan st ch (c <| ch_buf := None |>), Timeout)
  | Heartbeat _ _ | Headers _ => None
  end.

(* src: internal/broker/rally.go 385-474 handleRallyBaton *)
Definition reader_step (st : Rallies) (ch : nat) (e : ReaderEvent) : option (Rallies * Delivery) :=
  match ra_readers st !! ch, ra_chans st !! ch with
  | Some r, Some c =>
      match rd_transport r with
      | SSEOpening => open_step st ch r e | SSE => sse_step st ch r c e | MCP => mcp_step st ch r c e
      end
  | _, _ => None
  end.

(** ** Passing the baton *)

(* src: internal/broker/rally.go 517-530 advanceRallyBaton *)
Definition validate_handoff (as_ : string) (req : DoneRequest) : ContractError + string :=
  if String.eqb (d_HandoffTo req) "" then inr ""
  else
    let? ht := NewParticipantName (d_HandoffTo req) in
    if String.eqb ht as_ then inl ErrSelfHandoff else inr ht.

(** The session after the handoff to [next]. *)
(* src: internal/broker/rally.go 571-582 advanceRallyBaton *)
Definition hand_over (now : Z) (sess : rallySession) (as_ next note : string) : rallySession :=
  let turn := (rl_turnN sess + 1)%Z in
  let handoff := mkBatonHandoff as_ next turn note now in
  sess <| rl_turnN := turn |> <| rl_history := (rl_history sess ++ [handoff])%list |>
       <| rl_holder := next |> <| rl_status := RallyTurnState next |>.

(** [None] is a panic. *)
(* src: internal/broker/rally.go 513-602 advanceRallyBaton *)
Definition advanceRallyBaton (now : Z) (st : Rallies) (id as_ : string) (req : DoneRequest)
    : option (Rallies * (ContractError + RallySession)) :=
  match validate_handoff as_ req with
  | inl e => Some (st, inl e)
  | inr handoffTo =>
      match ra_sessions st !! id with
      | None => Some (st, inl ErrSessionNotFound)
      | Some sess =>
          if String.eqb (rl_status sess) RallyStateInterrupted then Some (st, inl ErrSessionInterrupted)
          else if negb (String.eqb (rl_holder sess) as_) then Some (st, inl ErrNotHolder)
          else if negb (String.eqb handoffTo "") && negb (member handoffTo (rl_participants sess))
          then Some (st, inl ErrHandoffToNotMember)
          else
            let next := nextParticipant sess as_ handoffTo in
            let sess := hand_over now sess as_ next (d_Note req) in
            let evt := mkBatonEvent (rl_turnN sess) as_ (d_Note req) false in
            let st := put_session st id sess in
            match rl_streams sess !! next with
            | None => Some (st, inr (toPublic sess now))
            | Some nextCh =>
                match try_send (ra_chans st) nextCh evt with
                | None => None
                | Some (chans, _) => Some (st <| ra_chans := chans |>, inr (toPublic sess now))
                end
            end
      end
  end.

(** ** Reading *)

(* src: internal/broker/rally.go 654-667 getRallySession *)
Definition getRallySession (now : Z) (st : Rallies) (id : string) : ContractError + RallySession :=
  match ra_sessions st !! id with
  | None => inl ErrSessionNotFound
  | Some sess => inr (toPublic sess now)
  end.

(* src: internal/broker/rally.go 693-708 isParticipantStale *)
Definition isParticipantStale (st : Rallies) (id name : string) (nowMS : Z) : bool :=
  match ra_sessions st !! id with
  | None => false
  | Some sess =>
      match rl_lastSeen sess !! name with
      | None => false
      | Some ls => (rl_staleThreshold sess <? nowMS - ls)%Z
      end
  end.

(* src: internal/broker/rally.go 710-717 setRallyStaleThreshold *)
Definition setRallyStaleThreshold (st : Rallies) (id : string) (thresholdMS : Z) : Rallies :=
  match ra_sessions st !! id with
  | None => st
  | Some sess => put_session st id (sess <| rl_staleThreshold := thresholdMS |>)
  end.

(** ** Interruption *)

Definition close_event : BatonEvent := mkBatonEvent 0 "" "" true.

(** The sentinel to every stream, in the order of [l]. *)
(* src: internal/broker/rally.go 734-746 interruptRallySession *)
Fixpoint send_sentinels (chans : gmap nat Chan) (l : list nat) : option (gmap nat Chan) :=
  match l with
  | [] => Some chans
  | ch :: r => match try_send chans ch close_event with
               | None => None
               | Some (chans, _) => send_sentinels chans r
               end
  end.

Definition stream_chans (sess : rallySession) : list nat := map snd (map_to_list (rl_streams sess)).

Definition interrupted (sess : rallySession) : rallySession :=
  sess <| rl_status := RallyStateInterrupted |> <| rl_holder := "" |> <| rl_streams := ∅ |>.

(** The locked section for one session; the detached channels are left to be closed. *)
(* src: internal/broker/rally.go 730-747 interruptRallySession *)
Definition interrupt_session (st : Rallies) (id : string) (sess : rallySession) : option Rallies :=
  if String.eqb (rl_status sess) RallyStateInterrupted then Some st
  else
    match send_sentinels (ra_chans st) (stream_chans sess) with
    | None => None
    | Some chans =>
        Some (mkRallies (<[id := interrupted sess]> (ra_sessions st)) chans (ra_next st) (ra_readers st)
                (ra_pending st ++ stream_chans sess)%list)
    end.

(* src: internal/broker/rally.go 719-756 interruptRallySession *)
Definition interruptRallySession (now : Z) (st : Rallies) (id : string)
    : option (Rallies * (ContractError + RallySession)) :=
  match ra_sessions st !! id with
  | None => Some (st, inl ErrSessionNotFound)
  | Some sess =>
      match interrupt_session st id sess with
      | None => None
      | Some st' => Some (st', getRallySession now st' id)
      end
  end.

(** The locked section of [CloseAllRallies], over the sessions in the order of the
    map. *)
(* src: internal/broker/rally.go 761-784 CloseAllRallies *)
Fixpoint interrupt_all (st : Rallies) (ids : list string) : option Rallies :=
  match ids with
  | [] => Some st
  | id :: r =>
      match ra_sessions st !! id with
      | None => interrupt_all st r
      | Some sess => match interrupt_session st id sess with
                     | None => None
                     | Some st' => interrupt_all st' r
                     end
      end
  end.

(* src: internal/broker/rally.go 758-788 CloseAllRallies *)
Definition CloseAllRallies (st : Rallies) : option Rallies :=
  interrupt_all st (map fst (map_to_list (ra_sessions st))).

(** One [close(ch)] after the lock is released. *)
(* src: internal/broker/rally.go 752-754 interruptRallySession *)
Definition close_pending (st : Rallies) (ch : nat) : option Rallies :=
  match close_chan (ra_chans st) ch with
  | None => None
  | Some chans => Some (st <| ra_chans := chans |>
                           <| ra_pending := List.filter (fun x => negb (x =? ch)%nat) (ra_pending st) |>)
  end.

(** ** HTTP *)

(* src: internal/broker/rally.go 157-181 writeRallyError *)
Definition rally_status_code (e : RallyError) : Z :=
  match e with
  | Typed ErrSessionNotFound => 404
  | Typed (ErrNotHolder | ErrSessionInterrupted | ErrAlreadyConnected) => 409
  | Typed (ErrInvalidName | ErrInvalidSessionID | ErrInvalidPattern | ErrDuplicateName
          | ErrTooFewParticipants | ErrSelfHandoff | ErrHandoffToNotMember | ErrFirstHolderNotMember) => 400
  | _ => 500
  end.

(* src: pkg/contract/rally.go 211-223 NewRallyRequest *)
Definition NewRallyRequest_fields : list (Field NewRallyRequest) :=
  [ MkField "participants" nr_Participants (fun v r => mkNewRallyRequest v (nr_Repo r) (nr_Task r) (nr_FirstHolder r))
      (fun l => Some (JArr (map JStr l))) (into_slice "" into_string);
    MkField "repo" nr_Repo (fun v r => mkNewRallyRequest (nr_Participants r) v (nr_Task r) (nr_FirstHolder r))
      opt_string into_string;
    MkField "task" nr_Task (fun v r => mkNewRallyRequest (nr_Participants r) (nr_Repo r) v (nr_FirstHolder r))
      opt_string into_string;
    MkField "first_holder" nr_FirstHolder (fun v r => mkNewRallyRequest (nr_Participants r) (nr_Repo r) (nr_Task r) v)
      opt_string into_string ].

(* src: pkg/contract/rally.go 202-209 DoneRequest *)
Definition DoneRequest_fields : list (Field DoneRequest) :=
  [ MkField "note" d_Note (fun v r => mkDoneRequest v (d_HandoffTo r)) opt_string into_string;
    MkField "handoff_to" d_HandoffTo (fun v r => mkDoneRequest (d_Note r) v) opt_string into_string ].

(** [json.NewDecoder(r.Body).Decode(&v)]: the first value of the body. *)
Definition Decode {A} (zero : A) (f : Into A) (body : string) : option A :=
  match parse_prefix body with Some (j, _) => f j zero | None => None end.

(** An HTTP answer: the status code, and the session snapshot of a success. *)
Record Response := mkResponse { rsp_code : Z; rsp_body : option RallySession }.
Definition fails (code : Z) : Response := mkResponse code None.

Definition json_type : string := "application/json".

(* src: internal/broker/rally.go 255-284 handleRallyCreate *)
Definition handleRallyCreate (now1 now2 : Z) (rand : option string) (st : Rallies) (ctype body : string)
    : Rallies * Response :=
  if negb (String.eqb ctype json_type) then (st, fails 415)
  else match Decode (mkNewRallyRequest [] "" "" "") (into_struct NewRallyRequest_fields) body with
  | None => (st, fails 400)
  | Some req =>
      match createRallySession now1 now2 rand st req with
      | (st, inl e) => (st, fails (rally_status_code e))
      | (st, inr pub) => (st, mkResponse 201 (Some pub))
      end
  end.

(* src: internal/broker/rally.go 604-652 handleRallyDone *)
Definition handleRallyDone (now : Z) (st : Rallies) (ctype rawID asRaw body : string)
    : option (Rallies * Response) :=
  if negb (String.eqb ctype json_type) then Some (st, fails 415)
  else match NewSessionID rawID with
  | inl e => Some (st, fails (rally_status_code (Typed e)))
  | inr id =>
      match NewParticipantName asRaw with
      | inl e => Some (st, fails (rally_status_code (Typed e)))
      | inr as_ =>
          match Decode (mkDoneRequest "" "") (into_struct DoneRequest_fields) body with
          | None => Some (st, fails 400)
          | Some req =>
              match advanceRallyBaton now st id as_ req with
              | None => None
              | Some (st, inl e) => Some (st, fails (rally_status_code (Typed e)))
              | Some (st, inr pub) => Some (st, mkResponse 200 (Some pub))
              end
          end
      end
  end.

(* src: internal/broker/rally.go 669-691 handleRallyStatus *)
Definition handleRallyStatus (now : Z) (st : Rallies) (rawID : string) : Response :=
  match NewSessionID rawID with
  | inl e => fails (rally_status_code (Typed e))
  | inr id => match getRallySession now st id with
              | inl e => fails (rally_status_code (Typed e))
              | inr pub => mkResponse 200 (Some pub)
              end
  end.

(** The status of the answer [handleRallyBaton] starts, and the channel it then serves. *)
(* src: internal/broker/rally.go 286-392 handleRallyBaton *)
Definition handleRallyBaton (now : Z) (st : Rallies) (rawID asRaw : string)
    : option (Rallies * Z * option nat) :=
  match NewSessionID rawID with
  | inl e => Some (st, rally_status_code (Typed e), None)
  | inr id =>
      match NewParticipantName asRaw with
      | inl e => Some (st, rally_status_code (Typed e), None)
      | inr as_ =>
          match join now SSEOpening st id as_ with
          | None => None
          | Some (st, JoinError e) => Some (st, rally_status_code (Typed e), None)
          | Some (st, JoinForbidden) => Some (st, 403%Z, None)
          | Some (st, JoinClosed) => Some (st, 200%Z, None)
          | Some (st, JoinStream ch) => Some (st, 200%Z, Some ch)
          end
      end
  end.

(** ** The MCP tools *)

(** The bounded wait of a join, in nanoseconds: the product wraps round at 64 bits. *)
(* src: internal/broker/mcp.go 453-459 mcpToolRallyJoin *)
Definition mcp_join_timeout (timeoutMS : Z) : Z :=
  let timeout := wrap64 (timeoutMS * 1000000) in
  let timeout := if (timeout <=? 0)%Z then 30000000000%Z else timeout in
  if (300000000000 <? timeout)%Z then 300000000000%Z else timeout.

(* src: internal/broker/mcp.go 444-516 mcpToolRallyJoin *)
Definition mcpToolRallyJoin (now : Z) (st : Rallies) (rawID asRaw : string)
    : option (Rallies * (RallyError + JoinResult)) :=
  match NewSessionID rawID with
  | inl e => Some (st, inl (Typed e))
  | inr id =>
      match NewParticipantName asRaw with
      | inl e => Some (st, inl (Typed e))
      | inr as_ =>
          match join now MCP st id as_ with
          | None => None
          | Some (st, JoinError e) => Some (st, inl (Typed e))
          | Some (st, JoinForbidden) => Some (st, inl ErrNotInSession)
          | Some (st, r) => Some (st, inr r)
          end
      end
  end.

(* src: internal/broker/mcp.go 391-407 mcpToolRallyDone *)
Definition mcpToolRallyDone (now : Z) (st : Rallies) (rawID asRaw note handoffTo : string)
    : option (Rallies * (ContractError + RallySession)) :=
  match NewSessionID rawID with
  | inl e => Some (st, inl e)
  | inr id =>
      match NewParticipantName asRaw with
      | inl e => Some (st, inl e)
      | inr as_ => advanceRallyBaton now st id as_ (mkDoneRequest note handoffTo)
      end
  end.

(* src: internal/broker/mcp.go 409-421 mcpToolRallyStatus *)
Definition mcpToolRallyStatus (now : Z) (st : Rallies) (rawID : string) : ContractError + RallySession :=
  let? id := NewSessionID rawID in getRallySession now st id.

(* src: internal/broker/mcp.go 423-435 mcpToolRallyInterrupt *)
Definition mcpToolRallyInterrupt (now : Z) (st : Rallies) (rawID : string)
    : option (Rallies * (ContractError + RallySession)) :=
  match NewSessionID rawID with
  | inl e => Some (st, inl e)
  | inr id => interruptRallySession now st id
  end.
