(* ===== verification/RallyInv.v ===== *)
(** * RallyInv: what the baton protocol guarantees

    The interleavings of the handlers, the readers and the deferred [close] calls as a
    step relation, its invariant, and the theorems on [Rally]: no panic, well-formed
    sessions, refinement to an abstract token, the round robin, creation, and the two
    ways in which a participant misses its turn. *)

From S2P Require Import Prelude GoStrings Json Codec Contract Merkle Rally.
From Stdlib Require Import Ascii String.
#[local] Open Scope string_scope.

(** ** The step relation *)

Inductive Label : Type :=
  | LCreate (now1 now2 : Z) (rand : option string) (req : NewRallyRequest)
  | LJoin (now : Z) (t : Transport) (id as_ : string)
  | LReader (ch : nat) (e : ReaderEvent)
  | LDone (now : Z) (rawID asRaw note handoffTo : string)
  | LInterrupt (now : Z) (id : string)
  | LCloseAll
  | LClose (ch : nat)
  | LThreshold (id : string) (ms : Z).

(** The critical section a label names: [None] when it panics. *)
Definition run_label (l : Label) (st : Rallies) : option Rallies :=
  match l with
  | LCreate now1 now2 rand req => Some (fst (createRallySession now1 now2 rand st req))
  | LJoin now t id as_ => option_map fst (join now t st id as_)
  | LReader ch e => Some (match reader_step st ch e with Some (st', _) => st' | None => st end)
  | LDone now rawID asRaw note ht => option_map fst (mcpToolRallyDone now st rawID asRaw note ht)
  | LInterrupt now id => option_map fst (interruptRallySession now st id)
  | LCloseAll => CloseAllRallies st
  | LClose ch => if bool_decide (ch ∈ ra_pending st) then close_pending st ch else Some st
  | LThreshold id ms => Some (setRallyStaleThreshold st id ms)
  end.

(** Every state the process can reach, in any interleaving of the sections. *)
Inductive Reachable : Rallies -> Prop :=
  | reach_init : Reachable newRallyStore
  | reach_step st l st' : Reachable st -> run_label l st = Some st' -> Reachable st'.

(** ** The invariant *)

(** What a session satisfies between two steps. *)
Record session_ok (s : rallySession) : Prop := {
  ok_two : (2 <= List.length (rl_participants s))%nat;
  ok_nodup : NoDup (rl_participants s);
  ok_names : Forall (fun p => participantNameRe p = true) (rl_participants s);
  ok_streams : forall n ch, rl_streams s !! n = Some ch -> n ∈ rl_participants s;
  ok_status :
    (rl_status s = RallyStateIdle /\ rl_holder s = "" /\ rl_turnN s = 0%Z /\ rl_history s = []) \/
    (rl_status s = RallyTurnState (rl_holder s) /\ rl_holder s ∈ rl_participants s /\
       rl_turnN s = Z.of_nat (S (List.length (rl_history s))) /\
       (forall h, last (rl_history s) = Some h -> h_To h = rl_holder s)) \/
    (rl_status s = RallyStateInterrupted /\ rl_holder s = "" /\ rl_streams s = ∅);
  ok_history : forall i h, rl_history s !! i = Some h ->
    h_TurnN h = Z.of_nat (i + 2) /\ h_From h ∈ rl_participants s /\ h_To h ∈ rl_participants s /\
    h_From h <> h_To h;
  ok_chain : forall i h h', rl_history s !! i = Some h -> rl_history s !! S i = Some h' -> h_From h' = h_To h }.

Definition registered (st : Rallies) (id n : string) (ch : nat) : Prop :=
  exists s, ra_sessions st !! id = Some s /\ rl_streams s !! n = Some ch.

Definition open (st : Rallies) (ch : nat) : Prop := exists b, ra_chans st !! ch = Some (mkChan b false).

Record Inv (st : Rallies) : Prop := {
  inv_sessions : forall id s, ra_sessions st !! id = Some s -> session_ok s;
  inv_reg : forall id n ch, registered st id n ch -> open st ch /\ ch ∉ ra_pending st;
  inv_reg_inj : forall id n id' n' ch, registered st id n ch -> registered st id' n' ch -> id = id' /\ n = n';
  inv_pending : forall ch, ch ∈ ra_pending st -> open st ch;
  inv_pending_nodup : NoDup (ra_pending st);
  inv_chans : forall ch c, ra_chans st !! ch = Some c -> (ch < ra_next st)%nat }.

(** ** Names and statuses *)

Lemma turn_state_inj p q : RallyTurnState p = RallyTurnState q -> p = q.
Proof.
  unfold RallyTurnState. revert q. induction p as [|c p IH]; intros [|d q] H; [done| | |].
  1,2: apply (f_equal String.length) in H; rewrite !string_length_app in H; cbn in H; lia.
  injection H as -> H. f_equal. by apply IH.
Qed.

Lemma turn_state_last p : String.get (String.length p) (RallyTurnState p) = Some "_"%char.
Proof. unfold RallyTurnState. by induction p. Qed.

Lemma get_absent n s c : string_forall (fun d => negb (Ascii.eqb d c)) s = true -> String.get n s <> Some c.
Proof.
  revert n. induction s as [|d s IH]; intros [|n]; cbn; intros H; try discriminate.
  - apply andb_true_iff in H as [H _]. intros [= ->]. by rewrite Ascii.eqb_refl in H.
  - apply andb_true_iff in H as [_ H]. by apply IH.
Qed.

Lemma turn_state_fixed p s :
  string_forall (fun d => negb (Ascii.eqb d "_"%char)) s = true -> RallyTurnState p <> s.
Proof. intros H <-. by eapply get_absent, turn_state_last. Qed.

Lemma turn_state_idle p : RallyTurnState p <> RallyStateIdle.
Proof. by apply turn_state_fixed. Qed.

Lemma turn_state_interrupted p : RallyTurnState p <> RallyStateInterrupted.
Proof. by apply turn_state_fixed. Qed.

(** ** Membership and the ring *)

Lemma member_spec x l : member x l = true <-> x ∈ l.
Proof.
  unfold member. rewrite existsb_exists. setoid_rewrite String.eqb_eq.
  rewrite list_elem_of_In. naive_solver.
Qed.

Lemma index_of_Some x l i : index_of x l = Some i -> l !! i = Some x.
Proof.
  revert i. induction l as [|y l IH]; cbn; [done|]. intros i.
  destruct (String.eqb_spec y x) as [->|_]; [by intros [= <-]|].
  destruct (index_of x l); cbn; [|done]. intros [= <-]. by apply IH.
Qed.

Lemma index_of_elem x l : x ∈ l -> is_Some (index_of x l).
Proof.
  induction l as [|y l IH]; cbn; [by intros ?%elem_of_nil|].
  destruct (String.eqb_spec y x) as [->|Hne]; [eauto|].
  intros [?|?]%elem_of_cons; [done|]. destruct IH as [i ->]; [done|]. eauto.
Qed.

Lemma index_of_lookup l i x : NoDup l -> l !! i = Some x -> index_of x l = Some i.
Proof.
  intros Hnd Hi. destruct (index_of_elem x l) as [j Hj]; [by eapply list_elem_of_lookup_2|].
  rewrite Hj. f_equal. eapply NoDup_lookup; eauto using index_of_Some.
Qed.

Lemma nth_name_lookup l i : (i < List.length l)%nat -> l !! i = Some (nth_name l i).
Proof. intros H. unfold nth_name. rewrite nth_lookup. by destruct (lookup_lt_is_Some_2 l i H) as [x ->]. Qed.

Lemma nth_name_elem l i : (i < List.length l)%nat -> nth_name l i ∈ l.
Proof. intros H. by eapply list_elem_of_lookup_2, nth_name_lookup. Qed.

(** The successor of a participant in the ring. *)
Lemma nextParticipant_ring s i p :
  NoDup (rl_participants s) -> rl_participants s !! i = Some p ->
  nextParticipant s p "" = nth_name (rl_participants s) ((i + 1) mod List.length (rl_participants s)).
Proof. intros Hnd Hi. unfold nextParticipant. cbn. by rewrite (index_of_lookup _ i). Qed.

Lemma nextParticipant_preferred s p q :
  q <> "" -> q ∈ rl_participants s -> nextParticipant s p q = q.
Proof.
  intros Hq Hm. unfold nextParticipant.
  by rewrite (proj2 (String.eqb_neq q "")), (proj2 (member_spec _ _)).
Qed.

(** The next participant is another one of the session. *)
Lemma nextParticipant_other s p q :
  session_ok s -> p ∈ rl_participants s -> (q = "" \/ q <> p /\ q ∈ rl_participants s) ->
  nextParticipant s p q ∈ rl_participants s /\ nextParticipant s p q <> p.
Proof.
  intros Hok Hp Hq. pose proof (ok_two _ Hok) as H2. pose proof (ok_nodup _ Hok) as Hnd.
  destruct (String.eqb_spec q "") as [->|Hne].
  - apply list_elem_of_lookup in Hp as [i Hi]. rewrite (nextParticipant_ring _ i) by done.
    pose proof (lookup_lt_Some _ _ _ Hi) as Hlt. set (n := List.length _) in *.
    assert ((i + 1) mod n < n)%nat by (apply Nat.mod_upper_bound; lia).
    split; [by apply nth_name_elem|]. intros Heq.
    assert (Hj : rl_participants s !! ((i + 1) mod n)%nat = Some p) by (rewrite <- Heq; by apply nth_name_lookup).
    pose proof (NoDup_lookup _ _ _ _ Hnd Hi Hj) as E.
    destruct (decide (i + 1 = n)%nat) as [E2|]; [rewrite E2, Nat.Div0.mod_same in E|rewrite Nat.mod_small in E]; lia.
  - destruct Hq as [?|[? ?]]; [done|]. by rewrite nextParticipant_preferred.
Qed.

(** ** Channels *)

(** Two heaps with the same channels open: buffers may differ. *)
Definition same_open (m m' : gmap nat Chan) : Prop := forall ch, ch_closed <$> m' !! ch = ch_closed <$> m !! ch.

Lemma same_open_refl m : same_open m m.
Proof. done. Qed.

Lemma same_open_trans m1 m2 m3 : same_open m1 m2 -> same_open m2 m3 -> same_open m1 m3.
Proof. intros H1 H2 ch. by rewrite H2, H1. Qed.
#[local] Hint Resolve same_open_refl : core.

Lemma same_open_set m ch c c' : m !! ch = Some c -> ch_closed c' = ch_closed c -> same_open m (<[ch := c']> m).
Proof.
  intros Hc He ch'. destruct (decide (ch' = ch)) as [->|Hne].
  - by rewrite lookup_insert_eq, Hc; cbn; rewrite He.
  - by rewrite lookup_insert_ne by done.
Qed.

Lemma try_send_same_open m ch ev m' b : try_send m ch ev = Some (m', b) -> same_open m m'.
Proof.
  unfold try_send. destruct (m !! ch) as [[buf cl]|] eqn:E; [|done].
  destruct cl; cbn; [done|]. destruct buf; intros [= <- <-]; [done|]. by eapply same_open_set.
Qed.

Lemma open_closed st ch : open st ch <-> ch_closed <$> ra_chans st !! ch = Some false.
Proof.
  unfold open. split; [by intros [b ->]|]. destruct (ra_chans st !! ch) as [[b cl]|]; cbn; [|done].
  intros [= ->]. eauto.
Qed.

Lemma open_same st st' ch : same_open (ra_chans st) (ra_chans st') -> open st' ch <-> open st ch.
Proof. intros H. by rewrite !open_closed, H. Qed.

Lemma try_send_open st ch ev : open st ch -> is_Some (try_send (ra_chans st) ch ev).
Proof. intros [b Hb]. unfold try_send. rewrite Hb. cbn. destruct b; eauto. Qed.

(** ** Steps that open, detach or close nothing *)

(** [st'] has at most the registrations of [st], and well-formed sessions. *)
Lemma inv_weaken st st' :
  Inv st -> ra_next st' = ra_next st -> ra_pending st' = ra_pending st ->
  same_open (ra_chans st) (ra_chans st') ->
  (forall id n ch, registered st' id n ch -> registered st id n ch) ->
  (forall id s, ra_sessions st' !! id = Some s -> session_ok s) -> Inv st'.
Proof.
  intros HI Hn Hp Ho Hr Hs. split; [done| | | | |].
  - intros id n ch H%Hr%(inv_reg _ HI). by rewrite Hp, (open_same st).
  - intros ????? H1%Hr H2%Hr. by eapply inv_reg_inj.
  - intros ch. rewrite Hp, (open_same st) by done. apply (inv_pending _ HI).
  - rewrite Hp. apply (inv_pending_nodup _ HI).
  - intros ch c Hc. rewrite Hn. specialize (Ho ch). rewrite Hc in Ho. cbn in Ho.
    destruct (ra_chans st !! ch) eqn:E; [|done]. by eapply inv_chans.
Qed.

Lemma registered_put st id s id' n ch :
  registered (put_session st id s) id' n ch ->
  (id' = id /\ rl_streams s !! n = Some ch) \/ (id' <> id /\ registered st id' n ch).
Proof.
  intros (s' & Hs & Hn). cbn in Hs. destruct (decide (id' = id)) as [->|Hne].
  - rewrite lookup_insert_eq in Hs. simplify_eq. by left.
  - rewrite lookup_insert_ne in Hs by done. right. split; [done|]. by exists s'.
Qed.

(** Writing a session back with no new stream. *)
Lemma inv_put st id s :
  Inv st -> session_ok s ->
  (forall n ch, rl_streams s !! n = Some ch -> registered st id n ch) -> Inv (put_session st id s).
Proof.
  intros HI Hs Hn. eapply inv_weaken; [exact HI|done..|intros id' n ch [[-> H]|[_ H]]%registered_put; auto|].
  intros id' s'. cbn. rewrite lookup_insert_Some. intros [[_ <-]|[_ H]]; [done|]. by eapply inv_sessions.
Qed.

Lemma inv_same_sessions st st' :
  Inv st -> ra_sessions st' = ra_sessions st -> ra_next st' = ra_next st -> ra_pending st' = ra_pending st ->
  same_open (ra_chans st) (ra_chans st') -> Inv st'.
Proof.
  intros HI Hs Hn Hp Ho. eapply inv_weaken; [done..| |].
  - intros id n ch (s & H1 & H2). exists s. by rewrite <- Hs.
  - intros id s. rewrite Hs. by apply inv_sessions.
Qed.

(** Deleting a registration keeps the session well formed. *)
Lemma session_ok_streams s m :
  session_ok s -> m ⊆ rl_streams s -> session_ok (s <| rl_streams := m |>).
Proof.
  intros H Hm. destruct H as [? ? ? Hst Hstatus ? ?]. split; cbn; try done.
  - intros n ch Hn. eapply Hst. by eapply lookup_weaken.
  - destruct Hstatus as [?|[?|(? & ? & E)]]; [by left|by right; left|right; right].
    split_and!; [done..|]. rewrite E in Hm. apply map_empty. intros k. apply eq_None_not_Some. intros [x Hx]. by apply (lookup_weaken _ _ _ _ Hx) in Hm.
Qed.

Lemma inv_cleanup st id n : Inv st -> Inv (cleanupStream st id n).
Proof.
  intros HI. unfold cleanupStream. destruct (ra_sessions st !! id) as [s|] eqn:Hs; [|done].
  apply inv_put; [done| |].
  - apply session_ok_streams; [by eapply inv_sessions|]. apply delete_subseteq.
  - intros n' ch. cbn. rewrite lookup_delete_Some. intros [_ H]. by exists s.
Qed.

(** ** The readers *)

Lemma inv_set_readers st m : Inv st -> Inv (st <| ra_readers := m |>).
Proof. intros HI. by eapply inv_same_sessions; [exact HI|..]. Qed.

Lemma inv_end_reader st ch r b : Inv st -> Inv (end_reader st ch r b).
Proof. intros HI. unfold end_reader. destruct b; [apply inv_cleanup|]; by apply inv_set_readers. Qed.

Lemma inv_set_chan st ch c c' :
  Inv st -> ra_chans st !! ch = Some c -> ch_closed c' = ch_closed c -> Inv (set_chan st ch c').
Proof. intros HI Hc He. eapply inv_same_sessions; [exact HI|done..|]. by eapply same_open_set. Qed.

Lemma end_reader_chans st ch r b : ra_chans (end_reader st ch r b) = ra_chans st.
Proof. unfold end_reader, cleanupStream. destruct b; [|done]. by case_match. Qed.

Lemma inv_reader st ch e st' d : Inv st -> reader_step st ch e = Some (st', d) -> Inv st'.
Proof.
  intros HI. unfold reader_step.
  destruct (ra_readers st !! ch) as [r|]; [|done]. destruct (ra_chans st !! ch) as [c|] eqn:Hc; [|done].
  destruct (rd_transport r); unfold open_step, sse_step, mcp_step; intros H;
    repeat case_match; simplify_eq;
    repeat first [ by apply inv_set_readers | apply inv_end_reader | by eapply inv_set_chan | done
                 | eapply inv_set_chan; [|by rewrite end_reader_chans|done] ].
  apply inv_put; [done| |].
  - match goal with H : ra_sessions st !! _ = Some _ |- _ => apply inv_sessions in H as [] end; [|done].
    by split.
  - intros n ch' Hn. eexists. split; [done|]. exact Hn.
Qed.

(** ** Passing the baton *)

Lemma validate_handoff_ok as_ req ht :
  validate_handoff as_ req = inr ht -> ht = d_HandoffTo req /\ (ht = "" \/ ht <> as_).
Proof.
  unfold validate_handoff. destruct (String.eqb_spec (d_HandoffTo req) "") as [->|Hne].
  - intros [= <-]. by split; [|left].
  - unfold NewParticipantName. destruct (participantNameRe _); cbn; [|done].
    destruct (String.eqb_spec (d_HandoffTo req) as_); [done|]. intros [= <-]. by split; [|right].
Qed.

Lemma name_not_empty s p : session_ok s -> p ∈ rl_participants s -> p <> "".
Proof.
  intros Hok Hp ->. pose proof (ok_names _ Hok) as HF. rewrite Forall_forall in HF.
  by specialize (HF _ Hp).
Qed.

(** A session in which [p] holds the baton. *)
Lemma holder_turn s :
  session_ok s -> rl_status s <> RallyStateInterrupted -> rl_holder s <> "" ->
  rl_status s = RallyTurnState (rl_holder s) /\ rl_holder s ∈ rl_participants s /\
  rl_turnN s = Z.of_nat (S (List.length (rl_history s))) /\
  (forall h, last (rl_history s) = Some h -> h_To h = rl_holder s).
Proof. intros Hok Hi Hh. destruct (ok_status _ Hok) as [?|[?|?]]; naive_solver. Qed.

Lemma hand_over_ok now s p q note :
  session_ok s -> rl_status s = RallyTurnState p -> rl_holder s = p ->
  p ∈ rl_participants s -> q ∈ rl_participants s -> q <> p ->
  session_ok (hand_over now s p q note).
Proof.
  intros Hok Hst Hh Hp Hq Hne.
  assert (HT : rl_turnN s = Z.of_nat (S (List.length (rl_history s))) /\
               forall h, last (rl_history s) = Some h -> h_To h = p).
  { destruct (holder_turn s) as (_ & _ & ? & HL); rewrite ?Hst, ?Hh; eauto using turn_state_interrupted, name_not_empty.
    split; [done|]. rewrite <- Hh. exact HL. }
  destruct HT as [HT HL]. destruct Hok as [? ? ? ? _ Hhist Hch]. split; cbn; try done.
  - right. left. split_and!; [done..| |].
    + rewrite length_app. cbn. lia.
    + intros h. rewrite last_snoc. by intros [= <-].
  - intros i h. rewrite lookup_app_Some. intros [H|[Hge H]]; [by eapply Hhist|].
    apply list_lookup_singleton_Some in H as [E <-]. cbn. split_and!; [|done..]. lia.
  - intros i h h' H1 H2. rewrite lookup_app_Some in H2. destruct H2 as [H2|[Hge H2]].
    + rewrite lookup_app_l in H1 by (apply lookup_lt_Some in H2; lia). by eapply Hch.
    + apply list_lookup_singleton_Some in H2 as [E <-]. cbn.
      rewrite lookup_app_l in H1 by lia. symmetry. apply HL.
      rewrite last_lookup, <- H1. f_equal. lia.
Qed.

Lemma done_valid now st rawID asRaw note ht st' r :
  mcpToolRallyDone now st rawID asRaw note ht = Some (st', r) ->
  (exists e, r = inl e /\ st' = st) \/
  (participantNameRe asRaw = true /\ advanceRallyBaton now st rawID asRaw (mkDoneRequest note ht) = Some (st', r)).
Proof.
  unfold mcpToolRallyDone, NewSessionID, NewParticipantName.
  destruct (sessionIDRe rawID); cbn; [|intros [= <- <-]; eauto].
  destruct (participantNameRe asRaw); cbn; [|intros [= <- <-]; eauto]. by right.
Qed.

(** A handoff that succeeds: the session it finds and the one it leaves. *)
Lemma advance_success now st id as_ req st' pub :
  advanceRallyBaton now st id as_ req = Some (st', inr pub) ->
  exists s, ra_sessions st !! id = Some s /\ rl_status s <> RallyStateInterrupted /\ rl_holder s = as_ /\
    (d_HandoffTo req = "" \/ d_HandoffTo req <> as_ /\ d_HandoffTo req ∈ rl_participants s) /\
    let next := nextParticipant s as_ (d_HandoffTo req) in
    let s' := hand_over now s as_ next (d_Note req) in
    pub = toPublic s' now /\ same_open (ra_chans st) (ra_chans st') /\
    st' = (put_session st id s') <| ra_chans := ra_chans st' |> /\
    match rl_streams s !! next with
    | None => ra_chans st' = ra_chans st
    | Some ch => exists b, try_send (ra_chans st) ch (mkBatonEvent (rl_turnN s') as_ (d_Note req) false)
                           = Some (ra_chans st', b)
    end.
Proof.
  unfold advanceRallyBaton. destruct (validate_handoff as_ req) as [e|ht] eqn:Ev; [by intros [= ]|].
  apply validate_handoff_ok in Ev as [-> Hht]. destruct (ra_sessions st !! id) as [s|]; [|by intros [= ]].
  destruct (String.eqb_spec (rl_status s) RallyStateInterrupted) as [|Hi]; [by intros [= ]|].
  destruct (String.eqb_spec (rl_holder s) as_) as [Hh|]; cbn [negb]; [|by intros [= ]].
  destruct (String.eqb_spec (d_HandoffTo req) "") as [He|He]; cbn [negb andb].
  2: destruct (member (d_HandoffTo req) (rl_participants s)) eqn:Hm; cbn [negb]; [|by intros [= ]].
  all: cbn; destruct (rl_streams s !! _) as [ch|] eqn:Hch;
    [destruct (try_send _ _ _) as [[m b]|] eqn:Et; [|done]|]; intros [= <- <-]; exists s.
  all: split_and!; [done..| | | | |]; cbn;
    [first [by left | right; split; [naive_solver|by apply member_spec]]| done | first [by eapply try_send_same_open | done] | done
    | rewrite Hch; eauto ].
Qed.

(** One that fails leaves the state as it is. *)
Lemma advance_failure now st id as_ req st' e :
  advanceRallyBaton now st id as_ req = Some (st', inl e) -> st' = st.
Proof. unfold advanceRallyBaton. intros H. by repeat case_match; simplify_eq. Qed.

Lemma inv_advance now st id as_ req st' r :
  Inv st -> participantNameRe as_ = true ->
  advanceRallyBaton now st id as_ req = Some (st', r) -> Inv st'.
Proof.
  intros HI Hv. destruct r as [e|pub]; [by intros ->%advance_failure|].
  intros (s & Hs & Hi & Hh & Hht & _ & Ho & -> & _)%advance_success.
  pose proof (inv_sessions _ HI _ _ Hs) as Hok.
  destruct (holder_turn s) as (Hst & Hm & _); [done..|rewrite Hh; by intros ->|]. rewrite Hh in Hst, Hm.
  destruct (nextParticipant_other s as_ (d_HandoffTo req)) as [Hn Hne]; [done..|].
  eapply inv_same_sessions; [apply (inv_put st id (hand_over now s as_ (nextParticipant s as_ (d_HandoffTo req)) (d_Note req))); [done|by apply hand_over_ok|]|done..|done].
  intros n ch Hn'. by exists s.
Qed.

(** ** Joining *)

(** Registering changes neither the participants nor the history. *)
Lemma session_ok_register s n ch m :
  session_ok s -> n ∈ rl_participants s -> rl_status s <> RallyStateInterrupted ->
  session_ok (s <| rl_streams := <[n := ch]> (rl_streams s) |> <| rl_lastSeen := m |>).
Proof.
  intros H Hn Hi. destruct H as [? ? ? Hst Hstatus ? ?]. split; cbn; try done.
  - intros n' ch'. rewrite lookup_insert_Some. intros [[<- _]|[_ ?]]; eauto.
  - destruct Hstatus as [?|[?|(? & _)]]; [by left|by right; left|done].
Qed.

Lemma session_ok_immediate s as_ :
  session_ok s -> as_ ∈ rl_participants s -> session_ok (fst (immediate_event s as_)).
Proof.
  intros Hok Hm. unfold immediate_event.
  destruct (String.eqb_spec (rl_status s) RallyStateIdle) as [Hidle|]; cbn [andb].
  2: by case_match; [destruct (last _)|].
  destruct (String.eqb _ as_); cbn [fst]; [|by case_match; [destruct (last _)|]].
  destruct Hok as [? ? ? ? Hst ? ?].
  destruct Hst as [(_ & _ & HT & HH)|[(Hc & _)|(Hc & _)]].
  - split; cbn; try done. right. left. rewrite HH, HT. by split_and!.
  - rewrite Hidle in Hc. by edestruct turn_state_idle.
  - by rewrite Hidle in Hc.
Qed.

Lemma immediate_streams s as_ : rl_streams (fst (immediate_event s as_)) = rl_streams s.
Proof. unfold immediate_event. by repeat (case_match; simplify_eq/=). Qed.

Lemma immediate_same s as_ :
  rl_participants (fst (immediate_event s as_)) = rl_participants s /\
  rl_history (fst (immediate_event s as_)) = rl_history s /\
  (rl_status s <> RallyStateInterrupted -> rl_status (fst (immediate_event s as_)) <> RallyStateInterrupted).
Proof.
  unfold immediate_event. destruct (_ && _); cbn; [split_and!; [done..|intros _; apply turn_state_interrupted]|].
  case_match; [destruct (last _)|]; done.
Qed.

Lemma inv_chans_fresh st : Inv st -> ra_chans st !! ra_next st = None.
Proof.
  intros HI. apply eq_None_not_Some. intros [c Hc]. apply (inv_chans _ HI) in Hc. lia.
Qed.

Lemma open_lt st ch : Inv st -> open st ch -> (ch < ra_next st)%nat.
Proof. intros HI [b Hb]. by eapply inv_chans. Qed.

(** The state once the new stream is registered. *)
Lemma inv_register st id n s s' b rds :
  Inv st -> ra_sessions st !! id = Some s -> session_ok s' -> 
  rl_streams s' = <[n := ra_next st]> (rl_streams s) ->
  Inv (mkRallies (<[id := s']> (ra_sessions st)) (<[ra_next st := mkChan b false]> (ra_chans st))
         (S (ra_next st)) rds (ra_pending st)).
Proof.
  intros HI Hs Hok Hstr. set (st' := mkRallies _ _ _ _ _).
  assert (Hreg : forall id' n' ch, registered st' id' n' ch ->
                   (id' = id /\ n' = n /\ ch = ra_next st) \/ registered st id' n' ch).
  { intros id' n' ch [[-> H]|[_ H]]%(registered_put st id s'); [|by right].
    rewrite Hstr, lookup_insert_Some in H. destruct H as [[-> <-]|[_ H]]; [by left|right; by exists s]. }
  assert (Hopen : forall ch, open st ch -> open st' ch).
  { intros ch Hch. pose proof (open_lt _ _ HI Hch). destruct Hch as [b' Hb'].
    exists b'. cbn. rewrite lookup_insert_ne by lia. done. }
  assert (Hnext : forall ch, open st ch -> ch <> ra_next st) by (intros ch ?%open_lt; [lia|done]).
  split.
  - intros id' s''. cbn. rewrite lookup_insert_Some. intros [[_ <-]|[_ H]]; [done|by eapply inv_sessions].
  - intros id' n' ch [(-> & -> & ->)|[H1 H2]%(inv_reg _ HI)]%Hreg; [|by split; [apply Hopen|]].
    split; [exists b; cbn; by rewrite lookup_insert_eq|]. cbn. intros H%(inv_pending _ HI). by apply Hnext in H.
  - intros id1 n1 id2 n2 ch [(-> & -> & ->)|H1]%Hreg [(-> & -> & ?)|H2]%Hreg; [done| | |by eapply inv_reg_inj].
    + by apply (inv_reg _ HI) in H2 as [H2%Hnext _].
    + subst. by apply (inv_reg _ HI) in H1 as [H1%Hnext _].
  - intros ch H%(inv_pending _ HI). by apply Hopen.
  - apply (inv_pending_nodup _ HI).
  - intros ch c. cbn. rewrite lookup_insert_Some. intros [[<- _]|[_ H]]; [lia|]. apply (inv_chans _ HI) in H. lia.
Qed.

(** A join that registers: the channel is the next location, its buffer the immediate
    event. *)
Lemma join_cases now t st id as_ :
  Inv st ->
  (exists e, join now t st id as_ = Some (st, e) /\ forall ch, e <> JoinStream ch) \/
  exists s, ra_sessions st !! id = Some s /\ as_ ∈ rl_participants s /\ rl_status s <> RallyStateInterrupted /\
    rl_streams s !! as_ = None /\
    let s1 := s <| rl_streams := <[as_ := ra_next st]> (rl_streams s) |>
                <| rl_lastSeen := <[as_ := now]> (rl_lastSeen s) |> in
    join now t st id as_ =
      Some (mkRallies (<[id := fst (immediate_event s1 as_)]> (ra_sessions st))
              (<[ra_next st := mkChan (snd (immediate_event s1 as_)) false]> (ra_chans st)) (S (ra_next st))
              (<[ra_next st := mkReader id as_ t]> (ra_readers st)) (ra_pending st), JoinStream (ra_next st)).
Proof.
  intros HI. unfold join. destruct (ra_sessions st !! id) as [s|]; [|left; by eexists].
  destruct (member as_ (rl_participants s)) eqn:Hm; cbn [negb]; [|left; by eexists].
  apply member_spec in Hm.
  destruct (String.eqb_spec (rl_status s) RallyStateInterrupted); [left; by eexists|].
  destruct (rl_streams s !! as_) eqn:Hn; [left; by eexists|]. right. exists s. split_and!; [done..|].
  cbn zeta. destruct (immediate_event _ as_) as [s' [ev|]]; cbn [fst snd]; [|done].
  unfold try_send. rewrite lookup_insert_eq. cbn. by rewrite insert_insert_eq.
Qed.

Lemma inv_join now t st id as_ st' r : Inv st -> join now t st id as_ = Some (st', r) -> Inv st'.
Proof.
  intros HI H. destruct (join_cases now t st id as_ HI) as [(e & He & _)|(s & Hs & Hm & Hi & _ & Hj)].
  - rewrite He in H. by simplify_eq.
  - cbn zeta in Hj. rewrite Hj in H. injection H as <- _. pose proof (inv_sessions _ HI _ _ Hs) as Hok.
    eapply inv_register; [done|exact Hs| |].
    + apply session_ok_immediate; [by apply session_ok_register|done].
    + by rewrite immediate_streams.
Qed.

(** ** Interrupting and closing *)

Lemma send_sentinels_ok st l :
  (forall ch, ch ∈ l -> open st ch) ->
  exists m, send_sentinels (ra_chans st) l = Some m /\ same_open (ra_chans st) m.
Proof.
  revert st. induction l as [|ch l IH]; intros st Hl; cbn; [by eexists|].
  destruct (try_send_open st ch close_event) as [[m b] Hm]; [apply Hl; by left|]. rewrite Hm.
  apply try_send_same_open in Hm. destruct (IH (st <| ra_chans := m |>)) as (m' & Hm' & Hs).
  - intros ch' Hin. rewrite (open_same st) by exact Hm. apply Hl. by right.
  - exists m'. split; [done|]. by eapply same_open_trans.
Qed.

Lemma elem_stream_chans s ch : ch ∈ stream_chans s <-> exists n, rl_streams s !! n = Some ch.
Proof.
  unfold stream_chans. rewrite list_elem_of_fmap.
  split; [intros ([n ch'] & -> & H%elem_of_map_to_list); by exists n|].
  intros [n H]. exists (n, ch). by rewrite elem_of_map_to_list.
Qed.

Lemma stream_chans_nodup st id s : Inv st -> ra_sessions st !! id = Some s -> NoDup (stream_chans s).
Proof.
  intros HI Hs. apply NoDup_fmap_2_strong; [|apply NoDup_map_to_list].
  intros [n1 ch1] [n2 ch2] H1 H2 E. cbn in E. subst ch2. apply elem_of_map_to_list in H1, H2.
  destruct (inv_reg_inj _ HI id n1 id n2 ch1) as [_ ->]; [by exists s..|done].
Qed.

Lemma session_ok_interrupted s : session_ok s -> session_ok (interrupted s).
Proof. intros []. split; cbn; try done. by right; right. Qed.

Lemma interrupt_session_ok st id s :
  Inv st -> ra_sessions st !! id = Some s ->
  exists st', interrupt_session st id s = Some st' /\ Inv st' /\
    (rl_status s = RallyStateInterrupted /\ st' = st \/
     rl_status s <> RallyStateInterrupted /\
     ra_sessions st' = <[id := interrupted s]> (ra_sessions st) /\ ra_pending st' = (ra_pending st ++ stream_chans s)%list).
Proof.
  intros HI Hs. unfold interrupt_session.
  destruct (String.eqb_spec (rl_status s) RallyStateInterrupted) as [|Hni]; [by exists st; auto|].
  assert (Hreg : forall ch, ch ∈ stream_chans s -> open st ch /\ ch ∉ ra_pending st).
  { intros ch [n H]%elem_stream_chans. apply (inv_reg _ HI id n). by exists s. }
  destruct (send_sentinels_ok st (stream_chans s)) as (m & -> & Hm); [by intros ? [? _]%Hreg|].
  eexists. split; [done|]. split; [|right; by split_and!]. set (st' := mkRallies _ _ _ _ _).
  assert (Hreg' : forall id' n ch, registered st' id' n ch -> id' <> id /\ registered st id' n ch).
  { intros id' n ch [[_ H]|H]%(registered_put st id (interrupted s)); [|done].
    cbn in H. by rewrite lookup_empty in H. }
  split.
  - intros id' s'. cbn. rewrite lookup_insert_Some.
    intros [[_ <-]|[_ H]]; [apply session_ok_interrupted|]; by eapply (inv_sessions _ HI).
  - intros id' n ch [Hne H]%Hreg'. rewrite (open_same st) by exact Hm.
    pose proof (inv_reg _ HI _ _ _ H) as [Ho Hp]. split; [done|]. cbn. rewrite elem_of_app.
    intros [?|[n' H']%elem_stream_chans]; [done|].
    destruct (inv_reg_inj _ HI id' n id n' ch) as [? _]; [done|by exists s|done].
  - intros ????? [_ H1]%Hreg' [_ H2]%Hreg'. by eapply inv_reg_inj.
  - intros ch. rewrite (open_same st) by exact Hm. cbn. rewrite elem_of_app.
    intros [H|H]; [by apply inv_pending|by apply Hreg].
  - cbn. apply NoDup_app. split_and!; [apply (inv_pending_nodup _ HI)| |by eapply stream_chans_nodup].
    intros ch H1 H2%Hreg. naive_solver.
  - intros ch c Hc. specialize (Hm ch). cbn in Hc |- *. rewrite Hc in Hm. cbn in Hm.
    destruct (ra_chans st !! ch) eqn:E; [|done]. by eapply inv_chans.
Qed.

Lemma interrupt_all_ok ids st : Inv st -> exists st', interrupt_all st ids = Some st' /\ Inv st'.
Proof.
  revert st. induction ids as [|id ids IH]; intros st HI; cbn; [by exists st|].
  destruct (ra_sessions st !! id) as [s|] eqn:Hs; [|by apply IH].
  destruct (interrupt_session_ok _ _ _ HI Hs) as (st' & -> & HI' & _). by apply IH.
Qed.

(** Closing a detached channel. *)
Lemma close_pending_ok st ch : Inv st -> ch ∈ ra_pending st -> exists st', close_pending st ch = Some st' /\ Inv st'.
Proof.
  intros HI Hch. destruct (inv_pending _ HI _ Hch) as [b Hb].
  unfold close_pending, close_chan. rewrite Hb. cbn. eexists. split; [done|].
  assert (Hne : forall ch' , ch' <> ch -> open st ch' ->
    open (st <| ra_chans := <[ch := mkChan b true]> (ra_chans st) |>) ch').
  { intros ch' Hne [b' Hb']. exists b'. cbn. by rewrite lookup_insert_ne. }
  assert (Hin : forall ch' l, ch' ∈ List.filter (fun x => negb (x =? ch)%nat) l <-> ch' <> ch /\ ch' ∈ l).
  { intros ch' l. rewrite !list_elem_of_In, filter_In, negb_true_iff, Nat.eqb_neq. tauto. }
  split; cbn.
  - apply (inv_sessions _ HI).
  - intros id n ch' H. destruct (inv_reg _ HI id n ch') as [Ho Hp]; [done|].
    split; [apply Hne; [congruence|done]|]. rewrite Hin. tauto.
  - apply (inv_reg_inj _ HI).
  - intros ch'. rewrite Hin. intros [? ?]. apply Hne; [done|by apply inv_pending].
  - apply NoDup_ListNoDup, List.NoDup_filter, NoDup_ListNoDup. apply (inv_pending_nodup _ HI).
  - intros ch' c. rewrite lookup_insert_Some. intros [[<- _]|[_ H]]; by eapply inv_chans.
Qed.

(** ** Creation *)

Lemma NewParticipantName_ok s r : NewParticipantName s = inr r <-> r = s /\ participantNameRe s = true.
Proof. unfold NewParticipantName. destruct (participantNameRe s); cbn; naive_solver. Qed.

Lemma validate_participants_ok seen raws names :
  validate_participants seen raws = inr names <->
  names = raws /\ NoDup raws /\ (forall p, p ∈ raws -> p ∉ seen) /\ Forall (fun p => participantNameRe p = true) raws.
Proof.
  revert seen names. induction raws as [|raw raws IH]; intros seen names; cbn.
  { split; [intros [= <-]|intros (-> & _); done].
    split_and!; [done|constructor|intros ? []%elem_of_nil|constructor]. }
  rewrite NoDup_cons, Forall_cons. unfold NewParticipantName.
  destruct (participantNameRe raw); cbn; [|split; [done|naive_solver]].
  destruct (member raw seen) eqn:Hm.
  { apply member_spec in Hm. split; [done|]. intros (_ & _ & H & _). edestruct (H raw); [by left|done]. }
  assert (Hns : raw ∉ seen) by (rewrite <- member_spec, Hm; done).
  destruct (validate_participants (raw :: seen) raws) as [e|ns] eqn:Hv.
  - split; [done|]. intros (_ & [Hr Hnd] & H & _ & HF).
    assert (inl e = inr raws) as [=]. rewrite <- Hv. apply IH. split_and!; [done..| |done].
    intros p Hp. rewrite elem_of_cons. intros [->|?]; [done|]. edestruct (H p); [by right|done].
  - apply IH in Hv as (-> & Hnd & H & HF). split.
    + intros [= <-]. split_and!; [done| |done| |done..]; [intros Hr; edestruct (H raw); [done|by left]|].
      intros p [->|Hp]%elem_of_cons; [done|]. intros ?. edestruct (H p); [done|by right].
    + by intros (-> & _).
Qed.

Lemma validate_first_holder_ok names first fh :
  validate_first_holder names first = inr fh <->
  fh = first /\ (first = "" \/ participantNameRe first = true /\ first ∈ names).
Proof.
  unfold validate_first_holder, NewParticipantName.
  destruct (String.eqb_spec first "") as [->|Hne]; [naive_solver|].
  destruct (participantNameRe first); cbn; [|split; [done|naive_solver]].
  destruct (member first names) eqn:Hm; [apply member_spec in Hm|].
  - split; [intros [= <-]; by split; [|right]|by intros [-> _]].
  - split; [done|]. intros [_ [?|[_ H%member_spec]]]; [done|by rewrite Hm in H].
Qed.

Lemma new_session_ok now id names fh req :
  (2 <= List.length names)%nat -> NoDup names -> Forall (fun p => participantNameRe p = true) names ->
  (fh = "" \/ fh ∈ names) -> session_ok (new_session now id names fh req) /\
  rl_streams (new_session now id names fh req) = ∅.
Proof.
  intros H2 Hnd HF Hfh. unfold new_session. destruct (String.eqb_spec fh "") as [->|Hne]; (split; [split|]); cbn; try done.
  - by left.
  - right. left. split_and!; [done| |done..]. naive_solver.
Qed.

(** Every answer of [createRallySession]. *)
Lemma create_cases now1 now2 rand st req :
  (exists e, createRallySession now1 now2 rand st req = (st, inl e)) \/
  exists b s, rand = Some b /\ session_ok s /\ rl_streams s = ∅ /\ rl_participants s = nr_Participants req /\
    s = new_session now2 (generateRallyID now1 b) (nr_Participants req) (nr_FirstHolder req) req /\
    createRallySession now1 now2 rand st req = (put_session st (generateRallyID now1 b) s, inr (toPublic s now2)).
Proof.
  unfold createRallySession. destruct (Nat.ltb_spec (List.length (nr_Participants req)) 2) as [|H2]; [left; eauto|].
  destruct (validate_participants [] _) as [e|names] eqn:Hv; [left; eauto|].
  apply validate_participants_ok in Hv as (-> & Hnd & _ & HF).
  destruct (validate_first_holder _ _) as [e|fh] eqn:Hf; [left; eauto|].
  apply validate_first_holder_ok in Hf as [-> Hf]. destruct rand as [b|]; [|left; eauto].
  right. eexists b, _. destruct (new_session_ok now2 (generateRallyID now1 b) (nr_Participants req) (nr_FirstHolder req) req);
    [done..|naive_solver|]. split_and!; [done..| |done|done]. unfold new_session. by case_match.
Qed.

Lemma inv_create now1 now2 rand st req : Inv st -> Inv (fst (createRallySession now1 now2 rand st req)).
Proof.
  intros HI. destruct (create_cases now1 now2 rand st req) as [[e ->]|(b & s & _ & Hok & Hstr & _ & _ & ->)]; cbn [fst]; [done|].
  apply inv_put; [done..|]. intros n ch. by rewrite Hstr, lookup_empty.
Qed.

(** ** Reachable states *)

Lemma inv_init : Inv newRallyStore.
Proof.
  assert (HE : forall id s, ra_sessions newRallyStore !! id = Some s -> False) by (by intros id s H).
  split; cbn; try done.
  - by intros id n ch (s & ?%HE & _).
  - by intros id n id' n' ch (s & ?%HE & _).
  - intros ch []%elem_of_nil.
  - constructor.
Qed.

Lemma interrupt_ok now st id : Inv st ->
  exists st' r, interruptRallySession now st id = Some (st', r) /\ Inv st'.
Proof.
  intros HI. unfold interruptRallySession. destruct (ra_sessions st !! id) as [s|] eqn:Hs; [|by eexists _, _].
  destruct (interrupt_session_ok _ _ _ HI Hs) as (st' & -> & HI' & _). by eexists _, _.
Qed.

Lemma advance_total now st id as_ req : Inv st -> is_Some (advanceRallyBaton now st id as_ req).
Proof.
  intros HI. unfold advanceRallyBaton. destruct (validate_handoff _ _) as [|ht]; [eauto|].
  destruct (ra_sessions st !! id) as [s|] eqn:Hs; [|eauto]. do 3 (case_match; [eauto|]).
  cbn zeta. cbn [hand_over rl_streams]. destruct (rl_streams _ !! _) as [ch|] eqn:Hch; [|eauto].
  destruct (try_send_open st ch (mkBatonEvent (rl_turnN s + 1) as_ (d_Note req) false)) as [[m b] Hm].
  { apply (inv_reg _ HI id (nextParticipant s as_ ht)). by exists s. }
  cbn in Hm |- *. rewrite Hm. eauto.
Qed.

Lemma run_label_ok l st : Inv st -> exists st', run_label l st = Some st' /\ Inv st'.
Proof.
  intros HI. destruct l; cbn.
  - eexists. split; [done|]. by apply inv_create.
  - destruct (join now t st id as_) as [[st' r]|] eqn:Hj; [eexists; split; [done|]; by eapply inv_join|].
    destruct (join_cases now t st id as_ HI) as [(e & He & _)|(s & _ & _ & _ & _ & He)]; cbn zeta in He; by rewrite He in Hj.
  - destruct (reader_step st ch e) as [[st' d]|] eqn:Hr; [|by exists st]. exists st'. split; [done|]. by eapply inv_reader.
  - destruct (mcpToolRallyDone now st rawID asRaw note handoffTo) as [[st' r]|] eqn:Hd.
    + exists st'. split; [done|]. apply done_valid in Hd as [(e & _ & ->)|[Hv Hd]]; [done|]. by eapply inv_advance.
    + exfalso. unfold mcpToolRallyDone in Hd. do 2 (case_match; [done|]).
      destruct (advance_total now st s s0 (mkDoneRequest note handoffTo) HI) as [? Ha]. by rewrite Ha in Hd.
  - destruct (interrupt_ok now st id HI) as (st' & r & -> & HI'). by exists st'.
  - by apply interrupt_all_ok.
  - case_bool_decide; [by apply close_pending_ok|by exists st].
  - eexists. split; [done|]. unfold setRallyStaleThreshold. destruct (ra_sessions st !! id) as [s|] eqn:Hs; [|done].
    apply inv_put; [done| |].
    + apply inv_sessions in Hs as []; [by split|done].
    + intros n ch Hn. by exists s.
Qed.

Lemma reachable_inv st : Reachable st -> Inv st.
Proof.
  induction 1 as [|st l st' _ IH Hl]; [apply inv_init|].
  destruct (run_label_ok l st IH) as (st'' & Hl' & HI). congruence.
Qed.

(** ** The abstract baton *)

(** What a session promises: a baton that rests, is held for a turn, or is gone. *)
Inductive Token : Set := Resting | Held (p : string) (turn : Z) | Gone.

Definition token (s : rallySession) : Token :=
  if String.eqb (rl_status s) RallyStateInterrupted then Gone
  else if String.eqb (rl_holder s) "" then Resting else Held (rl_holder s) (rl_turnN s).

Inductive token_step (ps : list string) : Token -> Token -> Prop :=
  | tok_stay t : token_step ps t t
  | tok_start p : ps !! 0%nat = Some p -> token_step ps Resting (Held p 1)
  | tok_pass p q n : p ∈ ps -> q ∈ ps -> q <> p -> token_step ps (Held p n) (Held q (n + 1))
  | tok_end t : token_step ps t Gone.

Definition moves (s s' : rallySession) : Prop :=
  rl_participants s' = rl_participants s /\ token_step (rl_participants s) (token s) (token s').

(** The token stays where it is. *)
Definition stays (s s' : rallySession) : Prop := rl_participants s' = rl_participants s /\ token s' = token s.
(** It moves, and only a token at rest does. *)
Definition starts (s s' : rallySession) : Prop := moves s s' /\ (token s <> Resting -> token s' = token s).

#[local] Instance moves_refl : Reflexive moves.
Proof. split; [done|apply tok_stay]. Qed.
#[local] Instance stays_refl : Reflexive stays.
Proof. by split. Qed.
Lemma stays_moves s s' : stays s s' -> moves s s'.
Proof. intros [E1 E2]. split; [done|]. rewrite E2. apply tok_stay. Qed.
#[local] Instance starts_refl : Reflexive starts.
Proof. by repeat split; try apply tok_stay. Qed.

(** Every session of [st] is still there, and related to what it was. *)
Definition sessions_rel (R : rallySession -> rallySession -> Prop) (st st' : Rallies) : Prop :=
  forall id s, ra_sessions st !! id = Some s -> exists s', ra_sessions st' !! id = Some s' /\ R s s'.
#[local] Abbreviation sessions_move := (sessions_rel moves).

Section Rel.
Context {R : rallySession -> rallySession -> Prop} `{!Reflexive R}.

Lemma sessions_move_eq st st' : ra_sessions st' = ra_sessions st -> sessions_rel R st st'.
Proof. intros E id s H. exists s. by rewrite E. Qed.

Lemma sessions_move_put st st' id s s' :
  ra_sessions st !! id = Some s -> ra_sessions st' = <[id := s']> (ra_sessions st) -> R s s' -> sessions_rel R st st'.
Proof.
  intros Hs E Hm id1 s1 H1. rewrite E. destruct (decide (id1 = id)) as [->|Hne].
  - exists s'. rewrite lookup_insert_eq. by simplify_eq.
  - exists s1. by rewrite lookup_insert_ne.
Qed.
End Rel.

Lemma sessions_rel_mono (R R' : rallySession -> rallySession -> Prop) st st' :
  (forall s s', R s s' -> R' s s') -> sessions_rel R st st' -> sessions_rel R' st st'.
Proof. intros H HR id s Hs. destruct (HR id s Hs) as (s' & ? & ?). eauto. Qed.

Lemma moves_interrupted s : moves s (interrupted s).
Proof. split; [done|apply tok_end]. Qed.

Lemma move_cleanup st st' id n :
  ra_sessions st' = ra_sessions st -> sessions_rel stays st (cleanupStream st' id n).
Proof.
  intros E. unfold cleanupStream. rewrite E. destruct (ra_sessions st !! id) as [s|] eqn:Hs; [|by apply sessions_move_eq].
  eapply sessions_move_put; [exact Hs|cbn; by rewrite E|]. by split.
Qed.

Lemma move_end_reader st st' ch r b :
  ra_sessions st' = ra_sessions st -> sessions_rel stays st (end_reader st' ch r b).
Proof. intros E. unfold end_reader. destruct b; [by apply move_cleanup|by apply sessions_move_eq]. Qed.

Lemma move_reader st ch e st' d : reader_step st ch e = Some (st', d) -> sessions_rel stays st st'.
Proof.
  unfold reader_step.
  destruct (ra_readers st !! ch) as [r|]; [|done]. destruct (ra_chans st !! ch) as [c|]; [|done].
  destruct (rd_transport r); unfold open_step, sse_step, mcp_step; intros H;
    repeat case_match; simplify_eq;
    first [ by apply move_end_reader | by apply sessions_move_eq
          | eapply sessions_move_put; [done..|by split]
          | intros id s Hs; by apply (move_end_reader st st ch r true)].
Qed.

Lemma token_held s : session_ok s -> rl_status s = RallyTurnState (rl_holder s) -> rl_holder s ∈ rl_participants s ->
  token s = Held (rl_holder s) (rl_turnN s).
Proof.
  intros Hok Hst Hm. unfold token. rewrite Hst, (proj2 (String.eqb_neq _ _)) by apply turn_state_interrupted.
  by rewrite (proj2 (String.eqb_neq _ _)) by by eapply name_not_empty.
Qed.

Lemma move_hand_over now s q note :
  session_ok s -> rl_status s = RallyTurnState (rl_holder s) -> rl_holder s ∈ rl_participants s ->
  q ∈ rl_participants s -> q <> rl_holder s -> moves s (hand_over now s (rl_holder s) q note).
Proof.
  intros Hok Hst Hm Hq Hne. split; [done|]. rewrite (token_held s) by done.
  rewrite (token_held (hand_over _ _ _ _ _)); [by apply tok_pass|by apply hand_over_ok|done..].
Qed.

Lemma move_advance now st id as_ req st' r :
  Inv st -> participantNameRe as_ = true -> advanceRallyBaton now st id as_ req = Some (st', r) -> sessions_move st st'.
Proof.
  intros HI Hv. destruct r as [e|pub]; [intros ->%advance_failure; by apply sessions_move_eq|].
  intros (s & Hs & Hi & Hh & Hht & _ & _ & -> & _)%advance_success. pose proof (inv_sessions _ HI _ _ Hs) as Hok.
  destruct (holder_turn s) as (Hst & Hm & _); [done..|rewrite Hh; by intros ->|].
  destruct (nextParticipant_other s as_ (d_HandoffTo req)) as [Hn Hne]; [done|by rewrite <- Hh|done|].
  eapply sessions_move_put; [exact Hs|done|]. rewrite <- Hh in Hne |- *. by apply move_hand_over; rewrite ?Hh in *.
Qed.

Lemma move_immediate s m l as_ :
  session_ok s -> as_ ∈ rl_participants s ->
  starts s (fst (immediate_event (s <| rl_streams := m |> <| rl_lastSeen := l |>) as_)).
Proof.
  intros Hok Hm. unfold immediate_event. cbn [set_with rl_status rl_participants rl_turnN rl_holder].
  destruct (String.eqb_spec (rl_status s) RallyStateIdle) as [Hidle|]; cbn [andb].
  2: case_match; [destruct (last _)|]; by repeat split; try apply tok_stay.
  destruct (String.eqb_spec (nth_name (rl_participants s) 0) as_) as [Hfst|]; cbn [fst].
  2: case_match; [destruct (last _)|]; by repeat split; try apply tok_stay.
  assert (Hrest : token s = Resting).
  { unfold token. rewrite Hidle. destruct (ok_status _ Hok) as [(_ & -> & _)|[(Hc & _)|(Hc & _)]]; [done| |by rewrite Hidle in Hc].
    rewrite Hidle in Hc. by edestruct turn_state_idle. }
  split; [|done]. split; [done|]. clear Hrest. unfold token. cbn. rewrite Hidle.
  change (String.eqb RallyStateIdle RallyStateInterrupted) with false. cbv iota.
  destruct (ok_status _ Hok) as [(_ & -> & -> & _)|[(Hc & _)|(Hc & _)]].
  - rewrite (proj2 (String.eqb_neq (RallyTurnState as_) _)) by apply turn_state_interrupted.
    rewrite (proj2 (String.eqb_neq as_ "")) by by eapply name_not_empty. apply tok_start.
    rewrite <- Hfst. apply nth_name_lookup. pose proof (ok_two _ Hok). lia.
  - rewrite Hidle in Hc. by edestruct turn_state_idle.
  - by rewrite Hidle in Hc.
Qed.

Lemma move_join now t st id as_ st' r : Inv st -> join now t st id as_ = Some (st', r) -> sessions_rel starts st st'.
Proof.
  intros HI H. destruct (join_cases now t st id as_ HI) as [(e & He & _)|(s & Hs & Hm & _ & _ & Hj)].
  - rewrite He in H. simplify_eq. by apply sessions_move_eq.
  - cbn zeta in Hj. rewrite Hj in H. injection H as <- _. eapply sessions_move_put; [exact Hs|done|].
    apply move_immediate; [by eapply inv_sessions|done].
Qed.

Lemma move_interrupt st id s st' :
  Inv st -> ra_sessions st !! id = Some s -> interrupt_session st id s = Some st' -> sessions_move st st'.
Proof.
  intros HI Hs H. destruct (interrupt_session_ok _ _ _ HI Hs) as (st1 & H1 & _ & Hc). rewrite H in H1. injection H1 as <-.
  destruct Hc as [[_ ->]|(_ & E & _)]; [by apply sessions_move_eq|].
  eapply sessions_move_put; [exact Hs|exact E|apply moves_interrupted].
Qed.

(** An interruption of several sessions interrupts each at most once. *)
Lemma interrupt_all_sessions ids st st' id s :
  Inv st -> interrupt_all st ids = Some st' -> ra_sessions st !! id = Some s ->
  ra_sessions st' !! id = Some s \/ ra_sessions st' !! id = Some (interrupted s).
Proof.
  revert st s. induction ids as [|id1 ids IH]; intros st s HI H Hs; cbn in H; [simplify_eq; by left|].
  destruct (ra_sessions st !! id1) as [s1|] eqn:Hs1; [|by eapply IH].
  destruct (interrupt_session_ok _ _ _ HI Hs1) as (st1 & E1 & HI1 & Hc). rewrite E1 in H.
  destruct Hc as [[_ ->]|(Hni & E & _)]; [by eapply IH|].
  destruct (decide (id = id1)) as [->|Hne].
  - right. assert (s1 = s) as -> by congruence.
    destruct (IH st1 (interrupted s)) as [?|?]; [done|done|by rewrite E, lookup_insert_eq|done|done].
  - eapply IH; [done|done|]. by rewrite E, lookup_insert_ne.
Qed.

(** A creation that draws the id of a session replaces it: the code does not look whether the id is free. *)
Definition replaced (l : Label) (id : string) (s' : rallySession) : Prop :=
  exists now1 now2 b req, l = LCreate now1 now2 (Some b) req /\ generateRallyID now1 b = id /\ rl_participants s' = nr_Participants req /\
    token s' = if String.eqb (nr_FirstHolder req) "" then Resting else Held (nr_FirstHolder req) 1.

Lemma new_session_token now id names fh req :
  token (new_session now id names fh req) = if String.eqb fh "" then Resting else Held fh 1.
Proof.
  unfold new_session, token. destruct (String.eqb_spec fh "") as [E|E]; cbn; [done|].
  rewrite (proj2 (String.eqb_neq (RallyTurnState _) _)) by apply turn_state_interrupted. by rewrite (proj2 (String.eqb_neq _ _) E).
Qed.

Lemma move_create now1 now2 rand st req :
  let l := LCreate now1 now2 rand req in
  forall id s, ra_sessions st !! id = Some s -> exists s', ra_sessions (fst (createRallySession now1 now2 rand st req)) !! id = Some s' /\
    (s' = s \/ replaced l id s').
Proof.
  intros l id s Hs. destruct (create_cases now1 now2 rand st req) as [[e ->]|(b & s' & Hb & _ & _ & Hps & Es & ->)]; cbn [fst]; [exists s; auto|].
  change (ra_sessions (put_session st (generateRallyID now1 b) s')) with (<[generateRallyID now1 b := s']> (ra_sessions st)).
  destruct (decide (generateRallyID now1 b = id)) as [E|E].
  - exists s'. rewrite E, lookup_insert_eq. split; [done|]. right. exists now1, now2, b, req. rewrite <-Hb. split_and!; [done..|].
    rewrite Es. apply new_session_token.
  - exists s. rewrite lookup_insert_ne by done. auto.
Qed.

(** C2: refinement to an abstract baton.  Whatever handler, reader or deferred close
    runs, an existing session keeps its participants and its token takes one step of
    the specification: it stays, goes from rest to the first participant at turn 1, goes
    from its holder to a different participant with the turn number increased by one,
    or is gone (no rule leaves [Gone]).  So two participants never hold it, it never comes to
    rest again, and a turn number is never used twice.  There is one exception, and the theorem
    says which: a creation whose random id is that of the session puts a new session in its place,
    at rest or with the first holder of the request at turn 1. *)
Theorem token_refinement st l st' id s :
  Reachable st -> run_label l st = Some st' -> ra_sessions st !! id = Some s ->
  exists s', ra_sessions st' !! id = Some s' /\
    (rl_participants s' = rl_participants s /\ token_step (rl_participants s) (token s) (token s') \/ replaced l id s').
Proof.
  intros HI%reachable_inv Hl. revert id s.
  enough (forall id s, ra_sessions st !! id = Some s -> exists s', ra_sessions st' !! id = Some s' /\ (moves s s' \/ replaced l id s')) by eauto.
  assert (HM : sessions_move st st' -> forall id s, ra_sessions st !! id = Some s -> exists s', ra_sessions st' !! id = Some s' /\ (moves s s' \/ replaced l id s')).
  { intros H id s Hs. destruct (H id s Hs) as (s' & ? & ?). eauto. }
  pose proof (fun H => HM (sessions_rel_mono _ _ _ _ stays_moves H)) as HS.
  destruct l; cbn in Hl.
  - injection Hl as <-. intros id s Hs. destruct (move_create now1 now2 rand st req id s Hs) as (s' & Hs' & [->|H]); eauto. exists s. split; [done|]. by left.
  - destruct (join _ _ _ _ _) as [[? ?]|] eqn:E; simplify_eq/=. apply HM. eapply sessions_rel_mono; [|by eapply move_join]. by intros ?? [? _].
  - destruct (reader_step _ _ _) as [[? ?]|] eqn:E; simplify_eq/=; [apply HS, (move_reader _ _ _ _ _ E)|by apply HM, sessions_move_eq].
  - destruct (mcpToolRallyDone _ _ _ _ _ _) as [[? ?]|] eqn:E; simplify_eq/=. apply HM.
    apply done_valid in E as [(e & _ & ->)|[Hv E]]; [by apply sessions_move_eq|by apply (move_advance _ _ _ _ _ _ _ HI Hv E)].
  - apply HM. unfold interruptRallySession in Hl. destruct (ra_sessions st !! id) as [s0|] eqn:Hs0; [|simplify_eq/=; by apply sessions_move_eq].
    destruct (interrupt_session st id s0) eqn:E; simplify_eq/=. by apply (move_interrupt _ _ _ _ HI Hs0 E).
  - apply HM. intros id s Hs. destruct (interrupt_all_sessions _ _ _ _ _ HI Hl Hs); eauto using moves_interrupted. exists s. split; [done|reflexivity].
  - apply HM. case_bool_decide; [|simplify_eq; by apply sessions_move_eq]. unfold close_pending in Hl.
    destruct (close_chan _ _); simplify_eq. by apply sessions_move_eq.
  - apply HS. simplify_eq. unfold setRallyStaleThreshold. destruct (ra_sessions st !! id) as [s0|] eqn:Hs0; [|by apply sessions_move_eq].
    eapply sessions_move_put; [exact Hs0|done|]. by split.
Qed.

(** ** No panic, well-formed sessions *)

(** C3: no interleaving panics.  In every state the broker can reach, every handler,
    every reader step and every deferred close runs to its end: no event is sent on a
    closed channel and no channel is closed twice, although the channels are closed after
    the lock is released. *)
Theorem rally_no_panic st l : Reachable st -> exists st', run_label l st = Some st'.
Proof. intros H%reachable_inv. destruct (run_label_ok l st H) as (st' & H' & _). by exists st'. Qed.

Definition demo_req : NewRallyRequest := mkNewRallyRequest ["alice"; "bob"; "carol"] "" "[pattern:cycle] go" "alice".
Definition demo_id : string := generateRallyID 1700 "ab".
Definition demo_create : Label := LCreate 1700 1700 (Some "ab") demo_req.
Definition run_labels (ls : list Label) (st : Rallies) : option Rallies :=
  foldl (fun o l => match o with Some st => run_label l st | None => None end) (Some st) ls.

(** A state computed from the initial one is reachable. *)
Lemma run_labels_reachable ls st st' : Reachable st -> run_labels ls st = Some st' -> Reachable st'.
Proof.
  unfold run_labels. revert st. induction ls as [|l ls IH]; intros st Hst; cbn [foldl]; [by intros [= <-]|].
  destruct (run_label l st) as [st1|] eqn:E; [apply IH; by econstructor|].
  intros H. exfalso. clear -H. by induction ls.
Qed.

Definition demo (ls : list Label) : Rallies :=
  match run_labels (demo_create :: ls) newRallyStore with Some st => st | None => newRallyStore end.

Lemma demo_reachable ls : Reachable (demo ls).
Proof.
  unfold demo. destruct (run_labels _ _) eqn:E; [|constructor].
  eapply run_labels_reachable; [|exact E]. constructor.
Qed.

Lemma rally_no_panic_witness :
  exists st', run_label (LDone 1800 demo_id "alice" "over to you" "bob") (demo [LJoin 1750 SSE demo_id "bob"]) = Some st'.
Proof. apply (rally_no_panic (demo [LJoin 1750 SSE demo_id "bob"])). apply demo_reachable. Defined.

(** C37: every session of a reachable state is well formed: at least two distinct valid
    participants; it is idle with no holder, turn 0 and no history, or it is the turn of
    its holder, a participant, with a turn number one more than the handoffs made, or it
    is interrupted with neither holder nor stream; the handoffs are numbered from 2
    without a gap, each from one participant to another, each made by the receiver of
    the one before, and the last receiver holds the baton. *)
Theorem sessions_well_formed st id s : Reachable st -> ra_sessions st !! id = Some s -> session_ok s.
Proof. intros HI%reachable_inv. apply (inv_sessions _ HI). Qed.

(** Creation accepts exactly the requests with at least two participants, all valid,
    all distinct, and a first holder that is empty or one of them (the random source
    permitting); a refused one leaves the store as it is, an accepted one adds a session
    with these participants in this order and the baton with the first holder, or
    at rest. *)
Theorem createRallySession_spec now1 now2 rand st req :
  let '(st', r) := createRallySession now1 now2 rand st req in
  let acceptable := (2 <= List.length (nr_Participants req))%nat /\ NoDup (nr_Participants req) /\
    Forall (fun p => participantNameRe p = true) (nr_Participants req) /\
    (nr_FirstHolder req = "" \/ nr_FirstHolder req ∈ nr_Participants req) in
  match r with
  | inl _ => st' = st /\ (acceptable -> rand = None)
  | inr pub =>
      acceptable /\ exists b s, rand = Some b /\ st' = put_session st (generateRallyID now1 b) s /\ pub = toPublic s now2 /\
        rl_participants s = nr_Participants req /\
        token s = if String.eqb (nr_FirstHolder req) "" then Resting else Held (nr_FirstHolder req) 1
  end.
Proof.
  unfold createRallySession. destruct (Nat.ltb_spec (List.length (nr_Participants req)) 2) as [|H2]; [split; [done|lia]|].
  destruct (validate_participants [] _) as [e|names] eqn:Hv.
  { split; [done|]. intros (_ & Hnd & HF & _). exfalso.
    enough (inl e = inr (nr_Participants req)) by done. rewrite <- Hv. apply validate_participants_ok.
    split_and!; [done..| |done]. intros ? _ []%elem_of_nil. }
  apply validate_participants_ok in Hv as (-> & Hnd & _ & HF).
  destruct (validate_first_holder _ _) as [e|fh] eqn:Hf.
  { split; [done|]. intros (_ & _ & _ & Hin). exfalso.
    enough (inl e = inr (nr_FirstHolder req)) by done. rewrite <- Hf. apply validate_first_holder_ok.
    split; [done|]. destruct Hin as [?|Hin]; [by left|right]. split; [|done]. by rewrite Forall_forall in HF; apply HF. }
  apply validate_first_holder_ok in Hf as [-> Hf]. destruct rand as [b|]; [|done].
  split; [split_and!; [done..|naive_solver]|]. eexists b, _. split_and!; [done..| |].
  - unfold new_session. by case_match.
  - unfold new_session, token. destruct (String.eqb_spec (nr_FirstHolder req) "") as [E|E]; cbn; [done|].
    rewrite (proj2 (String.eqb_neq (RallyTurnState _) _)) by apply turn_state_interrupted.
    by rewrite (proj2 (String.eqb_neq _ _) E).
Qed.

Definition session_of (st : Rallies) (id : string) : rallySession :=
  default (new_session 0 "" [] "" demo_req) (ra_sessions st !! id).

Lemma sessions_well_formed_witness :
  session_ok (session_of (demo [LDone 1800 demo_id "alice" "" ""]) demo_id).
Proof.
  apply (sessions_well_formed (demo [LDone 1800 demo_id "alice" "" ""]) demo_id); [apply demo_reachable|].
  vm_compute. reflexivity.
Defined.

Lemma token_refinement_witness :
  exists s', ra_sessions (demo [LDone 1800 demo_id "alice" "" "carol"]) !! demo_id = Some s' /\
    (rl_participants s' = rl_participants (session_of (demo []) demo_id) /\
     token_step (rl_participants (session_of (demo []) demo_id)) (token (session_of (demo []) demo_id)) (token s') \/
     replaced (LDone 1800 demo_id "alice" "" "carol") demo_id s').
Proof.
  apply (token_refinement (demo []) (LDone 1800 demo_id "alice" "" "carol")).
  - apply demo_reachable.
  - vm_compute. reflexivity.
  - vm_compute. reflexivity.
Defined.

(** ** Done *)

(** The requests [done] accepts in a session. *)
Definition may_pass (s : rallySession) (as_ ht : string) : Prop :=
  rl_status s <> RallyStateInterrupted /\ rl_holder s = as_ /\
  (ht = "" \/ ht <> as_ /\ ht ∈ rl_participants s).

(** The buffer of a connected successor after the handoff. *)
Definition notified (st st' : Rallies) (s : rallySession) (next : string) (ev : BatonEvent) : Prop :=
  forall ch, rl_streams s !! next = Some ch ->
    exists b, ra_chans st !! ch = Some (mkChan b false) /\
      ra_chans st' !! ch = Some (mkChan (Some (match b with Some old => old | None => ev end)) false).

Lemma try_send_buffer m ch ev m' b :
  try_send m ch ev = Some (m', b) ->
  exists b, m !! ch = Some (mkChan b false) /\
    m' !! ch = Some (mkChan (Some (match b with Some old => old | None => ev end)) false).
Proof.
  unfold try_send. destruct (m !! ch) as [[b0 cl]|] eqn:E; [|done]. cbn. destruct cl; [done|].
  destruct b0 as [old|]; intros [= <- <-]; eexists; (split; [done|]); [by rewrite E|by rewrite lookup_insert_eq].
Qed.

Lemma advance_accepts now st id as_ req s :
  Inv st -> ra_sessions st !! id = Some s -> may_pass s as_ (d_HandoffTo req) ->
  exists st' pub, advanceRallyBaton now st id as_ req = Some (st', inr pub).
Proof.
  intros HI Hs (Hi & Hh & Hht). pose proof (inv_sessions _ HI _ _ Hs) as Hok.
  destruct (advance_total now st id as_ req HI) as [[st' [e|pub]] E]; [|by eexists _, _].
  exfalso. revert E. unfold advanceRallyBaton, validate_handoff, NewParticipantName. rewrite Hs.
  rewrite (proj2 (String.eqb_neq _ _) Hi), Hh, String.eqb_refl. cbn [negb].
  destruct (String.eqb_spec (d_HandoffTo req) "") as [He|He]; cbn [negb andb].
  - cbn zeta. cbn. by repeat case_match.
  - destruct Hht as [?|[Hne Hm]]; [done|]. pose proof (ok_names _ Hok) as HF. rewrite Forall_forall in HF.
    rewrite (HF _ Hm). cbn. rewrite (proj2 (String.eqb_neq _ _) Hne).
    rewrite (proj2 (String.eqb_neq _ _) He), (proj2 (member_spec _ _) Hm). cbn. by repeat case_match.
Qed.

(** [done], on every branch.  It succeeds exactly when the ids are well formed, the
    session exists and is not interrupted, the caller is its holder and the requested
    receiver, if any, is another participant; then the baton goes to that receiver, or
    else to the next participant of the ring, never back to the caller, the turn number
    is one more, the history gains this handoff, a connected receiver with an empty
    buffer finds the event in it, and other sessions are untouched.  A refusal changes
    nothing. *)
Theorem done_spec now st id as_ note ht st' r :
  Reachable st -> mcpToolRallyDone now st id as_ note ht = Some (st', r) ->
  match r with
  | inl _ =>
      st' = st /\ forall s, sessionIDRe id = true -> participantNameRe as_ = true ->
        ra_sessions st !! id = Some s -> ~ may_pass s as_ ht
  | inr pub =>
      sessionIDRe id = true /\ exists s i next s',
        ra_sessions st !! id = Some s /\ may_pass s as_ ht /\ rl_participants s !! i = Some as_ /\
        next = (if String.eqb ht "" then nth_name (rl_participants s) ((i + 1) mod List.length (rl_participants s)) else ht) /\
        next <> as_ /\ next ∈ rl_participants s /\
        s' = s <| rl_turnN := (rl_turnN s + 1)%Z |>
               <| rl_history := (rl_history s ++ [mkBatonHandoff as_ next (rl_turnN s + 1) note now])%list |>
               <| rl_holder := next |> <| rl_status := RallyTurnState next |> /\
        ra_sessions st' = <[id := s']> (ra_sessions st) /\ pub = toPublic s' now /\
        notified st st' s next (mkBatonEvent (rl_turnN s + 1) as_ note false)
  end.
Proof.
  intros HI%reachable_inv H. pose proof H as H0. apply done_valid in H as [(e & -> & ->)|[Hv H]].
  { split; [done|]. intros s Hid Hn Hs Hp. unfold mcpToolRallyDone, NewSessionID, NewParticipantName in H0.
    rewrite Hid, Hn in H0. cbn in H0. destruct (advance_accepts now st id as_ (mkDoneRequest note ht) s) as (? & ? & E); [done..|congruence]. }
  destruct r as [e|pub].
  { pose proof (advance_failure _ _ _ _ _ _ _ H) as ->. split; [done|]. intros s _ _ Hs Hp.
    destruct (advance_accepts now st id as_ (mkDoneRequest note ht) s) as (? & ? & E); [done..|congruence]. }
  split. { unfold mcpToolRallyDone, NewSessionID in H0. by destruct (sessionIDRe id). }
  apply advance_success in H as (s & Hs & Hi & Hh & Hht & -> & _ & -> & Hev). cbn [d_HandoffTo d_Note] in *.
  pose proof (inv_sessions _ HI _ _ Hs) as Hok. destruct (holder_turn s) as (_ & Hm & _); [done..|rewrite Hh; by intros ->|].
  rewrite Hh in Hm. pose proof Hm as [i Hi']%list_elem_of_lookup.
  destruct (nextParticipant_other s as_ ht) as [Hn Hne]; [done..|].
  exists s, i, (nextParticipant s as_ ht), (hand_over now s as_ (nextParticipant s as_ ht) note).
  split_and!; [done..| |done|done|done|done|done|].
  - destruct (String.eqb_spec ht "") as [->|He]; [by apply nextParticipant_ring; [apply Hok|]|].
    apply nextParticipant_preferred; naive_solver.
  - intros ch Hch. rewrite Hch in Hev. destruct Hev as [b Hev]. by eapply try_send_buffer.
Qed.

Definition demo_bob : Rallies := demo [LJoin 1750 SSE demo_id "bob"].
Definition demo_after : Rallies := demo [LJoin 1750 SSE demo_id "bob"; LDone 1900 demo_id "alice" "over" ""].

Lemma done_spec_witness :
  sessionIDRe demo_id = true /\ rl_holder (session_of demo_after demo_id) = "bob".
Proof.
  split; [|vm_compute; reflexivity].
  apply (done_spec 1900 demo_bob demo_id "alice" "over" "" demo_after (inr (toPublic (session_of demo_after demo_id) 1900))).
  - apply demo_reachable.
  - vm_compute. reflexivity.
Defined.

(** ** The round robin *)

(** What leaves the order of a session alone: anything but an interruption of it, a creation that draws
    its id, and a [done] in it that names a receiver. *)
Definition undisturbed (id : string) (l : Label) : Prop :=
  match l with
  | LCreate now1 _ (Some b) _ => generateRallyID now1 b <> id
  | LDone _ id' _ _ ht => id' <> id \/ ht = ""
  | LInterrupt _ id' => id' <> id
  | LCloseAll => False
  | _ => True
  end.

(** The participants the baton came to, one for every step that raised the turn number. *)
Fixpoint receivers (id : string) (ls : list Label) (st : Rallies) : list string :=
  match ls with
  | [] => []
  | l :: ls =>
      match run_label l st with
      | None => []
      | Some st' =>
          (match ra_sessions st !! id, ra_sessions st' !! id with
           | Some s, Some s' => if (rl_turnN s' =? rl_turnN s)%Z then [] else [rl_holder s']
           | _, _ => []
           end ++ receivers id ls st')%list
      end
  end.

Lemma token_Held s p n : token s = Held p n -> rl_status s <> RallyStateInterrupted /\ rl_holder s = p /\ rl_turnN s = n.
Proof. unfold token. destruct (String.eqb_spec (rl_status s) RallyStateInterrupted); [done|]. destruct (String.eqb _ ""); [done|]. by intros [= <- <-]. Qed.

(** The participant [k] places further round the ring. *)
Definition ring (ps : list string) (i k : nat) : option string := ps !! ((i + k) mod List.length ps)%nat.

Lemma ring_next ps i k p : ps !! i = Some p -> ring ps ((i + 1) mod List.length ps) k = ring ps i (S k).
Proof. intros _. unfold ring. rewrite Nat.Div0.add_mod_idemp_l. do 2 f_equal. lia. Qed.

(** One undisturbed step: the token stays, or goes to the next of the ring. *)
Definition passes_on (i : nat) (s s' : rallySession) : Prop :=
  forall p n, token s = Held p n -> rl_participants s !! i = Some p ->
    rl_participants s' = rl_participants s /\
    (token s' = Held p n \/ exists q, ring (rl_participants s) i 1 = Some q /\ token s' = Held q (n + 1)).

#[local] Instance passes_refl i : Reflexive (passes_on i).
Proof. intros s p n Ht _. auto. Qed.

Lemma stays_passes i s s' : stays s s' -> passes_on i s s'.
Proof. intros [E1 E2] p n Ht _. split; [done|]. left. by rewrite E2. Qed.
Lemma starts_passes i s s' : starts s s' -> passes_on i s s'.
Proof. intros [[E _] H] p n Ht _. split; [done|]. left. rewrite H; [done|by rewrite Ht]. Qed.

Lemma advance_passes i now st id as_ note ht st' r id' s' : Inv st -> participantNameRe as_ = true -> id <> id' \/ ht = "" ->
  advanceRallyBaton now st id as_ (mkDoneRequest note ht) = Some (st', r) -> ra_sessions st !! id' = Some s' ->
  exists s'', ra_sessions st' !! id' = Some s'' /\ passes_on i s' s''.
Proof.
  intros HI Hv Hq H Hs'. destruct r as [e|pub]; [apply advance_failure in H as ->; by exists s'|].
  apply advance_success in H as (s & Hs & Hi & Hh & _ & _ & _ & Est & _). pose proof (inv_sessions _ HI _ _ Hs) as Hok.
  apply (f_equal ra_sessions) in Est. cbn in Est. rewrite Est. destruct (decide (id = id')) as [<-|Hne]; [|exists s'; by rewrite lookup_insert_ne].
  assert (s' = s) as -> by congruence. destruct Hq as [?| ->]; [done|]. eexists. split; [by apply lookup_insert_eq|].
  intros p n (_ & Hp & Hn)%token_Held Hip. split; [done|]. right. rewrite Hp in Hh. subst as_. cbn [d_HandoffTo].
  pose proof (nextParticipant_ring s i p (ok_nodup _ Hok) Hip) as Hr. pose proof (lookup_lt_Some _ _ _ Hip) as Hlt.
  assert (Hnx : ring (rl_participants s) i 1 = Some (nextParticipant s p "")).
  { unfold ring. rewrite Hr. apply nth_name_lookup, Nat.mod_upper_bound. lia. }
  exists (nextParticipant s p ""). split; [done|]. destruct (holder_turn s) as (Hst & Hm & _); [done..|rewrite Hp; by intros ->|]. rewrite Hp in Hst, Hm.
  destruct (nextParticipant_other s p "") as [Hin Hne]; [done|done|by left|].
  rewrite token_held; [cbn; by rewrite Hn|by apply hand_over_ok|done|done].
Qed.

Lemma step_passes i l st st' id s : Inv st -> run_label l st = Some st' -> undisturbed id l -> ra_sessions st !! id = Some s ->
  exists s', ra_sessions st' !! id = Some s' /\ passes_on i s s'.
Proof.
  intros HI Hl Hu Hs. assert (HR : sessions_rel (passes_on i) st st' -> exists s', ra_sessions st' !! id = Some s' /\ passes_on i s s') by (intros H; by apply H).
  destruct l; cbn in Hl, Hu.
  - injection Hl as <-. destruct (move_create now1 now2 rand st req id s Hs) as (s' & Hs' & [->|(? & ? & b & ? & [= <- <- -> <-] & E & _)]); [by exists s|done].
  - destruct (join _ _ _ _ _) as [[? ?]|] eqn:E; simplify_eq/=. apply HR. eapply sessions_rel_mono; [apply starts_passes|by eapply move_join].
  - apply HR. destruct (reader_step _ _ _) as [[? ?]|] eqn:E; simplify_eq/=; [|by apply sessions_move_eq].
    eapply sessions_rel_mono; [apply stays_passes|by eapply move_reader].
  - destruct (mcpToolRallyDone _ _ _ _ _ _) as [[? ?]|] eqn:E; simplify_eq/=. apply done_valid in E as [(e & _ & ->)|[Hv E]]; [by exists s|].
    by eapply advance_passes.
  - unfold interruptRallySession in Hl. destruct (ra_sessions st !! id0) as [s0|] eqn:Hs0; [|simplify_eq/=; by exists s].
    destruct (interrupt_session st id0 s0) eqn:E; simplify_eq/=. destruct (interrupt_session_ok _ _ _ HI Hs0) as (st1 & H1 & _ & Hc).
    rewrite E in H1. injection H1 as <-. destruct Hc as [[_ ->]|(_ & Est & _)]; [by exists s|]. exists s. by rewrite Est, lookup_insert_ne.
  - done.
  - apply HR. case_bool_decide; [|simplify_eq; by apply sessions_move_eq]. unfold close_pending in Hl.
    destruct (close_chan _ _); simplify_eq. by apply sessions_move_eq.
  - apply HR. simplify_eq. unfold setRallyStaleThreshold. destruct (ra_sessions st !! id0) as [s0|] eqn:Hs0; [|by apply sessions_move_eq].
    eapply sessions_move_put; [exact Hs0|done|]. apply stays_passes. by split.
Qed.

(** A whole turn of the ring is a permutation of it. *)
Lemma ring_window ps hs i k : ps <> [] -> (forall x q, hs !! x = Some q -> ring ps i (S x) = Some q) ->
  (k + List.length ps <= List.length hs)%nat -> take (List.length ps) (drop k hs) ≡ₚ ps.
Proof.
  intros Hps Hr Hk. set (n := List.length ps) in *. assert (Hn : (0 < n)%nat) by (destruct ps; [done|cbn in n; lia]).
  set (a := ((i + S k) mod n)%nat). assert (Ha : (a < n)%nat) by by apply Nat.mod_upper_bound; lia.
  assert (E : take n (drop k hs) = (drop a ps ++ take a ps)%list).
  { apply list_eq. intros x. destruct (decide (x < n)%nat) as [Hx|Hx].
    - rewrite lookup_take_lt, lookup_drop by done. destruct (lookup_lt_is_Some_2 hs (k + x)) as [q Hq]; [lia|]. rewrite Hq. symmetry.
      specialize (Hr _ _ Hq). unfold ring in Hr. fold n in Hr. rewrite <-Hr.
      assert (Em : ((i + S (k + x)) mod n = (a + x) mod n)%nat).
      { unfold a. rewrite Nat.Div0.add_mod_idemp_l. f_equal. lia. }
      rewrite Em. destruct (decide (a + x < n)%nat) as [Hlt|Hge].
      + rewrite lookup_app_l by (rewrite length_drop; fold n; lia). by rewrite lookup_drop, Nat.mod_small.
      + rewrite lookup_app_r, length_drop by (rewrite length_drop; fold n; lia). fold n.
        rewrite lookup_take_lt by lia. f_equal. replace (a + x)%nat with ((a + x - n) + 1 * n)%nat by lia. rewrite Nat.Div0.mod_add, Nat.mod_small by lia. lia.
    - rewrite !lookup_ge_None_2; [done|rewrite length_app, length_drop, length_take; fold n; lia|rewrite length_take, length_drop; lia]. }
  rewrite E, (Permutation_app_comm (drop a ps)), take_drop. done.
Qed.

Lemma run_passes ls : forall st st' id s p n i, Inv st -> Forall (undisturbed id) ls -> run_labels ls st = Some st' ->
  ra_sessions st !! id = Some s -> token s = Held p n -> rl_participants s !! i = Some p ->
  let hs := receivers id ls st in
  exists s' q, ra_sessions st' !! id = Some s' /\ Inv st' /\ rl_participants s' = rl_participants s /\
    token s' = Held q (n + Z.of_nat (List.length hs)) /\ ring (rl_participants s) i (List.length hs) = Some q /\
    forall x r, hs !! x = Some r -> ring (rl_participants s) i (S x) = Some r.
Proof.
  induction ls as [|l ls IH]; intros st st' id s p n i HI Hu Hrun Hs Ht Hip; cbn zeta.
  - injection Hrun as <-. exists s, p. cbn [receivers List.length]. pose proof (lookup_lt_Some _ _ _ Hip).
    split_and!; [done..|by rewrite Z.add_0_r| |by intros ? ? ?]. unfold ring. by rewrite Nat.add_0_r, Nat.mod_small.
  - inversion_clear Hu as [|? ? Hl Hu']. unfold run_labels in Hrun. cbn [foldl] in Hrun.
    destruct (run_label l st) as [st1|] eqn:E1; [|exfalso; clear -Hrun; by induction ls]. fold (run_labels ls st1) in Hrun.
    destruct (run_label_ok l st HI) as (st1' & E1' & HI1). assert (st1' = st1) as -> by congruence.
    destruct (step_passes i l st st1 id s HI E1 Hl Hs) as (s1 & Hs1 & Hp). destruct (Hp p n Ht Hip) as [Hps Hc].
    cbn [receivers]. rewrite E1, Hs, Hs1. apply token_Held in Ht as Ht'. destruct Ht' as (_ & _ & HT).
    destruct Hc as [Hc|(q & Hq & Hc)]; apply token_Held in Hc as Hc'; destruct Hc' as (_ & HH & HT1); rewrite HT, HT1.
    + rewrite Z.eqb_refl. cbn [app]. rewrite <-Hps. eapply IH; [done..|]. by rewrite Hps.
    + destruct (Z.eqb_spec (n + 1) n) as [|_]; [lia|]. rewrite HH. cbn [app].
      destruct (IH st1 st' id s1 q (n + 1)%Z ((i + 1) mod List.length (rl_participants s))%nat) as (s' & r & Hs' & HI' & Hps' & Ht' & Hr & Hx); [done..|by rewrite Hps|].
      rewrite Hps in *. exists s', r. cbn [List.length]. rewrite (ring_next _ _ _ p Hip) in Hr. split_and!; [done..|rewrite Ht'; f_equal; lia|done|].
      intros [|x] r' Hx'; cbn in Hx'; [by injection Hx' as <-|]. rewrite <-(ring_next _ _ _ p Hip). by apply Hx.
Qed.

(** C40: the default order is a fair round robin, whatever goes on in between.  Take a session that is
    somebody's turn and any sequence of handlers, readers, closes and dones, in this session and in
    others, in which nobody names a receiver in this session, interrupts it or draws its id.
    Then nothing panics, the baton goes one place further round the ring each time the turn number grows
    and not otherwise, any [n] consecutive receivers are the [n] participants, each once, and at the
    end the holder's [done], with any note at any time, succeeds and makes one more turn. *)
Theorem round_robin ls st id s p n i :
  Reachable st -> sessionIDRe id = true -> ra_sessions st !! id = Some s -> token s = Held p n -> rl_participants s !! i = Some p ->
  Forall (undisturbed id) ls ->
  let ps := rl_participants s in
  let hs := receivers id ls st in
  exists st' s' q, run_labels ls st = Some st' /\ ra_sessions st' !! id = Some s' /\ rl_participants s' = ps /\
    token s' = Held q (n + Z.of_nat (List.length hs)) /\ ring ps i (List.length hs) = Some q /\
    (forall k r, hs !! k = Some r -> ring ps i (S k) = Some r) /\
    (forall k, (k + List.length ps <= List.length hs)%nat -> take (List.length ps) (drop k hs) ≡ₚ ps) /\
    forall now note, exists st2 pub s2 q2, mcpToolRallyDone now st' id q note "" = Some (st2, inr pub) /\
      ra_sessions st2 !! id = Some s2 /\ ring ps i (S (List.length hs)) = Some q2 /\ token s2 = Held q2 (n + Z.of_nat (S (List.length hs))).
Proof.
  intros HI%reachable_inv Hid Hs Ht Hip Hu. cbn zeta.
  assert (Hrun : exists st', run_labels ls st = Some st').
  { clear -HI. revert st HI. induction ls as [|l ls IH]; intros st HI; [by exists st|]. unfold run_labels. cbn [foldl].
    destruct (run_label_ok l st HI) as (st1 & -> & HI1). by apply IH. }
  destruct Hrun as [st' Hrun]. destruct (run_passes ls st st' id s p n i HI Hu Hrun Hs Ht Hip) as (s' & q & Hs' & HI' & Hps & Ht' & Hq & Hx).
  assert (Hne : rl_participants s <> []) by (intros E; by rewrite E in Hip).
  exists st', s', q. split_and!; [done..|intros k Hk; by eapply ring_window|]. intros now note.
  apply token_Held in Ht' as Ht2. destruct Ht2 as (Hi' & Hh' & HT'). pose proof (inv_sessions _ HI' _ _ Hs') as Hok.
  assert (Hv : participantNameRe q = true).
  { pose proof (ok_names _ Hok) as HF. rewrite Forall_forall in HF. apply HF. rewrite Hps. by eapply list_elem_of_lookup_2. }
  destruct (advance_accepts now st' id q (mkDoneRequest note "") s') as (st2 & pub & E); [done|done|by split; [done|split; [done|by left]]|].
  assert (Hd : mcpToolRallyDone now st' id q note "" = Some (st2, inr pub)) by (unfold mcpToolRallyDone, NewSessionID, NewParticipantName; by rewrite Hid, Hv).
  set (i' := ((i + List.length (receivers id ls st)) mod List.length (rl_participants s))%nat).
  destruct (advance_passes i' now st' id q note "" st2 (inr pub) id s') as (s2 & Hs2 & Hp2); [done..|by right|done|done|].
  destruct (Hp2 q _ Ht') as [_ [Hc|(q2 & Hq2 & Hc)]]; [by rewrite Hps| |].
  { exfalso. apply advance_success in E as (s3 & Hs3 & _ & _ & _ & _ & _ & Est & _). assert (s3 = s') as -> by congruence.
    apply (f_equal ra_sessions) in Est. cbn in Est. rewrite Est, lookup_insert_eq in Hs2. injection Hs2 as <-.
    apply token_Held in Hc as (_ & _ & Hc). cbn in Hc. lia. }
  exists st2, pub, s2, q2. split_and!; [done..| |rewrite Hc; f_equal; lia]. rewrite Hps in Hq2. unfold ring in Hq2 |- *. unfold i' in Hq2.
  rewrite Nat.Div0.add_mod_idemp_l in Hq2. rewrite <-Hq2. do 2 f_equal. lia.
Qed.

(** Two dones by the holders with a join, a refused done and another session's life in between. *)
Definition busy : list Label :=
  [LJoin 1750 SSE demo_id "bob"; LDone 1800 demo_id "alice" "over" ""; LDone 1801 demo_id "alice" "again" ""; LReader 0 (Headers true);
   LCreate 1900 1900 (Some "cd") demo_req; LDone 2000 demo_id "bob" "" ""; LDone 2100 demo_id "carol" "" ""].
Lemma round_robin_witness : receivers demo_id busy (demo []) = ["bob"; "carol"; "alice"] /\
  take 3 (drop 0 (receivers demo_id busy (demo []))) ≡ₚ ["alice"; "bob"; "carol"].
Proof.
  destruct (round_robin busy (demo []) demo_id (session_of (demo []) demo_id) "alice" 1 0) as (st' & s' & q & _ & _ & _ & _ & _ & _ & H & _).
  - apply demo_reachable.
  - vm_compute. reflexivity.
  - vm_compute. reflexivity.
  - vm_compute. reflexivity.
  - vm_compute. reflexivity.
  - repeat constructor; cbn; try (by right); vm_compute; congruence.
  - assert (Hl : List.length (receivers demo_id busy (demo [])) = 3%nat) by (vm_compute; reflexivity).
    split; [vm_compute; reflexivity|]. apply (H 0%nat). rewrite Hl. vm_compute. lia.
Defined.

(** ** Joining and missing a turn *)

Lemma immediate_event_turn s as_ :
  session_ok s -> as_ ∈ rl_participants s ->
  let s' := fst (immediate_event s as_) in
  rl_holder s' = as_ -> rl_status s' = RallyTurnState as_ ->
  exists from note, snd (immediate_event s as_) = Some (mkBatonEvent (rl_turnN s') from note false) /\
    forall h, last (rl_history s) = Some h -> from = h_From h /\ note = h_Note h.
Proof.
  intros Hok Hm. cbn zeta. unfold immediate_event.
  destruct (String.eqb_spec (rl_status s) RallyStateIdle) as [Hidle|]; cbn [andb].
  - destruct (String.eqb _ as_); cbn [fst snd].
    + intros _ _. eexists _, _. split; [done|]. intros h Hl.
      destruct (ok_status _ Hok) as [(_ & _ & _ & E)|[(E & _)|(E & _)]]; [by rewrite E in Hl| |by rewrite Hidle in E].
      rewrite Hidle in E. by edestruct turn_state_idle.
    + case_match; reflect_bools; cbn [fst]; [rewrite Hidle in H; by edestruct turn_state_idle|].
      intros _ E. rewrite Hidle in E. by edestruct turn_state_idle.
  - destruct (String.eqb_spec (rl_status s) (RallyTurnState as_)) as [E|E]; cbn [fst snd]; [|done].
    intros _ _. destruct (last (rl_history s)) as [h|]; eexists _, _; (split; [done|]); naive_solver.
Qed.

(** A join never misses the turn.  When a join registers a stream and the baton is
    then with the joining participant, because it already held it or because a resting
    baton went to the first participant, the new channel holds an event with the number of
    the current turn, from the last giver with its note. *)
Theorem join_delivers_turn now t st id as_ st' ch s' :
  Reachable st -> join now t st id as_ = Some (st', JoinStream ch) ->
  ra_sessions st' !! id = Some s' -> rl_holder s' = as_ ->
  rl_streams s' !! as_ = Some ch /\
  exists from note, ra_chans st' !! ch = Some (mkChan (Some (mkBatonEvent (rl_turnN s') from note false)) false) /\
    forall h, last (rl_history s') = Some h -> from = h_From h /\ note = h_Note h.
Proof.
  intros HI%reachable_inv Hj Hs' Hh.
  assert (HI' : Inv st') by by eapply inv_join.
  destruct (join_cases now t st id as_ HI) as [(e & E & He)|(s & Hs & Hm & Hi & Hn & E)].
  { rewrite E in Hj. simplify_eq. by edestruct He. }
  cbn zeta in E. rewrite E in Hj. injection Hj as <- <-. cbn in Hs'. rewrite lookup_insert_eq in Hs'. injection Hs' as <-.
  set (s1 := _ <| rl_lastSeen := _ |>) in *. pose proof (inv_sessions _ HI _ _ Hs) as Hok.
  assert (Hok1 : session_ok s1) by by apply session_ok_register.
  pose proof (session_ok_immediate _ _ Hok1 Hm) as Hok2.
  assert (Hst : rl_status (fst (immediate_event s1 as_)) <> RallyStateInterrupted).
  { by apply immediate_same. }
  destruct (holder_turn _ Hok2 Hst) as (Hst2 & _); [rewrite Hh; exact (name_not_empty _ _ Hok Hm)|]. rewrite Hh in Hst2.
  destruct (immediate_event_turn s1 as_ Hok1 Hm Hh Hst2) as (from & note & Hev & Hlast).
  cbn. split.
  - rewrite immediate_streams. unfold s1. cbn. apply lookup_insert_eq.
  - exists from, note. rewrite lookup_insert_eq, Hev. split; [done|].
    intros h Hl. apply Hlast. by rewrite <- Hl, (proj1 (proj2 (immediate_same s1 as_))).
Qed.

Lemma join_delivers_turn_witness :
  exists from note, ra_chans (demo [LJoin 1750 SSE demo_id "alice"]) !! 0%nat =
    Some (mkChan (Some (mkBatonEvent (rl_turnN (session_of (demo [LJoin 1750 SSE demo_id "alice"]) demo_id)) from note false)) false).
Proof.
  destruct (join_delivers_turn 1750 SSE (demo []) demo_id "alice" (demo [LJoin 1750 SSE demo_id "alice"]) 0
              (session_of (demo [LJoin 1750 SSE demo_id "alice"]) demo_id)) as (_ & from & note & H & _).
  - apply demo_reachable.
  - vm_compute. reflexivity.
  - vm_compute. reflexivity.
  - vm_compute. reflexivity.
  - exists from, note. exact H.
Defined.

(** A handoff to a participant whose stream still holds an undelivered event is not
    announced.  The holder has changed and its turn number grown, but the one-slot
    buffer keeps the older event: the event of the current turn is dropped, and only a
    new join (see [join_delivers_turn]) can announce it. *)
Theorem full_buffer_drops_turn now st id as_ note ht st' pub s s' ch old :
  Reachable st -> mcpToolRallyDone now st id as_ note ht = Some (st', inr pub) ->
  ra_sessions st !! id = Some s -> ra_sessions st' !! id = Some s' ->
  rl_streams s !! rl_holder s' = Some ch -> ra_chans st !! ch = Some (mkChan (Some old) false) ->
  rl_turnN s' = (rl_turnN s + 1)%Z /\ rl_holder s' <> as_ /\
  ra_chans st' !! ch = Some (mkChan (Some old) false).
Proof.
  intros HI%reachable_inv H Hs Hs' Hch Hc. apply done_valid in H as [(e & [=] & _)|[Hv H]].
  apply advance_success in H as (s0 & Hs0 & Hi & Hh & Hht & _ & _ & Est & Hev).
  assert (s0 = s) as -> by congruence. apply (f_equal ra_sessions) in Est. cbn in Est.
  rewrite Est, lookup_insert_eq in Hs'. injection Hs' as <-. cbn in Hch |- *.
  pose proof (inv_sessions _ HI _ _ Hs) as Hok. destruct (holder_turn s) as (_ & Hm & _); [done..|rewrite Hh; by intros ->|].
  rewrite Hh in Hm. destruct (nextParticipant_other s as_ ht) as [_ Hne]; [done..|]. split_and!; [done|done|].
  cbn in Hev. rewrite Hch in Hev. destruct Hev as [b Hev]. apply try_send_buffer in Hev as (b0 & Hb & ->). by rewrite Hc in Hb; simplify_eq.
Qed.

Definition stuck_trace : list Label :=
  [LJoin 1750 SSE demo_id "bob"; LDone 1800 demo_id "alice" "first" "bob"; LDone 1810 demo_id "bob" "" "alice"].
Definition stuck_after : list Label := stuck_trace ++ [LDone 1820 demo_id "alice" "second" "bob"].

Lemma full_buffer_drops_turn_witness :
  rl_turnN (session_of (demo stuck_after) demo_id) = 4%Z /\
  ra_chans (demo stuck_after) !! 0%nat = Some (mkChan (Some (mkBatonEvent 2 "alice" "first" false)) false).
Proof.
  destruct (full_buffer_drops_turn 1820 (demo stuck_trace) demo_id "alice" "second" "bob" (demo stuck_after)
              (toPublic (session_of (demo stuck_after) demo_id) 1820)
              (session_of (demo stuck_trace) demo_id) (session_of (demo stuck_after) demo_id) 0
              (mkBatonEvent 2 "alice" "first" false)) as (H1 & _ & H2).
  - apply demo_reachable.
  - vm_compute. reflexivity.
  - vm_compute. reflexivity.
  - vm_compute. reflexivity.
  - vm_compute. reflexivity.
  - vm_compute. reflexivity.
  - split; [rewrite H1; vm_compute; reflexivity|exact H2].
Defined.

(** A join whose headers cannot be flushed keeps its registration: no goroutine
    reads the channel any more, and every later join of the participant is refused as
    already connected. *)
Theorem flush_failure_keeps_registration now t now' st id as_ st1 ch st2 d :
  Reachable st -> join now SSEOpening st id as_ = Some (st1, JoinStream ch) ->
  reader_step st1 ch (Headers false) = Some (st2, d) ->
  ra_readers st2 !! ch = None /\ join now' t st2 id as_ = Some (st2, JoinError ErrAlreadyConnected).
Proof.
  intros HI%reachable_inv Hj Hr.
  destruct (join_cases now SSEOpening st id as_ HI) as [(e & E & He)|(s & Hs & Hm & Hi & Hn & E)].
  { rewrite E in Hj. simplify_eq. by edestruct He. }
  cbn zeta in E. rewrite E in Hj. injection Hj as <- <-.
  unfold reader_step in Hr. cbn in Hr. rewrite !lookup_insert_eq in Hr. cbn in Hr. injection Hr as <- _.
  cbn. rewrite lookup_delete_eq. split; [done|]. unfold join. cbn. rewrite lookup_insert_eq.
  set (s1 := _ <| rl_lastSeen := _ |>).
  assert (Hp : rl_participants (fst (immediate_event s1 as_)) = rl_participants s) by apply (immediate_same s1 as_).
  rewrite Hp, (proj2 (member_spec _ _)) by done. cbn.
  assert (Hst : rl_status (fst (immediate_event s1 as_)) <> RallyStateInterrupted).
  { by apply immediate_same. }
  rewrite (proj2 (String.eqb_neq _ _) Hst), immediate_streams. unfold s1. cbn. by rewrite lookup_insert_eq.
Qed.

Definition unflushed : Rallies := demo [LJoin 1750 SSEOpening demo_id "bob"; LReader 0 (Headers false)].

Lemma flush_failure_keeps_registration_witness :
  join 1800 MCP unflushed demo_id "bob" = Some (unflushed, JoinError ErrAlreadyConnected).
Proof.
  apply (flush_failure_keeps_registration 1750 MCP 1800 (demo []) demo_id "bob"
           (demo [LJoin 1750 SSEOpening demo_id "bob"]) 0 unflushed Nothing).
  - apply demo_reachable.
  - vm_compute. reflexivity.
  - vm_compute. reflexivity.
Defined.

(** The two transports do the same.  For a JSON body that decodes, the HTTP handler
    of [done] changes the state exactly as the MCP tool does, and answers 200 with the
    session the tool returns, or the status of the tool's error, never 500. *)
Theorem handleRallyDone_mcp now st rawID asRaw body req :
  Decode (mkDoneRequest "" "") (into_struct DoneRequest_fields) body = Some req ->
  handleRallyDone now st json_type rawID asRaw body =
    option_map (fun '(st', r) => (st', match r with
                                       | inl e => fails (rally_status_code (Typed e))
                                       | inr pub => mkResponse 200 (Some pub)
                                       end))
      (mcpToolRallyDone now st rawID asRaw (d_Note req) (d_HandoffTo req)) /\
  forall st' e, mcpToolRallyDone now st rawID asRaw (d_Note req) (d_HandoffTo req) = Some (st', inl e) ->
    In (rally_status_code (Typed e)) [400; 404; 409]%Z.
Proof.
  intros HD. unfold handleRallyDone, mcpToolRallyDone, NewSessionID, NewParticipantName.
  rewrite String.eqb_refl, HD. cbn [negb]. destruct (sessionIDRe rawID); cbn [negb]; [|split; [done|]; intros ? ? [= _ <-]; cbn; auto].
  destruct (participantNameRe asRaw); cbn [negb]; [|split; [done|]; intros ? ? [= _ <-]; cbn; auto].
  replace (mkDoneRequest (d_Note req) (d_HandoffTo req)) with req by by destruct req.
  split; [by destruct (advanceRallyBaton now st rawID asRaw req) as [[? [?|?]]|]|].
  intros st' e. unfold advanceRallyBaton, validate_handoff, NewParticipantName.
  repeat case_match; intros; simplify_eq; cbn; auto.
Qed.

Lemma handleRallyDone_mcp_witness :
  rsp_code (default (fails 0) (snd <$> handleRallyDone 1900 demo_bob json_type demo_id "bob" "{}")) = 409%Z.
Proof. rewrite (proj1 (handleRallyDone_mcp 1900 demo_bob demo_id "bob" "{}" (mkDoneRequest "" "") eq_refl)). vm_compute. reflexivity. Defined.

(** An MCP join waits a positive time of at most five minutes, whatever the client
    asks, also when the product of milliseconds and nanoseconds wraps round; a request
    between one millisecond and five minutes is honoured exactly. *)
Theorem mcp_join_timeout_bounds ms :
  (0 < mcp_join_timeout ms <= 300000000000)%Z /\
  ((1 <= ms <= 300000)%Z -> mcp_join_timeout ms = (ms * 1000000)%Z).
Proof.
  unfold mcp_join_timeout. split.
  - destruct (Z.leb_spec (wrap64 (ms * 1000000)) 0); case_match; reflect_bools; lia.
  - intros H. assert (wrap64 (ms * 1000000) = ms * 1000000)%Z as ->.
    { unfold wrap64. rewrite Z.mod_small; lia. }
    destruct (Z.leb_spec (ms * 1000000) 0); [lia|]. destruct (Z.ltb_spec 300000000000 (ms * 1000000)); lia.
Qed.

Lemma mcp_join_timeout_bounds_witness : mcp_join_timeout 45000 = 45000000000%Z.
Proof. apply (proj2 (mcp_join_timeout_bounds 45000)). lia. Defined.
