(* ===== verification/Replay.v ===== *)
(** * Replay of the ledger

    [pkg/contract/replay.go]: the control graph reconstructed from a ledger, one step
    per entry, with the sequence edges inside each cycle, the handoff edges and the
    segmentation per cycle.  [reconstruct] is modelled as the two passes of the code,
    with its two maps and its slice updates; [reconstruct_spec] says what graph they
    build. *)

From S2P Require Import Prelude GoStrings Sha256 Json Codec Contract Ledger.
From Stdlib Require Import Ascii String Sorted.
#[local] Open Scope string_scope.

(* src: pkg/contract/replay.go 52-65 EdgeKind *)
Inductive EdgeKind : Set := EdgeSequence | EdgeHandoff.

(* src: pkg/contract/replay.go 67-76 Edge *)
Record Edge := mkEdge { e_To : nat; e_Kind : EdgeKind }.

(* src: pkg/contract/replay.go 78-104 Step *)
Record Step := mkStep {
  st_Index : nat; st_CycleID : string; st_Type : LedgerEventType; st_At : Z; st_Agent : string;
  st_Gate : string; st_HandoffTo : string; st_Summary : string; st_Out : list Edge }.
#[export] Instance eta_Step : Eta Step :=
  fun r => mkStep (st_Index r) (st_CycleID r) (st_Type r) (st_At r) (st_Agent r) (st_Gate r)
             (st_HandoffTo r) (st_Summary r) (st_Out r).

(* src: pkg/contract/replay.go 106-123 CycleSegment *)
Record CycleSegment := mkSegment { cs_CycleID : string; cs_Steps : list nat; cs_Terminal : LedgerEventType }.
#[export] Instance eta_CycleSegment : Eta CycleSegment :=
  fun r => mkSegment (cs_CycleID r) (cs_Steps r) (cs_Terminal r).

(* src: pkg/contract/replay.go 125-134 ControlGraph *)
Record ControlGraph := mkGraph { cg_Steps : list Step; cg_Cycles : list CycleSegment }.

(* src: pkg/contract/replay.go 36-50 BrokenLinkError *)
Inductive ReplayError : Set := BrokenLinkError (index : Z).

(** The projection of an entry. *)
(* src: pkg/contract/replay.go 180-189 reconstruct *)
Definition project (i : nat) (e : HarnessLedgerEntry) : Step :=
  mkStep i (CycleID e) (Type_ e) (At e) (Agent e) (Gate e) (HandoffTo e) (Summary e) [].

Definition add_edge (i : nat) (ed : Edge) (steps : list Step) : list Step :=
  alter (fun s => s <| st_Out := (st_Out s ++ [ed])%list |>) i steps.

(** The variables of the first pass. *)
(* src: pkg/contract/replay.go 163-178 reconstruct *)
Record Pass := mkPass {
  ps_steps : list Step; ps_cycles : list CycleSegment;
  ps_cycleAt : gmap string nat; ps_lastIdx : gmap string nat }.

(** One round of the first pass. *)
(* src: pkg/contract/replay.go 179-208 reconstruct *)
Definition pass_entry (p : Pass) (e : HarnessLedgerEntry) : Pass :=
  let i := List.length (ps_steps p) in
  let steps := (ps_steps p ++ [project i e])%list in
  let steps := match ps_lastIdx p !! CycleID e with
               | Some prevIdx => add_edge prevIdx (mkEdge i EdgeSequence) steps
               | None => steps
               end in
  let lastIdx := <[CycleID e := i]> (ps_lastIdx p) in
  match ps_cycleAt p !! CycleID e with
  | Some seg =>
      mkPass steps (alter (fun s => s <| cs_Steps := (cs_Steps s ++ [i])%list |>) seg (ps_cycles p))
        (ps_cycleAt p) lastIdx
  | None =>
      mkPass steps (ps_cycles p ++ [mkSegment (CycleID e) [i] ""])
        (<[CycleID e := List.length (ps_cycles p)]> (ps_cycleAt p)) lastIdx
  end.

(** The first index from [j] on whose entry satisfies [P]. *)
(* src: pkg/contract/replay.go 242-247 addHandoffEdges *)
Fixpoint find_from (P : HarnessLedgerEntry -> bool) (es : list HarnessLedgerEntry) (j : nat) : option nat :=
  match es with
  | [] => None
  | e :: r => if P e then Some j else find_from P r (S j)
  end.

Definition agent_is (a : string) (e : HarnessLedgerEntry) : bool := String.eqb (Agent e) a.
Definition in_cycle (c : string) (e : HarnessLedgerEntry) : bool := String.eqb (CycleID e) c.

(** The handoff target of entry [i], if any. *)
(* src: pkg/contract/replay.go 234-248 addHandoffEdges *)
Definition handoff_target (es : list HarnessLedgerEntry) (i : nat) (e : HarnessLedgerEntry) : option nat :=
  if negb (String.eqb (Type_ e) LedgerEventHandoffCreated) then None
  else if String.eqb (HandoffTo e) "" then None
  else find_from (agent_is (HandoffTo e)) (drop (S i) es) (S i).

(* src: pkg/contract/replay.go 228-249 addHandoffEdges *)
Definition addHandoffEdges (steps : list Step) (entries : list HarnessLedgerEntry) : list Step :=
  imap (fun i s =>
    match entries !! i with
    | Some e => match handoff_target entries i e with
                | Some j => s <| st_Out := (st_Out s ++ [mkEdge j EdgeHandoff])%list |>
                | None => s
                end
    | None => s
    end) steps.

(* src: pkg/contract/replay.go 218-223 reconstruct *)
Definition set_terminal (steps : list Step) (seg : CycleSegment) : CycleSegment :=
  match last (cs_Steps seg) with
  | Some i => match steps !! i with
              | Some s => seg <| cs_Terminal := st_Type s |>
              | None => seg
              end
  | None => seg
  end.

Definition empty_pass : Pass := mkPass [] [] ∅ ∅.

(* src: pkg/contract/replay.go 160-226 reconstruct *)
Definition reconstruct (entries : list HarnessLedgerEntry) : ControlGraph :=
  match entries with
  | [] => mkGraph [] []
  | _ =>
      let p := foldl pass_entry empty_pass entries in
      let steps := addHandoffEdges (ps_steps p) entries in
      mkGraph steps (map (set_terminal steps) (ps_cycles p))
  end.

(* src: pkg/contract/replay.go 136-148 Replay *)
Definition Replay (entries : list HarnessLedgerEntry) : ReplayError + ControlGraph :=
  let '(brokenIndex, ok) := VerifyChain entries in
  if negb ok then inl (BrokenLinkError brokenIndex) else inr (reconstruct entries).

(* src: pkg/contract/replay.go 150-158 ReplayVerified *)
Definition ReplayVerified (entries : list HarnessLedgerEntry) : ControlGraph := reconstruct entries.

(** ** The graph a ledger stands for *)

(** The next entry of the same cycle. *)
Definition next_in_cycle (es : list HarnessLedgerEntry) (i : nat) (e : HarnessLedgerEntry) : option nat :=
  find_from (in_cycle (CycleID e)) (drop (S i) es) (S i).

Definition edge_to (k : EdgeKind) (o : option nat) : list Edge :=
  match o with Some j => [mkEdge j k] | None => [] end.

(** The positions of the entries of a cycle, from position [j] on. *)
Fixpoint positions (c : string) (es : list HarnessLedgerEntry) (j : nat) : list nat :=
  match es with
  | [] => []
  | e :: r => if in_cycle c e then j :: positions c r (S j) else positions c r (S j)
  end.

(** The cycles in the order they are first seen. *)
Definition see (acc : list string) (e : HarnessLedgerEntry) : list string :=
  if decide (CycleID e ∈ acc) then acc else (acc ++ [CycleID e])%list.
Definition first_seen (es : list HarnessLedgerEntry) : list string := foldl see [] es.

Lemma find_from_snoc P es e j :
  find_from P (es ++ [e]) j =
  match find_from P es j with
  | Some k => Some k
  | None => if P e then Some (j + List.length es)%nat else None
  end.
Proof.
  revert j. induction es as [|x es IH]; intros j; cbn [app find_from List.length].
  - destruct (P e); [|done]. f_equal; lia.
  - destruct (P x); [done|]. rewrite IH. destruct (find_from P es (S j)); [done|].
    destruct (P e); [|done]. f_equal; lia.
Qed.

Lemma find_from_None P es j : find_from P es j = None <-> Forall (fun e => P e = false) es.
Proof.
  revert j. induction es as [|x es IH]; intros j; cbn [find_from]; [done|].
  rewrite Forall_cons. destruct (P x) eqn:E; [naive_solver|]. rewrite IH. naive_solver.
Qed.

(** [find_from] is the earliest match. *)
Lemma find_from_Some P es j k :
  find_from P es j = Some k <->
  exists n e, k = (j + n)%nat /\ es !! n = Some e /\ P e = true /\
    forall m e', (m < n)%nat -> es !! m = Some e' -> P e' = false.
Proof.
  revert j. induction es as [|x es IH]; intros j; cbn [find_from].
  { split; [done|]. by intros (n & e & _ & ? & _). }
  destruct (P x) eqn:E.
  - split.
    + intros [= <-]. exists 0%nat, x. split_and!; try done; lia.
    + intros (n & e & -> & Hn & He & Hm). destruct n as [|n]; [f_equal; lia|].
      exfalso. rewrite (Hm 0%nat x) in E; [done|lia|done].
  - rewrite IH. split.
    + intros (n & e & -> & Hn & He & Hm). exists (S n), e. split_and!; try done; [lia|].
      intros [|m] e' Hlt Hl; cbn in Hl; [by simplify_eq|eapply Hm; [|done]; lia].
    + intros (n & e & -> & Hn & He & Hm). destruct n as [|n]; cbn in Hn; [congruence|].
      exists n, e. split_and!; try done; [lia|]. intros m e' Hlt Hl. apply (Hm (S m)); [lia|done].
Qed.

Lemma positions_snoc c es e j :
  positions c (es ++ [e]) j = (positions c es j ++ if in_cycle c e then [(j + List.length es)%nat] else [])%list.
Proof.
  revert j. induction es as [|x es IH]; intros j; cbn [app positions List.length].
  - rewrite Nat.add_0_r. by destruct (in_cycle c e).
  - rewrite IH. replace (S j + List.length es)%nat with (j + S (List.length es))%nat by lia.
    by destruct (in_cycle c x).
Qed.

Lemma first_seen_snoc es e : first_seen (es ++ [e]) = see (first_seen es) e.
Proof. apply foldl_snoc. Qed.

Lemma first_seen_elem es c : c ∈ first_seen es <-> exists e, e ∈ es /\ CycleID e = c.
Proof.
  induction es as [|e es IH] using rev_ind; [set_solver|].
  rewrite first_seen_snoc. unfold see. destruct (decide (CycleID e ∈ first_seen es)) as [H|H]; set_solver.
Qed.

Lemma first_seen_NoDup es : NoDup (first_seen es).
Proof.
  induction es as [|e es IH] using rev_ind; [constructor|].
  rewrite first_seen_snoc. unfold see. destruct (decide (CycleID e ∈ first_seen es)) as [H|H]; [done|].
  apply NoDup_app. split_and!; [done|set_solver|apply NoDup_singleton].
Qed.

(** ** The invariant of the first pass *)

Record pass_ok (es : list HarnessLedgerEntry) (p : Pass) : Prop := {
  po_steps : ps_steps p =
    imap (fun i e => (project i e) <| st_Out := edge_to EdgeSequence (next_in_cycle es i e) |>) es;
  po_last : forall c i, ps_lastIdx p !! c = Some i <->
    exists e, es !! i = Some e /\ CycleID e = c /\ next_in_cycle es i e = None;
  po_cycles : ps_cycles p = map (fun c => mkSegment c (positions c es 0) "") (first_seen es);
  po_cycleAt : forall c k, ps_cycleAt p !! c = Some k <-> first_seen es !! k = Some c;
}.

Lemma next_in_cycle_snoc es e i x :
  es !! i = Some x ->
  next_in_cycle (es ++ [e]) i x =
  match next_in_cycle es i x with
  | Some k => Some k
  | None => if in_cycle (CycleID x) e then Some (List.length es) else None
  end.
Proof.
  intros Hi. apply lookup_lt_Some in Hi. unfold next_in_cycle.
  rewrite drop_app_le by lia. rewrite find_from_snoc, length_drop.
  replace (S i + (List.length es - S i))%nat with (List.length es) by lia. done.
Qed.

Lemma next_in_cycle_last es e : next_in_cycle (es ++ [e]) (List.length es) e = None.
Proof. unfold next_in_cycle. rewrite drop_ge; [done|]. rewrite length_app. cbn. lia. Qed.

Lemma next_None_unique es i j x y :
  es !! i = Some x -> es !! j = Some y -> CycleID x = CycleID y ->
  next_in_cycle es i x = None -> next_in_cycle es j y = None -> i = j.
Proof.
  assert (Hlt : forall i j x y, es !! i = Some x -> es !! j = Some y -> CycleID x = CycleID y ->
            next_in_cycle es i x = None -> (i < j)%nat -> False).
  { clear. intros i j x y Hi Hj E Hn Hlt. unfold next_in_cycle in Hn. apply find_from_None in Hn.
    rewrite Forall_lookup in Hn. specialize (Hn (j - S i)%nat y). rewrite lookup_drop in Hn.
    replace (S i + (j - S i))%nat with j in Hn by lia. specialize (Hn Hj).
    unfold in_cycle in Hn. by rewrite E, String.eqb_refl in Hn. }
  intros Hi Hj E H1 H2. destruct (lt_eq_lt_dec i j) as [[H|H]|H]; [exfalso|done|exfalso]; eauto.
Qed.

Lemma in_cycle_spec c e : in_cycle c e = true <-> CycleID e = c.
Proof. apply String.eqb_eq. Qed.

Lemma in_cycle_false c e : in_cycle c e = false <-> CycleID e <> c.
Proof. apply String.eqb_neq. Qed.

Lemma pass_ok_lengths es p : pass_ok es p -> List.length (ps_steps p) = List.length es.
Proof. intros H. by rewrite (po_steps _ _ H), length_imap. Qed.

(** The steps after one more entry. *)
Lemma pass_steps_snoc es p e :
  pass_ok es p ->
  ps_steps (pass_entry p e) =
  imap (fun i x => (project i x) <| st_Out := edge_to EdgeSequence (next_in_cycle (es ++ [e]) i x) |>) (es ++ [e]).
Proof.
  intros H. pose proof (pass_ok_lengths _ _ H) as Hn.
  assert (Es : ps_steps (pass_entry p e) =
    match ps_lastIdx p !! CycleID e with
    | Some prevIdx => add_edge prevIdx (mkEdge (List.length es) EdgeSequence) (ps_steps p ++ [project (List.length es) e])%list
    | None => (ps_steps p ++ [project (List.length es) e])%list
    end).
  { unfold pass_entry. rewrite Hn. by destruct (ps_cycleAt p !! CycleID e). }
  rewrite Es. clear Es. rewrite imap_app. cbn [imap].
  assert (Elast : (project (0 + List.length es) e)
      <| st_Out := edge_to EdgeSequence (next_in_cycle (es ++ [e]) (0 + List.length es) e) |> = project (List.length es) e).
  { cbn [Nat.add]. by rewrite next_in_cycle_last. }
  unfold compose. rewrite Nat.add_0_r. cbn [Nat.add] in Elast. rewrite Elast. clear Elast.
  destruct (ps_lastIdx p !! CycleID e) as [q|] eqn:Hq.
  - apply (po_last _ _ H) in Hq as (x & Hx & Hc & Hnx). apply lookup_lt_Some in Hx as Hlt.
    unfold add_edge. rewrite alter_app_l by (rewrite Hn; done). f_equal.
    apply list_eq. intros i. rewrite list_lookup_imap. rewrite (po_steps _ _ H).
    destruct (decide (i = q)) as [->|Hne].
    + rewrite list_lookup_alter_eq, list_lookup_imap, Hx. cbn [fmap option_fmap option_map]. f_equal.
      rewrite (next_in_cycle_snoc _ _ _ _ Hx), Hnx, Hc. assert (in_cycle (CycleID e) e = true) as -> by by apply in_cycle_spec.
      done.
    + rewrite list_lookup_alter_ne, list_lookup_imap by done.
      destruct (es !! i) as [y|] eqn:Hy; [|done]. cbn [fmap option_fmap option_map]. f_equal.
      rewrite (next_in_cycle_snoc _ _ _ _ Hy). destruct (next_in_cycle es i y) eqn:Hny; [done|].
      destruct (in_cycle (CycleID y) e) eqn:Hcy; [|done]. apply in_cycle_spec in Hcy.
      exfalso. apply Hne. eapply next_None_unique; [exact Hy|exact Hx|congruence|done|done].
  - f_equal. rewrite (po_steps _ _ H). apply imap_ext. intros i y Hy. f_equal.
    rewrite (next_in_cycle_snoc _ _ _ _ Hy). destruct (next_in_cycle es i y) eqn:Hny; [done|].
    destruct (in_cycle (CycleID y) e) eqn:Hcy; [|done]. apply in_cycle_spec in Hcy. exfalso.
    assert (Hl : ps_lastIdx p !! CycleID e = Some i) by (apply (po_last _ _ H); eauto). congruence.
Qed.

Lemma pass_last_snoc es p e c i :
  pass_ok es p ->
  ps_lastIdx (pass_entry p e) !! c = Some i <->
  exists x, (es ++ [e])%list !! i = Some x /\ CycleID x = c /\ next_in_cycle (es ++ [e]) i x = None.
Proof.
  intros H. pose proof (pass_ok_lengths _ _ H) as Hn.
  assert (El : ps_lastIdx (pass_entry p e) = <[CycleID e := List.length es]> (ps_lastIdx p)).
  { unfold pass_entry. rewrite Hn. by destruct (ps_cycleAt p !! CycleID e). }
  rewrite El. destruct (decide (CycleID e = c)) as [<-|Hc].
  - rewrite lookup_insert_eq. split.
    + intros [= <-]. exists e. rewrite lookup_app_r, Nat.sub_diag by done. split_and!; [done|done|apply next_in_cycle_last].
    + intros (x & Hx & Hcx & Hnx). f_equal. symmetry.
      eapply (next_None_unique (es ++ [e]) i (List.length es) x e); try done.
      * by rewrite lookup_app_r, Nat.sub_diag.
      * apply next_in_cycle_last.
  - rewrite lookup_insert_ne, (po_last _ _ H) by done. split.
    + intros (x & Hx & Hcx & Hnx). exists x. split_and!; [by apply lookup_app_l_Some|done|].
      rewrite (next_in_cycle_snoc _ _ _ _ Hx), Hnx, Hcx.
      by assert (in_cycle c e = false) as -> by by apply in_cycle_false.
    + intros (x & Hx & Hcx & Hnx). apply lookup_app_Some in Hx as [Hx|[_ Hx]].
      * exists x. split_and!; [done|done|]. rewrite (next_in_cycle_snoc _ _ _ _ Hx) in Hnx.
        by destruct (next_in_cycle es i x).
      * apply list_lookup_singleton_Some in Hx as [_ <-]. done.
Qed.

Lemma pass_cycles_snoc es p e :
  pass_ok es p ->
  ps_cycles (pass_entry p e) =
    map (fun c => mkSegment c (positions c (es ++ [e]) 0) "") (first_seen (es ++ [e])) /\
  (forall c k, ps_cycleAt (pass_entry p e) !! c = Some k <-> first_seen (es ++ [e]) !! k = Some c).
Proof.
  intros H. pose proof (pass_ok_lengths _ _ H) as Hn. pose proof (po_cycles _ _ H) as Hcy.
  pose proof (po_cycleAt _ _ H) as Hat. pose proof (first_seen_NoDup es) as Hnd.
  rewrite first_seen_snoc. unfold see, pass_entry.
  destruct (ps_cycleAt p !! CycleID e) as [k|] eqn:Hk; cbn [ps_cycles ps_cycleAt].
  - apply Hat in Hk. rewrite decide_True by (by eapply list_elem_of_lookup_2). split; [|done].
    rewrite Hcy, Hn. apply list_eq. intros j.
    destruct (decide (j = k)) as [->|Hne].
    + rewrite list_lookup_alter_eq, !list_lookup_fmap, Hk. cbn [fmap option_fmap option_map]. f_equal.
      rewrite positions_snoc. assert (in_cycle (CycleID e) e = true) as -> by by apply in_cycle_spec. done.
    + rewrite list_lookup_alter_ne, !list_lookup_fmap by done.
      destruct (first_seen es !! j) as [c|] eqn:Hj; [|done]. cbn [fmap option_fmap option_map]. f_equal.
      rewrite positions_snoc. assert (Hcne : CycleID e <> c).
      { intros <-. apply Hne. by eapply NoDup_lookup. }
      apply in_cycle_false in Hcne as ->. by rewrite app_nil_r.
  - assert (Hin : CycleID e ∉ first_seen es).
    { intros [k Hk']%list_elem_of_lookup_1. apply Hat in Hk'. congruence. }
    rewrite decide_False by done. rewrite Hcy, Hn, length_map, map_app. split.
    + f_equal.
      * apply map_ext_in. intros c Hc%list_elem_of_In. rewrite positions_snoc.
        assert (in_cycle c e = false) as -> by (apply in_cycle_false; intros <-; done). by rewrite app_nil_r.
      * cbn [map]. rewrite positions_snoc. assert (in_cycle (CycleID e) e = true) as -> by by apply in_cycle_spec.
        assert (positions (CycleID e) es 0 = []) as ->; [|done].
        assert (Hno : forall x, x ∈ es -> CycleID x <> CycleID e).
        { intros x Hx E. apply Hin, first_seen_elem. eauto. }
        clear -Hno. generalize 0%nat. induction es as [|x es IH]; intros j; [done|]. cbn [positions].
        assert (in_cycle (CycleID e) x = false) as -> by (apply in_cycle_false, Hno; by left).
        apply IH. intros y Hy. apply Hno. by right.
    + intros c k. rewrite lookup_insert_Some, Hat, lookup_app_Some, list_lookup_singleton_Some. split.
      * intros [[<- <-]|[Hne Hk']]; [right; split; [done|split; [lia|done]]|by left].
      * intros [Hk'|(Hle & Hk0 & <-)]; [|left; split; [done|lia]]. right. split; [|done].
        intros <-. apply Hin. by eapply list_elem_of_lookup_2.
Qed.

Lemma pass_ok_run es : pass_ok es (foldl pass_entry empty_pass es).
Proof.
  induction es as [|e es IH] using rev_ind.
  - constructor; try done; intros c i; cbn; rewrite lookup_empty; split; try done. by intros (x & Hx & _).
  - rewrite foldl_snoc. destruct (pass_cycles_snoc _ _ e IH) as [H1 H2]. constructor; [|intros|done|done].
    + by apply pass_steps_snoc.
    + by apply pass_last_snoc.
Qed.

(** ** The graph *)

(** The step that stands for entry [i]. *)
Definition step_spec (es : list HarnessLedgerEntry) (i : nat) (e : HarnessLedgerEntry) : Step :=
  (project i e) <| st_Out :=
    (edge_to EdgeSequence (next_in_cycle es i e) ++ edge_to EdgeHandoff (handoff_target es i e))%list |>.

Lemma reconstruct_steps es : cg_Steps (reconstruct es) = imap (step_spec es) es.
Proof.
  destruct es as [|e0 es']; [done|]. set (es := e0 :: es').
  change (cg_Steps (reconstruct es)) with (addHandoffEdges (ps_steps (foldl pass_entry empty_pass es)) es).
  rewrite (po_steps _ _ (pass_ok_run es)). unfold addHandoffEdges. rewrite imap_compose.
  apply imap_ext. intros i e He. rewrite He. unfold step_spec.
  destruct (handoff_target es i e); cbn [edge_to]; [done|]. by rewrite app_nil_r.
Qed.

Lemma positions_elem c es j i :
  i ∈ positions c es j <-> exists e, (j <= i)%nat /\ es !! (i - j)%nat = Some e /\ CycleID e = c.
Proof.
  revert j. induction es as [|x es IH]; intros j; cbn [positions].
  - split; [set_solver|]. by intros (e & _ & ? & _).
  - destruct (in_cycle c x) eqn:E; [apply in_cycle_spec in E|apply in_cycle_false in E];
      rewrite ?elem_of_cons, IH; (split; [|intros (e & Hji & He & Hc)]).
    + intros [->|(e & Hle & He & Hc)]; [exists x; by rewrite Nat.sub_diag|].
      exists e. split_and!; [lia| |done]. by replace (i - j)%nat with (S (i - S j)) by lia.
    + destruct (decide (i = j)) as [->|Hne]; [by left|]. right. exists e.
      replace (i - j)%nat with (S (i - S j)) in He by lia. split_and!; [lia|done|done].
    + intros (e & Hle & He & Hc). exists e. split_and!; [lia| |done]. by replace (i - j)%nat with (S (i - S j)) by lia.
    + destruct (decide (i = j)) as [->|Hne]; [rewrite Nat.sub_diag in He; simplify_eq/=; done|]. exists e.
      replace (i - j)%nat with (S (i - S j)) in He by lia. split_and!; [lia|done|done].
Qed.

Lemma positions_sorted c es j : StronglySorted lt (positions c es j).
Proof.
  revert j. induction es as [|x es IH]; intros j; cbn [positions]; [constructor|].
  destruct (in_cycle c x); [|apply IH]. constructor; [apply IH|].
  apply Forall_forall. intros i (e & Hle & _)%positions_elem. lia.
Qed.

(** [j] is the first position after [i] whose entry satisfies [P]. *)
Definition first_after (P : HarnessLedgerEntry -> Prop) (es : list HarnessLedgerEntry) (i j : nat) : Prop :=
  (i < j)%nat /\ (exists e, es !! j = Some e /\ P e) /\
  forall k e, (i < k < j)%nat -> es !! k = Some e -> ~ P e.

Lemma find_after (P : HarnessLedgerEntry -> bool) (Q : HarnessLedgerEntry -> Prop) es i j :
  (forall e, P e = true <-> Q e) ->
  find_from P (drop (S i) es) (S i) = Some j <-> first_after Q es i j.
Proof.
  intros HPQ. rewrite find_from_Some. unfold first_after. split.
  - intros (n & e & -> & Hn & He & Hm). rewrite lookup_drop in Hn. split_and!; [lia|eexists; split; [done|by apply HPQ]|].
    intros k e' Hk He' HQ. apply HPQ in HQ. specialize (Hm (k - S i)%nat e').
    rewrite lookup_drop in Hm. replace (S i + (k - S i))%nat with k in Hm by lia.
    rewrite Hm in HQ; [done|lia|done].
  - intros (Hlt & (e & He & HQ) & Hm). exists (j - S i)%nat, e. rewrite lookup_drop.
    replace (S i + (j - S i))%nat with j by lia. split_and!; [lia|done|by apply HPQ|].
    intros m e' Hlt' Hl. rewrite lookup_drop in Hl. apply not_true_is_false. intros HP%HPQ.
    eapply (Hm (S i + m)%nat); [lia|done|done].
Qed.

Lemma edge_to_elem k k' o j : mkEdge j k ∈ edge_to k' o <-> k = k' /\ o = Some j.
Proof. destruct o; cbn; [rewrite list_elem_of_singleton; naive_solver|set_solver]. Qed.

(** The steps of a reconstructed graph.  There is one step per entry, in order, with the
    entry's fields; its sequence edge goes to the next entry of the same cycle, and it
    has a handoff edge exactly when it is a handoff that names a target, to the first
    later entry of that agent.  Every edge goes forward to an existing step, so the
    graph has no cycle. *)
Theorem reconstruct_steps_spec es :
  List.length (cg_Steps (reconstruct es)) = List.length es /\
  forall i e, es !! i = Some e -> exists s,
    cg_Steps (reconstruct es) !! i = Some s /\
    (st_Index s, st_CycleID s, st_Type s, st_At s, st_Agent s, st_Gate s, st_HandoffTo s, st_Summary s)
      = (i, CycleID e, Type_ e, At e, Agent e, Gate e, HandoffTo e, Summary e) /\
    (forall j, mkEdge j EdgeSequence ∈ st_Out s <-> first_after (fun x => CycleID x = CycleID e) es i j) /\
    (forall j, mkEdge j EdgeHandoff ∈ st_Out s <->
       Type_ e = LedgerEventHandoffCreated /\ HandoffTo e <> "" /\
       first_after (fun x => Agent x = HandoffTo e) es i j) /\
    (forall ed, ed ∈ st_Out s -> (i < e_To ed < List.length es)%nat).
Proof.
  rewrite reconstruct_steps. split; [by rewrite length_imap|]. intros i e Hi.
  exists (step_spec es i e). rewrite list_lookup_imap, Hi. split; [done|]. split; [done|].
  assert (Hseq : forall j, next_in_cycle es i e = Some j <-> first_after (fun x => CycleID x = CycleID e) es i j).
  { intros j. apply find_after. intros x. apply in_cycle_spec. }
  assert (Hhand : forall j, handoff_target es i e = Some j <->
     Type_ e = LedgerEventHandoffCreated /\ HandoffTo e <> "" /\ first_after (fun x => Agent x = HandoffTo e) es i j).
  { intros j. unfold handoff_target. destruct (String.eqb_spec (Type_ e) LedgerEventHandoffCreated); cbn [negb]; [|naive_solver].
    destruct (String.eqb_spec (HandoffTo e) ""); [naive_solver|].
    rewrite (find_after _ (fun x => Agent x = HandoffTo e)); [naive_solver|]. intros x. apply String.eqb_eq. }
  assert (Hout : forall ed, ed ∈ st_Out (step_spec es i e) <->
     (e_Kind ed = EdgeSequence /\ next_in_cycle es i e = Some (e_To ed)) \/
     (e_Kind ed = EdgeHandoff /\ handoff_target es i e = Some (e_To ed))).
  { intros [j k]. unfold step_spec, set_with. cbn [st_Out e_To e_Kind project]. by rewrite elem_of_app, !edge_to_elem. }
  split_and!.
  - intros j. rewrite Hout, <-Hseq. cbn. naive_solver.
  - intros j. rewrite Hout, <-Hhand. cbn. naive_solver.
  - intros [j k] Hed. apply Hout in Hed. cbn [e_To e_Kind] in *.
    assert (Hlt : forall P, first_after P es i j -> (i < j < List.length es)%nat).
    { intros P (H1 & (x & Hx & _) & _). apply lookup_lt_Some in Hx. lia. }
    destruct Hed as [[_ H]|[_ H]]; [apply Hseq in H|apply Hhand in H as (_ & _ & H)]; eauto.
Qed.

Lemma reconstruct_cycles es :
  cg_Cycles (reconstruct es) =
  map (fun c => set_terminal (cg_Steps (reconstruct es)) (mkSegment c (positions c es 0) "")) (first_seen es).
Proof.
  destruct es as [|e0 es']; [done|]. set (es := e0 :: es'). 
  change (cg_Cycles (reconstruct es)) with
    (map (set_terminal (cg_Steps (reconstruct es))) (ps_cycles (foldl pass_entry empty_pass es))).
  by rewrite (po_cycles _ _ (pass_ok_run es)), map_map.
Qed.

(** The segmentation of a reconstructed graph.  The cycles are listed once each, and
    exactly those that occur; the steps of a segment are, in increasing order, exactly
    the positions of the entries of its cycle, at least one; and its terminal type is
    the type of the last of them. *)
Theorem reconstruct_cycles_spec es :
  NoDup (map cs_CycleID (cg_Cycles (reconstruct es))) /\
  (forall c, c ∈ map cs_CycleID (cg_Cycles (reconstruct es)) <-> exists e, e ∈ es /\ CycleID e = c) /\
  forall seg, seg ∈ cg_Cycles (reconstruct es) ->
    StronglySorted lt (cs_Steps seg) /\
    (forall i, i ∈ cs_Steps seg <-> exists e, es !! i = Some e /\ CycleID e = cs_CycleID seg) /\
    exists i e, last (cs_Steps seg) = Some i /\ es !! i = Some e /\ cs_Terminal seg = Type_ e.
Proof.
  assert (Hid : forall steps seg, cs_CycleID (set_terminal steps seg) = cs_CycleID seg /\
                                  cs_Steps (set_terminal steps seg) = cs_Steps seg).
  { intros steps seg. unfold set_terminal. destruct (last (cs_Steps seg)) as [i|]; [|done]. by destruct (steps !! i). }
  assert (Hids : map cs_CycleID (cg_Cycles (reconstruct es)) = first_seen es).
  { rewrite reconstruct_cycles, map_map. rewrite <-(map_id (first_seen es)) at 2. apply map_ext.
    intros c. by rewrite (proj1 (Hid _ _)). }
  rewrite Hids. split; [apply first_seen_NoDup|]. split; [intros c; apply first_seen_elem|].
  intros seg Hseg. rewrite reconstruct_cycles in Hseg. apply list_elem_of_fmap in Hseg as (c & -> & Hc).
  rewrite (proj1 (Hid _ _)), (proj2 (Hid _ _)). cbn [cs_CycleID cs_Steps].
  assert (Hpos : forall i, i ∈ positions c es 0 <-> exists e, es !! i = Some e /\ CycleID e = c).
  { intros i. rewrite positions_elem, Nat.sub_0_r. split; [|intros (e & ? & ?); exists e; split_and!; try done; lia].
    intros (e & _ & ? & ?). eauto. }
  split; [apply positions_sorted|]. split; [done|].
  apply first_seen_elem in Hc as (x & Hx & Hcx). apply list_elem_of_lookup_1 in Hx as [ix Hix].
  assert (Hin : ix ∈ positions c es 0) by (apply Hpos; eauto).
  destruct (last (positions c es 0)) as [i|] eqn:Hl; [|apply last_None in Hl; rewrite Hl in Hin; set_solver].
  assert (Hi : i ∈ positions c es 0) by by apply last_Some_elem_of.
  apply Hpos in Hi as (e & He & Hce). exists i, e. split_and!; [done|done|].
  unfold set_terminal. cbn [cs_Steps]. rewrite Hl, reconstruct_steps, list_lookup_imap, He. done.
Qed.

(** [Replay] is verify-then-reconstruct: it returns a graph exactly when [VerifyChain]
    accepts the ledger, and then that of [ReplayVerified]; otherwise its error cites the
    position of the first entry whose link or content hash is wrong. *)
Theorem Replay_spec es :
  (forall g, Replay es = inr g <-> VerifyChain es = (NoBrokenLink, true) /\ g = ReplayVerified es) /\
  (forall i, Replay es = inl (BrokenLinkError i) -> exists k e, i = Z.of_nat k /\ es !! k = Some e /\
     ~ linked (prev_hash es k) e /\
     forall j e', (j < k)%nat -> es !! j = Some e' -> linked (prev_hash es j) e').
Proof.
  unfold Replay, ReplayVerified. pose proof (verify_from_first LedgerGenesisHash 0 es) as H.
  fold (VerifyChain es) in H. destruct H as [[-> _]|(k & e & -> & Hk & Hn & Hj)]; cbn [negb].
  - split; [naive_solver|done].
  - split; [naive_solver|]. intros i [= <-]. exists k, e. split_and!; [lia|done..].
Qed.
