(* ===== verification/ActionGate.v ===== *)
(** * The pre-execution gates

    [pkg/contract/action_gate.go], [secret_containment.go] and [tooluse_gate.go]: the
    classification of a pending command against the destructive-action table and the
    secret-containment policy, and their combination.  [strings.Fields] and
    [strings.ToLower] follow their ASCII branch (see [GoStrings.v]). *)

From S2P Require Import Prelude GoStrings Json Codec Contract Ledger.
From Stdlib Require Import Ascii String.
#[local] Open Scope string_scope.

(** ** Verdicts *)

(* src: pkg/contract/action_gate.go 25-39 ActionVerdict *)
Inductive ActionVerdict : Set := ActionAllow | ActionDeny | ActionNeedsHITL.

#[global] Instance ActionVerdict_eq_dec : EqDecision ActionVerdict.
Proof. solve_decision. Defined.

(* src: pkg/contract/action_gate.go 52-53 ActionVerdict.String *)
Definition verdict_string (v : ActionVerdict) : string :=
  match v with ActionAllow => "allow" | ActionDeny => "deny" | ActionNeedsHITL => "needs-hitl" end.

(* src: pkg/contract/action_gate.go 41-50 ParseActionVerdict *)
Definition ParseActionVerdict (s : string) : ContractError + ActionVerdict :=
  if String.eqb s "allow" then inr ActionAllow
  else if String.eqb s "deny" then inr ActionDeny
  else if String.eqb s "needs-hitl" then inr ActionNeedsHITL
  else inl ErrInvalidActionVerdict.

(** ** The destructive-action table *)

(* src: pkg/contract/action_gate.go 55-66 ActionDecision *)
Record ActionDecision := mkActionDecision { ad_Verdict : ActionVerdict; ad_Rule : string; ad_Reason : string }.

(* src: pkg/contract/action_gate.go 68-76 actionRule *)
Record actionRule := mkActionRule {
  ar_id : string; ar_verdict : ActionVerdict; ar_reason : string; ar_match : string -> bool }.

(* src: pkg/contract/action_gate.go 78-80 protectedPushRefs *)
Definition protectedPushRefs : list string :=
  ["main"; "master"; "release/"; "release "; "origin/main"; "origin/master"].

(* src: pkg/contract/action_gate.go 148-152 normalizeCommand *)
Definition normalizeCommand (command : string) : string := ToLower (Join (Fields command) " ").

(** A short flag cluster: [-x..], not [--x]. *)
(* src: pkg/contract/action_gate.go 162-166 hasRecursiveForceFlags *)
Definition flag_letters (tok : string) : option string :=
  match tok with
  | String a (String b r) =>
      if Ascii.eqb a "-" && negb (Ascii.eqb b "-") then Some (String b r) else None
  | _ => None
  end.

(* src: pkg/contract/action_gate.go 154-175 hasRecursiveForceFlags *)
Definition hasRecursiveForceFlags (norm : string) : bool :=
  let step acc tok :=
    let '(recursive, force) := acc in
    match flag_letters tok with
    | None => (recursive, force)
    | Some letters =>
        (recursive || (ContainsByte letters "r" || ContainsByte letters "R"),
         force || ContainsByte letters "f")
    end in
  let '(recursive, force) :=
    foldl step (Contains norm "--recursive", Contains norm "--force") (Fields norm) in
  recursive && force.

(* src: pkg/contract/action_gate.go 187-188 matchRecursiveRemoveRoot *)
Definition dangerousTargets : list string :=
  [" /"; " /*"; " ~"; " ~/"; " ~/*"; " $home"; " $home/"; " $home/*"; " /*"].

(* src: pkg/contract/action_gate.go 177-195 matchRecursiveRemoveRoot *)
Definition matchRecursiveRemoveRoot (norm : string) : bool :=
  if negb (HasPrefix norm "rm ") && negb (String.eqb norm "rm") then false
  else if negb (hasRecursiveForceFlags norm) then false
  else existsb (fun t => HasSuffix norm t || Contains norm (t +:+ " ")) dangerousTargets.

(* src: pkg/contract/action_gate.go 197-205 matchForkBomb *)
Definition matchForkBomb (norm : string) : bool :=
  let collapsed := RemoveAll norm " " in
  Contains collapsed ":(){:|:&};:" || Contains collapsed ":(){:|:&}:" || Contains collapsed "(){|&};".

(* src: pkg/contract/action_gate.go 207-221 matchDiskOverwrite *)
Definition matchDiskOverwrite (norm : string) : bool :=
  if HasPrefix norm "dd " && Contains norm "of=/dev/" then true
  else if HasPrefix norm "mkfs" && Contains norm "/dev/" then true
  else Contains norm "> /dev/sd" || Contains norm ">/dev/sd"
       || Contains norm "> /dev/nvme" || Contains norm ">/dev/nvme".

(* src: pkg/contract/action_gate.go 223-241 matchForcePushProtected *)
Definition matchForcePushProtected (norm : string) : bool :=
  if negb (HasPrefix norm "git push") && negb (Contains norm " git push") then false
  else
    let forced := Contains norm "--force" || Contains norm "-f " || HasSuffix norm " -f"
                  || Contains norm "--force-with-lease" in
    if negb forced then false else existsb (fun ref => Contains norm ref) protectedPushRefs.

(* src: pkg/contract/action_gate.go 243-250 matchGitHardResetRemote *)
Definition matchGitHardResetRemote (norm : string) : bool :=
  if negb (Contains norm "git reset") || negb (Contains norm "--hard") then false
  else Contains norm "origin/" || Contains norm "upstream/".

(* src: pkg/contract/action_gate.go 252-259 matchSQLDrop *)
Definition matchSQLDrop (norm : string) : bool :=
  Contains norm "drop table" || Contains norm "drop database" || Contains norm "truncate table".

(* src: pkg/contract/action_gate.go 82-126 destructiveActionRules *)
Definition destructiveActionRules : list actionRule :=
  [ mkActionRule "rm-rf-root" ActionDeny
      "recursive force-remove targeting a filesystem or home root is non-recoverable"
      matchRecursiveRemoveRoot;
    mkActionRule "fork-bomb" ActionDeny "shell fork bomb exhausts process table" matchForkBomb;
    mkActionRule "disk-overwrite" ActionDeny
      "raw write to a block device destroys data irrecoverably" matchDiskOverwrite;
    mkActionRule "git-force-push-protected" ActionDeny
      "force-push to a protected ref (main/master/release) rewrites shared history"
      matchForcePushProtected;
    mkActionRule "git-hard-reset-remote" ActionNeedsHITL
      "hard reset to a remote ref discards uncommitted and local work" matchGitHardResetRemote;
    mkActionRule "sql-drop-truncate" ActionNeedsHITL
      "DROP/TRUNCATE destroys table data; confirm target is not production" matchSQLDrop ].

(* src: pkg/contract/action_gate.go 128-146 ActionDecisionFor *)
Definition ActionDecisionFor (command : string) : ActionDecision :=
  let norm := normalizeCommand command in
  if String.eqb norm "" then mkActionDecision ActionAllow "" ""
  else match List.find (fun rule => ar_match rule norm) destructiveActionRules with
       | Some rule => mkActionDecision (ar_verdict rule) (ar_id rule) (ar_reason rule)
       | None => mkActionDecision ActionAllow "" ""
       end.

(* src: pkg/contract/action_gate.go 261-269 NewActionDeniedLedgerEntry *)
Definition NewActionDeniedLedgerEntry (at_ : Z) (cycleID command : string) (decision : ActionDecision)
    : HarnessLedgerEntry :=
  let summary := verdict_string (ad_Verdict decision) +:+ " [" +:+ ad_Rule decision +:+ "]: " +:+
                 ad_Reason decision in
  NewHarnessLedgerEntry at_ cycleID LedgerEventActionDenied summary [command].

(** ** Secret containment *)

(* src: pkg/contract/secret_containment.go 27-40 SecretDecision *)
Record SecretDecision := mkSecretDecision {
  sd_Verdict : ActionVerdict; sd_Rule : string; sd_Marker : string; sd_Reason : string }.

(* src: pkg/contract/secret_containment.go 42-63 sensitivePaths *)
Definition sensitivePaths : list (string * string) :=
  [ ("/.aws/", "~/.aws"); ("/.aws ", "~/.aws"); ("~/.aws", "~/.aws");
    ("/.ssh/", "~/.ssh"); ("/.ssh ", "~/.ssh"); ("~/.ssh", "~/.ssh");
    ("/.netrc", "~/.netrc"); ("~/.netrc", "~/.netrc");
    ("/.gnupg/", "~/.gnupg"); ("~/.gnupg", "~/.gnupg");
    ("/.kube/config", "~/.kube/config"); ("~/.kube/config", "~/.kube/config");
    ("/.docker/config.json", "~/.docker/config.json");
    ("/.npmrc", "~/.npmrc"); ("~/.npmrc", "~/.npmrc");
    ("/.pypirc", "~/.pypirc"); ("~/.pypirc", "~/.pypirc");
    (".env.production", ".env"); (".env.local", ".env"); (".env", ".env");
    ("id_rsa", "id_rsa"); ("id_ed25519", "id_ed25519"); ("id_ecdsa", "id_ecdsa");
    ("credentials.json", "credentials.json"); ("service-account", "service-account");
    (".pem", ".pem"); (".p12", ".p12"); (".pfx", ".pfx"); (".keystore", ".keystore") ].

(* src: pkg/contract/secret_containment.go 65-70 benignSecretVerbs *)
Definition benignSecretVerbs : list string :=
  ["ls "; "ll "; "mkdir "; "chmod "; "chown "; "stat "; "test -"; "touch "].

(* src: pkg/contract/secret_containment.go 72-75 secretWriteVerbs *)
Definition secretWriteVerbs : list string :=
  ["curl"; "wget"; "scp"; "rsync"; "nc "; "netcat"; "base64"; "| mail"; "ftp "].

(* src: pkg/contract/secret_containment.go 165-175 firstSensitivePath *)
Definition firstSensitivePath (norm : string) : option string :=
  option_map snd (List.find (fun p => Contains norm (fst p)) sensitivePaths).

(* src: pkg/contract/secret_containment.go 158-163 containsSensitivePath *)
Definition containsSensitivePath (norm : string) : bool :=
  match firstSensitivePath norm with Some _ => true | None => false end.

Record broadTokenRule := mkBroadTokenRule {
  bt_id : string; bt_marker : string; bt_reason : string; bt_match : string -> bool }.

(** [json_pair k sep v]: the text ["k"<sep>"v"]. *)
Definition json_pair (k sep v : string) : string :=
  let q := String dquote "" in q +:+ k +:+ q +:+ sep +:+ q +:+ v +:+ q.

(* src: pkg/contract/secret_containment.go 77-105 broadTokenRules *)
Definition broadTokenRules : list broadTokenRule :=
  [ mkBroadTokenRule "chmod-world-on-secret" "chmod 777"
      "world-writable/readable permission on a credential exposes it to all local users"
      (fun norm => (Contains norm "chmod 777" || Contains norm "chmod -r 777"
                    || Contains norm "chmod a+rwx") && containsSensitivePath norm);
    mkBroadTokenRule "iam-wildcard-grant" "action:* / resource:*"
      "wildcard IAM action/resource grant is an over-broad token"
      (fun norm => Contains norm (json_pair "action" ": " "*") || Contains norm (json_pair "action" ":" "*")
                   || Contains norm (json_pair "resource" ": " "*") || Contains norm (json_pair "resource" ":" "*")) ].

(* src: pkg/contract/secret_containment.go 177-186 hasExfilVerb *)
Definition hasExfilVerb (norm : string) : bool := existsb (fun v => Contains norm v) secretWriteVerbs.

(* src: pkg/contract/secret_containment.go 188-198 hasBenignSecretVerb *)
Definition hasBenignSecretVerb (norm : string) : bool := existsb (fun v => HasPrefix norm v) benignSecretVerbs.

(* src: pkg/contract/secret_containment.go 107-156 SecretDecisionFor *)
Definition SecretDecisionFor (command : string) : SecretDecision :=
  let norm := normalizeCommand command in
  if String.eqb norm "" then mkSecretDecision ActionAllow "" "" ""
  else match List.find (fun rule => bt_match rule norm) broadTokenRules with
  | Some rule => mkSecretDecision ActionDeny (bt_id rule) (bt_marker rule) (bt_reason rule)
  | None =>
      match firstSensitivePath norm with
      | None => mkSecretDecision ActionAllow "" "" ""
      | Some marker =>
          if hasExfilVerb norm then
            mkSecretDecision ActionDeny "secret-exfiltration" marker
              "transmitting a credential-bearing path off-host is exfiltration"
          else if hasBenignSecretVerb norm then mkSecretDecision ActionAllow "" "" ""
          else mkSecretDecision ActionNeedsHITL "sensitive-path-access" marker
                 "access to a credential-bearing path; confirm it is intended"
      end
  end.

(* src: pkg/contract/secret_containment.go 200-208 NewSecretFlaggedLedgerEntry *)
Definition NewSecretFlaggedLedgerEntry (at_ : Z) (cycleID command : string) (decision : SecretDecision)
    : HarnessLedgerEntry :=
  let summary := verdict_string (sd_Verdict decision) +:+ " [" +:+ sd_Rule decision +:+ "] " +:+
                 sd_Marker decision +:+ ": " +:+ sd_Reason decision in
  NewHarnessLedgerEntry at_ cycleID LedgerEventSecretFlagged summary [command].

(** ** The combined decision *)

(** The default branch of the Go switch is for values outside the enumeration. *)
(* src: pkg/contract/tooluse_gate.go 26-41 actionVerdictSeverity *)
Definition actionVerdictSeverity (v : ActionVerdict) : Z :=
  match v with ActionDeny => 2 | ActionNeedsHITL => 1 | ActionAllow => 0 end.

(* src: pkg/contract/tooluse_gate.go 43-57 ToolUseCheck *)
Inductive ToolUseCheck : Set := ToolUseCheckNone | ToolUseCheckAction | ToolUseCheckSecret.

Definition check_string (c : ToolUseCheck) : string :=
  match c with ToolUseCheckNone => "" | ToolUseCheckAction => "action" | ToolUseCheckSecret => "secret" end.

(* src: pkg/contract/tooluse_gate.go 59-76 ToolUseDecision *)
Record ToolUseDecision := mkToolUseDecision {
  tu_Verdict : ActionVerdict; tu_Check : ToolUseCheck; tu_Rule : string; tu_Reason : string }.

(* src: pkg/contract/tooluse_gate.go 78-84 ToolUseDecision.IsBlocking *)
Definition IsBlocking (d : ToolUseDecision) : bool :=
  match tu_Verdict d with ActionDeny | ActionNeedsHITL => true | ActionAllow => false end.

(* src: pkg/contract/tooluse_gate.go 86-129 DecideToolUse *)
Definition DecideToolUse (command : string) : ToolUseDecision :=
  let action := ActionDecisionFor command in
  let secret := SecretDecisionFor command in
  if (actionVerdictSeverity (ad_Verdict action) <? actionVerdictSeverity (sd_Verdict secret))%Z then
    mkToolUseDecision (sd_Verdict secret) ToolUseCheckSecret (sd_Rule secret) (sd_Reason secret)
  else match ad_Verdict action with
       | ActionAllow => mkToolUseDecision ActionAllow ToolUseCheckNone "" ""
       | v => mkToolUseDecision v ToolUseCheckAction (ad_Rule action) (ad_Reason action)
       end.

(* src: pkg/contract/tooluse_gate.go 131-141 NewToolUseDecisionLedgerEntry *)
Definition NewToolUseDecisionLedgerEntry (at_ : Z) (cycleID command : string) (decision : ToolUseDecision)
    : HarnessLedgerEntry :=
  let summary := verdict_string (tu_Verdict decision) +:+ " [" +:+ check_string (tu_Check decision) +:+ ":" +:+
                 tu_Rule decision +:+ "]: " +:+ tu_Reason decision in
  NewHarnessLedgerEntry at_ cycleID LedgerEventToolUseDecision summary [command].

(** ** Normalisation *)

Lemma normalizeCommand_words c : normalizeCommand c = Join (map ToLower (Fields c)) " ".
Proof. unfold normalizeCommand. by rewrite ToLower_Join. Qed.

Lemma Fields_normalize c : Fields (normalizeCommand c) = map ToLower (Fields c).
Proof.
  rewrite normalizeCommand_words. apply Fields_Join. apply Forall_map.
  eapply Forall_impl; [apply Fields_words|]. intros w. apply ToLower_word.
Qed.

Lemma normalizeCommand_idem c : normalizeCommand (normalizeCommand c) = normalizeCommand c.
Proof.
  rewrite (normalizeCommand_words (normalizeCommand c)), Fields_normalize, map_map, (normalizeCommand_words c).
  f_equal. apply map_ext. apply ToLower_idem.
Qed.

Lemma decisions_normalized c c' :
  normalizeCommand c = normalizeCommand c' ->
  ActionDecisionFor c = ActionDecisionFor c' /\ SecretDecisionFor c = SecretDecisionFor c'.
Proof. intros E. unfold ActionDecisionFor, SecretDecisionFor. by rewrite E. Qed.

(** The gates see a command only through its words and up to case: two commands with
    the same words up to case, whatever blanks separate them, get the same decision from
    each gate and from [DecideToolUse]; in particular the decision on a command is the
    decision on its normal form. *)
Theorem DecideToolUse_normalized :
  (forall c c', map ToLower (Fields c) = map ToLower (Fields c') ->
     ActionDecisionFor c = ActionDecisionFor c' /\ SecretDecisionFor c = SecretDecisionFor c' /\
     DecideToolUse c = DecideToolUse c') /\
  (forall c, DecideToolUse (normalizeCommand c) = DecideToolUse c).
Proof.
  split.
  - intros c c' E. destruct (decisions_normalized c c') as [H1 H2]; [by rewrite !normalizeCommand_words, E|].
    unfold DecideToolUse. by rewrite H1, H2.
  - intros c. destruct (decisions_normalized (normalizeCommand c) c (normalizeCommand_idem c)) as [H1 H2].
    unfold DecideToolUse. by rewrite H1, H2.
Qed.

(** ** The combined verdict *)

(** An allow decision carries no rule, and a blocking one names its rule. *)
Lemma ActionDecisionFor_rule c :
  ad_Verdict (ActionDecisionFor c) = ActionAllow <-> ad_Rule (ActionDecisionFor c) = "".
Proof.
  unfold ActionDecisionFor. destruct (String.eqb _ ""); [done|].
  destruct (List.find _ destructiveActionRules) as [r|] eqn:E; [|done].
  apply List.find_some in E as [Hin _]. cbn [destructiveActionRules In] in Hin.
  by repeat destruct Hin as [<-|Hin].
Qed.

(** The first rule of the table is the removal rule, and no other has its name. *)
Lemma removal_rule_first norm :
  match List.find (fun rule => ar_match rule norm) destructiveActionRules with
  | Some r => (ar_id r = "rm-rf-root" <-> matchRecursiveRemoveRoot norm = true) /\
              (matchRecursiveRemoveRoot norm = true -> ar_verdict r = ActionDeny)
  | None => matchRecursiveRemoveRoot norm = false
  end.
Proof.
  unfold destructiveActionRules at 1. cbn [List.find ar_match].
  destruct (matchRecursiveRemoveRoot norm); [done|].
  destruct (matchForkBomb norm); [done|]. destruct (matchDiskOverwrite norm); [done|].
  destruct (matchForcePushProtected norm); [done|]. destruct (matchGitHardResetRemote norm); [done|].
  by destruct (matchSQLDrop norm).
Qed.

Lemma force_push_denied norm :
  matchForcePushProtected norm = true ->
  match List.find (fun rule => ar_match rule norm) destructiveActionRules with
  | Some r => ar_verdict r = ActionDeny
  | None => False
  end.
Proof.
  intros H. unfold destructiveActionRules at 1. cbn [List.find ar_match]. rewrite H.
  destruct (matchRecursiveRemoveRoot norm); [done|].
  destruct (matchForkBomb norm); [done|]. by destruct (matchDiskOverwrite norm).
Qed.

Lemma SecretDecisionFor_rule c :
  sd_Verdict (SecretDecisionFor c) = ActionAllow <-> sd_Rule (SecretDecisionFor c) = "".
Proof.
  unfold SecretDecisionFor. destruct (String.eqb _ ""); [done|].
  destruct (List.find _ broadTokenRules) as [r|] eqn:E.
  - apply List.find_some in E as [[<-|[<-|[]]] _]; done.
  - destruct (firstSensitivePath _); [|done]. repeat case_match; done.
Qed.

(** [DecideToolUse] returns the more severe of the two verdicts (deny over needs-hitl over
    allow), with the rule and reason of the gate that gave it, the action gate on a tie;
    it blocks exactly when one of the gates does, and an allow carries no rule and no
    source. *)
Theorem DecideToolUse_most_severe c :
  let a := ActionDecisionFor c in
  let s := SecretDecisionFor c in
  let d := DecideToolUse c in
  actionVerdictSeverity (tu_Verdict d) =
    Z.max (actionVerdictSeverity (ad_Verdict a)) (actionVerdictSeverity (sd_Verdict s)) /\
  (IsBlocking d = true <-> ad_Verdict a <> ActionAllow \/ sd_Verdict s <> ActionAllow) /\
  (tu_Check d = ToolUseCheckAction ->
     tu_Verdict d = ad_Verdict a /\ tu_Rule d = ad_Rule a /\ tu_Reason d = ad_Reason a) /\
  (tu_Check d = ToolUseCheckSecret ->
     tu_Verdict d = sd_Verdict s /\ tu_Rule d = sd_Rule s /\ tu_Reason d = sd_Reason s /\
     (actionVerdictSeverity (ad_Verdict a) < actionVerdictSeverity (sd_Verdict s))%Z) /\
  (tu_Check d = ToolUseCheckNone <-> tu_Verdict d = ActionAllow) /\
  (tu_Rule d = "" <-> tu_Verdict d = ActionAllow).
Proof.
  intros a s d. pose proof (ActionDecisionFor_rule c) as Ha. pose proof (SecretDecisionFor_rule c) as Hs.
  fold a in Ha. fold s in Hs. subst d. unfold DecideToolUse. fold a s.
  destruct a as [va ra ea], s as [vs rs mk es]. cbn [ad_Verdict ad_Rule ad_Reason sd_Verdict sd_Rule sd_Reason] in *.
  destruct va, vs; cbn; naive_solver.
Qed.

(** ** The policy on recursive removal *)

Definition removal_roots : list string := ["/"; "/*"; "~"; "~/"; "~/*"; "$home"; "$home/"; "$home/*"].

Lemma dangerousTargets_roots t : In t dangerousTargets <-> exists x, t = " " +:+ x /\ In x removal_roots.
Proof.
  split.
  - cbn. intros H. repeat destruct H as [<-|H]; try done; eexists; (split; [reflexivity|cbn; tauto]).
  - intros (x & -> & H). cbn in *. repeat destruct H as [<-|H]; try done; tauto.
Qed.

Lemma removal_roots_no_space x : In x removal_roots -> no_byte " " x = true /\ x <> "-rf".
Proof. cbn. intros H. by repeat destruct H as [<-|H]. Qed.

Lemma rm_rf_suffix w x : no_byte " " w = true -> no_byte " " x = true ->
  HasSuffix ("rm -rf " +:+ w) (" " +:+ x) = true <-> x = w.
Proof.
  intros Hw Hx. rewrite HasSuffix_spec. split.
  - intros [a E]. apply (f_equal (fun s => Split s " ")) in E.
    change ("rm -rf " +:+ w) with ("rm" +:+ String " " ("-rf" +:+ String " " w)) in E.
    change (" " +:+ x) with (String " " x) in E.
    rewrite !Split_app, (Split_no_byte w), (Split_no_byte x) in E by done.
    change (Split "rm" " " ++ Split "-rf" " " ++ [w])%list with ([("rm" : string); "-rf"] ++ [w])%list in E.
    apply snoc_inj in E as [_ E]. done.
  - intros ->. by exists "rm -rf".
Qed.

Lemma rm_rf_inside w x : no_byte " " w = true -> no_byte " " x = true -> x <> "-rf" ->
  Contains ("rm -rf " +:+ w) ((" " +:+ x) +:+ " ") = false.
Proof.
  intros Hw Hx Hne. apply not_true_is_false. intros H. apply Contains_spec in H as (a & b & E).
  apply (f_equal (fun s => Split s " ")) in E.
  change ("rm -rf " +:+ w) with ("rm" +:+ String " " ("-rf" +:+ String " " w)) in E.
  assert (Hs : a +:+ (((" " +:+ x) +:+ " ") +:+ b) = a +:+ String " " (x +:+ String " " b)).
  { cbn [String.append]. by rewrite <-string_app_assoc. }
  rewrite Hs, !Split_app, (Split_no_byte w), (Split_no_byte x) in E by done.
  change (Split "rm" " ") with ["rm"] in E. change (Split "-rf" " ") with ["-rf"] in E.
  pose proof (Split_nonempty a " "). pose proof (Split_nonempty b " ").
  destruct (Split a " ") as [|a0 [|a1 l]]; [done| |]; cbn [app] in E.
  - injection E as _ E _. by subst.
  - injection E as _ _ E. apply (f_equal (@List.length _)) in E. rewrite !length_app in E.
    destruct (Split b " "); [done|]. cbn in E. lia.
Qed.

Lemma rm_rf_flags w : word w -> hasRecursiveForceFlags ("rm -rf " +:+ w) = true.
Proof.
  intros Hw. unfold hasRecursiveForceFlags.
  change ("rm -rf " +:+ w) with (Join ["rm"; "-rf"; w] " "). rewrite Fields_Join.
  2:{ repeat constructor; try done; by destruct Hw. }
  generalize (Contains (Join ["rm"; "-rf"; w] " ") "--recursive") as b1.
  generalize (Contains (Join ["rm"; "-rf"; w] " ") "--force") as b2. intros b2 b1.
  cbn [foldl]. change (flag_letters "rm") with (@None string). cbv iota.
  change (flag_letters "-rf") with (Some "rf"). cbv iota.
  destruct (flag_letters w), b1, b2; reflexivity.
Qed.

(** The removal rule is exact on [rm -rf <target>]: for any one-word target, in any
    letter case, the rule [rm-rf-root] fires, and denies, exactly when the target is a
    filesystem or home root or its immediate wildcard; every other path, [./build] or
    [/etc] alike, passes it. *)
Theorem rm_rf_root_exact w (Hw : word w) :
  (ad_Rule (ActionDecisionFor ("rm -rf " +:+ w)) = "rm-rf-root" <-> In (ToLower w) removal_roots) /\
  (In (ToLower w) removal_roots -> ad_Verdict (ActionDecisionFor ("rm -rf " +:+ w)) = ActionDeny).
Proof.
  assert (Hw' : word (ToLower w)) by by apply ToLower_word.
  assert (En : normalizeCommand ("rm -rf " +:+ w) = "rm -rf " +:+ ToLower w).
  { rewrite normalizeCommand_words. change ("rm -rf " +:+ w) with (Join ["rm"; "-rf"; w] " ").
    rewrite Fields_Join; [done|]. repeat constructor; try done; by destruct Hw. }
  assert (Hm : matchRecursiveRemoveRoot ("rm -rf " +:+ ToLower w) = true <-> In (ToLower w) removal_roots).
  { unfold matchRecursiveRemoveRoot. change (HasPrefix ("rm -rf " +:+ ToLower w) "rm ") with true. cbn [negb andb].
    rewrite rm_rf_flags by done. cbn [negb]. rewrite existsb_exists. split.
    - intros (t & Ht & Hm). apply dangerousTargets_roots in Ht as (x & -> & Hx).
      destruct (removal_roots_no_space x Hx) as [Hxs Hxr].
      rewrite rm_rf_inside, orb_false_r in Hm by auto using word_no_space.
      apply rm_rf_suffix in Hm as ->; auto using word_no_space.
    - intros H. destruct (removal_roots_no_space _ H) as [Hxs _]. exists (" " +:+ ToLower w). split.
      + apply dangerousTargets_roots. eauto.
      + apply orb_true_iff. left. by apply rm_rf_suffix. }
  unfold ActionDecisionFor. rewrite En. change (String.eqb ("rm -rf " +:+ ToLower w) "") with false. cbv iota.
  rewrite <-Hm. pose proof (removal_rule_first ("rm -rf " +:+ ToLower w)) as Hf.
  destruct (List.find _ destructiveActionRules); [done|]. cbn [ad_Rule ad_Verdict]. by rewrite Hf.
Qed.

Example rm_rf_root_exact_witness :
  (ad_Rule (ActionDecisionFor ("rm -rf " +:+ "$HOME/")) = "rm-rf-root" <-> In (ToLower "$HOME/") removal_roots) /\
  (In (ToLower "$HOME/") removal_roots -> ad_Verdict (ActionDecisionFor ("rm -rf " +:+ "$HOME/")) = ActionDeny).
Proof. apply rm_rf_root_exact. split; [discriminate|reflexivity]. Defined.

(** ** The secret policy *)

(** The tests of the secret policy on a normalised command. *)
Definition broad_token (norm : string) : bool := existsb (fun r => bt_match r norm) broadTokenRules.

Lemma find_existsb {A} (f : A -> bool) l :
  match List.find f l with Some _ => existsb f l = true | None => existsb f l = false end.
Proof. induction l as [|x l IH]; cbn; [done|]. by destruct (f x). Qed.

(** Precedence of the secret policy.  A command is denied exactly when it has a broad token
    grant, or names a sensitive path together with a transmitting verb; it needs a human
    exactly when it names a sensitive path with no such verb and does not start with a
    benign one.  The benign test reads the start of the command only, so what follows
    it in the same line is not looked at: listing the key directory first lets the
    reading of the key through. *)
Theorem SecretDecisionFor_precedence :
  (forall c, let norm := normalizeCommand c in
     (sd_Verdict (SecretDecisionFor c) = ActionDeny <->
        broad_token norm = true \/ (containsSensitivePath norm = true /\ hasExfilVerb norm = true)) /\
     (sd_Verdict (SecretDecisionFor c) = ActionNeedsHITL <->
        broad_token norm = false /\ containsSensitivePath norm = true /\ hasExfilVerb norm = false /\
        hasBenignSecretVerb norm = false)) /\
  tu_Verdict (DecideToolUse "cat ~/.ssh/id_rsa") = ActionNeedsHITL /\
  tu_Verdict (DecideToolUse "ls ~/.ssh && cat ~/.ssh/id_rsa") = ActionAllow.
Proof.
  split; [|by vm_compute]. intros c norm. unfold SecretDecisionFor. fold norm.
  destruct (String.eqb_spec norm "") as [->|_].
  { split; vm_compute; naive_solver. }
  unfold broad_token, containsSensitivePath. pose proof (find_existsb (fun r => bt_match r norm) broadTokenRules) as Hb.
  destruct (List.find _ broadTokenRules); rewrite Hb; cbn [sd_Verdict]; [naive_solver|].
  destruct (firstSensitivePath norm); [|naive_solver].
  destruct (hasExfilVerb norm); [naive_solver|]. destruct (hasBenignSecretVerb norm); naive_solver.
Qed.

(** A force-push is judged by text, not by ref.  Whatever the branch, [git push --force
    origin <branch>] is denied as soon as the branch's name contains the text [main]:
    a feature branch named after a domain is refused, as the protected branch is. *)
Theorem force_push_by_text branch (Hw : word branch) (Hm : Contains (ToLower branch) "main" = true) :
  ad_Verdict (ActionDecisionFor ("git push --force origin " +:+ branch)) = ActionDeny.
Proof.
  assert (En : normalizeCommand ("git push --force origin " +:+ branch) = "git push --force origin " +:+ ToLower branch).
  { rewrite normalizeCommand_words.
    change ("git push --force origin " +:+ branch) with (Join ["git"; "push"; "--force"; "origin"; branch] " ").
    rewrite Fields_Join; [done|]. repeat constructor; try done; by destruct Hw. }
  unfold ActionDecisionFor. rewrite En. set (norm := "git push --force origin " +:+ ToLower branch).
  assert (Hf : matchForcePushProtected norm = true).
  { unfold matchForcePushProtected. change (HasPrefix norm "git push") with true. cbn [negb andb].
    assert (Contains norm "--force" = true) as ->.
    { apply (Contains_app_r "git push "). change (" --force origin ") with ("--force" +:+ " origin ").
      by apply (Contains_app_l "--force"). }
    cbn [orb negb protectedPushRefs existsb]. apply orb_true_iff. left. by apply Contains_app_r. }
  change (String.eqb norm "") with false. cbv iota. apply force_push_denied in Hf.
  by destruct (List.find _ destructiveActionRules).
Qed.

Example force_push_by_text_witness :
  ad_Verdict (ActionDecisionFor ("git push --force origin " +:+ "feature/domain-x")) = ActionDeny.
Proof. apply force_push_by_text; [split; [discriminate|reflexivity]|reflexivity]. Defined.
