(* ===== verification/Stuck.v ===== *)
(** * Stuck detection, sticky halts and the lifetime budget

    The read-only predicates over the ledger that stop a run:
    [internal/cycle/stuck.go] (four repetition patterns), [internal/cycle/reviver.go]
    (a halt seals the cycle until a later [validation_green]) and
    [internal/budget/budget.go] (the turn, token and lifetime ceilings). *)

From S2P Require Import Prelude GoStrings Json Codec Contract Ledger.
From Stdlib Require Import Ascii String.
#[local] Open Scope string_scope.

(** ** The stuck detector *)

(* src: internal/cycle/stuck.go 17-22 StuckRepeatTurnThreshold *)
Definition StuckRepeatTurnThreshold : nat := 4.
(* src: internal/cycle/stuck.go 24-26 StuckRepeatGateFailThreshold *)
Definition StuckRepeatGateFailThreshold : nat := 3.
(* src: internal/cycle/stuck.go 28-30 StuckPingPongThreshold *)
Definition StuckPingPongThreshold : nat := 6.
(* src: internal/cycle/stuck.go 32-34 StuckNoProgressWindow *)
Definition StuckNoProgressWindow : nat := 5.

Definition nul : string := String (byte_of 0) "".

(* src: internal/cycle/stuck.go 37-42 turnFingerprint *)
Definition turnFingerprint (e : HarnessLedgerEntry) : string := Summary e +:+ nul +:+ Join (Files e) nul.

(** What the single pass collects. *)
(* src: internal/cycle/stuck.go 56-64 Stuck *)
Record StuckPass := mkStuckPass {
  turnCount : gmap string nat; gateFailCount : gmap (string * string) nat;
  turnFingerprints : list string; turnAt : list Z }.

(** [m[k]++] *)
Definition incr {K} `{Countable K} (k : K) (m : gmap K nat) : gmap K nat := <[k := S (default 0%nat (m !! k))]> m.

(* src: internal/cycle/stuck.go 66-78 Stuck *)
Definition stuck_entry (p : StuckPass) (e : HarnessLedgerEntry) : StuckPass :=
  if String.eqb (Type_ e) LedgerEventAgentTurn then
    let fp := turnFingerprint e in
    mkStuckPass (incr fp (turnCount p)) (gateFailCount p) (turnFingerprints p ++ [fp])%list (turnAt p ++ [At e])%list
  else if String.eqb (Type_ e) LedgerEventGateFailed then
    mkStuckPass (turnCount p) (incr (Gate e, Summary e) (gateFailCount p)) (turnFingerprints p) (turnAt p)
  else p.

Definition stuck_pass (entries : list HarnessLedgerEntry) : StuckPass :=
  foldl stuck_entry (mkStuckPass ∅ ∅ [] []) entries.

(** [for _, cnt := range m { if cnt >= n { return true } }] *)
(* src: internal/cycle/stuck.go 80-92 Stuck *)
Definition some_count {K} `{Countable K} (n : nat) (m : gmap K nat) : bool :=
  existsb (fun kv => (n <=? snd kv)%nat) (map_to_list m).

(** The scan: [p2] and [p1] are the two fingerprints before the rest, [p2] absent at the
    second position. *)
(* src: internal/cycle/stuck.go 113-133 pingPongStuck *)
Fixpoint pingpong_scan (runLen : nat) (p2 : option string) (p1 : string) (rest : list string) : bool :=
  match rest with
  | [] => false
  | cur :: rest =>
      let runLen :=
        if negb (String.eqb cur p1) then
          match p2 with
          | Some x => if String.eqb cur x then S runLen else 2%nat
          | None => 2%nat
          end
        else 1%nat in
      if (StuckPingPongThreshold <=? runLen)%nat then true else pingpong_scan runLen (Some p1) cur rest
  end.

(* src: internal/cycle/stuck.go 107-135 pingPongStuck *)
Definition pingPongStuck (fps : list string) : bool :=
  if (List.length fps <? StuckPingPongThreshold)%nat then false
  else match fps with [] => false | x :: rest => pingpong_scan 1 None x rest end.

(* src: internal/cycle/stuck.go 137-173 noProgressStuck *)
Definition noProgressStuck (all : list HarnessLedgerEntry) (turnFPs : list string) (turnAt : list Z) : bool :=
  let n := List.length turnFPs in
  if (n <? StuckNoProgressWindow)%nat then false
  else
    let windowStart := (n - StuckNoProgressWindow)%nat in
    let priorFPs := (list_to_set (take windowStart turnFPs) : gset string) in
    if existsb (fun fp => negb (bool_decide (fp ∈ priorFPs))) (drop windowStart turnFPs) then false
    else
      let windowStartAt := nth windowStart turnAt 0%Z in
      negb (existsb (fun e => String.eqb (Type_ e) LedgerEventValidationGreen && (windowStartAt <=? At e)%Z) all).

(** The reason, [None] when the run is not stuck. *)
(* src: internal/cycle/stuck.go 44-105 Stuck *)
Definition Stuck (entries : list HarnessLedgerEntry) : option HaltReason :=
  let p := stuck_pass entries in
  if some_count StuckRepeatTurnThreshold (turnCount p) then Some HaltStuck
  else if some_count StuckRepeatGateFailThreshold (gateFailCount p) then Some HaltStuck
  else if pingPongStuck (turnFingerprints p) then Some HaltStuck
  else if noProgressStuck entries (turnFingerprints p) (turnAt p) then Some HaltStuck
  else None.

(** ** The reviver guard *)

(* src: internal/cycle/reviver.go 60-69 parseHaltReasonOrStuck *)
Definition parseHaltReasonOrStuck (summary : string) : HaltReason :=
  match ParseHaltReason summary with inr reason => reason | inl _ => HaltStuck end.

(** The loop: the reason of the last halt, if any, and whether a green came after it. *)
(* src: internal/cycle/reviver.go 30-49 LedgerSealsResume *)
Definition seal_entry (s : option HaltReason * bool) (e : HarnessLedgerEntry) : option HaltReason * bool :=
  if String.eqb (Type_ e) LedgerEventCycleHalted then (Some (parseHaltReasonOrStuck (Summary e)), false)
  else if String.eqb (Type_ e) LedgerEventValidationGreen then
    match fst s with Some _ => (fst s, true) | None => s end
  else s.

(* src: internal/cycle/reviver.go 22-58 LedgerSealsResume *)
Definition LedgerSealsResume (entries : list HarnessLedgerEntry) : option HaltReason :=
  match foldl seal_entry (None, false) entries with
  | (None, _) => None
  | (Some _, true) => None
  | (Some reason, false) => Some reason
  end.

(** ** Budgets *)

(* src: pkg/contract/types.go 45-56 Budget *)
Record Budget := mkBudget { b_TokensLeft : Z; b_TurnsLeft : Z; b_DeadlineMS : Z; b_DryRoundsThreshold : Z }.

(** [int] and [int64] arithmetic wraps round. *)
(* src: internal/budget/budget.go 25-34 Budgeter.Remaining *)
Definition Remaining (initial : Budget) (used : Usage) (turnsUsed : Z) : Budget :=
  let tokensUsed := wrap64 (u_TokensIn used + u_TokensOut used) in
  mkBudget (wrap64 (b_TokensLeft initial - tokensUsed)) (wrap64 (b_TurnsLeft initial - turnsUsed))
    (b_DeadlineMS initial) (b_DryRoundsThreshold initial).

(* src: internal/budget/budget.go 36-39 Budgeter.IsExhausted *)
Definition IsExhausted (budget : Budget) : bool := ((b_TurnsLeft budget <=? 0) || (b_TokensLeft budget <=? 0))%Z.

(** Instants in nanoseconds. *)
(* src: internal/budget/budget.go 41-48 Budgeter.IsDeadlinePassed *)
Definition IsDeadlinePassed (now start deadlineMinutes : Z) : bool :=
  if (deadlineMinutes <=? 0)%Z then false else (start + deadlineMinutes * 60000000000 <? now)%Z.

(* src: internal/budget/budget.go 50-62 LifetimeTurns *)
Definition LifetimeTurns (entries : list HarnessLedgerEntry) : Z :=
  foldl (fun turns e => if String.eqb (Type_ e) LedgerEventAgentTurn then (turns + 1)%Z else turns) 0%Z entries.

(* src: internal/budget/budget.go 64-76 ExceedsLifetimeCeiling *)
Definition ExceedsLifetimeCeiling (entries : list HarnessLedgerEntry) (ceiling : Z) : bool :=
  if (ceiling <=? 0)%Z then false else (ceiling <=? LifetimeTurns entries)%Z.

(** ** The pass as projections of the ledger *)

Definition is_type (t : LedgerEventType) (e : HarnessLedgerEntry) : bool := String.eqb (Type_ e) t.
Definition turns (entries : list HarnessLedgerEntry) : list HarnessLedgerEntry := List.filter (is_type LedgerEventAgentTurn) entries.
Definition failures (entries : list HarnessLedgerEntry) : list HarnessLedgerEntry := List.filter (is_type LedgerEventGateFailed) entries.

Section Counters.
Context {K : Type} `{Countable K}.

(** How often [k] occurs in [l]. *)
Definition occurrences (k : K) (l : list K) : nat := List.length (filter (fun x => x = k) l).

Definition counter (l : list K) : gmap K nat := foldl (fun m k => incr k m) ∅ l.

Lemma occurrences_snoc k l x :
  occurrences k (l ++ [x]) = (occurrences k l + if decide (x = k) then 1 else 0)%nat.
Proof.
  unfold occurrences. rewrite filter_app, length_app. f_equal.
  destruct (decide (x = k)); [rewrite filter_cons_True by done|rewrite filter_cons_False by done]; done.
Qed.

Lemma counter_lookup k l : counter l !! k = if decide (occurrences k l = 0%nat) then None else Some (occurrences k l).
Proof.
  unfold counter. induction l as [|x l IH] using rev_ind; [done|].
  rewrite foldl_snoc, occurrences_snoc. unfold incr at 1. destruct (decide (x = k)) as [->|Hne].
  - rewrite lookup_insert_eq, IH. do 2 case_decide; cbn; f_equal; lia.
  - rewrite lookup_insert_ne, IH, Nat.add_0_r by done. done.
Qed.

Lemma some_count_spec n l : (0 < n)%nat -> some_count n (counter l) = true <-> exists k, (n <= occurrences k l)%nat.
Proof.
  intros Hn. unfold some_count. rewrite existsb_exists. split.
  - intros ([k v] & Hin & Hv). apply list_elem_of_In, elem_of_map_to_list in Hin. rewrite counter_lookup in Hin.
    exists k. apply Nat.leb_le in Hv. cbn in Hv. case_decide; simplify_eq. done.
  - intros [k Hk]. exists (k, occurrences k l). split; [|by apply Nat.leb_le].
    apply list_elem_of_In, elem_of_map_to_list. rewrite counter_lookup. case_decide; [lia|done].
Qed.
End Counters.

Lemma filter_snoc {A} (f : A -> bool) l x : List.filter f (l ++ [x]) = (List.filter f l ++ if f x then [x] else [])%list.
Proof. rewrite List.filter_app. cbn. by destruct (f x). Qed.

Lemma stuck_pass_spec entries :
  stuck_pass entries =
    mkStuckPass (counter (map turnFingerprint (turns entries)))
      (counter (map (fun e => (Gate e, Summary e)) (failures entries)))
      (map turnFingerprint (turns entries)) (map At (turns entries)).
Proof.
  unfold stuck_pass. induction entries as [|e l IH] using rev_ind; [done|].
  rewrite foldl_snoc, IH. unfold turns, failures, counter. rewrite !filter_snoc, !map_app, !foldl_app. unfold stuck_entry, is_type.
  destruct (String.eqb_spec (Type_ e) LedgerEventAgentTurn) as [->|_].
  - change (String.eqb LedgerEventAgentTurn LedgerEventGateFailed) with false. cbn. reflexivity.
  - destruct (String.eqb (Type_ e) LedgerEventGateFailed); cbn; by rewrite !app_nil_r.
Qed.

(** ** Ping-pong *)

(** The length of the alternating run a reversed sequence starts with. *)
Fixpoint alt_run (l : list string) : nat :=
  match l with
  | [] => 0
  | x :: r =>
      match r with
      | [] => 1
      | y :: r' => if negb (String.eqb x y)
                   then match r' with z :: _ => if String.eqb x z then S (alt_run r) else 2 | [] => 2 end
                   else 1
      end
  end.

Lemma pingpong_scan_spec done p1 rest :
  pingpong_scan (alt_run (p1 :: done)) (head done) p1 rest = true <->
  exists seen post, rest = (seen ++ post)%list /\ seen <> [] /\ (6 <= alt_run (rev seen ++ p1 :: done))%nat.
Proof.
  revert done p1. induction rest as [|cur rest IH]; intros done p1.
  { cbn. split; [done|]. intros (seen & post & E & Hne & _). by destruct seen. }
  assert (Hrun : (if negb (String.eqb cur p1)
                  then match head done with
                       | Some x => if String.eqb cur x then S (alt_run (p1 :: done)) else 2%nat
                       | None => 2%nat end
                  else 1%nat) = alt_run (cur :: p1 :: done)) by (cbn; by destruct done).
  cbn [pingpong_scan]. rewrite Hrun. unfold StuckPingPongThreshold.
  destruct (Nat.leb_spec 6 (alt_run (cur :: p1 :: done))) as [H6|H6].
  - split; [|done]. intros _. by exists [cur], rest.
  - change (Some p1) with (head (p1 :: done)). rewrite IH. split.
    + intros (seen & post & -> & _ & H). exists (cur :: seen), post. cbn. by rewrite <- app_assoc.
    + intros (seen & post & E & Hne & H). destruct seen as [|c seen]; [done|]. injection E as <- ->.
      cbn in H. rewrite <- app_assoc in H. cbn in H. destruct seen as [|c' seen]; [cbn in H, H6; lia|].
      by exists (c' :: seen), post.
Qed.

Lemma alt_run_pos x r : (1 <= alt_run (x :: r))%nat.
Proof. cbn. repeat case_match; lia. Qed.

Lemma alt_run_2 x y r : (2 <= alt_run (x :: y :: r))%nat <-> x <> y.
Proof.
  pose proof (alt_run_pos y r). cbn [alt_run] in *. destruct (String.eqb_spec x y); cbn [negb]; [split; [lia|done]|].
  split; [done|]. repeat case_match; lia.
Qed.

Lemma alt_run_3 n x y z r : (3 + n <= alt_run (x :: y :: z :: r))%nat <-> x <> y /\ z = x /\ (2 + n <= alt_run (y :: z :: r))%nat.
Proof.
  cbn [alt_run]. destruct (String.eqb_spec x y); cbn [negb]; [split; [lia|naive_solver]|].
  destruct (String.eqb_spec x z) as [->|]; [|split; [lia|naive_solver]].
  split; [intros H; split_and!; [done..|lia]|intros (_ & _ & H); lia].
Qed.

Lemma alt_run_short l n : (List.length l < n)%nat -> ~ (n <= alt_run l)%nat.
Proof.
  revert n. induction l as [|x l IH]; intros n Hn H; [cbn in *; lia|].
  destruct n as [|n]; [cbn in Hn; lia|]. apply (IH n); [cbn in Hn; lia|].
  destruct l as [|y [|z l]]; cbn in *; repeat case_match; lia.
Qed.

Lemma alt_run_6 l : (6 <= alt_run l)%nat <-> exists a b r, a <> b /\ l = ([b; a; b; a; b; a] ++ r)%list.
Proof.
  split.
  - intros H. destruct l as [|x1 [|x2 [|x3 [|x4 [|x5 [|x6 r]]]]]];
      try (exfalso; revert H; apply alt_run_short; cbn; lia).
    apply (alt_run_3 3) in H as (Hne & -> & H). apply (alt_run_3 2) in H as (_ & -> & H).
    apply (alt_run_3 1) in H as (_ & -> & H). apply (alt_run_3 0) in H as (_ & -> & _).
    exists x2, x1, r. by split.
  - intros (a & b & r & Hne & ->). cbn [app].
    apply (alt_run_3 3). split_and!; [done..|]. apply (alt_run_3 2). split_and!; [done..|].
    apply (alt_run_3 1). split_and!; [done..|]. apply (alt_run_3 0). split_and!; [done..|]. by apply alt_run_2.
Qed.

Lemma pingPongStuck_spec fps :
  pingPongStuck fps = true <-> exists pre post a b, a <> b /\ fps = (pre ++ [a; b; a; b; a; b] ++ post)%list.
Proof.
  unfold pingPongStuck, StuckPingPongThreshold. destruct (Nat.ltb_spec (List.length fps) 6) as [Hlt|Hge].
  { split; [done|]. intros (pre & post & a & b & _ & ->). rewrite !length_app in Hlt. cbn in Hlt. lia. }
  destruct fps as [|x rest]; [cbn in Hge; lia|]. clear Hge.
  change (pingpong_scan 1 None x rest) with (pingpong_scan (alt_run [x]) (head []) x rest). rewrite pingpong_scan_spec. split.
  - intros (seen & post & -> & _ & (a & b & r & Hne & E)%alt_run_6). apply (f_equal (@rev string)) in E.
    rewrite rev_app_distr, rev_app_distr, rev_involutive in E. cbn in E. exists (rev r), post, a, b. split; [done|].
    change (x :: seen ++ post)%list with ((x :: seen) ++ post)%list. rewrite E. by rewrite <- app_assoc.
  - intros (pre & post & a & b & Hne & E).
    assert (E2 : exists seen, rest = (seen ++ post)%list /\ (x :: seen = pre ++ [a; b; a; b; a; b])%list /\ seen <> []).
    { destruct pre as [|p pre]; injection E as -> ->; [exists [b; a; b; a; b]; done|].
      exists (pre ++ [a; b; a; b; a; b])%list. rewrite <- app_assoc. split_and!; [done..|]. by destruct pre. }
    destruct E2 as (seen & -> & Es & Hn). exists seen, post. split_and!; [done..|].
    apply alt_run_6. exists a, b, (rev pre). split; [done|].
    change (rev seen ++ [x])%list with (rev (x :: seen)). rewrite Es, rev_app_distr. done.
Qed.

(** ** The specification *)

(** The last window of turns shows nothing new, and no green since it began. *)
Definition no_progress (entries : list HarnessLedgerEntry) : Prop :=
  exists prior first window, turns entries = (prior ++ first :: window)%list /\ List.length window = 4%nat /\
    (forall e, e ∈ first :: window -> turnFingerprint e ∈ map turnFingerprint prior) /\
    (forall e, e ∈ entries -> Type_ e = LedgerEventValidationGreen -> (At e < At first)%Z).

Lemma existsb_false {A} (f : A -> bool) l : existsb f l = false <-> forall x, x ∈ l -> f x = false.
Proof.
  rewrite <- not_true_iff_false, existsb_exists. setoid_rewrite list_elem_of_In. split.
  - intros H x Hx. destruct (f x) eqn:E; [|done]. exfalso. eauto.
  - intros H (x & Hx & E). by rewrite H in E.
Qed.

Lemma all_seen (prior window : list string) :
  existsb (fun fp => negb (bool_decide (fp ∈ (list_to_set prior : gset string)))) window = false <->
  forall fp, fp ∈ window -> fp ∈ prior.
Proof.
  rewrite existsb_false. setoid_rewrite negb_false_iff. setoid_rewrite bool_decide_eq_true.
  setoid_rewrite (elem_of_list_to_set (C:=gset string)). done.
Qed.

Lemma no_green_since t entries :
  existsb (fun e => String.eqb (Type_ e) LedgerEventValidationGreen && (t <=? At e)%Z) entries = false <->
  forall e, e ∈ entries -> Type_ e = LedgerEventValidationGreen -> (At e < t)%Z.
Proof.
  rewrite existsb_false. setoid_rewrite andb_false_iff. setoid_rewrite String.eqb_neq. setoid_rewrite Z.leb_gt.
  split; intros H e He; specialize (H e He); [tauto|]. destruct (decide (Type_ e = LedgerEventValidationGreen)); auto.
Qed.

(** The last [5] elements of a long enough list. *)
Lemma last_window {A} (l : list A) :
  (5 <= List.length l)%nat -> exists prior first window, l = (prior ++ first :: window)%list /\
    List.length window = 4%nat /\ List.length prior = (List.length l - 5)%nat.
Proof.
  intros Hge. destruct (drop (List.length l - 5) l) as [|f w] eqn:E; apply (f_equal List.length) in E as El;
    rewrite length_drop in El; cbn in El; [lia|].
  exists (take (List.length l - 5) l), f, w. rewrite <- E, take_drop, length_take. split_and!; [done|lia..].
Qed.

Lemma noProgressStuck_spec entries :
  noProgressStuck entries (map turnFingerprint (turns entries)) (map At (turns entries)) = true <-> no_progress entries.
Proof.
  unfold noProgressStuck, StuckNoProgressWindow. rewrite length_map.
  destruct (Nat.ltb_spec (List.length (turns entries)) 5) as [Hlt|Hge].
  { split; [done|]. intros (prior & f & w & E & Hl & _). rewrite E, length_app in Hlt. cbn in Hlt. lia. }
  destruct (last_window _ Hge) as (prior & f & w & E & Hw & Hp). set (k := (List.length (turns entries) - 5)%nat) in *.
  rewrite E, !map_app, take_app_length', drop_app_length' by (rewrite length_map; lia).
  rewrite app_nth2, length_map, Hp, Nat.sub_diag by (rewrite length_map; lia). cbn [map nth].
  transitivity ((forall fp, fp ∈ map turnFingerprint (f :: w) -> fp ∈ map turnFingerprint prior) /\
                (forall e, e ∈ entries -> Type_ e = LedgerEventValidationGreen -> (At e < At f)%Z)).
  - rewrite <- all_seen, <- no_green_since. cbn [map]. destruct (existsb _ (_ :: _)); [split; [done|by intros [? _]]|].
    rewrite negb_true_iff. tauto.
  - setoid_rewrite list_elem_of_fmap. split.
    + intros [H1 H2]. exists prior, f, w. split_and!; [done..| |done]. intros e He. apply list_elem_of_fmap, H1. by exists e.
    + intros (prior' & f' & w' & E' & Hl' & H1 & H2). rewrite E in E'.
      apply app_inj_2 in E' as [-> E']; [|cbn; lia]. simplify_eq. split; [|done].
      intros fp (e & -> & He). by apply list_elem_of_fmap, H1.
Qed.

(** The stuck detector fires exactly on four patterns of the ledger: some turn
    (summary and files) occurs four times; some failure (gate and summary) occurs three
    times; the turns contain a contiguous [A B A B A B] with [A <> B]; or each of the last
    five turns repeats a turn made before them and no [validation_green] has been
    recorded since the first of the five.  Its only reason is [HaltStuck]. *)
Theorem Stuck_spec entries :
  (Stuck entries = Some HaltStuck <->
     (exists fp, (4 <= occurrences fp (map turnFingerprint (turns entries)))%nat) \/
     (exists gs, (3 <= occurrences gs (map (fun e => (Gate e, Summary e)) (failures entries)))%nat) \/
     (exists pre post a b, a <> b /\
        map turnFingerprint (turns entries) = (pre ++ [a; b; a; b; a; b] ++ post)%list) \/
     no_progress entries) /\
  (Stuck entries = None \/ Stuck entries = Some HaltStuck).
Proof.
  unfold Stuck. rewrite stuck_pass_spec. cbn [turnCount gateFailCount turnFingerprints turnAt].
  unfold StuckRepeatTurnThreshold, StuckRepeatGateFailThreshold.
  rewrite <- (some_count_spec 4), <- (some_count_spec 3), <- pingPongStuck_spec, <- noProgressStuck_spec by lia.
  repeat case_match; split; auto; split; auto; intuition congruence.
Qed.

Lemma seal_snoc entries e :
  LedgerSealsResume (entries ++ [e]) =
    if String.eqb (Type_ e) LedgerEventCycleHalted then Some (parseHaltReasonOrStuck (Summary e))
    else if String.eqb (Type_ e) LedgerEventValidationGreen then None else LedgerSealsResume entries.
Proof.
  unfold LedgerSealsResume. rewrite foldl_snoc. destruct (foldl _ _ entries) as [o b]. unfold seal_entry.
  repeat case_match; by simplify_eq/=.
Qed.

(** A decomposition around an element of a list with one more element. *)
Lemma snoc_split {A} (l pre post : list A) x e :
  (l ++ [x] = pre ++ e :: post)%list ->
  (post = [] /\ pre = l /\ e = x) \/ exists post', post = (post' ++ [x])%list /\ l = (pre ++ e :: post')%list.
Proof.
  destruct (snoc_cases post) as [->|(post' & y & ->)]; intros E.
  - left. apply app_inj_tail in E as [-> ->]. done.
  - right. exists post'. change (pre ++ e :: post' ++ [y])%list with (pre ++ (e :: post') ++ [y])%list in E.
    rewrite app_assoc in E. apply app_inj_tail in E as [-> ->]. done.
Qed.

(** A cycle is sealed exactly when its ledger has a halt that no later halt or
    [validation_green] follows; the reason is the one that halt recorded, [stuck] when
    it is not a known reason.  Whatever else is appended, the seal holds. *)
Theorem LedgerSealsResume_spec entries :
  (forall reason, LedgerSealsResume entries = Some reason <->
     exists pre e post, entries = (pre ++ e :: post)%list /\ Type_ e = LedgerEventCycleHalted /\
       reason = parseHaltReasonOrStuck (Summary e) /\
       forall e', e' ∈ post -> Type_ e' <> LedgerEventCycleHalted /\ Type_ e' <> LedgerEventValidationGreen) /\
  (forall more, is_Some (LedgerSealsResume entries) -> (forall e, e ∈ more -> Type_ e <> LedgerEventValidationGreen) ->
     is_Some (LedgerSealsResume (entries ++ more))).
Proof.
  split.
  - induction entries as [|x l IH] using rev_ind; intros reason.
    { split; [done|]. intros (pre & e & post & E & _). by destruct pre. }
    rewrite seal_snoc. destruct (String.eqb_spec (Type_ x) LedgerEventCycleHalted) as [Hh|Hh].
    { split.
      - intros [= <-]. exists l, x, []. split_and!; [done..|]. by intros ? ?%elem_of_nil.
      - intros (pre & e & post & [(-> & -> & ->)|(post' & -> & ->)]%snoc_split & He & -> & Hp); [done|].
        destruct (Hp x) as [? _]; [apply elem_of_app; right; by left|done]. }
    destruct (String.eqb_spec (Type_ x) LedgerEventValidationGreen) as [Hg|Hg].
    { split; [done|]. intros (pre & e & post & [(-> & -> & ->)|(post' & -> & ->)]%snoc_split & He & _ & Hp); [done|].
      destruct (Hp x) as [_ ?]; [apply elem_of_app; right; by left|done]. }
    rewrite IH. split.
    + intros (pre & e & post & -> & He & -> & Hp). exists pre, e, (post ++ [x])%list.
      rewrite <- app_assoc. split_and!; [done..|]. intros e' [?| ->%list_elem_of_singleton]%elem_of_app; auto.
    + intros (pre & e & post & [(-> & -> & ->)|(post' & -> & ->)]%snoc_split & He & -> & Hp); [done|].
      exists pre, e, post'. split_and!; [done..|]. intros e' He'. apply Hp, elem_of_app. by left.
  - intros more Hs. induction more as [|e more IH] using rev_ind; intros Hg; [by rewrite app_nil_r|].
    rewrite app_assoc, seal_snoc. case_match; [eauto|].
    destruct (String.eqb_spec (Type_ e) LedgerEventValidationGreen) as [E|_].
    + exfalso. apply (Hg e); [apply elem_of_app; right; by left|done].
    + apply IH. intros e' He'. apply Hg, elem_of_app. by left.
Qed.

(** ** Budgets *)

Lemma LifetimeTurns_count entries : LifetimeTurns entries = Z.of_nat (List.length (turns entries)).
Proof.
  unfold LifetimeTurns, turns. induction entries as [|e l IH] using rev_ind; [done|].
  rewrite foldl_snoc, IH, filter_snoc, length_app. unfold is_type. case_match; cbn; lia.
Qed.

(** The hard ceiling counts the agent turns of the whole ledger, so it stops a run
    that never looks stuck, and no later entry can undo it. *)
Theorem ExceedsLifetimeCeiling_spec entries ceiling :
  (ExceedsLifetimeCeiling entries ceiling = true <-> (0 < ceiling <= Z.of_nat (List.length (turns entries)))%Z) /\
  forall more, ExceedsLifetimeCeiling entries ceiling = true -> ExceedsLifetimeCeiling (entries ++ more) ceiling = true.
Proof.
  assert (H : forall l, ExceedsLifetimeCeiling l ceiling = true <-> (0 < ceiling <= Z.of_nat (List.length (turns l)))%Z).
  { intros l. unfold ExceedsLifetimeCeiling. rewrite LifetimeTurns_count.
    destruct (Z.leb_spec ceiling 0); [split; [done|lia]|]. rewrite Z.leb_le. lia. }
  split; [apply H|]. intros more. rewrite !H. unfold turns. rewrite List.filter_app, length_app. lia.
Qed.

Lemma ExceedsLifetimeCeiling_spec_witness :
  ExceedsLifetimeCeiling ([Entry_zero <| Type_ := LedgerEventAgentTurn |>] ++ [Entry_zero])%list 1 = true.
Proof. apply (proj2 (ExceedsLifetimeCeiling_spec [Entry_zero <| Type_ := LedgerEventAgentTurn |>] 1)). reflexivity. Defined.

Lemma LedgerSealsResume_spec_witness :
  is_Some (LedgerSealsResume ([Entry_zero <| Type_ := LedgerEventCycleHalted |>] ++ [Entry_zero <| Type_ := LedgerEventAgentTurn |>])).
Proof.
  apply (proj2 (LedgerSealsResume_spec [Entry_zero <| Type_ := LedgerEventCycleHalted |>])).
  - eexists. reflexivity.
  - intros e ->%list_elem_of_singleton. discriminate.
Defined.
