(* ===== verification/Turns.v ===== *)
(** * Turns: requests, roles, routing and the scratchpad

    The turn types of [pkg/contract/types.go] with their JSON tables,
    [internal/router/router.go] (which role acts next) and
    [internal/scratch/scratch.go] (the shared scratchpad file and its compaction). *)

From S2P Require Import Prelude GoStrings Json Codec Contract Ledger Stuck.
From Stdlib Require Import Ascii String.
#[local] Open Scope string_scope.

(** ** Turn types *)

(* src: pkg/contract/types.go 58-74 LastTurn *)
Record LastTurn := mkLastTurn {
  lt_From : string; lt_Runtime : string; lt_Summary : string; lt_Artifacts : list string;
  lt_SelfEval : string; lt_Intent : string; lt_Claims : list Violation }.
#[export] Instance eta_LastTurn : Eta LastTurn :=
  fun r => mkLastTurn (lt_From r) (lt_Runtime r) (lt_Summary r) (lt_Artifacts r) (lt_SelfEval r)
    (lt_Intent r) (lt_Claims r).

(* src: pkg/contract/types.go 76-84 Task *)
Record Task := mkTask { tk_Title : string; tk_Body : string; tk_RepoRoot : string }.
#[export] Instance eta_Task : Eta Task := fun r => mkTask (tk_Title r) (tk_Body r) (tk_RepoRoot r).

#[export] Instance eta_Budget : Eta Budget :=
  fun r => mkBudget (b_TokensLeft r) (b_TurnsLeft r) (b_DeadlineMS r) (b_DryRoundsThreshold r).
#[export] Instance eta_Usage : Eta Usage := fun r => mkUsage (u_TokensIn r) (u_TokensOut r) (u_Ms r).

(** [ExitWhen] has no [omitempty]: a nil slice ([None]) and an empty one differ. *)
(* src: pkg/contract/types.go 96-122 TurnRequest *)
Record TurnRequest := mkTurnRequest {
  tq_Session : string; tq_Turn : Z; tq_Role : string; tq_RuntimeHint : string; tq_ModelHint : string;
  tq_Budget : Budget; tq_ScratchPath : string; tq_Scratch : string; tq_LastTurn : option LastTurn;
  tq_Task : Task; tq_WorkContract : option WorkContract; tq_ExitWhen : option (list string) }.
#[export] Instance eta_TurnRequest : Eta TurnRequest :=
  fun r => mkTurnRequest (tq_Session r) (tq_Turn r) (tq_Role r) (tq_RuntimeHint r) (tq_ModelHint r)
    (tq_Budget r) (tq_ScratchPath r) (tq_Scratch r) (tq_LastTurn r) (tq_Task r) (tq_WorkContract r)
    (tq_ExitWhen r).

(* src: pkg/contract/types.go 181-189 Role *)
Record Role := mkRole { ro_ID : string; ro_Runtime : string; ro_Model : string }.

(* src: pkg/contract/types.go 191-197 ScratchConfig *)
Record ScratchConfig := mkScratchConfig { sc_MaxKB : Z; sc_SummarizeWith : string }.

(* src: pkg/contract/types.go 199-215 Preset *)
Record Preset := mkPreset {
  ps_Name : string; ps_Description : string; ps_Roles : list Role; ps_Routing : string;
  ps_Budget : Budget; ps_ExitWhen : option (list string); ps_Scratch : ScratchConfig }.

(** *** JSON *)

(* src: pkg/contract/types.go 45-56 Budget *)
Definition Budget_fields : list (Field Budget) :=
  [ Tag "tokens_left" b_TokensLeft enc_int into_int;
    Tag "turns_left" b_TurnsLeft enc_int into_int;
    Tag "deadline_ms" b_DeadlineMS enc_int into_int;
    Tag "dry_rounds_threshold" b_DryRoundsThreshold opt_int into_int ].
Definition Budget_zero := mkBudget 0 0 0 0.

(* src: pkg/contract/types.go 58-74 LastTurn *)
Definition LastTurn_fields : list (Field LastTurn) :=
  [ Tag "from" lt_From enc_string into_string;
    Tag "runtime" lt_Runtime enc_string into_string;
    Tag "summary" lt_Summary enc_string into_string;
    Tag "artifacts" lt_Artifacts (opt_slice JStr) (into_slice "" into_string);
    Tag "self_eval" lt_SelfEval enc_string into_string;
    Tag "intent" lt_Intent opt_string into_string;
    Tag "claims" lt_Claims (opt_slice (encode_struct Violation_fields))
      (into_slice Violation_zero (into_struct Violation_fields)) ].
Definition LastTurn_zero := mkLastTurn "" "" "" [] "" "" [].

(* src: pkg/contract/types.go 76-84 Task *)
Definition Task_fields : list (Field Task) :=
  [ Tag "title" tk_Title enc_string into_string;
    Tag "body" tk_Body enc_string into_string;
    Tag "repo_root" tk_RepoRoot enc_string into_string ].
Definition Task_zero := mkTask "" "" "".

(* src: pkg/contract/types.go 86-94 Usage *)
Definition Usage_fields : list (Field Usage) :=
  [ Tag "tokens_in" u_TokensIn enc_int into_int;
    Tag "tokens_out" u_TokensOut enc_int into_int;
    Tag "ms" u_Ms enc_int into_int ].
Definition Usage_zero := mkUsage 0 0 0.

(* src: pkg/contract/types.go 96-122 TurnRequest *)
Definition TurnRequest_fields : list (Field TurnRequest) :=
  [ Tag "session" tq_Session enc_string into_string;
    Tag "turn" tq_Turn enc_int into_int;
    Tag "role" tq_Role enc_string into_string;
    Tag "runtime_hint" tq_RuntimeHint enc_string into_string;
    Tag "model_hint" tq_ModelHint opt_string into_string;
    Tag "budget" tq_Budget (enc_struct Budget_fields) (into_struct Budget_fields);
    Tag "shared_scratch_path" tq_ScratchPath enc_string into_string;
    Tag "scratch" tq_Scratch opt_string into_string;
    Tag "last_turn" tq_LastTurn (opt_ptr (encode_struct LastTurn_fields))
      (into_ptr LastTurn_zero (into_struct LastTurn_fields));
    Tag "task" tq_Task (enc_struct Task_fields) (into_struct Task_fields);
    Tag "work_contract" tq_WorkContract (opt_ptr (encode_struct WorkContract_fields))
      (into_ptr WorkContract_zero (into_struct WorkContract_fields));
    Tag "exit_when" tq_ExitWhen (enc_nilable JStr) (into_nilable "" into_string) ].
Definition TurnRequest_zero : TurnRequest :=
  mkTurnRequest "" 0 "" "" "" Budget_zero "" "" None Task_zero None None.

(* src: pkg/contract/types.go 124-144 TurnResponse *)
Definition TurnResponse_fields : list (Field TurnResponse) :=
  [ Tag "done" r_Done enc_bool into_bool;
    Tag "handoff_to" r_HandoffTo opt_string into_string;
    Tag "handoff_intent" r_HandoffIntent opt_string into_string;
    Tag "summary" r_Summary enc_string into_string;
    Tag "artifacts" r_Artifacts (opt_slice JStr) (into_slice "" into_string);
    Tag "self_eval" r_SelfEval enc_string into_string;
    Tag "notes_for_human" r_NotesForHuman opt_string into_string;
    Tag "usage" r_Usage (opt_ptr (encode_struct Usage_fields)) (into_ptr Usage_zero (into_struct Usage_fields));
    Tag "claims" r_Claims (opt_slice (encode_struct Violation_fields))
      (into_slice Violation_zero (into_struct Violation_fields)) ].
Definition TurnResponse_zero : TurnResponse := mkTurnResponse false "" "" "" [] "" "" None [].

(** *** What the encoder prints faithfully *)

Definition Budget_wf (b : Budget) : bool :=
  in_int64 (b_TokensLeft b) && in_int64 (b_TurnsLeft b) && in_int64 (b_DeadlineMS b) &&
  in_int64 (b_DryRoundsThreshold b).
Definition Usage_wf (u : Usage) : bool :=
  in_int64 (u_TokensIn u) && in_int64 (u_TokensOut u) && in_int64 (u_Ms u).
Definition Task_wf (t : Task) : bool :=
  utf8_valid (tk_Title t) && utf8_valid (tk_Body t) && utf8_valid (tk_RepoRoot t).
Definition LastTurn_wf (l : LastTurn) : bool :=
  utf8_valid (lt_From l) && utf8_valid (lt_Runtime l) && utf8_valid (lt_Summary l) &&
  strings_wf (lt_Artifacts l) && utf8_valid (lt_SelfEval l) && utf8_valid (lt_Intent l) &&
  forallb Violation_wf (lt_Claims l).
Definition TurnRequest_wf (q : TurnRequest) : bool :=
  utf8_valid (tq_Session q) && in_int64 (tq_Turn q) && utf8_valid (tq_Role q) &&
  utf8_valid (tq_RuntimeHint q) && utf8_valid (tq_ModelHint q) && Budget_wf (tq_Budget q) &&
  utf8_valid (tq_ScratchPath q) && utf8_valid (tq_Scratch q) &&
  match tq_LastTurn q with Some l => LastTurn_wf l | None => true end &&
  Task_wf (tq_Task q) && match tq_WorkContract q with Some w => WorkContract_wf w | None => true end &&
  strings_wf (default [] (tq_ExitWhen q)).
Definition TurnResponse_wf (r : TurnResponse) : bool :=
  utf8_valid (r_HandoffTo r) && utf8_valid (r_HandoffIntent r) && utf8_valid (r_Summary r) &&
  strings_wf (r_Artifacts r) && utf8_valid (r_SelfEval r) && utf8_valid (r_NotesForHuman r) &&
  match r_Usage r with Some u => Usage_wf u | None => true end && forallb Violation_wf (r_Claims r).

(** *** Round trips *)

Lemma Budget_table : table_ok Budget_zero Budget_fields.
Proof. solve_table. Qed.
Lemma Usage_table : table_ok Usage_zero Usage_fields.
Proof. solve_table. Qed.
Lemma Task_table : table_ok Task_zero Task_fields.
Proof. solve_table. Qed.
Lemma LastTurn_table : table_ok LastTurn_zero LastTurn_fields.
Proof. solve_table. Qed.
Lemma TurnRequest_table : table_ok TurnRequest_zero TurnRequest_fields.
Proof. solve_table. Qed.
Lemma TurnResponse_table : table_ok TurnResponse_zero TurnResponse_fields.
Proof. solve_table. Qed.

Lemma Budget_roundtrip b : Budget_wf b = true -> struct_ok Budget_fields Budget_zero b.
Proof. unfold Budget_wf. intros. reflect_bools. solve_struct Budget_table. Qed.
Lemma Usage_roundtrip u : Usage_wf u = true -> struct_ok Usage_fields Usage_zero u.
Proof. unfold Usage_wf. intros. reflect_bools. solve_struct Usage_table. Qed.
Lemma Task_roundtrip t : Task_wf t = true -> struct_ok Task_fields Task_zero t.
Proof. unfold Task_wf. intros. reflect_bools. solve_struct Task_table. Qed.
Lemma LastTurn_roundtrip l : LastTurn_wf l = true -> struct_ok LastTurn_fields LastTurn_zero l.
Proof. unfold LastTurn_wf. intros. reflect_bools. solve_struct LastTurn_table. Qed.

#[export] Hint Resolve Budget_roundtrip Usage_roundtrip Task_roundtrip LastTurn_roundtrip : rallish_wf.

Lemma TurnRequest_roundtrip q : TurnRequest_wf q = true -> struct_ok TurnRequest_fields TurnRequest_zero q.
Proof.
  unfold TurnRequest_wf. intros. reflect_bools. solve_struct TurnRequest_table.
  - apply opt_ptr_struct_ok. intros r Hr. rewrite Hr in *. eauto with rallish_wf.
  - apply opt_ptr_struct_ok. intros r Hr. rewrite Hr in *. by apply WorkContract_roundtrip.
Qed.

Lemma TurnResponse_roundtrip r : TurnResponse_wf r = true -> struct_ok TurnResponse_fields TurnResponse_zero r.
Proof.
  unfold TurnResponse_wf. intros. reflect_bools. solve_struct TurnResponse_table.
  apply opt_ptr_struct_ok. intros u Hu. rewrite Hu in *. eauto with rallish_wf.
Qed.

#[export] Hint Resolve TurnRequest_roundtrip TurnResponse_roundtrip : rallish_wf.

(** ** The router *)

Inductive RouterError : Set := ErrContext | ErrBlockedNoReviewer | ErrRouting (rule : string).

(* src: internal/router/router.go 63-70 Router.isValidRole *)
Definition isValidRole (roles : list Role) (roleID : string) : bool :=
  existsb (fun role => String.eqb (ro_ID role) roleID) roles.

(* src: internal/router/router.go 72-79 Router.findReviewer *)
Definition findReviewer (roles : list Role) : string :=
  match List.find (fun role => String.eqb (ro_ID role) "reviewer") roles with
  | Some role => ro_ID role
  | None => ""
  end.

(** Go's [%] truncates, so the index of a turn below 1 may be negative. *)
(* src: internal/router/router.go 81-90 Router.roundRobin *)
Definition roundRobin (roles : list Role) (turn : Z) : string :=
  match roles with
  | [] => ""
  | _ =>
      let idx := Z.rem (turn - 1) (Z.of_nat (List.length roles)) in
      let idx := if (idx <? 0)%Z then 0%Z else idx in
      match nth_error roles (Z.to_nat idx) with Some role => ro_ID role | None => "" end
  end.

(** The explicit handoff of the previous turn, when its target is a role. *)
(* src: internal/router/router.go 39-41 Router.Next *)
Definition honoured_handoff (roles : list Role) (prev : option TurnResponse) : option string :=
  match prev with
  | Some r => if negb (String.eqb (r_HandoffTo r) "") && isValidRole roles (r_HandoffTo r)
              then Some (r_HandoffTo r) else None
  | None => None
  end.

(* src: internal/router/router.go 37-60 Router.Next *)
Definition route (p : Preset) (prev : option TurnResponse) (turn : Z) : RouterError + string :=
  let roles := ps_Roles p in
  let rule := ps_Routing p in
  if String.eqb rule "round_robin" || String.eqb rule "handoff_then_round_robin" then
    inr (match honoured_handoff roles prev with Some id => id | None => roundRobin roles turn end)
  else if String.eqb rule "strict_round_robin" then inr (roundRobin roles turn)
  else if String.eqb rule "last_writer_wins" then
    match honoured_handoff roles prev, prev with
    | Some id, _ => inr id
    | None, Some _ => inr (roundRobin roles (turn - 1))
    | None, None => inr (roundRobin roles turn)
    end
  else inl (ErrRouting rule).

(** [alive]: [ctx.Err() == nil]. *)
(* src: internal/router/router.go 22-61 Router.Next *)
Definition Next (alive : bool) (p : Preset) (prev : option TurnResponse) (turn : Z) : RouterError + string :=
  if negb alive then inl ErrContext
  else
    match prev with
    | Some r =>
        if String.eqb (r_SelfEval r) SelfEvalBlocked then
          let reviewerID := findReviewer (ps_Roles p) in
          if negb (String.eqb reviewerID "") then inr reviewerID else inl ErrBlockedNoReviewer
        else route p prev turn
    | None => route p prev turn
    end.

(* src: internal/preset/preset.go 12-17 validRouting *)
Definition validRouting (rule : string) : bool :=
  String.eqb rule "round_robin" || String.eqb rule "handoff_then_round_robin" ||
  String.eqb rule "strict_round_robin" || String.eqb rule "last_writer_wins".

Definition blocked (prev : option TurnResponse) : bool :=
  match prev with Some r => String.eqb (r_SelfEval r) SelfEvalBlocked | None => false end.

Definition role_ids (p : Preset) : list string := map ro_ID (ps_Roles p).

Lemma isValidRole_In roles id : isValidRole roles id = true <-> In id (map ro_ID roles).
Proof.
  unfold isValidRole. rewrite existsb_exists, in_map_iff. split.
  - intros (r & Hr & He). apply String.eqb_eq in He. by exists r.
  - intros (r & <- & Hr). exists r. by rewrite String.eqb_refl.
Qed.

Lemma findReviewer_spec roles :
  (findReviewer roles = "reviewer" /\ In "reviewer" (map ro_ID roles)) \/
  (findReviewer roles = "" /\ ~ In "reviewer" (map ro_ID roles)).
Proof.
  unfold findReviewer. destruct (List.find _ roles) as [r|] eqn:E.
  - apply find_some in E as [Hr He]. apply String.eqb_eq in He. left. rewrite He.
    split; [done|]. rewrite <-He. by apply in_map.
  - right. split; [done|]. intros (r & Hr & Hin)%in_map_iff.
    apply (find_none _ _ E) in Hin. by rewrite Hr in Hin.
Qed.

Lemma nth_error_ids roles i id :
  nth_error (map ro_ID roles) i = Some id ->
  match nth_error roles i with Some role => ro_ID role | None => "" end = id.
Proof. rewrite nth_error_map. destruct (nth_error roles i); naive_solver. Qed.

Lemma roundRobin_In roles turn : roles <> [] -> In (roundRobin roles turn) (map ro_ID roles).
Proof.
  intros Hne. unfold roundRobin. destruct roles as [|x l] eqn:E; [done|]. rewrite <-E in *. clear Hne.
  assert (Hlen : (0 < Z.of_nat (List.length roles))%Z) by (rewrite E; simpl; lia).
  set (idx := if (Z.rem _ _ <? 0)%Z then _ else _).
  assert (0 <= idx < Z.of_nat (List.length roles))%Z as Hi.
  { subst idx. pose proof (Z.rem_bound_abs (turn - 1) (Z.of_nat (List.length roles)) ltac:(lia)).
    destruct (Z.ltb_spec (Z.rem (turn - 1) (Z.of_nat (List.length roles))) 0); lia. }
  destruct (nth_error roles (Z.to_nat idx)) as [r|] eqn:En.
  - apply in_map. by eapply nth_error_In.
  - apply nth_error_None in En. lia.
Qed.

Lemma roundRobin_turn roles i id k :
  nth_error (map ro_ID roles) i = Some id ->
  roundRobin roles (Z.of_nat (i + k * List.length roles) + 1) = id.
Proof.
  intros Hi. unfold roundRobin. pose proof (nth_error_ids _ _ _ Hi) as He.
  assert (i < List.length roles)%nat as Hlt.
  { apply nth_error_Some. intros E. rewrite nth_error_map, E in Hi. done. }
  destruct roles as [|x l] eqn:E; [simpl in Hlt; lia|]. rewrite <-E in *.
  replace (Z.of_nat (i + k * List.length roles) + 1 - 1)%Z with
    (Z.of_nat i + Z.of_nat k * Z.of_nat (List.length roles))%Z by lia.
  rewrite Z.rem_mod_nonneg by nia. rewrite Z.mod_add by lia. rewrite Z.mod_small by lia.
  destruct (Z.ltb_spec (Z.of_nat i) 0); [lia|]. by rewrite Nat2Z.id.
Qed.

Definition honours_handoff (rule : string) : bool := validRouting rule && negb (String.eqb rule "strict_round_robin").

Lemma honoured_handoff_Some roles prev id :
  honoured_handoff roles prev = Some id -> In id (map ro_ID roles).
Proof.
  unfold honoured_handoff. destruct prev as [r|]; [|done]. case_match; [|done]. intros [= <-].
  reflect_bools. by apply isValidRole_In.
Qed.

Lemma route_spec p prev turn :
  ps_Roles p <> [] ->
  match route p prev turn with
  | inr id => In id (role_ids p) /\ validRouting (ps_Routing p) = true /\
      (honours_handoff (ps_Routing p) = true ->
       forall target, honoured_handoff (ps_Roles p) prev = Some target -> id = target)
  | inl e => e = ErrRouting (ps_Routing p) /\ validRouting (ps_Routing p) = false
  end.
Proof.
  intros Hne. pose proof (fun t => roundRobin_In (ps_Roles p) t Hne) as HR.
  pose proof (honoured_handoff_Some (ps_Roles p) prev) as HH. fold (role_ids p) in *.
  unfold route, honours_handoff, validRouting.
  destruct (String.eqb_spec (ps_Routing p) "round_robin") as [->|];
  [|destruct (String.eqb_spec (ps_Routing p) "handoff_then_round_robin") as [->|];
  [|destruct (String.eqb_spec (ps_Routing p) "strict_round_robin") as [->|];
  [|destruct (String.eqb_spec (ps_Routing p) "last_writer_wins") as [->|]]]]; cbn [orb andb negb String.eqb];
  try done; destruct (honoured_handoff (ps_Roles p) prev) as [t|]; try destruct prev; naive_solver.
Qed.

(** With a live context and at least one role the router always names a role of the
    preset: the reviewer when the last turn was blocked, the target of an explicit valid
    handoff under every rule but the strict one, else a slot of the round robin.  It
    fails in exactly two cases: a blocked turn in a preset without a reviewer, and an
    unknown routing rule. *)
Theorem Next_spec p prev turn :
  ps_Roles p <> [] ->
  match Next true p prev turn with
  | inr id => In id (role_ids p) /\
      (blocked prev = true -> id = "reviewer") /\
      (blocked prev = false -> validRouting (ps_Routing p) = true /\
        (honours_handoff (ps_Routing p) = true ->
         forall target, honoured_handoff (ps_Roles p) prev = Some target -> id = target))
  | inl e =>
      (e = ErrBlockedNoReviewer /\ blocked prev = true /\ ~ In "reviewer" (role_ids p)) \/
      (e = ErrRouting (ps_Routing p) /\ blocked prev = false /\ validRouting (ps_Routing p) = false)
  end.
Proof.
  intros Hne. pose proof (route_spec p prev turn Hne) as HR. unfold Next. cbn [negb].
  destruct prev as [r|]; cbn [blocked].
  - destruct (String.eqb (r_SelfEval r) SelfEvalBlocked).
    + destruct (findReviewer_spec (ps_Roles p)) as [[-> Hin]|[-> Hin]]; cbn; naive_solver.
    + destruct (route p (Some r) turn); naive_solver.
  - destruct (route p None turn); naive_solver.
Qed.

Definition pair_preset (rule : string) : Preset :=
  mkPreset "pair" "" [mkRole "a" "claude" ""; mkRole "b" "kimi" ""] rule (mkBudget 1000 10 0 0) None
    (mkScratchConfig 64 "").

Lemma Next_spec_witness :
  In "a" (role_ids (pair_preset "strict_round_robin")) /\
  Next true (pair_preset "strict_round_robin") None 3 = inr "a".
Proof.
  split; [|reflexivity].
  apply (Next_spec (pair_preset "strict_round_robin") None 3). discriminate.
Defined.

(** Round robin without handoffs is fair: role [i] of [n] acts on turns
    [i + 1], [i + 1 + n], [i + 1 + 2n], ...; under the strict rule whatever handoffs the
    turns ask for. *)
Theorem round_robin_slots p prev i id k :
  nth_error (role_ids p) i = Some id -> blocked prev = false ->
  ps_Routing p = "strict_round_robin" \/
    (ps_Routing p = "round_robin" /\ honoured_handoff (ps_Roles p) prev = None) ->
  Next true p prev (Z.of_nat (i + k * List.length (ps_Roles p)) + 1) = inr id.
Proof.
  intros Hi Hb Hr. pose proof (roundRobin_turn _ _ _ k Hi) as HR.
  assert (Next true p prev (Z.of_nat (i + k * List.length (ps_Roles p)) + 1) =
          route p prev (Z.of_nat (i + k * List.length (ps_Roles p)) + 1)) as ->.
  { unfold Next. cbn [negb]. destruct prev as [r|]; [|done]. cbn in Hb. by rewrite Hb. }
  unfold route. destruct Hr as [->|[-> ->]]; cbn [orb String.eqb Ascii.eqb Bool.eqb andb]; by rewrite HR.
Qed.

Lemma round_robin_slots_witness : Next true (pair_preset "round_robin") None 4 = inr "b".
Proof. apply (round_robin_slots (pair_preset "round_robin") None 1 "b" 1); [reflexivity..|by right]. Defined.

(** Under [last_writer_wins] the writer does not keep the baton.  Without any handoff,
    turn [t + 2] goes to the role in slot [t] of the round robin, so from the second turn on
    the baton moves one role further every turn, as under the round robin rule one turn
    later. *)
Theorem last_writer_moves_on p r i id k :
  nth_error (role_ids p) i = Some id -> ps_Routing p = "last_writer_wins" ->
  blocked (Some r) = false -> honoured_handoff (ps_Roles p) (Some r) = None ->
  Next true p (Some r) (Z.of_nat (i + k * List.length (ps_Roles p)) + 2) = inr id.
Proof.
  intros Hi Hr Hb Hh. unfold Next. cbn [negb]. cbn [blocked] in Hb. rewrite Hb. unfold route. rewrite Hr, Hh.
  cbn [orb String.eqb Ascii.eqb Bool.eqb andb].
  replace (Z.of_nat (i + k * List.length (ps_Roles p)) + 2 - 1)%Z
    with (Z.of_nat (i + k * List.length (ps_Roles p)) + 1)%Z by lia.
  by rewrite (roundRobin_turn _ _ _ k Hi).
Qed.

Definition quiet_response : TurnResponse := mkTurnResponse false "" "" "done a bit" [] "confident" "" None [].

Lemma last_writer_moves_on_witness :
  Next true (pair_preset "last_writer_wins") (Some quiet_response) 2 = inr "a" /\
  Next true (pair_preset "last_writer_wins") (Some quiet_response) 3 = inr "b".
Proof.
  split;
  [apply (last_writer_moves_on (pair_preset "last_writer_wins") quiet_response 0 "a" 0)
  |apply (last_writer_moves_on (pair_preset "last_writer_wins") quiet_response 1 "b" 0)]; reflexivity.
Defined.

(** ** The scratchpad *)

(** A [Manager]; the files are a map from paths to contents. *)
(* src: internal/scratch/scratch.go 10-14 Manager *)
Record Manager := mkManager { m_path : string; m_maxKB : Z }.

(* src: internal/scratch/scratch.go 16-19 NewManager *)
Definition NewManager (path : string) (maxKB : Z) : Manager := mkManager path maxKB.

(** What the operating system does during one [Append]; a failed write may have written
    some bytes, and the failed rewrite has truncated the file first. *)
Inductive ScratchFault : Set :=
  | ScratchOk | ScratchOpen | ScratchWrite (written : nat) | ScratchStat | ScratchRead | ScratchRewrite (written : nat).

(* src: internal/scratch/scratch.go 73 Manager.compactIfNeeded *)
Definition compaction_summary : string :=
  "<!-- Scratchpad auto-compacted; older content truncated -->" +:+ newline +:+ newline.

(** The bytes up to the first newline, if there is one. *)
(* src: internal/scratch/scratch.go 88-90 Manager.compactIfNeeded *)
Fixpoint to_newline (s : string) : option nat :=
  match s with
  | "" => None
  | String c r => if Ascii.eqb c (byte_of 10) then Some 0%nat else option_map S (to_newline r)
  end.

(** Where the kept part of the file starts; [limit] is the byte limit. *)
(* src: internal/scratch/scratch.go 75-100 Manager.compactIfNeeded *)
Definition compact_cut (limit : Z) (data : string) : nat :=
  let n := String.length data in
  let minHalf := (Z.of_nat n + Z.of_nat (String.length compaction_summary) - limit)%Z in
  let minHalf := if (minHalf <? 0)%Z then 0%Z else minHalf in
  let half := (n / 2)%nat in
  let half := if (Z.of_nat half <? minHalf)%Z then Z.to_nat minHalf else half in
  let half :=
    match to_newline (slice_from data half) with
    | None => half
    | Some k => (half + k + 1)%nat
    end in
  if (n <? half)%nat then n else half.

(* src: internal/scratch/scratch.go 102-105 Manager.compactIfNeeded *)
Definition compacted (limit : Z) (data : string) : string :=
  compaction_summary +:+ slice_from data (compact_cut limit data).

(** [int64] arithmetic: the limit wraps round for absurd sizes. *)
(* src: internal/scratch/scratch.go 56-72 Manager.compactIfNeeded *)
Definition needs_compaction (maxKB : Z) (size : nat) : bool :=
  if (maxKB <=? 0)%Z then false
  else
    let limit := wrap64 (maxKB * 1024) in
    let threshold := Z.quot (wrap64 (limit * 8)) 10 in
    (threshold <? Z.of_nat size)%Z.

(** The file after [compactIfNeeded], and whether it returned an error. *)
(* src: internal/scratch/scratch.go 55-107 Manager.compactIfNeeded *)
Definition compactIfNeeded (fault : ScratchFault) (m : Manager) (data : string) : string * bool :=
  if (m_maxKB m <=? 0)%Z then (data, false)
  else
    match fault with
    | ScratchStat => (data, true)
    | _ =>
        if needs_compaction (m_maxKB m) (String.length data) then
          let newData := compacted (wrap64 (m_maxKB m * 1024)) data in
          match fault with
          | ScratchRead => (data, true)
          | ScratchRewrite k => (slice newData 0 k, true)
          | _ => (newData, false)
          end
        else (data, false)
    end.

(* src: internal/scratch/scratch.go 26-38 Manager.Append *)
Definition scratch_Append (fault : ScratchFault) (files : gmap string string) (m : Manager) (content : string)
    : gmap string string * bool :=
  let old := default "" (files !! m_path m) in
  match fault with
  | ScratchOpen => (files, true)
  | ScratchWrite k => (<[m_path m := old +:+ slice content 0 k]> files, true)
  | _ =>
      let '(data, failed) := compactIfNeeded fault m (old +:+ content) in
      (<[m_path m := data]> files, failed)
  end.

(** [None] is a read error other than a missing file. *)
(* src: internal/scratch/scratch.go 40-50 Manager.Read *)
Definition scratch_Read (readable : bool) (files : gmap string string) (m : Manager) : option string :=
  match files !! m_path m with
  | None => Some ""
  | Some data => if readable then Some data else None
  end.

Lemma to_newline_spec s :
  match to_newline s with
  | None => no_byte (byte_of 10) s = true
  | Some k => exists a b, s = a +:+ newline +:+ b /\ String.length a = k /\ no_byte (byte_of 10) a = true
  end.
Proof.
  induction s as [|c s IH]; [done|]. cbn [to_newline]. destruct (Ascii.eqb_spec c (byte_of 10)) as [->|Hc].
  - exists "", s. split_and!; done.
  - assert (Hn : Ascii.eqb (byte_of 10) c = false) by (apply Ascii.eqb_neq; congruence).
    destruct (to_newline s) as [k|]; cbn [option_map].
    + destruct IH as (a & b & -> & Hk & Ha). exists (String c a), b. split_and!; [done|cbn; by rewrite Hk|].
      unfold no_byte in *. cbn [string_forall]. by rewrite Hn.
    + unfold no_byte in *. cbn [string_forall]. by rewrite Hn.
Qed.

Lemma string_cut s n : (n <= String.length s)%nat ->
  exists a b, s = a +:+ b /\ String.length a = n.
Proof.
  revert n. induction s as [|c s IH]; intros [|n] Hn; simpl in Hn; [by exists "", ""|lia|by exists "", (String c s)|].
  destruct (IH n) as (a & b & -> & Ha); [lia|]. exists (String c a), b. cbn. by rewrite Ha.
Qed.

Lemma slice_from_split s n : (n <= String.length s)%nat ->
  exists a, s = a +:+ slice_from s n /\ String.length a = n.
Proof.
  intros (a & b & -> & Ha)%string_cut. exists a. by rewrite <-Ha, slice_from_app.
Qed.

(** Where the cut falls: in the file, after enough bytes for the limit and at least half
    of them, and just behind a newline when there is one at or after that point. *)
Lemma compact_cut_spec limit data :
  let n := String.length data in
  (Z.of_nat (String.length compaction_summary) <= limit)%Z ->
  exists start cut, compact_cut limit data = cut /\ (start <= cut <= n)%nat /\ (n / 2 <= start)%nat /\
    (Z.of_nat n + Z.of_nat (String.length compaction_summary) - limit <= Z.of_nat start)%Z /\
    ((cut = start /\ no_byte (byte_of 10) (slice_from data start) = true) \/
     exists a b, slice_from data start = a +:+ newline +:+ b /\ no_byte (byte_of 10) a = true /\
                 slice_from data cut = b).
Proof.
  intros n Hl. unfold compact_cut. fold n.
  set (summ := String.length compaction_summary) in *.
  set (mh := (Z.of_nat n + Z.of_nat summ - limit)%Z).
  set (minHalf := if (mh <? 0)%Z then 0%Z else mh).
  assert (Hmh : (0 <= minHalf <= Z.of_nat n /\ mh <= minHalf)%Z).
  { subst minHalf mh. destruct (Z.ltb_spec (Z.of_nat n + Z.of_nat summ - limit) 0); lia. }
  clearbody minHalf. pose proof (Nat.Div0.div_le_upper_bound n 2 n ltac:(lia)) as Hd.
  set (start := if (Z.of_nat (n / 2) <? minHalf)%Z then Z.to_nat minHalf else (n / 2)%nat).
  assert (Hs : (n / 2 <= start <= n)%nat /\ (mh <= Z.of_nat start)%Z).
  { subst start. destruct (Z.ltb_spec (Z.of_nat (n / 2)) minHalf); lia. }
  clearbody start. destruct Hs as [Hs1 Hs2]. exists start.
  destruct (slice_from_split data start ltac:(unfold n in *; lia)) as (pre & Hpre & Hlen).
  pose proof (to_newline_spec (slice_from data start)) as Hnl.
  destruct (to_newline (slice_from data start)) as [k|].
  - destruct Hnl as (a & b & Hab & Ha & Hno).
    assert (Hdata : data = (pre +:+ a +:+ newline) +:+ b).
    { by rewrite Hpre, Hab, !string_app_assoc. }
    assert (Hcut : String.length (pre +:+ a +:+ newline) = (start + k + 1)%nat).
    { rewrite !string_length_app. cbn [String.length newline]. lia. }
    assert (start + k + 1 <= n)%nat as Hle.
    { unfold n. rewrite Hdata, string_length_app, Hcut. lia. }
    destruct (Nat.ltb_spec n (start + k + 1)); [lia|].
    exists (start + k + 1)%nat. split_and!; try lia. right. exists a, b. split_and!; [done..|].
    rewrite Hdata. rewrite <-Hcut. apply slice_from_app.
  - destruct (Nat.ltb_spec n start); [lia|]. exists start. split_and!; try lia. by left.
Qed.

Lemma compacted_length limit data :
  (compact_cut limit data <= String.length data)%nat ->
  (String.length (compacted limit data) + compact_cut limit data =
   String.length compaction_summary + String.length data)%nat.
Proof.
  intros Hle. unfold compacted. rewrite string_length_app.
  destruct (slice_from_split data _ Hle) as (a & Ha & Hl).
  apply (f_equal String.length) in Ha. rewrite string_length_app in Ha. lia.
Qed.

Lemma needs_compaction_spec maxKB size :
  (maxKB < 2 ^ 50)%Z ->
  needs_compaction maxKB size = true <-> (0 < maxKB /\ maxKB * 8192 / 10 < Z.of_nat size)%Z.
Proof.
  intros Hk. unfold needs_compaction. destruct (Z.leb_spec maxKB 0); [split; [done|lia]|].
  rewrite (wrap64_id (maxKB * 1024)) by (unfold min_int64, max_int64; lia).
  rewrite wrap64_id by (unfold min_int64, max_int64; lia).
  rewrite Z.quot_div_nonneg by lia. rewrite Z.ltb_lt.
  replace (maxKB * 1024 * 8)%Z with (maxKB * 8192)%Z by lia. naive_solver lia.
Qed.

(** What one compaction keeps and drops. *)
Lemma compacted_spec limit full :
  (1024 <= limit)%Z -> (818 < String.length full)%nat ->
  (Z.of_nat (String.length (compacted limit full)) <= limit)%Z /\
  exists dropped kept, full = dropped +:+ kept /\ compacted limit full = compaction_summary +:+ kept /\
    (String.length full / 2 <= String.length dropped)%nat /\
    (String.length (compacted limit full) < String.length full)%nat /\
    (no_byte (byte_of 10) kept = true \/ HasSuffix dropped newline = true).
Proof.
  assert (Hsum : String.length compaction_summary = 61%nat) by reflexivity. intros Hlim Hlen.
  destruct (compact_cut_spec limit full) as (start & cut & Hcut & Hc1 & Hc2 & Hc3 & Hc4); [lia|].
  pose proof (compacted_length limit full) as HL. rewrite Hcut in HL. specialize (HL ltac:(lia)).
  pose proof (Nat.div_mod_eq (String.length full) 2) as Hdiv.
  pose proof (Nat.mod_upper_bound (String.length full) 2 ltac:(lia)).
  split; [lia|]. destruct (slice_from_split full cut ltac:(lia)) as (dropped & Hd & Hdl).
  exists dropped, (slice_from full cut). split_and!; [done|by unfold compacted; rewrite Hcut|lia|lia|].
  destruct Hc4 as [[-> Hno]|(a & b & Hab & Ha & Hb)]; [by left|right].
  destruct (slice_from_split full start ltac:(lia)) as (pre & Hp & _).
  apply HasSuffix_spec. exists (pre +:+ a). apply (string_app_inj_r _ _ b).
  rewrite Hb in Hd. rewrite <-Hd, Hp at 1. by rewrite Hab, !string_app_assoc.
Qed.

(** An append that meets no fault keeps the scratchpad within its limit of [max_kb]
    kilobytes, whatever was in it: the file is either the old content followed by the
    new one, or the truncation notice followed by a tail of that.  A truncation drops at
    least half of the text, shrinks the file, and cuts just behind a newline unless no
    newline follows the cut.  (Above 2^50 kilobytes the limit would wrap round.) *)
Theorem scratch_Append_bounded files m content :
  (0 < m_maxKB m < 2 ^ 50)%Z ->
  exists data, scratch_Append ScratchOk files m content = (<[m_path m := data]> files, false) /\
    let full := default "" (files !! m_path m) +:+ content in
    (Z.of_nat (String.length data) <= m_maxKB m * 1024)%Z /\
    (data = full \/
     exists dropped kept, full = dropped +:+ kept /\ data = compaction_summary +:+ kept /\
       (String.length full / 2 <= String.length dropped)%nat /\
       (String.length data < String.length full)%nat /\
       (no_byte (byte_of 10) kept = true \/ HasSuffix dropped newline = true)).
Proof.
  intros Hk. set (full := default "" (files !! m_path m) +:+ content).
  unfold scratch_Append. fold full. unfold compactIfNeeded.
  destruct (Z.leb_spec (m_maxKB m) 0); [lia|].
  pose proof (needs_compaction_spec (m_maxKB m) (String.length full) ltac:(lia)) as HN.
  destruct (needs_compaction (m_maxKB m) (String.length full)); eexists; (split; [done|]).
  - destruct HN as [HN _]. specialize (HN eq_refl) as [_ HN].
    rewrite (wrap64_id (m_maxKB m * 1024)) by (unfold min_int64, max_int64; lia).
    assert (819 <= m_maxKB m * 8192 / 10)%Z by (apply Z.div_le_lower_bound; lia).
    destruct (compacted_spec (m_maxKB m * 1024) full) as [? ?]; [lia..|]. split; [done|by right].
  - split; [|by left].
    assert (~ (m_maxKB m * 8192 / 10 < Z.of_nat (String.length full))%Z) by (intros ?; naive_solver lia).
    pose proof (Z.div_le_upper_bound (m_maxKB m * 8192) 10 (m_maxKB m * 1024) ltac:(lia) ltac:(lia)). lia.
Qed.

(** A line of 98 bytes and a newline. *)
Definition long_line : string := Join (repeat "a line of text for the pad" 4) "-" +:+ newline.

Lemma scratch_Append_bounded_witness :
  exists data, scratch_Append ScratchOk {[ "s" := Join (repeat long_line 9) "" ]} (mkManager "s" 1) "x"
    = ({[ "s" := data ]}, false) /\ (Z.of_nat (String.length data) <= 1024)%Z.
Proof.
  destruct (scratch_Append_bounded {[ "s" := Join (repeat long_line 9) "" ]} (mkManager "s" 1) "x")
    as (data & H & Hb & _); [split; reflexivity|].
  exists data. split; [|exact Hb]. rewrite H. reflexivity.
Defined.
