(* ===== verification/SessionStuck.v ===== *)
(** * Session records: dry rounds and oscillation

    [internal/session/stuck.go]: the predicates over the turn records of a session that
    say whether it still makes progress.  [Quote] is on printable text (see [GoStrings.v]). *)

From S2P Require Import Prelude GoStrings Json Codec Contract Ledger Stuck Turns.
From Stdlib Require Import Ascii String.
#[local] Open Scope string_scope.

(** One entry of the log.  Its [time.Time] is kept in the text form it is marshalled to:
    no code reads it. *)
(* src: internal/session/session.go 36-42 TurnRecord *)
Record TurnRecord := mkTurnRecord { tr_Turn : Z; tr_Time : string; tr_Req : TurnRequest; tr_Resp : TurnResponse }.
#[export] Instance eta_TurnRecord : Eta TurnRecord :=
  fun r => mkTurnRecord (tr_Turn r) (tr_Time r) (tr_Req r) (tr_Resp r).

(** The artifacts not seen before, and the set afterwards: the map is shared by the calls. *)
(* src: internal/session/stuck.go 77-86 collectNewArtifacts *)
Fixpoint collectNewArtifacts (seen : gset string) (artifacts : list string) : gset string * list string :=
  match artifacts with
  | [] => (seen, [])
  | a :: rest =>
      if bool_decide (a ∈ seen) then collectNewArtifacts seen rest
      else let '(seen, new) := collectNewArtifacts ({[a]} ∪ seen) rest in (seen, a :: new)
  end.

(* src: internal/session/stuck.go 73-75 isDry *)
Definition isDry (rec : TurnRecord) (newArtifacts : list string) : bool :=
  Nat.eqb (List.length newArtifacts) 0 && negb (r_Done (tr_Resp rec)) && String.eqb (r_HandoffTo (tr_Resp rec)) "".

(** The loop shared by [DryRounds] and [detectNoProgress]: the length of the dry run the
    records end with. *)
(* src: internal/session/stuck.go 17-26 DryRounds *)
Fixpoint dry_run (seen : gset string) (consecutive : nat) (records : list TurnRecord) : nat :=
  match records with
  | [] => consecutive
  | rec :: rest =>
      let '(seen, new) := collectNewArtifacts seen (r_Artifacts (tr_Resp rec)) in
      dry_run seen (if isDry rec new then S consecutive else 0%nat) rest
  end.

(* src: internal/session/stuck.go 8-28 DryRounds *)
Definition DryRounds (records : list TurnRecord) (threshold : Z) : bool :=
  if (threshold <=? 0)%Z then false else (threshold <=? Z.of_nat (dry_run ∅ 0 records))%Z.

(* src: internal/session/stuck.go 52-71 detectNoProgress *)
Definition detectNoProgress (records : list TurnRecord) : option string :=
  let noProgressWindow := 6%nat in
  if (List.length records <? noProgressWindow)%nat then None
  else if (noProgressWindow <=? dry_run ∅ 0 records)%nat then Some "no progress" else None.

(** All turns of a window are dry, counting artifacts from the start of the window. *)
(* src: internal/session/stuck.go 105-113 detectPingPong *)
Fixpoint all_dry (seen : gset string) (window : list TurnRecord) : bool :=
  match window with
  | [] => true
  | rec :: rest =>
      let '(seen, new) := collectNewArtifacts seen (r_Artifacts (tr_Resp rec)) in
      if isDry rec new then all_dry seen rest else false
  end.

(* src: internal/session/stuck.go 100-104 detectPingPong *)
Definition alternating (roles : list string) : bool :=
  match roles with
  | [r0; r1; r2; r3; r4; r5] =>
      String.eqb r0 r2 && String.eqb r2 r4 && String.eqb r1 r3 && String.eqb r3 r5 && negb (String.eqb r0 r1)
  | _ => false
  end.

Definition role_of (rec : TurnRecord) : string := tq_Role (tr_Req rec).

(** The scan: one window of six per start. *)
(* src: internal/session/stuck.go 93-119 detectPingPong *)
Fixpoint pingpong_windows (records : list TurnRecord) : option string :=
  match records with
  | [] => None
  | r0 :: rest =>
      let window := take 6 records in
      if alternating (map role_of window) && all_dry ∅ window then
        match rest with
        | r1 :: _ => Some ("ping-pong " +:+ role_of r0 +:+ "/" +:+ role_of r1)
        | [] => None
        end
      else pingpong_windows rest
  end.

(* src: internal/session/stuck.go 88-120 detectPingPong *)
Definition detectPingPong (records : list TurnRecord) : option string :=
  if (List.length records <? 6)%nat then None else pingpong_windows records.

(* src: internal/session/stuck.go 134-139 fingerprint *)
Definition fingerprint (rec : TurnRecord) : string :=
  let arts := sort_strings (r_Artifacts (tr_Resp rec)) in
  r_Summary (tr_Resp rec) +:+ "|" +:+ "[" +:+ Join (map Quote arts) " " +:+ "]".

(* src: internal/session/stuck.go 122-132 detectRepeatedFingerprint *)
Fixpoint repeated_from (counts : gmap string nat) (records : list TurnRecord) : option string :=
  match records with
  | [] => None
  | rec :: rest =>
      let counts := incr (fingerprint rec) counts in
      if (4 <=? default 0%nat (counts !! fingerprint rec))%nat then Some "repeated fingerprint"
      else repeated_from counts rest
  end.

(* src: internal/session/stuck.go 122-132 detectRepeatedFingerprint *)
Definition detectRepeatedFingerprint (records : list TurnRecord) : option string := repeated_from ∅ records.

(* src: internal/session/stuck.go 30-50 Stuck *)
Definition Stuck (records : list TurnRecord) : option string :=
  match records with
  | [] => None
  | _ =>
      match detectPingPong records with
      | Some reason => Some reason
      | None =>
          match detectNoProgress records with
          | Some reason => Some reason
          | None => detectRepeatedFingerprint records
          end
      end
  end.

(** ** Dry turns *)

Definition artifacts (records : list TurnRecord) : list string :=
  List.concat (map (fun r => r_Artifacts (tr_Resp r)) records).

(** A dry turn after [before]: nothing new, not done, no handoff. *)
Definition dry_after (before : list TurnRecord) (rec : TurnRecord) : Prop :=
  (forall a, In a (r_Artifacts (tr_Resp rec)) -> In a (artifacts before)) /\
  r_Done (tr_Resp rec) = false /\ r_HandoffTo (tr_Resp rec) = "".

Lemma collect_seen seen arts : fst (collectNewArtifacts seen arts) = seen ∪ list_to_set arts.
Proof.
  revert seen. induction arts as [|a arts IH]; intros seen; cbn [collectNewArtifacts]; [set_solver|].
  case_bool_decide as Ha; [rewrite IH; set_solver|].
  specialize (IH ({[a]} ∪ seen)). destruct (collectNewArtifacts _ arts) as [s n]. cbn in *. subst. set_solver.
Qed.

Lemma collect_new seen arts : snd (collectNewArtifacts seen arts) = [] <-> forall a, In a arts -> a ∈ seen.
Proof.
  revert seen. induction arts as [|a arts IH]; intros seen; cbn [collectNewArtifacts In]; [naive_solver|].
  case_bool_decide as Ha; [rewrite IH; naive_solver|].
  destruct (collectNewArtifacts _ arts) as [s n]. cbn. split; [done|naive_solver].
Qed.

Lemma isDry_spec seen rec :
  isDry rec (snd (collectNewArtifacts seen (r_Artifacts (tr_Resp rec)))) = true <->
  (forall a, In a (r_Artifacts (tr_Resp rec)) -> a ∈ seen) /\
  r_Done (tr_Resp rec) = false /\ r_HandoffTo (tr_Resp rec) = "".
Proof.
  rewrite <-collect_new. unfold isDry. rewrite !andb_true_iff, negb_true_iff, String.eqb_eq, Nat.eqb_eq, length_zero_iff_nil.
  naive_solver.
Qed.

Definition seen_of (records : list TurnRecord) : gset string := list_to_set (artifacts records).

Lemma artifacts_snoc l r : artifacts (l ++ [r])%list = (artifacts l ++ r_Artifacts (tr_Resp r))%list.
Proof. unfold artifacts. rewrite map_app, concat_app. cbn. by rewrite app_nil_r. Qed.

Lemma dry_step before rec :
  isDry rec (snd (collectNewArtifacts (seen_of before) (r_Artifacts (tr_Resp rec)))) = true <-> dry_after before rec.
Proof.
  rewrite isDry_spec. unfold dry_after, seen_of. setoid_rewrite elem_of_list_to_set.
  by setoid_rewrite list_elem_of_In.
Qed.

Lemma seen_step before rec :
  fst (collectNewArtifacts (seen_of before) (r_Artifacts (tr_Resp rec))) = seen_of (before ++ [rec])%list.
Proof. rewrite collect_seen. unfold seen_of. rewrite artifacts_snoc. set_solver. Qed.

(** The records end with [n] dry turns. *)
Definition ends_dry (n : nat) (records : list TurnRecord) : Prop :=
  (n <= List.length records)%nat /\
  forall i rec, (List.length records - n <= i)%nat -> records !! i = Some rec -> dry_after (take i records) rec.

Lemma dry_run_spec n before rest k :
  (forall j, (j <= k)%nat <-> ends_dry j before) ->
  (n <= dry_run (seen_of before) k rest)%nat <-> ends_dry n (before ++ rest)%list.
Proof.
  revert before k. induction rest as [|rec rest IH]; intros before k Hk; cbn [dry_run].
  { by rewrite app_nil_r. }
  pose proof (dry_step before rec) as Hd. pose proof (seen_step before rec) as Hs.
  destruct (collectNewArtifacts _ _) as [s new]. cbn [fst snd] in *. subst s.
  replace (before ++ rec :: rest)%list with ((before ++ [rec]) ++ rest)%list by by rewrite <-app_assoc.
  apply IH. intros j. clear IH n rest.
  assert (Hbody : forall i (r : TurnRecord), (i < List.length before)%nat -> (before ++ [rec])%list !! i = Some r ->
                  before !! i = Some r /\ take i (before ++ [rec])%list = take i before).
  { intros i r Hi Hr. rewrite lookup_app_l in Hr by done. split; [done|]. by rewrite take_app_le by lia. }
  assert (Hlast : (before ++ [rec])%list !! List.length before = Some rec /\
                  take (List.length before) (before ++ [rec])%list = before).
  { split; [|by rewrite take_app_length]. rewrite lookup_app_r, Nat.sub_diag by lia. done. }
  destruct Hlast as [Hl1 Hl2]. unfold ends_dry in *. rewrite length_app. cbn [List.length].
  destruct (isDry rec new).
  - destruct j as [|j]; [split; [split; [lia|]|lia]|].
    { intros i r Hi Hr. apply lookup_lt_Some in Hr. rewrite length_app in Hr. cbn in Hr. lia. }
    rewrite <-Nat.succ_le_mono, Hk. split.
    + intros [Hj HF]. split; [lia|]. intros i r Hi Hr.
      destruct (decide (i = List.length before)) as [->|]; [rewrite Hl2; simplify_eq; by apply Hd|].
      assert (i < List.length before)%nat by (apply lookup_lt_Some in Hr; rewrite length_app in Hr; cbn in Hr; lia).
      destruct (Hbody i r) as [Hr' ->]; [done..|]. apply HF; [lia|done].
    + intros [Hj HF]. split; [lia|]. intros i r Hi Hr. pose proof (lookup_lt_Some _ _ _ Hr).
      assert ((before ++ [rec])%list !! i = Some r) as Hr' by by rewrite lookup_app_l.
      specialize (HF i r ltac:(lia) Hr'). by destruct (Hbody i r) as [_ <-].
  - split.
    + intros ?. assert (j = 0)%nat as -> by lia. split; [lia|]. intros i r Hi Hr.
      apply lookup_lt_Some in Hr. rewrite length_app in Hr. cbn in Hr. lia.
    + intros [Hj HF]. destruct j as [|j]; [done|]. exfalso.
      specialize (HF (List.length before) rec ltac:(lia) Hl1). rewrite Hl2 in HF. apply Hd in HF. done.
Qed.

Lemma dry_run_all n records : (n <= dry_run ∅ 0 records)%nat <-> ends_dry n records.
Proof.
  apply (dry_run_spec n [] records 0). intros j. unfold ends_dry. cbn [List.length].
  split; [intros ?; split; [lia|by intros ? ? ? ?]|lia].
Qed.

(** [DryRounds] holds exactly when the threshold is positive and the last so many
    turns were all dry: no artifact that no earlier turn of the session had named, not
    done, and no handoff. *)
Theorem DryRounds_spec records threshold :
  DryRounds records threshold = true <-> (0 < threshold)%Z /\ ends_dry (Z.to_nat threshold) records.
Proof.
  unfold DryRounds. rewrite <-dry_run_all. destruct (Z.leb_spec threshold 0); [naive_solver lia|].
  rewrite Z.leb_le. naive_solver lia.
Qed.

(** ** Fingerprints *)

(** A scanner of the list part of a fingerprint: outside the quotes only brackets and
    blanks, a bar only inside. *)
Inductive Scan : Set := Outside | Inside | Escaped.

Definition scan_byte (st : Scan) (c : ascii) : option Scan :=
  match st with
  | Outside =>
      if Ascii.eqb c dquote then Some Inside
      else if Ascii.eqb c "[" || Ascii.eqb c "]" || Ascii.eqb c " " then Some Outside else None
  | Inside => Some (if Ascii.eqb c dquote then Outside else if Ascii.eqb c backslash then Escaped else Inside)
  | Escaped => if Ascii.eqb c "|" then None else Some Inside
  end.

Fixpoint scan (st : Scan) (s : string) : option Scan :=
  match s with
  | "" => Some st
  | String c r => match scan_byte st c with Some st => scan st r | None => None end
  end.

Lemma scan_app st a b : scan st (a +:+ b) = match scan st a with Some st => scan st b | None => None end.
Proof.
  revert st. induction a as [|c a IH]; intros st; [done|]. cbn [String.append scan].
  by destruct (scan_byte st c).
Qed.

Lemma scan_quote_byte c : scan Inside (go_quote_byte c) = Some Inside.
Proof. destruct c as [[] [] [] [] [] [] [] []]; reflexivity. Qed.

(** Quoted text read from outside never leaves the outside: its quotes are escaped. *)
Lemma scan_quote_byte_out c : scan Outside (go_quote_byte c) = Some Outside \/ scan Outside (go_quote_byte c) = None.
Proof. destruct c as [[] [] [] [] [] [] [] []]; auto. Qed.

Lemma scan_go_quote_body s : scan Inside (go_quote_body s) = Some Inside.
Proof. induction s as [|c s IH]; [done|]. cbn [go_quote_body]. by rewrite scan_app, scan_quote_byte. Qed.

Lemma scan_go_quote_body_out s : scan Outside (go_quote_body s) = Some Outside \/ scan Outside (go_quote_body s) = None.
Proof.
  induction s as [|c s IH]; [by left|]. cbn [go_quote_body]. rewrite scan_app.
  destruct (scan_quote_byte_out c) as [->| ->]; auto.
Qed.

Lemma scan_dquote_out r : scan Outside (String dquote r) = scan Inside r.
Proof. reflexivity. Qed.
Lemma scan_dquote_in r : scan Inside (String dquote r) = scan Outside r.
Proof. reflexivity. Qed.
Lemma scan_bracket st r : st <> Escaped -> scan st (String "[" r) = scan st r.
Proof. by destruct st. Qed.
Lemma scan_blank st r : st <> Escaped -> scan st (" " +:+ r) = scan st r.
Proof. by destruct st. Qed.

Lemma scan_Quote s : scan Outside (Quote s) = Some Outside.
Proof. unfold Quote. by rewrite scan_dquote_out, scan_app, scan_go_quote_body. Qed.

Lemma scan_Quote_in s : scan Inside (Quote s) = Some Inside \/ scan Inside (Quote s) = None.
Proof. unfold Quote. rewrite scan_dquote_in, scan_app. destruct (scan_go_quote_body_out s) as [->| ->]; auto. Qed.

Definition list_part (arts : list string) : string := "[" +:+ Join (map Quote arts) " " +:+ "]".

Lemma Join_Quote_cons a b l : Join (map Quote (a :: b :: l)) " " = Quote a +:+ " " +:+ Join (map Quote (b :: l)) " ".
Proof. done. Qed.

Lemma scan_list_part arts : scan Outside (list_part arts) = Some Outside.
Proof.
  assert (H : scan Outside (Join (map Quote arts) " ") = Some Outside).
  { induction arts as [|a [|b l] IH]; [done|apply (scan_Quote a)|].
    by rewrite Join_Quote_cons, scan_app, scan_Quote, scan_blank. }
  unfold list_part. change ("[" +:+ ?x) with (String "[" x). rewrite scan_bracket by done. by rewrite scan_app, H.
Qed.

Lemma scan_list_part_in arts : scan Inside (list_part arts) = Some Inside \/ scan Inside (list_part arts) = None.
Proof.
  assert (H : scan Inside (Join (map Quote arts) " ") = Some Inside \/ scan Inside (Join (map Quote arts) " ") = None).
  { induction arts as [|a [|b l] IH]; [by left|apply (scan_Quote_in a)|].
    rewrite Join_Quote_cons, scan_app. destruct (scan_Quote_in a) as [->| ->]; [|by right].
    by rewrite scan_blank. }
  unfold list_part. change ("[" +:+ ?x) with (String "[" x). rewrite scan_bracket by done.
  rewrite scan_app. destruct H as [->| ->]; auto.
Qed.

Lemma Join_Quote_inj l l' : Join (map Quote l) " " = Join (map Quote l') " " -> l = l'.
Proof.
  assert (Hne : forall a b : string, String.length (Quote a +:+ b) <> 0%nat) by done.
  revert l'. induction l as [|a l IH]; intros [|b l']; [done|destruct l'; done|destruct l; done|].
  intros H. destruct l as [|x l], l' as [|y l'].
  - cbn in H. rewrite <-(string_app_nil_r (Quote a)), <-(string_app_nil_r (Quote b)) in H.
    by apply Quote_app_inj in H as [-> _].
  - rewrite Join_Quote_cons in H. cbn [map Join String.concat] in H.
    rewrite <-(string_app_nil_r (Quote a)) in H. by apply Quote_app_inj in H as [_ H].
  - rewrite Join_Quote_cons in H. cbn [map Join String.concat] in H.
    rewrite <-(string_app_nil_r (Quote b)) in H. by apply Quote_app_inj in H as [_ H].
  - rewrite !Join_Quote_cons in H. apply Quote_app_inj in H as [-> H].
    cbn [String.append] in H. injection H as H. by rewrite (IH (y :: l') H).
Qed.

Lemma list_part_inj l l' : list_part l = list_part l' -> l = l'.
Proof.
  unfold list_part. cbn. intros [= H]. apply string_app_inj_r in H. by apply Join_Quote_inj.
Qed.

(** A summary cannot be continued by a part of the list that follows it. *)
Lemma bar_list_no_overlap m l l' : list_part l <> m +:+ "|" +:+ list_part l'.
Proof.
  intros E. pose proof (scan_list_part l) as H. rewrite E, !scan_app in H.
  destruct (scan Outside m) as [[]|]; try done. change (scan Inside (list_part l') = Some Outside) in H.
  destruct (scan_list_part_in l'); congruence.
Qed.

Lemma bar_list_inj s s' l l' :
  s +:+ "|" +:+ list_part l = s' +:+ "|" +:+ list_part l' -> s = s' /\ l = l'.
Proof.
  intros H. apply app_cases in H as [(m & -> & H)|(m & -> & H)].
  - destruct m as [|c m].
    + apply (string_app_inj_l "|") in H. rewrite string_app_nil_r. split; [done|by apply list_part_inj].
    + cbn [String.append] in H. apply String_tail_inj in H as [_ H]. by apply bar_list_no_overlap in H.
  - destruct m as [|c m].
    + apply (string_app_inj_l "|") in H. rewrite string_app_nil_r. split; [done|by symmetry; apply list_part_inj].
    + cbn [String.append] in H. apply String_tail_inj in H as [_ H]. by apply bar_list_no_overlap in H.
Qed.

(** Two turns have the same fingerprint exactly when they have the same summary and
    the same artifacts up to order: the quoting leaves no ambiguity, whatever bars,
    quotes or brackets the summary and the artifact names contain. *)
Theorem fingerprint_spec a b :
  fingerprint a = fingerprint b <->
  r_Summary (tr_Resp a) = r_Summary (tr_Resp b) /\ r_Artifacts (tr_Resp a) ≡ₚ r_Artifacts (tr_Resp b).
Proof.
  unfold fingerprint. fold (list_part (sort_strings (r_Artifacts (tr_Resp a)))).
  fold (list_part (sort_strings (r_Artifacts (tr_Resp b)))). rewrite <-sort_strings_perm. split.
  - apply bar_list_inj.
  - by intros [-> ->].
Qed.

(** ** The detector *)

(** A turn that names no artifact at all, is not done and hands off to nobody. *)
Definition idle (rec : TurnRecord) : Prop :=
  r_Artifacts (tr_Resp rec) = [] /\ r_Done (tr_Resp rec) = false /\ r_HandoffTo (tr_Resp rec) = "".

(** Six consecutive idle turns of two roles in alternation. *)
Definition bouncing (window : list TurnRecord) : Prop :=
  exists a b, a <> b /\ map role_of window = [a; b; a; b; a; b] /\ Forall idle window.

Lemma alternating_spec l : alternating l = true <-> exists a b, a <> b /\ l = [a; b; a; b; a; b].
Proof.
  split.
  - destruct l as [|r0 [|r1 [|r2 [|r3 [|r4 [|r5 [|? ?]]]]]]]; cbn; try done. intros. reflect_bools. subst. naive_solver.
  - intros (a & b & Hab & ->). cbn. rewrite !String.eqb_refl. by apply String.eqb_neq in Hab as ->.
Qed.

Lemma all_dry_spec w : all_dry ∅ w = true <-> Forall idle w.
Proof.
  induction w as [|rec w IH]; cbn [all_dry]; [done|].
  pose proof (isDry_spec ∅ rec) as Hd. pose proof (collect_seen ∅ (r_Artifacts (tr_Resp rec))) as Hs.
  destruct (collectNewArtifacts _ _) as [s new]. cbn [fst snd] in *. rewrite Forall_cons. unfold idle at 1.
  assert (Hnil : (forall a, In a (r_Artifacts (tr_Resp rec)) -> a ∈ (∅ : gset string)) <-> r_Artifacts (tr_Resp rec) = []).
  { split; [|by intros ->]. intros H. destruct (r_Artifacts (tr_Resp rec)) as [|a l]; [done|].
    specialize (H a (or_introl eq_refl)). set_solver. }
  rewrite Hnil in Hd. destruct (isDry rec new); [|naive_solver].
  destruct Hd as [Hd _]. destruct (Hd eq_refl) as (He & ? & ?). rewrite He in Hs.
  assert (s = ∅) as -> by set_solver. naive_solver.
Qed.

Lemma window_spec w : alternating (map role_of w) && all_dry ∅ w = true <-> bouncing w.
Proof. rewrite andb_true_iff, alternating_spec, all_dry_spec. unfold bouncing. naive_solver. Qed.

Lemma bouncing_length w : bouncing w -> List.length w = 6%nat.
Proof. intros (a & b & _ & H & _). apply (f_equal (@List.length _)) in H. by rewrite length_map in H. Qed.

Lemma pingpong_windows_spec records :
  is_Some (pingpong_windows records) <->
  exists before window after, records = (before ++ window ++ after)%list /\ bouncing window.
Proof.
  induction records as [|r0 rest IH].
  { split; [by intros [? ?]|]. intros (before & w & after & E & Hb). apply bouncing_length in Hb.
    destruct before, w; done. }
  cbn [pingpong_windows]. pose proof (window_spec (take 6 (r0 :: rest))) as HW.
  destruct (_ && _); cbv zeta iota.
  - destruct HW as [HW _]. specialize (HW eq_refl). pose proof (bouncing_length _ HW) as HL.
    split; [intros _; exists [], (take 6 (r0 :: rest)), (drop 6 (r0 :: rest)); cbn [app]; by rewrite take_drop|].
    intros _. destruct rest; [done|]. by eexists.
  - rewrite IH. split.
    + intros (before & w & after & -> & Hb). by exists (r0 :: before), w, after.
    + intros (before & w & after & E & Hb). pose proof (bouncing_length _ Hb) as HL.
      destruct before as [|x before]; [|injection E as -> ->; by exists before, w, after].
      cbn [app] in E. rewrite E in HW. rewrite take_app_le, firstn_all2 in HW by lia. by apply HW in Hb.
Qed.

Lemma repeated_from_spec before rest :
  (forall fp, (occurrences fp (map fingerprint before) < 4)%nat) ->
  is_Some (repeated_from (counter (map fingerprint before)) rest) <->
  exists fp, (4 <= occurrences fp (map fingerprint (before ++ rest)%list))%nat.
Proof.
  revert before. induction rest as [|rec rest IH]; intros before HB; cbn [repeated_from].
  { rewrite app_nil_r. split; [by intros [? ?]|]. intros [fp H]. specialize (HB fp). lia. }
  assert (HC : incr (fingerprint rec) (counter (map fingerprint before)) = counter (map fingerprint (before ++ [rec])%list)).
  { rewrite map_app. unfold counter. by rewrite foldl_app. }
  rewrite HC, counter_lookup. replace (before ++ rec :: rest)%list with ((before ++ [rec]) ++ rest)%list by by rewrite <-app_assoc.
  set (n := occurrences _ _). assert (Hn : n = S (occurrences (fingerprint rec) (map fingerprint before))).
  { subst n. rewrite map_app. cbn [map]. rewrite occurrences_snoc, decide_True by done. lia. }
  rewrite decide_False by lia. change (default 0%nat (Some n)) with n. destruct (Nat.leb_spec 4 n) as [H4|H4].
  - split; [|intros _; by eexists]. intros _. exists (fingerprint rec). rewrite map_app. unfold occurrences in *.
    rewrite filter_app, length_app. subst n. lia.
  - apply IH. intros fp. rewrite map_app. cbn [map]. rewrite occurrences_snoc. specialize (HB fp).
    case_decide as E; [|lia]. subst fp. lia.
Qed.

(** The session detector reports a reason exactly when six consecutive idle turns
    alternate between two roles somewhere in the log, or the last six turns are all dry,
    or four turns of the log share one fingerprint.  In the first pattern a turn is idle
    only if it names no artifact at all: each window starts with nothing seen, so two
    roles that bounce over the same file are not caught by it. *)
Theorem session_stuck_spec records :
  is_Some (Stuck records) <->
  (exists before window after, records = (before ++ window ++ after)%list /\ bouncing window) \/
  ends_dry 6 records \/
  (exists fp, (4 <= occurrences fp (map fingerprint records))%nat).
Proof.
  rewrite <-pingpong_windows_spec, <-dry_run_all, <-(repeated_from_spec [] records) by (intros; cbn; lia).
  assert (HP : is_Some (detectPingPong records) <-> is_Some (pingpong_windows records)).
  { unfold detectPingPong. destruct (Nat.ltb_spec (List.length records) 6) as [Hl|]; [|done].
    split; [by intros [? ?]|]. rewrite pingpong_windows_spec. intros (before & w & after & -> & Hb).
    apply bouncing_length in Hb. rewrite !length_app in Hl. lia. }
  assert (HN : is_Some (detectNoProgress records) <-> (6 <= dry_run ∅ 0 records)%nat).
  { unfold detectNoProgress. destruct (Nat.ltb_spec (List.length records) 6) as [Hl|].
    - split; [by intros [? ?]|]. intros H%dry_run_all. destruct H as [H _]. lia.
    - destruct (Nat.leb_spec 6 (dry_run ∅ 0 records)) as [?|?]; [by split|].
      split; [by intros [? ?]|lia]. }
  rewrite <-HP, <-HN. unfold Stuck, detectRepeatedFingerprint. destruct records as [|r l] eqn:E.
  { split; [by intros [? ?]|by intros [[? ?]|[[? ?]|[? ?]]]]. }
  rewrite <-E in *. clear E. cbn [map counter foldl].
  destruct (detectPingPong records); [naive_solver|]. destruct (detectNoProgress records); [naive_solver|].
  split; [naive_solver|]. intros [[? ?]|[[? ?]|H]]; done.
Qed.
