(* ===== verification/Exit.v ===== *)
(** * Presets and exit conditions

    [internal/preset]: the validation and conversion of a decoded YAML preset, the presets that are
    embedded in the program; [internal/exit/exit.go]: the conditions that end a session.  The YAML
    decoder is third-party code: a preset enters as the struct it fills. *)

From S2P Require Import Prelude GoStrings Json Codec Contract Ledger Stuck Turns SessionStuck.
From Stdlib Require Import Ascii String.
#[local] Open Scope string_scope.

(** ** Presets *)

(* src: internal/preset/preset.go 29-33 yamlRole *)
Record yamlRole := mkYamlRole { yr_ID : string; yr_Runtime : string; yr_Model : string }.

(* src: internal/preset/preset.go 35-40 yamlBudget *)
Record yamlBudget := mkYamlBudget {
  yb_MaxTurns : Z; yb_MaxTokens : Z; yb_DeadlineMinutes : Z; yb_DryRoundsThreshold : Z }.

(* src: internal/preset/preset.go 19-27 yamlPreset *)
Record yamlPreset := mkYamlPreset {
  yp_Name : string; yp_Description : string; yp_Roles : list yamlRole; yp_Routing : string;
  yp_Budget : yamlBudget; yp_ExitWhen : list string; yp_MaxKB : Z; yp_SummarizeWith : string }.

Inductive PresetError : Set :=
  | ErrDecode | ErrNoName | ErrNoRoles | ErrMaxTurns | ErrMaxTokens | ErrInvalidRouting (rule : string).

(** [yp] is [None] when the decoder fails; the minutes become milliseconds in [int64]. *)
(* src: internal/preset/preset.go 47-100 Load *)
Definition Load (yp : option yamlPreset) : PresetError + Preset :=
  match yp with
  | None => inl ErrDecode
  | Some yp =>
      if String.eqb (yp_Name yp) "" then inl ErrNoName
      else if Nat.eqb (List.length (yp_Roles yp)) 0 then inl ErrNoRoles
      else if (yb_MaxTurns (yp_Budget yp) <=? 0)%Z then inl ErrMaxTurns
      else if (yb_MaxTokens (yp_Budget yp) <=? 0)%Z then inl ErrMaxTokens
      else if negb (validRouting (yp_Routing yp)) then inl (ErrInvalidRouting (yp_Routing yp))
      else
        inr (mkPreset (yp_Name yp) (yp_Description yp)
               (map (fun yr => mkRole (yr_ID yr) (yr_Runtime yr) (yr_Model yr)) (yp_Roles yp))
               (yp_Routing yp)
               (mkBudget (yb_MaxTokens (yp_Budget yp)) (yb_MaxTurns (yp_Budget yp))
                  (wrap64 (yb_DeadlineMinutes (yp_Budget yp) * 60000)) (yb_DryRoundsThreshold (yp_Budget yp)))
               (match yp_ExitWhen yp with [] => None | l => Some l end)
               (mkScratchConfig (yp_MaxKB yp) (yp_SummarizeWith yp)))
  end.

(** The shipped preset A2A tasks run with, [internal/preset/presets/solo-ralph.yaml]. *)
Definition solo_ralph_yaml : yamlPreset :=
  mkYamlPreset "solo-ralph" "Single runtime running the ralph loop with budget and exit guards."
    [mkYamlRole "ralph" "claude" "sonnet"] "round_robin" (mkYamlBudget 30 600000 90 0)
    ["tests_pass"; "turns_exhausted"; "deadline_passed"] 64 "claude-haiku".

Definition solo_ralph : Preset :=
  mkPreset "solo-ralph" "Single runtime running the ralph loop with budget and exit guards."
    [mkRole "ralph" "claude" "sonnet"] "round_robin" (mkBudget 600000 30 5400000 0)
    (Some ["tests_pass"; "turns_exhausted"; "deadline_passed"]) (mkScratchConfig 64 "claude-haiku").

Example Load_solo_ralph : Load (Some solo_ralph_yaml) = inr solo_ralph.
Proof. reflexivity. Qed.

(** ** The presets of the program

    The files embedded below [presets], in the order of their names: [None] is a directory, [inl] a
    file that cannot be read, [inr] its text.  [yaml]: the decoder. *)
Section Embedded.
Variable yaml : string -> option yamlPreset.
Definition EmbeddedDir : Type := list (string * option (string + string)).

Inductive EmbeddedError : Type := EReadPreset (name e : string) | ELoadPreset (name : string) (e : PresetError).

(** A preset is known by the name in it, not by the name of its file: of two with one name the last counts. *)
Fixpoint load_entries (entries : EmbeddedDir) (presets : gmap string Preset) : EmbeddedError + gmap string Preset :=
  match entries with
  | [] => inr presets
  | (_, None) :: rest => load_entries rest presets
  | (name, Some file) :: rest =>
      if negb (HasSuffix name ".yaml") then load_entries rest presets
      else match file with
           | inl e => inl (EReadPreset name e)
           | inr data => match Load (yaml data) with
                         | inl e => inl (ELoadPreset name e)
                         | inr p => load_entries rest (<[ps_Name p := p]> presets)
                         end
           end
  end.
(* src: internal/preset/embed.go 31-61 loadFromFS *)
Definition loadFromFS (entries : EmbeddedDir) : EmbeddedError + gmap string Preset := load_entries entries ∅.
(* src: internal/preset/embed.go 16-20 ReadRaw *)
Definition ReadRaw (entries : EmbeddedDir) (name : string) : option (string + string) :=
  mjoin (list_to_map (M := gmap string _) entries !! (name +:+ ".yaml")).

Lemma load_entries_from entries : forall presets ps, load_entries entries presets = inr ps ->
  forall n p, ps !! n = Some p -> presets !! n = Some p \/ exists file data, In (file, Some (inr data)) entries /\ HasSuffix file ".yaml" = true /\ Load (yaml data) = inr p /\ n = ps_Name p.
Proof.
  induction entries as [|[name [file|]] entries IH]; intros presets ps; cbn [load_entries]; [intros [= <-]; auto| |].
  - destruct (HasSuffix name ".yaml") eqn:Ey; cbn [negb].
    2: { intros H n p Hp. destruct (IH _ _ H n p Hp) as [?|(f & d & ? & ?)]; [by left|right]. exists f, d. split; [by right|done]. }
    destruct file as [|data]; [done|]. destruct (Load (yaml data)) as [|p0] eqn:El; [done|]. intros H n p Hp.
    destruct (IH _ _ H n p Hp) as [Hl|(f & d & ? & ?)]; [|right; exists f, d; split; [by right|done]].
    apply lookup_insert_Some in Hl as [[<- <-]|[_ ?]]; [|by left]. right. exists name, data. split_and!; [by left|done..].
  - intros H n p Hp. destruct (IH _ _ H n p Hp) as [?|(f & d & ? & ?)]; [by left|right]. exists f, d. split; [by right|done].
Qed.

(** Every preset that is offered is a file that was accepted, under the name in it. *)
Theorem embedded_presets entries ps n p : loadFromFS entries = inr ps -> ps !! n = Some p ->
  n = ps_Name p /\ n <> "" /\ exists file data, In (file, Some (inr data)) entries /\ HasSuffix file ".yaml" = true /\ Load (yaml data) = inr p.
Proof.
  intros H Hp. destruct (load_entries_from _ _ _ H n p Hp) as [?|(f & d & Hi & Hy & Hl & ->)]; [done|].
  split_and!; [done| |by exists f, d]. revert Hl. unfold Load. destruct (yaml d) as [yp|]; [|done].
  destruct (String.eqb_spec (yp_Name yp) ""); [done|]. repeat (case_match; [done|]). by intros [= <-].
Qed.
End Embedded.

Definition fake_demo_yaml : yamlPreset :=
  mkYamlPreset "fake-demo" "Zero-credential smoke test. Runs the in-process `fake` runtime so you can verify an install end-to-end without any agent CLI or API key."
    [mkYamlRole "demo" "fake" "none"] "round_robin" (mkYamlBudget 5 100000 5 0) ["turns_exhausted"; "reviewer_approved"; "deadline_passed"] 0 EmptyString.
Definition pair_review_yaml : yamlPreset :=
  mkYamlPreset "pair-review" "Planner, executor, and reviewer roles cycling in a structured review loop."
    [mkYamlRole "planner" "claude" "opus"; mkYamlRole "executor" "kimi" "kimi-k2"; mkYamlRole "reviewer" "claude" "sonnet"] "handoff_then_round_robin"
    (mkYamlBudget 20 400000 60 3) ["tests_pass"; "reviewer_approved"; "turns_exhausted"; "dry_rounds"] 64 "claude-haiku".
(** The shipped presets load, each under the name of its file. *)
Example shipped_presets :
  let text n := if String.eqb n "fake-demo" then Some fake_demo_yaml else if String.eqb n "pair-review" then Some pair_review_yaml else
                if String.eqb n "solo-ralph" then Some solo_ralph_yaml else None in
  match loadFromFS text [("fake-demo.yaml", Some (inr "fake-demo")); ("pair-review.yaml", Some (inr "pair-review")); ("solo-ralph.yaml", Some (inr "solo-ralph"))] with
  | inr ps => forallb (fun n => match ps !! n with Some p => String.eqb (ps_Name p) n | None => false end) ["fake-demo"; "pair-review"; "solo-ralph"] = true /\
      ps !! "solo-ralph" = Some solo_ralph
  | inl _ => False
  end.
Proof. vm_compute. by split. Qed.

(** ** Exit conditions *)

(* src: pkg/contract/types.go 10-24 ExitCondition *)
Definition ExitAllArtifactsCompile : string := "all_artifacts_compile".
(* src: pkg/contract/types.go 16 ExitTestsPass *)
Definition ExitTestsPass : string := "tests_pass".
(* src: pkg/contract/types.go 17 ExitReviewerApproved *)
Definition ExitReviewerApproved : string := "reviewer_approved".
(* src: pkg/contract/types.go 18 ExitTurnsExhausted *)
Definition ExitTurnsExhausted : string := "turns_exhausted".
(* src: pkg/contract/types.go 19 ExitTokensExhausted *)
Definition ExitTokensExhausted : string := "tokens_exhausted".
(* src: pkg/contract/types.go 20 ExitDeadlinePassed *)
Definition ExitDeadlinePassed : string := "deadline_passed".
(* src: pkg/contract/types.go 21 ExitHumanSignal *)
Definition ExitHumanSignal : string := "human_signal".
(* src: pkg/contract/types.go 22 ExitDryRounds *)
Definition ExitDryRounds : string := "dry_rounds".
(* src: pkg/contract/types.go 23 ExitStuck *)
Definition ExitStuck : string := "stuck".

Inductive ExitError : Set := ErrExitContext | ErrShellDisabled (cond : string) | ErrShellContext | ErrNoCommand (cond : string).

(** What the evaluation meets outside: for the [i]-th condition whether the context is
    live and what the clock says, and how a command ends. *)
Inductive ShellOutcome : Set := ShellOk | ShellFails | ShellCanceled.
Record ExitWorld := mkExitWorld { ew_alive : nat -> bool; ew_now : nat -> Z; ew_run : list string -> ShellOutcome }.

(** The fields of [State] the conditions read; instants in nanoseconds. *)
(* src: internal/exit/exit.go 48-58 State *)
Record ExitState := mkExitState {
  ex_TurnCount : Z; ex_Usage : Usage; ex_Budget : Budget; ex_StartTime : Z;
  ex_LastResponse : option TurnResponse; ex_DeadlineMS : Z; ex_DryRounds : Z; ex_Records : list TurnRecord }.

(* src: internal/exit/exit.go 26-36 NewEvaluator *)
Definition cmdMap (cond : string) : option (list string) :=
  if String.eqb cond ExitTestsPass then Some ["go"; "test"; "./..."]
  else if String.eqb cond ExitAllArtifactsCompile then Some ["go"; "vet"; "./..."]
  else None.

(* src: internal/exit/exit.go 117-132 Evaluator.runShellPredicate *)
Definition runShellPredicate (w : ExitWorld) (cond : string) : ExitError + option string :=
  match cmdMap cond with
  | None | Some [] => inl (ErrNoCommand cond)
  | Some args =>
      match ew_run w args with
      | ShellOk => inr (Some (cond +:+ " satisfied"))
      | ShellFails => inr None
      | ShellCanceled => inl ErrShellContext
      end
  end.

(** [time.Duration] is an [int64] of nanoseconds. *)
(* src: internal/exit/exit.go 87-91 Evaluator.evaluateOne *)
Definition deadline_passed (now start deadlineMS : Z) : bool := (start + wrap64 (deadlineMS * 1000000) <? now)%Z.

Definition ends_if (b : bool) (reason : string) : ExitError + option string := inr (if b then Some reason else None).

(* src: internal/exit/exit.go 77-115 Evaluator.evaluateOne *)
Definition evaluateOne (allowShell : bool) (w : ExitWorld) (now : Z) (state : ExitState) (cond : string)
    : ExitError + option string :=
  if String.eqb cond ExitTurnsExhausted then ends_if (b_TurnsLeft (ex_Budget state) <=? 0)%Z "turns exhausted"
  else if String.eqb cond ExitTokensExhausted then ends_if (b_TokensLeft (ex_Budget state) <=? 0)%Z "tokens exhausted"
  else if String.eqb cond ExitDeadlinePassed then
    ends_if (deadline_passed now (ex_StartTime state) (ex_DeadlineMS state)) "deadline passed"
  else if String.eqb cond ExitReviewerApproved then
    ends_if (match ex_LastResponse state with
             | Some r => String.eqb (r_SelfEval r) SelfEvalConfident && r_Done r
             | None => false
             end) "reviewer approved"
  else if String.eqb cond ExitDryRounds then
    ends_if ((0 <? b_DryRoundsThreshold (ex_Budget state))%Z &&
             (b_DryRoundsThreshold (ex_Budget state) <=? ex_DryRounds state)%Z) "dry rounds"
  else if String.eqb cond ExitStuck then
    inr (if (6 <=? List.length (ex_Records state))%nat then SessionStuck.Stuck (ex_Records state) else None)
  else if String.eqb cond ExitTestsPass || String.eqb cond ExitAllArtifactsCompile then
    if negb allowShell then inl (ErrShellDisabled cond) else runShellPredicate w cond
  else inr None.

(** The loop from the [i]-th condition on. *)
(* src: internal/exit/exit.go 62-75 Evaluator.Evaluate *)
Fixpoint evaluate_from (allowShell : bool) (w : ExitWorld) (state : ExitState) (i : nat) (conditions : list string)
    : ExitError + option string :=
  match conditions with
  | [] => inr None
  | cond :: rest =>
      if negb (ew_alive w i) then inl ErrExitContext
      else
        match evaluateOne allowShell w (ew_now w i) state cond with
        | inl err => inl err
        | inr (Some reason) => inr (Some reason)
        | inr None => evaluate_from allowShell w state (S i) rest
        end
  end.

(** [inr (Some reason)] is [(true, reason, nil)], [inr None] is [(false, "", nil)]. *)
(* src: internal/exit/exit.go 60-75 Evaluator.Evaluate *)
Definition Evaluate (allowShell : bool) (w : ExitWorld) (state : ExitState) (conditions : list string)
    : ExitError + option string :=
  evaluate_from allowShell w state 0 conditions.

(** ** Properties *)

(** What the [i]-th condition decides: nothing ([None]), an error or a reason. *)
Definition verdict (allowShell : bool) (w : ExitWorld) (state : ExitState) (i : nat) (cond : string)
    : option (ExitError + string) :=
  if negb (ew_alive w i) then Some (inl ErrExitContext)
  else match evaluateOne allowShell w (ew_now w i) state cond with
       | inl err => Some (inl err)
       | inr (Some reason) => Some (inr reason)
       | inr None => None
       end.

Definition result_of (v : option (ExitError + string)) : ExitError + option string :=
  match v with None => inr None | Some (inl err) => inl err | Some (inr reason) => inr (Some reason) end.

Lemma evaluate_from_verdicts allow w s k conds :
  (evaluate_from allow w s k conds = inr None /\
   forall i cond, conds !! i = Some cond -> verdict allow w s (k + i) cond = None) \/
  (exists i cond v, conds !! i = Some cond /\ verdict allow w s (k + i) cond = Some v /\
     (forall j c, (j < i)%nat -> conds !! j = Some c -> verdict allow w s (k + j) c = None) /\
     evaluate_from allow w s k conds = result_of (Some v)).
Proof.
  revert k. induction conds as [|cond conds IH]; intros k; [by left|].
  assert (HE : evaluate_from allow w s k (cond :: conds) =
    match verdict allow w s k cond with
    | Some v => result_of (Some v) | None => evaluate_from allow w s (S k) conds end).
  { cbn [evaluate_from]. unfold verdict. destruct (negb (ew_alive w k)); [done|].
    by destruct (evaluateOne _ _ _ _ _) as [|[|]]. }
  destruct (verdict allow w s k cond) as [v|] eqn:Hv.
  - right. exists 0%nat, cond, v. rewrite Nat.add_0_r. split_and!; [done|done|lia|done].
  - destruct (IH (S k)) as [[H1 H2]|(i & c & v & H1 & H2 & H3 & H4)].
    + left. split; [by rewrite HE|]. intros [|i] c Hc; [injection Hc as <-; by rewrite Nat.add_0_r|].
      rewrite Nat.add_succ_r. by apply H2.
    + right. exists (S i), c, v. rewrite Nat.add_succ_r. split_and!; [done|done| |by rewrite HE].
      intros [|j] c' Hj Hc; [injection Hc as <-; by rewrite Nat.add_0_r|].
      rewrite Nat.add_succ_r. apply H3; [lia|done].
Qed.

(** The evaluation is decided by the first condition, in the order of the preset,
    whose context is dead, whose check fails or which matches: its error or its reason is
    the result, and it is "not yet" exactly when every condition is live and says so. *)
Theorem Evaluate_spec allow w s conds :
  (Evaluate allow w s conds = inr None <->
   forall i cond, conds !! i = Some cond -> verdict allow w s i cond = None) /\
  (forall v, Evaluate allow w s conds = result_of (Some v) <->
   exists i cond, conds !! i = Some cond /\ verdict allow w s i cond = Some v /\
     forall j c, (j < i)%nat -> conds !! j = Some c -> verdict allow w s j c = None).
Proof.
  assert (Hinj : forall v v' : ExitError + string, result_of (Some v) = result_of (Some v') -> v = v')
    by (intros [] []; naive_solver).
  unfold Evaluate. destruct (evaluate_from_verdicts allow w s 0 conds) as
    [[-> Hall]|(i & cond & v & Hi & Hv & Hb & ->)]; cbn [Nat.add] in *.
  - split; [done|]. intros v. split; [by destruct v|]. intros (i & c & Hc & Hv & _).
    by rewrite (Hall i c Hc) in Hv.
  - split.
    + split; [by destruct v|]. intros H. by rewrite (H i cond Hi) in Hv.
    + intros v'. split.
      * intros H%Hinj. subst v'. by exists i, cond.
      * intros (i' & c' & Hi' & Hv' & Hb'). destruct (lt_eq_lt_dec i i') as [[Hl| ->]|Hl].
        -- by rewrite (Hb' i cond Hl Hi) in Hv.
        -- simplify_eq. done.
        -- by rewrite (Hb i' c' Hl Hi') in Hv'.
Qed.

Definition is_shell (cond : string) : bool := String.eqb cond ExitTestsPass || String.eqb cond ExitAllArtifactsCompile.

Lemma evaluateOne_shell w now s cond : is_shell cond = true -> evaluateOne false w now s cond = inl (ErrShellDisabled cond).
Proof.
  unfold is_shell. rewrite orb_true_iff, !String.eqb_eq. by intros [->| ->].
Qed.

Lemma evaluate_from_masked w s k before cond after after' : is_shell cond = true ->
  evaluate_from false w s k (before ++ cond :: after)%list = evaluate_from false w s k (before ++ cond :: after')%list.
Proof.
  intros Hs. revert k. induction before as [|c before IH]; intros k; cbn [app evaluate_from].
  - by rewrite evaluateOne_shell.
  - by rewrite IH.
Qed.

(** With shell predicates disabled, as in the broker, a shell predicate in the list
    masks every condition behind it: they have no influence on the evaluation, and it
    never succeeds beyond that point.  The shipped presets solo-ralph and pair-review
    start with [tests_pass], so none of their conditions ever ends a session: the result
    is always an error. *)
Theorem disabled_shell_masks w s cond : is_shell cond = true ->
  (forall before after after',
     Evaluate false w s (before ++ cond :: after)%list = Evaluate false w s (before ++ cond :: after')%list) /\
  (forall after, exists err, Evaluate false w s (cond :: after) = inl err) /\
  (exists err, Evaluate false w s (default [] (ps_ExitWhen solo_ralph)) = inl err).
Proof.
  intros Hs. assert (HE : forall c l, is_shell c = true -> exists err, Evaluate false w s (c :: l) = inl err).
  { intros c l Hc. unfold Evaluate. cbn [evaluate_from]. destruct (ew_alive w 0); cbn [negb]; [|by eexists].
    rewrite evaluateOne_shell by done. by eexists. }
  split_and!.
  - intros before after after'. by apply evaluate_from_masked.
  - intros after. by apply HE.
  - by apply HE.
Qed.

Definition live_world (now : Z) : ExitWorld := mkExitWorld (fun _ => true) (fun _ => now) (fun _ => ShellOk).
Definition spent_state : ExitState := mkExitState 30 (mkUsage 0 0 0) (mkBudget 0 0 5400000 0) 0 None 5400000 0 [].

Lemma disabled_shell_masks_witness :
  Evaluate false (live_world (10 ^ 18)) spent_state ["turns_exhausted"] = inr (Some "turns exhausted") /\
  exists err, Evaluate false (live_world (10 ^ 18)) spent_state (default [] (ps_ExitWhen solo_ralph)) = inl err.
Proof.
  split; [reflexivity|]. apply (disabled_shell_masks (live_world (10 ^ 18)) spent_state "tests_pass"). reflexivity.
Defined.

Definition routing_rules : list string := ["round_robin"; "handoff_then_round_robin"; "strict_round_robin"; "last_writer_wins"].

Lemma validRouting_In rule : validRouting rule = true <-> In rule routing_rules.
Proof. unfold validRouting. rewrite !orb_true_iff, !String.eqb_eq. cbn. naive_solver. Qed.

(** What a decoded preset must have. *)
Definition acceptable (yp : yamlPreset) : Prop :=
  yp_Name yp <> "" /\ yp_Roles yp <> [] /\ (0 < yb_MaxTurns (yp_Budget yp))%Z /\ (0 < yb_MaxTokens (yp_Budget yp))%Z /\
  In (yp_Routing yp) routing_rules.

Lemma Load_iff yp : (exists p, Load (Some yp) = inr p) <-> acceptable yp.
Proof.
  unfold acceptable, Load. rewrite <-validRouting_In.
  destruct (String.eqb_spec (yp_Name yp) ""); [naive_solver|].
  destruct (yp_Roles yp); cbn [List.length Nat.eqb]; [naive_solver|].
  destruct (Z.leb_spec (yb_MaxTurns (yp_Budget yp)) 0); [naive_solver lia|].
  destruct (Z.leb_spec (yb_MaxTokens (yp_Budget yp)) 0); [naive_solver lia|].
  destruct (validRouting (yp_Routing yp)); cbn [negb]; [|naive_solver].
  split; [done|]. intros _. by eexists.
Qed.

(** What the loader makes of it. *)
Lemma Load_fields yp p : Load (Some yp) = inr p ->
  ps_Name p = yp_Name yp /\ role_ids p = map yr_ID (yp_Roles yp) /\ ps_Routing p = yp_Routing yp /\
  b_TurnsLeft (ps_Budget p) = yb_MaxTurns (yp_Budget yp) /\ b_TokensLeft (ps_Budget p) = yb_MaxTokens (yp_Budget yp) /\
  default [] (ps_ExitWhen p) = yp_ExitWhen yp.
Proof.
  unfold Load. repeat (case_match; [done|]). intros [= <-]. unfold role_ids. cbn. rewrite map_map. split_and!; try done.
  by destruct (yp_ExitWhen yp).
Qed.

(** C39: the loader accepts a preset that decodes exactly when it has a name, a role, positive turn and
    token budgets and one of the four routing rules, and keeps these, the identifiers of the roles and
    the exit conditions as they were written.  Of a preset it accepts the first turn finds a budget
    that is not exhausted, and for every turn and every previous response the router names a role of
    the preset: it never answers with an unknown rule, and fails only for a context that has ended or
    for a blocked turn when no role is the reviewer. *)
Theorem Load_valid yp :
  in_int64 (yb_MaxTurns (yp_Budget yp)) = true -> in_int64 (yb_MaxTokens (yp_Budget yp)) = true ->
  ((exists p, Load (Some yp) = inr p) <-> acceptable yp) /\
  forall p, Load (Some yp) = inr p ->
    (ps_Name p = yp_Name yp /\ role_ids p = map yr_ID (yp_Roles yp) /\ ps_Routing p = yp_Routing yp /\
     b_TurnsLeft (ps_Budget p) = yb_MaxTurns (yp_Budget yp) /\ b_TokensLeft (ps_Budget p) = yb_MaxTokens (yp_Budget yp) /\
     default [] (ps_ExitWhen p) = yp_ExitWhen yp) /\
    IsExhausted (Remaining (ps_Budget p) Usage_zero 0) = false /\
    forall alive prev turn, match Next alive p prev turn with
      | inr id => In id (role_ids p)
      | inl e => (e = ErrContext /\ alive = false) \/
          (e = ErrBlockedNoReviewer /\ blocked prev = true /\ ~ In "reviewer" (role_ids p))
      end.
Proof.
  unfold in_int64. intros Hi1 Hi2. reflect_bools. split; [apply Load_iff|]. intros p HL.
  pose proof (proj1 (Load_iff yp) (ex_intro _ p HL)) as (Hn & Hr & Ht & Hk & HV). pose proof (Load_fields yp p HL) as HF.
  split; [done|]. destruct HF as (_ & HR & HRt & HBt & HBk & _). split.
  - unfold IsExhausted, Remaining. cbn [b_TurnsLeft b_TokensLeft Usage_zero u_TokensIn u_TokensOut]. rewrite HBt, HBk.
    change (wrap64 (0 + 0)) with 0%Z. rewrite !Z.sub_0_r, !wrap64_id by done.
    apply orb_false_iff. split; apply Z.leb_gt; lia.
  - intros [] prev turn; [|by left].
    assert (Hne : ps_Roles p <> []).
    { intros E. unfold role_ids in HR. rewrite E in HR. by destruct (yp_Roles yp). }
    pose proof (Next_spec p prev turn Hne) as HN. destruct (Next true p prev turn) as [e|id]; [|by destruct HN].
    destruct HN as [HB|(_ & _ & HU)]; [by right|]. rewrite HRt in HU. apply validRouting_In in HV. congruence.
Qed.

Lemma Load_valid_witness : acceptable solo_ralph_yaml /\ IsExhausted (Remaining (ps_Budget solo_ralph) Usage_zero 0) = false.
Proof.
  destruct (Load_valid solo_ralph_yaml eq_refl eq_refl) as [Ha Hp]. split; [apply Ha; by exists solo_ralph|].
  by apply (Hp solo_ralph).
Defined.
