(* ===== verification/SessionStore.v ===== *)
(** * The session store

    [internal/session/session.go]: the sessions in memory, their directories, and the
    append-only [log.jsonl] of turn records.  The files are a map from paths to contents
    and the faults an operation can meet are an argument.  The clock gives an instant in
    nanoseconds and its RFC 3339 text, what [time.Time] marshals to. *)

From S2P Require Import Prelude GoStrings Json Codec Contract Ledger Stuck Turns SessionStuck.
From Stdlib Require Import Ascii String.
#[local] Open Scope string_scope.

(** ** Time in JSON *)

(** A reading of the clock. *)
Record Time := mkTime { t_nanos : Z; t_text : string }.

(** The days of a month; [y] is the year. *)
Definition days_in (y m : Z) : Z :=
  if (m =? 2)%Z then
    if (Z.rem y 4 =? 0)%Z && (negb (Z.rem y 100 =? 0)%Z || (Z.rem y 400 =? 0)%Z) then 29 else 28
  else if (m =? 4)%Z || (m =? 6)%Z || (m =? 9)%Z || (m =? 11)%Z then 30 else 31.

Definition num_in (s : string) (n : nat) (lo hi : Z) : bool :=
  Nat.eqb (String.length s) n && string_forall is_digit s && (lo <=? uint_val 0 s)%Z && (uint_val 0 s <=? hi)%Z.

(** The zone: [Z], or a signed offset. *)
Definition zone_ok (s : string) : bool :=
  String.eqb s "Z" ||
  ((HasPrefix s "+" || HasPrefix s "-") && Nat.eqb (String.length s) 6 && num_in (slice s 1 3) 2 0 24 &&
   String.eqb (slice s 3 4) ":" && num_in (slice s 4 6) 2 0 60).

(** What [time.Time.UnmarshalJSON] accepts: a date, a time, an optional fraction, a zone. *)
Definition rfc3339 (s : string) : bool :=
  num_in (slice s 0 4) 4 0 9999 && String.eqb (slice s 4 5) "-" &&
  num_in (slice s 5 7) 2 1 12 && String.eqb (slice s 7 8) "-" &&
  num_in (slice s 8 10) 2 1 (days_in (uint_val 0 (slice s 0 4)) (uint_val 0 (slice s 5 7))) &&
  String.eqb (slice s 10 11) "T" && num_in (slice s 11 13) 2 0 23 && String.eqb (slice s 13 14) ":" &&
  num_in (slice s 14 16) 2 0 59 && String.eqb (slice s 16 17) ":" && num_in (slice s 17 19) 2 0 59 &&
  (let rest := slice_from s 19 in
   if HasPrefix rest "." then
     let frac := slice_from rest 1 in
     let tail := trim_left is_digit frac in
     (String.length tail <? String.length frac)%nat && zone_ok tail
   else zone_ok rest).

Example rfc3339_now : rfc3339 "2026-02-28T13:59:08.123456789+09:00" = true.
Proof. reflexivity. Qed.
Example rfc3339_bad : rfc3339 "2026-02-30T13:59:08Z" = false.
Proof. reflexivity. Qed.

Definition into_time : Into string := fun j cur =>
  match j with JNull => Some cur | JStr s => if rfc3339 s then Some s else None | _ => None end.

(* src: internal/session/session.go 36-42 TurnRecord *)
Definition TurnRecord_fields : list (Field TurnRecord) :=
  [ Tag "turn" tr_Turn enc_int into_int;
    Tag "time" tr_Time enc_string into_time;
    Tag "req" tr_Req (enc_struct TurnRequest_fields) (into_struct TurnRequest_fields);
    Tag "resp" tr_Resp (enc_struct TurnResponse_fields) (into_struct TurnResponse_fields) ].
Definition TurnRecord_zero : TurnRecord := mkTurnRecord 0 "0001-01-01T00:00:00Z" TurnRequest_zero TurnResponse_zero.

Definition Marshal_record (r : TurnRecord) : string := encode (encode_struct TurnRecord_fields r).
Definition Unmarshal_record (line : string) : option TurnRecord :=
  Unmarshal TurnRecord_zero (into_struct TurnRecord_fields) line.

(** ** State *)

(* src: internal/session/session.go 26-34 Session *)
Record Session := mkSession {
  se_ID : string; se_PresetName : string; se_Status : string; se_CreatedAt : Time; se_TurnCount : Z; se_Task : Task }.
#[export] Instance eta_Session : Eta Session :=
  fun r => mkSession (se_ID r) (se_PresetName r) (se_Status r) (se_CreatedAt r) (se_TurnCount r) (se_Task r).

(** The JSON object of a session. *)
(* src: internal/session/session.go 26-34 Session *)
Definition Session_json (s : Session) : json :=
  JObj [ ("id", JStr (se_ID s)); ("preset_name", JStr (se_PresetName s)); ("status", JStr (se_Status s));
         ("created_at", JStr (t_text (se_CreatedAt s))); ("turn_count", JNum (Itoa (se_TurnCount s)));
         ("task", encode_struct Task_fields (se_Task s)) ].

(** The store and the file system; the mutex of an entry covers the whole of [Append]. *)
(* src: internal/session/session.go 44-57 Store *)
Record Store := mkStore {
  st_dir : string; st_nextID : Z; st_sessions : gmap string Session; st_files : gmap string string }.
#[export] Instance eta_Store : Eta Store :=
  fun r => mkStore (st_dir r) (st_nextID r) (st_sessions r) (st_files r).

Inductive StoreError : Set := SContext | SBadID | SNotFound | SIO | SDecode.

(* src: internal/session/session.go 268-276 validateSessionID *)
Definition validateSessionID (id : string) : bool :=
  negb (String.eqb id "") && negb (Contains id ".." || Contains id "/" || Contains id (String backslash "")).

(* src: internal/session/session.go 264-266 Store.generateID *)
Definition generateID (now : Z) (n : Z) : string := Itoa now +:+ "-" +:+ Itoa n.

(* src: internal/session/session.go 196-199 Store.SessionDir *)
Definition SessionDir (st : Store) (id : string) : string := st_dir st +:+ "/" +:+ id.
Definition logPath (st : Store) (id : string) : string := SessionDir st id +:+ "/log.jsonl".
Definition metaPath (st : Store) (id : string) : string := SessionDir st id +:+ "/meta.json".

(** ** Creation *)

(** A fault of one call of [Create]; [meta.json] may be left with some of its bytes. *)
Inductive CreateFault : Set := CreateOk | CreateMkdir | CreateOpenMeta | CreateWriteMeta (n : nat) | CreateOpenLog.

(** [t1] and [t2] are the readings of the clock for the id and for [CreatedAt]. *)
(* src: internal/session/session.go 74-123 Store.Create *)
Definition Create (alive : bool) (t1 t2 : Time) (fault : CreateFault) (st : Store) (presetName : string) (task : Task)
    : Store * (StoreError + Session) :=
  if negb alive then (st, inl SContext)
  else
    let n := (st_nextID st + 1)%Z in
    let st := st <| st_nextID := n |> in
    let id := generateID (t_nanos t1) n in
    if negb (validateSessionID id) then (st, inl SBadID)
    else
      let session := mkSession id presetName "active" t2 0 task in
      let meta := encode (Session_json session) +:+ newline in
      let put path content := st <| st_files := <[path := content]> (st_files st) |> in
      match fault with
      | CreateMkdir | CreateOpenMeta => (st, inl SIO)
      | CreateWriteMeta k => (put (metaPath st id) (slice meta 0 k), inl SIO)
      | CreateOpenLog => (put (metaPath st id) meta, inl SIO)
      | CreateOk =>
          let files := <[metaPath st id := meta]> (st_files st) in
          let files := <[logPath st id := default "" (files !! logPath st id)]> files in
          (mkStore (st_dir st) n (<[id := session]> (st_sessions st)) files, inr session)
      end.

(** ** The log *)

(** The faults of one append: a failed flush may have written some bytes, and a failed
    [fsync] comes after all of them. *)
Inductive LogFault : Set := LogOk | LogOpen | LogWrite (written : nat) | LogSync.

Definition log_line (r : TurnRecord) : string := Marshal_record r +:+ newline.

(* src: internal/session/session.go 125-173 Store.Append *)
Definition Append (alive : bool) (now : Time) (fault : LogFault) (st : Store) (id : string)
    (req : TurnRequest) (resp : TurnResponse) : Store * option StoreError :=
  if negb alive then (st, Some SContext)
  else if negb (validateSessionID id) then (st, Some SBadID)
  else
    match st_sessions st !! id with
    | None => (st, Some SNotFound)
    | Some session =>
        match st_files st !! logPath st id, fault with
        | None, _ | _, LogOpen => (st, Some SIO)
        | Some content, _ =>
            let data := log_line (mkTurnRecord (tq_Turn req) (t_text now) req resp) in
            let write s := st <| st_files := <[logPath st id := content +:+ s]> (st_files st) |> in
            match fault with
            | LogWrite k => (write (slice data 0 k), Some SIO)
            | LogSync => (write data, Some SIO)
            | _ =>
                let st' := write data in
                (st' <| st_sessions := <[id := session <| se_TurnCount := (se_TurnCount session + 1)%Z |>]>
                                         (st_sessions st') |>, None)
            end
        end
    end.

(* src: internal/session/session.go 175-194 Store.Get *)
Definition Get (alive : bool) (st : Store) (id : string) : StoreError + Session :=
  if negb alive then inl SContext
  else if negb (validateSessionID id) then inl SBadID
  else match st_sessions st !! id with None => inl SNotFound | Some s => inr s end.

(** A trailing carriage return is dropped; the newline is where the line was cut. *)
(* src: internal/session/session.go 250-262 bytesTrimNewline *)
Fixpoint trim_cr (s : string) : string :=
  match s with
  | "" => ""
  | String c "" => if Ascii.eqb c (byte_of 13) then "" else String c ""
  | String c r => String c (trim_cr r)
  end.

(** The lines [Replay] decodes: cut at newlines, trimmed, the empty ones skipped. *)
(* src: internal/session/session.go 229-239 Store.Replay *)
Definition record_lines (content : string) : list string :=
  List.filter (fun line => negb (String.eqb line "")) (map trim_cr (Split content (byte_of 10))).

(* src: internal/session/session.go 229-247 Store.Replay *)
Fixpoint decode_records (lines : list string) : StoreError + list TurnRecord :=
  match lines with
  | [] => inr []
  | line :: rest =>
      match Unmarshal_record line with
      | None => inl SDecode
      | Some rec => let? records := decode_records rest in inr (rec :: records)
      end
  end.

(* src: internal/session/session.go 201-248 Store.Replay *)
Definition Replay (alive readable : bool) (st : Store) (id : string) : StoreError + list TurnRecord :=
  if negb alive then inl SContext
  else if negb (validateSessionID id) then inl SBadID
  else
    match st_sessions st !! id with
    | None => inl SNotFound
    | Some _ =>
        match st_files st !! logPath st id with
        | None => inl SIO
        | Some content => if readable then decode_records (record_lines content) else inl SIO
        end
    end.

(** ** Records round-trip *)

Definition TurnRecord_wf (r : TurnRecord) : bool :=
  in_int64 (tr_Turn r) && utf8_valid (tr_Time r) && rfc3339 (tr_Time r) && TurnRequest_wf (tr_Req r) &&
  TurnResponse_wf (tr_Resp r).

Lemma TurnRecord_table : table_ok TurnRecord_zero TurnRecord_fields.
Proof. solve_table. Qed.

Lemma enc_time_ok z s : utf8_valid s = true -> rfc3339 s = true -> enc_ok enc_string into_time z s.
Proof. intros H1 H2. split; [|done]. cbn [into_time]. by rewrite H2. Qed.

#[export] Hint Resolve enc_time_ok : rallish_wf.

Lemma TurnRecord_roundtrip r : TurnRecord_wf r = true -> struct_ok TurnRecord_fields TurnRecord_zero r.
Proof. unfold TurnRecord_wf. intros. reflect_bools. solve_struct TurnRecord_table. Qed.

Lemma Unmarshal_Marshal_record r : TurnRecord_wf r = true -> Unmarshal_record (Marshal_record r) = Some r.
Proof. intros H. apply TurnRecord_roundtrip in H as [H1 H2]. by apply Unmarshal_encode. Qed.

(** ** The lines of a log *)

Lemma trim_cr_last a c : Ascii.eqb c (byte_of 13) = false -> trim_cr (a +:+ String c "") = a +:+ String c "".
Proof.
  assert (Hcons : forall x y, y <> "" -> trim_cr (String x y) = String x (trim_cr y)) by by intros x [].
  intros Hc. induction a as [|x a IH]; cbn [String.append].
  - cbn [trim_cr]. by rewrite Hc.
  - rewrite Hcons by by destruct a. by rewrite IH.
Qed.

Lemma encode_members_snoc l : exists a, encode (JObj l) = a +:+ "}".
Proof. cbn [encode]. by eexists ("{" +:+ _). Qed.

Lemma Marshal_record_line r : TurnRecord_wf r = true ->
  record_lines (log_line r) = [Marshal_record r] /\ no_byte (byte_of 10) (Marshal_record r) = true.
Proof.
  intros H. apply TurnRecord_roundtrip in H as [_ Hwf].
  assert (Hn : no_byte (byte_of 10) (Marshal_record r) = true) by by apply encode_one_line.
  split; [|done]. unfold log_line, record_lines, newline. rewrite Split_app, Split_no_byte by done.
  unfold Marshal_record, encode_struct in *.
  destruct (encode_members_snoc (encode_fields TurnRecord_fields r)) as [a Ha]. rewrite Ha.
  cbn [app map Split]. rewrite trim_cr_last by done.
  change (Split "" (byte_of 10)) with [""]. cbn [map trim_cr List.filter app].
  change (String.eqb "" "") with true. cbn [negb].
  assert (String.eqb (a +:+ String "}" "") "" = false) as ->; [|done].
  apply String.eqb_neq. by destruct a.
Qed.

Lemma record_lines_app c x : closed_lines c -> record_lines (c +:+ x) = (record_lines c ++ record_lines x)%list.
Proof.
  assert (HE : record_lines "" = []) by reflexivity.
  intros [->|[c0 ->]]; [by rewrite HE|].
  assert (E : forall y, record_lines (c0 +:+ String (byte_of 10) y) = (record_lines c0 ++ record_lines y)%list).
  { intros y. unfold record_lines. by rewrite Split_app, map_app, List.filter_app. }
  unfold newline. rewrite <-string_app_assoc. cbn [String.append]. by rewrite !E, HE, app_nil_r.
Qed.

Lemma decode_records_app l1 l2 r1 :
  decode_records l1 = inr r1 ->
  decode_records (l1 ++ l2) = let? r2 := decode_records l2 in inr (r1 ++ r2)%list.
Proof.
  revert r1. induction l1 as [|x l1 IH]; cbn [decode_records app]; intros r1.
  { intros [= <-]. by destruct (decode_records l2). }
  destruct (Unmarshal_record x); [|done]. destruct (decode_records l1) as [|r]; [done|]. intros [= <-].
  rewrite (IH r) by done. by destruct (decode_records l2).
Qed.

(** ** Paths and ids *)

Lemma logPath_inj st id id' : logPath st id = logPath st id' -> id = id'.
Proof.
  unfold logPath, SessionDir. intros H. apply string_app_inj_r in H. by apply string_app_inj_l, (string_app_inj_l "/") in H.
Qed.

Lemma same_tail_length (a b c d : string) :
  String.length c = String.length d -> a +:+ c = b +:+ d -> c = d.
Proof.
  intros Hl H. apply string_app_inj_len in H as [_ ?]; [done|].
  apply (f_equal String.length) in H. rewrite !string_length_app in H. lia.
Qed.

Lemma metaPath_logPath st id id' : metaPath st id <> logPath st id'.
Proof. unfold metaPath, logPath. intros H. by apply same_tail_length in H. Qed.

(** ** The log holds the records *)

(** Session [id] is open and its log consists of complete lines that decode to [recs]. *)
Definition log_holds (st : Store) (id : string) (recs : list TurnRecord) : Prop :=
  is_Some (st_sessions st !! id) /\
  exists content, st_files st !! logPath st id = Some content /\ closed_lines content /\
    decode_records (record_lines content) = inr recs.

Lemma log_holds_Replay st id recs :
  validateSessionID id = true -> log_holds st id recs -> Replay true true st id = inr recs.
Proof.
  intros Hid ([s Hs] & content & Hc & _ & Hd). unfold Replay. cbn [negb]. by rewrite Hid, Hs, Hc.
Qed.

(** C38: a successful append to an intact log is one record: the log then replays to the
    old records followed by the new one, the session has one turn more, and the log of
    every other session replays as before. *)
Theorem Append_Replay st id recs now req resp :
  log_holds st id recs -> validateSessionID id = true ->
  TurnRecord_wf (mkTurnRecord (tq_Turn req) (t_text now) req resp) = true ->
  exists st', Append true now LogOk st id req resp = (st', None) /\
    log_holds st' id (recs ++ [mkTurnRecord (tq_Turn req) (t_text now) req resp])%list /\
    Replay true true st' id = inr (recs ++ [mkTurnRecord (tq_Turn req) (t_text now) req resp])%list /\
    option_map se_TurnCount (st_sessions st' !! id) =
      option_map (fun s => se_TurnCount s + 1)%Z (st_sessions st !! id) /\
    forall id', id' <> id -> Replay true true st' id' = Replay true true st id'.
Proof.
  intros ([s Hs] & content & Hc & Hcl & Hd) Hid Hwf.
  set (rec := mkTurnRecord _ _ _ _) in *. unfold Append. cbn [negb]. rewrite Hid, Hs, Hc. cbn [negb].
  eexists. split; [done|]. fold rec. destruct (Marshal_record_line rec Hwf) as [Hl Hn].
  set (st' := set_with _ _ _). assert (HL : log_holds st' id (recs ++ [rec])%list).
  { split; [subst st'; cbn; rewrite lookup_insert_eq; by eexists|].
    exists (content +:+ log_line rec). split; [subst st'; cbn; by rewrite lookup_insert_eq|]. split.
    - right. exists (content +:+ Marshal_record rec). unfold log_line. by rewrite string_app_assoc.
    - rewrite record_lines_app, Hl by done. erewrite decode_records_app by done.
      cbn [decode_records]. by rewrite Unmarshal_Marshal_record. }
  split; [done|]. split; [by apply log_holds_Replay|]. split.
  - subst st'. cbn. rewrite lookup_insert_eq. cbn. done.
  - intros id' Hne. unfold Replay. cbn [negb]. destruct (validateSessionID id'); [|done]. cbn [negb].
    subst st'. cbn. rewrite lookup_insert_ne by done. destruct (st_sessions st !! id'); [|done].
    rewrite lookup_insert_ne; [done|]. by intros ?%logPath_inj.
Qed.

(** An append that fails in [fsync] reports an error although its record is in the log:
    the log replays with the new record while the session's turn count is unchanged.  One
    that cannot open the log changes nothing. *)
Theorem Append_failures st id recs now req resp :
  log_holds st id recs -> validateSessionID id = true ->
  TurnRecord_wf (mkTurnRecord (tq_Turn req) (t_text now) req resp) = true ->
  Append true now LogOpen st id req resp = (st, Some SIO) /\
  exists st', Append true now LogSync st id req resp = (st', Some SIO) /\
    log_holds st' id (recs ++ [mkTurnRecord (tq_Turn req) (t_text now) req resp])%list /\
    st_sessions st' = st_sessions st.
Proof.
  intros ([s Hs] & content & Hc & Hcl & Hd) Hid Hwf.
  set (rec := mkTurnRecord _ _ _ _) in *. unfold Append. cbn [negb]. rewrite Hid, Hs, Hc. cbn [negb].
  split; [done|]. eexists. split; [done|]. fold rec. destruct (Marshal_record_line rec Hwf) as [Hl Hn].
  split; [|done]. split; [by exists s|].
  exists (content +:+ log_line rec). split; [cbn; by rewrite lookup_insert_eq|]. split.
  - right. exists (content +:+ Marshal_record rec). unfold log_line. by rewrite string_app_assoc.
  - rewrite record_lines_app, Hl by done. erewrite decode_records_app by done.
    cbn [decode_records]. by rewrite Unmarshal_Marshal_record.
Qed.

(** ** Ids *)

Definition id_byte (c : ascii) : bool := is_digit c || Ascii.eqb c "-".

Lemma digits_id_bytes d : string_forall is_digit d = true -> string_forall id_byte d = true.
Proof. apply string_forall_impl. intros c. unfold id_byte. by intros ->. Qed.

Lemma Itoa_id_bytes z : string_forall id_byte (Itoa z) = true.
Proof.
  destruct (Itoa_cases z) as [[-> _]|(c & d & Hall & _ & [(_ & -> & _)|(_ & -> & _)])]; [done| |].
  - by apply digits_id_bytes.
  - rewrite string_forall_app. by rewrite (digits_id_bytes _ Hall).
Qed.

Lemma Itoa_pos_digits z : (0 < z)%Z -> string_forall is_digit (Itoa z) = true.
Proof.
  intros Hz. by destruct (Itoa_cases z) as [[_ ->]|(c & d & Hall & _ & [(_ & -> & _)|(? & _)])]; [lia|done|lia].
Qed.

Lemma forall_not_contains P s c : string_forall P s = true -> P c = false -> Contains s (String c "") = false.
Proof.
  intros Hs Hc. destruct (Contains s (String c "")) eqn:E; [|done].
  apply Contains_spec in E as (a & b & ->). rewrite !string_forall_app in Hs. reflect_bools.
  match goal with H : string_forall P (String c _) = true |- _ => cbn in H end. reflect_bools. congruence.
Qed.

Lemma generateID_valid t n : validateSessionID (generateID t n) = true.
Proof.
  unfold validateSessionID, generateID.
  assert (H : string_forall id_byte (Itoa t +:+ "-" +:+ Itoa n) = true).
  { by rewrite !string_forall_app, !Itoa_id_bytes. }
  rewrite (forall_not_contains _ _ "/" H), (forall_not_contains _ _ backslash H) by done.
  assert (Contains (Itoa t +:+ "-" +:+ Itoa n) ".." = false) as ->.
  { destruct (Contains _ "..") eqn:E; [|done]. apply Contains_spec in E as (a & b & E).
    rewrite E in H. rewrite !string_forall_app in H. cbn in H. by rewrite andb_false_r in H. }
  assert (String.eqb (Itoa t +:+ "-" +:+ Itoa n) "" = false) as ->; [|done].
  apply String.eqb_neq. intros E%(f_equal String.length). rewrite !string_length_app in E. cbn in E. lia.
Qed.

Lemma generateID_inj t n t' n' : (0 < n)%Z -> (0 < n')%Z -> generateID t n = generateID t' n' -> n = n'.
Proof.
  assert (Hbad : forall m d x, string_forall is_digit d = true -> d <> m +:+ "-" +:+ x).
  { intros m d x Hd ->. rewrite !string_forall_app in Hd. cbn in Hd. by rewrite andb_false_r in Hd. }
  unfold generateID. intros Hn%Itoa_pos_digits Hn'%Itoa_pos_digits [(m & _ & E)|(m & _ & E)]%app_cases;
    destruct m as [|c m]; cbn [String.append] in E; apply String_tail_inj in E as [_ E];
    [by apply Itoa_inj|by apply Hbad in E|by apply Itoa_inj|by apply Hbad in E].
Qed.

(** ** Creation *)

(** Every session has an id made from a counter value already used. *)
Definition Store_ok (st : Store) : Prop :=
  (0 <= st_nextID st)%Z /\
  forall id s, st_sessions st !! id = Some s ->
    se_ID s = id /\ validateSessionID id = true /\
    exists t n, id = generateID t n /\ (1 <= n <= st_nextID st)%Z.

(** What a creation does to the sessions and to the logs, on every branch. *)
Lemma Create_cases alive t1 t2 fault st name task st' r :
  Store_ok st -> Create alive t1 t2 fault st name task = (st', r) ->
  Store_ok st' /\
  match r with
  | inr s => st_sessions st !! se_ID s = None /\ validateSessionID (se_ID s) = true /\
             st_sessions st' = <[se_ID s := s]> (st_sessions st) /\ se_TurnCount s = 0%Z /\ se_Task s = task
  | inl _ => st_sessions st' = st_sessions st
  end /\
  forall id, is_Some (st_sessions st !! id) -> st_files st' !! logPath st' id = st_files st !! logPath st id.
Proof.
  intros [Hn Hok] HC. unfold Create in HC. destruct alive; cbn [negb] in HC; [|injection HC as <- <-; done].
  rewrite generateID_valid in HC. cbn [negb] in HC.
  set (n := (st_nextID st + 1)%Z) in *. set (id0 := generateID (t_nanos t1) n) in *.
  assert (Hfresh : st_sessions st !! id0 = None).
  { destruct (st_sessions st !! id0) as [s|] eqn:E; [|done]. apply Hok in E as (_ & _ & t & k & Hk & Hb).
    apply generateID_inj in Hk; lia. }
  assert (Hmono : Store_ok (st <| st_nextID := n |>)).
  { split; [cbn; lia|]. intros id s (? & ? & t & k & ? & ?)%Hok. split_and!; [done..|]. exists t, k. cbn. split; [done|lia]. }
  assert (Hmeta : forall id c, (<[metaPath st id0 := c]> (st_files st)) !! logPath st id = st_files st !! logPath st id).
  { intros id c. apply lookup_insert_ne, metaPath_logPath. }
  destruct fault; injection HC as <- <-; try (split_and!; [exact Hmono|done|intros; apply Hmeta || done]).
  split_and!; cbn; [split; cbn|..]; try done; try lia; [| |].
  - intros id s. destruct (decide (id = id0)) as [->|Hne].
    + rewrite lookup_insert_eq. intros [= <-]. cbn. split_and!; [done|apply generateID_valid|].
      exists (t_nanos t1), n. split; [done|lia].
    + rewrite lookup_insert_ne by done. apply Hmono.
  - apply generateID_valid.
  - intros id [s Hs]. change (logPath _ id) with (logPath st id). rewrite lookup_insert_ne; [apply Hmeta|].
    change (logPath _ id0) with (logPath st id0). intros ->%logPath_inj. congruence.
Qed.

(** Every session gets an id no other session has, whatever the clock says (even when
    it stands still or goes backwards), and an id that is safe as a directory name; a
    failed creation registers nothing; and no log of another session is touched. *)
Theorem Create_fresh alive t1 t2 fault st name task st' r :
  Store_ok st -> Create alive t1 t2 fault st name task = (st', r) ->
  Store_ok st' /\
  match r with
  | inr s => st_sessions st !! se_ID s = None /\ validateSessionID (se_ID s) = true /\
             st_sessions st' = <[se_ID s := s]> (st_sessions st) /\ se_TurnCount s = 0%Z /\ se_Task s = task
  | inl _ => st_sessions st' = st_sessions st
  end /\
  forall id, is_Some (st_sessions st !! id) -> st_files st' !! logPath st' id = st_files st !! logPath st id.
Proof. apply Create_cases. Qed.

(** ** Examples *)

Definition noon : Time := mkTime 1767268800000000000 "2026-01-01T12:00:00Z".
Definition empty_store : Store := mkStore "/s" 0 ∅ ∅.
Definition one_request : TurnRequest :=
  mkTurnRequest "1767268800000000000-1" 1 "a" "claude" "" (mkBudget 1000 10 0 0) "" "" None Task_zero None (Some []).
Definition one_record : TurnRecord := mkTurnRecord 1 "2026-01-01T12:00:00Z" one_request quiet_response.

(** A store with one session and an empty log. *)
Definition one_session : Store := fst (Create true noon noon CreateOk empty_store "pair" Task_zero).
Definition one_id : string := "1767268800000000000-1".

Lemma one_session_holds : log_holds one_session one_id [].
Proof.
  split; [vm_compute; by eexists|].
  exists "". split; [vm_compute; reflexivity|]. split; [by left|vm_compute; reflexivity].
Qed.

Lemma Append_Replay_witness :
  exists st', Append true noon LogOk one_session one_id one_request quiet_response = (st', None) /\
    Replay true true st' one_id = inr [one_record].
Proof.
  destruct (Append_Replay one_session one_id [] noon one_request quiet_response) as (st' & H1 & _ & H2 & _);
    [exact one_session_holds|vm_compute; reflexivity|vm_compute; reflexivity|]. exists st'. split; [exact H1|exact H2].
Defined.

Lemma Append_failures_witness :
  exists st', Append true noon LogSync one_session one_id one_request quiet_response = (st', Some SIO) /\
    log_holds st' one_id [one_record].
Proof.
  destruct (Append_failures one_session one_id [] noon one_request quiet_response) as (_ & st' & H1 & H2 & _);
    [exact one_session_holds|vm_compute; reflexivity|vm_compute; reflexivity|]. exists st'. split; [exact H1|exact H2].
Defined.

Lemma empty_store_ok : Store_ok empty_store.
Proof. split; [done|]. intros id s H. done. Qed.

Lemma Create_fresh_witness :
  exists st' r, Create true noon noon CreateOk empty_store "pair" Task_zero = (st', r) /\ Store_ok st'.
Proof.
  destruct (Create true noon noon CreateOk empty_store "pair" Task_zero) as [st' r] eqn:E.
  exists st', r. split; [reflexivity|].
  exact (proj1 (Create_fresh true noon noon CreateOk empty_store "pair" Task_zero st' r empty_store_ok E)).
Defined.

(** A short write makes the log unreadable.  The append reports an error, but the next
    one succeeds behind the torn line, and from then on [Replay] fails for the session. *)
Theorem Append_torn_record :
  let torn := Append true noon (LogWrite 40) one_session one_id one_request quiet_response in
  let later := Append true noon LogOk (fst torn) one_id one_request quiet_response in
  snd torn = Some SIO /\ snd later = None /\ Replay true true (fst later) one_id = inl SDecode.
Proof. split; [|split]; vm_compute; reflexivity. Qed.
