(* ===== verification/A2A.v ===== *)
(** * The A2A envelope

    The message types of [pkg/contract/a2a.go] and the strict decoding of a JSON-RPC
    request in [internal/broker/a2a.go]: which operation a request asks for, and the error
    code of a request that is refused.  The operations themselves are in [TurnLoop.v]. *)

From S2P Require Import Prelude GoStrings Json Codec AnyValue Contract.
From Stdlib Require Import Ascii String.
#[local] Open Scope string_scope.

(** ** Strict decoding *)

(** [DisallowUnknownFields]: a key of no field is an error. *)
Definition known_keys {R} (fs : list (Field R)) (l : list (string * json)) : bool :=
  forallb (fun kv => match find_field fs (fst kv) with Some _ => true | None => false end) l.

Definition into_strict {R} (fs : list (Field R)) : Into R := fun j cur =>
  match j with JObj l => if known_keys fs l then into_members fs l cur else None | _ => into_struct fs j cur end.

(** A [json.RawMessage], kept as it is. *)
Definition into_raw : Into (option json) := fun j cur => Some (Some j).
Definition opt_json (j : option json) : option json := j.

(** ** Types *)

(* src: pkg/contract/a2a.go 32-44 TaskState *)
Inductive TaskState : Set :=
  | TaskStateSubmitted | TaskStateWorking | TaskStateInputRequired | TaskStateCompleted | TaskStateFailed
  | TaskStateCanceled | TaskStateRejected.
#[global] Instance TaskState_eq_dec : EqDecision TaskState.
Proof. solve_decision. Defined.

(* src: pkg/contract/a2a.go 36-44 TaskState *)
Definition task_state_string (s : TaskState) : string :=
  match s with
  | TaskStateSubmitted => "submitted" | TaskStateWorking => "working" | TaskStateInputRequired => "input_required"
  | TaskStateCompleted => "completed" | TaskStateFailed => "failed" | TaskStateCanceled => "canceled"
  | TaskStateRejected => "rejected"
  end.

(* src: pkg/contract/a2a.go 46-53 TaskState.IsTerminal *)
Definition IsTerminal (s : TaskState) : bool :=
  match s with
  | TaskStateCompleted | TaskStateFailed | TaskStateCanceled | TaskStateRejected => true
  | _ => false
  end.

(* src: pkg/contract/a2a.go 115-126 A2APart *)
Record A2APart := mkPart { pt_Kind : string; pt_Text : string; pt_Data : option (list (string * json)) }.
#[export] Instance eta_A2APart : Eta A2APart := fun r => mkPart (pt_Kind r) (pt_Text r) (pt_Data r).

(* src: pkg/contract/a2a.go 128-132 A2AMessage *)
Record A2AMessage := mkMessage { ms_Role : string; ms_Parts : option (list A2APart) }.
#[export] Instance eta_A2AMessage : Eta A2AMessage := fun r => mkMessage (ms_Role r) (ms_Parts r).

(* src: pkg/contract/a2a.go 149-153 A2ATaskStatus *)
Record A2ATaskStatus := mkStatus { as_State : TaskState; as_Reason : string }.

(** No code path sets the artifact of an event or the messages and artifacts of a task. *)
(* src: pkg/contract/a2a.go 155-161 A2ATaskUpdateEvent *)
Record A2ATaskUpdateEvent := mkUpdate { ev_ID : string; ev_Status : A2ATaskStatus; ev_Final : bool }.

(* src: pkg/contract/a2a.go 140-147 A2ATask *)
Record A2ATask := mkA2ATask { at_ID : string; at_SessionID : string; at_Status : A2ATaskStatus }.

(* src: pkg/contract/a2a.go 163-174 JSONRPCRequest *)
Record JSONRPCRequest := mkRPC { rq_JSONRPC : string; rq_ID : option json; rq_Method : string; rq_Params : option json }.
#[export] Instance eta_JSONRPCRequest : Eta JSONRPCRequest :=
  fun r => mkRPC (rq_JSONRPC r) (rq_ID r) (rq_Method r) (rq_Params r).

(** [float_literal]: the floats of [AnyValue.v]. *)
Section Requests.
Variable float_literal : string -> option string.

(* src: pkg/contract/a2a.go 169-174 JSONRPCRequest *)
Definition JSONRPCRequest_fields : list (Field JSONRPCRequest) :=
  [ Tag "jsonrpc" rq_JSONRPC enc_string into_string;
    Tag "id" rq_ID opt_json (into_value float_literal);
    Tag "method" rq_Method enc_string into_string;
    Tag "params" rq_Params opt_json into_raw ].
Definition JSONRPCRequest_zero : JSONRPCRequest := mkRPC "" None "" None.

(* src: pkg/contract/a2a.go 122-126 A2APart *)
Definition A2APart_fields : list (Field A2APart) :=
  [ Tag "kind" pt_Kind enc_string into_string;
    Tag "text" pt_Text opt_string into_string;
    Tag "data" pt_Data opt_object (into_object float_literal) ].
Definition A2APart_zero : A2APart := mkPart "" "" None.

(* src: pkg/contract/a2a.go 129-132 A2AMessage *)
Definition A2AMessage_fields : list (Field A2AMessage) :=
  [ Tag "role" ms_Role enc_string into_string;
    Tag "parts" ms_Parts (enc_nilable (encode_struct A2APart_fields)) (into_nilable A2APart_zero (into_strict A2APart_fields)) ].
Definition A2AMessage_zero : A2AMessage := mkMessage "" None.

(* src: pkg/contract/a2a.go 176-179 SendMessageParams *)
Record SendMessageParams := mkSendParams { sp_Message : A2AMessage }.
#[export] Instance eta_SendMessageParams : Eta SendMessageParams := fun r => mkSendParams (sp_Message r).
(* src: pkg/contract/a2a.go 176-179 SendMessageParams *)
Definition SendMessageParams_fields : list (Field SendMessageParams) :=
  [ Tag "message" sp_Message (fun m => Some (encode_struct A2AMessage_fields m)) (into_strict A2AMessage_fields) ].

(* src: pkg/contract/a2a.go 181-184 TaskIDParams *)
Record TaskIDParams := mkTaskIDParams { ti_ID : string }.
#[export] Instance eta_TaskIDParams : Eta TaskIDParams := fun r => mkTaskIDParams (ti_ID r).
(* src: pkg/contract/a2a.go 181-184 TaskIDParams *)
Definition TaskIDParams_fields : list (Field TaskIDParams) := [ Tag "id" ti_ID enc_string into_string ].

(** ** Requests *)

(** Absent params are the zero value. *)
(* src: internal/broker/a2a.go 89-100 decodeParams *)
Definition decodeParams {R} (fs : list (Field R)) (zero : R) (raw : option json) : option R :=
  match raw with None => Some zero | Some j => into_strict fs j zero end.

(* src: internal/broker/a2a.go 370-382 textFromParts *)
Definition textFromParts (parts : list A2APart) : option string :=
  let texts := List.filter (fun t => negb (String.eqb t "")) (map pt_Text parts) in
  match texts with [] => None | _ => Some (Join texts " ") end.

(** What a request asks for, or the JSON-RPC error code it is refused with. *)
Inductive A2ACall : Set :=
  | CallSend (message : string) | CallSubscribe (id : string) | CallGet (id : string) | CallCancel (id : string)
  | CallRefused (code : Z).

(* src: internal/broker/a2a.go 354-368 taskIDFromParams *)
Definition taskIDFromParams (req : JSONRPCRequest) (call : string -> A2ACall) : A2ACall :=
  match decodeParams TaskIDParams_fields (mkTaskIDParams "") (rq_Params req) with
  | None => CallRefused (-32602)
  | Some p => if String.eqb (ti_ID p) "" then CallRefused (-32602) else call (ti_ID p)
  end.

(* src: internal/broker/a2a.go 129-138 Server.handleA2ASend *)
Definition send_call (req : JSONRPCRequest) : A2ACall :=
  match decodeParams SendMessageParams_fields (mkSendParams A2AMessage_zero) (rq_Params req) with
  | None => CallRefused (-32602)
  | Some p =>
      match textFromParts (default [] (ms_Parts (sp_Message p))) with
      | None => CallRefused (-32602)
      | Some message => CallSend message
      end
  end.

(* src: pkg/contract/a2a.go 16-30 MethodSendMessage *)
Definition is_method (m name legacy : string) : bool := String.eqb m name || String.eqb m legacy.

(** [body] is the first JSON value of the request body, [None] when there is none. *)
(* src: internal/broker/a2a.go 64-87 Server.handleA2A *)
Definition parse_a2a (body : option json) : A2ACall :=
  match body with
  | None => CallRefused (-32700)
  | Some j =>
      match into_strict JSONRPCRequest_fields j JSONRPCRequest_zero with
      | None => CallRefused (-32700)
      | Some req =>
          if is_method (rq_Method req) "SendMessage" "tasks/send" then send_call req
          else if is_method (rq_Method req) "SubscribeToTask" "tasks/sendSubscribe" then taskIDFromParams req CallSubscribe
          else if is_method (rq_Method req) "GetTask" "tasks/get" then taskIDFromParams req CallGet
          else if is_method (rq_Method req) "CancelTask" "tasks/cancel" then taskIDFromParams req CallCancel
          else CallRefused (-32601)
      end
  end.

End Requests.

(* src: internal/broker/a2a.go 408-416 terminalReasonToTaskState *)
Definition terminalReasonToTaskState (terminal : bool) (reason : string) : TaskState :=
  if negb terminal then TaskStateWorking
  else if String.eqb reason "canceled" then TaskStateCanceled
  else TaskStateCompleted.

(** ** Properties *)

Section Parsing.
Variable float_literal : string -> option string.
#[local] Abbreviation JSONRPCRequest_fields := (JSONRPCRequest_fields float_literal).
#[local] Abbreviation send_call := (send_call float_literal).
#[local] Abbreviation parse_a2a := (parse_a2a float_literal).

Definition call_id (c : A2ACall) : option string :=
  match c with CallSubscribe id | CallGet id | CallCancel id => Some id | _ => None end.

(** A request for the task [id], with further members in its params. *)
Definition task_request (method id : string) (extra : list (string * json)) : json :=
  JObj [("jsonrpc", JStr "2.0"); ("id", JNum "1"); ("method", JStr method);
        ("params", JObj (("id", JStr id) :: extra))].

Lemma parse_task_request method id extra :
  parse_a2a (Some (task_request method id extra)) =
    let req := mkRPC "2.0" (Some (JNum "1")) method (Some (JObj (("id", JStr id) :: extra))) in
    if is_method method "SendMessage" "tasks/send" then send_call req
    else if is_method method "SubscribeToTask" "tasks/sendSubscribe" then taskIDFromParams req CallSubscribe
    else if is_method method "GetTask" "tasks/get" then taskIDFromParams req CallGet
    else if is_method method "CancelTask" "tasks/cancel" then taskIDFromParams req CallCancel
    else CallRefused (-32601).
Proof. reflexivity. Qed.

(** A task id is no parameter of [SendMessage]. *)
Lemma send_call_task_id a b m id extra : send_call (mkRPC a b m (Some (JObj (("id", JStr id) :: extra)))) = CallRefused (-32602).
Proof. reflexivity. Qed.

Lemma taskIDFromParams_unknown a b m id extra call : known_keys TaskIDParams_fields extra = false ->
  taskIDFromParams (mkRPC a b m (Some (JObj (("id", JStr id) :: extra)))) call = CallRefused (-32602).
Proof.
  intros Hx. unfold taskIDFromParams, decodeParams, into_strict. cbn [rq_Params].
  assert (known_keys TaskIDParams_fields (("id", JStr id) :: extra) = false) as -> by exact Hx. done.
Qed.

Lemma taskIDFromParams_cases req call :
  taskIDFromParams req call = CallRefused (-32602) \/ exists id, id <> "" /\ taskIDFromParams req call = call id.
Proof.
  unfold taskIDFromParams. destruct (decodeParams _ _ _) as [p|]; [|by left].
  destruct (String.eqb_spec (ti_ID p) ""); [by left|right; eauto].
Qed.

Lemma send_call_cases req :
  send_call req = CallRefused (-32602) \/ exists message, send_call req = CallSend message.
Proof.
  unfold send_call. destruct (decodeParams _ _ _) as [p|]; [|by left]. destruct (textFromParts _); eauto.
Qed.

Lemma known_keys_app {R} (fs : list (Field R)) l l' : known_keys fs (l ++ l') = known_keys fs l && known_keys fs l'.
Proof. unfold known_keys. by rewrite forallb_app. Qed.

Lemma parse_a2a_cases body :
  (exists code, parse_a2a body = CallRefused code /\ (code = (-32700)%Z \/ code = (-32601)%Z \/ code = (-32602)%Z)) \/
  (exists message, parse_a2a body = CallSend message) \/
  (exists id, id <> "" /\ (parse_a2a body = CallSubscribe id \/ parse_a2a body = CallGet id \/ parse_a2a body = CallCancel id)).
Proof.
  unfold parse_a2a. destruct body as [j|]; [|left; eauto].
  destruct (into_strict _ _ _) as [req|]; [|left; eauto].
  pose proof (send_call_cases req) as HS. pose proof (taskIDFromParams_cases req) as HT.
  destruct (is_method (rq_Method req) "SendMessage" "tasks/send"); [naive_solver eauto|].
  destruct (is_method (rq_Method req) "SubscribeToTask" "tasks/sendSubscribe"); [specialize (HT CallSubscribe); naive_solver eauto|].
  destruct (is_method (rq_Method req) "GetTask" "tasks/get"); [specialize (HT CallGet); naive_solver eauto|].
  destruct (is_method (rq_Method req) "CancelTask" "tasks/cancel"); [specialize (HT CallCancel); naive_solver eauto|left; eauto].
Qed.

(** The envelope is decoded strictly.  A request for a task reaches the operation its
    method names, by the v1.0 name or the legacy one; an operation never gets an empty
    id; a key that is no field, beside the envelope's or beside the id, is refused with
    -32700 and -32602; and every refusal has one of the three JSON-RPC codes. *)
Theorem parse_a2a_spec :
  (forall method id, id <> "" ->
     parse_a2a (Some (task_request method id [])) =
       if is_method method "SendMessage" "tasks/send" then CallRefused (-32602)
       else if is_method method "SubscribeToTask" "tasks/sendSubscribe" then CallSubscribe id
       else if is_method method "GetTask" "tasks/get" then CallGet id
       else if is_method method "CancelTask" "tasks/cancel" then CallCancel id
       else CallRefused (-32601)) /\
  (forall body id, call_id (parse_a2a body) = Some id -> id <> "") /\
  (forall l, known_keys JSONRPCRequest_fields l = false -> parse_a2a (Some (JObj l)) = CallRefused (-32700)) /\
  (forall method id extra, known_keys TaskIDParams_fields extra = false ->
     call_id (parse_a2a (Some (task_request method id extra))) = None) /\
  (forall body code, parse_a2a body = CallRefused code -> code = (-32700)%Z \/ code = (-32601)%Z \/ code = (-32602)%Z).
Proof.
  split_and!.
  - intros method id Hid%String.eqb_neq. rewrite parse_task_request. cbv zeta. rewrite send_call_task_id.
    unfold taskIDFromParams. cbn. by rewrite Hid.
  - intros body id. destruct (parse_a2a_cases body) as [(? & -> & _)|[(? & ->)|(i & Hi & [->|[->| ->]])]]; naive_solver.
  - intros l Hl. unfold parse_a2a, into_strict. by rewrite Hl.
  - intros method id extra Hx. rewrite parse_task_request. cbv zeta. rewrite send_call_task_id.
    rewrite !taskIDFromParams_unknown by done. by repeat case_match.
  - intros body code. destruct (parse_a2a_cases body) as [(? & -> & ?)|[(? & ->)|(i & Hi & [->|[->| ->]])]]; naive_solver.
Qed.
End Parsing.
