(* ===== verification/Mcp.v ===== *)
(** * The MCP server: wire types and dispatch

    [pkg/contract/mcp.go] and the dispatch of [internal/broker/mcp.go]: the JSON-RPC
    envelope, the tools advertised, the five rally tools with their strict arguments, and
    the answer to each request.  The tools act on the rallies of [Rally.v]; a join leaves
    the handler waiting on a channel.  The transport is in [McpTransport.v]. *)

From S2P Require Import Prelude GoStrings Json Codec AnyValue Contract A2A Rally.
From Stdlib Require Import Ascii String.
#[local] Open Scope string_scope.

(** ** Wire types *)

Section Any.
Variable float_literal : string -> option string.
#[local] Abbreviation into_value := (AnyValue.into_value float_literal).
#[local] Abbreviation into_object := (AnyValue.into_object float_literal).

(* src: pkg/contract/mcp.go 12-18 MCPJSONRPCRequest *)
Record MCPJSONRPCRequest := mkMCPRequest { mq_JSONRPC : string; mq_ID : option json; mq_Method : string; mq_Params : option json }.
#[export] Instance eta_MCPJSONRPCRequest : Eta MCPJSONRPCRequest :=
  fun r => mkMCPRequest (mq_JSONRPC r) (mq_ID r) (mq_Method r) (mq_Params r).

(* src: pkg/contract/mcp.go 12-18 MCPJSONRPCRequest *)
Definition MCPJSONRPCRequest_fields : list (Field MCPJSONRPCRequest) :=
  [ Tag "jsonrpc" mq_JSONRPC enc_string into_string;
    Tag "id" mq_ID opt_json into_value;
    Tag "method" mq_Method enc_string into_string;
    Tag "params" mq_Params opt_json into_raw ].
Definition MCPJSONRPCRequest_zero : MCPJSONRPCRequest := mkMCPRequest "" None "" None.

(* src: pkg/contract/mcp.go 28-33 MCPJSONRPCError *)
Record MCPJSONRPCError := mkMCPError { me_Code : Z; me_Message : string; me_Data : option json }.
#[export] Instance eta_MCPJSONRPCError : Eta MCPJSONRPCError := fun r => mkMCPError (me_Code r) (me_Message r) (me_Data r).
(* src: pkg/contract/mcp.go 28-33 MCPJSONRPCError *)
Definition MCPJSONRPCError_fields : list (Field MCPJSONRPCError) :=
  [ Tag "code" me_Code enc_int into_int;
    Tag "message" me_Message enc_string into_string;
    Tag "data" me_Data opt_json into_value ].
Definition MCPJSONRPCError_zero : MCPJSONRPCError := mkMCPError 0 "" None.

(* src: pkg/contract/mcp.go 20-26 MCPJSONRPCResponse *)
Record MCPJSONRPCResponse := mkMCPResponse {
  mr_JSONRPC : string; mr_ID : option json; mr_Result : option (list (string * json)); mr_Error : option MCPJSONRPCError }.
#[export] Instance eta_MCPJSONRPCResponse : Eta MCPJSONRPCResponse :=
  fun r => mkMCPResponse (mr_JSONRPC r) (mr_ID r) (mr_Result r) (mr_Error r).
(* src: pkg/contract/mcp.go 20-26 MCPJSONRPCResponse *)
Definition MCPJSONRPCResponse_fields : list (Field MCPJSONRPCResponse) :=
  [ Tag "jsonrpc" mr_JSONRPC enc_string into_string;
    Tag "id" mr_ID opt_json into_value;
    Tag "result" mr_Result opt_object into_object;
    Tag "error" mr_Error (opt_ptr (encode_struct MCPJSONRPCError_fields)) (into_ptr MCPJSONRPCError_zero (into_struct MCPJSONRPCError_fields)) ].
Definition MCPJSONRPCResponse_zero : MCPJSONRPCResponse := mkMCPResponse "" None None None.
End Any.

(* src: pkg/contract/mcp.go 47-50 MCPCapabilities *)
Record MCPCapabilities := mkMCPCapabilities { cap_Tools : option (list (string * json)) }.
Definition enc_capabilities (c : MCPCapabilities) : json :=
  JObj (match opt_object (cap_Tools c) with Some t => [("tools", t)] | None => [] end).

(* src: pkg/contract/mcp.go 41-45 MCPServerInfo *)
Record MCPServerInfo := mkMCPServerInfo { si_Name : string; si_Version : string }.
Definition enc_server_info (s : MCPServerInfo) : json := JObj [("name", JStr (si_Name s)); ("version", JStr (si_Version s))].

(* src: pkg/contract/mcp.go 66-71 MCPToolInputSchema *)
Record MCPToolInputSchema := mkSchema { sc_Type : string; sc_Properties : list (string * json); sc_Required : list string }.
Definition enc_schema (s : MCPToolInputSchema) : json :=
  JObj (("type", JStr (sc_Type s)) :: ("properties", JObj (go_map (sc_Properties s))) ::
        match sc_Required s with [] => [] | l => [("required", JArr (map JStr l))] end).

(* src: pkg/contract/mcp.go 73-78 MCPTool *)
Record MCPTool := mkTool { tl_Name : string; tl_Description : string; tl_InputSchema : MCPToolInputSchema }.
Definition enc_tool (t : MCPTool) : json :=
  JObj [("name", JStr (tl_Name t)); ("description", JStr (tl_Description t)); ("inputSchema", enc_schema (tl_InputSchema t))].

(* src: pkg/contract/mcp.go 85-89 MCPToolCallRequest *)
Record MCPToolCallRequest := mkToolCall { tc_Name : string; tc_Arguments : option json }.
#[export] Instance eta_MCPToolCallRequest : Eta MCPToolCallRequest := fun r => mkToolCall (tc_Name r) (tc_Arguments r).
(** A nil [RawMessage] is printed as [null]. *)
(* src: pkg/contract/mcp.go 85-89 MCPToolCallRequest *)
Definition MCPToolCallRequest_fields : list (Field MCPToolCallRequest) :=
  [ Tag "name" tc_Name enc_string into_string;
    Tag "arguments" tc_Arguments (fun a => Some (default JNull a)) into_raw ].
Definition MCPToolCallRequest_zero : MCPToolCallRequest := mkToolCall "" None.

(* src: pkg/contract/mcp.go 99-103 MCPContent *)
Definition text_content (text : string) : json := JObj [("type", JStr "text"); ("text", JStr text)].

(* src: pkg/contract/mcp.go 119-124 RallyJoinToolArgs *)
Record RallyJoinToolArgs := mkJoinArgs { ja_SessionID : string; ja_As : string; ja_TimeoutMS : Z }.
#[export] Instance eta_RallyJoinToolArgs : Eta RallyJoinToolArgs := fun r => mkJoinArgs (ja_SessionID r) (ja_As r) (ja_TimeoutMS r).
(* src: pkg/contract/mcp.go 119-124 RallyJoinToolArgs *)
Definition RallyJoinToolArgs_fields : list (Field RallyJoinToolArgs) :=
  [ Tag "session_id" ja_SessionID enc_string into_string;
    Tag "as" ja_As enc_string into_string;
    Tag "timeout_ms" ja_TimeoutMS opt_int into_int ].
Definition RallyJoinToolArgs_zero := mkJoinArgs "" "" 0.

(* src: pkg/contract/mcp.go 126-132 RallyDoneToolArgs *)
Record RallyDoneToolArgs := mkDoneArgs { da_SessionID : string; da_As : string; da_Note : string; da_HandoffTo : string }.
#[export] Instance eta_RallyDoneToolArgs : Eta RallyDoneToolArgs :=
  fun r => mkDoneArgs (da_SessionID r) (da_As r) (da_Note r) (da_HandoffTo r).
(* src: pkg/contract/mcp.go 126-132 RallyDoneToolArgs *)
Definition RallyDoneToolArgs_fields : list (Field RallyDoneToolArgs) :=
  [ Tag "session_id" da_SessionID enc_string into_string;
    Tag "as" da_As enc_string into_string;
    Tag "note" da_Note opt_string into_string;
    Tag "handoff_to" da_HandoffTo opt_string into_string ].
Definition RallyDoneToolArgs_zero := mkDoneArgs "" "" "" "".

(** [RallyStatusToolArgs] and [RallyInterruptToolArgs] have the same field. *)
(* src: pkg/contract/mcp.go 134-137 RallyStatusToolArgs *)
Record RallySessionToolArgs := mkSessionArgs { sa_SessionID : string }.
#[export] Instance eta_RallySessionToolArgs : Eta RallySessionToolArgs := fun r => mkSessionArgs (sa_SessionID r).
(* src: pkg/contract/mcp.go 139-142 RallyInterruptToolArgs *)
Definition RallySessionToolArgs_fields : list (Field RallySessionToolArgs) := [ Tag "session_id" sa_SessionID enc_string into_string ].
Definition RallySessionToolArgs_zero := mkSessionArgs "".

(** ** What the tools return *)

(* src: pkg/contract/rally.go 189-200 BatonEvent *)
#[export] Instance eta_BatonEvent : Eta BatonEvent := fun r => mkBatonEvent (be_TurnN r) (be_From r) (be_Note r) (be_Closed r).
(* src: pkg/contract/rally.go 189-200 BatonEvent *)
Definition BatonEvent_fields : list (Field BatonEvent) :=
  [ Tag "turn_n" be_TurnN enc_int into_int;
    Tag "from" be_From opt_string into_string;
    Tag "note" be_Note opt_string into_string;
    Tag "closed" be_Closed opt_bool into_bool ].
Definition BatonEvent_zero := mkBatonEvent 0 "" "" false.

#[export] Instance eta_BatonHandoff : Eta BatonHandoff := fun r => mkBatonHandoff (h_From r) (h_To r) (h_TurnN r) (h_Note r) (h_At r).
(* src: pkg/contract/rally.go 175-187 BatonHandoff *)
Definition BatonHandoff_fields : list (Field BatonHandoff) :=
  [ Tag "from" h_From enc_string into_string;
    Tag "to" h_To enc_string into_string;
    Tag "turn_n" h_TurnN enc_int into_int;
    Tag "note" h_Note opt_string into_string;
    Tag "at" h_At enc_int into_int ].
Definition BatonHandoff_zero := mkBatonHandoff "" "" 0 "" 0.

(** A [map[string]int64]: printed in the order of its keys, read into the map there is. *)
Definition map_keys (m : gmap string Z) : list string := sort_strings (elements (dom m)).
Definition enc_int_map (m : gmap string Z) : option json :=
  Some (JObj (map (fun k => (k, JNum (Itoa (default 0%Z (m !! k))))) (map_keys m))).
Fixpoint into_int_members (l : list (string * json)) (m : gmap string Z) : option (gmap string Z) :=
  match l with
  | [] => Some m
  | (k, j) :: r => match into_int j 0%Z with Some z => into_int_members r (<[k := z]> m) | None => None end
  end.
Definition into_int_map : Into (gmap string Z) := fun j cur =>
  match j with JNull => Some ∅ | JObj l => into_int_members l cur | _ => None end.
Definition enc_slice {A} (f : A -> json) (l : list A) : option json := Some (JArr (map f l)).

(** No slice and no map of a snapshot is nil. *)
(* src: pkg/contract/rally.go 225-247 RallySession *)
Definition RallySession_fields : list (Field RallySession) :=
  [ Tag "id" rs_ID enc_string into_string;
    Tag "participants" rs_Participants (enc_slice JStr) (into_slice "" into_string);
    Tag "repo" rs_Repo opt_string into_string;
    Tag "task" rs_Task opt_string into_string;
    Tag "holder" rs_Holder enc_string into_string;
    Tag "turn_n" rs_TurnN enc_int into_int;
    Tag "status" rs_Status enc_string into_string;
    Tag "last_seen" rs_LastSeen enc_int_map into_int_map;
    Tag "history" rs_History (enc_slice (encode_struct BatonHandoff_fields)) (into_slice BatonHandoff_zero (into_struct BatonHandoff_fields));
    Tag "created_at" rs_CreatedAt enc_int into_int ].
Definition RallySession_zero : RallySession := mkRallySession "" [] "" "" "" 0 "" ∅ [] 0.

Inductive ToolValue : Type := VSession (s : RallySession) | VEvent (e : BatonEvent) | VTimeout.

(* src: pkg/contract/mcp.go 144-147 MCPTimeoutResult *)
Definition value_json (v : ToolValue) : json :=
  match v with
  | VSession s => encode_struct RallySession_fields s
  | VEvent e => encode_struct BatonEvent_fields e
  | VTimeout => JObj [("timeout", JBool true)]
  end.

(** Why a tool failed: an error of the rally, arguments that do not fit, or the end of the
    request's context. *)
Inductive ToolFailure : Set := TRally (e : RallyError) | TArguments | TContext.

(** ** The tools advertised *)

Definition type_ (t : string) : json := JObj [("type", JStr t)].

(* src: internal/broker/mcp.go 247-309 mcpToolsList *)
Definition mcp_tools : list MCPTool :=
  [ mkTool "rally_create" "Create a new rally baton-passing session."
      (mkSchema "object"
         [ ("participants", JObj [("type", JStr "array"); ("items", type_ "string")]); ("repo", type_ "string");
           ("task", type_ "string"); ("first_holder", type_ "string") ] ["participants"]);
    mkTool "rally_join" "Wait until the baton is passed to the named participant. Returns a BatonEvent or a timeout marker."
      (mkSchema "object"
         [ ("session_id", type_ "string"); ("as", type_ "string");
           ("timeout_ms", JObj [("type", JStr "integer"); ("default", JNum "30000")]) ] ["session_id"; "as"]);
    mkTool "rally_done" "Pass the baton to the next participant."
      (mkSchema "object"
         [ ("session_id", type_ "string"); ("as", type_ "string"); ("note", type_ "string"); ("handoff_to", type_ "string") ]
         ["session_id"; "as"]);
    mkTool "rally_status" "Get the current snapshot of a rally session."
      (mkSchema "object" [ ("session_id", type_ "string") ] ["session_id"]);
    mkTool "rally_interrupt" "Forcibly interrupt a rally session and close all streams."
      (mkSchema "object" [ ("session_id", type_ "string") ] ["session_id"]) ].

(** ** The dispatch *)

(** The clock and the random bytes a call reads. *)
Record Inputs := mkInputs { in_now : Z; in_now2 : Z; in_rand : option string }.

(** [json.Decoder] with [DisallowUnknownFields] on the raw arguments; absent ones are no value. *)
Definition arguments {R} (fs : list (Field R)) (zero : R) (raw : option json) : option R :=
  match raw with None => None | Some j => into_strict fs j zero end.

(** The outcome of a tool: a value or a failure, or a join that waits on its channel, for
    so many nanoseconds. *)
Inductive ToolOutcome : Type := Returns (v : ToolValue) | Fails (e : ToolFailure) | Waits (ch : nat) (timeout : Z).

Definition of_session {E} (f : E -> RallyError) (r : E + RallySession) : ToolOutcome :=
  match r with inl e => Fails (TRally (f e)) | inr s => Returns (VSession s) end.

(* src: internal/broker/mcp.go 381-389 mcpToolRallyCreate *)
Definition rally_create (inp : Inputs) (st : Rallies) (args : option json) : option (Rallies * ToolOutcome) :=
  match arguments NewRallyRequest_fields (mkNewRallyRequest [] "" "" "") args with
  | None => Some (st, Fails TArguments)
  | Some req => let '(st, r) := createRallySession (in_now inp) (in_now2 inp) (in_rand inp) st req in Some (st, of_session id r)
  end.

(* src: internal/broker/mcp.go 391-407 mcpToolRallyDone *)
Definition rally_done (inp : Inputs) (st : Rallies) (args : option json) : option (Rallies * ToolOutcome) :=
  match arguments RallyDoneToolArgs_fields RallyDoneToolArgs_zero args with
  | None => Some (st, Fails TArguments)
  | Some p => match mcpToolRallyDone (in_now inp) st (da_SessionID p) (da_As p) (da_Note p) (da_HandoffTo p) with
              | None => None
              | Some (st, r) => Some (st, of_session Typed r)
              end
  end.

(* src: internal/broker/mcp.go 409-421 mcpToolRallyStatus *)
Definition rally_status (inp : Inputs) (st : Rallies) (args : option json) : option (Rallies * ToolOutcome) :=
  match arguments RallySessionToolArgs_fields RallySessionToolArgs_zero args with
  | None => Some (st, Fails TArguments)
  | Some p => Some (st, of_session Typed (mcpToolRallyStatus (in_now inp) st (sa_SessionID p)))
  end.

(* src: internal/broker/mcp.go 423-435 mcpToolRallyInterrupt *)
Definition rally_interrupt (inp : Inputs) (st : Rallies) (args : option json) : option (Rallies * ToolOutcome) :=
  match arguments RallySessionToolArgs_fields RallySessionToolArgs_zero args with
  | None => Some (st, Fails TArguments)
  | Some p => match mcpToolRallyInterrupt (in_now inp) st (sa_SessionID p) with
              | None => None
              | Some (st, r) => Some (st, of_session Typed r)
              end
  end.

(* src: internal/broker/mcp.go 437-516 mcpToolRallyJoin *)
Definition rally_join (inp : Inputs) (st : Rallies) (args : option json) : option (Rallies * ToolOutcome) :=
  match arguments RallyJoinToolArgs_fields RallyJoinToolArgs_zero args with
  | None => Some (st, Fails TArguments)
  | Some p =>
      match mcpToolRallyJoin (in_now inp) st (ja_SessionID p) (ja_As p) with
      | None => None
      | Some (st, inl e) => Some (st, Fails (TRally e))
      | Some (st, inr (JoinStream ch)) => Some (st, Waits ch (mcp_join_timeout (ja_TimeoutMS p)))
      | Some (st, inr _) => Some (st, Returns (VEvent close_event))
      end
  end.

(* src: internal/broker/mcp.go 323-354 Server.mcpToolCall *)
Definition tool_named (name : string) : option (Inputs -> Rallies -> option json -> option (Rallies * ToolOutcome)) :=
  if String.eqb name "rally_create" then Some rally_create
  else if String.eqb name "rally_join" then Some rally_join
  else if String.eqb name "rally_done" then Some rally_done
  else if String.eqb name "rally_status" then Some rally_status
  else if String.eqb name "rally_interrupt" then Some rally_interrupt
  else None.

(** What the [select] of a join returns for what it received. *)
(* src: internal/broker/mcp.go 518-540 mcpToolRallyJoin *)
Definition join_outcome (d : Delivery) : ToolOutcome :=
  match d with
  | Event ev => Returns (VEvent ev)
  | CloseSentinel => Returns (VEvent close_event)
  | Timeout => Returns VTimeout
  | Nothing | Ping => Fails TContext
  end.

Section Dispatch.
Variable float_literal : string -> option string.
(** The version of the build, and the messages of two kinds of error: that of decoding these
    bytes, that of a call of a tool. *)
Variable version : string.
Variable unmarshal_text : string -> string.
Variable failure_text : MCPToolCallRequest -> ToolFailure -> string.

(* src: internal/broker/mcp.go 219-225 mcpErrorResponse *)
Definition mcpErrorResponse (id : option json) (code : Z) (message : string) (data : option json) : MCPJSONRPCResponse :=
  mkMCPResponse "2.0" id None (Some (mkMCPError code message data)).

(* src: internal/broker/mcp.go 227-245 mcpInitialize *)
Definition mcpInitialize (req : MCPJSONRPCRequest) : MCPJSONRPCResponse :=
  mkMCPResponse "2.0" (mq_ID req)
    (Some [ ("protocolVersion", JStr "2025-03-26"); ("capabilities", enc_capabilities (mkMCPCapabilities (Some [])));
            ("serverInfo", enc_server_info (mkMCPServerInfo "rallish" version)) ]) None.

(* src: internal/broker/mcp.go 247-317 mcpToolsList *)
Definition mcpToolsList (req : MCPJSONRPCRequest) : MCPJSONRPCResponse :=
  mkMCPResponse "2.0" (mq_ID req) (Some [("tools", JArr (map enc_tool mcp_tools))]) None.

(** [json.Marshal] of the three kinds of value has no error. *)
(* src: internal/broker/mcp.go 356-368 mcpToolSuccessResponse *)
Definition mcpToolSuccessResponse (id : option json) (v : ToolValue) : MCPJSONRPCResponse :=
  mkMCPResponse "2.0" id (Some [("content", JArr [text_content (encode (value_json v))])]) None.

(* src: internal/broker/mcp.go 370-379 mcpToolErrorResponse *)
Definition mcpToolErrorResponse (id : option json) (text : string) : MCPJSONRPCResponse :=
  mkMCPResponse "2.0" id (Some [("content", JArr [text_content text]); ("isError", JBool true)]) None.

(** The answer to a call, or the wait of a join that [call] asked for. *)
Inductive Dispatched : Type := Answer (resp : MCPJSONRPCResponse) | Waiting (call : MCPToolCallRequest) (ch : nat) (timeout : Z).

(* src: internal/broker/mcp.go 349-353 Server.mcpToolCall *)
Definition tool_answer (id : option json) (call : MCPToolCallRequest) (o : ToolOutcome) : Dispatched :=
  match o with
  | Returns v => Answer (mcpToolSuccessResponse id v)
  | Fails e => Answer (mcpToolErrorResponse id (failure_text call e))
  | Waits ch timeout => Waiting call ch timeout
  end.

(* src: internal/broker/mcp.go 323-354 Server.mcpToolCall *)
Definition mcpToolCall (inp : Inputs) (st : Rallies) (req : MCPJSONRPCRequest) : option (Rallies * Dispatched) :=
  match (match mq_Params req with Some j => into_struct MCPToolCallRequest_fields j MCPToolCallRequest_zero | None => None end) with
  | None => Some (st, Answer (mcpErrorResponse (mq_ID req) (-32602) "Invalid params"
                                (Some (JStr (unmarshal_text (match mq_Params req with Some j => encode j | None => "" end))))))
  | Some call =>
      match tool_named (tc_Name call) with
      | None => Some (st, Answer (mcpErrorResponse (mq_ID req) (-32602) "Unknown tool" (Some (JStr (tc_Name call)))))
      | Some tool =>
          match tool inp st (tc_Arguments call) with
          | None => None
          | Some (st, o) => Some (st, tool_answer (mq_ID req) call o)
          end
      end
  end.

(** [None] is a panic. *)
(* src: internal/broker/mcp.go 199-217 Server.dispatchMCP *)
Definition dispatchMCP (inp : Inputs) (st : Rallies) (req : MCPJSONRPCRequest) : option (Rallies * Dispatched) :=
  if String.eqb (mq_Method req) "initialize" then Some (st, Answer (mcpInitialize req))
  else if String.eqb (mq_Method req) "notifications/initialized" then Some (st, Answer (mkMCPResponse "2.0" (mq_ID req) None None))
  else if String.eqb (mq_Method req) "tools/list" then Some (st, Answer (mcpToolsList req))
  else if String.eqb (mq_Method req) "tools/call" then mcpToolCall inp st req
  else Some (st, Answer (mcpErrorResponse (mq_ID req) (-32601) "Method not found" None)).

(** The body of a message: the request it holds, or the answer to one that is none. *)
(* src: internal/broker/mcp.go 179-190 Server.handleMCPMessage *)
Definition parse_message (body : string) : MCPJSONRPCResponse + MCPJSONRPCRequest :=
  match Unmarshal MCPJSONRPCRequest_zero (into_struct (MCPJSONRPCRequest_fields float_literal)) body with
  | None => inl (mcpErrorResponse None (-32700) "Parse error" (Some (JStr (unmarshal_text body))))
  | Some req => inr req
  end.
End Dispatch.

(** ** The tools keep to what is advertised *)

Lemma find_field_fold {R} (fs : list (Field R)) k f : find_field fs k = Some f -> In f fs /\ fold_name (f_name f) = fold_name k.
Proof.
  unfold find_field. destruct (List.find _ fs) as [g|] eqn:E.
  - intros [= <-]. apply find_some in E as [Hg ->%String.eqb_eq]. done.
  - intros Hf. apply find_some in Hf as [Hg Hn%String.eqb_eq]. done.
Qed.

(** A field that no key of the object names keeps its value. *)
Lemma into_members_keeps {R B} (get : R -> B) (fs : list (Field R)) l cur r :
  (forall kv f, In kv l -> find_field fs (fst kv) = Some f -> forall v c, get (f_set f v c) = get c) ->
  into_members fs l cur = Some r -> get r = get cur.
Proof.
  revert cur. induction l as [|kv l IH]; intros cur Hk H; cbn [into_members] in H; [by simplify_eq|].
  unfold into_member in H. destruct (find_field fs (fst kv)) as [f|] eqn:Ef.
  - destruct (f_dec f (snd kv) (f_get f cur)) as [v|]; cbn [option_map] in H; [|done].
    apply IH in H; [|intros kv' f' Hin; apply Hk; by right]. rewrite H. by apply (Hk kv); [left|].
  - apply IH in H; [done|]. intros kv' f' Hin. apply Hk. by right.
Qed.

(** No key of the object is, up to case, [name]. *)
Definition lacks (name : string) (l : list (string * json)) : bool :=
  forallb (fun kv => negb (String.eqb (fold_name (fst kv)) name)) l.

(** A key of the object is none of the properties of a schema. *)
Definition has_extra (s : MCPToolInputSchema) (l : list (string * json)) : bool :=
  existsb (fun kv => negb (existsb (fun p => String.eqb (fold_name (fst kv)) (fst p)) (sc_Properties s))) l.

Lemma lacks_keeps {R B} (get : R -> B) (fs : list (Field R)) name l cur r :
  (forall f, In f fs -> fold_name (f_name f) <> name -> forall v c, get (f_set f v c) = get c) ->
  lacks name l = true -> into_members fs l cur = Some r -> get r = get cur.
Proof.
  intros Hi Hl. apply into_members_keeps. intros kv f Hin [Hf Hn]%find_field_fold. apply Hi; [done|].
  unfold lacks in Hl. rewrite forallb_forall in Hl. specialize (Hl kv Hin). apply negb_true_iff, String.eqb_neq in Hl. congruence.
Qed.

(** The keys of the argument struct are the properties of the schema. *)
Definition schema_of {R} (fs : list (Field R)) (s : MCPToolInputSchema) : Prop :=
  map f_name fs = map fst (sc_Properties s) /\ Forall (fun p => fold_name (fst p) = fst p) (sc_Properties s).

Lemma extra_refused {R} (fs : list (Field R)) zero s l : schema_of fs s -> has_extra s l = true -> arguments fs zero (Some (JObj l)) = None.
Proof.
  intros [Hn Hp] Hx. unfold arguments, into_strict. assert (known_keys fs l = false) as ->; [|done].
  apply not_true_iff_false. unfold known_keys. rewrite forallb_forall. intros Hall. unfold has_extra in Hx. apply existsb_exists in Hx as (kv & Hin & Hk).
  specialize (Hall kv Hin). destruct (find_field fs (fst kv)) as [f|] eqn:Ef; [|done]. apply find_field_fold in Ef as [Hf Hfold].
  apply negb_true_iff, not_true_iff_false in Hk. apply Hk, existsb_exists.
  assert (In (f_name f) (map fst (sc_Properties s))) as (p & Hp1 & Hp2)%in_map_iff by (rewrite <-Hn; by apply in_map).
  exists p. split; [done|]. apply String.eqb_eq. rewrite Forall_forall in Hp. rewrite <-Hfold, <-Hp1. apply Hp. by apply list_elem_of_In.
Qed.

Lemma arguments_lacks {R B} (get : R -> B) (fs : list (Field R)) zero name l r :
  (forall f, In f fs -> fold_name (f_name f) <> name -> forall v c, get (f_set f v c) = get c) ->
  lacks name l = true -> arguments fs zero (Some (JObj l)) = Some r -> get r = get zero.
Proof.
  intros Hi Hl. unfold arguments, into_strict. destruct (known_keys fs l); [|done]. intros Hm. by eapply lacks_keeps.
Qed.

Lemma tool_named_served name : is_Some (tool_named name) <-> In name (map tl_Name mcp_tools).
Proof.
  unfold tool_named. cbn [map mcp_tools tl_Name In]. split.
  - intros H. repeat (case_match; [match goal with E : String.eqb _ _ = true |- _ => apply String.eqb_eq in E as -> end; tauto|]).
    by destruct H.
  - intros H. by decompose [or] H; subst.
Qed.

Lemma schema_of_ok {R} (fs : list (Field R)) s :
  bool_decide (map f_name fs = map fst (sc_Properties s)) && forallb (fun p => String.eqb (fold_name (fst p)) (fst p)) (sc_Properties s) = true ->
  schema_of fs s.
Proof.
  intros [H1%bool_decide_eq_true H2]%andb_true_iff. split; [done|]. rewrite forallb_forall in H2. apply Forall_forall.
  intros p Hp. apply String.eqb_eq, H2. by apply list_elem_of_In.
Qed.

(** A field that the object lacks is zero after decoding: the table's other fields leave it alone. *)
Ltac lacking get :=
  match goal with
  | Hl : lacks ?name ?l = true, Ha : arguments ?fs ?zero (Some (JObj ?l)) = Some ?p |- _ =>
      let Hz := fresh "Hz" in
      assert (Hz : get p = get zero)
        by (eapply (arguments_lacks get); [|exact Hl|exact Ha];
            let f := fresh in let H := fresh in
            intros f H; cbv [In NewRallyRequest_fields RallyJoinToolArgs_fields RallyDoneToolArgs_fields RallySessionToolArgs_fields] in H;
            repeat destruct H as [<-|H]; [..|done]; first [by intros []|intros []; reflexivity|done]);
      match type of Hz with _ = ?z => let v := eval cbv in z in change (get p = v) in Hz end
  end.

(** What a call needs: a tool that refuses arguments with a key outside the schema or without a
    required one. *)
Definition keeps_schema (f : Inputs -> Rallies -> option json -> option (Rallies * ToolOutcome)) (s : MCPToolInputSchema) : Prop :=
  forall inp st l, has_extra s l = true \/ existsb (fun r => lacks r l) (sc_Required s) = true ->
  exists e, f inp st (Some (JObj l)) = Some (st, Fails e).

Lemma keeps_schema_split {R} (fs : list (Field R)) zero f s : schema_of fs s ->
  (forall inp st l, arguments fs zero (Some (JObj l)) = None -> exists e, f inp st (Some (JObj l)) = Some (st, Fails e)) ->
  (forall inp st l p r, arguments fs zero (Some (JObj l)) = Some p -> In r (sc_Required s) -> lacks r l = true ->
     exists e, f inp st (Some (JObj l)) = Some (st, Fails e)) ->
  keeps_schema f s.
Proof.
  intros Hs Hnone Hsome inp st l [Hx|(r & Hr & Hl)%existsb_exists]; [by eapply Hnone, extra_refused|].
  destruct (arguments fs zero (Some (JObj l))) as [p|] eqn:Ha; [by eapply Hsome|by apply Hnone].
Qed.

Lemma create_keeps t : In t mcp_tools -> tl_Name t = "rally_create" -> keeps_schema rally_create (tl_InputSchema t).
Proof.
  intros Ht Hn. cbn in Ht. decompose [or] Ht; subst; try discriminate Hn; [|done].
  eapply (keeps_schema_split NewRallyRequest_fields (mkNewRallyRequest [] "" "" "")); [by apply schema_of_ok| |].
  - intros inp st l Ha. eexists. unfold rally_create. by rewrite Ha.
  - intros inp st l p r Ha [<-|[]] Hl. lacking nr_Participants. eexists. unfold rally_create. rewrite Ha.
    unfold createRallySession. by rewrite Hz.
Qed.

Lemma bad_session_id : NewSessionID "" = inl ErrInvalidSessionID.
Proof. reflexivity. Qed.
Lemma bad_name : NewParticipantName "" = inl ErrInvalidName.
Proof. reflexivity. Qed.

Lemma join_keeps t : In t mcp_tools -> tl_Name t = "rally_join" -> keeps_schema rally_join (tl_InputSchema t).
Proof.
  intros Ht Hn. cbn in Ht. decompose [or] Ht; subst; try discriminate Hn; [|done].
  eapply (keeps_schema_split RallyJoinToolArgs_fields RallyJoinToolArgs_zero); [by apply schema_of_ok| |].
  - intros inp st l Ha. eexists. unfold rally_join. by rewrite Ha.
  - intros inp st l p r Ha Hr Hl. unfold rally_join. rewrite Ha. unfold mcpToolRallyJoin. destruct Hr as [<-|[<-|[]]].
    + lacking ja_SessionID. eexists. rewrite Hz, bad_session_id. reflexivity.
    + lacking ja_As. rewrite Hz, bad_name. destruct (NewSessionID (ja_SessionID p)); by eexists.
Qed.

Lemma done_keeps t : In t mcp_tools -> tl_Name t = "rally_done" -> keeps_schema rally_done (tl_InputSchema t).
Proof.
  intros Ht Hn. cbn in Ht. decompose [or] Ht; subst; try discriminate Hn; [|done].
  eapply (keeps_schema_split RallyDoneToolArgs_fields RallyDoneToolArgs_zero); [by apply schema_of_ok| |].
  - intros inp st l Ha. eexists. unfold rally_done. by rewrite Ha.
  - intros inp st l p r Ha Hr Hl. unfold rally_done. rewrite Ha. unfold mcpToolRallyDone. destruct Hr as [<-|[<-|[]]].
    + lacking da_SessionID. eexists. rewrite Hz, bad_session_id. reflexivity.
    + lacking da_As. rewrite Hz, bad_name. destruct (NewSessionID (da_SessionID p)); by eexists.
Qed.

Lemma session_keeps t f : In t mcp_tools -> tool_named (tl_Name t) = Some f ->
  tl_Name t = "rally_status" \/ tl_Name t = "rally_interrupt" -> keeps_schema f (tl_InputSchema t).
Proof.
  intros Ht Hf Hn. cbn in Ht. decompose [or] Ht; subst; try done; try (by destruct Hn as [Hn|Hn]; discriminate Hn); cbn in Hf; injection Hf as <-.
  all: eapply (keeps_schema_split RallySessionToolArgs_fields RallySessionToolArgs_zero); [by apply schema_of_ok| |].
  1, 3: intros inp st l Ha; eexists; unfold rally_status, rally_interrupt; by rewrite Ha.
  all: intros inp st l p r Ha [<-|[]] Hl; lacking sa_SessionID; eexists; unfold rally_status, rally_interrupt; rewrite Ha, Hz; reflexivity.
Qed.

(** Two objects that differ in the case of their keys at most, by the folding of [encoding/json]. *)
Definition same_but_case (l l' : list (string * json)) : Prop :=
  Forall2 (fun kv kv' => fold_name (fst kv) = fold_name (fst kv') /\ snd kv = snd kv') l l'.

Lemma find_field_folded {R} (fs : list (Field R)) k : forallb (fun f => String.eqb (fold_name (f_name f)) (f_name f)) fs = true ->
  find_field fs k = List.find (fun f => String.eqb (f_name f) (fold_name k)) fs.
Proof.
  intros Hfs. unfold find_field. destruct (List.find (fun f => String.eqb (f_name f) k) fs) as [f|] eqn:E.
  - assert (fold_name k = k) as ->; [|done]. apply find_some in E as [Hin Ek%String.eqb_eq]. rewrite forallb_forall in Hfs.
    specialize (Hfs f Hin). apply String.eqb_eq in Hfs. by rewrite <-Ek.
  - clear E. induction fs as [|f fs IH]; [done|]. cbn [forallb List.find] in *. apply andb_true_iff in Hfs as [Hf%String.eqb_eq Hfs].
    rewrite Hf. by rewrite IH.
Qed.

Lemma arguments_case {R} (fs : list (Field R)) zero l l' : forallb (fun f => String.eqb (fold_name (f_name f)) (f_name f)) fs = true ->
  same_but_case l l' -> arguments fs zero (Some (JObj l)) = arguments fs zero (Some (JObj l')).
Proof.
  intros Hfs Hl. assert (HF : forall k k', fold_name k = fold_name k' -> find_field fs k = find_field fs k').
  { intros k k' E. by rewrite !find_field_folded, E. }
  unfold arguments, into_strict. assert (known_keys fs l = known_keys fs l') as ->.
  { unfold known_keys. induction Hl as [|kv kv' l l' [E _] _ IH]; [done|]. cbn [forallb]. by rewrite (HF _ _ E), IH. }
  destruct (known_keys fs l'); [|done]. revert zero. induction Hl as [|[k v] [k' v'] l l' [E Ev] _ IH]; intros zero; [done|]. cbn [fst snd] in *. subst v'.
  cbn [into_members]. unfold into_member. cbn [fst snd]. rewrite (HF _ _ E). destruct (find_field fs k') as [f|]; [|apply IH].
  destruct (f_dec f v _) as [x|]; [apply IH|done].
Qed.

Lemma tool_case name f inp st l l' : tool_named name = Some f -> same_but_case l l' -> f inp st (Some (JObj l)) = f inp st (Some (JObj l')).
Proof.
  unfold tool_named. intros Hf Hl. repeat (case_match; [injection Hf as <-|]); try done;
    unfold rally_create, rally_join, rally_done, rally_status, rally_interrupt; by rewrite (arguments_case _ _ l l') by (reflexivity || done).
Qed.

(** C5: the server serves exactly the tools it lists, and each keeps to its listed schema as far as
    [encoding/json] compares keys, without regard to case: arguments with a key that no property
    matches, or without a match of a required property, are refused by the tool, and the rallies are
    left as they were; and arguments that differ in the case of their keys only are the same call, so that
    ["Session_ID"] is taken for [session_id] although the schema knows no such property. *)
Theorem tools_as_advertised :
  (forall name, is_Some (tool_named name) <-> In name (map tl_Name mcp_tools)) /\
  (forall t f inp st l, In t mcp_tools -> tool_named (tl_Name t) = Some f ->
     has_extra (tl_InputSchema t) l = true \/ existsb (fun r => lacks r l) (sc_Required (tl_InputSchema t)) = true ->
     exists e, f inp st (Some (JObj l)) = Some (st, Fails e)) /\
  (forall t f inp st l l', In t mcp_tools -> tool_named (tl_Name t) = Some f -> same_but_case l l' ->
     f inp st (Some (JObj l)) = f inp st (Some (JObj l'))).
Proof.
  split; [apply tool_named_served|]. split; [|intros; by eapply tool_case]. intros t f inp st l Ht Hf.
  assert (keeps_schema f (tl_InputSchema t)) as HK; [|apply HK].
  pose proof Ht as Hc. cbn in Hc. pose proof (create_keeps t Ht) as H1. pose proof (join_keeps t Ht) as H2. pose proof (done_keeps t Ht) as H3.
  pose proof (session_keeps t f Ht Hf) as H4. decompose [or] Hc; subst; try done; cbn [tl_Name] in *; try (injection Hf as <-; auto; fail); auto.
Qed.

Lemma tools_as_advertised_witness :
  exists e, rally_done (mkInputs 0 0 None) newRallyStore (Some (JObj [("session_id", JStr "rly_1_abcd"); ("As", JStr "bob"); ("to", JStr "x")]))
            = Some (newRallyStore, Fails e).
Proof.
  apply (proj1 (proj2 tools_as_advertised) (nth 2 mcp_tools (mkTool "" "" (mkSchema "" [] []))) rally_done); [right; right; left; reflexivity|reflexivity|].
  left. vm_compute. reflexivity.
Defined.

Example folded_key inp st : rally_status inp st (Some (JObj [("Session_ID", JStr "rly_1_abcd")])) = rally_status inp st (Some (JObj [("session_id", JStr "rly_1_abcd")])).
Proof. reflexivity. Qed.

(** The [initialize] answer announces no capability: the empty map of tools is left out. *)
Example initialize_hides_tools version :
  exists l, mr_Result (mcpInitialize version (mkMCPRequest "2.0" (Some (JNum "1")) "initialize" None)) = Some l /\
    In ("capabilities", JObj []) l.
Proof. eexists. split; [reflexivity|]. right. left. reflexivity. Qed.
