(* ===== verification/McpTransport.v ===== *)
(** * The MCP server: transport sessions

    [internal/broker/mcp.go]: the table of transport sessions, the handler of the event
    stream, which takes answers from the buffered channel of its session, and the handler of
    a message, which dispatches it and sends the answer to that channel.  Every locked part,
    every channel operation and every write is one event; any interleaving of the events of
    any number of handlers, with the sections of the other rally handlers, is a run. *)

From S2P Require Import Prelude GoStrings Json Codec Contract Merkle A2A Rally RallyInv Mcp.
From Stdlib Require Import Ascii String.
#[local] Open Scope string_scope.

(** ** State *)

(** A call of [handleMCPSSE]: its session is created, or it serves the channel. *)
Inductive Stream : Set := Opening (id : string) | Serving (id : string) (ch : nat).

(** A call of [handleMCPMessage], which has the channel of its session: it is about to
    dispatch the request, a join of it waits, or the answer is about to be sent. *)
Inductive Post : Type :=
  | Dispatching (ch : nat) (req : MCPJSONRPCRequest)
  | Joining (ch : nat) (id : option json) (call : MCPToolCallRequest) (jch : nat) (timeout : Z)
  | Sending (ch : nat) (resp : MCPJSONRPCResponse).

Definition post_chan (p : Post) : nat := match p with Dispatching ch _ | Joining ch _ _ _ _ | Sending ch _ => ch end.

(** [respCh] is a location of a heap of buffers; [mc_next] is the next location and
    [mc_calls] the number of the next handler. *)
(* src: internal/broker/mcp.go 24-35 mcpTransportSession *)
Record Mcp := mkMcp {
  mc_rallies : Rallies; mc_sessions : gmap string nat; mc_chans : gmap nat (list MCPJSONRPCResponse); mc_next : nat;
  mc_streams : gmap nat Stream; mc_posts : gmap nat Post; mc_calls : nat }.
#[export] Instance eta_Mcp : Eta Mcp := fun r =>
  mkMcp (mc_rallies r) (mc_sessions r) (mc_chans r) (mc_next r) (mc_streams r) (mc_posts r) (mc_calls r).

(* src: internal/broker/mcp.go 37-41 newMCPTransportManager *)
Definition newMcp : Mcp := mkMcp newRallyStore ∅ ∅ 0 ∅ ∅ 0.

(** The capacity of a [respCh]. *)
(* src: internal/broker/mcp.go 53-57 mcpTransportManager.create *)
Definition resp_capacity : nat := 16.

(** ** The table of sessions *)

(** [now] is the clock, [rand] the eight random bytes.  The fallback id is not stored. *)
(* src: internal/broker/mcp.go 43-59 mcpTransportManager.create *)
Definition create (now : Z) (rand : option string) (st : Mcp) : Mcp * string :=
  match rand with
  | None => (st, "mcpts_" +:+ Itoa now +:+ "_fallback")
  | Some b =>
      let id := "mcpts_" +:+ hex_encode b in
      (st <| mc_sessions := <[id := mc_next st]> (mc_sessions st) |> <| mc_chans := <[mc_next st := []]> (mc_chans st) |>
          <| mc_next := S (mc_next st) |>, id)
  end.

(* src: internal/broker/mcp.go 61-70 mcpTransportManager.get *)
Definition get (id : string) (st : Mcp) : option nat := mc_sessions st !! id.

(* src: internal/broker/mcp.go 72-77 mcpTransportManager.remove *)
Definition remove (id : string) (st : Mcp) : Mcp := st <| mc_sessions := delete id (mc_sessions st) |>.

(** ** Events *)

(** What happens outside or next: a client opens a stream, the endpoint of stream [h] is
    written, the stream's client leaves, its loop takes an answer or writes a heartbeat; a
    message arrives, whose body may be unreadable; handler [h] dispatches, its join goes on,
    it sends; a section of another rally handler runs. *)
Inductive Event : Type :=
  | EOpen (now : Z) (rand : option string) | EEndpoint (h : nat) (ok : bool) | ELeave (h : nat)
  | ETake (h : nat) (ok : bool) | EPing (h : nat) (ok : bool)
  | EMessage (session : string) (body : option string) | EDispatch (h : nat) (inp : Inputs) | EJoin (h : nat) (e : ReaderEvent)
  | ESend (h : nat) | ERally (l : Label).

(** What is seen: the endpoint written, a message that waits for a channel with the answer it
    has already or the request it will dispatch, an answer put into a channel, with 202 to the
    sender, an answer taken from a channel and written or lost, an error status. *)
Inductive Seen : Type :=
  | SawEndpoint (h : nat) (id : string) | Posted (h ch : nat) (m : MCPJSONRPCResponse + MCPJSONRPCRequest)
  | Accepted (h ch : nat) (resp : MCPJSONRPCResponse) | Taken (h ch : nat) (resp : MCPJSONRPCResponse) (written : bool)
  | Refused (code : Z).

Inductive Outcome : Type := Blocked | Panics | Goes (st : Mcp) (seen : list Seen).

Section Events.
Variable float_literal : string -> option string.
Variable version : string.
Variable unmarshal_text : string -> string.
Variable failure_text : MCPToolCallRequest -> ToolFailure -> string.

Definition new_call (st : Mcp) : nat * Mcp := (mc_calls st, st <| mc_calls := S (mc_calls st) |>).
Definition set_post (st : Mcp) (h : nat) (p : Post) : Mcp := st <| mc_posts := <[h := p]> (mc_posts st) |>.

(** The stream's handler returns: its deferred [remove] runs. *)
(* src: internal/broker/mcp.go 101-102 Server.handleMCPSSE *)
Definition end_stream (st : Mcp) (h : nat) (id : string) : Mcp := remove id (st <| mc_streams := delete h (mc_streams st) |>).

(* src: internal/broker/mcp.go 86-102 Server.handleMCPSSE *)
Definition open_stream (now : Z) (rand : option string) (st : Mcp) : Outcome :=
  let '(st, id) := create now rand st in
  let '(h, st) := new_call st in
  Goes (st <| mc_streams := <[h := Opening id]> (mc_streams st) |>) [].

(* src: internal/broker/mcp.go 104-117 Server.handleMCPSSE *)
Definition write_endpoint (h : nat) (ok : bool) (st : Mcp) : Outcome :=
  match mc_streams st !! h with
  | Some (Opening id) =>
      if negb ok then Goes (end_stream st h id) []
      else match get id st with
           | None => Goes (end_stream st h id) [SawEndpoint h id]
           | Some ch => Goes (st <| mc_streams := <[h := Serving id ch]> (mc_streams st) |>) [SawEndpoint h id]
           end
  | _ => Blocked
  end.

(** The loop of the stream. *)
(* src: internal/broker/mcp.go 123-145 Server.handleMCPSSE *)
Definition serve (h : nat) (e : Event) (st : Mcp) : Outcome :=
  match mc_streams st !! h with
  | Some (Serving id ch) =>
      match e with
      | ELeave _ => Goes (end_stream st h id) []
      | EPing _ ok => Goes (if ok then st else end_stream st h id) []
      | ETake _ ok =>
          match mc_chans st !! ch with
          | Some (resp :: rest) =>
              let st := st <| mc_chans := <[ch := rest]> (mc_chans st) |> in
              Goes (if ok then st else end_stream st h id) [Taken h ch resp ok]
          | _ => Blocked
          end
      | _ => Blocked
      end
  | _ => Blocked
  end.

(* src: internal/broker/mcp.go 157-190 Server.handleMCPMessage *)
Definition receive_message (session : string) (body : option string) (st : Mcp) : Outcome :=
  if String.eqb session "" then Goes st [Refused 400]
  else match get session st with
       | None => Goes st [Refused 404]
       | Some ch =>
           match body with
           | None => Goes st [Refused 400]
           | Some body =>
               let m := parse_message float_literal unmarshal_text body in
               let '(h, st) := new_call st in
               Goes (set_post st h (match m with inl resp => Sending ch resp | inr req => Dispatching ch req end)) [Posted h ch m]
           end
       end.

(* src: internal/broker/mcp.go 192-192 Server.handleMCPMessage *)
Definition dispatch (h : nat) (inp : Inputs) (st : Mcp) : Outcome :=
  match mc_posts st !! h with
  | Some (Dispatching ch req) =>
      match dispatchMCP version unmarshal_text failure_text inp (mc_rallies st) req with
      | None => Panics
      | Some (rallies, d) =>
          let st := st <| mc_rallies := rallies |> in
          Goes (set_post st h (match d with
                               | Answer resp => Sending ch resp
                               | Waiting call jch timeout => Joining ch (mq_ID req) call jch timeout
                               end)) []
      end
  | _ => Blocked
  end.

(* src: internal/broker/mcp.go 518-540 mcpToolRallyJoin *)
Definition resume_join (h : nat) (e : ReaderEvent) (st : Mcp) : Outcome :=
  match mc_posts st !! h with
  | Some (Joining ch id call jch _) =>
      match reader_step (mc_rallies st) jch e with
      | None => Blocked
      | Some (rallies, d) =>
          let st := st <| mc_rallies := rallies |> in
          match tool_answer failure_text id call (join_outcome d) with
          | Answer resp => Goes (set_post st h (Sending ch resp)) []
          | Waiting _ _ _ => Blocked
          end
      end
  | _ => Blocked
  end.

(** [respCh <- resp], then 202: a full buffer blocks the handler. *)
(* src: internal/broker/mcp.go 192-196 Server.handleMCPMessage *)
Definition send (h : nat) (st : Mcp) : Outcome :=
  match mc_posts st !! h with
  | Some (Sending ch resp) =>
      match mc_chans st !! ch with
      | Some buf =>
          if (List.length buf <? resp_capacity)%nat
          then Goes (st <| mc_chans := <[ch := (buf ++ [resp])%list]> (mc_chans st) |> <| mc_posts := delete h (mc_posts st) |>) [Accepted h ch resp]
          else Blocked
      | None => Blocked
      end
  | _ => Blocked
  end.

(** Joins over MCP, and the readers of such joins, belong to handlers of messages. *)
Definition other_section (l : Label) (st : Mcp) : bool :=
  match l with
  | LJoin _ MCP _ _ => false
  | LReader ch _ => match ra_readers (mc_rallies st) !! ch with Some (mkReader _ _ MCP) => false | _ => true end
  | _ => true
  end.

Definition rally_section (l : Label) (st : Mcp) : Outcome :=
  if other_section l st
  then match run_label l (mc_rallies st) with None => Panics | Some rallies => Goes (st <| mc_rallies := rallies |>) [] end
  else Blocked.

Definition step (e : Event) (st : Mcp) : Outcome :=
  match e with
  | EOpen now rand => open_stream now rand st
  | EEndpoint h ok => write_endpoint h ok st
  | ELeave h | ETake h _ | EPing h _ => serve h e st
  | EMessage session body => receive_message session body st
  | EDispatch h inp => dispatch h inp st
  | EJoin h e => resume_join h e st
  | ESend h => send h st
  | ERally l => rally_section l st
  end.

(** The runs of the server from [st], with what was seen. *)
Inductive Runs (st : Mcp) : list Seen -> Mcp -> Prop :=
  | runs_refl : Runs st [] st
  | runs_step seen st' e st'' more : Runs st seen st' -> step e st' = Goes st'' more -> Runs st (seen ++ more) st''.
End Events.

Arguments runs_step {_ _ _ _ _} _ _ _ _ _ _ _.
Arguments runs_refl {_ _ _ _ _}.

(** ** The rallies under the server *)

Lemma dispatch_sections version ut ft inp ra req : Reachable ra ->
  exists ra' d, dispatchMCP version ut ft inp ra req = Some (ra', d) /\ Reachable ra'.
Proof.
  intros HR. unfold dispatchMCP. repeat (case_match; [by eauto|]). case_match; [|by eauto].
  unfold mcpToolCall. case_match; [|by eauto]. destruct (tool_named _) as [tool|] eqn:Ht; [|by eauto].
  assert (exists ra' o, tool inp ra (tc_Arguments m) = Some (ra', o) /\ Reachable ra') as (ra' & o & -> & HR'); [|by eauto].
  assert (HL : forall l ra', run_label l ra = Some ra' -> Reachable ra') by (intros l ra'; by apply reach_step).
  assert (HN : forall l, run_label l ra <> None).
  { intros l. destruct (run_label_ok l ra (reachable_inv ra HR)) as (? & -> & _). done. }
  unfold tool_named in Ht. repeat (case_match; simplify_eq); unfold rally_create, rally_join, rally_done, rally_status, rally_interrupt.
  all: destruct (arguments _ _ _) as [p|]; [|by eauto].
  - specialize (HL (LCreate (in_now inp) (in_now2 inp) (in_rand inp) p)). cbn [run_label] in HL.
    destruct (createRallySession _ _ _ _ _) as [ra' r]. do 2 eexists. split; [done|]. by apply HL.
  - specialize (HL (LJoin (in_now inp) MCP (ja_SessionID p) (ja_As p))). specialize (HN (LJoin (in_now inp) MCP (ja_SessionID p) (ja_As p))).
    cbn [run_label] in HL, HN. unfold mcpToolRallyJoin, NewSessionID, NewParticipantName.
    destruct (sessionIDRe _); cbn [negb]; [|by eauto]. destruct (participantNameRe _); cbn [negb]; [|by eauto].
    destruct (join _ _ _ _ _) as [[ra' r]|]; [|done]. specialize (HL ra' eq_refl). destruct r; by eauto.
  - specialize (HL (LDone (in_now inp) (da_SessionID p) (da_As p) (da_Note p) (da_HandoffTo p))).
    specialize (HN (LDone (in_now inp) (da_SessionID p) (da_As p) (da_Note p) (da_HandoffTo p))). cbn [run_label] in HL, HN.
    destruct (mcpToolRallyDone _ _ _ _ _ _) as [[ra' r]|]; [|done]. do 2 eexists. split; [done|]. by apply HL.
  - by eauto.
  - specialize (HL (LInterrupt (in_now inp) (sa_SessionID p))). specialize (HN (LInterrupt (in_now inp) (sa_SessionID p))). cbn [run_label] in HL, HN.
    unfold mcpToolRallyInterrupt, NewSessionID. destruct (sessionIDRe _); cbn [negb]; [|by eauto].
    destruct (interruptRallySession _ _ _) as [[ra' r]|]; [|done]. do 2 eexists. split; [done|]. by apply HL.
Qed.

Lemma join_sections ra ch e ra' d : Reachable ra -> reader_step ra ch e = Some (ra', d) -> Reachable ra'.
Proof. intros HR He. apply (reach_step ra (LReader ch e)); [done|]. cbn [run_label]. by rewrite He. Qed.

(** ** Invariant *)

(** The channel of an id, of a stream, of a message has been made; every buffer keeps to the capacity;
    the numbers of handlers and channels are fresh. *)
Record McpInv (st : Mcp) : Prop := {
  mi_rallies : Reachable (mc_rallies st);
  mi_ids : forall id ch, mc_sessions st !! id = Some ch -> is_Some (mc_chans st !! ch);
  mi_streams : forall h id ch, mc_streams st !! h = Some (Serving id ch) -> is_Some (mc_chans st !! ch);
  mi_posts : forall h p, mc_posts st !! h = Some p -> is_Some (mc_chans st !! post_chan p) /\ (h < mc_calls st)%nat;
  mi_chans : forall ch b, mc_chans st !! ch = Some b -> (ch < mc_next st)%nat /\ (List.length b <= resp_capacity)%nat }.

Lemma mcp_inv_init : McpInv newMcp.
Proof. split; cbn; [constructor|intros *; by rewrite lookup_empty..]. Qed.

(** A change of the table of ids that stores nothing new, of the streams and of the messages. *)
Lemma mcp_inv_frame st st' : McpInv st -> Reachable (mc_rallies st') ->
  (forall id ch, mc_sessions st' !! id = Some ch -> mc_sessions st !! id = Some ch) ->
  mc_chans st' = mc_chans st -> mc_next st' = mc_next st -> (mc_calls st <= mc_calls st')%nat ->
  (forall h id ch, mc_streams st' !! h = Some (Serving id ch) -> is_Some (mc_chans st !! ch)) ->
  (forall h p, mc_posts st' !! h = Some p -> is_Some (mc_chans st !! post_chan p) /\ (h < mc_calls st')%nat) -> McpInv st'.
Proof.
  intros [I1 I2 I3 I4 I5] HR Hs Hc Hn Hk Hst Hp. split; [done|..]; rewrite ?Hc, ?Hn; [|done..].
  intros id ch H. by eapply I2, Hs.
Qed.

Lemma posts_later st k : McpInv st -> (mc_calls st <= k)%nat ->
  forall h p, mc_posts st !! h = Some p -> is_Some (mc_chans st !! post_chan p) /\ (h < k)%nat.
Proof. intros I Hk h p Hp. destruct (mi_posts st I h p Hp). split; [done|lia]. Qed.

Lemma mcp_inv_end st h id : McpInv st -> McpInv (end_stream st h id).
Proof.
  intros I. apply (mcp_inv_frame st); cbn; [done|apply I|by intros ? ? [_ ?]%lookup_delete_Some|done..| |by apply posts_later].
  intros h' id' ch [_ H]%lookup_delete_Some. by eapply mi_streams.
Qed.

Lemma mcp_inv_post st h p : McpInv st -> is_Some (mc_chans st !! post_chan p) -> (h < mc_calls st)%nat -> McpInv (set_post st h p).
Proof.
  intros I Hp Hh. apply (mcp_inv_frame st); cbn; [done|apply I|done..|apply I|].
  intros h' p' [[<- <-]|[_ H]]%lookup_insert_Some; [done|by apply mi_posts].
Qed.

Lemma mcp_inv_rallies st ra : McpInv st -> Reachable ra -> McpInv (st <| mc_rallies := ra |>).
Proof. intros I HR. apply (mcp_inv_frame st); cbn; [done|done|done..|apply I|by apply posts_later]. Qed.

Lemma mcp_inv_call st : McpInv st -> McpInv (snd (new_call st)).
Proof. intros I. apply (mcp_inv_frame st); cbn; [done|apply I|done..|lia|apply I|apply posts_later; [done|lia]]. Qed.

(** A new buffer at a channel there is. *)
Lemma mcp_inv_buffer st ch b b' : McpInv st -> mc_chans st !! ch = Some b -> (List.length b' <= resp_capacity)%nat ->
  McpInv (st <| mc_chans := <[ch := b']> (mc_chans st) |>).
Proof.
  intros [I1 I2 I3 I4 I5] Hb Hl. assert (HK : forall c, is_Some (mc_chans st !! c) -> is_Some (<[ch := b']> (mc_chans st) !! c)).
  { intros c Hc. destruct (decide (ch = c)) as [->|]; [rewrite lookup_insert_eq; by eexists|by rewrite lookup_insert_ne]. }
  split; cbn; [done|by eauto|by eauto| |].
  - intros h p Hp. destruct (I4 h p Hp). by auto.
  - intros c x [[<- <-]|[_ H]]%lookup_insert_Some; [split; [by eapply I5|done]|by apply I5].
Qed.

Lemma mcp_inv_create now rand st : McpInv st -> McpInv (fst (create now rand st)).
Proof.
  intros I. unfold create. destruct rand as [b|]; [|done]. cbn [fst]. destruct I as [I1 I2 I3 I4 I5].
  assert (HK : forall c, is_Some (mc_chans st !! c) -> is_Some (<[mc_next st := []]> (mc_chans st) !! c)).
  { intros c Hc. destruct (decide (mc_next st = c)) as [->|]; [rewrite lookup_insert_eq; by eexists|by rewrite lookup_insert_ne]. }
  split; cbn; [done| |by eauto| |].
  - intros id ch [[_ <-]|[_ H]]%lookup_insert_Some; [rewrite lookup_insert_eq; by eexists|by eauto].
  - intros h p Hp. destruct (I4 h p Hp). by auto.
  - intros c x [[<- <-]|[_ H]]%lookup_insert_Some; [cbn; unfold resp_capacity; lia|]. destruct (I5 c x H). lia.
Qed.

Section Steps.
Variable float_literal : string -> option string.
Variable version : string.
Variable unmarshal_text : string -> string.
Variable failure_text : MCPToolCallRequest -> ToolFailure -> string.
Abbreviation step := (step float_literal version unmarshal_text failure_text).
Abbreviation Runs := (Runs float_literal version unmarshal_text failure_text).

Lemma mcp_inv_step e st : McpInv st ->
  match step e st with Blocked => True | Panics => False | Goes st' _ => McpInv st' end.
Proof.
  intros I. destruct e; cbn [McpTransport.step].
  - unfold open_stream. pose proof (mcp_inv_create now rand st I) as I'. destruct (create now rand st) as [st1 id]. cbn [fst] in I'.
    cbn. apply (mcp_inv_frame st1); cbn; [done|apply I'|done..|lia| |apply posts_later; [done|lia]].
    intros h' id' ch [[_ ?]|[_ H]]%lookup_insert_Some; [done|by eapply mi_streams].
  - unfold write_endpoint. destruct (mc_streams st !! h) as [[id|]|] eqn:Hh; [|done..]. destruct ok; cbn [negb]; [|by apply mcp_inv_end].
    unfold get. destruct (mc_sessions st !! id) as [ch|] eqn:Hid; [|by apply mcp_inv_end].
    apply (mcp_inv_frame st); cbn; [done|apply I|done..| |by apply posts_later].
    intros h' id' c [[_ [= <- <-]]|[_ H]]%lookup_insert_Some; [by eapply mi_ids|by eapply mi_streams].
  - unfold serve. destruct (mc_streams st !! h) as [[|id ch]|]; [done| |done]. by apply mcp_inv_end.
  - unfold serve. destruct (mc_streams st !! h) as [[|id ch]|]; [done| |done].
    destruct (mc_chans st !! ch) as [[|resp rest]|] eqn:Hc; [done| |done].
    assert (I' : McpInv (st <| mc_chans := <[ch := rest]> (mc_chans st) |>)).
    { eapply mcp_inv_buffer; [done|done|]. destruct (mi_chans st I ch _ Hc) as [_ H]. cbn in H. lia. }
    destruct ok; [done|by apply mcp_inv_end].
  - unfold serve. destruct (mc_streams st !! h) as [[|id ch]|]; [done| |done]. destruct ok; [done|by apply mcp_inv_end].
  - unfold receive_message. destruct (String.eqb session ""); [done|]. unfold get.
    destruct (mc_sessions st !! session) as [ch|] eqn:Hs; [|done]. destruct body as [body|]; [|done]. cbn.
    apply (mcp_inv_post (snd (new_call st))); [by apply mcp_inv_call| |cbn; lia]. cbn. apply (mi_ids st I) in Hs. by case_match.
  - unfold dispatch. destruct (mc_posts st !! h) as [[ch req| |]|] eqn:Hh; try done.
    destruct (dispatch_sections version unmarshal_text failure_text inp (mc_rallies st) req (mi_rallies st I)) as (ra & d & -> & HR).
    destruct (mi_posts st I h _ Hh) as [H1 H2]. apply mcp_inv_post; [by apply mcp_inv_rallies| |done]. cbn in *. by destruct d.
  - unfold resume_join. destruct (mc_posts st !! h) as [[|ch id call jch timeout|]|] eqn:Hh; try done.
    destruct (reader_step _ jch e) as [[ra d]|] eqn:He; [|done]. destruct (tool_answer _ _ _ _) as [resp|]; [|done].
    destruct (mi_posts st I h _ Hh) as [H1 H2]. apply mcp_inv_post; [|done|done]. apply mcp_inv_rallies; [done|].
    eapply join_sections; [apply I|done].
  - unfold send. destruct (mc_posts st !! h) as [[| |ch resp]|] eqn:Hh; try done. destruct (mc_chans st !! ch) as [b|] eqn:Hc; [|done].
    destruct (Nat.ltb_spec (List.length b) resp_capacity) as [Hl|]; [|done].
    assert (I' : McpInv (st <| mc_chans := <[ch := (b ++ [resp])%list]> (mc_chans st) |>)).
    { eapply mcp_inv_buffer; [done|done|]. rewrite List.length_app. cbn. lia. }
    apply (mcp_inv_frame _ _ I'); cbn; [apply I|done..|apply I'|]. intros h' p [_ H]%lookup_delete_Some. by apply (mi_posts _ I').
  - unfold rally_section. destruct (other_section l st); [|done].
    destruct (run_label_ok l (mc_rallies st) (reachable_inv _ (mi_rallies st I))) as (ra & Hl & _). rewrite Hl.
    apply mcp_inv_rallies; [done|]. eapply reach_step; [apply I|done].
Qed.

Lemma runs_inv st seen st' : McpInv st -> Runs st seen st' -> McpInv st'.
Proof. intros I. induction 1 as [|seen st' e st'' more _ IH He]; [done|]. pose proof (mcp_inv_step e st' IH) as H. by rewrite He in H. Qed.

(** ** One answer to each message, in order *)

Definition answers (m : MCPJSONRPCResponse + MCPJSONRPCRequest) (resp : MCPJSONRPCResponse) : Prop :=
  match m with
  | inl r => resp = r
  | inr req => mr_JSONRPC resp = "2.0" /\ mr_ID resp = mq_ID req /\ (mr_Error resp = None \/ mr_Result resp = None)
  end.

Lemma tool_answer_answers req call o resp : tool_answer failure_text (mq_ID req) call o = Answer resp -> answers (inr req) resp.
Proof. destruct o; cbn [tool_answer]; intros [= <-]; cbn; auto. Qed.

Lemma dispatch_answers inp ra req ra' d : dispatchMCP version unmarshal_text failure_text inp ra req = Some (ra', d) ->
  match d with Answer resp => answers (inr req) resp | Waiting _ _ _ => True end.
Proof.
  unfold dispatchMCP. repeat (case_match; [intros [= _ <-]; cbn; by auto|]). case_match; [|intros [= _ <-]; cbn; by auto].
  unfold mcpToolCall.
  destruct (match mq_Params req with Some j => into_struct MCPToolCallRequest_fields j MCPToolCallRequest_zero | None => None end) as [call|];
    [|intros [= _ <-]; cbn; by auto].
  destruct (tool_named (tc_Name call)) as [tool|]; [|intros [= _ <-]; cbn; by auto].
  destruct (tool inp ra _) as [[ra1 o]|]; [|done]. intros [= _ <-]. destruct (tool_answer _ _ _ o) eqn:E; [|done]. by eapply tool_answer_answers.
Qed.

(** What the trace says of channel [ch], and of the handlers. *)
Definition accepted (ch : nat) (seen : list Seen) : list MCPJSONRPCResponse :=
  omap (fun s => match s with Accepted _ c r => if decide (c = ch) then Some r else None | _ => None end) seen.
Definition taken (ch : nat) (seen : list Seen) : list MCPJSONRPCResponse :=
  omap (fun s => match s with Taken _ c r _ => if decide (c = ch) then Some r else None | _ => None end) seen.
Definition accepted_handlers (seen : list Seen) : list nat :=
  omap (fun s => match s with Accepted h _ _ => Some h | _ => None end) seen.

(** How far the handler of a message is. *)
Definition post_ok (p : Post) (m : MCPJSONRPCResponse + MCPJSONRPCRequest) : Prop :=
  match p with
  | Dispatching _ req => m = inr req
  | Joining _ id _ _ _ => exists req, m = inr req /\ id = mq_ID req
  | Sending _ resp => answers m resp
  end.

Record Traced (seen : list Seen) (st : Mcp) : Prop := {
  tr_fifo : forall ch, accepted ch seen = (taken ch seen ++ default [] (mc_chans st !! ch))%list;
  tr_posts : forall h p, mc_posts st !! h = Some p -> exists m, Posted h (post_chan p) m ∈ seen /\ post_ok p m;
  tr_accepted : forall h ch resp, Accepted h ch resp ∈ seen -> exists m, Posted h ch m ∈ seen /\ answers m resp;
  tr_once : NoDup (accepted_handlers seen);
  tr_gone : forall h, h ∈ accepted_handlers seen -> mc_posts st !! h = None /\ (h < mc_calls st)%nat }.

(** Events that neither send nor take. *)
Lemma traced_quiet seen more st st' : Traced seen st ->
  (forall ch, accepted ch more = [] /\ taken ch more = []) -> accepted_handlers more = [] ->
  (forall h ch resp, Accepted h ch resp ∉ more) ->
  (forall ch, default [] (mc_chans st' !! ch) = default [] (mc_chans st !! ch)) -> (mc_calls st <= mc_calls st')%nat ->
  (forall h, h < mc_calls st -> mc_posts st !! h = None -> mc_posts st' !! h = None)%nat ->
  (forall h p, mc_posts st' !! h = Some p -> exists m, Posted h (post_chan p) m ∈ (seen ++ more)%list /\ post_ok p m) -> Traced (seen ++ more) st'.
Proof.
  intros [T1 T2 T3 T4 T5] Hm Hh Hno Hc Hk Hgone Hp. split.
  - intros ch. destruct (Hm ch) as [H1 H2]. unfold accepted, taken in *. rewrite !omap_app, H1, H2, Hc, !app_nil_r. apply T1.
  - done.
  - intros h ch resp [H|H]%elem_of_app; [|by apply Hno in H]. destruct (T3 h ch resp H) as (m & H1 & H2).
    exists m. split; [apply elem_of_app; by left|done].
  - unfold accepted_handlers in *. by rewrite omap_app, Hh, app_nil_r.
  - intros h. unfold accepted_handlers in *. rewrite omap_app, Hh, app_nil_r. intros H. destruct (T5 h H). split; [by apply Hgone|lia].
Qed.

Lemma traced_posts_weaken seen more st : Traced seen st -> forall h p, mc_posts st !! h = Some p ->
  exists m, Posted h (post_chan p) m ∈ (seen ++ more)%list /\ post_ok p m.
Proof. intros T h p Hp. destruct (tr_posts _ _ T h p Hp) as (m & H1 & H2). exists m. split; [apply elem_of_app; by left|done]. Qed.

(** A handler that moves on, with its message. *)
Lemma traced_post seen st h p p' : Traced seen st -> mc_posts st !! h = Some p -> post_chan p' = post_chan p ->
  (forall m, post_ok p m -> post_ok p' m) -> forall ra, Traced (seen ++ []) (set_post (st <| mc_rallies := ra |>) h p').
Proof.
  intros T Hh Hc Hok ra. apply (traced_quiet _ _ st); [done|done|done|intros ? ? ?; apply not_elem_of_nil|done|cbn; lia| |].
  - intros h' _ Hn. cbn. rewrite lookup_insert_ne; [done|]. intros ->. congruence.
  - intros h' q Hq. cbn in Hq. apply lookup_insert_Some in Hq as [[<- <-]|[_ H]]; [|by apply (traced_posts_weaken _ _ st)].
    destruct (tr_posts _ _ T h p Hh) as (m & H1 & H2). exists m. rewrite Hc, app_nil_r. auto.
Qed.

Lemma traced_end seen st h id : Traced seen st -> Traced (seen ++ []) (end_stream st h id).
Proof.
  intros T. apply (traced_quiet _ _ st); cbn; [done|done|done|intros ? ? ?; apply not_elem_of_nil|done|done|done|].
  by apply (traced_posts_weaken _ _ st).
Qed.

Lemma traced_init : Traced [] newMcp.
Proof.
  split; cbn.
  - intros ch. by rewrite lookup_empty.
  - intros *. by rewrite lookup_empty.
  - intros h ch resp H. by apply elem_of_nil in H.
  - constructor.
  - intros h H. by apply elem_of_nil in H.
Qed.

Lemma traced_same seen st st' : Traced seen st -> mc_chans st' = mc_chans st -> mc_posts st' = mc_posts st ->
  (mc_calls st <= mc_calls st')%nat -> forall more, (forall s, s ∈ more -> exists h id, s = SawEndpoint h id) \/ (exists code, more = [Refused code]) ->
  Traced (seen ++ more) st'.
Proof.
  intros T Hc Hp Hk more Hm.
  assert (HS : forall ch, accepted ch more = [] /\ taken ch more = [] /\ accepted_handlers more = []).
  { destruct Hm as [Hm|[code ->]]; [|done]. intros ch. induction more as [|s more IH]; [done|].
    destruct (Hm s) as (h & id & ->); [by left|]. apply IH. intros s Hs. apply Hm. by right. }
  apply (traced_quiet _ _ st); rewrite ?Hc, ?Hp; [done|intros ch; by destruct (HS ch) as (? & ? & ?)|by destruct (HS 0%nat) as (? & ? & ?)| |done|done|done|].
  - intros h ch resp H. destruct Hm as [Hm|[code ->]]; [by destruct (Hm _ H) as (? & ? & ?)|by apply list_elem_of_singleton in H].
  - by apply (traced_posts_weaken _ _ st).
Qed.

(** Handler [h] puts its answer into the channel. *)
Lemma traced_send seen st h ch resp b : Traced seen st -> McpInv st -> mc_posts st !! h = Some (Sending ch resp) -> mc_chans st !! ch = Some b ->
  Traced (seen ++ [Accepted h ch resp]) (st <| mc_chans := <[ch := (b ++ [resp])%list]> (mc_chans st) |> <| mc_posts := delete h (mc_posts st) |>).
Proof.
  intros T I Hh Hc. pose proof T as [T1 T2 T3 T4 T5].
  assert (Hnew : h ∉ accepted_handlers seen) by (intros Hin; destruct (T5 h Hin) as [Hn _]; congruence).
  split; cbn.
  - intros c. unfold accepted, taken in *. rewrite !omap_app, T1. cbn [omap list_omap]. destruct (decide (ch = c)) as [<-|Hne].
    + rewrite lookup_insert_eq, Hc. cbn. by rewrite app_nil_r, app_assoc.
    + rewrite lookup_insert_ne by done. by rewrite !app_nil_r.
  - intros h' p [_ Hp]%lookup_delete_Some. by apply (traced_posts_weaken _ _ st).
  - intros h' c r [H|H]%elem_of_app.
    + destruct (T3 h' c r H) as (m & H1 & H2). exists m. split; [apply elem_of_app; by left|done].
    + apply list_elem_of_singleton in H as [= -> -> ->]. destruct (T2 h _ Hh) as (m & H1 & H2). exists m. split; [apply elem_of_app; by left|done].
  - unfold accepted_handlers in *. rewrite omap_app. cbn [omap list_omap]. apply NoDup_app. split; [done|]. split; [|apply NoDup_singleton].
    intros x Hx ->%list_elem_of_singleton. done.
  - intros x. unfold accepted_handlers in *. rewrite omap_app. intros [H|H]%elem_of_app.
    + destruct (T5 x H). split; [|done]. by rewrite lookup_delete_None; right.
    + apply list_elem_of_singleton in H as ->. split; [apply lookup_delete_eq|]. by destruct (mi_posts st I h _ Hh).
Qed.

(** A stream takes an answer from the channel. *)
Lemma traced_take seen st h ch resp rest ok : Traced seen st -> mc_chans st !! ch = Some (resp :: rest) ->
  Traced (seen ++ [Taken h ch resp ok]) (st <| mc_chans := <[ch := rest]> (mc_chans st) |>).
Proof.
  intros T Hc. pose proof T as [T1 T2 T3 T4 T5]. split; cbn.
  - intros c. unfold accepted, taken in *. rewrite !omap_app, T1. cbn [omap list_omap]. destruct (decide (ch = c)) as [<-|Hne].
    + rewrite lookup_insert_eq, Hc. cbn. by rewrite app_nil_r, <-app_assoc.
    + rewrite lookup_insert_ne by done. by rewrite !app_nil_r.
  - by apply (traced_posts_weaken _ _ st).
  - intros h' c r [H|H]%elem_of_app; [|by apply list_elem_of_singleton in H].
    destruct (T3 h' c r H) as (m & H1 & H2). exists m. split; [apply elem_of_app; by left|done].
  - unfold accepted_handlers in *. rewrite omap_app. by rewrite app_nil_r.
  - intros x. unfold accepted_handlers in *. rewrite omap_app, app_nil_r. apply T5.
Qed.

(** A message arrives. *)
Lemma traced_arrive seen st ch m : Traced seen st -> McpInv st ->
  Traced (seen ++ [Posted (mc_calls st) ch m])
    (set_post (snd (new_call st)) (mc_calls st) (match m with inl resp => Sending ch resp | inr req => Dispatching ch req end)).
Proof.
  intros T I. apply (traced_quiet _ _ st); [done|done|done| |done|cbn; lia| |].
  - intros h c r H. by apply list_elem_of_singleton in H.
  - intros h Hh Hn. cbn. rewrite lookup_insert_ne; [done|lia].
  - intros h p H. cbn in H. apply lookup_insert_Some in H as [[<- <-]|[_ H]]; [|by apply (traced_posts_weaken _ _ st)].
    exists m. split; [|by destruct m]. apply elem_of_app. right. apply list_elem_of_singleton. by destruct m.
Qed.

Lemma traced_step e seen st st' more : Traced seen st -> McpInv st -> step e st = Goes st' more -> Traced (seen ++ more) st'.
Proof.
  intros T I. assert (HE : forall h id, Traced (seen ++ []) (end_stream st h id)) by (intros; by apply traced_end).
  assert (HE' : forall h id h' id', Traced (seen ++ [SawEndpoint h' id']) (end_stream st h id)).
  { intros h id h' id'. apply (traced_same seen st); [done|done|done|done|]. left. intros s ->%list_elem_of_singleton. by eauto. }
  assert (Hnil : forall s : Seen, s ∈ [] -> exists h id, s = SawEndpoint h id) by (intros s H; by apply elem_of_nil in H).
  destruct e; cbn [McpTransport.step].
  - unfold open_stream. destruct (create now rand st) as [st1 id] eqn:Ec. intros [= <- <-]. unfold create in Ec. destruct rand as [b|]; injection Ec as <- <-.
    + apply (traced_quiet _ _ st); cbn; [done|done|done|intros ? ? ?; apply not_elem_of_nil| |lia|done|by apply (traced_posts_weaken _ _ st)].
      intros ch. destruct (decide (mc_next st = ch)) as [<-|]; [|by rewrite lookup_insert_ne]. rewrite lookup_insert_eq.
      destruct (mc_chans st !! mc_next st) as [x|] eqn:Hx; [|done]. destruct (mi_chans st I _ _ Hx). lia.
    + apply (traced_same seen st); [done..|cbn; lia|by left].
  - unfold write_endpoint. destruct (mc_streams st !! h) as [[id|]|]; [|done..]. destruct ok; cbn [negb]; [|by intros [= <- <-]].
    destruct (get id st); intros [= <- <-]; [|apply HE']. apply (traced_same seen st); [done..|]. left. intros s ->%list_elem_of_singleton. by eauto.
  - unfold serve. destruct (mc_streams st !! h) as [[|id ch]|]; [done| |done]. by intros [= <- <-].
  - unfold serve. destruct (mc_streams st !! h) as [[|id ch]|]; [done| |done]. destruct (mc_chans st !! ch) as [[|resp rest]|] eqn:Hc; [done| |done].
    intros [= <- <-]. pose proof (traced_take seen st h ch resp rest ok T Hc) as T'. destruct ok; [done|].
    rewrite <-(app_nil_r (seen ++ _)%list). by apply traced_end.
  - unfold serve. destruct (mc_streams st !! h) as [[|id ch]|]; [done| |done]. destruct ok; intros [= <- <-]; [|done].
    apply (traced_same seen st); [done..|by left].
  - unfold receive_message. assert (HR : forall code, Traced (seen ++ [Refused code]) st).
    { intros code. apply (traced_same seen st); [done..|]. right. by exists code. }
    destruct (String.eqb session ""); [by intros [= <- <-]|]. destruct (get session st) as [ch|]; [|by intros [= <- <-]].
    destruct body as [body|]; [|by intros [= <- <-]]. intros [= <- <-]. by apply traced_arrive.
  - unfold dispatch. destruct (mc_posts st !! h) as [[ch req| |]|] eqn:Hh; try done.
    destruct (dispatchMCP _ _ _ _ _ _) as [[ra d]|] eqn:Hd; [|done]. intros [= <- <-]. apply dispatch_answers in Hd.
    eapply traced_post; [done|done|by destruct d|]. intros m ->. destruct d; [done|]. cbn. by eauto.
  - unfold resume_join. destruct (mc_posts st !! h) as [[|ch id call jch timeout|]|] eqn:Hh; try done.
    destruct (reader_step _ jch e) as [[ra d]|] eqn:He; [|done]. destruct (tool_answer _ _ _ _) as [resp|] eqn:Ha; [|done]. intros [= <- <-].
    eapply traced_post; [done|done|done|]. intros m (req & -> & ->). by eapply tool_answer_answers.
  - unfold send. destruct (mc_posts st !! h) as [[| |ch resp]|] eqn:Hh; try done. destruct (mc_chans st !! ch) as [b|] eqn:Hc; [|done].
    case_match; [|done]. intros [= <- <-]. by apply traced_send.
  - unfold rally_section. destruct (other_section l st); [|done]. destruct (run_label _ _); [|done]. intros [= <- <-].
    apply (traced_same seen st); [done..|by left].
Qed.

Lemma runs_traced seen st : Runs newMcp seen st -> Traced seen st.
Proof.
  induction 1 as [|seen st' e st'' more Hr IH He]; [apply traced_init|]. eapply traced_step; [done| |done].
  eapply runs_inv; [apply mcp_inv_init|done].
Qed.

(** The server never panics and keeps the promises of the rallies: in every state that any interleaving of
    streams, messages, joins, sends and other rally handlers reaches, every next event is possible or
    blocked, never a panic; the rallies are in a state of the baton protocol; no channel holds more than
    sixteen answers. *)
Theorem mcp_no_panic seen st e : Runs newMcp seen st ->
  step e st <> Panics /\ Reachable (mc_rallies st) /\ forall ch b, mc_chans st !! ch = Some b -> (List.length b <= resp_capacity)%nat.
Proof.
  intros H. assert (I : McpInv st) by (eapply runs_inv; [apply mcp_inv_init|done]). split_and!.
  - pose proof (mcp_inv_step e st I) as H'. by destruct (step e st).
  - apply I.
  - intros ch b Hb. by eapply mi_chans.
Qed.

(** C4: each message is answered at most once, by its own answer, and in order: what the stream of a
    channel takes is, in order, what the handlers of its messages put there, less what is still in the buffer;
    each answer put there belongs to one message that came for that channel, carries the id of its
    request, and no message is answered twice. *)
Theorem answered_once seen st : Runs newMcp seen st ->
  (forall ch, accepted ch seen = (taken ch seen ++ default [] (mc_chans st !! ch))%list) /\
  (forall h ch resp, Accepted h ch resp ∈ seen -> exists m, Posted h ch m ∈ seen /\ answers m resp) /\
  NoDup (accepted_handlers seen).
Proof. intros [T1 _ T3 T4 _]%runs_traced. done. Qed.

(** A channel that no id names and no stream serves. *)
Definition orphan (ch : nat) (st : Mcp) : Prop :=
  (forall id, mc_sessions st !! id <> Some ch) /\ (forall h id, mc_streams st !! h <> Some (Serving id ch)) /\ (ch < mc_next st)%nat.

(** A handler that sends to a full channel. *)
Definition stuck (h ch : nat) (st : Mcp) : Prop :=
  exists resp b, mc_posts st !! h = Some (Sending ch resp) /\ mc_chans st !! ch = Some b /\ List.length b = resp_capacity.

Lemma orphan_end ch st h id : orphan ch st -> orphan ch (end_stream st h id).
Proof.
  intros (O1 & O2 & O3). split_and!; cbn; [|intros h' id' H|done].
  - intros id'. destruct (decide (id = id')) as [<-|]; [by rewrite lookup_delete_eq|by rewrite lookup_delete_ne].
  - apply lookup_delete_Some in H as [_ H]. by apply O2 in H.
Qed.

Lemma orphan_keeps ch st st' : orphan ch st -> mc_sessions st' = mc_sessions st -> mc_streams st' = mc_streams st -> mc_next st' = mc_next st -> orphan ch st'.
Proof. unfold orphan. by intros ? -> -> ->. Qed.

Lemma stuck_keeps h ch st st' : stuck h ch st -> mc_posts st' !! h = mc_posts st !! h -> mc_chans st' !! ch = mc_chans st !! ch -> stuck h ch st'.
Proof. unfold stuck. by intros ? -> ->. Qed.

Lemma orphan_step e ch st st' more : McpInv st -> orphan ch st -> step e st = Goes st' more ->
  orphan ch st' /\ taken ch more = [] /\ forall h, stuck h ch st -> stuck h ch st'.
Proof.
  intros I O. pose proof O as (O1 & O2 & O3).
  assert (HE : forall h id, orphan ch (end_stream st h id) /\ taken ch [] = [] /\ forall k, stuck k ch st -> stuck k ch (end_stream st h id)).
  { intros h id. split_and!; [by apply orphan_end|done|]. intros k Hk. by eapply stuck_keeps. }
  assert (HK : forall ra k p, ~ stuck k ch st -> forall h, stuck h ch st -> stuck h ch (set_post (st <| mc_rallies := ra |>) k p)).
  { intros ra k p Hk h Hh. eapply stuck_keeps; [done| |done]. cbn. rewrite lookup_insert_ne; [done|]. by intros ->. }
  destruct e; cbn [McpTransport.step].
  - unfold open_stream, create. destruct rand as [b|]; cbn; intros [= <- <-].
    + split_and!; [split_and!; cbn|done|].
      * intros id. destruct (decide ("mcpts_" +:+ hex_encode b = id)) as [<-|]; [rewrite lookup_insert_eq; intros [= E]; lia|by rewrite lookup_insert_ne].
      * intros h' id [[_ ?]|[_ H]]%lookup_insert_Some; [done|by apply O2 in H].
      * lia.
      * intros h Hh. eapply stuck_keeps; [done|done|]. cbn. rewrite lookup_insert_ne; [done|lia].
    + split_and!; [split_and!; cbn; [done| |done]|done|intros h Hh; by eapply stuck_keeps].
      intros h' id [[_ ?]|[_ H]]%lookup_insert_Some; [done|by apply O2 in H].
  - unfold write_endpoint. destruct (mc_streams st !! h) as [[id|]|] eqn:Hh; [|done..]. destruct ok; cbn [negb]; [|intros [= <- <-]; apply HE].
    unfold get. destruct (mc_sessions st !! id) as [c|] eqn:Hid; intros [= <- <-]; [|apply HE].
    split_and!; [split_and!; cbn; [done| |done]|done|intros k Hk; by eapply stuck_keeps].
    intros h' id' [[_ [= -> ->]]|[_ H]]%lookup_insert_Some; [by apply O1 in Hid|by apply O2 in H].
  - unfold serve. destruct (mc_streams st !! h) as [[|id c]|]; [done| |done]. intros [= <- <-]. apply HE.
  - unfold serve. destruct (mc_streams st !! h) as [[|id c]|] eqn:Hh; [done| |done]. destruct (mc_chans st !! c) as [[|resp rest]|] eqn:Hc; [done| |done].
    intros [= <- <-]. assert (Hne : c <> ch) by (intros ->; by apply O2 in Hh).
    assert (O' : orphan ch (st <| mc_chans := <[c := rest]> (mc_chans st) |>)) by done.
    split_and!; [destruct ok; [done|by apply orphan_end]|unfold taken; cbn; by rewrite decide_False|].
    intros k Hk. eapply stuck_keeps; [done|by destruct ok|]. destruct ok; cbn; by rewrite lookup_insert_ne.
  - unfold serve. destruct (mc_streams st !! h) as [[|id c]|]; [done| |done]. destruct ok; intros [= <- <-]; [done|apply HE].
  - unfold receive_message. destruct (String.eqb session ""); [by intros [= <- <-]|]. unfold get.
    destruct (mc_sessions st !! session) as [c|]; [|by intros [= <- <-]]. destruct body as [body|]; [|by intros [= <- <-]]. cbn. intros [= <- <-].
    split_and!; [done|done|]. intros k Hk. eapply stuck_keeps; [done| |done]. cbn. rewrite lookup_insert_ne; [done|].
    destruct Hk as (resp & b & Hk & _). destruct (mi_posts st I k _ Hk). lia.
  - unfold dispatch. destruct (mc_posts st !! h) as [[c req| |]|] eqn:Hh; try done. destruct (dispatchMCP _ _ _ _ _ _) as [[ra d]|]; [|done].
    intros [= <- <-]. split_and!; [done|done|]. apply HK. intros (? & ? & ? & _). congruence.
  - unfold resume_join. destruct (mc_posts st !! h) as [[|c id call jch timeout|]|] eqn:Hh; try done.
    destruct (reader_step _ jch e) as [[ra d]|]; [|done]. destruct (tool_answer _ _ _ _) as [resp|]; [|done]. intros [= <- <-].
    split_and!; [done|done|]. apply HK. intros (? & ? & ? & _). congruence.
  - unfold send. destruct (mc_posts st !! h) as [[| |c resp]|] eqn:Hh; try done. destruct (mc_chans st !! c) as [b|] eqn:Hc; [|done].
    destruct (Nat.ltb_spec (List.length b) resp_capacity) as [Hl|]; [|done]. intros [= <- <-]. split_and!; [done|done|].
    intros k (resp' & b' & H1 & H2 & H3). assert (c <> ch) by (intros ->; rewrite H2 in Hc; injection Hc as ->; lia).
    eapply stuck_keeps; [by exists resp', b'| |]; cbn; [rewrite lookup_delete_ne; [done|]; intros ->; congruence|by rewrite lookup_insert_ne].
  - unfold rally_section. destruct (other_section l st); [|done]. destruct (run_label _ _); [|done]. by intros [= <- <-].
Qed.

(** When a client leaves, its channel is orphaned for good: once no id names a channel and no stream
    serves it, nothing is ever taken from it, so that an answer put there with status 202 is lost, and
    the handler of a message that finds it full stays blocked for ever, in every continuation. *)
Theorem orphan_blocks seen0 st ch seen st' : Runs newMcp seen0 st -> orphan ch st -> Runs st seen st' ->
  orphan ch st' /\ taken ch seen = [] /\ forall h, stuck h ch st -> stuck h ch st'.
Proof.
  intros H0 O. assert (I : McpInv st) by (eapply runs_inv; [apply mcp_inv_init|done]). clear H0.
  induction 1 as [|seen st1 e st2 more Hr (IH1 & IH2 & IH3) He]; [done|].
  destruct (orphan_step e ch st1 st2 more) as (H1 & H2 & H3); [by eapply runs_inv|done|done|]. split_and!; [done| |by auto].
  unfold taken in *. by rewrite omap_app, IH2, H2.
Qed.
End Steps.

(** ** Runs *)

Section Run.
Variable float_literal : string -> option string.
Variable version : string.
Variable unmarshal_text : string -> string.
Variable failure_text : MCPToolCallRequest -> ToolFailure -> string.

Fixpoint run_events (es : list Event) (st : Mcp) (seen : list Seen) : option (Mcp * list Seen) :=
  match es with
  | [] => Some (st, seen)
  | e :: es => match step float_literal version unmarshal_text failure_text e st with
               | Goes st' more => run_events es st' (seen ++ more)
               | Blocked | Panics => None
               end
  end.

Lemma run_events_runs es st0 st seen st' seen' : Runs float_literal version unmarshal_text failure_text st0 seen st ->
  run_events es st seen = Some (st', seen') -> Runs float_literal version unmarshal_text failure_text st0 seen' st'.
Proof.
  revert st seen. induction es as [|e es IH]; intros st seen Hr H; cbn [run_events] in H; [by simplify_eq|].
  destruct (step _ _ _ _ e st) as [| |st1 more] eqn:E; [done..|]. eapply IH; [|done]. by eapply runs_step.
Qed.
End Run.

(** The server of the examples. *)
Definition ex_step := step (fun l => Some l) "dev" (fun _ => "bad") (fun _ _ => "failed").
Definition ex_run (es : list Event) : Mcp * list Seen :=
  default (newMcp, []) (run_events (fun l => Some l) "dev" (fun _ => "bad") (fun _ _ => "failed") es newMcp []).
Abbreviation ex_Runs := (Runs (fun l => Some l) "dev" (fun _ => "bad") (fun _ _ => "failed")).

Lemma ex_runs es : ex_Runs newMcp (snd (ex_run es)) (fst (ex_run es)).
Proof.
  unfold ex_run. destruct (run_events _ _ _ _ es newMcp []) as [[st seen]|] eqn:E; [|apply runs_refl].
  eapply run_events_runs; [apply runs_refl|exact E].
Qed.

Definition ex_id : string := "mcpts_" +:+ hex_encode "abcdefgh".
Definition ex_open : list Event := [EOpen 5 (Some "abcdefgh"); EEndpoint 0 true].
Definition ex_body (id : Z) (method : string) (params : list (string * json)) : string :=
  encode (JObj [("jsonrpc", JStr "2.0"); ("id", JNum (Itoa id)); ("method", JStr method); ("params", JObj params)]).
(** The message of handler [h], up to the answer in the channel. *)
Definition ex_call (h : nat) (method : string) (params : list (string * json)) : list Event :=
  [EMessage ex_id (Some (ex_body (Z.of_nat h) method params)); EDispatch h (mkInputs 1700 1700 (Some "ab"))].
Definition ex_create : list (string * json) :=
  [("name", JStr "rally_create"); ("arguments", JObj [("participants", JArr [JStr "a"; JStr "b"])])].
Definition ex_join : list (string * json) :=
  [("name", JStr "rally_join"); ("arguments", JObj [("session_id", JStr (generateRallyID 1700 "ab")); ("as", JStr "a")])].

(** A stream; a rally is created, and joined by its first participant, who gets the baton. *)
Definition ex_rally : list Event :=
  (ex_open ++ ex_call 1 "tools/call" ex_create ++ [ESend 1; ETake 0 true] ++ ex_call 2 "tools/call" ex_join ++ [EJoin 2 (Receive true); ESend 2])%list.

Lemma mcp_no_panic_witness : ex_step (ETake 0 true) (fst (ex_run ex_rally)) <> Panics /\ ra_sessions (mc_rallies (fst (ex_run ex_rally))) !! generateRallyID 1700 "ab" <> None.
Proof.
  split; [|vm_compute; discriminate].
  exact (proj1 (mcp_no_panic _ _ _ _ _ _ (ETake 0 true) (ex_runs ex_rally))).
Defined.

Lemma answered_once_witness :
  List.length (accepted 0 (snd (ex_run ex_rally))) = 2%nat /\
  accepted 0 (snd (ex_run ex_rally)) = (taken 0 (snd (ex_run ex_rally)) ++ default [] (mc_chans (fst (ex_run ex_rally)) !! 0%nat))%list.
Proof. split; [vm_compute; reflexivity|]. exact (proj1 (answered_once _ _ _ _ _ _ (ex_runs ex_rally)) 0%nat). Defined.

(** Seventeen messages without a reader; then the client leaves. *)
Definition ex_flood : list Event :=
  (ex_open ++ List.concat (map (fun h => ex_call h "x" [] ++ [ESend h])%list (seq 1 16)) ++ ex_call 17 "x" [] ++ [ELeave 0])%list.

Definition no_way_in (st : Mcp) : bool :=
  match map_to_list (mc_sessions st), map_to_list (mc_streams st) with [], [] => true | _, _ => false end && (0 <? mc_next st)%nat.
Definition is_stuck (h : nat) (st : Mcp) : bool :=
  match mc_posts st !! h, mc_chans st !! 0%nat with Some (Sending 0 _), Some b => Nat.eqb (List.length b) resp_capacity | _, _ => false end.

Lemma no_way_in_orphan st : no_way_in st = true -> orphan 0 st.
Proof.
  unfold no_way_in. intros [H1 H2]%andb_true_iff. apply Nat.ltb_lt in H2.
  destruct (map_to_list (mc_sessions st)) eqn:E1; [|done]. destruct (map_to_list (mc_streams st)) eqn:E2; [|done].
  apply map_to_list_empty_iff in E1, E2. unfold orphan. rewrite E1, E2. split_and!; [|intros *|done]; intros *; by rewrite lookup_empty.
Qed.

Lemma is_stuck_stuck h st : is_stuck h st = true -> stuck h 0 st.
Proof.
  unfold is_stuck, stuck. destruct (mc_posts st !! h) as [[| |[|] resp]|]; try done. destruct (mc_chans st !! 0%nat) as [b|]; [|done].
  intros H%Nat.eqb_eq. by exists resp, b.
Qed.

Lemma orphan_blocks_witness : stuck 17 0 (fst (ex_run (ex_flood ++ [EOpen 6 None]))).
Proof.
  assert (E : run_events (fun l => Some l) "dev" (fun _ => "bad") (fun _ _ => "failed") [EOpen 6 None] (fst (ex_run ex_flood)) [] =
              Some (fst (ex_run (ex_flood ++ [EOpen 6 None])), [])) by (vm_compute; reflexivity).
  eapply run_events_runs in E; [|apply runs_refl].
  eapply (orphan_blocks _ _ _ _ _ (fst (ex_run ex_flood)) 0); [apply ex_runs|apply no_way_in_orphan; vm_compute; reflexivity|exact E|].
  apply is_stuck_stuck. vm_compute. reflexivity.
Defined.

(** A notification is answered too, with neither a result nor an error. *)
Example notification_answered :
  accepted 0 (snd (ex_run (ex_open ++ [EMessage ex_id (Some (encode (JObj [("jsonrpc", JStr "2.0"); ("method", JStr "notifications/initialized")])));
    EDispatch 1 (mkInputs 0 0 None); ESend 1]))) = [mkMCPResponse "2.0" None None None].
Proof. vm_compute. reflexivity. Qed.

(** An id drawn when the random source fails is announced to the client and never works. *)
Example fallback_announced :
  snd (ex_run [EOpen 5 None; EEndpoint 0 true; EMessage "mcpts_5_fallback" (Some "{}")]) = [SawEndpoint 0 "mcpts_5_fallback"; Refused 404].
Proof. vm_compute. reflexivity. Qed.
