(* ===== verification/McpClient.v ===== *)
(** * The MCP client of the command line

    [internal/cli/rally_mcp_agent.go]: the one-shot client of [rallish rally mcp-agent], which
    opens the event stream, makes the handshake, calls one tool and prints its text.  What the
    daemon sends is the environment of a run: the answer to the request for the stream, the
    text of the stream with the error that ends it, and the answer to each message posted.
    The theorems put the dispatch of [Mcp.v] at the other end. *)

From S2P Require Import Prelude GoStrings Json Codec Lines Utf8 Contract A2A Rally Mcp.
From Stdlib Require Import Ascii String.
#[local] Open Scope string_scope.

(** ** Options *)

(* src: internal/cli/rally_mcp_agent.go 25-37 mcpAgentOptions *)
Record mcpAgentOptions := mkAgentOptions {
  mo_Mode : string; mo_Participants : string; mo_Repo : string; mo_Task : string; mo_FirstHolder : string;
  mo_SessionID : string; mo_As : string; mo_Timeout : Z; mo_Note : string; mo_HandoffTo : string }.

(** Durations, in nanoseconds. *)
(* src: internal/cli/rally_mcp_agent.go 20-23 mcpClientDefaultTimeout *)
Definition mcpClientDefaultTimeout : Z := 30000000000.
Definition mcpClientJoinTimeoutSlop : Z := 5000000000.

(** [Duration.Milliseconds]: the division drops the fraction. *)
Definition milliseconds (d : Z) : Z := Z.quot d 1000000.

(* src: internal/cli/rally.go 523-533 splitParticipants *)
Definition splitParticipants (s : string) : list string :=
  List.filter (fun p => negb (String.eqb p "")) (map TrimSpace (Split s ","%char)).

(** ** Errors *)

Inductive ClientError : Type :=
| CMode (mode : string)
| CTooFew
| CInvalid (e : ContractError)
| CBroker                                    (** no daemon *)
| CRequest (what : string)                   (** the request has no answer *)
| CStatus (what : string) (code : Z) (body : string)
| CRead (text : string)                      (** the stream ended with an error *)
| CNoEndpoint
| CClosed                                    (** the stream ended before the response *)
| CMessage                                   (** an event that is no message *)
| CRpc (code : Z) (message : string)
| CMissingContent | CMalformedContent
| CContentType (typ : string)
| CTool (text : string)
| CTimeout.                                  (** [ErrTimeoutWaitingForBaton] *)

(** ** The environment of a run *)

(** The answer to a request: none, or a status and a body. *)
Inductive Reply : Set := NoReply | Status (code : Z) (body : string).

Record Daemon := mkDaemon {
  dm_URL : string;
  dm_sse : Reply;                            (** to [GET /mcp/sse] *)
  dm_stream : string;                        (** the bytes of its body *)
  dm_stream_end : option string;             (** the error that ends them; [None] is the end of the stream *)
  dm_post : string -> string -> Reply        (** to a message, by its address and its body *)
}.

(** ** The client *)

(** The lines of the stream that were not read yet, and the error after them. *)
(* src: internal/cli/rally_mcp_agent.go 242-250 mcpClient *)
Record mcpClient := mkClient {
  cl_endpoint : string; cl_lines : list string; cl_end : option string; cl_nextID : Z;
  cl_posts : list (string * string) }.
#[export] Instance eta_mcpClient : Eta mcpClient :=
  fun c => mkClient (cl_endpoint c) (cl_lines c) (cl_end c) (cl_nextID c) (cl_posts c).

Definition token_too_long : string := "bufio.Scanner: token too long".

Definition data_prefix : string := "data: ".

(** [line[len("data: "):]] of a line with that prefix. *)
Definition data_of (line : string) : option string := strip data_prefix line.

(* src: internal/cli/rally_mcp_agent.go 306-321 mcpClient.readEndpoint *)
Fixpoint readEndpoint (lines : list string) : option (string * list string) :=
  match lines with
  | [] => None
  | line :: rest =>
      if String.eqb line "" then readEndpoint rest
      else match data_of line with Some path => Some (path, rest) | None => readEndpoint rest end
  end.

Section Client.
Variable float_literal : string -> option string.

(** The lines of one message: its data line, and what follows the empty line that ends it. *)
(* src: internal/cli/rally_mcp_agent.go 401-421 mcpClient.readMessage *)
Fixpoint readData (lines : list string) (data : string) : option (string * list string) :=
  match lines with
  | [] => None
  | line :: rest =>
      if String.eqb line "" then (if String.eqb data "" then readData rest data else Some (data, rest))
      else if HasPrefix line ": " then readData rest data
      else match data_of line with Some d => readData rest d | None => readData rest data end
  end.

(* src: internal/cli/rally_mcp_agent.go 401-426 mcpClient.readMessage *)
Definition readMessage (c : mcpClient) : mcpClient * (ClientError + MCPJSONRPCResponse) :=
  match readData (cl_lines c) "" with
  | None => (c <| cl_lines := [] |>, inl (match cl_end c with Some text => CRead text | None => CClosed end))
  | Some (data, rest) =>
      let c := c <| cl_lines := rest |> in
      match Unmarshal MCPJSONRPCResponse_zero (into_struct (MCPJSONRPCResponse_fields float_literal)) data with
      | None => (c, inl CMessage)
      | Some msg => (c, inr msg)
      end
  end.

(** [msg.ID == float64(id)]. *)
Definition is_id (id : Z) (v : option json) : bool :=
  match v with Some (JNum lit) => String.eqb lit (Itoa id) | _ => false end.

(** The loop that waits for the response: each message takes a line at least. *)
(* src: internal/cli/rally_mcp_agent.go 386-398 mcpClient.call *)
Fixpoint await (fuel : nat) (id : Z) (c : mcpClient) : mcpClient * (ClientError + option (list (string * json))) :=
  match fuel with
  | O => (c, inl CClosed)
  | S fuel =>
      match readMessage c with
      | (c, inl e) => (c, inl e)
      | (c, inr msg) =>
          if is_id id (mr_ID msg)
          then match mr_Error msg with
               | Some e => (c, inl (CRpc (me_Code e) (me_Message e)))
               | None => (c, inr (mr_Result msg))
               end
          else await fuel id c
      end
  end.

(* src: internal/cli/rally_mcp_agent.go 354-369 mcpClient.call *)
Definition call_request (id : Z) (method : string) (params : json) : MCPJSONRPCRequest :=
  mkMCPRequest "2.0" (Some (JNum (Itoa id))) method (Some params).
Definition call_body (id : Z) (method : string) (params : json) : string :=
  encode (encode_struct (MCPJSONRPCRequest_fields float_literal) (call_request id method params)).

(* src: internal/cli/rally_mcp_agent.go 353-399 mcpClient.call *)
Definition call (d : Daemon) (c : mcpClient) (method : string) (params : json)
    : mcpClient * (ClientError + option (list (string * json))) :=
  let id := (cl_nextID c + 1)%Z in
  let body := call_body id method params in
  let c := c <| cl_nextID := id |> <| cl_posts := (cl_posts c ++ [(cl_endpoint c, body)])%list |> in
  match dm_post d (cl_endpoint c) body with
  | NoReply => (c, inl (CRequest "jsonrpc"))
  | Status code text =>
      if negb (code =? 202)%Z then (c, inl (CStatus "jsonrpc" code (TrimSpace text)))
      else await (S (List.length (cl_lines c))) id c
  end.

(* src: pkg/contract/mcp.go 52-57 MCPInitializeRequest *)
Definition initialize_params : json :=
  JObj [ ("protocolVersion", JStr "2025-03-26"); ("capabilities", enc_capabilities (mkMCPCapabilities None));
         ("clientInfo", enc_server_info (mkMCPServerInfo "rallish-mcp-agent" "0.1.0")) ].

(** The body of a refusal is read after it was closed, which yields nothing. *)
(* src: internal/cli/rally_mcp_agent.go 271-304 mcpClient.handshake *)
Definition handshake (d : Daemon) : mcpClient * (ClientError + unit) :=
  let c := mkClient "" [] None 0 [] in
  match dm_sse d with
  | NoReply => (c, inl (CRequest "mcp sse"))
  | Status code _ =>
      if negb (code =? 200)%Z then (c, inl (CStatus "mcp sse" code ""))
      else
        let '(lines, long) := scan (dm_stream d) in
        let c := c <| cl_lines := lines |> <| cl_end := if long then Some token_too_long else dm_stream_end d |> in
        match readEndpoint lines with
        | None => (c <| cl_lines := [] |>, inl (match cl_end c with Some text => CRead text | None => CNoEndpoint end))
        | Some (path, rest) =>
            match call d (c <| cl_endpoint := dm_URL d +:+ path |> <| cl_lines := rest |>) "initialize" initialize_params with
            | (c, inl e) => (c, inl e)
            | (c, inr _) => (c, inr tt)
            end
        end
  end.

Definition key_value (k : string) (l : list (string * json)) : option json := option_map snd (List.find (fun kv => String.eqb (fst kv) k) l).
Definition as_string (j : option json) : string := match j with Some (JStr s) => s | _ => "" end.

(** What the result of a tool call holds. *)
(* src: internal/cli/rally_mcp_agent.go 334-350 mcpClient.callTool *)
Definition tool_text (result : option (list (string * json))) : ClientError + string :=
  let result := default [] result in
  match key_value "content" result with
  | Some (JArr (first :: _)) =>
      match first with
      | JObj item =>
          let typ := as_string (key_value "type" item) in
          if negb (String.eqb typ "text") then inl (CContentType typ)
          else
            let text := as_string (key_value "text" item) in
            match key_value "isError" result with
            | Some (JBool true) => inl (CTool text)
            | _ => inr text
            end
      | _ => inl CMalformedContent
      end
  | _ => inl CMissingContent
  end.

(* src: internal/cli/rally_mcp_agent.go 323-351 mcpClient.callTool *)
Definition callTool (d : Daemon) (c : mcpClient) (name : string) (args : json) : mcpClient * (ClientError + string) :=
  let params := encode_struct MCPToolCallRequest_fields (mkToolCall name (Some args)) in
  match call d c "tools/call" params with
  | (c, inl e) => (c, inl e)
  | (c, inr result) => (c, tool_text result)
  end.

(** ** The modes *)

(** A run: the messages posted, the text printed and the error returned. *)
Record Ran := mkRan { rn_posts : list (string * string); rn_out : string; rn_err : option ClientError }.
Definition refused (e : ClientError) : Ran := mkRan [] "" (Some e).

(** [resolveBrokerClient] with the timeout of the client. *)
Variable resolve : Z -> option Daemon.

(* src: internal/cli/rally_mcp_agent.go 252-262 newMCPClient *)
Definition newMCPClient (timeout : Z) : ClientError + Daemon :=
  match resolve timeout with None => inl CBroker | Some d => inr d end.

(** A client, the handshake and one tool call, which every mode ends with. *)
Definition one_shot (timeout : Z) (name : string) (args : json) (finish : string -> option ClientError) : Ran :=
  match newMCPClient timeout with
  | inl e => refused e
  | inr d =>
      match handshake d with
      | (c, inl e) => mkRan (cl_posts c) "" (Some e)
      | (c, inr _) =>
          match callTool d c name args with
          | (c, inl e) => mkRan (cl_posts c) "" (Some e)
          | (c, inr text) => mkRan (cl_posts c) (text +:+ nl) (finish text)
          end
      end
  end.

Definition printed (text : string) : option ClientError := None.

(* src: internal/cli/rally_mcp_agent.go 94-121 runMCPAgentCreate *)
Definition runMCPAgentCreate (opts : mcpAgentOptions) : Ran :=
  let names := splitParticipants (mo_Participants opts) in
  if (List.length names <? 2)%nat then refused CTooFew
  else one_shot mcpClientDefaultTimeout "rally_create"
         (encode_struct NewRallyRequest_fields (mkNewRallyRequest names (mo_Repo opts) (mo_Task opts) (mo_FirstHolder opts))) printed.

(* src: pkg/contract/mcp.go 144-147 MCPTimeoutResult *)
Definition is_timeout (text : string) : bool :=
  match Unmarshal false (into_struct [MkField "timeout" id (fun v _ => v) enc_bool into_bool]) text with Some b => b | None => false end.

(* src: internal/cli/rally_mcp_agent.go 123-163 runMCPAgentJoin *)
Definition runMCPAgentJoin (opts : mcpAgentOptions) : Ran :=
  match NewSessionID (mo_SessionID opts), NewParticipantName (mo_As opts) with
  | inl e, _ | inr _, inl e => refused (CInvalid e)
  | inr _, inr _ =>
      let clientTimeout := if (mo_Timeout opts <=? 0)%Z then 30000000000%Z else mo_Timeout opts in
      one_shot (wrap64 (clientTimeout + mcpClientJoinTimeoutSlop)) "rally_join"
        (encode_struct RallyJoinToolArgs_fields (mkJoinArgs (mo_SessionID opts) (mo_As opts) (milliseconds (mo_Timeout opts))))
        (fun text => if is_timeout text then Some CTimeout else None)
  end.

(* src: internal/cli/rally_mcp_agent.go 165-194 runMCPAgentDone *)
Definition runMCPAgentDone (opts : mcpAgentOptions) : Ran :=
  match NewSessionID (mo_SessionID opts), NewParticipantName (mo_As opts) with
  | inl e, _ | inr _, inl e => refused (CInvalid e)
  | inr _, inr _ =>
      one_shot mcpClientDefaultTimeout "rally_done"
        (encode_struct RallyDoneToolArgs_fields (mkDoneArgs (mo_SessionID opts) (mo_As opts) (mo_Note opts) (mo_HandoffTo opts))) printed
  end.

Definition runMCPAgentSession (name : string) (opts : mcpAgentOptions) : Ran :=
  match NewSessionID (mo_SessionID opts) with
  | inl e => refused (CInvalid e)
  | inr _ => one_shot mcpClientDefaultTimeout name (encode_struct RallySessionToolArgs_fields (mkSessionArgs (mo_SessionID opts))) printed
  end.

(* src: internal/cli/rally_mcp_agent.go 196-217 runMCPAgentStatus *)
Definition runMCPAgentStatus : mcpAgentOptions -> Ran := runMCPAgentSession "rally_status".

(* src: internal/cli/rally_mcp_agent.go 219-240 runMCPAgentInterrupt *)
Definition runMCPAgentInterrupt : mcpAgentOptions -> Ran := runMCPAgentSession "rally_interrupt".

(* src: internal/cli/rally_mcp_agent.go 77-92 runRallyMCPAgent *)
Definition runRallyMCPAgent (opts : mcpAgentOptions) : Ran :=
  if String.eqb (mo_Mode opts) "create" then runMCPAgentCreate opts
  else if String.eqb (mo_Mode opts) "join" then runMCPAgentJoin opts
  else if String.eqb (mo_Mode opts) "done" then runMCPAgentDone opts
  else if String.eqb (mo_Mode opts) "status" then runMCPAgentStatus opts
  else if String.eqb (mo_Mode opts) "interrupt" then runMCPAgentInterrupt opts
  else refused (CMode (mo_Mode opts)).
End Client.

(** ** Reading the stream *)

Fixpoint beats (n : nat) : string := match n with O => "" | S n => heartbeat +:+ beats n end.
Fixpoint beat_lines (n : nat) : list string := match n with O => [] | S n => ": ping" :: "" :: beat_lines n end.

Lemma scan_beats n rest : scan (beats n +:+ rest) = ((beat_lines n ++ fst (scan rest))%list, snd (scan rest)).
Proof.
  induction n as [|n IH]; cbn [beats beat_lines]; [apply surjective_pairing|].
  by rewrite <-string_app_assoc, scan_heartbeat, IH.
Qed.

Lemma readData_beats n lines : readData (beat_lines n ++ lines) "" = readData lines "".
Proof. induction n as [|n IH]; [done|exact IH]. Qed.

Lemma data_of_prefix x : data_of ("data: " +:+ x) = Some x.
Proof. apply strip_app. Qed.

Lemma readData_event name x rest : x <> "" -> HasPrefix ("event: " +:+ name) data_prefix = false ->
  readData (("event: " +:+ name) :: ("data: " +:+ x) :: "" :: rest) "" = Some (x, rest).
Proof.
  intros Hx Hn. change (readData (("event: " +:+ name) :: ("data: " +:+ x) :: "" :: rest) "") with
    (match data_of ("event: " +:+ name) with Some d => readData (("data: " +:+ x) :: "" :: rest) d | None => readData (("data: " +:+ x) :: "" :: rest) "" end).
  change (data_of ("event: " +:+ name)) with (@None string).
  change (readData (("data: " +:+ x) :: "" :: rest) "") with (match data_of ("data: " +:+ x) with Some d => readData ("" :: rest) d | None => readData ("" :: rest) "" end).
  rewrite data_of_prefix. cbn [readData]. change (String.eqb "" "") with true. cbn iota.
  by assert (String.eqb x "" = false) as -> by by apply String.eqb_neq.
Qed.

Lemma readEndpoint_event path rest : readEndpoint (("event: endpoint") :: ("data: " +:+ path) :: "" :: rest) = Some (path, "" :: rest).
Proof.
  change (readEndpoint (("event: endpoint") :: ("data: " +:+ path) :: "" :: rest)) with
    (match data_of ("data: " +:+ path) with Some path => Some (path, "" :: rest) | None => readEndpoint ("" :: rest) end).
  by rewrite data_of_prefix.
Qed.

Section Await.
Variable float_literal : string -> option string.
Abbreviation fields := (MCPJSONRPCResponse_fields float_literal).

(** A response between heartbeats is the one the client waits for. *)
Lemma await_response fuel id c n j msg rest :
  json_wf j = true -> into_struct fields j MCPJSONRPCResponse_zero = Some msg -> is_id id (mr_ID msg) = true ->
  cl_lines c = "" :: (beat_lines n ++ "event: message" :: ("data: " +:+ encode j) :: "" :: rest)%list \/
  cl_lines c = (beat_lines n ++ "event: message" :: ("data: " +:+ encode j) :: "" :: rest)%list ->
  await float_literal (S fuel) id c =
    (c <| cl_lines := rest |>, match mr_Error msg with Some e => inl (CRpc (me_Code e) (me_Message e)) | None => inr (mr_Result msg) end).
Proof.
  intros Hj Hm Hid Hl. cbn [await]. unfold readMessage.
  assert (E : readData (cl_lines c) "" = Some (encode j, rest)).
  { destruct Hl as [->| ->]; [change (readData (beat_lines n ++ "event: message" :: ("data: " +:+ encode j) :: "" :: rest) "" = Some (encode j, rest))|];
      rewrite readData_beats; apply (readData_event "message"); [by apply encode_nonempty|done|by apply encode_nonempty|done]. }
  rewrite E, (Unmarshal_encode _ _ _ msg Hj Hm), Hid. by destruct (mr_Error msg).
Qed.
End Await.

(** ** Arguments *)

Lemma known_keys_encode {R} (fs : list (Field R)) r : (forall f, In f fs -> find_field fs (f_name f) = Some f) ->
  known_keys fs (encode_fields fs r) = true.
Proof.
  intros H. apply forallb_forall. intros [k j] Hk. unfold encode_fields in Hk. apply list_elem_of_In in Hk.
  apply list_elem_of_omap in Hk as (f & Hf & E). apply list_elem_of_In in Hf. cbn [fst].
  destruct (f_enc f (f_get f r)) as [v|]; [|done]. injection E as <- <-. by rewrite H.
Qed.

(** Arguments that were encoded are the ones the tool reads. *)
Lemma arguments_encode {R} (fs : list (Field R)) zero r : table_ok zero fs -> struct_ok fs zero r ->
  arguments fs zero (Some (encode_struct fs r)) = Some r.
Proof.
  intros (Hf & _) [H _]. unfold arguments, into_strict, encode_struct in *. rewrite known_keys_encode by done. exact H.
Qed.

Lemma NewRallyRequest_table : table_ok (mkNewRallyRequest [] "" "" "") NewRallyRequest_fields.
Proof. solve_table. Qed.
Lemma RallyJoinToolArgs_table : table_ok RallyJoinToolArgs_zero RallyJoinToolArgs_fields.
Proof. solve_table. Qed.
Lemma RallyDoneToolArgs_table : table_ok RallyDoneToolArgs_zero RallyDoneToolArgs_fields.
Proof. solve_table. Qed.
Lemma RallySessionToolArgs_table : table_ok RallySessionToolArgs_zero RallySessionToolArgs_fields.
Proof. solve_table. Qed.

Lemma strings_ok l : forallb utf8_valid l = true -> enc_ok (fun l => Some (JArr (map JStr l))) (into_slice "" into_string) [] l.
Proof.
  intros H. rewrite forallb_forall in H. split.
  - cbn [into_slice]. apply into_elems_map. apply Forall_forall. intros x _. done.
  - cbn [json_wf]. apply forallb_forall. intros j (y & <- & Hy)%in_map_iff. by apply H.
Qed.

Lemma quot_int64 d k : (0 < k)%Z -> in_int64 d = true -> in_int64 (Z.quot d k) = true.
Proof.
  unfold in_int64, min_int64, max_int64. intros Hk H. reflect_bools.
  assert (HB : forall a, (0 <= a)%Z -> (0 <= Z.quot a k <= a)%Z).
  { intros a Ha. split; [by apply Z.quot_pos|]. apply Z.quot_le_upper_bound; [done|]. nia. }
  destruct (Z.le_gt_cases 0 d) as [Hd|Hd]; [specialize (HB d Hd)|].
  - apply andb_true_iff; split; apply Z.leb_le; lia.
  - specialize (HB (- d)%Z ltac:(lia)). rewrite Z.quot_opp_l in HB by lia. apply andb_true_iff; split; apply Z.leb_le; lia.
Qed.

(** ** The flags of a mode and the call they make *)

Definition agent_args (opts : mcpAgentOptions) : json :=
  if String.eqb (mo_Mode opts) "create" then
    encode_struct NewRallyRequest_fields (mkNewRallyRequest (splitParticipants (mo_Participants opts)) (mo_Repo opts) (mo_Task opts) (mo_FirstHolder opts))
  else if String.eqb (mo_Mode opts) "join" then
    encode_struct RallyJoinToolArgs_fields (mkJoinArgs (mo_SessionID opts) (mo_As opts) (milliseconds (mo_Timeout opts)))
  else if String.eqb (mo_Mode opts) "done" then
    encode_struct RallyDoneToolArgs_fields (mkDoneArgs (mo_SessionID opts) (mo_As opts) (mo_Note opts) (mo_HandoffTo opts))
  else encode_struct RallySessionToolArgs_fields (mkSessionArgs (mo_SessionID opts)).

Definition agent_call (opts : mcpAgentOptions) : MCPToolCallRequest := mkToolCall ("rally_" +:+ mo_Mode opts) (Some (agent_args opts)).

(** What the tool of a mode does with the rallies, given the flags. *)
Definition tool_effect (opts : mcpAgentOptions) (inp : Inputs) (ra : Rallies) : option (Rallies * ToolOutcome) :=
  let lift {E} (f : E -> RallyError) (r : option (Rallies * (E + RallySession))) := option_map (fun '(ra, s) => (ra, of_session f s)) r in
  if String.eqb (mo_Mode opts) "create" then
    lift id (Some (createRallySession (in_now inp) (in_now2 inp) (in_rand inp) ra
      (mkNewRallyRequest (splitParticipants (mo_Participants opts)) (mo_Repo opts) (mo_Task opts) (mo_FirstHolder opts))))
  else if String.eqb (mo_Mode opts) "join" then
    option_map (fun '(ra, r) => (ra, match r with
                                     | inl e => Fails (TRally e)
                                     | inr (JoinStream ch) => Waits ch (mcp_join_timeout (milliseconds (mo_Timeout opts)))
                                     | inr _ => Returns (VEvent close_event)
                                     end))
      (mcpToolRallyJoin (in_now inp) ra (mo_SessionID opts) (mo_As opts))
  else if String.eqb (mo_Mode opts) "done" then
    lift Typed (mcpToolRallyDone (in_now inp) ra (mo_SessionID opts) (mo_As opts) (mo_Note opts) (mo_HandoffTo opts))
  else if String.eqb (mo_Mode opts) "status" then lift Typed (Some (ra, mcpToolRallyStatus (in_now inp) ra (mo_SessionID opts)))
  else lift Typed (mcpToolRallyInterrupt (in_now inp) ra (mo_SessionID opts)).

Definition utf8_flags (opts : mcpAgentOptions) : bool :=
  forallb utf8_valid (splitParticipants (mo_Participants opts)) &&
  forallb utf8_valid [mo_Repo opts; mo_Task opts; mo_FirstHolder opts; mo_SessionID opts; mo_As opts; mo_Note opts; mo_HandoffTo opts] &&
  in_int64 (mo_Timeout opts).

Definition modes : list string := ["create"; "join"; "done"; "status"; "interrupt"].

(** The tool reads the flags from the arguments, and the arguments are well-formed JSON. *)
Lemma agent_args_read opts : In (mo_Mode opts) modes -> utf8_flags opts = true ->
  json_wf (agent_args opts) = true /\
  exists tool, tool_named (tc_Name (agent_call opts)) = Some tool /\
    forall inp ra, tool inp ra (Some (agent_args opts)) = tool_effect opts inp ra.
Proof.
  intros Hm H. unfold utf8_flags in H. cbn [forallb] in H. reflect_bools.
  assert (Hns : struct_ok NewRallyRequest_fields (mkNewRallyRequest [] "" "" "")
            (mkNewRallyRequest (splitParticipants (mo_Participants opts)) (mo_Repo opts) (mo_Task opts) (mo_FirstHolder opts))).
  { apply decode_struct_encode; [apply NewRallyRequest_table|]. cbn. split_and!; auto using strings_ok with rallish_wf. }
  assert (Hj : struct_ok RallyJoinToolArgs_fields RallyJoinToolArgs_zero (mkJoinArgs (mo_SessionID opts) (mo_As opts) (milliseconds (mo_Timeout opts)))).
  { apply decode_struct_encode; [apply RallyJoinToolArgs_table|]. cbn. split_and!; auto with rallish_wf. by apply opt_int_ok, quot_int64. }
  assert (Hd : struct_ok RallyDoneToolArgs_fields RallyDoneToolArgs_zero (mkDoneArgs (mo_SessionID opts) (mo_As opts) (mo_Note opts) (mo_HandoffTo opts))).
  { apply decode_struct_encode; [apply RallyDoneToolArgs_table|]. cbn. split_and!; auto with rallish_wf. }
  assert (Hs : struct_ok RallySessionToolArgs_fields RallySessionToolArgs_zero (mkSessionArgs (mo_SessionID opts))).
  { apply decode_struct_encode; [apply RallySessionToolArgs_table|]. cbn. split_and!; auto with rallish_wf. }
  unfold agent_call, agent_args, tool_effect. cbn [tc_Name].
  cbn [In modes] in Hm. decompose [or] Hm; try done; subst;
    repeat match goal with E : _ = mo_Mode opts |- _ => rewrite <-E; clear E end; cbn -[encode_struct NewRallyRequest_fields].
  - split; [apply Hns|]. eexists. split; [reflexivity|]. intros inp ra. unfold rally_create.
    rewrite (arguments_encode _ _ _ NewRallyRequest_table Hns). by destruct (createRallySession _ _ _ _ _).
  - split; [apply Hj|]. eexists. split; [reflexivity|]. intros inp ra. unfold rally_join.
    rewrite (arguments_encode _ _ _ RallyJoinToolArgs_table Hj). cbn. by destruct (mcpToolRallyJoin _ _ _ _) as [[? [?|[]]]|].
  - split; [apply Hd|]. eexists. split; [reflexivity|]. intros inp ra. unfold rally_done.
    rewrite (arguments_encode _ _ _ RallyDoneToolArgs_table Hd). cbn. by destruct (mcpToolRallyDone _ _ _ _ _ _) as [[]|].
  - split; [apply Hs|]. eexists. split; [reflexivity|]. intros inp ra. unfold rally_status.
    by rewrite (arguments_encode _ _ _ RallySessionToolArgs_table Hs).
  - split; [apply Hs|]. eexists. split; [reflexivity|]. intros inp ra. unfold rally_interrupt.
    rewrite (arguments_encode _ _ _ RallySessionToolArgs_table Hs). cbn. by destruct (mcpToolRallyInterrupt _ _ _) as [[]|].
Qed.

Lemma handshake_ok float_literal d lines long path rest : dm_sse d = Status 200 "" -> scan (dm_stream d) = (lines, long) ->
  readEndpoint lines = Some (path, rest) ->
  handshake float_literal d =
    match call float_literal d (mkClient (dm_URL d +:+ path) rest (if long then Some token_too_long else dm_stream_end d) 0 []) "initialize" initialize_params with
    | (c, inl e) => (c, inl e)
    | (c, inr _) => (c, inr tt)
    end.
Proof. intros H1 H2 H3. unfold handshake. rewrite H1, H2. change (negb (200 =? 200)%Z) with false. cbn iota zeta beta. by rewrite H3. Qed.

Lemma call_ok float_literal d c method params : dm_post d (cl_endpoint c) (call_body float_literal (cl_nextID c + 1) method params) = Status 202 "" ->
  call float_literal d c method params =
    await float_literal (S (List.length (cl_lines c))) (cl_nextID c + 1)
      (mkClient (cl_endpoint c) (cl_lines c) (cl_end c) (cl_nextID c + 1)
         (cl_posts c ++ [(cl_endpoint c, call_body float_literal (cl_nextID c + 1) method params)])).
Proof. destruct c. unfold call. cbn -[call_body await List.length Z.add]. intros H. by rewrite H. Qed.

(** ** A run against the server *)

Section Served.
Variable float_literal : string -> option string.
Variable version : string.
Variable unmarshal_text : string -> string.
Variable failure_text : MCPToolCallRequest -> ToolFailure -> string.

(** What the server makes of the body of a message. *)
Definition served (inp : Inputs) (ra : Rallies) (body : string) : option (Rallies * Dispatched) :=
  match parse_message float_literal unmarshal_text body with
  | inl resp => Some (ra, Answer resp)
  | inr req => dispatchMCP version unmarshal_text failure_text inp ra req
  end.

(** The text of a response on the stream. *)
Definition answer_json (resp : MCPJSONRPCResponse) : json := encode_struct (MCPJSONRPCResponse_fields float_literal) resp.

Definition init_answer : MCPJSONRPCResponse := mcpInitialize version (call_request 1 "initialize" initialize_params).

(** The response to the call of a tool that ended so. *)
Definition final_answer (call : MCPToolCallRequest) (final : ToolOutcome) : MCPJSONRPCResponse :=
  match final with
  | Returns v => mcpToolSuccessResponse (Some (JNum "2")) v
  | Fails e => mcpToolErrorResponse (Some (JNum "2")) (failure_text call e)
  | Waits _ _ => mkMCPResponse "2.0" (Some (JNum "2")) None None
  end.

(** The stream of a session of one client: heartbeats before each response, and anything after. *)
Definition session_stream (sid : string) (i j : nat) (resp : MCPJSONRPCResponse) (rest : string) : string :=
  endpoint_event sid +:+ beats i +:+ writeSSEMessage (encode (answer_json init_answer)) +:+
  beats j +:+ writeSSEMessage (encode (answer_json resp)) +:+ rest.

(** A join that waits is settled by what its channel delivers. *)
Definition settled (o final : ToolOutcome) : Prop :=
  match o with Waits _ _ => exists dlv, final = join_outcome dlv | _ => final = o end.

(** Text that survives the way: a value whose strings are UTF-8, a failure whose message is. *)
Definition final_ok (call : MCPToolCallRequest) (final : ToolOutcome) : bool :=
  match final with
  | Returns v => json_wf (value_json v)
  | Fails e => utf8_valid (failure_text call e)
  | Waits _ _ => false
  end.

(** What the client prints and returns for an outcome. *)
Definition client_view (call : MCPToolCallRequest) (final : ToolOutcome) : ClientError + string :=
  match final with
  | Returns v => inr (encode (value_json v))
  | Fails e => inl (CTool (failure_text call e))
  | Waits _ _ => inl CMissingContent
  end.

Lemma parse_init : parse_message float_literal unmarshal_text (call_body float_literal 1 "initialize" initialize_params) = inr (call_request 1 "initialize" initialize_params).
Proof. unfold parse_message, call_body. by rewrite (Unmarshal_encode _ _ _ (call_request 1 "initialize" initialize_params)). Qed.

Lemma parse_call params : json_wf params = true ->
  parse_message float_literal unmarshal_text (call_body float_literal 2 "tools/call" params) = inr (call_request 2 "tools/call" params).
Proof.
  intros H. unfold parse_message, call_body. rewrite (Unmarshal_encode _ _ _ (call_request 2 "tools/call" params)); [done| |reflexivity].
  change (json_wf (JObj [("jsonrpc", JStr "2.0"); ("id", JNum "2"); ("method", JStr "tools/call"); ("params", params)]) = true).
  cbn [json_wf forallb fst snd]. by rewrite H.
Qed.

Lemma init_decoded : utf8_valid version = true -> json_wf (answer_json init_answer) = true /\
  exists msg, into_struct (MCPJSONRPCResponse_fields float_literal) (answer_json init_answer) MCPJSONRPCResponse_zero = Some msg /\
    is_id 1 (mr_ID msg) = true /\ mr_Error msg = None.
Proof.
  intros H. split; [|eexists; split; [vm_compute; reflexivity|done]].
  change (json_wf (JObj [("jsonrpc", JStr "2.0"); ("id", JNum "1"); ("result", JObj [("capabilities", JObj []);
    ("protocolVersion", JStr "2025-03-26"); ("serverInfo", JObj [("name", JStr "rallish"); ("version", JStr version)])])]) = true).
  cbn [json_wf forallb fst snd]. by rewrite H.
Qed.

(** The response of a tool holds the text the client shows. *)
Lemma final_decoded call final : final_ok call final = true -> json_wf (answer_json (final_answer call final)) = true /\
  exists msg, into_struct (MCPJSONRPCResponse_fields float_literal) (answer_json (final_answer call final)) MCPJSONRPCResponse_zero = Some msg /\
    is_id 2 (mr_ID msg) = true /\ mr_Error msg = None /\ tool_text (mr_Result msg) = client_view call final.
Proof.
  destruct final as [v|e|]; cbn [final_ok]; intros H; [|..|done].
  - apply utf8_valid_encode in H. cbn [final_answer client_view]. unfold mcpToolSuccessResponse. revert H. generalize (encode (value_json v)) as text. intros text H.
    split; [|eexists; split; [vm_compute; reflexivity|done]].
    change (json_wf (JObj [("jsonrpc", JStr "2.0"); ("id", JNum "2"); ("result", JObj [("content", JArr [text_content text])])]) = true).
    cbn [json_wf forallb fst snd text_content]. by rewrite H.
  - cbn [final_answer client_view]. unfold mcpToolErrorResponse. revert H. generalize (failure_text call e) as text. intros text H.
    split; [|eexists; split; [vm_compute; reflexivity|done]].
    change (json_wf (JObj [("jsonrpc", JStr "2.0"); ("id", JNum "2"); ("result", JObj [("content", JArr [text_content text]); ("isError", JBool true)])]) = true).
    cbn [json_wf forallb fst snd text_content]. by rewrite H.
Qed.

(** A message that is too long for a line of the scanner is not one of these. *)
Definition handshake_fits (sid : string) : bool :=
  line_ok (data_prefix +:+ endpoint_path sid) && fits (encode (answer_json init_answer)).
Definition lines_fit (sid : string) (resp : MCPJSONRPCResponse) : bool :=
  handshake_fits sid && fits (encode (answer_json resp)).

Lemma session_lines sid i j resp rest : utf8_valid version = true -> json_wf (answer_json resp) = true -> lines_fit sid resp = true ->
  exists tail long, scan (session_stream sid i j resp rest) =
    ("event: endpoint" :: ("data: " +:+ endpoint_path sid) :: "" ::
      (beat_lines i ++ "event: message" :: ("data: " +:+ encode (answer_json init_answer)) :: "" ::
        (beat_lines j ++ "event: message" :: ("data: " +:+ encode (answer_json resp)) :: "" :: tail))%list, long).
Proof.
  intros Hv Hr H. unfold lines_fit, handshake_fits in H. reflect_bools. destruct (init_decoded Hv) as [Hi _].
  exists (fst (scan rest)), (snd (scan rest)). unfold session_stream, endpoint_event, writeSSEMessage.
  rewrite scan_named_event by done. rewrite scan_beats. rewrite scan_named_event by (done || by apply line_ok_encode).
  rewrite scan_beats. rewrite scan_named_event by (done || by apply line_ok_encode). done.
Qed.

Lemma one_shot_served d timeout name args finish final sid i j rest :
  let call := mkToolCall name (Some args) in
  let url := dm_URL d +:+ endpoint_path sid in
  let body := call_body float_literal 2 "tools/call" (encode_struct MCPToolCallRequest_fields call) in
  let init := call_body float_literal 1 "initialize" initialize_params in
  utf8_valid version = true -> final_ok call final = true ->
  lines_fit sid (final_answer call final) = true ->
  dm_sse d = Status 200 "" -> dm_post d url init = Status 202 "" -> dm_post d url body = Status 202 "" ->
  dm_stream d = session_stream sid i j (final_answer call final) rest ->
  one_shot float_literal (fun _ => Some d) timeout name args finish =
    mkRan [(url, init); (url, body)]
      (match client_view call final with inl _ => "" | inr text => text +:+ nl end)
      (match client_view call final with inl e => Some e | inr text => finish text end).
Proof.
  intros call url body init Hv Hf Hl Hsse Hp1 Hp2 Hs.
  destruct (final_decoded call final Hf) as (Hwf & msg & Hm & Hid & He & Ht).
  destruct (init_decoded Hv) as (Hiwf & imsg & Him & Hiid & Hie).
  destruct (session_lines sid i j (final_answer call final) rest Hv Hwf Hl) as (tail & long & Hscan).
  rewrite <-Hs in Hscan. unfold one_shot, newMCPClient.
  rewrite (handshake_ok _ d _ _ _ _ Hsse Hscan (readEndpoint_event _ _)). rewrite call_ok by done.
  erewrite (await_response float_literal _ _ _ i (answer_json init_answer) imsg); [|done|done|done|by left].
  rewrite Hie. unfold callTool. rewrite call_ok by done.
  erewrite (await_response float_literal _ _ _ j (answer_json (final_answer call final)) msg); [|done|done|done|by right].
  rewrite He, Ht. by destruct (client_view call final).
Qed.

Lemma into_members_foreign {R} (fs : list (Field R)) l cur :
  Forall (fun kv => match find_field fs (fst kv) with Some _ => False | None => True end) l -> into_members fs l cur = Some cur.
Proof.
  induction 1 as [|kv l Hk _ IH]; [done|]. cbn [into_members]. unfold into_member. by destruct (find_field fs (fst kv)).
Qed.

Lemma encode_fields_names {R} (P : string -> Prop) (fs : list (Field R)) r : Forall (fun f => P (f_name f)) fs ->
  Forall (fun kv => P (fst kv)) (encode_fields fs r).
Proof.
  induction 1 as [|f fs Hf _ IH]; [constructor|]. unfold encode_fields in *. cbn [omap list_omap].
  destruct (f_enc f (f_get f r)); [by constructor|done].
Qed.

Lemma is_timeout_value v : json_wf (value_json v) = true -> is_timeout (encode (value_json v)) = match v with VTimeout => true | _ => false end.
Proof.
  intros H. unfold is_timeout, Unmarshal. rewrite decode_encode by done.
  assert (HF : forall R (fs : list (Field R)) r, forallb (fun f => negb (String.eqb (fold_name (f_name f)) "timeout") && negb (String.eqb (f_name f) "timeout")) fs = true ->
            into_struct [MkField "timeout" id (fun v _ => v) enc_bool into_bool] (encode_struct fs r) false = Some false).
  { intros R fs r Hfs. apply into_members_foreign.
    apply (encode_fields_names (fun k => match find_field [MkField "timeout" id (fun v _ => v) enc_bool into_bool] k with Some _ => False | None => True end)).
    rewrite forallb_forall in Hfs. apply Forall_forall. intros f Hf%list_elem_of_In%Hfs. apply andb_true_iff in Hf as [H1 H2].
    unfold find_field. cbn [List.find f_name]. rewrite String.eqb_sym. apply negb_true_iff in H2 as ->.
    change (fold_name "timeout") with "timeout". rewrite String.eqb_sym. by apply negb_true_iff in H1 as ->. }
  destruct v; cbn [value_json]; [by rewrite HF..|reflexivity].
Qed.

Definition is_right {A B} (x : A + B) : bool := match x with inr _ => true | inl _ => false end.

(** The checks a mode makes of its flags. *)
Definition agent_valid (opts : mcpAgentOptions) : bool :=
  if String.eqb (mo_Mode opts) "create" then (2 <=? List.length (splitParticipants (mo_Participants opts)))%nat
  else is_right (NewSessionID (mo_SessionID opts)) &&
       (if String.eqb (mo_Mode opts) "join" || String.eqb (mo_Mode opts) "done" then is_right (NewParticipantName (mo_As opts)) else true).

Definition agent_error (opts : mcpAgentOptions) (final : ToolOutcome) : option ClientError :=
  match final with
  | Returns v => if String.eqb (mo_Mode opts) "join" then (match v with VTimeout => Some CTimeout | _ => None end) else None
  | _ => match client_view (agent_call opts) final with inl e => Some e | inr _ => None end
  end.

(** A mode whose flags are valid is one call of its tool. *)
Lemma agent_one_shot resolve opts : In (mo_Mode opts) modes -> agent_valid opts = true ->
  exists timeout finish, runRallyMCPAgent float_literal resolve opts = one_shot float_literal resolve timeout ("rally_" +:+ mo_Mode opts) (agent_args opts) finish /\
    forall v, json_wf (value_json v) = true -> finish (encode (value_json v)) = agent_error opts (Returns v).
Proof.
  unfold agent_valid, runRallyMCPAgent, agent_args, agent_error. cbn [In modes]. intros Hm H.
  decompose [or] Hm; try done; subst; repeat match goal with E : _ = mo_Mode opts |- _ => rewrite <-E in *; clear E end;
    cbn [String.eqb Ascii.eqb Bool.eqb orb] in *; reflect_bools.
  - unfold runMCPAgentCreate. apply Nat.leb_le in H.
    assert ((List.length (splitParticipants (mo_Participants opts)) <? 2)%nat = false) as -> by (apply Nat.ltb_ge; lia).
    by eexists _, _.
  - unfold runMCPAgentJoin. destruct (NewSessionID _), (NewParticipantName _); try done. eexists _, _. split; [done|].
    intros v Hv. cbn beta. rewrite is_timeout_value by done. by destruct v.
  - unfold runMCPAgentDone. destruct (NewSessionID _), (NewParticipantName _); try done. by eexists _, _.
  - unfold runMCPAgentStatus, runMCPAgentSession. destruct (NewSessionID _); try done. by eexists _, _.
  - unfold runMCPAgentInterrupt, runMCPAgentSession. destruct (NewSessionID _); try done. by eexists _, _.
Qed.

Lemma served_call opts inp ra ra' o : In (mo_Mode opts) modes -> utf8_flags opts = true -> tool_effect opts inp ra = Some (ra', o) ->
  served inp ra (call_body float_literal 2 "tools/call" (encode_struct MCPToolCallRequest_fields (agent_call opts))) =
    Some (ra', tool_answer failure_text (Some (JNum "2")) (agent_call opts) o).
Proof.
  intros Hm Hu Ho. destruct (agent_args_read opts Hm Hu) as (Hwf & tool & Ht & Heff). unfold served.
  rewrite parse_call.
  2: { change (json_wf (JObj [("name", JStr (tc_Name (agent_call opts))); ("arguments", agent_args opts)]) = true). cbn [json_wf forallb fst snd].
       rewrite Hwf. cbn [In modes] in Hm. cbn [agent_call tc_Name]. by decompose [or] Hm; try done; subst; repeat match goal with E : _ = mo_Mode opts |- _ => rewrite <-E; clear E end. }
  unfold dispatchMCP. cbn [mq_Method call_request]. change (String.eqb "tools/call" "initialize") with false.
  change (String.eqb "tools/call" "notifications/initialized") with false. change (String.eqb "tools/call" "tools/list") with false.
  change (String.eqb "tools/call" "tools/call") with true. cbn iota. unfold mcpToolCall. cbn [mq_Params mq_ID call_request].
  change (into_struct MCPToolCallRequest_fields (encode_struct MCPToolCallRequest_fields (agent_call opts)) MCPToolCallRequest_zero)
    with (Some (agent_call opts)). cbn iota. rewrite Ht. change (tc_Arguments (agent_call opts)) with (Some (agent_args opts)).
  by rewrite Heff, Ho.
Qed.

Lemma scan_long_event name data rest : line_ok ("event: " +:+ name) = true -> no_byte nl_byte data = true -> fits data = false ->
  scan (named_event name data +:+ rest) = (["event: " +:+ name], true).
Proof.
  intros H1 Hn Hf. unfold named_event.
  assert (E : ("event: " +:+ name +:+ nl +:+ "data: " +:+ data +:+ nl +:+ nl) +:+ rest =
              ("event: " +:+ name) +:+ nl +:+ (("data: " +:+ data) +:+ (nl +:+ nl +:+ rest))).
  { rewrite <-!string_app_assoc. done. }
  by rewrite E, scan_line, scan_long_data by done.
Qed.

(** A response that does not fit a line of the scanner is never read: the tool has run, and the
    client fails with the error of its scanner. *)
Lemma long_response_lost d timeout name args finish resp sid i j rest :
  let call := mkToolCall name (Some args) in
  let url := dm_URL d +:+ endpoint_path sid in
  let body := call_body float_literal 2 "tools/call" (encode_struct MCPToolCallRequest_fields call) in
  let init := call_body float_literal 1 "initialize" initialize_params in
  utf8_valid version = true -> json_wf (answer_json resp) = true -> fits (encode (answer_json resp)) = false ->
  handshake_fits sid = true ->
  dm_sse d = Status 200 "" -> dm_post d url init = Status 202 "" -> dm_post d url body = Status 202 "" ->
  dm_stream d = session_stream sid i j resp rest ->
  one_shot float_literal (fun _ => Some d) timeout name args finish = mkRan [(url, init); (url, body)] "" (Some (CRead token_too_long)).
Proof.
  intros call url body init Hv Hr Hf Hh Hsse Hp1 Hp2 Hs. unfold handshake_fits in Hh. reflect_bools. destruct (init_decoded Hv) as (Hiwf & imsg & Him & Hiid & Hie).
  assert (Hscan : scan (dm_stream d) =
    ("event: endpoint" :: ("data: " +:+ endpoint_path sid) :: "" ::
      (beat_lines i ++ "event: message" :: ("data: " +:+ encode (answer_json init_answer)) :: "" :: (beat_lines j ++ ["event: message"]))%list, true)).
  { rewrite Hs. unfold session_stream, endpoint_event, writeSSEMessage. rewrite scan_named_event by done. rewrite scan_beats.
    rewrite scan_named_event by (done || by apply line_ok_encode). rewrite scan_beats.
    by rewrite scan_long_event by (done || by apply encode_one_line). }
  unfold one_shot, newMCPClient. rewrite (handshake_ok _ d _ _ _ _ Hsse Hscan (readEndpoint_event _ _)). rewrite call_ok by done.
  erewrite (await_response float_literal _ _ _ i (answer_json init_answer) imsg); [|done|done|done|by left].
  rewrite Hie. unfold callTool. rewrite call_ok by done. cbn [await]. unfold readMessage.
  assert (E : readData (beat_lines j ++ ["event: message"]) "" = None) by by rewrite readData_beats.
  match goal with |- context [readData (cl_lines ?c) _] => change (cl_lines c) with (beat_lines j ++ ["event: message"])%list end.
  rewrite E. done.
Qed.

(** C10: a run of the one-shot client is one call of the tool its mode names, with the flags of the
    command line (valid, and UTF-8) as its arguments.  Against a daemon that opens the stream with
    200, takes both messages with 202 and sends a text of UTF-8 in answer, and whatever the
    heartbeats between the events, the client posts two messages; the server reads the first as the
    handshake, which changes nothing, and the second as that call, whose effect on the rallies is the
    operation itself.  When the answer fits a line of the client's scanner (64 KiB), the value the
    tool returned is printed, and a failed tool or a join that timed out is the error of the process;
    when it does not, the tool has run all the same, nothing is printed, and the error is the
    scanner's.  The events of the handshake themselves fit: the endpoint and the version are short. *)
Theorem agent_runs_tool opts d inp ra ra' o final sid i j rest :
  In (mo_Mode opts) modes -> agent_valid opts = true -> utf8_flags opts = true -> utf8_valid version = true ->
  tool_effect opts inp ra = Some (ra', o) -> settled o final -> final_ok (agent_call opts) final = true ->
  handshake_fits sid = true ->
  dm_sse d = Status 200 "" -> (forall body, dm_post d (dm_URL d +:+ endpoint_path sid) body = Status 202 "") ->
  dm_stream d = session_stream sid i j (final_answer (agent_call opts) final) rest ->
  let fit := fits (encode (answer_json (final_answer (agent_call opts) final))) in
  exists init body,
    (forall inp0 ra0, served inp0 ra0 init = Some (ra0, Answer init_answer)) /\
    served inp ra body = Some (ra', tool_answer failure_text (Some (JNum "2")) (agent_call opts) o) /\
    tool_answer failure_text (Some (JNum "2")) (agent_call opts) final = Answer (final_answer (agent_call opts) final) /\
    runRallyMCPAgent float_literal (fun _ => Some d) opts =
      mkRan [(dm_URL d +:+ endpoint_path sid, init); (dm_URL d +:+ endpoint_path sid, body)]
        (if fit then match final with Returns v => encode (value_json v) +:+ nl | _ => "" end else "")
        (if fit then agent_error opts final else Some (CRead token_too_long)).
Proof.
  intros Hm Hval Hu Hv Ho Hset Hf Hl Hsse Hp Hs fit.
  exists (call_body float_literal 1 "initialize" initialize_params), (call_body float_literal 2 "tools/call" (encode_struct MCPToolCallRequest_fields (agent_call opts))).
  destruct (agent_one_shot (fun _ => Some d) opts Hm Hval) as (timeout & finish & -> & Hfin). split_and!.
  - intros inp0 ra0. unfold served. by rewrite parse_init.
  - by apply served_call.
  - by destruct final.
  - destruct fit eqn:Hfit; unfold fit in Hfit.
    + assert (lines_fit sid (final_answer (agent_call opts) final) = true) as Hl' by (unfold lines_fit; by rewrite Hl, Hfit).
      rewrite (one_shot_served d timeout _ _ finish final sid i j rest) by done. fold (agent_call opts).
      destruct final as [v|e|]; [|done..]. cbn [client_view]. by rewrite Hfin.
    + destruct (final_decoded (agent_call opts) final Hf) as (Hwf & _).
      by rewrite (long_response_lost d timeout _ _ finish (final_answer (agent_call opts) final) sid i j rest) by done.
Qed.
End Served.

(** The wait that the flag of a join asks the server for, in nanoseconds: whole milliseconds up to
    five minutes; less than one millisecond, as none, asks for the default of thirty seconds. *)
Lemma join_wait t : in_int64 t = true ->
  mcp_join_timeout (milliseconds t) =
    if (t <? 1000000)%Z then 30000000000%Z else Z.min 300000000000 (1000000 * Z.quot t 1000000).
Proof.
  unfold in_int64, min_int64, max_int64, mcp_join_timeout, milliseconds. intros H. reflect_bools.
  pose proof (Z.quot_rem' t 1000000) as HQ. destruct (Z.ltb_spec t 1000000) as [Ht|Ht].
  - assert (Z.quot t 1000000 * 1000000 <= 0 /\ min_int64 <= Z.quot t 1000000 * 1000000)%Z as [H1 H2].
    { unfold min_int64. destruct (Z.le_gt_cases 0 t).
      - rewrite (Z.quot_small t 1000000) by lia. lia.
      - pose proof (Z.rem_bound_pos_neg t 1000000 ltac:(lia) ltac:(lia)). lia. }
    rewrite wrap64_id by (unfold min_int64, max_int64 in *; lia).
    rewrite (proj2 (Z.leb_le _ _) H1). done.
  - pose proof (Z.rem_bound_pos_pos t 1000000 ltac:(lia) ltac:(lia)) as HB. revert HQ HB. generalize (Z.quot t 1000000) (Z.rem t 1000000). intros q r HQ Hr.
    rewrite wrap64_id by (unfold min_int64, max_int64; lia).
    destruct (Z.leb_spec (q * 1000000) 0); [lia|]. destruct (Z.ltb_spec 300000000000 (q * 1000000)); lia.
Qed.

(** ** Examples *)

Definition ex_literal (lit : string) : option string := Some lit.
Definition ex_failed (call : MCPToolCallRequest) (e : ToolFailure) : string := "failed".
Definition ex_create : mcpAgentOptions := mkAgentOptions "create" " alice, bob,," "" "review" "" "" "" mcpClientDefaultTimeout "" "".
Definition ex_sid : string := "mcpts_0011223344556677".
Definition ex_inputs : Inputs := mkInputs 1700 1700 (Some "ab").
Definition ex_created : Rallies * ToolOutcome := default (newRallyStore, Fails TContext) (tool_effect ex_create ex_inputs newRallyStore).
(** A daemon that serves the options with the outcome [final], after heartbeats. *)
Definition ex_daemon (opts : mcpAgentOptions) (final : ToolOutcome) : Daemon :=
  mkDaemon "http://rallish.local" (Status 200 "")
    (session_stream ex_literal "dev" ex_sid 1 2 (final_answer ex_failed (agent_call opts) final) heartbeat) None (fun _ _ => Status 202 "").

Definition ex_ran (opts : mcpAgentOptions) (final : ToolOutcome) : Ran := runRallyMCPAgent ex_literal (fun _ => Some (ex_daemon opts final)) opts.

Lemma agent_runs_tool_witness :
  exists init body, (forall inp0 ra0, served ex_literal "dev" (fun _ => "bad") ex_failed inp0 ra0 init = Some (ra0, Answer (init_answer "dev"))) /\
    rn_posts (ex_ran ex_create (snd ex_created)) = [("http://rallish.local" +:+ endpoint_path ex_sid, init); ("http://rallish.local" +:+ endpoint_path ex_sid, body)] /\
    rn_err (ex_ran ex_create (snd ex_created)) = None.
Proof.
  destruct (agent_runs_tool ex_literal "dev" (fun _ => "bad") ex_failed ex_create (ex_daemon ex_create (snd ex_created)) ex_inputs newRallyStore
    (fst ex_created) (snd ex_created) (snd ex_created) ex_sid 1 2 heartbeat) as (init & body & H1 & _ & _ & H4).
  - by left.
  - vm_compute. reflexivity.
  - vm_compute. reflexivity.
  - vm_compute. reflexivity.
  - reflexivity.
  - reflexivity.
  - vm_compute. reflexivity.
  - vm_compute. reflexivity.
  - reflexivity.
  - reflexivity.
  - reflexivity.
  - exists init, body. unfold ex_ran. change (dm_URL (ex_daemon ex_create (snd ex_created))) with "http://rallish.local" in H4. rewrite H4.
    split; [exact H1|]. split; reflexivity.
Defined.
