(* ===== verification/RallyClient.v ===== *)
(** * The rally commands

    [internal/cli/rally.go]: [rally new], [join], [done] and [status], from the flags to the
    text they print and the error they return.  The daemon's answers are arguments; the theorems
    put the handlers of [Rally.v] and the bytes they write at the other end. *)

From stdpp Require Import sorting.
From S2P Require Import Prelude GoStrings Json Codec Lines Utf8 Paths Contract Rally A2A Mcp McpClient.
From Stdlib Require Import Ascii String.
#[local] Open Scope string_scope.

(** ** Outcomes *)

Inductive CliError : Type :=
| ETooFew | EInvalid (e : ContractError)
| ERepo (what : string)
| EBroker | ERequest (what : string) | EFailed (what : string) (code : Z) (body : string)
| EDecode | ENotYourTurn | EInterrupted | ETimeout | EStream.

(** What a command printed, and its error. *)
Record Cli := mkCli { cli_out : string; cli_err : option CliError }.
Definition fails_with (e : CliError) : Cli := mkCli "" (Some e).

Definition decode_session (body : string) : option RallySession := Decode RallySession_zero (into_struct RallySession_fields) body.

(** ** [rally new] *)

(** The names, each checked; the first error is returned. *)
(* src: internal/cli/rally.go 153-160 runRallyNew *)
Fixpoint check_names (raw : list string) : ContractError + list string :=
  match raw with
  | [] => inr []
  | r :: rest => let? n := NewParticipantName r in let? ns := check_names rest in inr (n :: ns)
  end.

(** [stat] is what [os.Stat] says of a path: none there, or whether it is a directory. *)
(* src: internal/cli/rally.go 162-176 runRallyNew *)
Definition check_repo (cwd : string + string) (stat : string -> option bool) (repo : string) : CliError + string :=
  if String.eqb repo "" then inr ""
  else match Clean cwd repo with
       | inl _ => inl (ERepo "path")
       | inr cleaned => match stat cleaned with
                        | None => inl (ERepo "stat")
                        | Some false => inl (ERepo "not a directory")
                        | Some true => inr cleaned
                        end
       end.

(** [post] answers the body posted, when the daemon was reached. *)
(* src: internal/cli/rally.go 147-220 runRallyNew *)
Definition runRallyNew (cwd : string + string) (stat : string -> option bool) (post : option (string -> Reply))
    (participants repo task firstHolder : string) : Cli :=
  let rawNames := splitParticipants participants in
  if (List.length rawNames <? 2)%nat then fails_with ETooFew
  else match check_names rawNames with
  | inl e => fails_with (EInvalid e)
  | inr names =>
      match check_repo cwd stat repo with
      | inl e => fails_with e
      | inr repo =>
          match post with
          | None => fails_with EBroker
          | Some post =>
              match post (encode (encode_struct NewRallyRequest_fields (mkNewRallyRequest names repo task firstHolder))) with
              | NoReply => fails_with (ERequest "POST /rally/sessions")
              | Status code body =>
                  if negb (code =? 201)%Z then fails_with (EFailed "create rally session" code (TrimSpace body))
                  else match decode_session body with
                       | None => fails_with EDecode
                       | Some sess => mkCli (rs_ID sess +:+ nl) None
                       end
              end
          end
      end
  end.

(** ** [rally join] *)

(** How the body of the stream ends for the client: it is over, the timer or a signal cancelled the
    context, or it could not be read. *)
Inductive StreamEnd : Set := SEof | STimedOut | SCancelled | SFailed.

Definition closed_text : string := "session closed" +:+ nl.

(* src: internal/cli/rally.go 357-369 handleBatonEvent *)
Definition turn_text (sessionID as_ : string) (evt : BatonEvent) : string :=
  let from := if String.eqb (be_From evt) "" then "(start)" else be_From evt in
  let note := if String.eqb (be_Note evt) "" then "(no note)" else be_Note evt in
  "🎾 your turn (turn " +:+ Itoa (be_TurnN evt) +:+ ", from " +:+ from +:+ "): " +:+ note +:+ nl +:+
  "   -> work in your CLI (e.g. claude). When done, in any terminal:" +:+ nl +:+
  "   ->   rallish rally done --session-id " +:+ sessionID +:+ " --as " +:+ as_ +:+ " --note " +:+ String dquote "<summary>" +:+ String dquote nl.

Definition into_closed : Into bool := into_struct [MkField "closed" id (fun v _ => v) enc_bool into_bool].

(** What the event prints, and whether it closes the session. *)
(* src: internal/cli/rally.go 341-370 handleBatonEvent *)
Definition handleBatonEvent (data sessionID as_ : string) : string * bool :=
  match Unmarshal false into_closed data with
  | Some true => (closed_text, true)
  | _ => match Unmarshal BatonEvent_zero (into_struct BatonEvent_fields) data with
         | None => ("", false)
         | Some evt => (turn_text sessionID as_ evt, false)
         end
  end.

(** The lines of the stream: the text printed, and [None] when the loop ran out of lines. *)
(* src: internal/cli/rally.go 292-318 runRallyJoin *)
Fixpoint join_lines (sessionID as_ : string) (once : bool) (lines : list string) (dataLine : string) : string * option (option CliError) :=
  match lines with
  | [] => ("", None)
  | line :: rest =>
      if HasPrefix line ": " then join_lines sessionID as_ once rest dataLine
      else match strip "data: " line with
      | Some data => join_lines sessionID as_ once rest data
      | None =>
          if String.eqb line "" && negb (String.eqb dataLine "") then
            let '(out, closed) := handleBatonEvent dataLine sessionID as_ in
            if closed || once then (out, Some None)
            else let '(more, r) := join_lines sessionID as_ once rest "" in (out +:+ more, r)
          else join_lines sessionID as_ once rest dataLine
      end
  end.

(** The error after the lines; a line that is too long is an error of the scanner.  The message that
    a timeout leaves on the error stream is not kept. *)
(* src: internal/cli/rally.go 320-338 runRallyJoin *)
Definition join_end (long : bool) (e : StreamEnd) : string * option CliError :=
  if long then ("", Some EStream)
  else match e with
       | STimedOut => ("", Some ETimeout)
       | SCancelled => ("", None)
       | SFailed => ("", Some EStream)
       | SEof => (closed_text, None)
       end.

(** The answer to the request for the stream: none, because the timer or a signal came first or for
    another reason; or a status, a body, and how it ends. *)
Inductive JoinReply : Set := JNone (e : StreamEnd) | JAnswer (code : Z) (body : string) (e : StreamEnd).

(* src: internal/cli/rally.go 222-339 runRallyJoin *)
Definition runRallyJoin (get : option (string -> JoinReply)) (sessionID as_ : string) (once : bool) : Cli :=
  match NewSessionID sessionID, NewParticipantName as_ with
  | inl e, _ | inr _, inl e => fails_with (EInvalid e)
  | inr _, inr _ =>
      match get with
      | None => fails_with EBroker
      | Some get =>
          match get ("/rally/sessions/" +:+ sessionID +:+ "/baton?as=" +:+ as_) with
          | JNone STimedOut => fails_with ETimeout
          | JNone SCancelled => mkCli "" None
          | JNone _ => fails_with (ERequest "GET baton SSE")
          | JAnswer code body e =>
              if negb (code =? 200)%Z then fails_with (EFailed "join rally" code (TrimSpace body))
              else
                let '(lines, long) := scan body in
                match join_lines sessionID as_ once lines "" with
                | (out, Some err) => mkCli out err
                | (out, None) => let '(more, err) := join_end long e in mkCli (out +:+ more) err
                end
          end
      end
  end.

(** ** [rally done] *)

Definition interrupted_text : string := "rally: session interrupted".

(* src: internal/cli/rally.go 372-433 runRallyDone *)
Definition runRallyDone (post : option (string -> string -> Reply)) (sessionID as_ note handoffTo : string) : Cli :=
  match NewSessionID sessionID, NewParticipantName as_ with
  | inl e, _ | inr _, inl e => fails_with (EInvalid e)
  | inr _, inr _ =>
      match (if String.eqb handoffTo "" then inr "" else NewParticipantName handoffTo) with
      | inl e => fails_with (EInvalid e)
      | inr _ =>
          match post with
          | None => fails_with EBroker
          | Some post =>
              match post ("/rally/sessions/" +:+ sessionID +:+ "/done?as=" +:+ as_) (encode (encode_struct DoneRequest_fields (mkDoneRequest note handoffTo))) with
              | NoReply => fails_with (ERequest "POST done")
              | Status code body =>
                  if (code =? 200)%Z then
                    match decode_session body with
                    | None => fails_with EDecode
                    | Some sess => mkCli ("ok — baton passed to " +:+ rs_Holder sess +:+ " (turn " +:+ Itoa (rs_TurnN sess) +:+ ")" +:+ nl) None
                    end
                  else if (code =? 409)%Z then
                    let msg := TrimSpace body in
                    if Contains msg interrupted_text then mkCli ("session interrupted — " +:+ msg +:+ nl) (Some EInterrupted)
                    else mkCli ("not your turn — " +:+ msg +:+ nl) (Some ENotYourTurn)
                  else fails_with (EFailed "done" code (TrimSpace body))
              end
          end
      end
  end.

(** ** [rally status] *)

(* src: internal/cli/rally.go 516-521 holderDisplay *)
Definition holderDisplay (holder : string) : string := if String.eqb holder "" then "(none)" else holder.

(** The line of one participant: stale after thirty seconds. *)
(* src: internal/cli/rally.go 484-497 printRallyStatus *)
Definition participant_line (nowMS : Z) (sess : RallySession) (name : string) : string :=
  let ls := rs_LastSeen sess !! name in
  let stale := match ls with
               | Some t => if (30000 <? nowMS - t)%Z then " [stale]" else ""
               | None => " [not yet connected]"
               end in
  let seen := match ls with Some t => "last seen " +:+ Itoa (Z.quot (nowMS - t) 1000) +:+ "s ago" | None => "never seen" end in
  "  - " +:+ name +:+ " (" +:+ seen +:+ ")" +:+ stale +:+ nl.

(* src: internal/cli/rally.go 507-511 printRallyStatus *)
Definition history_line (h : BatonHandoff) : string :=
  let note := if String.eqb (h_Note h) "" then "-" else h_Note h in
  "  turn " +:+ Itoa (h_TurnN h) +:+ ": " +:+ h_From h +:+ " -> " +:+ h_To h +:+ "  note: " +:+ Quote note +:+ nl.

(* src: internal/cli/rally.go 500-506 printRallyStatus *)
Definition last_five (hs : list BatonHandoff) : list BatonHandoff := drop (List.length hs - 5) hs.

(* src: internal/cli/rally.go 470-514 printRallyStatus *)
Definition printRallyStatus (nowMS : Z) (sess : RallySession) : string :=
  let line label v := label +:+ v +:+ nl in
  line "Session:      " (rs_ID sess) +:+ line "Status:       " (rs_Status sess) +:+
  line "Holder:       " (holderDisplay (rs_Holder sess)) +:+ line "Turn:         " (Itoa (rs_TurnN sess)) +:+
  (if String.eqb (rs_Task sess) "" then "" else line "Task:         " (rs_Task sess)) +:+
  (if String.eqb (rs_Repo sess) "" then "" else line "Repo:         " (rs_Repo sess)) +:+
  "Participants:" +:+ nl +:+ String.concat "" (map (participant_line nowMS sess) (rs_Participants sess)) +:+
  match rs_History sess with
  | [] => ""
  | hs => "History (last 5):" +:+ nl +:+ String.concat "" (map history_line (last_five hs))
  end.

(* src: internal/cli/rally.go 435-468 runRallyStatus *)
Definition runRallyStatus (get : option (string -> Reply)) (nowMS : Z) (sessionID : string) : Cli :=
  match NewSessionID sessionID with
  | inl e => fails_with (EInvalid e)
  | inr _ =>
      match get with
      | None => fails_with EBroker
      | Some get =>
          match get ("/rally/sessions/" +:+ sessionID) with
          | NoReply => fails_with (ERequest "GET status")
          | Status code body =>
              if negb (code =? 200)%Z then fails_with (EFailed "status" code (TrimSpace body))
              else match decode_session body with
                   | None => fails_with EDecode
                   | Some sess => mkCli (printRallyStatus nowMS sess) None
                   end
          end
      end
  end.

(** ** The snapshot of a session on the wire *)

Lemma enc_slice_ok {A} (zero : A) (f : Into A) (e : A -> json) l :
  Forall (fun x => f (e x) zero = Some x /\ json_wf (e x) = true) l -> enc_ok (enc_slice e) (into_slice zero f) [] l.
Proof.
  intros H. split.
  - cbn [into_slice]. apply into_elems_map. eapply Forall_impl; [apply H|]. by intros ? [].
  - cbn [json_wf]. apply forallb_forall. intros j (y & <- & Hy)%in_map_iff. apply list_elem_of_In in Hy. rewrite Forall_forall in H. by apply H.
Qed.

Lemma into_int_members_keys (m : gmap string Z) ks acc : Forall (fun k => in_int64 (default 0%Z (m !! k)) = true) ks ->
  into_int_members (map (fun k => (k, JNum (Itoa (default 0%Z (m !! k))))) ks) acc = Some (foldl (fun a k => <[k := default 0%Z (m !! k)]> a) acc ks).
Proof.
  intros H. revert acc. induction H as [|k ks Hk _ IH]; intros acc; [done|]. cbn [map into_int_members foldl].
  by rewrite into_int_Itoa, IH.
Qed.

Lemma fold_keys_lookup (m : gmap string Z) ks (acc : gmap string Z) i :
  foldl (fun a k => <[k := default 0%Z (m !! k)]> a) acc ks !! i = if bool_decide (i ∈ ks) then Some (default 0%Z (m !! i)) else acc !! i.
Proof.
  revert acc. induction ks as [|k ks IH]; intros acc; cbn [foldl]; [by rewrite bool_decide_eq_false_2 by apply not_elem_of_nil|].
  rewrite IH. destruct (decide (i ∈ ks)) as [Hi|Hi].
  - rewrite !bool_decide_eq_true_2; [done|by apply list_elem_of_further|done].
  - rewrite (bool_decide_eq_false_2 (i ∈ ks)) by done. destruct (decide (i = k)) as [->|Hn].
    + rewrite (lookup_insert_eq (M := gmap string)). by rewrite bool_decide_eq_true_2 by by left.
    + rewrite lookup_insert_ne by done. by rewrite bool_decide_eq_false_2 by (by apply not_elem_of_cons).
Qed.

Lemma map_keys_elem (m : gmap string Z) i : i ∈ map_keys m <-> is_Some (m !! i).
Proof. unfold map_keys, sort_strings. rewrite merge_sort_Permutation, elem_of_elements, elem_of_dom. done. Qed.

Definition int_map_wf (m : gmap string Z) : bool := forallb (fun k => utf8_valid k && in_int64 (default 0%Z (m !! k))) (map_keys m).

(** A map of integers is read back, whatever the order of its keys. *)
Lemma int_map_ok m : int_map_wf m = true -> enc_ok enc_int_map into_int_map ∅ m.
Proof.
  unfold int_map_wf. rewrite forallb_forall. intros H. split.
  - cbn [into_int_map]. rewrite into_int_members_keys.
    + f_equal. apply map_eq. intros i. rewrite fold_keys_lookup. case_bool_decide as E; [apply map_keys_elem in E as [v Hv]; by rewrite Hv|].
      rewrite map_keys_elem in E. rewrite lookup_empty. destruct (m !! i) as [v|] eqn:Ev; [exfalso; apply E; by exists v|done].
    + apply Forall_forall. intros k Hk%list_elem_of_In%H. by apply andb_true_iff in Hk as [_ ?].
  - cbn [json_wf]. apply forallb_forall. intros kv (k & <- & Hk)%in_map_iff. cbn [fst snd json_wf].
    apply H in Hk as [Hk _]%andb_true_iff. rewrite Hk. by rewrite int_literal_b_Itoa.
Qed.

Lemma BatonEvent_table : table_ok BatonEvent_zero BatonEvent_fields.
Proof. solve_table. Qed.
Lemma BatonHandoff_table : table_ok BatonHandoff_zero BatonHandoff_fields.
Proof. solve_table. Qed.
Lemma RallySession_table : table_ok RallySession_zero RallySession_fields.
Proof. solve_table. Qed.
Lemma DoneRequest_table : table_ok (mkDoneRequest "" "") DoneRequest_fields.
Proof. solve_table. Qed.

Definition BatonEvent_wf (e : BatonEvent) : bool := in_int64 (be_TurnN e) && utf8_valid (be_From e) && utf8_valid (be_Note e).
Definition BatonHandoff_wf (h : BatonHandoff) : bool :=
  utf8_valid (h_From h) && utf8_valid (h_To h) && in_int64 (h_TurnN h) && utf8_valid (h_Note h) && in_int64 (h_At h).
Definition RallySession_wf (s : RallySession) : bool :=
  utf8_valid (rs_ID s) && forallb utf8_valid (rs_Participants s) && utf8_valid (rs_Repo s) && utf8_valid (rs_Task s) &&
  utf8_valid (rs_Holder s) && in_int64 (rs_TurnN s) && utf8_valid (rs_Status s) && int_map_wf (rs_LastSeen s) &&
  forallb BatonHandoff_wf (rs_History s) && in_int64 (rs_CreatedAt s).

Lemma BatonEvent_roundtrip e : BatonEvent_wf e = true -> struct_ok BatonEvent_fields BatonEvent_zero e.
Proof. unfold BatonEvent_wf. intros. reflect_bools. solve_struct BatonEvent_table. Qed.

Lemma BatonHandoff_roundtrip h : BatonHandoff_wf h = true -> struct_ok BatonHandoff_fields BatonHandoff_zero h.
Proof. unfold BatonHandoff_wf. intros. reflect_bools. solve_struct BatonHandoff_table. Qed.

Lemma RallySession_roundtrip s : RallySession_wf s = true -> struct_ok RallySession_fields RallySession_zero s.
Proof.
  unfold RallySession_wf. intros. reflect_bools. apply decode_struct_encode; [apply RallySession_table|].
  cbn -[enc_int_map into_int_map]. split_and!; auto using int_map_ok with rallish_wf.
  - apply enc_slice_ok. apply Forall_forall. intros x Hx%list_elem_of_In. split; [done|].
    by match goal with H : forallb utf8_valid _ = true |- _ => apply (proj1 (forallb_forall _ _) H) end.
  - apply enc_slice_ok. apply Forall_forall. intros x Hx%list_elem_of_In. apply BatonHandoff_roundtrip.
    by match goal with H : forallb BatonHandoff_wf _ = true |- _ => apply (proj1 (forallb_forall _ _) H) end.
Qed.

(** The body the handlers write: [json.NewEncoder(w).Encode(pub)]. *)
(* src: internal/broker/rally.go 647-651 handleRallyDone *)
Definition session_body (pub : RallySession) : string := encode (encode_struct RallySession_fields pub) +:+ nl.

Lemma session_read pub : RallySession_wf pub = true -> decode_session (session_body pub) = Some pub.
Proof.
  intros [Hr Hj]%RallySession_roundtrip. unfold decode_session, Decode, session_body.
  rewrite parse_prefix_encode by done. exact Hr.
Qed.

(** ** A join and the stream of the server *)

(* src: internal/broker/rally.go 477-490 writeSSEEvent *)
Definition baton_event (evt : BatonEvent) : string := data_event (encode (encode_struct BatonEvent_fields evt)).
(* src: internal/broker/rally.go 493-502 writeCloseSentinel *)
Definition close_sentinel : string := data_event (encode (JObj [("closed", JBool true)])).

(** Turns, each after so many heartbeats. *)
Fixpoint baton_stream (evs : list (nat * BatonEvent)) (rest : string) : string :=
  match evs with [] => rest | (n, evt) :: evs => beats n +:+ baton_event evt +:+ baton_stream evs rest end.

(** A turn the client can read: its text is UTF-8 and one line of the scanner. *)
Definition readable (evt : BatonEvent) : bool :=
  BatonEvent_wf evt && negb (be_Closed evt) && fits (encode (encode_struct BatonEvent_fields evt)).

Lemma handle_turn evt sid as_ : readable evt = true ->
  handleBatonEvent (encode (encode_struct BatonEvent_fields evt)) sid as_ = (turn_text sid as_ evt, false).
Proof.
  unfold readable. intros H. reflect_bools. destruct (BatonEvent_roundtrip evt) as [Hr Hj]; [done|]. unfold handleBatonEvent.
  rewrite (Unmarshal_encode _ _ _ false Hj), (Unmarshal_encode _ _ _ evt Hj Hr); [done|].
  destruct evt as [n from note closed]. cbn in *. subst closed. unfold into_closed, encode_struct, encode_fields. cbn.
  unfold opt_string. by destruct (String.eqb from ""), (String.eqb note "").
Qed.

Lemma handle_close sid as_ : handleBatonEvent (encode (JObj [("closed", JBool true)])) sid as_ = (closed_text, true).
Proof. reflexivity. Qed.

Section Join.
Variable sid as_ : string.

Lemma join_beats once n lines : join_lines sid as_ once (beat_lines n ++ lines) "" = join_lines sid as_ once lines "".
Proof. induction n as [|n IH]; [done|exact IH]. Qed.

Lemma join_data once x rest : x <> "" ->
  join_lines sid as_ once (("data: " +:+ x) :: "" :: rest) "" =
    let '(out, closed) := handleBatonEvent x sid as_ in
    if closed || once then (out, Some None) else let '(more, r) := join_lines sid as_ once rest "" in (out +:+ more, r).
Proof.
  intros Hx. change (join_lines sid as_ once (("data: " +:+ x) :: "" :: rest) "") with
    (match strip "data: " ("data: " +:+ x) with Some data => join_lines sid as_ once ("" :: rest) data | None => join_lines sid as_ once ("" :: rest) "" end).
  rewrite strip_app. cbn [join_lines]. change (HasPrefix "" ": ") with false. change (strip "data: " "") with (@None string).
  change (String.eqb "" "") with true. by rewrite (proj2 (String.eqb_neq _ _) Hx).
Qed.

Lemma scan_baton n evt rest : readable evt = true ->
  scan (beats n +:+ baton_event evt +:+ rest) =
    ((beat_lines n ++ ("data: " +:+ encode (encode_struct BatonEvent_fields evt)) :: "" :: fst (scan rest))%list, snd (scan rest)).
Proof.
  unfold readable. intros H. reflect_bools. destruct (BatonEvent_roundtrip evt) as [_ Hj]; [done|].
  unfold baton_event. by rewrite scan_beats, scan_data_event by by apply line_ok_encode.
Qed.

(** What the lines of some turns print, before the rest. *)
Lemma join_turns evs rest : forallb (fun p => readable (snd p)) evs = true ->
  snd (scan (baton_stream evs rest)) = snd (scan rest) /\
  join_lines sid as_ false (fst (scan (baton_stream evs rest))) "" =
    let '(more, r) := join_lines sid as_ false (fst (scan rest)) "" in
    (String.concat "" (map (fun p => turn_text sid as_ (snd p)) evs) +:+ more, r).
Proof.
  assert (Hcat : forall x l, String.concat "" (x :: l) = x +:+ String.concat "" l).
  { intros x [|y l]; cbn; [by rewrite string_app_nil_r|done]. }
  induction evs as [|[n evt] evs IH]; cbn [baton_stream forallb snd]; intros H.
  { split; [done|]. cbn [map String.concat]. by destruct (join_lines _ _ _ _ _). }
  apply andb_true_iff in H as [He Hes]. destruct (IH Hes) as [IH1 IH2]. rewrite scan_baton by done. cbn [fst snd]. split; [done|].
  rewrite join_beats, join_data by (apply encode_nonempty; unfold readable in He; reflect_bools; by apply BatonEvent_roundtrip).
  rewrite handle_turn by done. cbn [orb]. rewrite IH2. cbn [map snd]. rewrite Hcat.
  destruct (join_lines _ _ _ (fst (scan rest)) _) as [more r]. by rewrite <-string_app_assoc.
Qed.
End Join.

Definition joins (sid as_ : string) : bool :=
  match NewSessionID sid, NewParticipantName as_ with inr _, inr _ => true | _, _ => false end.

(** A join prints every turn the server sends to its participant, in order, and ends without an error
    when the session is closed. *)
Theorem join_prints sid as_ evs j rest get e : joins sid as_ = true -> forallb (fun p => readable (snd p)) evs = true ->
  get ("/rally/sessions/" +:+ sid +:+ "/baton?as=" +:+ as_) = JAnswer 200 (baton_stream evs (beats j +:+ close_sentinel +:+ rest)) e ->
  runRallyJoin (Some get) sid as_ false =
    mkCli (String.concat "" (map (fun p => turn_text sid as_ (snd p)) evs) +:+ closed_text) None.
Proof.
  unfold joins, runRallyJoin. intros Hj He Hg. destruct (NewSessionID sid); [done|]. destruct (NewParticipantName as_); [done|]. rewrite Hg.
  change (negb (200 =? 200)%Z) with false. cbn iota.
  destruct (join_turns sid as_ evs (beats j +:+ close_sentinel +:+ rest) He) as [_ Ht].
  destruct (scan (baton_stream evs _)) as [lines long]. cbn [fst] in Ht. rewrite Ht.
  unfold close_sentinel. rewrite scan_beats, scan_data_event by done. cbn [fst]. rewrite join_beats, join_data by done.
  by rewrite handle_close.
Qed.

(** The timer of a join is not stopped by a turn: a join that printed turns and goes on waiting still
    ends with the error of a timeout. *)
Theorem join_timeout_after_turn sid as_ evs j get : joins sid as_ = true -> forallb (fun p => readable (snd p)) evs = true ->
  get ("/rally/sessions/" +:+ sid +:+ "/baton?as=" +:+ as_) = JAnswer 200 (baton_stream evs (beats j)) STimedOut ->
  runRallyJoin (Some get) sid as_ false = mkCli (String.concat "" (map (fun p => turn_text sid as_ (snd p)) evs)) (Some ETimeout).
Proof.
  unfold joins, runRallyJoin. intros Hj He Hg. destruct (NewSessionID sid); [done|]. destruct (NewParticipantName as_); [done|]. rewrite Hg.
  change (negb (200 =? 200)%Z) with false. cbn iota.
  destruct (join_turns sid as_ evs (beats j) He) as [Hl Ht]. destruct (scan (baton_stream evs _)) as [lines long]. cbn [fst snd] in Hl, Ht. rewrite Ht.
  rewrite <-(string_app_nil_r (beats j)), scan_beats in *. cbn [fst snd] in *. rewrite join_beats, scan_empty in *. cbn [fst snd join_lines] in *.
  subst long. cbn. by rewrite !string_app_nil_r.
Qed.

(** [done] on the command line is one handoff by the server: the request the handler decodes is the
    one of the flags, and the holder and turn printed are those of the session afterwards. *)
Theorem done_passes now st st' pub sid as_ note handoffTo post : joins sid as_ = true ->
  (handoffTo = "" \/ exists n, NewParticipantName handoffTo = inr n) -> utf8_valid note = true -> utf8_valid handoffTo = true ->
  advanceRallyBaton now st sid as_ (mkDoneRequest note handoffTo) = Some (st', inr pub) -> RallySession_wf pub = true ->
  exists body,
    handleRallyDone now st json_type sid as_ body = Some (st', mkResponse 200 (Some pub)) /\
    (post ("/rally/sessions/" +:+ sid +:+ "/done?as=" +:+ as_) body = Status 200 (session_body pub) ->
     runRallyDone (Some post) sid as_ note handoffTo =
       mkCli ("ok — baton passed to " +:+ rs_Holder pub +:+ " (turn " +:+ Itoa (rs_TurnN pub) +:+ ")" +:+ nl) None).
Proof.
  unfold joins. intros Hj Hh Hn Ht Ha Hw. exists (encode (encode_struct DoneRequest_fields (mkDoneRequest note handoffTo))).
  assert (Hs : struct_ok DoneRequest_fields (mkDoneRequest "" "") (mkDoneRequest note handoffTo)).
  { apply decode_struct_encode; [apply DoneRequest_table|]. cbn. split_and!; auto with rallish_wf. }
  assert (Hid : forall x y, NewSessionID x = inr y -> y = x) by (unfold NewSessionID; intros x y; destruct (negb (sessionIDRe x)); by intros [= ->]).
  assert (Hnm : forall x y, NewParticipantName x = inr y -> y = x) by (unfold NewParticipantName; intros x y; destruct (negb (participantNameRe x)); by intros [= ->]).
  destruct (NewSessionID sid) as [|id] eqn:Es; [done|]. destruct (NewParticipantName as_) as [|nm] eqn:En; [done|].
  apply Hid in Es as Es'. apply Hnm in En as En'. subst id nm. split.
  - unfold handleRallyDone. change (negb (String.eqb json_type json_type)) with false. cbn iota. rewrite Es, En.
    unfold Decode. rewrite <-(string_app_nil_r (encode _)), parse_prefix_encode by apply Hs || done.
    rewrite (proj1 Hs). by rewrite Ha.
  - intros Hp. unfold runRallyDone. rewrite Es, En.
    assert (Hc : exists n, (if String.eqb handoffTo "" then inr "" else NewParticipantName handoffTo) = inr n).
    { destruct Hh as [->|[n Hh]]; [by eexists|]. destruct (String.eqb handoffTo ""); eauto. }
    destruct Hc as [n ->]. rewrite Hp. change (200 =? 200)%Z with true. cbn iota. by rewrite session_read.
Qed.
