(* ===== verification/TurnLoop.v ===== *)
(** * The session turn loop

    [internal/broker/broker.go] and the task operations of [internal/broker/a2a.go]: the
    sessions of the server, the turn requests handed out, the turns posted, the
    long-pollers that wait for a turn and the A2A subscribers that watch a task.

    Each part of a handler between a lock and its unlock is one function on the whole
    state, and so is each later action outside the lock.  [Panics] is a Go panic: one inside
    a locked part leaves the mutex locked for good ([sv_locked]), since the handlers unlock
    without [defer] and [net/http] recovers the panic of a handler.  Contexts, clocks and
    file faults are arguments. *)

From S2P Require Import Prelude GoStrings Json Codec Contract Ledger Stuck Turns SessionStuck Exit SessionStore A2A.
From Stdlib Require Import Ascii String.
#[local] Open Scope string_scope.

(** ** State *)

(** [ss_scratch] and [ss_seen] are [None] for the nil pointer and the nil map; the two
    channels are locations.  The router holds the preset. *)
(* src: internal/broker/broker.go 42-57 sessionState *)
Record sessionState := mkState {
  ss_turnCount : Z; ss_totalUsage : Usage; ss_lastTurn : option LastTurn; ss_lastResp : option TurnResponse;
  ss_preset : Preset; ss_scratch : option Manager; ss_createdAt : Time; ss_terminal : bool;
  ss_terminalReason : string; ss_dryRounds : Z; ss_seen : option (gset string); ss_notify : nat;
  ss_a2aSubs : list nat }.
#[export] Instance eta_sessionState : Eta sessionState :=
  fun r => mkState (ss_turnCount r) (ss_totalUsage r) (ss_lastTurn r) (ss_lastResp r) (ss_preset r) (ss_scratch r)
    (ss_createdAt r) (ss_terminal r) (ss_terminalReason r) (ss_dryRounds r) (ss_seen r) (ss_notify r) (ss_a2aSubs r).

(** A [chan A2ATaskUpdateEvent] of capacity 4. *)
Record SubChan := mkSub { sb_buf : list A2ATaskUpdateEvent; sb_closed : bool }.
#[export] Instance eta_SubChan : Eta SubChan := fun r => mkSub (sb_buf r) (sb_closed r).

(** A handler in flight outside the lock. *)
Inductive Task_ : Set :=
  | Poller (id as_ : string) (notify : nat)                       (* waits on [notify] *)
  | PostAppend (id : string) (req : TurnRequest) (resp : TurnResponse)
  | PostReplay (id : string)
  | PostEval (id : string) (records : list TurnRecord)
  | CloseNotify (notify : nat)                                    (* after a post or a cancel *)
  | Watcher (id : string) (ch : nat)                              (* streams task updates *)
  | WatcherClose (ch : nat).

(* src: internal/broker/broker.go 23-40 Server *)
Record Server := mkServer {
  sv_locked : bool; sv_pending : gmap string TurnRequest; sv_states : gmap string sessionState;
  sv_store : Store; sv_notify : gmap nat bool; sv_subs : gmap nat SubChan; sv_next : nat;
  sv_tasks : gmap nat Task_ }.
#[export] Instance eta_Server : Eta Server :=
  fun r => mkServer (sv_locked r) (sv_pending r) (sv_states r) (sv_store r) (sv_notify r) (sv_subs r) (sv_next r)
    (sv_tasks r).

(* src: internal/broker/broker.go 59-79 NewServer *)
Definition NewServer (store : Store) : Server := mkServer false ∅ ∅ store ∅ ∅ 0 ∅.

(** How a step ends. *)
Inductive Outcome (A : Type) : Type := Done (sv : Server) (a : A) | Panics (sv : Server).
Arguments Done {A} sv a.
Arguments Panics {A} sv.

(** A panic under the lock. *)
Definition panic_locked {A} (sv : Server) : Outcome A := Panics (sv <| sv_locked := true |>).

Definition put_state (sv : Server) (id : string) (s : sessionState) : Server :=
  sv <| sv_states := <[id := s]> (sv_states sv) |>.

(** [make(chan struct{})] and [make(chan A2ATaskUpdateEvent, 4)]. *)
Definition new_notify (sv : Server) : Server * nat :=
  (sv <| sv_notify := <[sv_next sv := false]> (sv_notify sv) |> <| sv_next := S (sv_next sv) |>, sv_next sv).
Definition new_sub (sv : Server) : Server * nat :=
  (sv <| sv_subs := <[sv_next sv := mkSub [] false]> (sv_subs sv) |> <| sv_next := S (sv_next sv) |>, sv_next sv).

(** A goroutine that goes on. *)
Definition spawn (sv : Server) (t : Task_) : Server :=
  sv <| sv_tasks := <[sv_next sv := t]> (sv_tasks sv) |> <| sv_next := S (sv_next sv) |>.

(** ** Channels *)

(** [select { case ch <- event: default: }] *)
Definition send_sub (subs : gmap nat SubChan) (ch : nat) (ev : A2ATaskUpdateEvent) : option (gmap nat SubChan) :=
  match subs !! ch with
  | None => None
  | Some c =>
      if sb_closed c then None
      else if (List.length (sb_buf c) <? 4)%nat then Some (<[ch := c <| sb_buf := (sb_buf c ++ [ev])%list |>]> subs)
      else Some subs
  end.

Definition close_sub (subs : gmap nat SubChan) (ch : nat) : option (gmap nat SubChan) :=
  match subs !! ch with
  | None => None
  | Some c => if sb_closed c then None else Some (<[ch := c <| sb_closed := true |>]> subs)
  end.

Fixpoint send_subs (subs : gmap nat SubChan) (chs : list nat) (ev : A2ATaskUpdateEvent) : option (gmap nat SubChan) :=
  match chs with
  | [] => Some subs
  | ch :: rest => match send_sub subs ch ev with Some subs => send_subs subs rest ev | None => None end
  end.

Fixpoint close_subs (subs : gmap nat SubChan) (chs : list nat) : option (gmap nat SubChan) :=
  match chs with
  | [] => Some subs
  | ch :: rest => match close_sub subs ch with Some subs => close_subs subs rest | None => None end
  end.

(** The loop of a cancellation: each channel gets the event and is closed. *)
(* src: internal/broker/a2a.go 239-245 Server.handleA2ACancel *)
Fixpoint send_close_subs (subs : gmap nat SubChan) (chs : list nat) (ev : A2ATaskUpdateEvent) : option (gmap nat SubChan) :=
  match chs with
  | [] => Some subs
  | ch :: rest =>
      match send_sub subs ch ev with
      | None => None
      | Some subs => match close_sub subs ch with Some subs => send_close_subs subs rest ev | None => None end
      end
  end.

(** ** Creation *)

(* src: internal/broker/broker.go 134-144 Server.handleCreateSession *)
Definition register_session (sv : Server) (sess : Session) (p : Preset) (scratch : option Manager)
    (seen : option (gset string)) : Server :=
  let '(sv, notify) := new_notify sv in
  put_state sv (se_ID sess)
    (mkState 0 Usage_zero None None p scratch (se_CreatedAt sess) false "" 0 seen notify []).

Definition scratchPath (st : Store) (id : string) : string := SessionDir st id +:+ "/scratch.md".

(** The request is decoded; a body that does not decode changes nothing.  [store.Create] runs
    before the mutex is taken; the two are one step here, because until the session is
    registered no handler but [handleA2AGet] looks at its files, and no client has its id. *)
(* src: internal/broker/broker.go 110-158 Server.handleCreateSession *)
Definition handleCreateSession (alive : bool) (t1 t2 : Time) (fault : CreateFault) (sv : Server) (p : Preset) (task : Task)
    : Outcome (StoreError + Session) :=
  let '(st, r) := Create alive t1 t2 fault (sv_store sv) (ps_Name p) task in
  let sv := sv <| sv_store := st |> in
  match r with
  | inl err => Done sv (inl err)
  | inr sess =>
      let mgr := NewManager (scratchPath st (se_ID sess)) (sc_MaxKB (ps_Scratch p)) in
      Done (register_session sv sess p (Some mgr) (Some ∅)) (inr sess)
  end.

(** A task sent over A2A runs the preset solo-ralph; its state has neither a scratchpad
    nor a set of seen artifacts. *)
(* src: internal/broker/a2a.go 140-175 Server.handleA2ASend *)
Definition handleA2ASend (alive : bool) (t1 t2 : Time) (fault : CreateFault) (sv : Server) (message : string)
    : Outcome (StoreError + Session) :=
  let '(st, r) := Create alive t1 t2 fault (sv_store sv) (ps_Name solo_ralph) (mkTask "A2A task" message "") in
  let sv := sv <| sv_store := st |> in
  match r with
  | inl err => Done sv (inl err)
  | inr sess => Done (register_session sv sess solo_ralph None None) (inr sess)
  end.

(** ** The next turn *)

Inductive NextResult : Type :=
  | NextNotFound | NextGone (reason : string) | NextStoreError | NextRouterError
  | NextGranted (req : TurnRequest) | NextWait (notify : nat).

(* src: internal/broker/broker.go 229-252 Server.handleNextTurn *)
Definition turn_request (id : string) (state : sessionState) (mgr : Manager) (remaining : Budget) (turn : Z)
    (roleID scratch : string) (task : Task) : TurnRequest :=
  let role := match List.find (fun rl => String.eqb (ro_ID rl) roleID) (ps_Roles (ss_preset state)) with
              | Some rl => rl
              | None => mkRole "" "" ""
              end in
  mkTurnRequest id turn roleID (ro_Runtime role) (ro_Model role) remaining (m_path mgr) scratch
    (ss_lastTurn state) task None (ps_ExitWhen (ss_preset state)).

(** One pass of the loop, up to the unlock; [alive1] and [alive2] are the context at
    [store.Get] and at [router.Next], [readable] whether the scratchpad can be read. *)
(* src: internal/broker/broker.go 188-303 Server.handleNextTurn *)
Definition next_section (alive1 alive2 readable : bool) (sv : Server) (id as_ : string) : Outcome NextResult :=
  match sv_states sv !! id with
  | None => Done sv NextNotFound
  | Some state =>
      if ss_terminal state then Done sv (NextGone (ss_terminalReason state))
      else
        let remaining := Remaining (ps_Budget (ss_preset state)) (ss_totalUsage state) (ss_turnCount state) in
        if IsExhausted remaining then
          Done (put_state sv id (state <| ss_terminal := true |> <| ss_terminalReason := "budget exhausted" |>))
            (NextGone "budget exhausted")
        else
          match Get alive1 (sv_store sv) id with
          | inl _ => Done sv NextStoreError
          | inr sess =>
              let turn := (ss_turnCount state + 1)%Z in
              match Next alive2 (ss_preset state) (ss_lastResp state) turn with
              | inl _ => Done sv NextRouterError
              | inr roleID =>
                  if String.eqb as_ "" || String.eqb as_ roleID then
                    match ss_scratch state with
                    | None => panic_locked sv
                    | Some mgr =>
                        let scratch := default "" (scratch_Read readable (st_files (sv_store sv)) mgr) in
                        let req := turn_request id state mgr remaining turn roleID scratch (se_Task sess) in
                        Done (sv <| sv_pending := <[id := req]> (sv_pending sv) |>) (NextGranted req)
                    end
                  else Done sv (NextWait (ss_notify state))
              end
          end
  end.

(** The first pass of a request, and what becomes of it: it waits, or it is answered. *)
(* src: internal/broker/broker.go 178-319 Server.handleNextTurn *)
Definition handleNextTurn (alive1 alive2 readable : bool) (sv : Server) (id as_ : string) : Outcome NextResult :=
  match next_section alive1 alive2 readable sv id as_ with
  | Done sv (NextWait ch) => Done (spawn sv (Poller id as_ ch)) (NextWait ch)
  | out => out
  end.

(** ** A posted turn *)

Inductive PostResult : Type := PostNoPending | PostAccepted (turn : Z).

Definition add64 (a b : Z) : Z := wrap64 (a + b).

(* src: internal/broker/broker.go 346-350 Server.handlePostTurn *)
Definition add_usage (total : Usage) (u : option Usage) : Usage :=
  match u with
  | None => total
  | Some u => mkUsage (add64 (u_TokensIn total) (u_TokensIn u)) (add64 (u_TokensOut total) (u_TokensOut u))
                (add64 (u_Ms total) (u_Ms u))
  end.

(* src: internal/broker/broker.go 351-359 Server.handlePostTurn *)
Definition last_turn (req : TurnRequest) (resp : TurnResponse) : LastTurn :=
  mkLastTurn (tq_Role req) (tq_RuntimeHint req) (r_Summary resp) (r_Artifacts resp) (r_SelfEval resp)
    (r_HandoffIntent resp) (r_Claims resp).

(** The count of new artifacts and the set afterwards; [None] is the write to a nil map. *)
(* src: internal/broker/broker.go 362-368 Server.handlePostTurn *)
Definition count_new (seen : option (gset string)) (arts : list string) : option (option (gset string) * nat) :=
  match seen with
  | None => match arts with [] => Some (None, 0%nat) | _ => None end
  | Some seen => let '(seen, new) := collectNewArtifacts seen arts in Some (Some seen, List.length new)
  end.

(** A state that was never registered, as the zero value Go reads from the map. *)
Definition zero_state : sessionState :=
  mkState 0 Usage_zero None None (mkPreset "" "" [] "" Budget_zero None (mkScratchConfig 0 "")) None (mkTime 0 "")
    false "" 0 None 0 [].

(* src: internal/broker/broker.go 344-373 Server.handlePostTurn *)
Definition post_state (state : sessionState) (req : TurnRequest) (resp : TurnResponse) (seen : option (gset string))
    (newArtifacts : nat) : sessionState :=
  let dry := Nat.eqb newArtifacts 0 && negb (r_Done resp) && String.eqb (r_HandoffTo resp) "" in
  state <| ss_turnCount := (ss_turnCount state + 1)%Z |>
        <| ss_totalUsage := add_usage (ss_totalUsage state) (r_Usage resp) |>
        <| ss_lastTurn := Some (last_turn req resp) |> <| ss_lastResp := Some resp |>
        <| ss_seen := seen |> <| ss_dryRounds := if dry then (ss_dryRounds state + 1)%Z else 0%Z |>.

(** The first locked part. *)
(* src: internal/broker/broker.go 321-377 Server.handlePostTurn *)
Definition post_section (fault : ScratchFault) (sv : Server) (id : string) (resp : TurnResponse) : Outcome PostResult :=
  match sv_pending sv !! id with
  | None => Done sv PostNoPending
  | Some req =>
      let sv := sv <| sv_pending := delete id (sv_pending sv) |> in
      let state := default zero_state (sv_states sv !! id) in
      match count_new (ss_seen state) (r_Artifacts resp), ss_scratch state with
      | None, _ | _, None => panic_locked sv
      | Some (seen, n), Some mgr =>
          let state := post_state state req resp seen n in
          let files := fst (scratch_Append fault (st_files (sv_store sv)) mgr (Compact resp +:+ newline)) in
          let store := (sv_store sv) <| st_files := files |> in
          let sv := put_state (sv <| sv_store := store |>) id state in
          Done (spawn sv (PostAppend id req resp)) (PostAccepted (tq_Turn req))
      end
  end.

(** The event a post sends to the subscribers. *)
Definition update_event (id : string) (state : sessionState) : A2ATaskUpdateEvent :=
  mkUpdate id (mkStatus (terminalReasonToTaskState (ss_terminal state) (ss_terminalReason state)) (ss_terminalReason state))
    (ss_terminal state).

(* src: internal/broker/broker.go 403-415 Server.handlePostTurn *)
Definition eval_state (state : sessionState) (records : list TurnRecord) : ExitState :=
  mkExitState (ss_turnCount state) (ss_totalUsage state)
    (Remaining (ps_Budget (ss_preset state)) (ss_totalUsage state) (ss_turnCount state))
    (t_nanos (ss_createdAt state)) (ss_lastResp state) (b_DeadlineMS (ps_Budget (ss_preset state)))
    (ss_dryRounds state) records.

(** The second locked part: the exit conditions, the new notification channel and the
    subscribers; the old channel is closed after the unlock. *)
(* src: internal/broker/broker.go 401-447 Server.handlePostTurn *)
Definition eval_section (w : ExitWorld) (sv : Server) (id : string) (records : list TurnRecord) : Outcome nat :=
  let state := default zero_state (sv_states sv !! id) in
  let verdict := Evaluate false w (eval_state state records) (default [] (ps_ExitWhen (ss_preset state))) in
  let state := match verdict with
               | inr (Some reason) => state <| ss_terminal := true |> <| ss_terminalReason := reason |>
               | _ => state
               end in
  let old := ss_notify state in
  let '(sv, notify) := new_notify sv in
  let state := state <| ss_notify := notify |> in
  match send_subs (sv_subs sv) (ss_a2aSubs state) (update_event id state) with
  | None => panic_locked sv
  | Some subs =>
      if ss_terminal state then
        match close_subs subs (ss_a2aSubs state) with
        | None => panic_locked sv
        | Some subs => Done (put_state (sv <| sv_subs := subs |>) id (state <| ss_a2aSubs := [] |>)) old
        end
      else Done (put_state (sv <| sv_subs := subs |>) id state) old
  end.

(** ** A2A tasks *)

Inductive CancelResult : Type := CancelNotFound | CancelTerminated | CancelDone.

(* src: internal/broker/a2a.go 212-253 Server.handleA2ACancel *)
Definition cancel_section (sv : Server) (id : string) : Outcome CancelResult :=
  match sv_states sv !! id with
  | None => Done sv CancelNotFound
  | Some state =>
      if ss_terminal state then Done sv CancelTerminated
      else
        let state := state <| ss_terminal := true |> <| ss_terminalReason := "canceled" |> in
        let old := ss_notify state in
        let '(sv, notify) := new_notify sv in
        let state := state <| ss_notify := notify |> in
        let event := mkUpdate id (mkStatus TaskStateCanceled "canceled") true in
        match send_close_subs (sv_subs sv) (ss_a2aSubs state) event with
        | None => panic_locked sv
        | Some subs =>
            Done (spawn (put_state (sv <| sv_subs := subs |>) id (state <| ss_a2aSubs := [] |>)) (CloseNotify old)) CancelDone
        end
  end.

Inductive SubscribeResult : Type := SubNotFound | SubFinal (ev : A2ATaskUpdateEvent) | SubStream (ch : nat).

(* src: internal/broker/a2a.go 273-305 Server.handleA2ASendSubscribe *)
Definition subscribe_section (sv : Server) (id : string) : Outcome SubscribeResult :=
  match sv_states sv !! id with
  | None => Done sv SubNotFound
  | Some state =>
      if ss_terminal state then Done sv (SubFinal (update_event id state))
      else
        let '(sv, ch) := new_sub sv in
        let sv := put_state sv id (state <| ss_a2aSubs := (ss_a2aSubs state ++ [ch])%list |>) in
        Done (spawn sv (Watcher id ch)) (SubStream ch)
  end.

(** The client of a stream is gone; the channel is closed after the unlock. *)
(* src: internal/broker/a2a.go 336-349 Server.handleA2ASendSubscribe *)
Definition unsubscribe_section (sv : Server) (id : string) (ch : nat) : Server :=
  let state := default zero_state (sv_states sv !! id) in
  put_state sv id (state <| ss_a2aSubs := List.filter (fun c => negb (Nat.eqb c ch)) (ss_a2aSubs state) |>).

Inductive GetResult : Type := GetNotFound | GetTask (state : TaskState) (reason : string).

(* src: internal/broker/a2a.go 177-203 Server.handleA2AGet *)
Definition handleA2AGet (alive : bool) (sv : Server) (id : string) : GetResult :=
  match Get alive (sv_store sv) id with
  | inl _ => GetNotFound
  | inr _ =>
      match sv_states sv !! id with
      | Some state => GetTask (terminalReasonToTaskState (ss_terminal state) (ss_terminalReason state)) (ss_terminalReason state)
      | None => GetTask TaskStateSubmitted ""
      end
  end.

(** ** Steps *)

(** What happens next: a request arrives, or a handler in flight moves on. *)
Inductive Label : Type :=
  | LCreate (alive : bool) (t1 t2 : Time) (fault : CreateFault) (p : Preset) (task : Task)
  | LSend (alive : bool) (t1 t2 : Time) (fault : CreateFault) (message : string)
  | LNext (alive1 alive2 readable : bool) (id as_ : string)
  | LPost (fault : ScratchFault) (id : string) (resp : TurnResponse)
  | LCancel (id : string)
  | LSubscribe (id : string)
  | LWake (k : nat) (alive1 alive2 readable : bool)    (* a poller whose channel is closed *)
  | LPollEnd (k : nat)                                 (* the poller's timer or context *)
  | LAppend (k : nat) (alive : bool) (now : Time) (fault : LogFault)
  | LReplay (k : nat) (alive readable : bool)
  | LEval (k : nat) (w : ExitWorld)
  | LClose (k : nat)                                   (* closes the old notification channel *)
  | LWatch (k : nat)                                   (* a subscriber receives *)
  | LWatchEnd (k : nat)                                (* a subscriber's context ends *)
  | LWatchClose (k : nat).

(** The end of the goroutine [k], or what it does next. *)
Definition end_task (sv : Server) (k : nat) : Server := sv <| sv_tasks := delete k (sv_tasks sv) |>.
Definition next_task (sv : Server) (k : nat) (t : Task_) : Server := sv <| sv_tasks := <[k := t]> (sv_tasks sv) |>.

Definition state_of {A} (out : Outcome A) : Outcome unit :=
  match out with Done sv _ => Done sv tt | Panics sv => Panics sv end.

(** [close(oldNotify)]; [None] is the close of a closed channel. *)
(* src: internal/broker/broker.go 449-451 Server.handlePostTurn *)
Definition close_notify (sv : Server) (ch : nat) : option Server :=
  match sv_notify sv !! ch with
  | Some false => Some (sv <| sv_notify := <[ch := true]> (sv_notify sv) |>)
  | _ => None
  end.

(** A woken poller: another pass of the loop. *)
(* src: internal/broker/broker.go 301-318 Server.handleNextTurn *)
Definition wake_step (alive1 alive2 readable : bool) (sv : Server) (k : nat) (id as_ : string) : Outcome unit :=
  match next_section alive1 alive2 readable sv id as_ with
  | Done sv (NextWait ch) => Done (next_task sv k (Poller id as_ ch)) tt
  | Done sv _ => Done (end_task sv k) tt
  | Panics sv => Panics (end_task sv k)
  end.

(** A post goes on only when the log was appended to and replayed. *)
(* src: internal/broker/broker.go 379-390 Server.handlePostTurn *)
Definition append_step (alive : bool) (now : Time) (fault : LogFault) (sv : Server) (k : nat) (id : string)
    (req : TurnRequest) (resp : TurnResponse) : Server :=
  let '(st, err) := Append alive now fault (sv_store sv) id req resp in
  let sv := sv <| sv_store := st |> in
  match err with
  | None => next_task sv k (PostReplay id)
  | Some _ => end_task sv k
  end.

(* src: internal/broker/broker.go 385-390 Server.handlePostTurn *)
Definition replay_step (alive readable : bool) (sv : Server) (k : nat) (id : string) : Server :=
  match Replay alive readable (sv_store sv) id with
  | inr records => next_task sv k (PostEval id records)
  | inl _ => end_task sv k
  end.

(** A subscriber receives an event, or sees that the channel is closed and drained. *)
(* src: internal/broker/a2a.go 326-335 Server.handleA2ASendSubscribe *)
Definition watch_step (sv : Server) (k ch : nat) : option Server :=
  match sv_subs sv !! ch with
  | None => None
  | Some c =>
      match sb_buf c with
      | ev :: rest =>
          let sv := sv <| sv_subs := <[ch := c <| sb_buf := rest |>]> (sv_subs sv) |> in
          Some (if ev_Final ev then end_task sv k else sv)
      | [] => if sb_closed c then Some (end_task sv k) else None
      end
  end.

(** [None]: the step cannot happen now.  Every step that takes the lock waits for it. *)
Definition step (l : Label) (sv : Server) : option (Outcome unit) :=
  let under_lock {A} (out : Outcome A) := if sv_locked sv then None else Some (state_of out) in
  match l with
  | LCreate alive t1 t2 fault p task => under_lock (handleCreateSession alive t1 t2 fault sv p task)
  | LSend alive t1 t2 fault message => under_lock (handleA2ASend alive t1 t2 fault sv message)
  | LNext a1 a2 readable id as_ => under_lock (handleNextTurn a1 a2 readable sv id as_)
  | LPost fault id resp => under_lock (post_section fault sv id resp)
  | LCancel id => under_lock (cancel_section sv id)
  | LSubscribe id => under_lock (subscribe_section sv id)
  | LWake k a1 a2 readable =>
      match sv_tasks sv !! k with
      | Some (Poller id as_ ch) =>
          match sv_notify sv !! ch with
          | Some true => under_lock (wake_step a1 a2 readable sv k id as_)
          | _ => None
          end
      | _ => None
      end
  | LPollEnd k => match sv_tasks sv !! k with Some (Poller _ _ _) => Some (Done (end_task sv k) tt) | _ => None end
  | LAppend k alive now fault =>
      match sv_tasks sv !! k with
      | Some (PostAppend id req resp) => Some (Done (append_step alive now fault sv k id req resp) tt)
      | _ => None
      end
  | LReplay k alive readable =>
      match sv_tasks sv !! k with
      | Some (PostReplay id) => Some (Done (replay_step alive readable sv k id) tt)
      | _ => None
      end
  | LEval k w =>
      match sv_tasks sv !! k with
      | Some (PostEval id records) =>
          under_lock (match eval_section w sv id records with
                      | Done sv old => Done (next_task sv k (CloseNotify old)) tt
                      | Panics sv => Panics (end_task sv k)
                      end)
      | _ => None
      end
  | LClose k =>
      match sv_tasks sv !! k with
      | Some (CloseNotify ch) =>
          Some (match close_notify (end_task sv k) ch with Some sv => Done sv tt | None => Panics (end_task sv k) end)
      | _ => None
      end
  | LWatch k =>
      match sv_tasks sv !! k with
      | Some (Watcher id ch) => option_map (fun sv => Done sv tt) (watch_step sv k ch)
      | _ => None
      end
  | LWatchEnd k =>
      match sv_tasks sv !! k with
      | Some (Watcher id ch) => under_lock (Done (next_task (unsubscribe_section sv id ch) k (WatcherClose ch)) tt)
      | _ => None
      end
  | LWatchClose k =>
      match sv_tasks sv !! k with
      | Some (WatcherClose ch) =>
          Some (match close_sub (sv_subs sv) ch with
                | Some subs => Done ((end_task sv k) <| sv_subs := subs |>) tt
                | None => Panics (end_task sv k)
                end)
      | _ => None
      end
  end.
