(* ===== verification/TurnLoopInv.v ===== *)
(** * TurnLoopInv: what the session turn loop guarantees

    Every interleaving of requests and handlers in flight, as reachability of [step]; its
    invariant in three parts (turn numbers, notification channels, subscriber channels),
    each over the parts of the state it speaks about; the refinement of each session to an
    abstract turn counter; and the runs in which the code panics. *)

From S2P Require Import Prelude GoStrings Json Codec Contract Ledger Stuck Turns SessionStuck Exit SessionStore A2A TurnLoop.
From Stdlib Require Import Ascii String.
#[local] Open Scope string_scope.

(** ** Reachable states *)

(** A panicking handler is recovered: the server goes on. *)
Definition after (out : Outcome unit) : Server := match out with Done sv _ | Panics sv => sv end.

Inductive Reachable (allowed : Label -> Prop) (store : Store) : Server -> Prop :=
  | R_init : Reachable allowed store (NewServer store)
  | R_step l sv out : Reachable allowed store sv -> allowed l -> step l sv = Some out ->
      Reachable allowed store (after out).

(** ** The store behind the server *)

Lemma Append_sessions alive now fault st id req resp st' err :
  Store_ok st -> Append alive now fault st id req resp = (st', err) ->
  Store_ok st' /\ forall id, is_Some (st_sessions st' !! id) <-> is_Some (st_sessions st !! id).
Proof.
  intros [Hn Hok] H. unfold Append in H.
  destruct (negb alive); [by injection H as <- _|]. destruct (negb (validateSessionID id)); [by injection H as <- _|].
  destruct (st_sessions st !! id) as [s|] eqn:Hs; [|by injection H as <- _].
  destruct (st_files st !! logPath st id); [|by injection H as <- _].
  destruct fault; injection H as <- _; try done. split.
  - split; [done|]. cbn. intros id' s'. destruct (decide (id' = id)) as [->|].
    + rewrite lookup_insert_eq. intros [= <-]. cbn. eauto.
    + rewrite lookup_insert_ne by done. eauto.
  - intros id'. cbn. destruct (decide (id' = id)) as [->|];
      [rewrite lookup_insert_eq, Hs; split; by eexists|by rewrite lookup_insert_ne].
Qed.

(** Lookups in a map that was updated at one key. *)
Ltac lookups :=
  repeat match goal with
    | H : <[?i := _]> _ !! ?j = Some _ |- _ =>
        destruct (decide (j = i)) as [->|]; [rewrite lookup_insert_eq in H; try discriminate H; apply (inj Some) in H;
           match type of H with _ = ?y => try (is_var y; subst y) end
        |rewrite lookup_insert_ne in H by done]
    | H : delete ?i _ !! ?j = Some _ |- _ =>
        destruct (decide (j = i)) as [->|]; [by rewrite lookup_delete_eq in H|rewrite lookup_delete_ne in H by done]
    end.

(** ** Turn numbers *)

Definition has {A} (o : option A) : bool := match o with Some _ => true | None => false end.

(** The session of a handler in flight. *)
Definition task_id (t : Task_) : option string :=
  match t with
  | Poller id _ _ | PostAppend id _ _ | PostReplay id | PostEval id _ | Watcher id _ => Some id
  | CloseNotify _ | WatcherClose _ => None
  end.

(** A pending request is the next turn of its session, which has a scratchpad and a set of
    seen artifacts; the sessions of the server and of its handlers are in the store. *)
Record PI (pending : gmap string TurnRequest) (states : gmap string sessionState) (store : Store)
    (tasks : gmap nat Task_) : Prop := mkPI {
  p_pending : forall id req, pending !! id = Some req ->
    tq_Session req = id /\ exists s, states !! id = Some s /\ tq_Turn req = (ss_turnCount s + 1)%Z /\ has (ss_scratch s) = true;
  p_both : forall id s, states !! id = Some s -> has (ss_scratch s) = has (ss_seen s);
  p_ok : Store_ok store;
  p_store : forall id s, states !! id = Some s -> is_Some (st_sessions store !! id);
  p_tasks : forall k t id, tasks !! k = Some t -> task_id t = Some id -> is_Some (states !! id) }.

Section PI.
Context (pending : gmap string TurnRequest) (states : gmap string sessionState) (store : Store) (tasks : gmap nat Task_).
Hypothesis HI : PI pending states store tasks.

Lemma PI_put id s s' : states !! id = Some s -> ss_turnCount s' = ss_turnCount s ->
  ss_scratch s' = ss_scratch s -> ss_seen s' = ss_seen s -> PI pending (<[id := s']> states) store tasks.
Proof.
  intros Hs H1 H2 H3. destruct HI as [P B O S T]. split; [| |done| |].
  - intros id' req (Hid & s0 & Hs0 & Ht & Hh)%P. split; [done|]. destruct (decide (id' = id)) as [->|].
    + simplify_eq. exists s'. rewrite lookup_insert_eq, H1, H2. done.
    + exists s0. by rewrite lookup_insert_ne.
  - intros id' s0 H. lookups; [rewrite H2, H3|]; eauto.
  - intros id' s0 H. lookups; eauto.
  - intros k t id' Hk Hid. destruct (decide (id' = id)) as [->|]; [rewrite lookup_insert_eq; by eexists|].
    rewrite lookup_insert_ne by done. eauto.
Qed.

Lemma PI_task k t : (forall id, task_id t = Some id -> is_Some (states !! id)) -> PI pending states store (<[k := t]> tasks).
Proof. intros Ht. destruct HI as [P B O S T]. split; try done. intros k' t' id Hk Hid. lookups; eauto. Qed.

Lemma PI_end k : PI pending states store (delete k tasks).
Proof. destruct HI as [P B O S T]. split; try done. intros k' t' id Hk Hid. lookups; eauto. Qed.

Lemma PI_store store' : Store_ok store' ->
  (forall id, is_Some (st_sessions store !! id) -> is_Some (st_sessions store' !! id)) -> PI pending states store' tasks.
Proof. intros ? Hs. destruct HI as [P B O S T]. split; eauto. Qed.

Lemma PI_new id s store' : Store_ok store' -> states !! id = None ->
  (forall id', is_Some (st_sessions store !! id') -> is_Some (st_sessions store' !! id')) ->
  is_Some (st_sessions store' !! id) -> has (ss_scratch s) = has (ss_seen s) ->
  PI pending (<[id := s]> states) store' tasks.
Proof.
  intros Ho Hn Hs Hid Hb. destruct HI as [P B O S T]. split; [| |done| |].
  - intros id' req (? & s0 & Hs0 & ?)%P. split; [done|]. exists s0. rewrite lookup_insert_ne by congruence. done.
  - intros id' s0 H. lookups; eauto.
  - intros id' s0 H. lookups; eauto.
  - intros k t id' Hk Ht. destruct (decide (id' = id)) as [->|]; [rewrite lookup_insert_eq; by eexists|].
    rewrite lookup_insert_ne by done. eauto.
Qed.

Lemma PI_grant id req s : states !! id = Some s -> tq_Session req = id -> tq_Turn req = (ss_turnCount s + 1)%Z ->
  has (ss_scratch s) = true -> PI (<[id := req]> pending) states store tasks.
Proof.
  intros Hs H1 H2 H3. destruct HI as [P B O S T]. split; try done. intros id' req' H. lookups; eauto 6.
Qed.

Lemma PI_post id s s' : states !! id = Some s -> ss_scratch s' = ss_scratch s -> has (ss_seen s') = has (ss_seen s) ->
  PI (delete id pending) (<[id := s']> states) store tasks.
Proof.
  intros Hs H2 H3. destruct HI as [P B O S T]. split; [| |done| |].
  - intros id' req H. lookups. rewrite lookup_insert_ne by done. eauto.
  - intros id' s0 H. lookups; [rewrite H2, H3|]; eauto.
  - intros id' s0 H. lookups; eauto.
  - intros k t id' Hk Ht. destruct (decide (id' = id)) as [->|]; [rewrite lookup_insert_eq; by eexists|].
    rewrite lookup_insert_ne by done. eauto.
Qed.
End PI.

(** ** Notification channels *)

Definition is_close (t : option Task_) : Prop := exists ch, t = Some (CloseNotify ch).

(** Each session's current channel is open and its own; each channel a handler is about to
    close is open, no session's current one, and closed by that handler only; and a waiting
    poller waits on a closed channel, on its session's current one, or on one about to be
    closed. *)
Record NI (states : gmap string sessionState) (notify : gmap nat bool) (tasks : gmap nat Task_) (next : nat) : Prop := mkNI {
  n_cur : forall id s, states !! id = Some s -> notify !! ss_notify s = Some false;
  n_inj : forall id id' s s', states !! id = Some s -> states !! id' = Some s' -> ss_notify s = ss_notify s' -> id = id';
  n_close : forall k ch, tasks !! k = Some (CloseNotify ch) ->
    notify !! ch = Some false /\ forall id s, states !! id = Some s -> ss_notify s <> ch;
  n_close_inj : forall k k' ch, tasks !! k = Some (CloseNotify ch) -> tasks !! k' = Some (CloseNotify ch) -> k = k';
  n_poll : forall k id as_ ch, tasks !! k = Some (Poller id as_ ch) ->
    notify !! ch = Some true \/ (exists s, states !! id = Some s /\ ss_notify s = ch) \/
    exists k', tasks !! k' = Some (CloseNotify ch);
  n_notify_bound : forall n b, notify !! n = Some b -> (n < next)%nat;
  n_task_bound : forall n t, tasks !! n = Some t -> (n < next)%nat }.

Section NI.
Context (states : gmap string sessionState) (notify : gmap nat bool) (tasks : gmap nat Task_) (next : nat).
Hypothesis HI : NI states notify tasks next.

Lemma NI_next next' : (next <= next')%nat -> NI states notify tasks next'.
Proof. destruct HI as [C J K L P B T]. intros ?. split; try done; [intros n b ?%B|intros n t ?%T]; lia. Qed.

Lemma NI_put id s s' : states !! id = Some s -> ss_notify s' = ss_notify s -> NI (<[id := s']> states) notify tasks next.
Proof.
  intros Hs He. destruct HI as [C J K L P B T]. split; try done.
  - intros id' s0 H. lookups; [rewrite He|]; eauto.
  - intros a b sa sb Ha Hb Hab. lookups; try done; rewrite ?He in *; eauto.
  - intros k ch Hk. destruct (K k ch Hk) as [Ho Hne]. split; [done|]. intros id' s0 H. lookups; [rewrite He|]; eauto.
  - intros k i a ch [?|[(s0 & H1 & H2)|?]]%P; [by left| |by right; right]. right; left.
    destruct (decide (i = id)) as [->|]; [exists s'; rewrite lookup_insert_eq; simplify_eq; done|].
    exists s0. by rewrite lookup_insert_ne.
Qed.

Lemma NI_new id s : states !! id = None -> ss_notify s = next ->
  NI (<[id := s]> states) (<[next := false]> notify) tasks (S next).
Proof.
  intros Hn He. destruct HI as [C J K L P B T].
  assert (HB : forall m b, notify !! m = Some b -> (<[next := false]> notify) !! m = Some b).
  { intros m b Hm. rewrite lookup_insert_ne; [done|]. apply B in Hm. lia. }
  assert (HC : forall i x, states !! i = Some x -> ss_notify x <> next).
  { intros i x Hx%C E. rewrite E in Hx. apply B in Hx. lia. }
  split; [| | |done| | |].
  - intros id' s0 H. lookups; [rewrite He; by rewrite lookup_insert_eq|eauto].
  - intros a b sa sb Ha Hb Hab. lookups; try done; [rewrite He in Hab; by apply HC in Ha|rewrite He in Hab; symmetry in Hab; by apply HC in Hb|eauto].
  - intros k ch Hk. destruct (K k ch Hk) as [Ho Hne]. split; [eauto|]. intros id' s0 H. lookups; [|eauto].
    rewrite He. intros <-. apply B in Ho. lia.
  - intros k i a ch [?|[(s0 & H1 & H2)|?]]%P; [left; eauto| |by right; right]. right; left. exists s0.
    rewrite lookup_insert_ne by congruence. done.
  - intros m b Hm. lookups; [lia|]. apply B in Hm. lia.
  - intros m t Hm%T. lia.
Qed.

(** Session [id] gets a fresh channel, and the handler [k] is to close the old one. *)
Lemma NI_swap id s s' k next' : states !! id = Some s -> ss_notify s' = next ->
  (forall t, tasks !! k = Some t -> task_id t = Some id /\ forall i a ch, t <> Poller i a ch) ->
  (k < next')%nat -> (next < next')%nat ->
  NI (<[id := s']> states) (<[next := false]> notify) (<[k := CloseNotify (ss_notify s)]> tasks) next'.
Proof.
  intros Hs He Hk Hk' Hnext. destruct HI as [C J K L P B T]. pose proof (C _ _ Hs) as Hold.
  assert (HB : forall m b, notify !! m = Some b -> (<[next := false]> notify) !! m = Some b).
  { intros m b Hm. rewrite lookup_insert_ne; [done|]. apply B in Hm. lia. }
  assert (HC : forall i x, states !! i = Some x -> ss_notify x <> next).
  { intros i x Hx%C E. rewrite E in Hx. apply B in Hx. lia. }
  assert (HK : forall ch, tasks !! k <> Some (CloseNotify ch)).
  { intros ch H. apply Hk in H as [? _]. done. }
  split.
  - intros id' s0 H. lookups; [rewrite He; by rewrite lookup_insert_eq|eauto].
  - intros a b sa sb Ha Hb Hab. lookups; try done; [rewrite He in Hab; by apply HC in Ha|rewrite He in Hab; symmetry in Hab; by apply HC in Hb|eauto].
  - intros k0 ch H. lookups.
    + injection H as <-. split; [eauto|]. intros id' s0 H. lookups; [rewrite He; intros E; apply (HC id s Hs); congruence|].
      intros E. by apply (J id' id s0 s) in E.
    + destruct (K k0 ch H) as [Ho Hne]. split; [eauto|]. intros id' s0 H0. lookups; [|eauto].
      rewrite He. intros <-. apply B in Ho. lia.
  - intros k1 k2 ch H1 H2. lookups; try done; [injection H2 as <-; by apply K in H1 as [_ H1]; apply H1 in Hs
      |injection H1 as <-; by apply K in H2 as [_ H2]; apply H2 in Hs|eauto].
  - intros k0 i a ch H. lookups. apply P in H as [?|[(s0 & H1 & H2)|(k1 & H1)]].
    + left. eauto.
    + destruct (decide (i = id)) as [->|].
      * right; right. exists k. rewrite lookup_insert_eq. simplify_eq. done.
      * right; left. exists s0. by rewrite lookup_insert_ne.
    + right; right. exists k1. rewrite lookup_insert_ne; [done|]. intros <-. by apply HK in H1.
  - intros m b Hm. lookups; [lia|]. apply B in Hm. lia.
  - intros m t Hm. lookups; [lia|]. apply T in Hm. lia.
Qed.

Lemma NI_task k t next' : ~ is_close (tasks !! k) -> ~ is_close (Some t) ->
  (forall i a ch, t = Poller i a ch -> exists s, states !! i = Some s /\ ss_notify s = ch) ->
  (k < next')%nat -> (next <= next')%nat -> NI states notify (<[k := t]> tasks) next'.
Proof.
  intros Hk Ht Hp Hb Hn. destruct HI as [C J K L P B T]. unfold is_close in *. split; try done.
  - intros k0 ch H. lookups; [naive_solver|eauto].
  - intros k1 k2 ch H1 H2. lookups; naive_solver.
  - intros k0 i a ch H. lookups; [right; left; eauto|]. destruct (P _ _ _ _ H) as [?|[?|(k1 & H1)]]; [by left|by right; left|].
    right; right. exists k1. rewrite lookup_insert_ne; [done|]. intros <-. naive_solver.
  - intros m b Hm%B. lia.
  - intros m t' Hm. lookups; [lia|]. apply T in Hm. lia.
Qed.

Lemma NI_end k : ~ is_close (tasks !! k) -> NI states notify (delete k tasks) next.
Proof.
  intros Hk. destruct HI as [C J K L P B T]. unfold is_close in *. split; try done.
  - intros k0 ch H. lookups; eauto.
  - intros k1 k2 ch H1 H2. lookups; eauto.
  - intros k0 i a ch H. lookups. destruct (P _ _ _ _ H) as [?|[?|(k1 & H1)]]; [by left|by right; left|].
    right; right. exists k1. rewrite lookup_delete_ne; [done|]. intros <-. naive_solver.
  - intros m t' Hm. lookups; eauto.
Qed.

Lemma NI_close k ch : tasks !! k = Some (CloseNotify ch) ->
  notify !! ch = Some false /\ NI states (<[ch := true]> notify) (delete k tasks) next.
Proof.
  intros Hk. destruct HI as [C J K L P B T]. destruct (K _ _ Hk) as [Ho Hne]. split; [done|]. split; try done.
  - intros id s Hs. rewrite lookup_insert_ne; [eauto|]. intros E. by apply (Hne id s).
  - intros k0 ch0 H. lookups. destruct (K _ _ H) as [? ?]. split; [|done]. rewrite lookup_insert_ne; [done|].
    intros ->. by pose proof (L _ _ _ Hk H).
  - intros k1 k2 ch0 H1 H2. lookups; eauto.
  - intros k0 i a ch0 H. lookups. destruct (decide (ch0 = ch)) as [->|]; [left; by rewrite lookup_insert_eq|].
    rewrite lookup_insert_ne by done. destruct (P _ _ _ _ H) as [?|[?|(k1 & H1)]]; [by left|by right; left|].
    right; right. exists k1. rewrite lookup_delete_ne; [done|]. intros <-. congruence.
  - intros m b Hm. lookups; eauto.
  - intros m t' Hm. lookups; eauto.
Qed.
End NI.

(** ** Subscriber channels *)

(** Whether a channel exists and is closed; what it buffers does not matter here. *)
Definition flag (subs : gmap nat SubChan) (ch : nat) : option bool := option_map sb_closed (subs !! ch).

Lemma flag_insert subs ch c x : flag (<[ch := c]> subs) x = if decide (x = ch) then Some (sb_closed c) else flag subs x.
Proof.
  unfold flag. case_decide as H; [by rewrite H, lookup_insert_eq|by rewrite lookup_insert_ne].
Qed.

Lemma send_sub_open subs ch ev : flag subs ch = Some false ->
  exists subs', send_sub subs ch ev = Some subs' /\ forall x, flag subs' x = flag subs x.
Proof.
  unfold send_sub. intros Hf. assert (Hf' := Hf). unfold flag in Hf'. destruct (subs !! ch) as [c|]; [|done].
  injection Hf' as Hc. rewrite Hc. case_match; [|by exists subs]. eexists. split; [done|].
  intros x. rewrite flag_insert. case_decide; [subst; by rewrite Hf, <-Hc|done].
Qed.

Lemma send_subs_open subs chs ev : (forall ch, In ch chs -> flag subs ch = Some false) ->
  exists subs', send_subs subs chs ev = Some subs' /\ forall x, flag subs' x = flag subs x.
Proof.
  revert subs. induction chs as [|ch chs IH]; intros subs H; [by exists subs|]. cbn [send_subs].
  destruct (send_sub_open subs ch ev) as (s1 & -> & H1); [by apply H; left|].
  destruct (IH s1) as (s2 & -> & H2); [intros c Hc; rewrite H1; apply H; by right|].
  exists s2. split; [done|]. intros x. by rewrite H2, H1.
Qed.

Lemma close_sub_open subs ch : flag subs ch = Some false ->
  exists subs', close_sub subs ch = Some subs' /\ forall x, flag subs' x = if decide (x = ch) then Some true else flag subs x.
Proof.
  unfold close_sub. intros Hf. unfold flag in Hf. destruct (subs !! ch) as [c|]; [|done]. injection Hf as ->.
  eexists. split; [done|]. intros x. by rewrite flag_insert.
Qed.

(** The flags after the channels [chs] were closed. *)
Definition closed_all (chs : list nat) (subs subs' : gmap nat SubChan) : Prop :=
  forall x, flag subs' x = if decide (x ∈ chs) then Some true else flag subs x.

Lemma closed_all_cons ch chs s1 s2 s3 :
  (forall x, flag s2 x = if decide (x = ch) then Some true else flag s1 x) -> closed_all chs s2 s3 ->
  closed_all (ch :: chs) s1 s3.
Proof.
  intros H1 H2 x. rewrite H2, H1. destruct (decide (x ∈ chs)) as [?|?].
  - rewrite decide_True; [done|by right].
  - destruct (decide (x = ch)) as [->|]; [rewrite decide_True; [done|by left]|].
    rewrite decide_False; [done|]. set_solver.
Qed.

Lemma close_subs_open subs chs : NoDup chs -> (forall ch, In ch chs -> flag subs ch = Some false) ->
  exists subs', close_subs subs chs = Some subs' /\ closed_all chs subs subs'.
Proof.
  intros Hnd. revert subs. induction Hnd as [|ch chs Hn Hnd IH]; intros subs H.
  { exists subs. split; [done|]. intros x. by rewrite decide_False by set_solver. }
  cbn [close_subs]. destruct (close_sub_open subs ch) as (s1 & -> & H1); [by apply H; left|].
  destruct (IH s1) as (s2 & -> & H2).
  { intros c Hc. rewrite H1, decide_False; [apply H; by right|]. intros ->. by apply list_elem_of_In in Hc. }
  exists s2. split; [done|]. by eapply closed_all_cons.
Qed.

Lemma send_close_subs_open subs chs ev : NoDup chs -> (forall ch, In ch chs -> flag subs ch = Some false) ->
  exists subs', send_close_subs subs chs ev = Some subs' /\ closed_all chs subs subs'.
Proof.
  intros Hnd. revert subs. induction Hnd as [|ch chs Hn Hnd IH]; intros subs H.
  { exists subs. split; [done|]. intros x. by rewrite decide_False by set_solver. }
  cbn [send_close_subs]. destruct (send_sub_open subs ch ev) as (s0 & -> & H0); [by apply H; left|].
  destruct (close_sub_open s0 ch) as (s1 & -> & H1); [by rewrite H0; apply H; left|].
  destruct (IH s1) as (s2 & -> & H2).
  { intros c Hc. rewrite H1, decide_False, H0; [apply H; by right|]. intros ->. by apply list_elem_of_In in Hc. }
  exists s2. split; [done|]. eapply closed_all_cons; [|done]. intros x. by rewrite H1, H0.
Qed.

(** The subscribers of a session are open, distinct and not shared; a channel about to be
    closed by its reader is no subscriber any more. *)
Record SI (states : gmap string sessionState) (subs : gmap nat SubChan) (tasks : gmap nat Task_) (next : nat) : Prop := mkSI {
  s_open : forall id s ch, states !! id = Some s -> In ch (ss_a2aSubs s) -> flag subs ch = Some false;
  s_nodup : forall id s, states !! id = Some s -> NoDup (ss_a2aSubs s);
  s_inj : forall id id' s s' ch, states !! id = Some s -> states !! id' = Some s' ->
    In ch (ss_a2aSubs s) -> In ch (ss_a2aSubs s') -> id = id';
  s_watch : forall k id ch, tasks !! k = Some (Watcher id ch) ->
    is_Some (flag subs ch) /\ forall id' s, states !! id' = Some s -> In ch (ss_a2aSubs s) -> id' = id;
  s_wclose : forall k ch, tasks !! k = Some (WatcherClose ch) ->
    is_Some (flag subs ch) /\ forall id s, states !! id = Some s -> ~ In ch (ss_a2aSubs s);
  s_bound : forall n b, flag subs n = Some b -> (n < next)%nat }.

Section SI.
Context (states : gmap string sessionState) (subs : gmap nat SubChan) (tasks : gmap nat Task_) (next : nat).
Hypothesis HI : SI states subs tasks next.

Lemma SI_next next' : (next <= next')%nat -> SI states subs tasks next'.
Proof. destruct HI as [O N J W C B]. intros ?. split; try done. intros n b ?%B. lia. Qed.

Lemma SI_flags subs' : (forall x, flag subs' x = flag subs x) -> SI states subs' tasks next.
Proof. destruct HI as [O N J W C B]. intros Hf. split; intros *; rewrite ?Hf; eauto. Qed.

(** The subscribers of one session shrink; the channels that left may have been closed. *)
Lemma SI_shrink id s s' subs' : states !! id = Some s -> ss_a2aSubs s' `sublist_of` ss_a2aSubs s ->
  (forall x, flag subs' x = flag subs x \/ (flag subs' x = Some true /\ In x (ss_a2aSubs s) /\ ~ In x (ss_a2aSubs s'))) ->
  SI (<[id := s']> states) subs' tasks next.
Proof.
  intros Hs Hsub Hf. destruct HI as [O N J W C B].
  assert (Hin : forall ch, In ch (ss_a2aSubs s') -> In ch (ss_a2aSubs s)).
  { intros ch. rewrite <-!list_elem_of_In. intros H. by eapply elem_of_sublist. }
  assert (Hsome : forall x, is_Some (flag subs x) -> is_Some (flag subs' x)).
  { intros x Hx. destruct (Hf x) as [->|[-> _]]; [done|by eexists]. }
  split.
  - intros i x ch Hi Hx. lookups.
    + destruct (Hf ch) as [->|(_ & _ & ?)]; [eauto|done].
    + destruct (Hf ch) as [->|(_ & H & _)]; [eauto|]. by destruct n; eapply J.
  - intros i x Hi. lookups; [eapply sublist_NoDup|]; eauto.
  - intros a b sa sb ch Ha Hb Hca Hcb. lookups; eauto.
  - intros k i ch Hk. destruct (W _ _ _ Hk) as [? Hw]. split; [auto|]. intros i' x Hi Hx. lookups; eauto.
  - intros k ch Hk. destruct (C _ _ Hk) as [? Hw]. split; [auto|]. intros i' x Hi Hx. lookups; [by eapply Hw; eauto|by eapply Hw].
  - intros m b Hm. destruct (Hf m) as [E|(E & H & _)]; [rewrite E in Hm; eauto|].
    apply (O _ _ _ Hs), B in H. done.
Qed.

Lemma SI_put id s s' : states !! id = Some s -> ss_a2aSubs s' = ss_a2aSubs s -> SI (<[id := s']> states) subs tasks next.
Proof. intros Hs He. eapply SI_shrink; [done|by rewrite He|by left]. Qed.

Lemma SI_new id s : states !! id = None -> ss_a2aSubs s = [] -> SI (<[id := s]> states) subs tasks next.
Proof.
  intros Hn He. destruct HI as [O N J W C B]. split; [| | | | |done].
  - intros i x ch Hi Hx. lookups; [by rewrite He in Hx|eauto].
  - intros i x Hi. lookups; [rewrite He; constructor|eauto].
  - intros a b sa sb ch Ha Hb Hca Hcb. lookups; rewrite ?He in *; try done; eauto.
  - intros k i ch Hk. destruct (W _ _ _ Hk) as [? Hw]. split; [done|]. intros i' x Hi Hx. lookups; [by rewrite He in Hx|eauto].
  - intros k ch Hk. destruct (C _ _ Hk) as [? Hw]. split; [done|]. intros i' x Hi Hx. lookups; [by rewrite He in Hx|by eapply Hw].
Qed.

Lemma SI_subscribe id s s' k : states !! id = Some s -> ss_a2aSubs s' = (ss_a2aSubs s ++ [next])%list ->
  tasks !! k = None ->
  SI (<[id := s']> states) (<[next := mkSub [] false]> subs) (<[k := Watcher id next]> tasks) (S next).
Proof.
  intros Hs He Hk0. destruct HI as [O N J W C B].
  assert (HB : forall m b, flag subs m = Some b -> flag (<[next := mkSub [] false]> subs) m = Some b).
  { intros m b Hm. rewrite flag_insert, decide_False; [done|]. apply B in Hm. lia. }
  assert (HC : forall i x, states !! i = Some x -> ~ In next (ss_a2aSubs x)).
  { intros i x Hx Hin. pose proof (B _ _ (O _ _ _ Hx Hin)). lia. }
  assert (Hin : forall ch, In ch (ss_a2aSubs s') <-> In ch (ss_a2aSubs s) \/ ch = next).
  { intros ch. rewrite He, in_app_iff. cbn. naive_solver. }
  assert (Hnew : flag (<[next := mkSub [] false]> subs) next = Some false) by by rewrite flag_insert, decide_True.
  split.
  - intros i x ch Hi Hx. lookups; [apply Hin in Hx as [Hx| ->]; eauto|eauto].
  - intros i x Hi. lookups; [|eauto]. rewrite He. apply NoDup_app. split_and!; [eauto| |apply NoDup_singleton].
    intros ch Hch ->%list_elem_of_singleton. apply list_elem_of_In in Hch. by eapply HC.
  - intros a b sa sb ch Ha Hb Hca Hcb. lookups; try done; rewrite ?Hin in *.
    + destruct Hcb as [?| ->]; [eauto|by apply HC in Ha].
    + destruct Hca as [?| ->]; [eauto|by apply HC in Hb].
    + eauto.
  - intros k0 i ch Hk. lookups.
    + injection Hk as <- <-. split; [by rewrite Hnew; eexists|]. intros i' x Hi Hx. lookups; [done|by apply HC in Hi].
    + destruct (W _ _ _ Hk) as [[b Hb] Hw]. split; [eexists; eauto|]. intros i' x Hi Hx. lookups; [|eauto].
      apply Hin in Hx as [?| ->]; [eauto|]. apply B in Hb. lia.
  - intros k0 ch Hk. lookups. destruct (C _ _ Hk) as [[b Hb] Hw]. split; [eexists; eauto|].
    intros i' x Hi Hx. lookups; [|by eapply Hw]. apply Hin in Hx as [?| ->]; [by eapply Hw|]. apply B in Hb. lia.
  - intros m b. rewrite flag_insert. case_decide; [lia|]. intros ?%B. lia.
Qed.

Lemma SI_task k t : (forall id ch, t <> Watcher id ch) -> (forall ch, t <> WatcherClose ch) ->
  SI states subs (<[k := t]> tasks) next.
Proof.
  intros H1 H2. destruct HI as [O N J W C B]. split; try done; intros; lookups; subst; try naive_solver; eauto.
Qed.

Lemma SI_end k : SI states subs (delete k tasks) next.
Proof. destruct HI as [O N J W C B]. split; try done; intros; lookups; eauto. Qed.

Lemma SI_unsubscribe id s s' k ch : states !! id = Some s -> tasks !! k = Some (Watcher id ch) ->
  ss_a2aSubs s' = List.filter (fun c => negb (Nat.eqb c ch)) (ss_a2aSubs s) ->
  SI (<[id := s']> states) subs (<[k := WatcherClose ch]> tasks) next.
Proof.
  intros Hs Hk He.
  assert (HS : SI (<[id := s']> states) subs tasks next).
  { eapply SI_shrink; [done| |by left]. rewrite He. clear. induction (ss_a2aSubs s) as [|c l IH]; [done|]. cbn.
    destruct (negb (Nat.eqb c ch)); [by apply sublist_skip|by apply sublist_cons]. }
  destruct HI as [O N J W C B]. destruct (W _ _ _ Hk) as [Hf Hw]. destruct HS as [O' N' J' W' C' B'].
  split; try done.
  - intros k0 i c H. lookups. eauto.
  - intros k0 c H. lookups; [|eauto]. injection H as <-. split; [done|]. intros i x Hi Hx. lookups.
    + rewrite He in Hx. apply filter_In in Hx as [_ Hx]. by rewrite Nat.eqb_refl in Hx.
    + by apply (Hw i x) in Hx.
Qed.

Lemma SI_wclose k ch subs' : tasks !! k = Some (WatcherClose ch) -> 
  (forall x, flag subs' x = if decide (x = ch) then Some true else flag subs x) -> SI states subs' (delete k tasks) next.
Proof.
  intros Hk Hf. destruct (s_wclose _ _ _ _ HI _ _ Hk) as [[b Hb] Hw]. destruct (SI_end k) as [O N J W C B]. split; try done.
  - intros i x c Hi Hx. rewrite Hf, decide_False; [eauto|]. intros ->. by apply (Hw i x).
  - intros k0 i c H. destruct (W _ _ _ H) as [? ?]. split; [|done]. rewrite Hf. case_decide; [by eexists|done].
  - intros k0 c H. destruct (C _ _ H) as [? ?]. split; [|done]. rewrite Hf. case_decide; [by eexists|done].
  - intros m b'. rewrite Hf. case_decide; [intros _; subst; eauto|eauto].
Qed.
End SI.

(** ** The invariant *)

Definition Inv (sv : Server) : Prop :=
  PI (sv_pending sv) (sv_states sv) (sv_store sv) (sv_tasks sv) /\
  NI (sv_states sv) (sv_notify sv) (sv_tasks sv) (sv_next sv) /\
  SI (sv_states sv) (sv_subs sv) (sv_tasks sv) (sv_next sv).

Lemma Inv_init store : Store_ok store -> Inv (NewServer store).
Proof.
  intros Hok. split; [|split]; split; cbn; try done; intros *; try by rewrite lookup_empty.
Qed.

Lemma Inv_end sv k : ~ is_close (sv_tasks sv !! k) -> Inv sv -> Inv (end_task sv k).
Proof. intros Hk (HP & HN & HS). split; [by apply PI_end|split; [by apply NI_end|by apply SI_end]]. Qed.

(** The lock plays no part in the invariant. *)
Lemma Inv_locked sv b : Inv sv -> Inv (sv <| sv_locked := b |>).
Proof. done. Qed.

(** A handler that is not about to close anything takes a next stage that is not either. *)
Lemma Inv_task sv k t : Inv sv -> ~ is_close (sv_tasks sv !! k) -> ~ is_close (Some t) ->
  (forall id, task_id t = Some id -> is_Some (sv_states sv !! id)) ->
  (forall i a ch, t = Poller i a ch -> exists s, sv_states sv !! i = Some s /\ ss_notify s = ch) ->
  (forall id ch, t <> Watcher id ch) -> (forall ch, t <> WatcherClose ch) ->
  is_Some (sv_tasks sv !! k) -> Inv (next_task sv k t).
Proof.
  intros (HP & HN & HS) H1 H2 H3 H4 H5 H6 [t0 Hk]. split; [by apply PI_task|split; [|by apply SI_task]].
  apply NI_task with (next := sv_next sv); try done. cbn. by eapply n_task_bound.
Qed.

Lemma fresh_task sv : Inv sv -> sv_tasks sv !! sv_next sv = None.
Proof.
  intros (_ & HN & _). destruct (sv_tasks sv !! sv_next sv) eqn:E; [|done]. apply (n_task_bound _ _ _ _ HN) in E. lia.
Qed.

Lemma Inv_spawn sv t : Inv sv -> ~ is_close (Some t) ->
  (forall id, task_id t = Some id -> is_Some (sv_states sv !! id)) ->
  (forall i a ch, t = Poller i a ch -> exists s, sv_states sv !! i = Some s /\ ss_notify s = ch) ->
  (forall id ch, t <> Watcher id ch) -> (forall ch, t <> WatcherClose ch) -> Inv (spawn sv t).
Proof.
  intros HI H2 H3 H4 H5 H6. pose proof (fresh_task sv HI) as Hf. destruct HI as (HP & HN & HS).
  split; [by apply PI_task|split; cbn].
  - apply NI_task with (next := sv_next sv); try done; [|lia..]. rewrite Hf. intros (? & ?). done.
  - apply SI_next with (next := sv_next sv); [by apply SI_task|lia].
Qed.

(** A session's state replaced by one that agrees on what the invariant reads. *)
Lemma Inv_put sv id s s' : Inv sv -> sv_states sv !! id = Some s ->
  ss_turnCount s' = ss_turnCount s -> ss_scratch s' = ss_scratch s -> ss_seen s' = ss_seen s ->
  ss_notify s' = ss_notify s -> ss_a2aSubs s' = ss_a2aSubs s -> Inv (put_state sv id s').
Proof.
  intros (HP & HN & HS) Hs H1 H2 H3 H4 H5.
  split; [by eapply PI_put|split; [by eapply NI_put|by eapply SI_put]].
Qed.

Lemma Inv_register sv id s store' : Inv sv -> Store_ok store' -> sv_states sv !! id = None ->
  (forall id', is_Some (st_sessions (sv_store sv) !! id') -> is_Some (st_sessions store' !! id')) ->
  is_Some (st_sessions store' !! id) -> has (ss_scratch s) = has (ss_seen s) -> ss_notify s = sv_next sv ->
  ss_a2aSubs s = [] ->
  Inv (put_state (fst (new_notify (sv <| sv_store := store' |>))) id s).
Proof.
  intros (HP & HN & HS) Ho Hn Hs Hid Hb He Hsub.
  split; [by apply (PI_new _ _ _ _ HP)|split; [by apply NI_new|]]. cbn.
  apply SI_next with (next := sv_next sv); [by apply SI_new|lia].
Qed.

(** ** Each part of the handlers preserves it *)

Lemma Inv_created alive t1 t2 fault sv name task st' r : Inv sv ->
  Create alive t1 t2 fault (sv_store sv) name task = (st', r) ->
  match r with
  | inl _ => Inv (sv <| sv_store := st' |>)
  | inr sess => forall p scratch seen, has scratch = has seen ->
      Inv (register_session (sv <| sv_store := st' |>) sess p scratch seen)
  end.
Proof.
  intros HI HC. pose proof HI as (HP & HN & HS).
  pose proof (Create_cases _ _ _ _ _ _ _ _ _ (p_ok _ _ _ _ HP) HC) as (Hok & Hr & _). destruct r as [err|sess].
  - split; [|done]. apply (PI_store _ _ _ _ HP); [done|]. cbn. by rewrite Hr.
  - destruct Hr as (Hfresh & _ & Hsess & _ & _). intros p scratch seen Hb. apply (Inv_register sv); try done.
    + destruct (sv_states sv !! se_ID sess) eqn:E; [|done]. apply (p_store _ _ _ _ HP) in E as [? E]. congruence.
    + intros id' [x Hx]. rewrite Hsess. destruct (decide (id' = se_ID sess)) as [->|];
        [rewrite lookup_insert_eq|rewrite lookup_insert_ne by done]; by eexists.
    + rewrite Hsess, lookup_insert_eq. by eexists.
Qed.

Lemma create_inv alive t1 t2 fault sv p task : Inv sv ->
  exists sv' r, handleCreateSession alive t1 t2 fault sv p task = Done sv' r /\ Inv sv' /\ sv_locked sv' = sv_locked sv.
Proof.
  intros HI. unfold handleCreateSession. destruct (Create _ _ _ _ _ _ _) as [st' r] eqn:HC.
  apply Inv_created in HC; [|done]. destruct r as [err|sess]; (eexists _, _; split; [done|]; split; [|done]); [done|].
  by apply HC.
Qed.

Lemma send_inv alive t1 t2 fault sv message : Inv sv ->
  exists sv' r, handleA2ASend alive t1 t2 fault sv message = Done sv' r /\ Inv sv' /\ sv_locked sv' = sv_locked sv.
Proof.
  intros HI. unfold handleA2ASend. destruct (Create _ _ _ _ _ _ _) as [st' r] eqn:HC.
  apply Inv_created in HC; [|done]. destruct r as [err|sess]; (eexists _, _; split; [done|]; split; [|done]); [done|].
  by apply HC.
Qed.

(** One pass of the next-turn loop: it touches neither tasks nor locations, names a channel
    to wait on only if it is the session's current one, and panics only for a session
    without a scratchpad. *)
Lemma next_section_inv a1 a2 readable sv id as_ : Inv sv ->
  match next_section a1 a2 readable sv id as_ with
  | Done sv' r => Inv sv' /\ sv_tasks sv' = sv_tasks sv /\ sv_next sv' = sv_next sv /\ sv_locked sv' = sv_locked sv /\
      forall ch, r = NextWait ch -> exists s, sv_states sv' !! id = Some s /\ ss_notify s = ch
  | Panics sv' => sv' = sv <| sv_locked := true |> /\ exists s, sv_states sv !! id = Some s /\ ss_scratch s = None
  end.
Proof.
  intros HI. unfold next_section. destruct (sv_states sv !! id) as [s|] eqn:Hs; [|by split_and!].
  destruct (ss_terminal s); [by split_and!|]. destruct (IsExhausted _).
  { split_and!; try done. by eapply Inv_put. }
  destruct (Get _ _ _) as [|sess]; [by split_and!|]. destruct (Next _ _ _ _) as [|roleID]; [by split_and!|].
  destruct (_ || _).
  - destruct (ss_scratch s) as [mgr|] eqn:Hm; [|split; [done|by exists s]].
    split_and!; try done. destruct HI as (HP & HN & HS). split; [|done]. eapply PI_grant; try done. by rewrite Hm.
  - split_and!; try done. intros ch [= <-]. by exists s.
Qed.

(** A post: pending requests belong to sessions with a scratchpad, so it does not panic. *)
Lemma post_section_inv fault sv id resp : Inv sv ->
  exists sv' r, post_section fault sv id resp = Done sv' r /\ Inv sv' /\ sv_locked sv' = sv_locked sv.
Proof.
  intros HI. unfold post_section. destruct (sv_pending sv !! id) as [req|] eqn:Hp; [|by eexists _, _].
  destruct HI as (HP & HN & HS). destruct (p_pending _ _ _ _ HP _ _ Hp) as (Hid & s & Hs & Ht & Hm).
  change (sv_states (sv <| sv_pending := delete id (sv_pending sv) |>)) with (sv_states sv). rewrite Hs.
  change (default zero_state (Some s)) with s.
  pose proof (p_both _ _ _ _ HP _ _ Hs) as Hb. rewrite Hm in Hb.
  destruct (ss_scratch s) as [mgr|] eqn:Hmgr; [|done]. destruct (ss_seen s) as [seen|] eqn:Hseen; [|done].
  unfold count_new. destruct (collectNewArtifacts seen _) as [seen' new].
  eexists _, _. split; [done|]. split; [|done].
  apply Inv_spawn; try done; try (intros (? & ?); done).
  - split; [|split; [by eapply NI_put|by eapply SI_put]].
    eapply PI_post; [|exact Hs|done|by rewrite Hseen]. eapply PI_store; [exact HP| |done].
    pose proof (p_ok _ _ _ _ HP) as [? ?]. done.
  - intros i [= <-]. cbn. rewrite lookup_insert_eq. by eexists.
Qed.

(** Session [id] gets a fresh channel, its subscribers shrink, and [k] is to close the old one. *)
Lemma Inv_swap sv id s s' k subs' next' locked : Inv sv -> sv_states sv !! id = Some s ->
  ss_turnCount s' = ss_turnCount s -> ss_scratch s' = ss_scratch s -> ss_seen s' = ss_seen s -> ss_notify s' = sv_next sv ->
  ss_a2aSubs s' `sublist_of` ss_a2aSubs s ->
  (forall x, flag subs' x = flag (sv_subs sv) x \/
    (flag subs' x = Some true /\ In x (ss_a2aSubs s) /\ ~ In x (ss_a2aSubs s'))) ->
  (forall t, sv_tasks sv !! k = Some t -> task_id t = Some id /\ forall i a ch, t <> Poller i a ch) ->
  (k < next')%nat -> (sv_next sv < next')%nat ->
  Inv (mkServer locked (sv_pending sv) (<[id := s']> (sv_states sv)) (sv_store sv) (<[sv_next sv := false]> (sv_notify sv))
    subs' next' (<[k := CloseNotify (ss_notify s)]> (sv_tasks sv))).
Proof.
  intros (HP & HN & HS) Hs H1 H2 H3 H4 H5 H6 Hk Hb Hn. split; [|split]; cbn.
  - apply PI_task; [by eapply PI_put|done].
  - by apply (NI_swap _ _ _ _ HN).
  - apply SI_next with (next := sv_next sv); [|lia]. apply SI_task; [by eapply SI_shrink|done..].
Qed.

(** The evaluation of the exit conditions, by the handler [k]. *)
Lemma eval_section_inv w sv k id records : Inv sv -> sv_tasks sv !! k = Some (PostEval id records) ->
  exists sv' old, eval_section w sv id records = Done sv' old /\ Inv (next_task sv' k (CloseNotify old)) /\
    sv_locked sv' = sv_locked sv.
Proof.
  intros HI Hk. pose proof HI as (HP & HN & HS). destruct (p_tasks _ _ _ _ HP _ _ _ Hk eq_refl) as [s Hs].
  unfold eval_section. rewrite Hs. change (default zero_state (Some s)) with s.
  set (verdict := Evaluate _ _ _ _).
  set (s1 := match verdict with inr (Some _) => _ | _ => s end).
  assert (H1 : (ss_turnCount s1 = ss_turnCount s /\ ss_scratch s1 = ss_scratch s /\ ss_seen s1 = ss_seen s) /\
    ss_notify s1 = ss_notify s /\ ss_a2aSubs s1 = ss_a2aSubs s) by (subst s1; destruct verdict as [|[?|]]; done).
  clearbody s1. destruct H1 as ((Hc & Hm & He) & Hn & Hsub). unfold new_notify.
  set (s2 := s1 <| ss_notify := sv_next sv |>). set (ev := update_event id s2).
  assert (Hopen : forall ch, In ch (ss_a2aSubs s) -> flag (sv_subs sv) ch = Some false) by eauto using s_open.
  pose proof (s_nodup _ _ _ _ HS _ _ Hs) as Hnd. pose proof (n_task_bound _ _ _ _ HN _ _ Hk) as Hb.
  destruct (send_subs_open (sv_subs sv) (ss_a2aSubs s) ev Hopen) as (subs1 & Hsend & Hf1).
  cbv zeta. change (ss_a2aSubs s2) with (ss_a2aSubs s1). rewrite Hsub.
  match goal with |- context [send_subs ?x _ _] => change x with (sv_subs sv) end. rewrite Hsend, Hn.
  assert (Ht : forall t, sv_tasks sv !! k = Some t -> task_id t = Some id /\ forall i a ch, t <> Poller i a ch).
  { intros t. rewrite Hk. by intros [= <-]. }
  destruct (ss_terminal s2).
  - destruct (close_subs_open subs1 (ss_a2aSubs s)) as (subs2 & -> & Hf2); [done|intros; rewrite Hf1; auto|].
    eexists _, _. split; [done|]. split; [|done].
    eapply (Inv_swap _ _ _ _ k subs2 (S (sv_next sv)) _ HI Hs); cbn; try done; [apply sublist_nil_l| |lia..].
    intros x. rewrite Hf2. case_decide as Hx; [|left; apply Hf1]. right. rewrite <-list_elem_of_In. by split_and!; [| |intros []].
  - eexists _, _. split; [done|]. split; [|done].
    eapply (Inv_swap _ _ _ _ k subs1 (S (sv_next sv)) _ HI Hs); cbn; try done; [by rewrite Hsub|by left; apply Hf1|lia..].
Qed.

Lemma cancel_section_inv sv id : Inv sv ->
  exists sv' r, cancel_section sv id = Done sv' r /\ Inv sv' /\ sv_locked sv' = sv_locked sv.
Proof.
  intros HI. pose proof HI as (HP & HN & HS). unfold cancel_section.
  destruct (sv_states sv !! id) as [s|] eqn:Hs; [|by eexists _, _]. destruct (ss_terminal s); [by eexists _, _|].
  unfold new_notify. cbv zeta. set (ev := mkUpdate _ _ _).
  match goal with |- context [send_close_subs ?x ?l _] => change x with (sv_subs sv); change l with (ss_a2aSubs s) end.
  destruct (send_close_subs_open (sv_subs sv) (ss_a2aSubs s) ev) as (subs2 & -> & Hf2); [by eapply s_nodup|eauto using s_open|].
  eexists _, _. split; [done|]. split; [|done].
  eapply (Inv_swap _ _ _ _ (S (sv_next sv)) subs2 (S (S (sv_next sv))) _ HI Hs); cbn; try done; [apply sublist_nil_l| | |lia..].
  - intros x. rewrite Hf2. case_decide as Hx; [|by left]. right. rewrite <-list_elem_of_In. by split_and!; [| |intros []].
  - intros t Ht%(n_task_bound _ _ _ _ HN). lia.
Qed.

Lemma subscribe_section_inv sv id : Inv sv ->
  exists sv' r, subscribe_section sv id = Done sv' r /\ Inv sv' /\ sv_locked sv' = sv_locked sv.
Proof.
  intros HI. pose proof HI as (HP & HN & HS). unfold subscribe_section.
  destruct (sv_states sv !! id) as [s|] eqn:Hs; [|by eexists _, _]. destruct (ss_terminal s); [by eexists _, _|].
  eexists _, _. split; [done|]. split; [|done]. split; [|split]; cbn.
  - apply PI_task; [by eapply PI_put|]. intros i [= <-]. rewrite lookup_insert_eq. by eexists.
  - apply NI_task with (next := S (sv_next sv)); [apply NI_next with (next := sv_next sv)| | | | |]; try done; try lia.
    + by eapply NI_put.
    + intros [ch Hch%(n_task_bound _ _ _ _ HN)]. lia.
    + intros [ch ?]. done.
  - apply SI_next with (next := S (sv_next sv)); [|lia]. eapply (SI_subscribe _ _ _ _ HS id s); [done|done|].
    destruct (sv_tasks sv !! S (sv_next sv)) eqn:E; [|done]. apply (n_task_bound _ _ _ _ HN) in E. lia.
Qed.

Lemma unsubscribe_inv sv k id ch : Inv sv -> sv_tasks sv !! k = Some (Watcher id ch) ->
  Inv (next_task (unsubscribe_section sv id ch) k (WatcherClose ch)).
Proof.
  intros (HP & HN & HS) Hk. destruct (p_tasks _ _ _ _ HP _ _ _ Hk eq_refl) as [s Hs].
  unfold unsubscribe_section. rewrite Hs. change (default zero_state (Some s)) with s. split; [|split]; cbn.
  - apply PI_task; [by eapply PI_put|done].
  - apply NI_task with (next := sv_next sv); [by eapply NI_put|rewrite Hk|..]; try done; [by intros [? ?]..|].
    by eapply n_task_bound.
  - by eapply (SI_unsubscribe _ _ _ _ HS id s).
Qed.

Lemma append_step_inv alive now fault sv k id req resp : Inv sv -> sv_tasks sv !! k = Some (PostAppend id req resp) ->
  Inv (append_step alive now fault sv k id req resp) /\
  sv_locked (append_step alive now fault sv k id req resp) = sv_locked sv.
Proof.
  intros HI Hk. unfold append_step. destruct (Append _ _ _ _ _ _ _) as [st err] eqn:HA. pose proof HI as (HP & HN & HS).
  apply Append_sessions in HA as [Hok Hin]; [|exact (p_ok _ _ _ _ HP)].
  assert (HI' : Inv (sv <| sv_store := st |>)).
  { split; [|done]. eapply PI_store; [done|done|]. intros i. by apply Hin. }
  assert (Hnc : ~ is_close (sv_tasks sv !! k)) by (rewrite Hk; by intros [? ?]).
  destruct err; (split; [|done]); [by apply Inv_end|].
  apply Inv_task; [done|done|by intros [? ?]| |done..|by eexists]. intros i [= <-]. by eapply (p_tasks _ _ _ _ HP).
Qed.

Lemma replay_step_inv alive readable sv k id : Inv sv -> sv_tasks sv !! k = Some (PostReplay id) ->
  Inv (replay_step alive readable sv k id) /\ sv_locked (replay_step alive readable sv k id) = sv_locked sv.
Proof.
  intros HI Hk. unfold replay_step. pose proof HI as (HP & HN & HS).
  assert (Hnc : ~ is_close (sv_tasks sv !! k)) by (rewrite Hk; by intros [? ?]).
  destruct (Replay _ _ _ _); (split; [|done]); [by apply Inv_end|].
  apply Inv_task; [done|done|by intros [? ?]| |done..|by eexists]. intros i [= <-]. by eapply (p_tasks _ _ _ _ HP).
Qed.

Lemma next_inv a1 a2 readable sv id as_ : Inv sv ->
  match handleNextTurn a1 a2 readable sv id as_ with
  | Done sv' _ => Inv sv' /\ sv_locked sv' = sv_locked sv
  | Panics sv' => Inv sv' /\ exists s, sv_states sv !! id = Some s /\ ss_scratch s = None
  end.
Proof.
  intros HI. unfold handleNextTurn. pose proof (next_section_inv a1 a2 readable sv id as_ HI) as H.
  destruct (next_section _ _ _ _ _ _) as [sv' r|sv'].
  - destruct H as (HI' & _ & _ & Hl & Hw). destruct r as [| | | | |ch]; try by split.
    destruct (Hw ch eq_refl) as (s & Hs & Hn). split; [|done].
    apply Inv_spawn; try done; [by intros [? ?]|intros i [= <-]; by eexists|]. intros i a c [= <- _ <-]. by exists s.
  - destruct H as [-> H]. by split.
Qed.

Lemma wake_inv a1 a2 readable sv k id as_ ch : Inv sv -> sv_tasks sv !! k = Some (Poller id as_ ch) ->
  match wake_step a1 a2 readable sv k id as_ with
  | Done sv' _ => Inv sv' /\ sv_locked sv' = sv_locked sv
  | Panics sv' => Inv sv' /\ exists s, sv_states sv !! id = Some s /\ ss_scratch s = None
  end.
Proof.
  intros HI Hk. unfold wake_step. pose proof (next_section_inv a1 a2 readable sv id as_ HI) as H.
  assert (Hnc : ~ is_close (sv_tasks sv !! k)) by (rewrite Hk; by intros [? ?]).
  destruct (next_section _ _ _ _ _ _) as [sv' r|sv'].
  - destruct H as (HI' & Ht & _ & Hl & Hw). rewrite <-Ht in Hnc.
    destruct r as [| | | | |c]; try by (split; [apply Inv_end|]).
    destruct (Hw c eq_refl) as (s & Hs & Hn). split; [|done].
    apply Inv_task; try done; [by intros [? ?]|intros i [= <-]; by eexists| |rewrite Ht; by eexists].
    intros i a c' [= <- _ <-]. by exists s.
  - destruct H as [-> H]. split; [|done]. by apply Inv_end.
Qed.

Lemma watch_step_inv sv k id ch sv' : Inv sv -> sv_tasks sv !! k = Some (Watcher id ch) -> watch_step sv k ch = Some sv' ->
  Inv sv' /\ sv_locked sv' = sv_locked sv.
Proof.
  intros HI Hk H. unfold watch_step in H.
  assert (Hnc : ~ is_close (sv_tasks sv !! k)) by (rewrite Hk; by intros [? ?]).
  destruct (sv_subs sv !! ch) as [c|] eqn:Hc; [|done]. destruct (sb_buf c) as [|ev rest].
  - destruct (sb_closed c); [|done]. injection H as <-. split; [by apply Inv_end|done].
  - injection H as <-. 
    assert (HI' : Inv (sv <| sv_subs := <[ch := c <| sb_buf := rest |>]> (sv_subs sv) |>)).
    { destruct HI as (HP & HN & HS). split; [done|split; [done|]]. eapply SI_flags; [done|]. intros x. cbn.
      rewrite flag_insert. case_decide; [subst|done]. unfold flag. by rewrite Hc. }
    destruct (ev_Final ev); (split; [|done]); [by apply Inv_end|done].
Qed.

(** ** Steps *)

(** Why a step panics. *)
Definition panic_reason (l : Label) (sv : Server) : Prop :=
  match l with
  | LNext _ _ _ id _ => exists s, sv_states sv !! id = Some s /\ ss_scratch s = None
  | LWake k _ _ _ => exists id as_ ch s, sv_tasks sv !! k = Some (Poller id as_ ch) /\ sv_states sv !! id = Some s /\ ss_scratch s = None
  | LWatchClose k => exists ch, sv_tasks sv !! k = Some (WatcherClose ch) /\ flag (sv_subs sv) ch = Some true
  | _ => False
  end.

Definition step_ok (l : Label) (sv : Server) (out : Outcome unit) : Prop :=
  match out with
  | Done sv' _ => Inv sv' /\ sv_locked sv' = sv_locked sv
  | Panics sv' => Inv sv' /\ panic_reason l sv
  end.

(** Of two steps under the lock, what the state says of the first is said of the other. *)
Lemma locked_step {A} l sv (o : Outcome A) out :
  match o with Done sv' _ => Inv sv' /\ sv_locked sv' = sv_locked sv | Panics sv' => Inv sv' /\ panic_reason l sv end ->
  (if sv_locked sv then None else Some (state_of o)) = Some out -> step_ok l sv out.
Proof. intros H. destruct (sv_locked sv) eqn:E; [done|]. intros [= <-]. destruct o; cbn in *; by rewrite ?E. Qed.

Lemma step_inv l sv out : Inv sv -> step l sv = Some out -> step_ok l sv out.
Proof.
  intros HI. destruct l; cbn [step].
  - apply locked_step. by destruct (create_inv alive t1 t2 fault sv p task HI) as (? & ? & -> & ?).
  - apply locked_step. by destruct (send_inv alive t1 t2 fault sv message HI) as (? & ? & -> & ?).
  - apply locked_step. exact (next_inv alive1 alive2 readable sv id as_ HI).
  - apply locked_step. by destruct (post_section_inv fault sv id resp HI) as (? & ? & -> & ?).
  - apply locked_step. by destruct (cancel_section_inv sv id HI) as (? & ? & -> & ?).
  - apply locked_step. by destruct (subscribe_section_inv sv id HI) as (? & ? & -> & ?).
  - destruct (sv_tasks sv !! k) as [[id as_ ch| | | | | |]|] eqn:Hk; try done. destruct (sv_notify sv !! ch) as [[|]|]; try done.
    apply locked_step. pose proof (wake_inv alive1 alive2 readable sv k id as_ ch HI Hk) as H.
    destruct (wake_step _ _ _ _ _ _ _); [done|]. destruct H as [? (s & ? & ?)]. split; [done|]. by exists id, as_, ch, s.
  - destruct (sv_tasks sv !! k) as [[id as_ ch| | | | | |]|] eqn:Hk; try done. intros [= <-].
    split; [|done]. apply Inv_end; [rewrite Hk; by intros [? ?]|done].
  - destruct (sv_tasks sv !! k) as [[|id req resp| | | | |]|] eqn:Hk; try done. intros [= <-]. by apply append_step_inv.
  - destruct (sv_tasks sv !! k) as [[| |id| | | |]|] eqn:Hk; try done. intros [= <-]. by apply replay_step_inv.
  - destruct (sv_tasks sv !! k) as [[| | |id records| | |]|] eqn:Hk; try done. apply locked_step.
    by destruct (eval_section_inv w sv k id records HI Hk) as (? & ? & -> & ?).
  - destruct (sv_tasks sv !! k) as [[| | | |ch| |]|] eqn:Hk; try done. intros [= <-].
    destruct HI as (HP & HN & HS). destruct (NI_close _ _ _ _ HN _ _ Hk) as [Ho HN'].
    unfold close_notify. change (sv_notify (end_task sv k)) with (sv_notify sv). rewrite Ho. split; [|done].
    split; [by apply PI_end|split; [done|by apply SI_end]].
  - destruct (sv_tasks sv !! k) as [[| | | | |id ch|]|] eqn:Hk; try done.
    destruct (watch_step sv k ch) as [sv'|] eqn:Hw; [|done]. intros [= <-]. by eapply watch_step_inv.
  - destruct (sv_tasks sv !! k) as [[| | | | |id ch|]|] eqn:Hk; try done. apply locked_step. split; [|done]. by apply unsubscribe_inv.
  - destruct (sv_tasks sv !! k) as [[| | | | | |ch]|] eqn:Hk; try done. intros [= <-].
    assert (Hnc : ~ is_close (sv_tasks sv !! k)) by (rewrite Hk; by intros [? ?]).
    destruct (s_wclose _ _ _ _ (proj2 (proj2 HI)) _ _ Hk) as [[b Hb] _]. destruct b.
    + assert (close_sub (sv_subs sv) ch = None) as ->.
      { unfold flag in Hb. unfold close_sub. destruct (sv_subs sv !! ch); [|done]. by injection Hb as ->. }
      split; [by apply Inv_end|]. by exists ch.
    + destruct (close_sub_open _ _ Hb) as (subs' & -> & Hf). split; [|done]. destruct HI as (HP & HN & HS).
      split; [by apply PI_end|split; [by apply NI_end|]]. by eapply SI_wclose.
Qed.

Lemma turns_reachable_inv allowed store sv : Store_ok store -> Reachable allowed store sv -> Inv sv.
Proof.
  intros Hok. induction 1 as [|l sv out _ IH _ Hstep]; [by apply Inv_init|].
  apply step_inv in Hstep; [|done]. destruct out; apply Hstep.
Qed.
