(* ===== verification/TurnLoopSpec.v ===== *)
(** * TurnLoopSpec: what the session turn loop promises

    Each session, seen as a turn counter with at most one pending turn, moves as an abstract
    counter does, and its accepted turns are numbered from one without a gap; a poller on an
    outdated channel is woken; and the ways the handlers can panic. *)

From S2P Require Import Prelude GoStrings Json Codec Contract Ledger Stuck Turns SessionStuck Exit SessionStore A2A TurnLoop TurnLoopInv.
From Stdlib Require Import Ascii String.
#[local] Open Scope string_scope.

(** ** A session as a turn counter *)

(** The turns accepted, the turn granted and not yet posted, whether the session ended, and
    whether it has a scratchpad. *)
Record View := mkView { v_turn : Z; v_pending : option Z; v_terminal : bool; v_scratch : bool }.

Definition view_of (s : sessionState) (req : option TurnRequest) : View :=
  mkView (ss_turnCount s) (option_map tq_Turn req) (ss_terminal s) (has (ss_scratch s)).

Definition view (sv : Server) (id : string) : option View :=
  match sv_states sv !! id with Some s => Some (view_of s (sv_pending sv !! id)) | None => None end.

(** What a label may do to a session's counter; only a session created with a preset has a
    scratchpad. *)
Definition creates (l : Label) : option bool :=
  match l with LCreate _ _ _ _ _ _ => Some true | LSend _ _ _ _ _ => Some false | _ => None end.
Definition polls (l : Label) : bool := match l with LNext _ _ _ _ _ | LWake _ _ _ _ => true | _ => false end.
Definition posts (l : Label) : bool := match l with LPost _ _ _ => true | _ => false end.
Definition ends (l : Label) : bool := match l with LCancel _ | LEval _ _ => true | _ => polls l end.

(** The abstract machine.  A turn is granted only before the end and accepted even after it;
    only the turn after the last accepted one is granted. *)
Inductive vstep (l : Label) : option View -> option View -> Prop :=
  | V_stutter v : vstep l v v
  | V_create b : creates l = Some b -> vstep l None (Some (mkView 0 None false b))
  | V_grant n p : polls l = true -> vstep l (Some (mkView n p false true)) (Some (mkView n (Some (n + 1)%Z) false true))
  | V_accept n t : posts l = true -> vstep l (Some (mkView n (Some (n + 1)%Z) t true)) (Some (mkView (n + 1) None t true))
  | V_end n p t b : ends l = true -> vstep l (Some (mkView n p t b)) (Some (mkView n p true b)).

(** One session moves, the others stay. *)
Definition moves (l : Label) (sv sv' : Server) : Prop :=
  exists id, vstep l (view sv id) (view sv' id) /\ forall i, i <> id -> view sv' i = view sv i.

Lemma moves_same l sv sv' : sv_states sv' = sv_states sv -> sv_pending sv' = sv_pending sv -> moves l sv sv'.
Proof. intros H1 H2. exists "". unfold view. rewrite H1, H2. split; [apply V_stutter|done]. Qed.

Lemma view_put sv sv' id s' i : sv_states sv' = <[id := s']> (sv_states sv) -> sv_pending sv' = sv_pending sv -> i <> id ->
  view sv' i = view sv i.
Proof. intros H1 H2 H3. unfold view. by rewrite H1, H2, lookup_insert_ne. Qed.

Lemma moves_put l sv sv' id s s' : sv_states sv !! id = Some s ->
  sv_states sv' = <[id := s']> (sv_states sv) -> sv_pending sv' = sv_pending sv ->
  ss_turnCount s' = ss_turnCount s -> ss_scratch s' = ss_scratch s ->
  ss_terminal s' = ss_terminal s \/ (ends l = true /\ ss_terminal s' = true) -> moves l sv sv'.
Proof.
  intros Hs H1 H2 H3 H4 H5. exists id. split; [|intros i Hi; by eapply view_put].
  unfold view. rewrite Hs, H1, H2, lookup_insert_eq. unfold view_of. rewrite H3, H4.
  destruct H5 as [->|[Hl ->]]; [apply V_stutter|by apply V_end].
Qed.

Lemma moves_new l sv sv' id s : creates l = Some (has (ss_scratch s)) -> sv_states sv !! id = None -> sv_pending sv !! id = None ->
  sv_states sv' = <[id := s]> (sv_states sv) -> sv_pending sv' = sv_pending sv ->
  ss_turnCount s = 0%Z -> ss_terminal s = false -> moves l sv sv'.
Proof.
  intros Hl Hn Hp H1 H2 H3 H4. exists id. split; [|intros i Hi; by eapply view_put].
  unfold view. rewrite Hn, H1, H2, lookup_insert_eq. unfold view_of. rewrite Hp, H3, H4. by apply V_create.
Qed.

Lemma moves_created l alive t1 t2 fault sv name task st' sess p scratch seen : Inv sv -> creates l = Some (has scratch) ->
  Create alive t1 t2 fault (sv_store sv) name task = (st', inr sess) ->
  moves l sv (register_session (sv <| sv_store := st' |>) sess p scratch seen).
Proof.
  intros (HP & HN & HS) Hl HC. pose proof (Create_cases _ _ _ _ _ _ _ _ _ (p_ok _ _ _ _ HP) HC) as (_ & (Hfresh & _) & _).
  assert (Hn : sv_states sv !! se_ID sess = None).
  { destruct (sv_states sv !! se_ID sess) eqn:E; [|done]. apply (p_store _ _ _ _ HP) in E as [? E]. congruence. }
  assert (Hp : sv_pending sv !! se_ID sess = None); [|by eapply moves_new; [|done|done|reflexivity|..]].
  destruct (sv_pending sv !! se_ID sess) eqn:E; [|done]. apply (p_pending _ _ _ _ HP) in E as (_ & ? & E & _). congruence.
Qed.

Lemma moves_next a1 a2 readable sv id as_ l : polls l = true ->
  match next_section a1 a2 readable sv id as_ with Done sv' _ => moves l sv sv' | Panics sv' => sv' = sv <| sv_locked := true |> end.
Proof.
  intros Hl. unfold next_section. destruct (sv_states sv !! id) as [s|] eqn:Hs; [|by apply moves_same].
  destruct (ss_terminal s) eqn:Ht; [by apply moves_same|]. destruct (IsExhausted _).
  { eapply moves_put; try done. right. split; [by destruct l|done]. }
  destruct (Get _ _ _) as [|sess]; [by apply moves_same|]. destruct (Next _ _ _ _) as [|roleID]; [by apply moves_same|].
  destruct (_ || _); [|by apply moves_same]. destruct (ss_scratch s) as [mgr|] eqn:Hm; [|done].
  exists id. split.
  - unfold view, view_of. cbn. rewrite Hs, lookup_insert_eq, Hm, Ht. by apply V_grant.
  - intros i Hi. unfold view. cbn. by rewrite lookup_insert_ne.
Qed.

Lemma moves_post fault sv id resp req s : Inv sv -> sv_pending sv !! id = Some req -> sv_states sv !! id = Some s ->
  exists sv', post_section fault sv id resp = Done sv' (PostAccepted (tq_Turn req)) /\
    tq_Turn req = (ss_turnCount s + 1)%Z /\ view sv id = Some (mkView (ss_turnCount s) (Some (tq_Turn req)) (ss_terminal s) true) /\
    view sv' id = Some (mkView (tq_Turn req) None (ss_terminal s) true) /\ (forall i, i <> id -> view sv' i = view sv i) /\
    sv_tasks sv' !! sv_next sv = Some (PostAppend id req resp) /\ sv_locked sv' = sv_locked sv.
Proof.
  intros (HP & HN & HS) Hp Hs. destruct (p_pending _ _ _ _ HP _ _ Hp) as (Hid & s0 & Hs0 & Ht & Hm).
  assert (s0 = s) as -> by congruence. pose proof (p_both _ _ _ _ HP _ _ Hs) as Hb. rewrite Hm in Hb.
  unfold post_section. rewrite Hp.
  change (sv_states (sv <| sv_pending := delete id (sv_pending sv) |>)) with (sv_states sv). rewrite Hs.
  change (default zero_state (Some s)) with s.
  destruct (ss_scratch s) as [mgr|] eqn:Hmgr; [|done]. destruct (ss_seen s) as [seen|] eqn:Hseen; [|done].
  unfold count_new. destruct (collectNewArtifacts seen _) as [seen' new]. eexists. split; [done|]. split_and!; try done.
  - unfold view, view_of. by rewrite Hs, Hp, Hmgr.
  - unfold view, view_of. cbn. rewrite lookup_insert_eq, lookup_delete_eq. cbn. by rewrite Hmgr, Ht.
  - intros i Hi. unfold view. cbn. by rewrite lookup_insert_ne, lookup_delete_ne.
  - cbn. by rewrite lookup_insert_eq.
Qed.

Lemma moves_eval w sv id s records k : Inv sv -> sv_tasks sv !! k = Some (PostEval id records) -> sv_states sv !! id = Some s ->
  exists sv' old s', eval_section w sv id records = Done sv' old /\ sv_pending sv' = sv_pending sv /\
    sv_states sv' = <[id := s']> (sv_states sv) /\ ss_turnCount s' = ss_turnCount s /\ ss_scratch s' = ss_scratch s /\
    match Evaluate false w (eval_state s records) (default [] (ps_ExitWhen (ss_preset s))) with
    | inr (Some reason) => ss_terminal s' = true /\ ss_terminalReason s' = reason
    | _ => ss_terminal s' = ss_terminal s /\ ss_terminalReason s' = ss_terminalReason s
    end.
Proof.
  intros HI Hk Hs. destruct (eval_section_inv w sv k id records HI Hk) as (sv' & old & E & _ & _). exists sv', old. rewrite E.
  unfold eval_section in E. rewrite Hs in E. change (default zero_state (Some s)) with s in E.
  set (verdict := Evaluate _ _ _ _) in *.
  set (s1 := match verdict with inr (Some _) => _ | _ => s end) in E.
  assert (H1 : (ss_turnCount s1 = ss_turnCount s /\ ss_scratch s1 = ss_scratch s) /\
    match verdict with
    | inr (Some reason) => ss_terminal s1 = true /\ ss_terminalReason s1 = reason
    | _ => ss_terminal s1 = ss_terminal s /\ ss_terminalReason s1 = ss_terminalReason s
    end) by (subst s1; destruct verdict as [|[?|]]; done).
  clearbody s1 verdict. destruct H1 as ((Hc & Hm) & Hv).
  assert (Hv' : forall s2, ss_terminal s2 = ss_terminal s1 -> ss_terminalReason s2 = ss_terminalReason s1 ->
    match verdict with
    | inr (Some reason) => ss_terminal s2 = true /\ ss_terminalReason s2 = reason
    | _ => ss_terminal s2 = ss_terminal s /\ ss_terminalReason s2 = ss_terminalReason s
    end) by (by intros s2 -> ->). clear Hv. unfold new_notify in E. cbv zeta in E.
  unfold panic_locked in E. destruct (send_subs _ _ _) as [subs|]; [|done].
  destruct (ss_terminal _) eqn:Eb.
  - destruct (close_subs _ _) as [subs'|]; [|done]. injection E as <- _. eexists. split; [done|]. split; [done|]. split; [reflexivity|]. exact (conj Hc (conj Hm (Hv' _ Eb eq_refl))).
  - injection E as <- _. eexists. split; [done|]. split; [done|]. split; [reflexivity|]. exact (conj Hc (conj Hm (Hv' _ Eb eq_refl))).
Qed.

(** The handler in flight that a step moves on. *)
Definition label_task (l : Label) : option nat :=
  match l with
  | LWake k _ _ _ | LPollEnd k | LAppend k _ _ _ | LReplay k _ _ | LEval k _ | LClose k | LWatch k | LWatchEnd k | LWatchClose k => Some k
  | _ => None
  end.

Lemma task_moves l sv out : label_task l <> None -> Inv sv -> step l sv = Some out -> moves l sv (after out).
Proof.
  intros Hl HI H. pose proof (step_inv l sv out HI H) as Hok. destruct l; try done; cbn [step] in H; clear Hl.
  - destruct (sv_tasks sv !! k) as [[id as_ ch| | | | | |]|]; try done. destruct (sv_notify sv !! ch) as [[|]|]; try done.
    destruct (sv_locked sv); [done|]. injection H as <-. unfold wake_step.
    pose proof (moves_next alive1 alive2 readable sv id as_ (LWake k alive1 alive2 readable) eq_refl) as Hm.
    destruct (next_section _ _ _ _ _ _) as [sv' r|sv']; [|subst; by apply moves_same]. by destruct r.
  - destruct (sv_tasks sv !! k) as [[id as_ ch| | | | | |]|]; try done. injection H as <-. by apply moves_same.
  - destruct (sv_tasks sv !! k) as [[|id req resp| | | | |]|] eqn:Hk; try done. injection H as <-.
    unfold append_step. destruct (Append _ _ _ _ _ _ _) as [st err]. destruct err; by apply moves_same.
  - destruct (sv_tasks sv !! k) as [[| |id| | | |]|] eqn:Hk; try done. injection H as <-.
    unfold replay_step. destruct (Replay _ _ _ _); by apply moves_same.
  - destruct (sv_tasks sv !! k) as [[| | |id records| | |]|] eqn:Hk; try done. destruct (sv_locked sv); [done|]. injection H as <-.
    destruct (p_tasks _ _ _ _ (proj1 HI) _ _ _ Hk eq_refl) as [s Hs].
    destruct (moves_eval w sv id s records k HI Hk Hs) as (sv' & old & s' & -> & H1 & H2 & H3 & H4 & H5).
    eapply (moves_put _ _ _ id s s'); try done. destruct (Evaluate _ _ _ _) as [|[?|]]; [left|right|left]; tauto.
  - destruct (sv_tasks sv !! k) as [[| | | |ch| |]|] eqn:Hk; try done. injection H as <-. unfold close_notify.
    destruct (_ !! ch) as [[|]|]; by apply moves_same.
  - destruct (sv_tasks sv !! k) as [[| | | | |id ch|]|] eqn:Hk; try done.
    destruct (watch_step sv k ch) as [sv'|] eqn:Hw; [|done]. injection H as <-. unfold watch_step in Hw.
    destruct (sv_subs sv !! ch) as [c|]; [|done]. destruct (sb_buf c) as [|ev rest].
    + destruct (sb_closed c); [|done]. injection Hw as <-. by apply moves_same.
    + injection Hw as <-. destruct (ev_Final ev); by apply moves_same.
  - destruct (sv_tasks sv !! k) as [[| | | | |id ch|]|] eqn:Hk; try done. destruct (sv_locked sv); [done|]. injection H as <-.
    destruct (p_tasks _ _ _ _ (proj1 HI) _ _ _ Hk eq_refl) as [s Hs].
    unfold unsubscribe_section. rewrite Hs. change (default zero_state (Some s)) with s. eapply (moves_put _ _ _ id s); try done. by left.
  - destruct (sv_tasks sv !! k) as [[| | | | | |ch]|] eqn:Hk; try done. injection H as <-.
    destruct (close_sub _ _); by apply moves_same.
Qed.

Lemma step_moves l sv out : Inv sv -> step l sv = Some out -> moves l sv (after out).
Proof.
  intros HI H. pose proof (step_inv l sv out HI H) as Hok. destruct l; try (by eapply task_moves); cbn [step] in H.
  - destruct (sv_locked sv); [done|]. injection H as <-. unfold handleCreateSession in *.
    destruct (Create _ _ _ _ _ _ _) as [st' [err|sess]] eqn:HC; [by apply moves_same|]. cbn. by eapply moves_created.
  - destruct (sv_locked sv); [done|]. injection H as <-. unfold handleA2ASend in *.
    destruct (Create _ _ _ _ _ _ _) as [st' [err|sess]] eqn:HC; [by apply moves_same|]. cbn. by eapply moves_created.
  - destruct (sv_locked sv); [done|]. injection H as <-. unfold handleNextTurn.
    pose proof (moves_next alive1 alive2 readable sv id as_ (LNext alive1 alive2 readable id as_) eq_refl) as Hm.
    destruct (next_section _ _ _ _ _ _) as [sv' r|sv']; [|subst; by apply moves_same]. by destruct r.
  - destruct (sv_locked sv); [done|]. injection H as <-. destruct (sv_pending sv !! id) as [req|] eqn:Hp.
    + destruct (p_pending _ _ _ _ (proj1 HI) _ _ Hp) as (_ & s & Hs & _).
      destruct (moves_post fault sv id resp req s HI Hp Hs) as (sv' & -> & Ht & Hv & Hv' & Hf & _). exists id. cbn. 
      split; [|done]. rewrite Hv, Hv', Ht. by apply V_accept.
    + unfold post_section. rewrite Hp. by apply moves_same.
  - destruct (sv_locked sv); [done|]. injection H as <-. unfold cancel_section in *.
    destruct (sv_states sv !! id) as [s|] eqn:Hs; [|by apply moves_same].
    destruct (ss_terminal s) eqn:Ht; [by apply moves_same|]. unfold new_notify in *.
    cbv zeta in *. destruct (send_close_subs _ _ _); [|by apply moves_same]. eapply moves_put; try done. by right.
  - destruct (sv_locked sv); [done|]. injection H as <-. unfold subscribe_section in *.
    destruct (sv_states sv !! id) as [s|] eqn:Hs; [|by apply moves_same].
    destruct (ss_terminal s) eqn:Ht; [by apply moves_same|]. eapply moves_put; try done. by left.
Qed.

(** ** Theorems *)

(** C6: Refinement.  In every reachable state of the server, every step (a request, or a
    handler in flight that goes on, in any order, with any fault of the file system and any
    cancelled context) moves at most one session, and it moves that session as the abstract
    turn counter does: a session starts at turn 0; a turn is granted only to a session that
    has not ended and has a scratchpad, and is the turn after the last accepted one; only a
    posted turn advances the counter, by one, and clears the pending turn; and a session that
    ended stays ended. *)
Theorem turn_refinement store sv l out : Store_ok store -> Reachable (fun _ => True) store sv -> step l sv = Some out ->
  (exists id, vstep l (view sv id) (view (after out) id) /\ forall i, i <> id -> view (after out) i = view sv i) /\
  forall id, view (NewServer store) id = None.
Proof.
  intros Hok HR Hs. split; [|done]. apply step_moves; [|done]. by eapply turns_reachable_inv.
Qed.

(** The turns a run accepts, as they are answered to the clients. *)
Definition accepted (l : Label) (sv : Server) : list (string * Z) :=
  match l with
  | LPost fault id resp => match post_section fault sv id resp with Done _ (PostAccepted t) => [(id, t)] | _ => [] end
  | _ => []
  end.

Inductive Run (store : Store) : list (string * Z) -> Server -> Prop :=
  | Run_init : Run store [] (NewServer store)
  | Run_step tr l sv out : Run store tr sv -> step l sv = Some out -> Run store (tr ++ accepted l sv)%list (after out).

Definition turns_of (id : string) (tr : list (string * Z)) : list Z :=
  List.map snd (List.filter (fun x => String.eqb (fst x) id) tr).

Lemma run_reachable store tr sv : Run store tr sv -> Reachable (fun _ => True) store sv.
Proof. induction 1; [apply R_init|by eapply R_step]. Qed.

(** The turns accepted of a session by its counter. *)
Definition count_of (sv : Server) (id : string) : Z := match view sv id with Some v => v_turn v | None => 0%Z end.

Lemma turns_of_app id a b : turns_of id (a ++ b) = (turns_of id a ++ turns_of id b)%list.
Proof. unfold turns_of. by rewrite List.filter_app, List.map_app. Qed.

Lemma step_count l sv out id : Inv sv -> step l sv = Some out ->
  (turns_of id (accepted l sv) = [] /\ count_of (after out) id = count_of sv id) \/
  (turns_of id (accepted l sv) = [(count_of sv id + 1)%Z] /\ count_of (after out) id = (count_of sv id + 1)%Z).
Proof.
  intros HI H. destruct (posts l) eqn:Hp.
  - destruct l as [| | |fault i resp| | | | | | | | | | |]; try done. cbn [step accepted] in *.
    destruct (sv_locked sv); [done|]. injection H as <-. destruct (sv_pending sv !! i) as [req|] eqn:Hreq.
    + destruct (p_pending _ _ _ _ (proj1 HI) _ _ Hreq) as (_ & s & Hs & _).
      destruct (moves_post fault sv i resp req s HI Hreq Hs) as (sv' & -> & Ht & Hv & Hv' & Hf & _). unfold turns_of, count_of. cbn.
      destruct (String.eqb_spec i id) as [->|Hne].
      * right. rewrite Hv, Hv'. cbn. by rewrite Ht.
      * left. by rewrite Hf by congruence.
    + left. unfold post_section. by rewrite Hreq.
  - left. split; [by destruct l|]. pose proof (step_moves l sv out HI H) as (i & Hv & Hf). unfold count_of.
    destruct (decide (id = i)) as [->|]; [|by rewrite Hf]. inversion Hv as [|b Hc H1 H2|n p _ H1 H2|n t Ht|n p t b _ H1 H2]; try done.
    congruence.
Qed.

(** C7: The turns of a session are accepted in order and without a gap: in every run, the
    turn numbers the server answered to the posts of a session are 1, 2, ... up to the
    session's turn count, whatever the interleaving of pollers, posts, cancellations and
    faults. *)
Theorem accepted_turns store tr sv id s : Store_ok store -> Run store tr sv -> sv_states sv !! id = Some s ->
  turns_of id tr = seqZ 1 (ss_turnCount s) /\ (0 <= ss_turnCount s)%Z.
Proof.
  intros Hok HR Hs.
  assert (H : forall id, turns_of id tr = seqZ 1 (count_of sv id) /\ (0 <= count_of sv id)%Z).
  { clear id s Hs. induction HR as [|tr l sv out HR IH Hstep]; intros id; [done|].
    pose proof (turns_reachable_inv _ _ _ Hok (run_reachable _ _ _ HR)) as HI. destruct (IH id) as [IH1 IH2].
    rewrite turns_of_app. destruct (step_count l sv out id HI Hstep) as [[-> ->]|[-> ->]]; rewrite IH1.
    - by rewrite app_nil_r.
    - rewrite seqZ_app by lia. split; [|lia]. cbn. by replace (1 + count_of sv id)%Z with (count_of sv id + 1)%Z by lia. }
  specialize (H id). unfold count_of, view in H. by rewrite Hs in H.
Qed.

(** C9: Liveness of the long poll.  In every reachable state, the lock held or free, a
    poller that waits on a channel that is no longer its session's current one has been
    woken or is about to be: its channel is closed already, or the goroutine of a post or of
    a cancellation that is going to close it is in flight, can take that step at once and
    without a panic, and the channel is closed after it.  In both cases the poller's next
    pass of the loop can run as soon as the lock is free. *)
Theorem stale_poller_wakes store sv k id as_ ch s : Store_ok store -> Reachable (fun _ => True) store sv ->
  sv_tasks sv !! k = Some (Poller id as_ ch) -> sv_states sv !! id = Some s -> ss_notify s <> ch ->
  let woken sv' := sv_tasks sv' !! k = Some (Poller id as_ ch) /\ sv_notify sv' !! ch = Some true /\
    (sv_locked sv' = false -> forall a1 a2 readable, is_Some (step (LWake k a1 a2 readable) sv')) in
  woken sv \/
  exists k' sv', step (LClose k') sv = Some (Done sv' tt) /\ sv_locked sv' = sv_locked sv /\ woken sv'.
Proof.
  intros Hok HR Hk Hs Hne woken. pose proof (turns_reachable_inv _ _ _ Hok HR) as (HP & HN & HS).
  destruct (n_poll _ _ _ _ HN _ _ _ _ Hk) as [Hc|[(s' & Hs' & He)|(k' & Hk')]].
  - left. split; [done|]. split; [done|]. intros Hl a1 a2 r. cbn. rewrite Hk, Hc, Hl. by eexists.
  - congruence.
  - right. destruct (NI_close _ _ _ _ HN _ _ Hk') as [Ho _]. exists k'. eexists. cbn [step]. rewrite Hk'. unfold close_notify.
    change (sv_notify (end_task sv k')) with (sv_notify sv). rewrite Ho. split; [done|]. split; [done|].
    assert (Hk2 : delete k' (sv_tasks sv) !! k = Some (Poller id as_ ch)) by (by rewrite lookup_delete_ne by congruence).
    split; [done|]. split; [apply lookup_insert_eq|]. intros Hl a1 a2 r. cbn in *. rewrite Hk2, lookup_insert_eq, Hl. by eexists.
Qed.

(** ** Panics *)

(** C8: In every reachable state a step can panic in two ways only: a request for the next
    turn of a session without a scratchpad, and a subscriber that closes a channel that was
    closed when its task ended.  A post, an evaluation, a cancellation and a subscription
    never do: no notification channel is closed twice, and no event is sent on a closed
    channel. *)
Theorem panic_sources store sv l sv' : Store_ok store -> Reachable (fun _ => True) store sv ->
  step l sv = Some (Panics sv') ->
  match l with
  | LNext _ _ _ id _ => exists s, sv_states sv !! id = Some s /\ ss_scratch s = None
  | LWake k _ _ _ =>
      exists id as_ ch s, sv_tasks sv !! k = Some (Poller id as_ ch) /\ sv_states sv !! id = Some s /\ ss_scratch s = None
  | LWatchClose k => exists ch, sv_tasks sv !! k = Some (WatcherClose ch) /\ flag (sv_subs sv) ch = Some true
  | _ => False
  end.
Proof. intros Hok HR H. apply step_inv in H; [|by eapply turns_reachable_inv]. exact (proj2 H). Qed.

Definition is_send (l : Label) : Prop := match l with LSend _ _ _ _ _ => True | _ => False end.

Lemma no_send_scratch store sv : Store_ok store -> Reachable (fun l => ~ is_send l) store sv ->
  forall id v, view sv id = Some v -> v_scratch v = true.
Proof.
  intros Hok HR. induction HR as [|l sv out HR IH Hl Hstep]; [done|]. intros id v Hv.
  apply step_moves in Hstep as (i & Hm & Hf);
    [|by eapply turns_reachable_inv].
  destruct (decide (id = i)) as [->|]; [|rewrite Hf in Hv by done; by eapply IH].
  rewrite Hv in Hm. inversion Hm as [v0 H1 H2|b Hc H1 H2|n p Hp H1 H2|n t Ht H1 H2|n p t b He H1 H2]; try done.
  - by eapply IH.
  - destruct l; try done; by injection Hc as <-.
  - subst. by apply (IH i (mkView n p t b)).
Qed.

(** A server to which no A2A task is sent never loses its mutex: in every state it
    reaches the lock is free between the locked parts. *)
Theorem lock_kept_without_a2a store sv : Store_ok store -> Reachable (fun l => ~ is_send l) store sv -> sv_locked sv = false.
Proof.
  intros Hok HR. induction HR as [|l sv out HR IH Hl Hstep]; [done|].
  pose proof (turns_reachable_inv _ _ _ Hok HR) as HI.
  pose proof (step_inv l sv out HI Hstep) as Hok'. destruct out as [sv' []|sv']; cbn in *; [by destruct Hok' as [_ ->]|].
  assert (Hn : forall i s, sv_states sv !! i = Some s -> ss_scratch s <> None).
  { intros i s Hs He. pose proof (no_send_scratch store sv Hok HR i (view_of s (sv_pending sv !! i))) as Hv.
    unfold view, view_of in Hv. rewrite Hs, He in Hv. by discriminate (Hv eq_refl). }
  destruct Hok' as [_ Hr]. destruct l; try done.
  - destruct Hr as (s & Hs & He). by apply Hn in Hs.
  - destruct Hr as (i & a & c & s & _ & Hs & He). by apply Hn in Hs.
  - destruct Hr as (ch & Hk & Hf). cbn in Hstep. rewrite Hk in Hstep. destruct (close_sub _ _); [done|].
    by injection Hstep as <-.
Qed.

(** What the server may become, whatever happens. *)
Inductive Later : Server -> Server -> Prop :=
  | L_refl sv : Later sv sv
  | L_step l sv out sv' : step l sv = Some out -> Later (after out) sv' -> Later sv sv'.

Definition is_request (l : Label) : bool :=
  match l with
  | LCreate _ _ _ _ _ _ | LSend _ _ _ _ _ | LNext _ _ _ _ _ | LPost _ _ _ | LCancel _ | LSubscribe _ => true
  | _ => false
  end.

Lemma locked_step_stays l sv out : sv_locked sv = true -> step l sv = Some out -> sv_locked (after out) = true.
Proof.
  intros Hl. destruct l; cbn [step]; rewrite ?Hl; try done.
  - destruct (sv_tasks sv !! k) as [[id as_ ch| | | | | |]|]; try done. by destruct (sv_notify sv !! ch) as [[|]|].
  - destruct (sv_tasks sv !! k) as [[id as_ ch| | | | | |]|]; try done. by intros [= <-].
  - destruct (sv_tasks sv !! k) as [[|id req resp| | | | |]|]; try done. intros [= <-]. unfold append_step.
    destruct (Append _ _ _ _ _ _ _) as [st [|]]; done.
  - destruct (sv_tasks sv !! k) as [[| |id| | | |]|]; try done. intros [= <-]. unfold replay_step. by destruct (Replay _ _ _ _).
  - by destruct (sv_tasks sv !! k) as [[| | |id records| | |]|].
  - destruct (sv_tasks sv !! k) as [[| | | |ch| |]|]; try done. intros [= <-]. unfold close_notify.
    by destruct (_ !! ch) as [[|]|].
  - destruct (sv_tasks sv !! k) as [[| | | | |id ch|]|]; try done. unfold watch_step.
    destruct (sv_subs sv !! ch) as [c|]; [|done]. destruct (sb_buf c) as [|ev rest].
    + destruct (sb_closed c); [|done]. by intros [= <-].
    + intros [= <-]. by destruct (ev_Final ev).
  - by destruct (sv_tasks sv !! k) as [[| | | | |id ch|]|].
  - destruct (sv_tasks sv !! k) as [[| | | | | |ch]|]; try done. intros [= <-]. by destruct (close_sub _ _).
Qed.

Lemma locked_later sv sv' : Later sv sv' -> sv_locked sv = true ->
  sv_locked sv' = true /\ forall l, is_request l = true -> step l sv' = None.
Proof.
  induction 1 as [sv|l sv out sv' Hs HL IH]; intros Hl.
  - split; [done|]. intros l Hr. by destruct l; cbn [step]; rewrite ?Hl.
  - apply IH. by eapply locked_step_stays.
Qed.

(** A poll of a session that would be granted but has no scratchpad. *)
Lemma poll_panics readable sv id as_ s sess role : sv_locked sv = false -> sv_states sv !! id = Some s ->
  ss_terminal s = false -> IsExhausted (Remaining (ps_Budget (ss_preset s)) (ss_totalUsage s) (ss_turnCount s)) = false ->
  Get true (sv_store sv) id = inr sess -> Next true (ss_preset s) (ss_lastResp s) (ss_turnCount s + 1) = inr role ->
  as_ = "" \/ as_ = role -> ss_scratch s = None ->
  step (LNext true true readable id as_) sv = Some (Panics (sv <| sv_locked := true |>)).
Proof.
  intros Hl Hs Ht He Hg Hn Has Hm. cbn [step]. rewrite Hl. unfold handleNextTurn, next_section.
  rewrite Hs, Ht, He, Hg, Hn. assert (String.eqb as_ "" || String.eqb as_ role = true) as ->.
  { destruct Has as [->| ->]; [done|]. by rewrite String.eqb_refl, orb_true_r. }
  by rewrite Hm.
Qed.

(** A task sent over A2A wedges the whole server as soon as a worker polls for its
    turn: the session is registered without a scratchpad, the handler panics on the nil
    pointer while it holds the mutex, and from then on, whatever else happens, no request
    of any session is ever served again. *)
Theorem a2a_poll_wedges store sv alive t1 t2 fault message sv1 sess readable as_ :
  Store_ok store -> Reachable (fun _ => True) store sv -> sv_locked sv = false ->
  handleA2ASend alive t1 t2 fault sv message = Done sv1 (inr sess) -> as_ = "" \/ as_ = "ralph" ->
  step (LSend alive t1 t2 fault message) sv = Some (Done sv1 tt) /\
  exists sv2, step (LNext true true readable (se_ID sess) as_) sv1 = Some (Panics sv2) /\
    forall sv3, Later sv2 sv3 -> sv_locked sv3 = true /\ forall l, is_request l = true -> step l sv3 = None.
Proof.
  intros Hok HR Hl HS Has. split; [cbn [step]; by rewrite Hl, HS|].
  pose proof (turns_reachable_inv _ _ _ Hok HR) as (HP & _). unfold handleA2ASend in HS.
  destruct (Create _ _ _ _ _ _ _) as [st' r] eqn:HC. destruct r as [|sess']; [done|]. injection HS as <- <-.
  pose proof (Create_cases _ _ _ _ _ _ _ _ _ (p_ok _ _ _ _ HP) HC) as (_ & (_ & Hv & Hs & _) & _).
  exists ((register_session (sv <| sv_store := st' |>) sess' solo_ralph None None) <| sv_locked := true |>).
  split; [|intros sv3 HL; by apply (locked_later _ _ HL)].
  apply (poll_panics _ _ _ _ (mkState 0 Usage_zero None None solo_ralph None (se_CreatedAt sess') false "" 0 None (sv_next sv) [])
    sess' "ralph"); try done.
  - cbn. by rewrite lookup_insert_eq.
  - unfold Get. cbn [negb]. rewrite Hv. cbn. by rewrite Hs, lookup_insert_eq.
Qed.

(** A subscriber whose client leaves just after its task was canceled closes its channel
    a second time and panics: in every reachable state in which a session that has not ended
    has the subscriber [ch], read by [k], the cancellation, the end of the reader's context
    and the reader's [close] can follow each other, and the last one panics. *)
Theorem subscriber_double_close store sv id s k ch : Store_ok store -> Reachable (fun _ => True) store sv ->
  sv_locked sv = false -> sv_states sv !! id = Some s -> ss_terminal s = false -> In ch (ss_a2aSubs s) ->
  sv_tasks sv !! k = Some (Watcher id ch) ->
  exists sv1 sv2 sv3, step (LCancel id) sv = Some (Done sv1 tt) /\ step (LWatchEnd k) sv1 = Some (Done sv2 tt) /\
    step (LWatchClose k) sv2 = Some (Panics sv3).
Proof.
  intros Hok HR Hl Hs Ht Hin Hk. pose proof (turns_reachable_inv _ _ _ Hok HR) as (HP & HN & HS). cbn [step]. rewrite Hl.
  unfold cancel_section. rewrite Hs, Ht. unfold new_notify. cbv zeta. set (ev := mkUpdate _ _ _).
  match goal with |- context [send_close_subs ?x ?l _] => change x with (sv_subs sv); change l with (ss_a2aSubs s) end.
  destruct (send_close_subs_open (sv_subs sv) (ss_a2aSubs s) ev) as (subs2 & -> & Hf2); [by eapply s_nodup|eauto using s_open|].
  pose proof (n_task_bound _ _ _ _ HN _ _ Hk) as Hb.
  eexists _, _, _. split; [done|]. split.
  - cbn. rewrite lookup_insert_ne by lia. rewrite Hk. by rewrite Hl.
  - cbn. rewrite lookup_insert_eq. pose proof (Hf2 ch) as Hf. rewrite decide_True in Hf by by apply list_elem_of_In.
    unfold close_sub. cbn. unfold flag in Hf. destruct (subs2 !! ch) as [c|]; [|done]. injection Hf as ->. done.
Qed.

Lemma cancel_view sv id s : Inv sv -> sv_states sv !! id = Some s -> ss_terminal s = false -> sv_locked sv = false ->
  exists sv1 s1, step (LCancel id) sv = Some (Done sv1 tt) /\ Inv sv1 /\ sv_locked sv1 = false /\
    sv_pending sv1 = sv_pending sv /\ sv_states sv1 !! id = Some s1 /\
    ss_turnCount s1 = ss_turnCount s /\ ss_terminal s1 = true /\ ss_scratch s1 = ss_scratch s.
Proof.
  intros HI Hs Ht Hl. cbn [step]. rewrite Hl. destruct (cancel_section_inv sv id HI) as (sv1 & r & E & HI1 & Hl1). rewrite E.
  unfold cancel_section, new_notify, panic_locked in E. rewrite Hs, Ht in E. cbv zeta in E.
  destruct (send_close_subs _ _ _); [|done]. injection E as <- _. rewrite Hl in Hl1.
  eexists _, _. split; [done|]. split; [done|]. split; [done|]. split; [done|]. cbn. by rewrite lookup_insert_eq.
Qed.

(** Cancellation does not stop a turn that is already granted: in every reachable state
    with a pending turn, after the cancellation the turn is still accepted and counted. *)
Theorem canceled_turn_accepted store sv id req s fault resp : Store_ok store -> Reachable (fun _ => True) store sv ->
  sv_locked sv = false -> sv_pending sv !! id = Some req -> sv_states sv !! id = Some s -> ss_terminal s = false ->
  exists sv1 sv2, step (LCancel id) sv = Some (Done sv1 tt) /\ step (LPost fault id resp) sv1 = Some (Done sv2 tt) /\
    view sv1 id = Some (mkView (ss_turnCount s) (Some (tq_Turn req)) true true) /\
    view sv2 id = Some (mkView (tq_Turn req) None true true).
Proof.
  intros Hok HR Hl Hp Hs Ht. pose proof (turns_reachable_inv _ _ _ Hok HR) as HI.
  destruct (cancel_view sv id s HI Hs Ht Hl) as (sv1 & s1 & H1 & HI1 & Hl1 & Hp1 & Hs1 & Hc & Ht1 & Hm).
  rewrite <-Hp1 in Hp. destruct (moves_post fault sv1 id resp req s1 HI1 Hp Hs1) as (sv2 & H2 & _ & Hv1 & Hv2 & _).
  exists sv1, sv2. split; [done|]. rewrite Ht1 in *. rewrite Hc in Hv1. split; [|done]. cbn [step]. by rewrite Hl1, H2.
Qed.

(** The evaluation that follows a turn replaces the reason with which the session ended:
    in every reachable state in which a canceled session has a turn to evaluate, an exit
    condition that holds turns the task from canceled to completed. *)
Theorem verdict_replaces_cancel store sv id s k records w reason : Store_ok store -> Reachable (fun _ => True) store sv ->
  sv_locked sv = false -> sv_states sv !! id = Some s -> ss_terminal s = true -> ss_terminalReason s = "canceled" ->
  sv_tasks sv !! k = Some (PostEval id records) -> reason <> "canceled" ->
  Evaluate false w (eval_state s records) (default [] (ps_ExitWhen (ss_preset s))) = inr (Some reason) ->
  terminalReasonToTaskState (ss_terminal s) (ss_terminalReason s) = TaskStateCanceled /\
  exists sv' s', step (LEval k w) sv = Some (Done sv' tt) /\ sv_states sv' !! id = Some s' /\
    terminalReasonToTaskState (ss_terminal s') (ss_terminalReason s') = TaskStateCompleted.
Proof.
  intros Hok HR Hl Hs Ht Hr Hk Hne He. split; [by rewrite Ht, Hr|]. pose proof (turns_reachable_inv _ _ _ Hok HR) as HI.
  destruct (moves_eval w sv id s records k HI Hk Hs) as (sv' & old & s' & H1 & _ & H2 & _ & _ & H3). rewrite He in H3.
  destruct H3 as [H3 H4]. exists (next_task sv' k (CloseNotify old)), s'. cbn [step]. rewrite Hk, Hl, H1. split; [done|].
  split; [cbn; by rewrite H2, lookup_insert_eq|]. unfold terminalReasonToTaskState. rewrite H3, H4. cbn.
  by destruct (String.eqb_spec reason "canceled").
Qed.

(** ** Concrete runs *)

Fixpoint exec (ls : list Label) (sv : Server) : option Server :=
  match ls with
  | [] => Some sv
  | l :: ls => match step l sv with Some out => exec ls (after out) | None => None end
  end.

Lemma exec_reachable allowed store ls sv sv' : Reachable allowed store sv -> Forall allowed ls -> exec ls sv = Some sv' ->
  Reachable allowed store sv'.
Proof.
  intros HR Hall. revert sv HR. induction Hall as [|l ls Hl _ IH]; intros sv HR; cbn [exec]; [by intros [= <-]|].
  destruct (step l sv) as [out|] eqn:E; [|done]. apply IH. by eapply R_step.
Qed.

(** Two roles; the session ends when the reviewer approves. *)
Definition pair_preset : Preset :=
  mkPreset "pair" "" [mkRole "driver" "claude" "sonnet"; mkRole "reviewer" "codex" "o3"] "round_robin" (mkBudget 1000 10 0 0)
    (Some [ExitReviewerApproved]) (mkScratchConfig 64 "").
Definition create_label : Label := LCreate true noon noon CreateOk pair_preset Task_zero.
Definition send_label : Label := LSend true noon noon CreateOk "hello".
Definition poll_driver : Label := LNext true true true one_id "driver".
Definition approval : TurnResponse := quiet_response <| r_SelfEval := SelfEvalConfident |> <| r_Done := true |>.

Definition start : Server := NewServer empty_store.
Definition state_after (ls : list Label) : Server := default start (exec ls start).

Lemma state_after_reachable ls : Reachable (fun _ => True) empty_store (state_after ls).
Proof.
  unfold state_after. destruct (exec ls start) as [sv|] eqn:E; [|apply R_init].
  eapply exec_reachable; [apply R_init| |exact E]. by apply Forall_true.
Qed.

Definition session_of (sv : Server) (id : string) : sessionState := default zero_state (sv_states sv !! id).

Lemma session_of_lookup sv id : has (sv_states sv !! id) = true -> sv_states sv !! id = Some (session_of sv id).
Proof. unfold session_of. by destruct (sv_states sv !! id). Qed.

(** The server after a step that must not panic. *)
Definition stepped (l : Label) (sv : Server) : Server := match step l sv with Some (Done sv' _) => sv' | _ => sv end.
Definition is_done (l : Label) (sv : Server) : bool := match step l sv with Some (Done _ _) => true | _ => false end.

Lemma is_done_step l sv : is_done l sv = true -> step l sv = Some (Done (stepped l sv) tt).
Proof. unfold is_done, stepped. destruct (step l sv) as [[sv' []|]|]; done. Qed.

Lemma turn_refinement_witness :
  view (state_after [create_label]) one_id = Some (mkView 0 None false true) /\
  view (stepped poll_driver (state_after [create_label])) one_id = Some (mkView 0 (Some 1%Z) false true) /\
  exists id, vstep poll_driver (view (state_after [create_label]) id) (view (stepped poll_driver (state_after [create_label])) id).
Proof.
  split; [vm_compute; reflexivity|]. split; [vm_compute; reflexivity|].
  assert (H : is_done poll_driver (state_after [create_label]) = true) by (vm_compute; reflexivity).
  destruct (turn_refinement empty_store _ _ _ empty_store_ok (state_after_reachable [create_label]) (is_done_step _ _ H))
    as [(id & Hv & _) _].
  exists id. exact Hv.
Defined.

Fixpoint trace (ls : list Label) (sv : Server) : list (string * Z) :=
  match ls with
  | [] => []
  | l :: ls => (accepted l sv ++ match step l sv with Some out => trace ls (after out) | None => [] end)%list
  end.

Lemma exec_run store ls tr sv sv' : Run store tr sv -> exec ls sv = Some sv' -> Run store (tr ++ trace ls sv)%list sv'.
Proof.
  revert tr sv. induction ls as [|l ls IH]; intros tr sv HR; cbn [exec trace]; [intros [= <-]; by rewrite app_nil_r|].
  destruct (step l sv) as [out|] eqn:E; [|done]. intros H. rewrite app_assoc. apply IH; [by apply Run_step|done].
Qed.

(** A driver's turn and a reviewer's, each up to its evaluation. *)
Definition poll_reviewer : Label := LNext true true true one_id "reviewer".
Definition turn_labels (poll : Label) (resp : TurnResponse) (k : nat) : list Label :=
  [poll; LPost ScratchOk one_id resp; LAppend k true noon LogOk; LReplay k true true; LEval k (live_world 0); LClose k].
Definition two_turns : list Label :=
  (create_label :: turn_labels poll_driver quiet_response 1 ++ turn_labels poll_reviewer approval 3)%list.

Lemma accepted_turns_witness :
  trace two_turns start = [(one_id, 1%Z); (one_id, 2%Z)] /\
  ss_turnCount (session_of (state_after two_turns) one_id) = 2%Z /\
  ss_terminalReason (session_of (state_after two_turns) one_id) = "reviewer approved" /\
  turns_of one_id (trace two_turns start) = seqZ 1 (ss_turnCount (session_of (state_after two_turns) one_id)).
Proof.
  split; [vm_compute; reflexivity|]. split; [vm_compute; reflexivity|]. split; [vm_compute; reflexivity|].
  assert (HR : Run empty_store (trace two_turns start) (state_after two_turns)).
  { apply (exec_run empty_store two_turns [] start); [apply Run_init|].
    unfold state_after. destruct (exec two_turns start) as [sv|] eqn:E; [reflexivity|].
    assert (H : has (exec two_turns start) = true) by (vm_compute; reflexivity). by rewrite E in H. }
  assert (Hs : has (sv_states (state_after two_turns) !! one_id) = true) by (vm_compute; reflexivity).
  exact (proj1 (accepted_turns empty_store _ _ one_id _ empty_store_ok HR (session_of_lookup _ _ Hs))).
Defined.

(** A reviewer polls before the driver's turn is posted. *)
Definition waiting_reviewer : list Label :=
  [create_label; poll_reviewer; poll_driver; LPost ScratchOk one_id quiet_response; LAppend 2 true noon LogOk;
   LReplay 2 true true; LEval 2 (live_world 0)].

Lemma stale_poller_wakes_witness :
  let sv := state_after waiting_reviewer in
  let woken sv' := sv_tasks sv' !! 1%nat = Some (Poller one_id "reviewer" 0) /\ sv_notify sv' !! 0%nat = Some true /\
    (sv_locked sv' = false -> forall a1 a2 readable, is_Some (step (LWake 1 a1 a2 readable) sv')) in
  woken sv \/ exists k' sv', step (LClose k') sv = Some (Done sv' tt) /\ sv_locked sv' = sv_locked sv /\ woken sv'.
Proof.
  assert (Hs : has (sv_states (state_after waiting_reviewer) !! one_id) = true) by (vm_compute; reflexivity).
  assert (Hk : sv_tasks (state_after waiting_reviewer) !! 1%nat = Some (Poller one_id "reviewer" 0)) by (vm_compute; reflexivity).
  assert (Hn : ss_notify (session_of (state_after waiting_reviewer) one_id) = 3%nat) by (vm_compute; reflexivity).
  apply (stale_poller_wakes empty_store _ 1 one_id "reviewer" 0 _ empty_store_ok (state_after_reachable _) Hk
    (session_of_lookup _ _ Hs)). by rewrite Hn.
Defined.

Definition panicked (l : Label) (sv : Server) : Server := match step l sv with Some (Panics sv') => sv' | _ => sv end.
Definition is_panic (l : Label) (sv : Server) : bool := match step l sv with Some (Panics _) => true | _ => false end.

Lemma is_panic_step l sv : is_panic l sv = true -> step l sv = Some (Panics (panicked l sv)).
Proof. unfold is_panic, panicked. destruct (step l sv) as [[sv' []|]|]; done. Qed.

Lemma panic_sources_witness :
  is_panic poll_driver (state_after [send_label]) = false /\
  is_panic (LNext true true true one_id "ralph") (state_after [send_label]) = true /\
  exists s, sv_states (state_after [send_label]) !! one_id = Some s /\ ss_scratch s = None.
Proof.
  split; [vm_compute; reflexivity|]. split; [vm_compute; reflexivity|].
  assert (H : is_panic (LNext true true true one_id "ralph") (state_after [send_label]) = true) by (vm_compute; reflexivity).
  exact (panic_sources empty_store _ _ _ empty_store_ok (state_after_reachable [send_label]) (is_panic_step _ _ H)).
Defined.

Lemma lock_kept_without_a2a_witness : sv_locked (state_after two_turns) = false.
Proof.
  apply (lock_kept_without_a2a empty_store); [exact empty_store_ok|]. unfold state_after.
  destruct (exec two_turns start) as [sv|] eqn:E; [|apply R_init].
  eapply exec_reachable; [apply R_init| |exact E]. unfold two_turns. repeat constructor; intros [].
Defined.

Definition sent_session : Session := mkSession one_id "solo-ralph" "active" noon 0 (mkTask "A2A task" "hello" "").

Lemma a2a_poll_wedges_witness :
  step send_label start = Some (Done (stepped send_label start) tt) /\
  exists sv2, step (LNext true true true one_id "ralph") (stepped send_label start) = Some (Panics sv2) /\
    forall sv3, Later sv2 sv3 -> sv_locked sv3 = true /\ forall l, is_request l = true -> step l sv3 = None.
Proof.
  assert (H : handleA2ASend true noon noon CreateOk start "hello" = Done (stepped send_label start) (inr sent_session))
    by (vm_compute; reflexivity).
  exact (a2a_poll_wedges empty_store start true noon noon CreateOk "hello" _ sent_session true "ralph"
    empty_store_ok (R_init _ _) eq_refl H (or_intror eq_refl)).
Defined.

Lemma subscriber_double_close_witness :
  exists sv1 sv2 sv3, step (LCancel one_id) (state_after [create_label; LSubscribe one_id]) = Some (Done sv1 tt) /\
    step (LWatchEnd 2) sv1 = Some (Done sv2 tt) /\ step (LWatchClose 2) sv2 = Some (Panics sv3).
Proof.
  assert (Hs : has (sv_states (state_after [create_label; LSubscribe one_id]) !! one_id) = true) by (vm_compute; reflexivity).
  assert (Hc : ss_a2aSubs (session_of (state_after [create_label; LSubscribe one_id]) one_id) = [1%nat]) by (vm_compute; reflexivity).
  refine (subscriber_double_close empty_store _ one_id _ 2 1 empty_store_ok (state_after_reachable _)
    _ (session_of_lookup _ _ Hs) _ _ _); [vm_compute; reflexivity..|rewrite Hc; by left|vm_compute; reflexivity].
Defined.

Lemma canceled_turn_accepted_witness :
  exists sv1 sv2, step (LCancel one_id) (state_after [create_label; poll_driver]) = Some (Done sv1 tt) /\
    step (LPost ScratchOk one_id quiet_response) sv1 = Some (Done sv2 tt) /\
    view sv2 one_id = Some (mkView 1 None true true).
Proof.
  assert (Hs : has (sv_states (state_after [create_label; poll_driver]) !! one_id) = true) by (vm_compute; reflexivity).
  destruct (sv_pending (state_after [create_label; poll_driver]) !! one_id) as [req|] eqn:Hp.
  - assert (Ht : option_map tq_Turn (sv_pending (state_after [create_label; poll_driver]) !! one_id) = Some 1%Z) by (vm_compute; reflexivity).
    assert (Hl : sv_locked (state_after [create_label; poll_driver]) = false) by (vm_compute; reflexivity).
    assert (He : ss_terminal (session_of (state_after [create_label; poll_driver]) one_id) = false) by (vm_compute; reflexivity).
    rewrite Hp in Ht. injection Ht as Ht.
    destruct (canceled_turn_accepted empty_store _ one_id req _ ScratchOk quiet_response empty_store_ok (state_after_reachable _)
      Hl Hp (session_of_lookup _ _ Hs) He) as (sv1 & sv2 & H1 & H2 & _ & H4).
    rewrite Ht in H4. exists sv1, sv2. exact (conj H1 (conj H2 H4)).
  - assert (H : has (sv_pending (state_after [create_label; poll_driver]) !! one_id) = true) by (vm_compute; reflexivity).
    by rewrite Hp in H.
Defined.

(** The reviewer's approval is canceled before it is evaluated. *)
Definition canceled_approval : list Label :=
  [create_label; poll_driver; LPost ScratchOk one_id approval; LAppend 1 true noon LogOk; LReplay 1 true true; LCancel one_id].
Definition records_of (sv : Server) (k : nat) : list TurnRecord :=
  match sv_tasks sv !! k with Some (PostEval _ records) => records | _ => [] end.

Lemma verdict_replaces_cancel_witness :
  exists sv' s', step (LEval 1 (live_world 0)) (state_after canceled_approval) = Some (Done sv' tt) /\
    sv_states sv' !! one_id = Some s' /\
    terminalReasonToTaskState (ss_terminal s') (ss_terminalReason s') = TaskStateCompleted.
Proof.
  assert (Hs : has (sv_states (state_after canceled_approval) !! one_id) = true) by (vm_compute; reflexivity).
  assert (Hk : sv_tasks (state_after canceled_approval) !! 1%nat = Some (PostEval one_id (records_of (state_after canceled_approval) 1)))
    by (vm_compute; reflexivity).
  assert (Hne : "reviewer approved" <> "canceled") by discriminate.
  refine (proj2 (verdict_replaces_cancel empty_store _ one_id _ 1 _ (live_world 0) "reviewer approved" empty_store_ok
    (state_after_reachable _) _ (session_of_lookup _ _ Hs) _ _ Hk Hne _)); vm_compute; reflexivity.
Defined.
