(* ===== verification/A2AWire.v ===== *)
(** * A2A over HTTP

    [internal/broker/a2a.go]: the handler of [POST /a2a] from the bytes of a request to the bytes of
    its answer, around the decoding of [A2A.v] and the operations of [TurnLoop.v]: the JSON-RPC
    envelope, the results, the errors with their codes and messages, and the events that a
    subscriber is sent.

    The theorems: a request is at most one step of the turn loop, the one that its decoding names; a
    client that reads an answer or a stream finds the task and the events that were written. *)

From S2P Require Import Prelude GoStrings Json Codec AnyValue Lines Utf8 Contract Turns SessionStore Exit A2A TurnLoop TurnLoopInv.
From Stdlib Require Import Ascii String.
#[local] Open Scope string_scope.

(** ** Tasks and events *)

Definition enc_state (s : TaskState) : option json := Some (JStr (task_state_string s)).
(** The reading side, for what the code writes. *)
Definition all_states : list TaskState :=
  [TaskStateSubmitted; TaskStateWorking; TaskStateInputRequired; TaskStateCompleted; TaskStateFailed; TaskStateCanceled; TaskStateRejected].
Definition into_state : Into TaskState := fun j _ =>
  match j with JStr t => List.find (fun s => String.eqb (task_state_string s) t) all_states | _ => None end.

#[export] Instance eta_A2ATaskStatus : Eta A2ATaskStatus := fun r => mkStatus (as_State r) (as_Reason r).
#[export] Instance eta_A2ATask : Eta A2ATask := fun r => mkA2ATask (at_ID r) (at_SessionID r) (at_Status r).
#[export] Instance eta_A2ATaskUpdateEvent : Eta A2ATaskUpdateEvent := fun r => mkUpdate (ev_ID r) (ev_Status r) (ev_Final r).

(* src: pkg/contract/a2a.go 149-153 A2ATaskStatus *)
Definition A2ATaskStatus_fields : list (Field A2ATaskStatus) :=
  [ Tag "state" as_State enc_state into_state; Tag "reason" as_Reason opt_string into_string ].
Definition A2ATaskStatus_zero : A2ATaskStatus := mkStatus TaskStateSubmitted "".
(* src: pkg/contract/a2a.go 140-147 A2ATask *)
Definition A2ATask_fields : list (Field A2ATask) :=
  [ Tag "id" at_ID enc_string into_string;
    Tag "sessionId" at_SessionID enc_string into_string;
    Tag "status" at_Status (enc_struct A2ATaskStatus_fields) (into_struct A2ATaskStatus_fields) ].
Definition A2ATask_zero : A2ATask := mkA2ATask "" "" A2ATaskStatus_zero.
(* src: pkg/contract/a2a.go 155-161 A2ATaskUpdateEvent *)
Definition A2ATaskUpdateEvent_fields : list (Field A2ATaskUpdateEvent) :=
  [ Tag "id" ev_ID enc_string into_string;
    Tag "status" ev_Status (enc_struct A2ATaskStatus_fields) (into_struct A2ATaskStatus_fields);
    Tag "final" ev_Final opt_bool into_bool ].
Definition A2ATaskUpdateEvent_zero : A2ATaskUpdateEvent := mkUpdate "" A2ATaskStatus_zero false.

(** The event carries no artifact. *)
(* src: internal/broker/a2a.go 392-406 writeA2ASSEEvent *)
Definition writeA2ASSEEvent (evt : A2ATaskUpdateEvent) : string :=
  named_event "TaskStatusUpdateEvent" (encode (encode_struct A2ATaskUpdateEvent_fields evt)).

(* src: internal/broker/a2a.go 384-390 mapSessionToA2ATask *)
Definition mapSessionToA2ATask (sess : Session) : A2ATask := mkA2ATask (se_ID sess) (se_ID sess) (mkStatus TaskStateSubmitted "").

(** ** Answers *)

(* src: pkg/contract/a2a.go 194-199 JSONRPCError *)
Record JSONRPCError := mkRPCError { re_Code : Z; re_Message : string; re_Data : option json }.
#[export] Instance eta_JSONRPCError : Eta JSONRPCError := fun r => mkRPCError (re_Code r) (re_Message r) (re_Data r).
(* src: pkg/contract/a2a.go 186-192 JSONRPCResponse *)
Record JSONRPCResponse := mkRPCResponse {
  rp_JSONRPC : string; rp_ID : option json; rp_Result : option (list (string * json)); rp_Error : option JSONRPCError }.
#[export] Instance eta_JSONRPCResponse : Eta JSONRPCResponse :=
  fun r => mkRPCResponse (rp_JSONRPC r) (rp_ID r) (rp_Result r) (rp_Error r).

(** What an operation answers with: one body, or a stream that begins with an event and goes on with
    those of a channel. *)
Inductive A2AReply : Type := RBody (body : string) | RStream (first : string) (ch : option nat).

Section Wire.
(** [float_literal]: [AnyValue.v]; the texts of the errors of the decoder and of the store. *)
Variable float_literal : string -> option string.
Variable parse_text : string -> string.
Variable params_text : JSONRPCRequest -> string.
Variable store_text : StoreError -> string.

(* src: pkg/contract/a2a.go 194-199 JSONRPCError *)
Definition JSONRPCError_fields : list (Field JSONRPCError) :=
  [ Tag "code" re_Code enc_int into_int;
    Tag "message" re_Message enc_string into_string;
    Tag "data" re_Data opt_json (into_value float_literal) ].
Definition JSONRPCError_zero : JSONRPCError := mkRPCError 0 "" None.
(* src: pkg/contract/a2a.go 186-192 JSONRPCResponse *)
Definition JSONRPCResponse_fields : list (Field JSONRPCResponse) :=
  [ Tag "jsonrpc" rp_JSONRPC enc_string into_string;
    Tag "id" rp_ID opt_json (into_value float_literal);
    Tag "result" rp_Result opt_object (into_object float_literal);
    Tag "error" rp_Error (opt_ptr (encode_struct JSONRPCError_fields)) (into_ptr JSONRPCError_zero (into_struct JSONRPCError_fields)) ].
Definition JSONRPCResponse_zero : JSONRPCResponse := mkRPCResponse "" None None None.

(* src: internal/broker/a2a.go 102-114 writeJSONRPCError *)
Definition writeJSONRPCError (id : option json) (code : Z) (message : string) (data : option string) : string :=
  encode (encode_struct JSONRPCResponse_fields (mkRPCResponse "2.0" id None (Some (mkRPCError code message (option_map JStr data))))) +:+ nl.
(* src: internal/broker/a2a.go 117-125 writeJSONRPCResult *)
Definition writeJSONRPCResult (id : option json) (result : list (string * json)) : string :=
  encode (encode_struct JSONRPCResponse_fields (mkRPCResponse "2.0" id (Some result) None)) +:+ nl.
Definition task_result (id : option json) (task : A2ATask) : A2AReply :=
  RBody (writeJSONRPCResult id [("task", encode_struct A2ATask_fields task)]).
Definition rpc_error (id : option json) (code : Z) (message : string) (data : option string) : A2AReply :=
  RBody (writeJSONRPCError id code message data).

Definition answer {A} (out : Outcome A) (reply : Server -> A -> A2AReply) : Outcome A2AReply :=
  match out with Done sv a => Done sv (reply sv a) | Panics sv => Panics sv end.

(** ** The handlers *)

(** [alive], [t1], [t2], [fault]: what the store meets ([TurnLoop.v]).  The shipped presets load
    ([Exit.shipped_presets]). *)
(* src: internal/broker/a2a.go 127-175 Server.handleA2ASend *)
Definition handleA2ASend_http (alive : bool) (t1 t2 : Time) (fault : CreateFault) (sv : Server) (req : JSONRPCRequest) : Outcome A2AReply :=
  match decodeParams (SendMessageParams_fields float_literal) (mkSendParams A2AMessage_zero) (rq_Params req) with
  | None => Done sv (rpc_error (rq_ID req) (-32602) "Invalid params" (Some (params_text req)))
  | Some params =>
      match textFromParts (default [] (ms_Parts (sp_Message params))) with
      | None => Done sv (rpc_error (rq_ID req) (-32602) "Invalid params: missing message" None)
      | Some message =>
          answer (handleA2ASend alive t1 t2 fault sv message) (fun _ r =>
            match r with
            | inl e => rpc_error (rq_ID req) (-32603) "Internal error: cannot create session" (Some (store_text e))
            | inr sess => task_result (rq_ID req) (mapSessionToA2ATask sess)
            end)
      end
  end.

(** The id of the task, or the error that is written. *)
(* src: internal/broker/a2a.go 354-368 taskIDFromParams *)
Definition task_id (req : JSONRPCRequest) : A2AReply + string :=
  match decodeParams TaskIDParams_fields (mkTaskIDParams "") (rq_Params req) with
  | None => inl (rpc_error (rq_ID req) (-32602) "Invalid params" (Some (params_text req)))
  | Some params => if String.eqb (ti_ID params) "" then inl (rpc_error (rq_ID req) (-32602) "Invalid params: missing id" None) else inr (ti_ID params)
  end.

(* src: internal/broker/a2a.go 177-203 Server.handleA2AGet *)
Definition handleA2AGet_http (alive : bool) (sv : Server) (req : JSONRPCRequest) : Outcome A2AReply :=
  Done sv match task_id req with
          | inl e => e
          | inr id =>
              match Get alive (sv_store sv) id with
              | inl e => rpc_error (rq_ID req) (-32602) "Task not found" (Some (store_text e))
              | inr sess =>
                  let task := mapSessionToA2ATask sess in
                  task_result (rq_ID req)
                    match handleA2AGet alive sv id with GetTask state reason => task <| at_Status := mkStatus state reason |> | GetNotFound => task end
              end
          end.

(* src: internal/broker/a2a.go 205-264 Server.handleA2ACancel *)
Definition handleA2ACancel_http (alive : bool) (sv : Server) (req : JSONRPCRequest) : Outcome A2AReply :=
  match task_id req with
  | inl e => Done sv e
  | inr id =>
      answer (cancel_section sv id) (fun sv r =>
        match r with
        | CancelNotFound => rpc_error (rq_ID req) (-32602) "Task not found" None
        | CancelTerminated => rpc_error (rq_ID req) (-32602) "Task already terminated" None
        | CancelDone =>
            match Get alive (sv_store sv) id with
            | inl e => rpc_error (rq_ID req) (-32603) "Internal error" (Some (store_text e))
            | inr sess => task_result (rq_ID req) ((mapSessionToA2ATask sess) <| at_Status := mkStatus TaskStateCanceled "canceled" |>)
            end
        end)
  end.

(** A subscriber is sent the state of the task at once; a task that is over, nothing more. *)
(* src: internal/broker/a2a.go 266-325 Server.handleA2ASendSubscribe *)
Definition handleA2ASendSubscribe_http (sv : Server) (req : JSONRPCRequest) : Outcome A2AReply :=
  match task_id req with
  | inl e => Done sv e
  | inr id =>
      answer (subscribe_section sv id) (fun sv' r =>
        match r with
        | SubNotFound => rpc_error (rq_ID req) (-32602) "Task not found" None
        | SubFinal ev => RStream (writeA2ASSEEvent ev) None
        | SubStream ch => RStream (writeA2ASSEEvent (update_event id (default zero_state (sv_states sv !! id)))) (Some ch)
        end)
  end.

(** The decoder goes on after a key it does not know or a value that does not fit: the id is that of
    the last member that holds one. *)
Definition kept_id (j : json) : option json :=
  match j with
  | JObj l =>
      foldl (fun cur kv =>
        match find_field (JSONRPCRequest_fields float_literal) (fst kv) with
        | Some f => if String.eqb (f_name f) "id" then default cur (into_value float_literal (snd kv) cur) else cur
        | None => cur
        end) None l
  | _ => None
  end.

(** What the store and the clock do during the request. *)
Record Meets := mkMeets { mt_alive : bool; mt_t1 : Time; mt_t2 : Time; mt_fault : CreateFault }.

(* src: internal/broker/a2a.go 64-87 Server.handleA2A *)
Definition handleA2A (m : Meets) (sv : Server) (body : string) : Outcome A2AReply :=
  match parse_prefix body with
  | None => Done sv (rpc_error None (-32700) "Parse error" (Some (parse_text body)))
  | Some (j, _) =>
      match into_strict (JSONRPCRequest_fields float_literal) j JSONRPCRequest_zero with
      | None => Done sv (rpc_error (kept_id j) (-32700) "Parse error" (Some (parse_text body)))
      | Some req =>
          if is_method (rq_Method req) "SendMessage" "tasks/send" then handleA2ASend_http (mt_alive m) (mt_t1 m) (mt_t2 m) (mt_fault m) sv req
          else if is_method (rq_Method req) "SubscribeToTask" "tasks/sendSubscribe" then handleA2ASendSubscribe_http sv req
          else if is_method (rq_Method req) "GetTask" "tasks/get" then handleA2AGet_http (mt_alive m) sv req
          else if is_method (rq_Method req) "CancelTask" "tasks/cancel" then handleA2ACancel_http (mt_alive m) sv req
          else Done sv (rpc_error (rq_ID req) (-32601) "Method not found" None)
      end
  end.
End Wire.

(** ** What a request does *)

Section Requests.
Variable float_literal : string -> option string.
Variable parse_text : string -> string.
Variable params_text : JSONRPCRequest -> string.
Variable store_text : StoreError -> string.
#[local] Abbreviation handleA2A := (handleA2A float_literal parse_text params_text store_text).
#[local] Abbreviation rpc_error := (rpc_error float_literal).

Lemma task_id_call req call : match task_id float_literal params_text req with
  | inl e => taskIDFromParams req call = CallRefused (-32602) /\ exists message data, e = rpc_error (rq_ID req) (-32602) message data
  | inr id => taskIDFromParams req call = call id
  end.
Proof. unfold task_id, taskIDFromParams. destruct (decodeParams _ _ _) as [p|]; [destruct (String.eqb (ti_ID p) "")|]; eauto. Qed.

(** What the decoding of the request asks for is what is done. *)
Definition does (m : Meets) (sv : Server) (out : Outcome A2AReply) (call : A2ACall) : Prop :=
  match call with
  | CallRefused code => exists id message data, out = Done sv (rpc_error id code message data)
  | CallSend message => exists reply, out = answer (handleA2ASend (mt_alive m) (mt_t1 m) (mt_t2 m) (mt_fault m) sv message) reply
  | CallSubscribe id => exists reply, out = answer (subscribe_section sv id) reply
  | CallCancel id => exists reply, out = answer (cancel_section sv id) reply
  | CallGet id => exists reply, out = Done sv reply
  end.

Lemma does_task m sv req call run : (forall id, does m sv (run id) (call id)) ->
  does m sv (match task_id float_literal params_text req with inl e => Done sv e | inr id => run id end) (taskIDFromParams req call).
Proof.
  intros H. pose proof (task_id_call req call) as Ht. destruct (task_id _ _ req) as [e|id]; [destruct Ht as (-> & msg & data & ->)|by rewrite Ht].
  cbn. by eexists _, _, _.
Qed.

Lemma does_call m sv body : does m sv (handleA2A m sv body) (parse_a2a float_literal (option_map fst (parse_prefix body))).
Proof.
  unfold A2AWire.handleA2A, parse_a2a. destruct (parse_prefix body) as [[j rest]|]; cbn [option_map fst]; [|cbn; by eexists _, _, _].
  destruct (into_strict _ _ _) as [req|]; [|cbn; by eexists _, _, _].
  destruct (is_method _ "SendMessage" _).
  { unfold handleA2ASend_http, send_call. destruct (decodeParams _ _ _) as [p|]; [|cbn; by eexists _, _, _].
    destruct (textFromParts _); cbn; [by eexists|by eexists _, _, _]. }
  destruct (is_method _ "SubscribeToTask" _); [apply does_task; intros; cbn; by eexists|].
  destruct (is_method _ "GetTask" _).
  { unfold handleA2AGet_http. pose proof (task_id_call req CallGet) as Ht. destruct (task_id _ _ req) as [e|id]; [|rewrite Ht; cbn; by eexists].
    destruct Ht as (-> & msg & data & ->). cbn. by eexists _, _, _. }
  destruct (is_method _ "CancelTask" _); [apply does_task; intros; cbn; by eexists|cbn; by eexists _, _, _].
Qed.

Lemma state_of_answer {A} (out : Outcome A) reply : state_of (answer out reply) = state_of out.
Proof. by destruct out. Qed.

(** A request over HTTP is what its decoding says: refused with that code and without any effect, or
    the one step of the turn loop for the operation it names, which is taken when no other
    handler holds the lock; a request for the state of a task changes nothing.  So whatever is
    posted, the server stays in the states the turn loop reaches. *)
Theorem request_steps m sv body : sv_locked sv = false ->
  let out := handleA2A m sv body in
  does m sv out (parse_a2a float_literal (option_map fst (parse_prefix body))) /\
  (state_of out = Done sv tt \/ exists l, step l sv = Some (state_of out)) /\
  forall store, Reachable (fun _ => True) store sv -> Reachable (fun _ => True) store (after (state_of out)).
Proof.
  intros Hl out. pose proof (does_call m sv body) as H. fold out in H. split; [done|].
  assert (Hs : state_of out = Done sv tt \/ exists l, step l sv = Some (state_of out)).
  { destruct (parse_a2a _ _) as [message|id|id|id|code]; cbn in H.
    - destruct H as [reply ->]. right. exists (LSend (mt_alive m) (mt_t1 m) (mt_t2 m) (mt_fault m) message). cbn [step]. by rewrite Hl, state_of_answer.
    - destruct H as [reply ->]. right. exists (LSubscribe id). cbn [step]. by rewrite Hl, state_of_answer.
    - destruct H as [reply ->]. by left.
    - destruct H as [reply ->]. right. exists (LCancel id). cbn [step]. by rewrite Hl, state_of_answer.
    - destruct H as (? & ? & ? & ->). by left. }
  split; [done|]. intros store HR. destruct Hs as [->|[l Hs]]; [done|]. by eapply R_step.
Qed.
End Requests.

(** ** What a client reads *)

Lemma enc_state_ok s : enc_ok enc_state into_state TaskStateSubmitted s.
Proof. by destruct s. Qed.
#[export] Hint Resolve enc_state_ok : rallish_wf.

Lemma A2ATaskStatus_table : table_ok A2ATaskStatus_zero A2ATaskStatus_fields.
Proof. solve_table. Qed.
Lemma A2ATask_table : table_ok A2ATask_zero A2ATask_fields.
Proof. solve_table. Qed.
Lemma A2ATaskUpdateEvent_table : table_ok A2ATaskUpdateEvent_zero A2ATaskUpdateEvent_fields.
Proof. solve_table. Qed.

Lemma A2ATaskStatus_roundtrip s : utf8_valid (as_Reason s) = true -> struct_ok A2ATaskStatus_fields A2ATaskStatus_zero s.
Proof. intros H. solve_struct A2ATaskStatus_table. Qed.
#[export] Hint Resolve A2ATaskStatus_roundtrip : rallish_wf.

Definition A2ATask_wf (t : A2ATask) : bool := utf8_valid (at_ID t) && utf8_valid (at_SessionID t) && utf8_valid (as_Reason (at_Status t)).
Lemma A2ATask_roundtrip t : A2ATask_wf t = true -> struct_ok A2ATask_fields A2ATask_zero t.
Proof. unfold A2ATask_wf. intros H. reflect_bools. solve_struct A2ATask_table. Qed.

Definition update_wf (e : A2ATaskUpdateEvent) : bool :=
  utf8_valid (ev_ID e) && utf8_valid (as_Reason (ev_Status e)) && fits (encode (encode_struct A2ATaskUpdateEvent_fields e)).
Lemma update_roundtrip e : update_wf e = true -> struct_ok A2ATaskUpdateEvent_fields A2ATaskUpdateEvent_zero e.
Proof. unfold update_wf. intros H. reflect_bools. solve_struct A2ATaskUpdateEvent_table. Qed.

(** The text of a stream, and a reader of its lines: an event ends at an empty line. *)
Definition stream_text (evs : list A2ATaskUpdateEvent) : string := foldr (fun e r => writeA2ASSEEvent e +:+ r) "" evs.
Fixpoint read_updates (lines : list string) : list (option A2ATaskUpdateEvent) :=
  match lines with
  | name :: data :: "" :: rest =>
      (if String.eqb name "event: TaskStatusUpdateEvent" then
         match strip "data: " data with Some d => Unmarshal A2ATaskUpdateEvent_zero (into_struct A2ATaskUpdateEvent_fields) d | None => None end
       else None) :: read_updates rest
  | _ => []
  end.

(** A client that reads a stream line by line finds the updates that were written, each one once and
    in order. *)
Theorem stream_reads evs : forallb update_wf evs = true -> read_updates (fst (scan (stream_text evs))) = map Some evs /\ snd (scan (stream_text evs)) = false.
Proof.
  induction evs as [|e evs IH]; [done|]. cbn [forallb]. intros [He Hs]%andb_true_iff. destruct (IH Hs) as [E1 E2].
  destruct (update_roundtrip e He) as [Hr Hj]. unfold update_wf in He. reflect_bools.
  change (stream_text (e :: evs)) with (named_event "TaskStatusUpdateEvent" (encode (encode_struct A2ATaskUpdateEvent_fields e)) +:+ stream_text evs).
  rewrite scan_named_event by (done || by apply line_ok_encode). cbn [fst snd read_updates map].
  change (String.eqb ("event: " +:+ "TaskStatusUpdateEvent") "event: TaskStatusUpdateEvent") with true. cbn iota.
  rewrite strip_app, (Unmarshal_encode _ _ _ e), E1 by done. done.
Qed.

(** The member of an answer, and the task in its result. *)
Definition answer_member (key : string) (j : json) : option json :=
  match j with JObj l => option_map snd (List.find (fun kv => String.eqb (fst kv) key) l) | _ => None end.
Definition read_task (body : string) : option A2ATask :=
  match parse_prefix body with
  | Some (j, _) => match answer_member "result" j with
                   | Some r => match answer_member "task" r with Some t => into_struct A2ATask_fields t A2ATask_zero | None => None end
                   | None => None
                   end
  | None => None
  end.
Definition read_error (body : string) : option (Z * string) :=
  match parse_prefix body with
  | Some (j, _) => match answer_member "error" j with
                   | Some (JObj [("code", JNum c); ("message", JStr m)]) | Some (JObj [("code", JNum c); ("message", JStr m); ("data", _)]) =>
                       option_map (fun z => (z, m)) (parse_int c)
                   | _ => None
                   end
  | None => None
  end.

Section Answers.
Variable float_literal : string -> option string.

Definition id_wf (id : option json) : bool := match id with Some j => json_wf j | None => true end.
Lemma response_wf id result error : id_wf id = true ->
  json_wf (match opt_object result with Some r => r | None => JNull end) = true ->
  json_wf (match error with Some e => encode_struct (JSONRPCError_fields float_literal) e | None => JNull end) = true ->
  json_wf (encode_struct (JSONRPCResponse_fields float_literal) (mkRPCResponse "2.0" id result error)) = true.
Proof.
  unfold encode_struct at 2, encode_fields. cbn. intros Hi Hr He.
  destruct id as [j|]; cbn in Hi |- *; rewrite ?Hi; destruct (opt_object result) as [r|]; cbn in Hr |- *; rewrite ?Hr; destruct error; cbn in He |- *; by rewrite ?He.
Qed.

(** An answer is read back: the task of a result, the code and the message of an error. *)
Theorem answer_reads id : id_wf id = true ->
  (forall task, A2ATask_wf task = true ->
     read_task (writeJSONRPCResult float_literal id [("task", encode_struct A2ATask_fields task)]) = Some task) /\
  (forall code message data, in_int64 code = true -> utf8_valid message = true -> (forall d, data = Some d -> utf8_valid d = true) ->
     read_error (writeJSONRPCError float_literal id code message data) = Some (code, message)).
Proof.
  intros Hi. split.
  - intros task [Hr Hj]%A2ATask_roundtrip. unfold read_task, writeJSONRPCResult. rewrite parse_prefix_encode.
    + destruct id; exact Hr.
    + apply response_wf; [done| |done]. change (json_wf (encode_struct A2ATask_fields task) && true = true). by rewrite Hj.
    + done.
  - intros code message data Hc Hm Hd. unfold read_error, writeJSONRPCError. rewrite parse_prefix_encode.
    + unfold encode_struct, encode_fields. destruct id, data; cbn; unfold encode_struct, encode_fields; cbn; by rewrite parse_int_Itoa.
    + apply response_wf; [done|done|]. unfold encode_struct, encode_fields. destruct data as [d|]; cbn; by rewrite ?Hm, ?(Hd d eq_refl), ?int_literal_b_Itoa.
    + done.
Qed.
End Answers.

(** ** A task from its creation to its end *)

Definition rpc (method : string) (params : json) : string :=
  encode (JObj [("jsonrpc", JStr "2.0"); ("id", JNum "7"); ("method", JStr method); ("params", params)]).
Definition text_message (text : string) : json :=
  JObj [("message", JObj [("role", JStr "user"); ("parts", JArr [JObj [("kind", JStr "text"); ("text", JStr text)]])])].
Definition demo_answer (sv : Server) (body : string) : Server * string :=
  match handleA2A (fun _ => None) (fun _ => "bad JSON") (fun _ => "bad params") (fun _ => "no such session") (mkMeets true (mkTime 7 "T7") (mkTime 8 "T8") CreateOk) sv body with
  | Done sv (RBody text) => (sv, text)
  | Done sv (RStream text _) => (sv, text)
  | Panics sv => (sv, "")
  end.
Fixpoint demo_texts (sv : Server) (bodies : list string) : list string :=
  match bodies with [] => [] | body :: rest => let '(sv, text) := demo_answer sv body in text :: demo_texts sv rest end.

Definition task_7 : json := JObj [("id", JStr "7-1")].
Definition exchange : list string :=
  demo_texts (NewServer (mkStore "/s" 0 ∅ ∅))
    [rpc "SendMessage" (text_message "fix: a"); rpc "GetTask" task_7; rpc "tasks/cancel" task_7; rpc "GetTask" task_7; rpc "CancelTask" task_7;
     rpc "SubscribeToTask" task_7; rpc "GetTask" (JObj [("id", JStr "7-2")]); rpc "GetTask" (JObj [("id", JStr "7-1"); ("x", JNull)]); rpc "Stop" task_7].
Example exchange_tasks : map (fun text => option_map at_Status (read_task text)) (take 4 exchange) =
  [Some (mkStatus TaskStateSubmitted ""); Some (mkStatus TaskStateWorking ""); Some (mkStatus TaskStateCanceled "canceled"); Some (mkStatus TaskStateCanceled "canceled")].
Proof. vm_compute. reflexivity. Qed.
Example exchange_rest :
  map read_error (drop 4 exchange) =
    [Some (-32602, "Task already terminated"); None; Some (-32602, "Task not found"); Some (-32602, "Invalid params"); Some (-32601, "Method not found")]%Z /\
  read_updates (fst (scan (nth 5 exchange ""))) = [Some (mkUpdate "7-1" (mkStatus TaskStateCanceled "canceled") true)].
Proof. vm_compute. by split. Qed.
(** The id of a request whose envelope has a key too many is in the answer; that of a text that is no
    JSON is not. *)
Example refused_ids :
  snd (demo_answer (NewServer (mkStore "/s" 0 ∅ ∅)) (encode (JObj [("id", JNum "7"); ("extra", JNull)]))) =
    encode (JObj [("jsonrpc", JStr "2.0"); ("id", JNum "7"); ("error", JObj [("code", JNum "-32700"); ("message", JStr "Parse error"); ("data", JStr "bad JSON")])]) +:+ nl /\
  read_error (snd (demo_answer (NewServer (mkStore "/s" 0 ∅ ∅)) "{")) = Some (-32700, "Parse error")%Z.
Proof. vm_compute. by split. Qed.

Lemma request_steps_witness :
  Reachable (fun _ => True) (mkStore "/s" 0 ∅ ∅) (after (state_of (handleA2A (fun _ => None) (fun _ => "") (fun _ => "") (fun _ => "")
    (mkMeets true (mkTime 7 "T7") (mkTime 8 "T8") CreateOk) (NewServer (mkStore "/s" 0 ∅ ∅)) (rpc "SendMessage" (text_message "fix: a"))))).
Proof.
  destruct (request_steps (fun _ => None) (fun _ => "") (fun _ => "") (fun _ => "") (mkMeets true (mkTime 7 "T7") (mkTime 8 "T8") CreateOk)
    (NewServer (mkStore "/s" 0 ∅ ∅)) (rpc "SendMessage" (text_message "fix: a")) eq_refl) as (_ & _ & H).
  apply H. constructor.
Defined.
