(* ===== verification/Runner.v ===== *)
(** * The runner of an agent

    [internal/runner/runner.go] (the loop that polls the broker for turns, runs the agent
    and posts its answers), the wire of [handleNextTurn] and [handlePostTurn] of
    [internal/broker/broker.go] between them, and the deterministic agent of
    [internal/adapter/fake].  The theorem of the file says that a runner talking to the broker
    over HTTP plays the session as if the agent were called by the broker itself. *)

From S2P Require Import Prelude GoStrings Json Codec Lines Utf8 Contract Turns Exit SessionStore Rally TurnLoop TurnLoopSpec.
From Stdlib Require Import Ascii String.
#[local] Open Scope string_scope.

(** [strings.TrimSuffix(s, suffix)] *)
Fixpoint TrimSuffix (s suffix : string) : string :=
  if String.eqb s suffix then "" else match s with "" => "" | String c r => String c (TrimSuffix r suffix) end.

(** ** HTTP *)

(** A request that failed, with whether the error is a timeout of the network; or an answer:
    its status, its body, and the error that ends the reading of it. *)
Inductive HttpResult : Set := HttpError (timeout : bool) | HttpAnswer (code : Z) (body : string) (body_end : option bool).

(** Why a call of the loop failed.  Every other error wraps a reason; [timeout] is whether the
    chain holds a [net.Error] that is a timeout. *)
Inductive LoopError : Type := ErrSessionGone | errNoTurnYet | ErrOther (timeout : bool) (what : string).

(* src: internal/runner/runner.go 170-176 isTransient *)
Definition isTransient (e : LoopError) : bool := match e with ErrOther timeout _ => timeout | _ => false end.

(** The data of the first line of an event stream that has some. *)
(* src: internal/runner/runner.go 127-136 Loop.pollNext *)
Fixpoint first_data (lines : list string) : option string :=
  match lines with
  | [] => None
  | line :: rest => match strip "data: " line with Some data => Some data | None => first_data rest end
  end.

(* src: internal/runner/runner.go 100-141 Loop.pollNext *)
Definition poll_answer (res : HttpResult) : LoopError + TurnRequest :=
  match res with
  | HttpError timeout => inl (ErrOther timeout "do request")
  | HttpAnswer code body body_end =>
      if (code =? 410)%Z then inl ErrSessionGone
      else if (code =? 204)%Z then inl errNoTurnYet
      else if negb (code =? 200)%Z then inl (ErrOther false "unexpected status")
      else
        let '(lines, long) := scan body in
        match first_data lines with
        | Some data =>
            match Unmarshal TurnRequest_zero (into_struct TurnRequest_fields) data with
            | None => inl (ErrOther false "unmarshal turn request")
            | Some req => inr req
            end
        | None =>
            if long then inl (ErrOther false "read sse: token too long")
            else match body_end with
                 | Some timeout => inl (ErrOther timeout "read sse")
                 | None => inl (ErrOther false "no data event in sse")
                 end
        end
  end.

(* src: internal/runner/runner.go 143-163 Loop.postTurn *)
Definition post_answer (res : HttpResult) : option LoopError :=
  match res with
  | HttpError timeout => Some (ErrOther timeout "do request")
  | HttpAnswer code _ _ => if negb (code =? 200)%Z then Some (ErrOther false "unexpected status") else None
  end.

(** ** The loop *)

Inductive RunEnd : Type := RunNil | RunContext | RunPoll (e : LoopError) | RunAdapter | RunPost (e : LoopError) | RunGoesOn.

Section Loop.
Context {World : Type}.

(** What the loop uses: the context's error, the adapter, and an HTTP client. *)
(* src: internal/runner/runner.go 27-34 Loop *)
Record Loop := mkLoop {
  lp_role : string; lp_brokerURL : string; lp_sessionID : string;
  lp_cancelled : World -> bool;
  lp_adapter : World -> TurnRequest -> World * option TurnResponse;
  lp_get : World -> string -> World * HttpResult;
  lp_post : World -> string -> string -> World * HttpResult }.

(* src: internal/runner/runner.go 46-57 NewLoopWithClient *)
Definition NewLoopWithClient (cancelled : World -> bool) (adapter : World -> TurnRequest -> World * option TurnResponse)
    (role brokerURL sessionID : string) (get : World -> string -> World * HttpResult)
    (post : World -> string -> string -> World * HttpResult) : Loop :=
  mkLoop role (TrimSuffix brokerURL "/") sessionID cancelled adapter get post.

(* src: internal/runner/runner.go 100-141 Loop.pollNext *)
Definition pollNext (l : Loop) (w : World) : World * (LoopError + TurnRequest) :=
  let '(w, res) := lp_get l w (lp_brokerURL l +:+ "/sessions/" +:+ lp_sessionID l +:+ "/next?as=" +:+ lp_role l) in
  (w, poll_answer res).

(* src: internal/runner/runner.go 143-163 Loop.postTurn *)
Definition postTurn (l : Loop) (w : World) (resp : TurnResponse) : World * option LoopError :=
  let body := encode (encode_struct TurnResponse_fields resp) in
  let '(w, res) := lp_post l w (lp_brokerURL l +:+ "/sessions/" +:+ lp_sessionID l +:+ "/turn") body in
  (w, post_answer res).

(** [RunGoesOn]: the loop is still running after so many rounds. *)
(* src: internal/runner/runner.go 60-98 Loop.Run *)
Fixpoint Run (fuel : nat) (l : Loop) (w : World) : World * RunEnd :=
  match fuel with
  | O => (w, RunGoesOn)
  | S fuel =>
      if lp_cancelled l w then (w, RunContext)
      else
        match pollNext l w with
        | (w, inl ErrSessionGone) => (w, RunNil)
        | (w, inl errNoTurnYet) => Run fuel l w
        | (w, inl e) => if isTransient e then Run fuel l w else (w, RunPoll e)
        | (w, inr req) =>
            match lp_adapter l w req with
            | (w, None) => (w, RunAdapter)
            | (w, Some resp) =>
                match postTurn l w resp with
                | (w, Some e) => if isTransient e then Run fuel l w else (w, RunPost e)
                | (w, None) => if r_Done resp then (w, RunNil) else Run fuel l w
                end
            end
        end
  end.
End Loop.
Arguments Loop : clear implicits.

(** ** The deterministic agent *)

(** [callback] is nil or gives the answer of a turn; a delay that the context ends is an error. *)
(* src: internal/adapter/fake/fake.go 14-17 Adapter *)
Definition fake_callback : Type := option (Z -> TurnResponse).

(* src: internal/adapter/fake/fake.go 27-43 NewPingPong *)
Definition NewPingPong (maxTurns turn : Z) : TurnResponse :=
  if (turn <? maxTurns)%Z then mkTurnResponse false "" "" ("fake turn " +:+ Itoa turn +:+ " completed") [] "" "" None []
  else mkTurnResponse true "" "" "all done" [] "" "" None [].

(* src: internal/adapter/fake/fake.go 52-65 Adapter.Run *)
Definition fake_Run {World} (callback : fake_callback) (waits : World -> World * bool) (w : World) (req : TurnRequest)
    : World * option TurnResponse :=
  let '(w, ended) := waits w in
  if (ended : bool) then (w, None)
  else match callback with
       | Some f => (w, Some (f (tq_Turn req)))
       | None => (w, Some (mkTurnResponse true "" "" "" [] "" "" None []))
       end.

(** ** The broker's side *)

(** The answer to a poll; a poll that waits is answered when its timer fires. *)
(* src: internal/broker/broker.go 188-319 Server.handleNextTurn *)
Definition next_http (r : NextResult) : HttpResult :=
  match r with
  | NextNotFound => HttpAnswer 404 "session not found" None
  | NextGone reason => HttpAnswer 410 ("session terminated: " +:+ reason) None
  | NextStoreError => HttpAnswer 500 "get session" None
  | NextRouterError => HttpAnswer 500 "router error" None
  | NextGranted req => HttpAnswer 200 (data_event (encode (encode_struct TurnRequest_fields req))) None
  | NextWait _ => HttpAnswer 204 "" None
  end.

(** The body of a posted turn. *)
(* src: internal/broker/broker.go 327-332 Server.handlePostTurn *)
Definition decode_turn (body : string) : option TurnResponse := Decode TurnResponse_zero (into_struct TurnResponse_fields) body.

(** What a handler does to a request: it answers, or it leaves the client to a broken
    connection or to its timeout. *)
Inductive Handled (A : Type) : Type := Answered (a : A) | Broken (timeout : bool).
Arguments Answered {A}.
Arguments Broken {A}.
Definition over_http {A} (answer : A -> HttpResult) (h : Handled A) : HttpResult :=
  match h with Answered a => answer a | Broken timeout => HttpError timeout end.

(** A broker as one runner meets it: the answer to a poll of its role and the status of a post
    of its turn. *)
Record Broker (S : Type) := mkBroker { bk_next : S -> S * Handled NextResult; bk_post : S -> TurnResponse -> S * Handled Z }.
Arguments mkBroker {S}.
Arguments bk_next {S}.
Arguments bk_post {S}.

(** What fits the wire: a request whose JSON is one line of the scanner. *)
Definition line_fits (req : TurnRequest) : bool := fits (encode (encode_struct TurnRequest_fields req)).

(** The error of a poll that is neither granted, nor waits, nor gone. *)
Definition refused (r : NextResult) : bool :=
  match r with NextNotFound | NextStoreError | NextRouterError => true | _ => false end.

Section Play.
Context {S X : Type} (bk : Broker S) (agent : X -> TurnRequest -> X * option TurnResponse).

(** The runner's client over such a broker. *)
Definition get_over (w : S * X) (url : string) : (S * X) * HttpResult :=
  let '(s, r) := bk_next bk (fst w) in ((s, snd w), over_http next_http r).
Definition post_over (w : S * X) (url body : string) : (S * X) * HttpResult :=
  match decode_turn body with
  | None => (w, HttpAnswer 400 "bad request" None)
  | Some resp => let '(s, code) := bk_post bk (fst w) resp in ((s, snd w), over_http (fun code => HttpAnswer code "" None) code)
  end.
Definition adapter_over (w : S * X) (req : TurnRequest) : (S * X) * option TurnResponse :=
  let '(x, r) := agent (snd w) req in ((fst w, x), r).

Definition loop_over (role url id : string) : Loop (S * X) :=
  NewLoopWithClient (fun _ => false) adapter_over role url id get_over post_over.

(** A turn is granted, whose request fits the wire. *)
Inductive Grants : S -> S -> TurnRequest -> Prop :=
| grants s s1 req : bk_next bk s = (s1, Answered (NextGranted req)) -> TurnRequest_wf req = true -> line_fits req = true -> Grants s s1 req.

(** Playing the session directly, without HTTP or JSON: the broker grants a turn, the agent
    answers it, the broker accepts the answer; and how each of these can end the play, or be
    tried again. *)
Inductive Plays : S * X -> S * X -> RunEnd -> Prop :=
| play_gone s x s' reason : bk_next bk s = (s', Answered (NextGone reason)) -> Plays (s, x) (s', x) RunNil
| play_wait s x s' ch w e : bk_next bk s = (s', Answered (NextWait ch)) -> Plays (s', x) w e -> Plays (s, x) w e
| play_poll_timeout s x s' w e : bk_next bk s = (s', Broken true) -> Plays (s', x) w e -> Plays (s, x) w e
| play_poll_broken s x s' : bk_next bk s = (s', Broken false) -> Plays (s, x) (s', x) (RunPoll (ErrOther false "do request"))
| play_refused s x s' r : bk_next bk s = (s', Answered r) -> refused r = true ->
    Plays (s, x) (s', x) (RunPoll (ErrOther false "unexpected status"))
| play_long s x s' req : bk_next bk s = (s', Answered (NextGranted req)) -> TurnRequest_wf req = true -> line_fits req = false ->
    Plays (s, x) (s', x) (RunPoll (ErrOther false "read sse: token too long"))
| play_fails s x s1 req x' : Grants s s1 req -> agent x req = (x', None) -> Plays (s, x) (s1, x') RunAdapter
| play_done s x s1 req x' resp s2 : Grants s s1 req -> agent x req = (x', Some resp) -> TurnResponse_wf resp = true ->
    bk_post bk s1 resp = (s2, Answered 200%Z) -> r_Done resp = true -> Plays (s, x) (s2, x') RunNil
| play_turn s x s1 req x' resp s2 w e : Grants s s1 req -> agent x req = (x', Some resp) -> TurnResponse_wf resp = true ->
    bk_post bk s1 resp = (s2, Answered 200%Z) -> r_Done resp = false -> Plays (s2, x') w e -> Plays (s, x) w e
| play_post_timeout s x s1 req x' resp s2 w e : Grants s s1 req -> agent x req = (x', Some resp) -> TurnResponse_wf resp = true ->
    bk_post bk s1 resp = (s2, Broken true) -> Plays (s2, x') w e -> Plays (s, x) w e
| play_post_broken s x s1 req x' resp s2 : Grants s s1 req -> agent x req = (x', Some resp) -> TurnResponse_wf resp = true ->
    bk_post bk s1 resp = (s2, Broken false) -> Plays (s, x) (s2, x') (RunPost (ErrOther false "do request"))
| play_post_refused s x s1 req x' resp s2 code : Grants s s1 req -> agent x req = (x', Some resp) -> TurnResponse_wf resp = true ->
    bk_post bk s1 resp = (s2, Answered code) -> code <> 200%Z -> Plays (s, x) (s2, x') (RunPost (ErrOther false "unexpected status")).
End Play.

(** ** The wire *)

Lemma strip_data data : strip "data: " ("data: " +:+ data) = Some data.
Proof. apply strip_app. Qed.

(** The turn the broker grants is the turn the runner reads. *)
Lemma poll_granted req : TurnRequest_wf req = true -> line_fits req = true -> poll_answer (next_http (NextGranted req)) = inr req.
Proof.
  intros H1 H2. apply TurnRequest_roundtrip in H1 as [Hr Hj].
  cbn [next_http poll_answer]. change (200 =? 410)%Z with false. change (200 =? 204)%Z with false. change (negb (200 =? 200)%Z) with false. cbn iota.
  rewrite <-(string_app_nil_r (data_event _)), scan_data_event by by apply line_ok_encode. cbn [first_data]. rewrite strip_data.
  by rewrite (Unmarshal_encode _ _ _ req).
Qed.

Lemma decode_posted resp : TurnResponse_wf resp = true -> decode_turn (encode (encode_struct TurnResponse_fields resp)) = Some resp.
Proof.
  intros [Hr Hj]%TurnResponse_roundtrip. unfold decode_turn, Decode.
  rewrite <-(string_app_nil_r (encode _)), parse_prefix_encode by done. exact Hr.
Qed.

(** ** The runner plays the session *)

Section Refinement.
Context {S X : Type} (bk : Broker S) (agent : X -> TurnRequest -> X * option TurnResponse).
Abbreviation loop := (loop_over bk agent).

Lemma poll_over role url id w s r : bk_next bk (fst w) = (s, r) -> pollNext (loop role url id) w = ((s, snd w), poll_answer (over_http next_http r)).
Proof. intros H. unfold pollNext. cbn. unfold get_over. by rewrite H. Qed.

Lemma post_turn_over role url id w resp s code : TurnResponse_wf resp = true -> bk_post bk (fst w) resp = (s, code) ->
  postTurn (loop role url id) w resp = ((s, snd w), post_answer (over_http (fun code => HttpAnswer code "" None) code)).
Proof. intros Hw H. unfold postTurn. cbn -[encode encode_struct]. unfold post_over. rewrite decode_posted by done. by rewrite H. Qed.

(** A round whose poll is granted no turn. *)
Lemma Run_poll role url id n s x s' r : bk_next bk s = (s', r) ->
  Run (Datatypes.S n) (loop role url id) (s, x) =
    match poll_answer (over_http next_http r) with
    | inl ErrSessionGone => ((s', x), RunNil)
    | inl errNoTurnYet => Run n (loop role url id) (s', x)
    | inl e => if isTransient e then Run n (loop role url id) (s', x) else ((s', x), RunPoll e)
    | inr req =>
        match adapter_over agent (s', x) req with
        | (w, None) => (w, RunAdapter)
        | (w, Some resp) =>
            match postTurn (loop role url id) w resp with
            | (w, Some e) => if isTransient e then Run n (loop role url id) w else (w, RunPost e)
            | (w, None) => if r_Done resp then (w, RunNil) else Run n (loop role url id) w
            end
        end
    end.
Proof. intros H. cbn [Run]. change (lp_cancelled (loop role url id) (s, x)) with false. cbn iota. by rewrite (poll_over _ _ _ (s, x) s' _ H). Qed.

(** A round with a turn that the agent answers. *)
Lemma Run_turn role url id n s x s1 req x' resp s2 code : Grants bk s s1 req -> agent x req = (x', Some resp) ->
  TurnResponse_wf resp = true -> bk_post bk s1 resp = (s2, code) ->
  Run (Datatypes.S n) (loop role url id) (s, x) =
    match post_answer (over_http (fun code => HttpAnswer code "" None) code) with
    | Some e => if isTransient e then Run n (loop role url id) (s2, x') else ((s2, x'), RunPost e)
    | None => if r_Done resp then ((s2, x'), RunNil) else Run n (loop role url id) (s2, x')
    end.
Proof.
  intros Hg Ha Hw Hp. inversion Hg as [? ? ? Hn Hr Hl]. subst. rewrite (Run_poll _ _ _ _ _ _ _ _ Hn). cbn [over_http]. rewrite poll_granted by done.
  unfold adapter_over. cbn [fst snd]. rewrite Ha. by rewrite (post_turn_over _ _ _ (s1, x') resp s2 code).
Qed.

Lemma poll_long req : TurnRequest_wf req = true -> line_fits req = false ->
  poll_answer (next_http (NextGranted req)) = inl (ErrOther false "read sse: token too long").
Proof.
  intros Hw Hf. apply TurnRequest_roundtrip in Hw as [_ Hj]. cbn [next_http]. unfold poll_answer.
  change (200 =? 410)%Z with false. change (200 =? 204)%Z with false. change (negb (200 =? 200)%Z) with false. cbn iota.
  assert (E : forall d, data_event d = ("data: " +:+ d) +:+ (nl +:+ nl)) by done.
  rewrite E, scan_long_data; [done|by apply encode_one_line|done].
Qed.

End Refinement.

(** ** The session server *)

(** The steps of a handler that runs to its end; whether it did, or how it broke off. *)
Fixpoint run_steps (ls : list Label) (sv : Server) : Server * Handled bool :=
  match ls with
  | [] => (sv, Answered true)
  | l :: ls => match step l sv with
               | None => (sv, Answered false)
               | Some (Done sv _) => run_steps ls sv
               | Some (Panics sv) => (sv, Broken false)
               end
  end.

(** The server of [TurnLoop.v] as a broker, one request after the other; a server that is locked for
    good lets a request wait until the client's timeout. *)
Definition session_broker (id role : string) (now : Time) (world : ExitWorld) : Broker Server :=
  mkBroker
    (fun sv => if sv_locked sv then (sv, Broken true)
               else match next_section true true true sv id role with
                    | Done sv r => (sv, Answered r)
                    | Panics sv => (sv, Broken false)
                    end)
    (fun sv resp => if sv_locked sv then (sv, Broken true)
               else match post_section ScratchOk sv id resp with
                    | Panics sv => (sv, Broken false)
                    | Done sv PostNoPending => (sv, Answered 400%Z)
                    | Done sv' (PostAccepted _) =>
                        let k := sv_next sv in
                        match run_steps [LAppend k true now LogOk; LReplay k true true; LEval k world; LClose k] sv' with
                        | (sv, Answered true) => (sv, Answered 200%Z)
                        | (sv, Answered false) => (sv, Answered 500%Z)
                        | (sv, Broken t) => (sv, Broken t)
                        end
                    end).

(** Direct play as a function; [None] is out of fuel, or a text that is not UTF-8. *)
Fixpoint play {S X} (fuel : nat) (bk : Broker S) (agent : X -> TurnRequest -> X * option TurnResponse) (s : S) (x : X)
    : option (S * X * RunEnd) :=
  match fuel with
  | O => None
  | Datatypes.S fuel =>
      match bk_next bk s with
      | (s, Answered (NextGone _)) => Some (s, x, RunNil)
      | (s, Answered (NextWait _)) | (s, Broken true) => play fuel bk agent s x
      | (s, Broken false) => Some (s, x, RunPoll (ErrOther false "do request"))
      | (s1, Answered (NextGranted req)) =>
          if TurnRequest_wf req then
            if line_fits req then
              match agent x req with
              | (x, None) => Some (s1, x, RunAdapter)
              | (x, Some resp) =>
                  if TurnResponse_wf resp then
                    match bk_post bk s1 resp with
                    | (s2, Answered code) =>
                        if (code =? 200)%Z then (if r_Done resp then Some (s2, x, RunNil) else play fuel bk agent s2 x)
                        else Some (s2, x, RunPost (ErrOther false "unexpected status"))
                    | (s2, Broken true) => play fuel bk agent s2 x
                    | (s2, Broken false) => Some (s2, x, RunPost (ErrOther false "do request"))
                    end
                  else None
              end
            else Some (s1, x, RunPoll (ErrOther false "read sse: token too long"))
          else None
      | (s, Answered _) => Some (s, x, RunPoll (ErrOther false "unexpected status"))
      end
  end.

Lemma play_Plays {S X} fuel bk (agent : X -> TurnRequest -> X * option TurnResponse) (s : S) x w e :
  play fuel bk agent s x = Some (w, e) -> Plays bk agent (s, x) w e.
Proof.
  revert s x. induction fuel as [|fuel IH]; intros s x; [done|]. cbn [play].
  destruct (bk_next bk s) as [s1 [[|reason| | |req|ch]|[]]] eqn:En; try (intros [= <- <-]; by econstructor).
  - destruct (TurnRequest_wf req) eqn:Er; [|done]. destruct (line_fits req) eqn:Es; [|intros [= <- <-]; by eapply play_long].
    assert (Hg : Grants bk s s1 req) by done. destruct (agent x req) as [x' [resp|]] eqn:Ea; [|intros [= <- <-]; by eapply play_fails].
    destruct (TurnResponse_wf resp) eqn:Ew; [|done]. destruct (bk_post bk s1 resp) as [s2 [code|[]]] eqn:Ep.
    + destruct (Z.eqb_spec code 200) as [->|]; [|intros [= <- <-]; by eapply play_post_refused].
      destruct (r_Done resp) eqn:Ed; [intros [= <- <-]; by eapply play_done|intros H; by eapply play_turn, IH].
    + intros H. by eapply play_post_timeout, IH.
    + intros [= <- <-]. by eapply play_post_broken.
  - intros H. by eapply play_wait, IH.
  - intros H. by eapply play_poll_timeout, IH.
Qed.

(** ** A session of two turns *)

Definition demo_broker : Broker Server := session_broker one_id "" noon (live_world 0).
Definition demo_agent (x : unit) (req : TurnRequest) : unit * option TurnResponse := fake_Run (Some (NewPingPong 2)) (fun w => (w, false)) x req.
Definition demo_start : Server := state_after [create_label].
Definition demo_end : Server * unit * RunEnd := default (demo_start, tt, RunGoesOn) (play 5 demo_broker demo_agent demo_start tt).

(** A broker that hangs up: the second time it is asked the connection breaks. *)
Definition hang_up : Broker nat :=
  mkBroker (fun n => (Datatypes.S n, if Nat.eqb n 0 then Answered (NextWait 0) else Broken false)) (fun n _ => (n, Answered 200%Z)).

