(* ===== verification/Cycle.v ===== *)
(** * The cycle state and the gate pipeline

    [internal/cycle/state.go] (the snapshot of a cycle and its transitions),
    [result.go] (the sum type the transitions return) and [gate.go] (the sequential
    pipeline).  A gate acts on the outside world, a type parameter: a gate is a function
    of the world and of the state it is given. *)

From S2P Require Import Prelude GoStrings Json Codec Contract.
From Stdlib Require Import Ascii String.
#[local] Open Scope string_scope.

(** ** Results *)

(** The errors of the package: a sentinel, a [*HaltedError], or any other with its
    text. *)
(* src: internal/cycle/result.go 84-88 HaltedError *)
Inductive CycleError : Type :=
  | EContract (e : ContractError)
  | EHalted (reason : HaltReason) (reports : list GateReport)
  | EOther (text : string).

(* src: internal/cycle/result.go 10-16 Result *)
Record Result (T : Type) := mkResult { value : T; err : option CycleError; reports : list GateReport }.
Arguments mkResult {T} _ _ _.
Arguments value {T} _.
Arguments err {T} _.
Arguments reports {T} _.

Section Results.
Context {T U : Type}.
(* src: internal/cycle/result.go 18-21 Success *)
Definition Success (v : T) (rs : list GateReport) : Result T := mkResult v None rs.
(* src: internal/cycle/result.go 23-27 Failure *)
Definition Failure (v : T) (e : CycleError) (rs : list GateReport) : Result T := mkResult v (Some e) rs.
(* src: internal/cycle/result.go 29-30 Result.IsSuccess *)
Definition IsSuccess (r : Result T) : bool := match err r with None => true | Some _ => false end.
(* src: internal/cycle/result.go 32-33 Result.IsFailure *)
Definition IsFailure (r : Result T) : bool := match err r with None => false | Some _ => true end.
(* src: internal/cycle/result.go 44-51 Result.Then *)
Definition Then (r : Result T) (fn : T -> Result T) : Result T := if IsFailure r then r else fn (value r).
(** [zero] is the zero value of the target type. *)
(* src: internal/cycle/result.go 53-61 Map *)
Definition Map (zero : U) (r : Result T) (fn : T -> U) : Result U :=
  match err r with Some e => mkResult zero (Some e) (reports r) | None => mkResult (fn (value r)) None (reports r) end.
(* src: internal/cycle/result.go 63-70 FlatMap *)
Definition FlatMap (zero : U) (r : Result T) (fn : T -> Result U) : Result U :=
  match err r with Some e => mkResult zero (Some e) (reports r) | None => fn (value r) end.
(* src: internal/cycle/result.go 72-82 Combine *)
Definition Combine (a b : Result T) (combiner : T -> T -> T) : Result T :=
  if IsFailure a then a else if IsFailure b then b
  else Success (combiner (value a) (value b)) (reports a ++ reports b)%list.
End Results.

(** ** Transitions of the state *)

(* src: internal/cycle/state.go 58-68 normaliseLocalGates *)
Definition normaliseLocalGates (gates : list string) : list string :=
  List.filter (fun gate => negb (String.eqb gate "")) (map TrimSpace gates).

(* src: internal/cycle/state.go 18-56 NewState *)
Definition NewState (now : Z) (req : NewCycleRequest) (id : string) : ContractError + CycleState :=
  let branch := if String.eqb (nc_Branch req) "" then "feat/autonomous-cycle" else nc_Branch req in
  if String.eqb branch "main" || String.eqb branch "master" then inl ErrMainBranchForbidden
  else if String.eqb (nc_Goal req) "" then inl ErrGoalRequired
  else
    let maxCycles := if (nc_MaxCycles req <=? 0)%Z then 10%Z else nc_MaxCycles req in
    inr (mkCycleState id CyclePhasePreflight 0 maxCycles branch "" (nc_PendingFiles req)
           (normaliseLocalGates (nc_LocalGates req)) (nc_AuditCmd req) (nc_PolishTestCmd req) [] (nc_Goal req)
           false None now now [] "" (nc_AutoGoal req) (nc_MaxDurationMinutes req) now).

(** The methods mutate their receiver and return a copy of it: the value of the result is
    the state afterwards. *)
(* src: internal/cycle/state.go 70-79 State.Advance *)
Definition Advance (now : Z) (s : CycleState) : Result CycleState :=
  if s_Halted s then Failure s (EContract ErrCycleHalted) []
  else Success (s <| s_Phase := Next (s_Phase s) |> <| s_UpdatedAt := now |>) [].

(* src: internal/cycle/state.go 81-88 State.Halt *)
Definition Halt (now : Z) (s : CycleState) (reason : HaltReason) : Result CycleState :=
  Failure (s <| s_Halted := true |> <| s_HaltReason := Some reason |> <| s_Phase := CyclePhaseHalted |>
             <| s_UpdatedAt := now |>) (EHalted reason []) [].

(* src: internal/cycle/state.go 90-100 State.CompleteCycle *)
Definition CompleteCycle (now : Z) (s : CycleState) : Result CycleState :=
  if s_Halted s then Failure s (EContract ErrCycleHalted) []
  else Success (s <| s_CompletedCycles := (s_CompletedCycles s + 1)%Z |> <| s_Phase := CyclePhasePreflight |>
                  <| s_UpdatedAt := now |>) [].

(* src: internal/cycle/state.go 102-107 State.SetGoal *)
Definition SetGoal (now : Z) (s : CycleState) (goal : string) : Result CycleState :=
  Success (s <| s_NextCycleGoal := goal |> <| s_UpdatedAt := now |>) [].

(* src: internal/cycle/state.go 109-114 State.AppendReport *)
Definition AppendReport (now : Z) (s : CycleState) (r : GateReport) : Result CycleState :=
  Success (s <| s_History := (s_History s ++ [r])%list |> <| s_UpdatedAt := now |>) [].

(* src: internal/cycle/state.go 117-121 State.AppendViolations *)
Definition violation_key (v : Violation) : string := v_File v +:+ ":" +:+ Itoa (v_Line v) +:+ ":" +:+ v_Type v.

(** The loop over the new violations, with the keys seen so far. *)
(* src: internal/cycle/state.go 126-134 State.AppendViolations *)
Fixpoint append_new (seen : gset string) (vs : list Violation) : list Violation :=
  match vs with
  | [] => []
  | v :: rest =>
      if bool_decide (violation_key v ∈ seen) then append_new seen rest
      else v :: append_new ({[violation_key v]} ∪ seen) rest
  end.

(* src: internal/cycle/state.go 116-135 State.AppendViolations *)
Definition AppendViolations (now : Z) (s : CycleState) (vs : list Violation) : Result CycleState :=
  let seen := list_to_set (map violation_key (s_ViolationsFound s)) in
  Success (s <| s_ViolationsFound := (s_ViolationsFound s ++ append_new seen vs)%list |> <| s_UpdatedAt := now |>) [].

(* src: internal/cycle/state.go 138-148 State.ClearViolations *)
Definition ClearViolations (now : Z) (s : CycleState) (vtype : string) : Result CycleState :=
  Success (s <| s_ViolationsFound := List.filter (fun v => negb (String.eqb (v_Type v) vtype)) (s_ViolationsFound s) |>
             <| s_UpdatedAt := now |>) [].

(** ** The pipeline *)

Section Pipeline.
Context {World : Type}.
(** The clock of the world, in Unix milliseconds. *)
Variable clock : World -> Z.

(* src: internal/cycle/gate.go 10-18 Gate *)
Record Gate := mkGate { gate_Name : string; gate_Run : World -> CycleState -> World * (GateResult * CycleState) }.

(* src: internal/cycle/gate.go 20-22 Pipeline *)
Definition Pipeline : Type := list Gate.

(** The loop, with the reports accumulated so far. *)
(* src: internal/cycle/gate.go 32-49 Pipeline.Execute *)
Fixpoint execute_from (p : Pipeline) (w : World) (current : CycleState) (rs : list GateReport)
    : World * Result CycleState :=
  match p with
  | [] => (w, Success current rs)
  | gate :: rest =>
      let '(w, (result, next)) := gate_Run gate w current in
      let rs := (rs ++ [Report result])%list in
      match result with
      | GateFailure r reason =>
          let next := next <| s_LastFailedGate := g_Gate r |> in
          let halted := value (Halt (clock w) next reason) in
          (w, Failure halted (EHalted reason rs) rs)
      | GateWarning _ | GateSuccess _ => execute_from rest w next rs
      end
  end.

(* src: internal/cycle/gate.go 25-50 Pipeline.Execute *)
Definition Execute (p : Pipeline) (w : World) (initial : CycleState) : World * Result CycleState :=
  execute_from p w initial [].

(* src: internal/cycle/gate.go 52-59 Pipeline.Names *)
Definition Names (p : Pipeline) : list string := map gate_Name p.
End Pipeline.
Arguments Gate World : clear implicits.
Arguments Pipeline World : clear implicits.

(** ** What a transition leaves alone *)

(** The fields no gate may change: the identity of the cycle, its plan, its progress and
    its seal. *)
Record same_plan (s s' : CycleState) : Prop := {
  sp_ID : s_ID s' = s_ID s;
  sp_Completed : s_CompletedCycles s' = s_CompletedCycles s;
  sp_Max : s_MaxCycles s' = s_MaxCycles s;
  sp_LocalGates : s_LocalGates s' = s_LocalGates s;
  sp_Goal : s_NextCycleGoal s' = s_NextCycleGoal s;
  sp_Halted : s_Halted s' = s_Halted s;
  sp_Reason : s_HaltReason s' = s_HaltReason s;
  sp_AutoGoal : s_AutoGoal s' = s_AutoGoal s;
  sp_MaxDuration : s_MaxDurationMinutes s' = s_MaxDurationMinutes s;
  sp_StartedAt : s_StartedAt s' = s_StartedAt s }.

#[export] Instance same_plan_preorder : PreOrder same_plan.
Proof. split; [by intros ?; split|]. intros s1 s2 s3 [] []. split; congruence. Qed.

(** What the driver asks of its gates. *)
Class FramedGate {World} (g : Gate World) : Prop :=
  gate_frame : forall w s w' r s', gate_Run g w s = (w', (r, s')) -> same_plan s s'.

Class FramedPipeline {World} (p : Pipeline World) : Prop := pipeline_frame : Forall FramedGate p.

#[export] Instance framed_nil {World} : @FramedPipeline World [].
Proof. constructor. Qed.
#[export] Instance framed_cons {World} (g : Gate World) p : FramedGate g -> FramedPipeline p -> FramedPipeline (g :: p).
Proof. by constructor. Qed.
#[export] Instance framed_app {World} (p q : Pipeline World) : FramedPipeline p -> FramedPipeline q -> FramedPipeline (p ++ q)%list.
Proof. intros Hp Hq. by apply Forall_app. Qed.

(** ** The pipeline as a relation *)

Section PipelineSpec.
Context {World : Type} (clock : World -> Z).

(** All gates of [p] pass (or warn), in order, with these reports. *)
Inductive passes : Pipeline World -> World -> CycleState -> list GateReport -> World -> CycleState -> Prop :=
  | passes_nil w s : passes [] w s [] w s
  | passes_cons g p w s w1 r s1 rs w2 s2 :
      gate_Run g w s = (w1, (r, s1)) -> (forall rep reason, r <> GateFailure rep reason) ->
      passes p w1 s1 rs w2 s2 -> passes (g :: p) w s (Report r :: rs) w2 s2.

(** The state a failing gate leaves. *)
Definition sealed (w : World) (s : CycleState) (rep : GateReport) (reason : HaltReason) : CycleState :=
  s <| s_LastFailedGate := g_Gate rep |> <| s_Halted := true |> <| s_HaltReason := Some reason |>
    <| s_Phase := CyclePhaseHalted |> <| s_UpdatedAt := clock w |>.

Inductive stops : Pipeline World -> World -> CycleState -> list GateReport -> HaltReason -> World -> CycleState -> Prop :=
  | stops_at p1 g p2 w s rs w1 s1 w2 rep reason s2 :
      passes p1 w s rs w1 s1 -> gate_Run g w1 s1 = (w2, (GateFailure rep reason, s2)) ->
      stops (p1 ++ g :: p2)%list w s (rs ++ [rep])%list reason w2 (sealed w2 s2 rep reason).

Lemma passes_execute p w s rs w' s' acc :
  passes p w s rs w' s' -> execute_from clock p w s acc = (w', Success s' (acc ++ rs)%list).
Proof.
  intros H. revert acc. induction H as [w s|g p w s w1 r s1 rs w2 s2 Hg Hnf _ IH]; intros acc; cbn [execute_from].
  - by rewrite app_nil_r.
  - rewrite Hg. destruct r as [rep|rep reason|rep]; [|by edestruct Hnf|]; by rewrite IH, <- app_assoc.
Qed.

Lemma passes_then p1 p2 w s rs w1 s1 acc :
  passes p1 w s rs w1 s1 -> execute_from clock (p1 ++ p2)%list w s acc = execute_from clock p2 w1 s1 (acc ++ rs)%list.
Proof.
  intros H. revert acc. induction H as [w s|g p w s w1 r s1 rs w2 s2 Hg Hnf _ IH]; intros acc; cbn [app execute_from].
  - by rewrite app_nil_r.
  - rewrite Hg. destruct r as [rep|rep reason|rep]; [|by edestruct Hnf|]; by rewrite IH, <- app_assoc.
Qed.

Lemma stops_execute p w s rs reason w' s' :
  stops p w s rs reason w' s' -> Execute clock p w s = (w', Failure s' (EHalted reason rs) rs).
Proof. intros [p1 g p2 w0 s0 rs0 w1 s1 w2 rep reason0 s2 Hp Hg]. unfold Execute. rewrite (passes_then _ _ _ _ _ _ _ _ Hp). cbn. by rewrite Hg. Qed.

Lemma stops_cons g p w s w1 r s1 rs reason w' s' :
  gate_Run g w s = (w1, (r, s1)) -> (forall rep reason, r <> GateFailure rep reason) ->
  stops p w1 s1 rs reason w' s' -> stops (g :: p) w s (Report r :: rs) reason w' s'.
Proof.
  intros Hg Hnf H. inversion H as [p1 g' p2 w0 s0 rs0 w2 s2 w3 rep reason0 s3 Hp Hg']; subst.
  apply (stops_at (g :: p1) g' p2 w s (Report r :: rs0) w2 s2 w' rep reason s3); [by econstructor|done].
Qed.

(** One of the two relations holds. *)
Lemma pipeline_runs p w s :
  (exists rs w' s', passes p w s rs w' s') \/ (exists rs reason w' s', stops p w s rs reason w' s').
Proof.
  revert w s. induction p as [|g p IH]; intros w s; [left; eexists _, _, _; constructor|].
  destruct (gate_Run g w s) as [w1 [r s1]] eqn:Hg.
  assert (H : (exists rep reason, r = GateFailure rep reason) \/ forall rep reason, r <> GateFailure rep reason)
    by (destruct r as [?|rep reason|?]; [by right|left; by exists rep, reason|by right]).
  destruct H as [(rep & reason & ->)|Hnf].
  - right. exists [rep], reason, w1, (sealed w1 s1 rep reason). apply (stops_at [] g p w s [] w s); [constructor|done].
  - destruct (IH w1 s1) as [(rs & w' & s' & H)|(rs & reason & w' & s' & H)]; [left|right].
    + eexists _, _, _. by eapply passes_cons.
    + eexists _, _, _, _. by eapply stops_cons.
Qed.

(** Both relations are what the loop computes. *)
Lemma Execute_cases p w s :
  (forall rs w' s', Execute clock p w s = (w', Success s' rs) <-> passes p w s rs w' s') /\
  (forall rs w' s' e, Execute clock p w s = (w', Failure s' e rs) <->
     exists reason, e = EHalted reason rs /\ stops p w s rs reason w' s').
Proof.
  assert (HP : forall rs w' s', passes p w s rs w' s' -> Execute clock p w s = (w', Success s' rs))
    by (intros rs w' s' H; by apply (passes_execute _ _ _ _ _ _ [] H)).
  assert (HS : forall rs reason w' s', stops p w s rs reason w' s' -> Execute clock p w s = (w', Failure s' (EHalted reason rs) rs))
    by (intros; by apply stops_execute).
  split; intros; (split; [|try apply HP; try (intros (reason & -> & H); by apply HS)]).
  all: intros E; destruct (pipeline_runs p w s) as [(rs1 & w1 & s1 & H)|(rs1 & reason & w1 & s1 & H)];
    pose proof H as E1; [apply HP in E1|apply HS in E1]; rewrite E in E1; unfold Success, Failure in E1; simplify_eq; eauto.
Qed.

(** The pipeline runs its gates in order, each on the world and state the one before
    left, and stops at the first failure: it succeeds with one report per gate exactly
    when no gate fails; otherwise its reports end with the failing gate's, no later gate
    runs, and the state is sealed with that gate's reason and name. *)
Theorem Execute_spec p w s :
  (forall rs w' s', Execute clock p w s = (w', Success s' rs) <-> passes p w s rs w' s') /\
  (forall rs w' s' e, Execute clock p w s = (w', Failure s' e rs) <->
     exists reason, e = EHalted reason rs /\ stops p w s rs reason w' s').
Proof. apply Execute_cases. Qed.

(** A framed pipeline leaves the plan alone until it succeeds. *)
Lemma passes_frame p w s rs w' s' : FramedPipeline p -> passes p w s rs w' s' -> same_plan s s'.
Proof.
  intros Hp H. induction H as [|g p w s w1 r s1 rs w2 s2 Hg _ _ IH]; [done|].
  inversion_clear Hp as [|? ? HF Hp']. transitivity s1; [by eapply HF|by apply IH].
Qed.
End PipelineSpec.

(** ** Properties of the transitions *)

Lemma append_new_spec seen vs :
  (forall v, v ∈ append_new seen vs -> violation_key v ∉ seen) /\
  NoDup (map violation_key (append_new seen vs)) /\
  (forall v, v ∈ vs -> violation_key v ∈ seen \/ violation_key v ∈ map violation_key (append_new seen vs)).
Proof.
  revert seen. induction vs as [|x vs IH]; intros seen; cbn [append_new].
  { split_and!; [by intros ? ?%elem_of_nil|constructor|by intros ? ?%elem_of_nil]. }
  case_bool_decide as Hx.
  - destruct (IH seen) as (H1 & H2 & H3). split_and!; [done..|]. intros v [->|Hv]%elem_of_cons; [by left|auto].
  - destruct (IH ({[violation_key x]} ∪ seen)) as (H1 & H2 & H3). cbn [map]. split_and!.
    + intros v [->|Hv]%elem_of_cons; [done|]. apply H1 in Hv. set_solver.
    + apply NoDup_cons. split; [|done]. intros (y & Ey & Hy)%list_elem_of_fmap. apply H1 in Hy. set_solver.
    + intros v [->|Hv]%elem_of_cons; [right; by left|]. rewrite elem_of_cons. destruct (H3 v Hv) as [H|H]; [|by right; right].
      apply elem_of_union in H as [->%elem_of_singleton|?]; auto.
Qed.

(** Merging violations keeps one violation per file, line and type: if the recorded
    keys are distinct they stay distinct, the recorded violations stay in place, and
    every new key is recorded. *)
Theorem AppendViolations_dedup now s vs :
  let s' := value (AppendViolations now s vs) in
  NoDup (map violation_key (s_ViolationsFound s)) ->
  NoDup (map violation_key (s_ViolationsFound s')) /\
  (exists new, s_ViolationsFound s' = (s_ViolationsFound s ++ new)%list) /\
  forall v, v ∈ vs -> violation_key v ∈ map violation_key (s_ViolationsFound s').
Proof.
  cbn. intros Hnd. destruct (append_new_spec (list_to_set (map violation_key (s_ViolationsFound s))) vs) as (H1 & H2 & H3).
  split_and!; [|by eexists|].
  - rewrite map_app. apply NoDup_app. split_and!; [done| |done]. intros k Hk (v & -> & Hv)%list_elem_of_fmap.
    apply H1 in Hv. by apply Hv, elem_of_list_to_set.
  - intros v Hv. rewrite map_app, elem_of_app. destruct (H3 v Hv) as [H%elem_of_list_to_set|]; auto.
Qed.
