(* ===== verification/Gates.v ===== *)
(** * The gates

    [internal/cycle/gates]: the seven gates of the standard pipeline and the scanners of
    the philosophy gate; and the goal finder of [internal/cycle/autogoal.go], whose goals
    the gates judge.  Commands and files belong to the outside world: [exec] runs an
    argument vector, [file_exists] looks for a file, [read_file] reads one. *)

From S2P Require Import Prelude GoStrings Json Codec Contract Cycle.
From Stdlib Require Import Ascii String.
#[local] Open Scope string_scope.

(** What a finished command leaves: its two outputs, their interleaving, and the text of
    the error when it could not run or failed. *)
Record CmdResult := mkCmd { cr_stdout : string; cr_stderr : string; cr_combined : string; cr_err : option string }.

(** ** Conventional goals *)

(* src: internal/cycle/gates/polish.go 123-127 hasConventionalPrefix *)
Definition conventional_prefixes : list string :=
  [ "feat:"; "fix:"; "refactor:"; "docs:"; "test:"; "chore:"; "sec:"; "ci:"; "build:"; "perf:"; "style:" ].

(* src: internal/cycle/gates/polish.go 123-134 hasConventionalPrefix *)
Definition hasConventionalPrefix (s : string) : bool := existsb (HasPrefix s) conventional_prefixes.

(* src: internal/cycle/gates/commit.go 58-68 deriveCommitMessage *)
Definition deriveCommitMessage (goal : string) (cycleNum : Z) : string :=
  let goal := TrimSpace goal in
  let goal := if String.eqb goal "" then "autonomous cycle step" else goal in
  let goal := if negb (hasConventionalPrefix goal) then "refactor: " +:+ goal else goal in
  goal +:+ " [cycle-" +:+ Itoa cycleNum +:+ "]".

(* src: internal/cycle/gates/audit.go 57-64 truncateOutput *)
Definition truncateOutput (s : string) (maxRunes : nat) : string :=
  if (String.length s <=? maxRunes)%nat then s
  else "...truncated..." +:+ String (byte_of 10) "" +:+ slice_from s (String.length s - maxRunes).

(** ** Walking a diff *)

(** [\s] of RE2. *)
Definition re_space (c : ascii) : bool :=
  let n := byte_val c in (n =? 32)%Z || (n =? 9)%Z || (n =? 10)%Z || (n =? 12)%Z || (n =? 13)%Z.
(** [\w] of RE2. *)
Definition re_word (c : ascii) : bool :=
  in_range 97 122 c || in_range 65 90 c || in_range 48 57 c || (byte_val c =? 95)%Z.

(** [p] and then the rest of the string. *)
Definition strip (p s : string) : option string := if HasPrefix s p then Some (slice_from s (String.length p)) else None.
Definition skip_spaces (s : string) : string := trim_left re_space s.

Fixpoint span_word (s : string) : string * string :=
  match s with
  | "" => ("", "")
  | String c s' => if re_word c then let '(w, r) := span_word s' in (String c w, r) else ("", s)
  end.

(** At least one space, then what follows the run. *)
Definition some_spaces (s : string) : option string :=
  match s with String c _ => if re_space c then Some (skip_spaces s) else None | "" => None end.

(* src: internal/cycle/gates/philosophy.go 15-18 opElseRe *)
Definition opElseRe (line : string) : bool :=
  match strip "+" line with
  | None => false
  | Some s => match strip "}" (skip_spaces s) with
              | None => false
              | Some s => match strip "else" (skip_spaces s) with
                          | None => false
                          | Some s => HasPrefix (skip_spaces s) "{"
                          end
              end
  end.

(** The declared name. *)
(* src: internal/cycle/gates/philosophy.go 18 constDeclRe *)
Definition constDeclRe (line : string) : option string :=
  match strip "+" line with
  | None => None
  | Some s => match strip "const" (skip_spaces s) with
              | None => None
              | Some s => match some_spaces s with
                          | None => None
                          | Some s => let '(name, _) := span_word s in if String.eqb name "" then None else Some name
                          end
              end
  end.

(* src: internal/cycle/gates/philosophy.go 19 funcDeclRe *)
Definition funcDeclRe (line : string) : bool :=
  match strip "+" line with
  | None => false
  | Some s => match strip "func" (skip_spaces s) with
              | None => false
              | Some s => match some_spaces s with Some _ => true | None => false end
              end
  end.

(** Digits and then [c], at the start of [s]. *)
Definition digits_then (c : ascii) (s : string) : option string :=
  match span_digits s with
  | ("", _) => None
  | (_, String d r) => if Ascii.eqb c d then Some r else None
  | _ => None
  end.

Definition version_at (s : string) : bool :=
  match strip (String dquote "") s with
  | None => false
  | Some s => match digits_then "." s with
              | None => false
              | Some s => match digits_then "." s with
                          | None => false
                          | Some s => match digits_then dquote s with Some _ => true | None => false end
                          end
              end
  end.

(* src: internal/cycle/gates/philosophy.go 20 versionRe *)
Fixpoint versionRe (s : string) : bool :=
  version_at s || match s with "" => false | String _ s' => versionRe s' end.

(* src: internal/cycle/gates/philosophy.go 82-88 addedLine *)
Record addedLine := mkAdded { al_file : string; al_no : Z; al_text : string }.

(* src: internal/cycle/gates/philosophy.go 143-155 newFileFromGitHeader *)
Definition newFileFromGitHeader (line : string) : string :=
  let rest := match strip "diff --git " line with Some r => r | None => line end in
  let i := Index rest " b/" in
  if (0 <=? i)%Z then slice_from rest (Z.to_nat i + 3) else "".

(** [fmt.Sscanf(s, "%d", &n)] with [n] initially 0: optional spaces and sign, then
    digits that fit an int64. *)
Definition Sscanf_d (s : string) : Z :=
  let s := trim_left is_space s in
  let '(neg, s) := match s with
                   | String c r => if Ascii.eqb c "-" then (true, r) else if Ascii.eqb c "+" then (false, r) else (false, s)
                   | "" => (false, s)
                   end in
  match span_digits s with
  | ("", _) => 0%Z
  | (d, _) => let n := if neg then (- uint_val 0 d)%Z else uint_val 0 d in if in_int64 n then n else 0%Z
  end.

(* src: internal/cycle/gates/philosophy.go 157-174 parseHunkStart *)
Definition parseHunkStart (hunk : string) : Z :=
  let idx := Index hunk "+" in
  if (idx <? 0)%Z then 0%Z
  else
    let sub := slice_from hunk (Z.to_nat idx + 1) in
    let comma := Index sub "," in
    let space := Index sub " " in
    let sub := if (0 <=? comma)%Z then slice sub 0 (Z.to_nat comma)
               else if (0 <=? space)%Z then slice sub 0 (Z.to_nat space) else sub in
    Sscanf_d sub.

Definition tab : string := String (byte_of 9) "".

Section Walk.
Context {A : Type}.
(** The two callbacks, as transformers of the scanner's own state. *)
Variable onFileBoundary : A -> A.
Variable fn : A -> addedLine -> A.

Record WalkState := mkWalk { ws_file : string; ws_lineNo : Z; ws_sawHunk : bool; ws_acc : A }.

(* src: internal/cycle/gates/philosophy.go 107-139 forEachAddedLine *)
Definition walk_line (s : WalkState) (line : string) : WalkState :=
  if HasPrefix line "diff --git" then
    mkWalk (newFileFromGitHeader line) 0 false (onFileBoundary (ws_acc s))
  else if negb (ws_sawHunk s) && HasPrefix line "+++ " then
    match strip "+++ b/" line with
    | Some p => mkWalk (trim_right (Ascii.eqb (byte_of 9)) p) (ws_lineNo s) (ws_sawHunk s) (ws_acc s)
    | None => s
    end
  else if HasPrefix line "@@" then mkWalk (ws_file s) (parseHunkStart line - 1) true (ws_acc s)
  else if HasPrefix line "+" then
    let no := (ws_lineNo s + 1)%Z in
    mkWalk (ws_file s) no (ws_sawHunk s) (fn (ws_acc s) (mkAdded (ws_file s) no line))
  else s.

(* src: internal/cycle/gates/philosophy.go 90-141 forEachAddedLine *)
Definition forEachAddedLine (acc : A) (diff : string) : A :=
  ws_acc (foldl walk_line (mkWalk "" 0 false acc) (Split diff (byte_of 10))).
End Walk.
Arguments WalkState : clear implicits.

(* src: internal/cycle/gates/philosophy.go 176-191 scanROP *)
Definition scanROP (diff : string) : list Violation :=
  forEachAddedLine id (fun vs a =>
    if opElseRe (al_text a)
    then (vs ++ [mkViolation (al_file a) (al_no a) "rop" "consider early return instead of else-after-return" None])%list
    else vs) [] diff.

(** The state is the violations and the constants seen in this file. *)
(* src: internal/cycle/gates/philosophy.go 193-216 scanSSOT *)
Definition scanSSOT (diff : string) : list Violation :=
  fst (forEachAddedLine (fun '(vs, _) => (vs, ∅)) (fun '(vs, seen) a =>
    match constDeclRe (al_text a) with
    | None => (vs, seen)
    | Some name =>
        let vs := match (seen : gmap string Z) !! name with
                  | Some prev =>
                      (vs ++ [mkViolation (al_file a) (al_no a) "ssot"
                                ("const " +:+ name +:+ " duplicates declaration at line " +:+ Itoa prev) None])%list
                  | None => vs
                  end in
        (vs, <[name := al_no a]> seen)
    end) ([], ∅) diff).

(** [strings.Count] of a one-byte string. *)
Fixpoint count_byte (c : ascii) (s : string) : Z :=
  match s with "" => 0 | String d s' => (if Ascii.eqb c d then 1 else 0) + count_byte c s' end%Z.

(* src: internal/cycle/gates/philosophy.go 221-233 scanSRP *)
Record SRPState := mkSRP { srp_vs : list Violation; srp_start : Z; srp_depth : Z; srp_in : bool }.

(* src: internal/cycle/gates/philosophy.go 224-234 scanSRP *)
Definition checkLength (s : SRPState) (a : addedLine) : SRPState :=
  let length := (al_no a - srp_start s + 1)%Z in
  if (60 <? length)%Z then
    mkSRP (srp_vs s ++ [mkViolation (al_file a) (srp_start s) "srp"
             ("function spans ~" +:+ Itoa length +:+ " added lines; consider decomposition") None])%list
      (srp_start s) (srp_depth s) (srp_in s)
  else s.

(* src: internal/cycle/gates/philosophy.go 235-253 scanSRP *)
Definition srp_line (s : SRPState) (a : addedLine) : SRPState :=
  let s := if funcDeclRe (al_text a)
           then let s := if srp_in s then checkLength s a else s in mkSRP (srp_vs s) (al_no a) 0 true
           else s in
  if srp_in s then
    let depth := (srp_depth s + count_byte "{" (al_text a) - count_byte "}" (al_text a))%Z in
    let s := mkSRP (srp_vs s) (srp_start s) depth true in
    if (depth <=? 0)%Z && ContainsByte (al_text a) "}" then
      let s := checkLength s a in mkSRP (srp_vs s) (srp_start s) (srp_depth s) false
    else s
  else s.

(* src: internal/cycle/gates/philosophy.go 218-256 scanSRP *)
Definition scanSRP (diff : string) : list Violation :=
  srp_vs (forEachAddedLine (fun s => mkSRP (srp_vs s) (srp_start s) (srp_depth s) false) srp_line (mkSRP [] 0 0 false) diff).

(* src: internal/cycle/gates/philosophy.go 258-276 scanHardcodedVersions *)
Definition scanHardcodedVersions (diff : string) : list Violation :=
  forEachAddedLine id (fun vs a =>
    if Contains (al_file a) "_test.go" then vs
    else if versionRe (al_text a)
    then (vs ++ [mkViolation (al_file a) (al_no a) "hardcoded-version"
                   "version literal detected; consider externalising to a constant or config" None])%list
    else vs) [] diff.

(** All four scanners, in order. *)
(* src: internal/cycle/gates/philosophy.go 44-48 PhilosophyGate.Run *)
Definition philosophy_violations (diff : string) : list Violation :=
  (scanROP diff ++ scanSSOT diff ++ scanSRP diff ++ scanHardcodedVersions diff)%list.

(** ** The gates *)

Section Gates.
Context {World : Type}.
Variable exec : World -> list string -> World * CmdResult.
Variable file_exists : World -> string -> bool.
Variable clock : World -> Z.

Definition gate_report (name : string) : GateReport := mkGateReport name false 0 "" "" [] [].

(** [report.DurationMS = elapsed(start)] *)
Definition timed (w : World) (start : Z) (r : GateReport) : GateReport := r <| g_DurationMS := (clock w - start)%Z |>.

Definition failed (r : GateReport) (stderr : string) : GateReport := r <| g_Passed := false |> <| g_Stderr := stderr |>.

(** The command a git query runs, and its trimmed output. *)
(* src: internal/cycle/gates/preflight.go 90-112 gitBranch *)
Definition git_output (w : World) (args : list string) (label : string) : World * (string + string) :=
  let '(w, r) := exec w ("git" :: args) in
  (w, match cr_err r with Some e => inl (label +:+ ": " +:+ e) | None => inr (TrimSpace (cr_stdout r)) end).

(* src: internal/cycle/gates/preflight.go 90-96 gitBranch *)
Definition gitBranch (w : World) : World * (string + string) := git_output w ["branch"; "--show-current"] "git branch".

(* src: internal/cycle/gates/preflight.go 98-104 gitIsClean *)
Definition gitIsClean (w : World) : World * (string + bool) :=
  let '(w, r) := git_output w ["status"; "--porcelain"] "git status" in
  (w, match r with inl e => inl e | inr out => inr (String.eqb out "") end).

(* src: internal/cycle/gates/preflight.go 106-112 gitHead *)
Definition gitHead (w : World) : World * (string + string) := git_output w ["rev-parse"; "HEAD"] "git rev-parse".

(** The error, if any. *)
(* src: internal/cycle/gates/preflight.go 114-135 sshAuthCheck *)
Definition sshAuthCheck (w : World) : World * option string :=
  let '(w, remote) := exec w ["git"; "remote"; "get-url"; "origin"] in
  match cr_err remote with
  | Some _ => (w, None)
  | None =>
      let url := TrimSpace (cr_stdout remote) in
      let host := if Contains url "gitlab.com" then "gitlab.com"
                  else if Contains url "bitbucket.org" then "bitbucket.org" else "github.com" in
      let '(w, r) := exec w ["ssh"; "-T"; "-o"; "BatchMode=yes"; "-o"; "ConnectTimeout=5"; "git@" +:+ host] in
      match cr_err r with
      | Some e => if negb (Contains (cr_combined r) "successfully authenticated")
                  then (w, Some ("ssh auth to " +:+ host +:+ ": " +:+ e +:+ " (" +:+ TrimSpace (cr_combined r) +:+ ")"))
                  else (w, None)
      | None => (w, None)
      end
  end.

Definition preflight_failure (w : World) (start : Z) (state : CycleState) (stderr : string)
    : World * (GateResult * CycleState) :=
  (w, (GateFailure (timed w start (failed (gate_report "preflight") stderr)) HaltPreflightFailed, state)).

(* src: internal/cycle/gates/preflight.go 21-83 PreflightGate.Run *)
Definition PreflightGate_Run (w : World) (state : CycleState) : World * (GateResult * CycleState) :=
  let start := clock w in
  let '(w, branch) := gitBranch w in
  match branch with
  | inl e => preflight_failure w start state e
  | inr branch =>
      if String.eqb branch "main" || String.eqb branch "master"
      then preflight_failure w start state ("branch " +:+ String dquote "" +:+ branch +:+ String dquote "" +:+ " is forbidden")
      else
        let state := state <| s_Branch := branch |> in
        let '(w, clean) := gitIsClean w in
        match clean with
        | inl e => preflight_failure w start state e
        | inr false => preflight_failure w start state "working tree is not clean; commit or stash changes first"
        | inr true =>
            let '(w, sha) := gitHead w in
            match sha with
            | inl e => preflight_failure w start state e
            | inr sha =>
                let state := if String.eqb (s_BaselineSHA state) "" then state <| s_BaselineSHA := sha |> else state in
                if String.eqb (TrimSpace (s_NextCycleGoal state)) "" then preflight_failure w start state "next_cycle_goal is empty"
                else
                  let '(w, ssh) := sshAuthCheck w in
                  match ssh with
                  | Some e => (w, (GateWarning (timed w start ((gate_report "preflight") <| g_Stderr := e |> <| g_Passed := true |>)), state))
                  | None => (w, (GateSuccess (timed w start ((gate_report "preflight") <| g_Passed := true |>)), state))
                  end
            end
        end
  end.

(** [argv] is not empty at either caller. *)
(* src: internal/cycle/gates/command.go 42-62 runShellGate *)
Definition runShellGate (w : World) (argv : list string) (label : string) (report : GateReport) (start : Z)
    (state : CycleState) : World * (GateResult * CycleState) :=
  let '(w, r) := exec w argv in
  let report := timed w start (report <| g_Stdout := truncateOutput (cr_combined r) 4000 |>) in
  match cr_err r with
  | Some e => (w, (GateFailure (failed report (label +:+ " failed: " +:+ e)) HaltGateFailure, state))
  | None => (w, (GateSuccess (report <| g_Passed := true |>), state))
  end.

(** The command of an override: [None] when it is set to white space only. *)
(* src: internal/cycle/gates/audit.go 40-51 AuditGate.Run *)
Definition override_cmd (default_cmd override : string) : option string :=
  if String.eqb override "" then Some default_cmd
  else let trimmed := TrimSpace override in if String.eqb trimmed "" then None else Some trimmed.

(* src: internal/cycle/gates/audit.go 12-13 defaultAuditCmd *)
Definition defaultAuditCmd : string := "make check-all".

(* src: internal/cycle/gates/audit.go 32-55 AuditGate.Run *)
Definition AuditGate_Run (CmdOverride : string) (w : World) (state : CycleState) : World * (GateResult * CycleState) :=
  let start := clock w in
  let report := gate_report "audit" in
  match override_cmd defaultAuditCmd CmdOverride with
  | None =>
      (w, (GateFailure (timed w start (failed report
         "audit_cmd override is set but contains only whitespace — cannot silently revert to default; set it to a valid command or leave it unset"))
         HaltGateFailure, state))
  | Some rawCmd => runShellGate w (Fields rawCmd) rawCmd report start state
  end.

(* src: internal/cycle/gates/audit.go 72-78 LocalAuditGate.Run *)
Definition LocalAuditGate_Run (w : World) (state : CycleState) : World * (GateResult * CycleState) :=
  runShellGate w ["make"; "check"] "make check" (gate_report "local-audit") (clock w) state.

(* src: internal/cycle/gates/command.go 26-40 CommandGate.Run *)
Definition CommandGate_Run (RawCmd : string) (w : World) (state : CycleState) : World * (GateResult * CycleState) :=
  let start := clock w in
  let report := gate_report ("cmd:" +:+ RawCmd) in
  match Fields RawCmd with
  | [] => (w, (GateFailure (timed w start (failed report "empty command")) HaltGateFailure, state))
  | parts => runShellGate w parts ("command " +:+ String dquote "" +:+ RawCmd +:+ String dquote "") report start state
  end.

(** The verdict and the two outputs. *)
(* src: internal/cycle/gates/claim.go 72-91 runClaimCheck *)
Definition runClaimCheck (w : World) (check : ViolationCheck) : World * (bool * string * string) :=
  let '(w, r) := exec w ["sh"; "-c"; vc_Command check] in
  match cr_err r with
  | Some e => (w, (false, cr_stdout r, cr_stderr r +:+ "claim check failed: " +:+ e +:+ String (byte_of 10) ""))
  | None =>
      let output := cr_stdout r +:+ cr_stderr r in
      (w, (if String.eqb (vc_Expected check) "" then true else Contains output (vc_Expected check), cr_stdout r, cr_stderr r))
  end.

(** The loop: the checks made, and the outputs joined. *)
(* src: internal/cycle/gates/claim.go 30-42 ClaimGate.Run *)
Fixpoint claim_checks (w : World) (vs : list Violation) : World * (list ClaimCheck * string * string) :=
  match vs with
  | [] => (w, ([], "", ""))
  | v :: rest =>
      match v_Check v with
      | None => claim_checks w rest
      | Some check =>
          if String.eqb (vc_Command check) "" then claim_checks w rest
          else
            let '(w, (verified, out, errOut)) := runClaimCheck w check in
            let '(w, (checks, outs, errs)) := claim_checks w rest in
            (w, (mkClaimCheck v verified :: checks, out +:+ outs, errOut +:+ errs))
      end
  end.

(* src: internal/cycle/gates/claim.go 24-69 ClaimGate.Run *)
Definition ClaimGate_Run (w : World) (state : CycleState) : World * (GateResult * CycleState) :=
  let start := clock w in
  let '(w, (checks, out, errOut)) := claim_checks w (s_ViolationsFound state) in
  let refuted := map cc_Violation (List.filter (fun c => negb (cc_Verified c)) checks) in
  let report := mkGateReport "claim" (match refuted with [] => true | _ => false end) (clock w - start) out errOut refuted checks in
  let state := value (AppendReport (clock w) state report) in
  (w, (if negb (g_Passed report) then GateFailure report HaltGateFailure else GateSuccess report, state)).

(* src: internal/cycle/gates/philosophy.go 71-80 gitDiffSince *)
Definition gitDiffSince (w : World) (baselineSHA : string) : World * (string + string) :=
  if String.eqb baselineSHA "" then (w, inr "")
  else
    let '(w, r) := exec w ["git"; "diff"; baselineSHA] in
    (w, match cr_err r with Some e => inl ("git diff: " +:+ e) | None => inr (cr_stdout r) end).

(* src: internal/cycle/gates/philosophy.go 31-69 PhilosophyGate.Run *)
Definition PhilosophyGate_Run (w : World) (state : CycleState) : World * (GateResult * CycleState) :=
  let start := clock w in
  let report := gate_report "philosophy" in
  let '(w, diff) := gitDiffSince w (s_BaselineSHA state) in
  match diff with
  | inl e => (w, (GateFailure (timed w start (failed report e)) HaltGateFailure, state))
  | inr diff =>
      let violations := philosophy_violations diff in
      let report := timed w start (report <| g_Violations := violations |>) in
      match violations with
      | [] => (w, (GateSuccess (report <| g_Passed := true |>), state <| s_ViolationsFound := [] |>))
      | _ =>
          let found := List.length violations in
          let report := failed report ("found " +:+ Itoa (Z.of_nat found) +:+ " philosophy violation(s)") in
          let before := List.length (s_ViolationsFound state) in
          if (0 <? before)%nat && (before <? found)%nat then (w, (GateFailure report HaltSelfAuditViolation, state))
          else (w, (GateWarning report, state <| s_ViolationsFound := violations |>))
      end
  end.

(* src: internal/cycle/gates/polish.go 15-16 defaultPolishTestCmd *)
Definition defaultPolishTestCmd : string := "go test -race ./...".
(* src: internal/cycle/gates/polish.go 74-77 ansiScript *)
Definition ansiScript : string := "scripts/check-no-raw-ansi.sh".

Definition polish_violation (message : string) : Violation := mkViolation "" 0 "polish" message None.

(** The third check. *)
(* src: internal/cycle/gates/polish.go 87-99 PolishGate.Run *)
Definition goal_violations (goal : string) : list Violation :=
  let goal := TrimSpace goal in
  if String.eqb goal "" then [polish_violation "next_cycle_goal is empty; cannot derive conventional commit message"]
  else if negb (hasConventionalPrefix goal)
  then [polish_violation "next_cycle_goal lacks conventional commit prefix (feat:/fix:/refactor:/docs:/test:/chore:/sec:/ci:/build:/perf:/style:)"]
  else [].

(** The error of [runCheck]; [%v] of the arguments is their list in brackets. *)
(* src: internal/cycle/gates/polish.go 114-121 runCheck *)
Definition runCheck (w : World) (name : string) (args : list string) : World * option string :=
  let '(w, r) := exec w (name :: args) in
  (w, match cr_err r with
      | Some e => Some (name +:+ " [" +:+ Join args " " +:+ "]: " +:+ e +:+ " (" +:+ TrimSpace (cr_combined r) +:+ ")")
      | None => None
      end).

(* src: internal/cycle/gates/polish.go 74-85 PolishGate.Run *)
Definition ansi_violations (w : World) : World * list Violation :=
  if file_exists w ansiScript then
    let '(w, e) := runCheck w "bash" [ansiScript] in
    (w, match e with Some e => [polish_violation (truncateOutput ("raw ANSI check failed: " +:+ e) 500)] | None => [] end)
  else (w, []).

(* src: internal/cycle/gates/polish.go 42-112 PolishGate.Run *)
Definition PolishGate_Run (TestCmdOverride : string) (w : World) (state : CycleState) : World * (GateResult * CycleState) :=
  let start := clock w in
  let report := gate_report "polish" in
  match override_cmd defaultPolishTestCmd TestCmdOverride with
  | None =>
      (w, (GateFailure (timed w start (failed report
         "polish_test_cmd override is set but contains only whitespace — cannot silently revert to default; set it to a valid command or leave it unset"))
         HaltGateFailure, state))
  | Some rawCmd =>
      let '(w, r) := exec w (Fields rawCmd) in
      let test_vs := match cr_err r with
                     | Some e => [polish_violation (truncateOutput ("tests failed (" +:+ rawCmd +:+ "): " +:+ e +:+ " (" +:+ TrimSpace (cr_combined r) +:+ ")") 500)]
                     | None => []
                     end in
      let '(w, ansi_vs) := ansi_violations w in
      let violations := (test_vs ++ ansi_vs ++ goal_violations (s_NextCycleGoal state))%list in
      let report := timed w start (report <| g_Violations := violations |>) in
      match violations with
      | [] => (w, (GateSuccess (report <| g_Passed := true |>), state))
      | _ => (w, (GateFailure (failed report ("polish found " +:+ Itoa (Z.of_nat (List.length violations)) +:+ " issue(s)")) HaltGateFailure, state))
      end
  end.

(* src: internal/cycle/gates/commit.go 21-56 CommitGate.Run *)
Definition CommitGate_Run (w : World) (state : CycleState) : World * (GateResult * CycleState) :=
  let start := clock w in
  let report := gate_report "commit" in
  let msg := deriveCommitMessage (s_NextCycleGoal state) (s_CompletedCycles state + 1) in
  let '(w, add) := exec w ["git"; "add"; "-A"] in
  match cr_err add with
  | Some e =>
      (w, (GateFailure (timed w start (failed report ("git add failed: " +:+ e +:+ " (" +:+ TrimSpace (cr_combined add) +:+ ")"))) HaltGateFailure, state))
  | None =>
      let '(w, r) := exec w ["git"; "commit"; "-m"; msg] in
      let report := timed w start (report <| g_Stdout := cr_combined r |>) in
      match cr_err r with
      | Some e =>
          if Contains (cr_combined r) "nothing to commit"
          then (w, (GateSuccess (report <| g_Passed := true |> <| g_Stdout := "nothing to commit, working tree clean" |>), state))
          else (w, (GateFailure (failed report ("git commit failed: " +:+ e)) HaltGateFailure, state))
      | None => (w, (GateSuccess (report <| g_Passed := true |>), state))
      end
  end.

(* src: internal/cycle/gates/pipeline.go 5-34 StandardPipeline *)
Definition StandardPipeline (auditCmd polishTestCmd : string) (localGates : list string) : Pipeline World :=
  ([ mkGate "preflight" PreflightGate_Run; mkGate "audit" (AuditGate_Run auditCmd) ] ++
   map (fun rawCmd => mkGate ("cmd:" +:+ rawCmd) (CommandGate_Run rawCmd)) localGates ++
   [ mkGate "claim" ClaimGate_Run; mkGate "philosophy" PhilosophyGate_Run;
     mkGate "polish" (PolishGate_Run polishTestCmd); mkGate "commit" CommitGate_Run ])%list.
End Gates.

(** ** Finding the next goal *)

Section AutoGoal.
Context {World : Type}.
Variable exec : World -> list string -> World * CmdResult.
(** The error of the context after a command ran, and whether the error of a command is
    an exit status. *)
Variable ctx_err : World -> option string.
Variable is_exit : string -> bool.
Variable file_exists : World -> string -> bool.
Variable read_file : World -> string -> option string.

(** The error that says discovery could not run; [None] when the output is to be
    parsed. *)
(* src: internal/cycle/autogoal.go 73-87 classifyRunErr *)
Definition classifyRunErr (w : World) (label : string) (e : option string) : option string :=
  match ctx_err w with
  | Some c => Some (label +:+ ": " +:+ c)
  | None => match e with
            | Some e => if negb (is_exit e) then Some (label +:+ ": " +:+ e) else None
            | None => None
            end
  end.

Fixpoint first_goal (goal_of : string -> option string) (lines : list string) : string :=
  match lines with
  | [] => ""
  | l :: rest => match goal_of l with Some g => g | None => first_goal goal_of rest end
  end.

(* src: internal/cycle/autogoal.go 101-112 parseGoVetOutput *)
Definition parseGoVetOutput (out : string) : string :=
  first_goal (fun line => let line := TrimSpace line in
                          if String.eqb line "" then None else Some ("fix(vet): " +:+ line)) (Split out (byte_of 10)).

(* src: internal/cycle/autogoal.go 132-142 parseLintOutput *)
Definition parseLintOutput (out : string) : string :=
  first_goal (fun line => let line := TrimSpace line in
                          if String.eqb line "" || HasPrefix line "level=" then None else Some ("fix(lint): " +:+ line))
    (Split out (byte_of 10)).

(** The first line, from 1, that holds a marker. *)
(* src: internal/cycle/autogoal.go 166-171 scanFilesForTODOs *)
Fixpoint todo_line (i : Z) (lines : list string) : option Z :=
  match lines with
  | [] => None
  | l :: rest => if Contains l "TODO" || Contains l "FIXME" then Some i else todo_line (i + 1) rest
  end.

(* src: internal/cycle/autogoal.go 157-174 scanFilesForTODOs *)
Definition scanFilesForTODOs (w : World) (out : string) : string :=
  first_goal (fun file =>
    if negb (HasSuffix file ".go") then None
    else match read_file w file with
         | None => None
         | Some content => option_map (fun i => "fix(todo): " +:+ file +:+ ":" +:+ Itoa i) (todo_line 1 (Split content (byte_of 10)))
         end) (Split (TrimSpace out) (byte_of 10)).

(* src: internal/cycle/autogoal.go 89-99 runGoVet *)
Definition runGoVet (w : World) : World * (string + string) :=
  let '(w, r) := exec w ["go"; "vet"; "./..."] in
  (w, match classifyRunErr w "go vet" (cr_err r) with Some e => inl e | None => inr (parseGoVetOutput (cr_combined r)) end).

(* src: internal/cycle/autogoal.go 114-130 runGolangciLintFast *)
Definition runGolangciLintFast (w : World) : World * (string + string) :=
  let bin := if file_exists w ".toolchain/bin/golangci-lint" then ".toolchain/bin/golangci-lint" else "golangci-lint" in
  let '(w, r) := exec w [bin; "run"; "--fast-only"] in
  (w, match classifyRunErr w "golangci-lint" (cr_err r) with Some e => inl e | None => inr (parseLintOutput (cr_combined r)) end).

(* src: internal/cycle/autogoal.go 144-154 scanTODOs *)
Definition scanTODOs (w : World) : World * (string + string) :=
  let '(w, r) := exec w ["git"; "diff"; "--name-only"; "HEAD~1"] in
  (w, match cr_err r with Some e => inl e | None => inr (scanFilesForTODOs w (cr_combined r)) end).

(** The loop over the strategies; the errors when none of them ran. *)
(* src: internal/cycle/autogoal.go 43-62 discoverNextGoalWithRunner *)
Fixpoint try_strategies (l : list (World -> World * (string + string))) (ranAny : bool) (errs : list string) (w : World)
    : World * (list string + string) :=
  match l with
  | [] => (w, if ranAny then inr "" else inl errs)
  | run :: rest =>
      let '(w, r) := run w in
      match r with
      | inl e => try_strategies rest ranAny (errs ++ [e])%list w
      | inr goal => if negb (String.eqb goal "") then (w, inr goal) else try_strategies rest true errs w
      end
  end.

(* src: internal/cycle/autogoal.go 33-63 discoverNextGoalWithRunner *)
Definition discoverNextGoal (w : World) : World * (list string + string) :=
  try_strategies [runGoVet; runGolangciLintFast; scanTODOs] false [] w.
End AutoGoal.

(** ** Commands *)

(** The words of a trimmed command: there is one unless it is empty. *)
Lemma Fields_trimmed s : TrimSpace s <> "" -> Fields (TrimSpace s) <> [].
Proof.
  unfold TrimSpace. pose proof (trim_left_head is_space s) as H. destruct (trim_left is_space s) as [|c r]; [done|].
  destruct (trim_right_head is_space c r H) as [r' ->]. intros _. unfold Fields. cbn [fields_raw].
  destruct (fields_raw r') as [w ws]. by rewrite H.
Qed.

Lemma override_cmd_argv d o cmd : Fields d <> [] -> override_cmd d o = Some cmd -> Fields cmd <> [].
Proof.
  intros Hd. unfold override_cmd. destruct (String.eqb o ""); [by intros [= <-]|].
  destruct (String.eqb_spec (TrimSpace o) "") as [|Hne]; [done|]. intros [= <-]. by apply Fields_trimmed.
Qed.

(** ** The gates are framed *)

Section Framed.
Context {World : Type} (exec : World -> list string -> World * CmdResult).
Context (file_exists : World -> string -> bool) (clock : World -> Z).

Lemma shell_state w argv label r start s w' res s' :
  runShellGate exec clock w argv label r start s = (w', (res, s')) -> s' = s.
Proof. unfold runShellGate. destruct (exec w argv) as [w1 c]. case_match; intros; by simplify_eq. Qed.

#[export] Instance framed_preflight : FramedGate (mkGate "preflight" (PreflightGate_Run exec clock)).
Proof.
  intros w s w' r s'. cbn. unfold PreflightGate_Run, preflight_failure. intros H.
  repeat case_match; simplify_eq; by split.
Qed.

#[export] Instance framed_audit c : FramedGate (mkGate "audit" (AuditGate_Run exec clock c)).
Proof. intros w s w' r s'. cbn. unfold AuditGate_Run. case_match; [intros ->%shell_state|intros [= <- <- <-]]; reflexivity. Qed.

#[export] Instance framed_command n c : FramedGate (mkGate n (CommandGate_Run exec clock c)).
Proof. intros w s w' r s'. cbn. unfold CommandGate_Run. case_match; [intros [= <- <- <-]|intros ->%shell_state]; reflexivity. Qed.

#[export] Instance framed_claim : FramedGate (mkGate "claim" (ClaimGate_Run exec clock)).
Proof.
  intros w s w' r s'. cbn. unfold ClaimGate_Run. destruct (claim_checks _ _ _) as [w1 [[checks out] errOut]].
  intros [= <- <- <-]. by split.
Qed.

#[export] Instance framed_philosophy : FramedGate (mkGate "philosophy" (PhilosophyGate_Run exec clock)).
Proof.
  intros w s w' r s'. cbn. unfold PhilosophyGate_Run. destruct (gitDiffSince _ _ _) as [w1 [e|diff]]; [by intros [= <- <- <-]|].
  repeat case_match; intros [= <- <- <-]; by split.
Qed.

#[export] Instance framed_polish c : FramedGate (mkGate "polish" (PolishGate_Run exec file_exists clock c)).
Proof.
  intros w s w' r s'. cbn. unfold PolishGate_Run. case_match; [|by intros [= <- <- <-]].
  destruct (exec _ _) as [w1 c1]. destruct (ansi_violations _ _ _) as [w2 vs]. case_match; intros [= <- <- <-]; reflexivity.
Qed.

#[export] Instance framed_commit : FramedGate (mkGate "commit" (CommitGate_Run exec clock)).
Proof.
  intros w s w' r s'. cbn. unfold CommitGate_Run. destruct (exec _ _) as [w1 c1]. case_match; [by intros [= <- <- <-]|].
  destruct (exec _ _) as [w2 c2]. repeat case_match; intros [= <- <- <-]; reflexivity.
Qed.

#[export] Instance framed_commands gates :
  FramedPipeline (map (fun rawCmd => mkGate ("cmd:" +:+ rawCmd) (CommandGate_Run exec clock rawCmd)) gates).
Proof. induction gates; cbn; apply _. Qed.

#[export] Instance framed_standard auditCmd polishCmd gates :
  FramedPipeline (StandardPipeline exec file_exists clock auditCmd polishCmd gates).
Proof. unfold StandardPipeline. apply _. Qed.
End Framed.

(** ** Goals and commit messages *)

Lemma conventional_app p s : hasConventionalPrefix p = true -> hasConventionalPrefix (p +:+ s) = true.
Proof.
  unfold hasConventionalPrefix. rewrite !existsb_exists. intros (x & Hx & (r & ->)%HasPrefix_spec).
  exists x. split; [done|]. apply HasPrefix_spec. exists (r +:+ s). by rewrite string_app_assoc.
Qed.

(** Every commit message is a conventional one for its cycle: it starts with one of
    the prefixes and ends with the cycle number; and the message of a goal that passes
    the polish gate is the trimmed goal itself with the number. *)
Theorem deriveCommitMessage_spec goal n :
  hasConventionalPrefix (deriveCommitMessage goal n) = true /\
  HasSuffix (deriveCommitMessage goal n) (" [cycle-" +:+ Itoa n +:+ "]") = true /\
  (goal_violations goal = [] -> deriveCommitMessage goal n = TrimSpace goal +:+ " [cycle-" +:+ Itoa n +:+ "]").
Proof.
  unfold deriveCommitMessage, goal_violations. set (g := if String.eqb (TrimSpace goal) "" then _ else TrimSpace goal).
  split_and!.
  - apply conventional_app. destruct (hasConventionalPrefix g) eqn:E; cbn [negb]; [done|]. by apply conventional_app.
  - apply HasSuffix_spec. eauto.
  - subst g. destruct (String.eqb (TrimSpace goal) ""); [done|]. by destruct (hasConventionalPrefix (TrimSpace goal)).
Qed.

Lemma deriveCommitMessage_spec_witness : deriveCommitMessage " fix: parser " 3 = "fix: parser [cycle-3]".
Proof. apply (proj2 (proj2 (deriveCommitMessage_spec " fix: parser " 3))). reflexivity. Defined.

(** Goals of the form [fix(..): ..]. *)
Definition scoped_fix (goal : string) : Prop := exists s, goal = "fix(" +:+ s.

Lemma scoped_fix_rejected goal : scoped_fix goal -> goal_violations goal <> [].
Proof.
  intros [s ->]. unfold goal_violations, TrimSpace.
  assert (E : trim_right is_space (trim_left is_space ("fix(" +:+ s)) = "fix(" +:+ trim_right is_space s).
  { cbn [String.append]. rewrite trim_left_stop by done. apply (trim_right_app is_space "fix(" s). done. }
  rewrite E. cbn [String.append]. unfold hasConventionalPrefix, HasPrefix. cbn. done.
Qed.

Lemma first_goal_scoped f lines :
  (forall l g, f l = Some g -> scoped_fix g) -> first_goal f lines <> "" -> scoped_fix (first_goal f lines).
Proof.
  intros Hf. induction lines as [|l lines IH]; cbn; [done|]. destruct (f l) eqn:E; [intros _; by eapply Hf|done].
Qed.

Section Discovery.
Context {World : Type} (exec : World -> list string -> World * CmdResult).
Context (file_exists : World -> string -> bool) (clock : World -> Z).
Context (ctx_err : World -> option string) (is_exit : string -> bool) (read_file : World -> string -> option string).

Definition scoped_strategy (run : World -> World * (string + string)) : Prop :=
  forall w w' g, run w = (w', inr g) -> g <> "" -> scoped_fix g.

Lemma try_strategies_scoped l ran errs w w' g :
  Forall scoped_strategy l -> try_strategies l ran errs w = (w', inr g) -> g <> "" -> scoped_fix g.
Proof.
  intros Hl. revert ran errs w. induction Hl as [|run l Hrun _ IH]; intros ran errs w; cbn.
  - destruct ran; [by intros [= <- <-]|done].
  - destruct (run w) as [w1 [e|g1]] eqn:E; [by apply IH|]. destruct (String.eqb_spec g1 ""); cbn; [by apply IH|].
    intros [= <- <-]. by eapply Hrun.
Qed.

Lemma vet_scoped : scoped_strategy (runGoVet exec ctx_err is_exit).
Proof.
  intros w w' g. unfold runGoVet. destruct (exec _ _) as [w1 r]. case_match; [done|]. intros [= <- <-].
  apply first_goal_scoped. intros l g0. cbv beta zeta. case_match; [done|]. intros [= <-]. by eexists.
Qed.

Lemma lint_scoped : scoped_strategy (runGolangciLintFast exec ctx_err is_exit file_exists).
Proof.
  intros w w' g. unfold runGolangciLintFast. destruct (exec _ _) as [w1 r]. case_match; [done|]. intros [= <- <-].
  apply first_goal_scoped. intros l g0. cbv beta zeta. case_match; [done|]. intros [= <-]. by eexists.
Qed.

Lemma todo_scoped : scoped_strategy (scanTODOs exec read_file).
Proof.
  intros w w' g. unfold scanTODOs. destruct (exec _ _) as [w1 r]. case_match; [done|]. intros [= <- <-].
  apply first_goal_scoped. intros l g0. cbv beta. case_match; [done|]. destruct (read_file w1 l); [|done].
  destruct (todo_line _ _); [|done]. intros [= <-]. by eexists.
Qed.

Lemma discovered_scoped w w' g :
  discoverNextGoal exec ctx_err is_exit file_exists read_file w = (w', inr g) -> g <> "" -> scoped_fix g.
Proof.
  apply try_strategies_scoped. repeat constructor; [apply vet_scoped|apply lint_scoped|apply todo_scoped].
Qed.

(** A goal that goal discovery finds never passes the polish gate.  The goals are
    [fix(vet): ..], [fix(lint): ..] and [fix(todo): ..], and the gate accepts [fix:] but
    no prefix with a scope: whatever the commands answer, the gate fails the cycle that
    adopted such a goal. *)
Theorem discovered_goal_fails_polish w w' goal cmd w1 state w2 result state' :
  discoverNextGoal exec ctx_err is_exit file_exists read_file w = (w', inr goal) -> goal <> "" ->
  s_NextCycleGoal state = goal ->
  PolishGate_Run exec file_exists clock cmd w1 state = (w2, (result, state')) ->
  exists rep, result = GateFailure rep HaltGateFailure.
Proof.
  intros Hd Hne Hg. apply discovered_scoped in Hd; [|done]. apply scoped_fix_rejected in Hd. unfold PolishGate_Run.
  case_match; [|intros [= _ <- _]; eauto]. destruct (exec _ _) as [w3 r]. destruct (ansi_violations _ _ _) as [w4 vs].
  rewrite Hg. case_match; [|intros [= _ <- _]; eauto].
  apply app_eq_nil in H0 as [_ [_ ?]%app_eq_nil]. done.
Qed.
End Discovery.

Definition quiet_exec (_ : unit) (argv : list string) : unit * CmdResult :=
  (tt, match argv with
       | "go" :: "vet" :: _ => mkCmd "" "" "a.go:1:2: shadowed variable" (Some "exit status 1")
       | _ => mkCmd "" "" "" None
       end).
Definition demo_state (goal : string) : CycleState :=
  match NewState 0 (mkNewCycleRequest goal "" 3 0 true [] [] "" "" None) "c1" with inr s => s | inl _ => CycleState_zero end.

Definition demo_polish : unit * (GateResult * CycleState) :=
  PolishGate_Run quiet_exec (fun _ _ => false) (fun _ => 0%Z) "" tt (demo_state "fix(vet): a.go:1:2: shadowed variable").

Lemma discovered_goal_fails_polish_witness : exists rep, fst (snd demo_polish) = GateFailure rep HaltGateFailure.
Proof.
  apply (discovered_goal_fails_polish quiet_exec (fun _ _ => false) (fun _ => 0%Z) (fun _ => None) (fun _ => true) (fun _ _ => None)
           tt tt "fix(vet): a.go:1:2: shadowed variable" "" tt (demo_state "fix(vet): a.go:1:2: shadowed variable")
           tt (fst (snd demo_polish)) (snd (snd demo_polish))).
  - vm_compute. reflexivity.
  - discriminate.
  - vm_compute. reflexivity.
  - vm_compute. reflexivity.
Defined.

(** ** Line numbers *)

(** A line of a hunk: context, removed or added. *)
Definition hunk_line (l : string) : bool := HasPrefix l " " || HasPrefix l "-" || HasPrefix l "+".

(** The numbers the walk gives to the added lines of a hunk, and the numbers they have in
    the new file, when the first line of the hunk has number [n]. *)
Fixpoint walked (file : string) (n : Z) (body : list string) : list addedLine :=
  match body with
  | [] => []
  | l :: r => if HasPrefix l "+" then mkAdded file n l :: walked file (n + 1) r else walked file n r
  end.

Fixpoint in_new_file (file : string) (n : Z) (body : list string) : list addedLine :=
  match body with
  | [] => []
  | l :: r => if HasPrefix l "+" then mkAdded file n l :: in_new_file file (n + 1) r
              else if HasPrefix l "-" then in_new_file file n r else in_new_file file (n + 1) r
  end.

Definition collect (acc : list addedLine) (a : addedLine) : list addedLine := (acc ++ [a])%list.

Lemma hunk_line_cases l :
  hunk_line l = true -> HasPrefix l "diff --git" = false /\ HasPrefix l "@@" = false.
Proof.
  unfold hunk_line, HasPrefix. destruct l as [|c l]; [done|]. cbn [String.prefix].
  destruct (ascii_dec " " c) as [<-|]; [done|]. destruct (ascii_dec "-" c) as [<-|]; [done|].
  destruct (ascii_dec "+" c) as [<-|]; [done|]. done.
Qed.

Lemma walk_hunk file n acc body :
  forallb hunk_line body = true ->
  ws_acc (foldl (walk_line id collect) (mkWalk file (n - 1) true acc) body) = (acc ++ walked file n body)%list.
Proof.
  revert n acc. induction body as [|l body IH]; intros n acc; cbn [forallb foldl]; [by rewrite app_nil_r|].
  intros [Hl Hb]%andb_true_iff. destruct (hunk_line_cases _ Hl) as [H1 H2].
  unfold walk_line at 2. cbn [ws_file ws_lineNo ws_sawHunk ws_acc]. rewrite H1, H2. cbn [negb andb walked].
  destruct (HasPrefix l "+"); [|by apply IH].
  specialize (IH (n + 1)%Z (collect acc (mkAdded file n l)) Hb).
  replace (n + 1 - 1)%Z with n in IH by lia. replace (n - 1 + 1)%Z with n by lia.
  rewrite IH. unfold collect. by rewrite <- app_assoc.
Qed.

Definition is_context (l : string) : bool := HasPrefix l " ".

(** How many context lines precede the added line number [k]. *)
Lemma walked_lag file n body k a :
  forallb hunk_line body = true -> walked file n body !! k = Some a ->
  exists i a', body !! i = Some (al_text a) /\ in_new_file file n body !! k = Some a' /\ al_text a' = al_text a /\
    al_no a' = (al_no a + Z.of_nat (List.length (List.filter is_context (take i body))))%Z.
Proof.
  assert (G : forall m, forallb hunk_line body = true -> walked file n body !! k = Some a ->
    exists i a', body !! i = Some (al_text a) /\ in_new_file file (n + m) body !! k = Some a' /\ al_text a' = al_text a /\
      al_no a' = (al_no a + m + Z.of_nat (List.length (List.filter is_context (take i body))))%Z).
  2: { intros H1 H2. destruct (G 0%Z H1 H2) as (i & a' & ? & H & ? & ?). exists i, a'. rewrite Z.add_0_r in H. split_and!; [done..|lia]. }
  revert n k. induction body as [|l body IH]; intros n k m; cbn [forallb walked in_new_file]; [done|].
  intros [Hl Hb]%andb_true_iff. destruct (HasPrefix l "+") eqn:Hp.
  - assert (Hc : is_context l = false).
    { unfold is_context. apply HasPrefix_spec in Hp as [r ->]. done. }
    destruct k as [|k]; cbn.
    + intros [= <-]. exists 0%nat, (mkAdded file (n + m) l). cbn. split_and!; [done..|lia].
    + intros H. destruct (IH (n + 1)%Z k m Hb H) as (i & a' & H1 & H2 & H3 & H4).
      exists (S i), a'. cbn. rewrite Hc. replace (n + m + 1)%Z with (n + 1 + m)%Z by lia. by split_and!.
  - intros H. destruct (HasPrefix l "-") eqn:Hm.
    + assert (Hc : is_context l = false).
      { unfold is_context. apply HasPrefix_spec in Hm as [r ->]. done. }
      destruct (IH n k m Hb H) as (i & a' & H1 & H2 & H3 & H4). exists (S i), a'. cbn. rewrite Hc. by split_and!.
    + assert (Hc : is_context l = true) by (unfold is_context, hunk_line in *; rewrite Hp, Hm in Hl; by rewrite !orb_false_r in Hl).
      destruct (IH n k (m + 1)%Z Hb H) as (i & a' & H1 & H2 & H3 & H4). exists (S i), a'. cbn. rewrite Hc. cbn.
      replace (n + m + 1)%Z with (n + (m + 1))%Z by lia. split_and!; [done..|]. lia.
Qed.

(** The line numbers of the philosophy scanners lag behind.  The walk counts added
    lines only, so in a hunk the number it gives to an added line is its number in the
    new file less the context lines above it in the hunk: with the three context lines
    [git diff] prints by default the reported lines are wrong. *)
Theorem added_line_numbers_lag s h body k a :
  HasPrefix h "@@" = true -> forallb hunk_line body = true ->
  ws_acc (foldl (walk_line id collect) s (h :: body)) !! (List.length (ws_acc s) + k)%nat = Some a ->
  exists i a', body !! i = Some (al_text a) /\
    in_new_file (ws_file s) (parseHunkStart h) body !! k = Some a' /\ al_text a' = al_text a /\
    al_no a' = (al_no a + Z.of_nat (List.length (List.filter is_context (take i body))))%Z.
Proof.
  intros Hh Hb H. cbn [foldl] in H. unfold walk_line at 2 in H.
  assert (H1 : HasPrefix h "diff --git" = false /\ HasPrefix h "+++ " = false).
  { apply HasPrefix_spec in Hh as [r ->]. done. }
  destruct H1 as [H1 H2]. rewrite H1, H2, Hh, andb_false_r in H. rewrite walk_hunk in H by done.
  rewrite lookup_app_r in H by lia. replace (_ + k - _)%nat with k in H by lia. by eapply walked_lag.
Qed.

Lemma added_line_numbers_lag_witness :
  exists i a', [" package p"; "+const X = 1"] !! i = Some "+const X = 1" /\
    in_new_file "p.go" 7 [" package p"; "+const X = 1"] !! 0%nat = Some a' /\ al_text a' = "+const X = 1" /\
    al_no a' = (7 + Z.of_nat (List.length (List.filter is_context (take i [" package p"; "+const X = 1"]))))%Z.
Proof.
  apply (added_line_numbers_lag (mkWalk "p.go" 0 false []) "@@ -7,1 +7,2 @@" [" package p"; "+const X = 1"] 0
           (mkAdded "p.go" 7 "+const X = 1")); vm_compute; reflexivity.
Defined.

(** ** Commands, claims and drift *)

Section Argv.
Context {World : Type} (exec exec' : World -> list string -> World * CmdResult).
Context (file_exists : World -> string -> bool) (clock : World -> Z).
Hypothesis agree : forall w c args, exec w (c :: args) = exec' w (c :: args).

Definition same_gate (g g' : Gate World) : Prop := forall w s, gate_Run g w s = gate_Run g' w s.

Lemma execute_same p p' w s acc : Forall2 same_gate p p' -> execute_from clock p w s acc = execute_from clock p' w s acc.
Proof.
  intros H. revert w s acc. induction H as [|g g' p p' Hg _ IH]; intros w s acc; [done|].
  cbn [execute_from]. rewrite Hg. destruct (gate_Run g' w s) as [w1 [r s1]]. by destruct r.
Qed.

Lemma git_output_same w args label : git_output exec w args label = git_output exec' w args label.
Proof. unfold git_output. by rewrite agree. Qed.

Lemma ssh_same w : sshAuthCheck exec w = sshAuthCheck exec' w.
Proof. unfold sshAuthCheck. rewrite agree. destruct (exec' w _) as [w1 r]. case_match; [done|]. by rewrite agree. Qed.

Lemma preflight_same : same_gate (mkGate "preflight" (PreflightGate_Run exec clock)) (mkGate "preflight" (PreflightGate_Run exec' clock)).
Proof.
  intros w s. cbn. unfold PreflightGate_Run, gitBranch, gitIsClean, gitHead. rewrite git_output_same.
  destruct (git_output exec' w _ _) as [w1 [e|b]]; [done|]. case_match; [done|]. rewrite git_output_same.
  destruct (git_output exec' w1 _ _) as [w2 [e|out]]; [done|]. destruct (String.eqb out ""); [|done]. rewrite git_output_same.
  destruct (git_output exec' w2 _ _) as [w3 [e|sha]]; [done|]. by rewrite ssh_same.
Qed.

Lemma shell_same w argv label r start s :
  argv <> [] -> runShellGate exec clock w argv label r start s = runShellGate exec' clock w argv label r start s.
Proof. destruct argv as [|c args]; [done|]. intros _. unfold runShellGate. by rewrite agree. Qed.

Lemma audit_same c : same_gate (mkGate "audit" (AuditGate_Run exec clock c)) (mkGate "audit" (AuditGate_Run exec' clock c)).
Proof.
  intros w s. cbn. unfold AuditGate_Run. destruct (override_cmd _ c) as [raw|] eqn:E; [|done].
  apply shell_same. apply override_cmd_argv in E; [done|by vm_compute].
Qed.

Lemma command_same n c : same_gate (mkGate n (CommandGate_Run exec clock c)) (mkGate n (CommandGate_Run exec' clock c)).
Proof. intros w s. cbn. unfold CommandGate_Run. destruct (Fields c); [done|]. by apply shell_same. Qed.

Lemma claim_same : same_gate (mkGate "claim" (ClaimGate_Run exec clock)) (mkGate "claim" (ClaimGate_Run exec' clock)).
Proof.
  intros w s. cbn. unfold ClaimGate_Run.
  enough (E : forall vs w, claim_checks exec w vs = claim_checks exec' w vs) by by rewrite E.
  induction vs as [|v vs IH]; intros w0; cbn; [done|]. destruct (v_Check v) as [c|]; [|done]. case_match; [done|].
  unfold runClaimCheck. rewrite agree. destruct (exec' w0 _) as [w1 r]. case_match; by rewrite IH.
Qed.

Lemma philosophy_same : same_gate (mkGate "philosophy" (PhilosophyGate_Run exec clock)) (mkGate "philosophy" (PhilosophyGate_Run exec' clock)).
Proof. intros w s. cbn. unfold PhilosophyGate_Run, gitDiffSince. destruct (String.eqb (s_BaselineSHA s) ""); [done|]. by rewrite agree. Qed.

Lemma polish_same c : same_gate (mkGate "polish" (PolishGate_Run exec file_exists clock c)) (mkGate "polish" (PolishGate_Run exec' file_exists clock c)).
Proof.
  intros w s. cbn. unfold PolishGate_Run. destruct (override_cmd _ c) as [raw|] eqn:E; [|done].
  apply override_cmd_argv in E; [|by vm_compute]. destruct (Fields raw) as [|x args]; [done|]. rewrite agree.
  destruct (exec' w _) as [w1 r]. unfold ansi_violations, runCheck. destruct (file_exists w1 ansiScript); [|done]. by rewrite agree.
Qed.

Lemma commit_same : same_gate (mkGate "commit" (CommitGate_Run exec clock)) (mkGate "commit" (CommitGate_Run exec' clock)).
Proof.
  intros w s. cbn. unfold CommitGate_Run. rewrite agree. destruct (exec' w _) as [w1 r]. case_match; [done|]. by rewrite agree.
Qed.

Lemma standard_same auditCmd polishCmd gates :
  Forall2 same_gate (StandardPipeline exec file_exists clock auditCmd polishCmd gates)
    (StandardPipeline exec' file_exists clock auditCmd polishCmd gates).
Proof.
  unfold StandardPipeline. apply Forall2_app; [repeat constructor; [apply preflight_same|apply audit_same]|].
  apply Forall2_app; [induction gates; cbn; constructor; [apply command_same|done]|].
  repeat constructor; [apply claim_same|apply philosophy_same|apply polish_same|apply commit_same].
Qed.
End Argv.

(** No gate of the standard pipeline indexes an empty argument vector.  What a
    pipeline does cannot depend on how the world would answer one, whatever the
    configured commands are: a command of white space is refused before it runs. *)
Theorem pipeline_argv_nonempty {World} (exec exec' : World -> list string -> World * CmdResult) file_exists clock
    auditCmd polishCmd gates w s :
  (forall w c args, exec w (c :: args) = exec' w (c :: args)) ->
  Execute clock (StandardPipeline exec file_exists clock auditCmd polishCmd gates) w s =
  Execute clock (StandardPipeline exec' file_exists clock auditCmd polishCmd gates) w s.
Proof. intros H. by apply execute_same, standard_same. Qed.

Definition broken_exec (w : unit) (argv : list string) : unit * CmdResult :=
  match argv with [] => (tt, mkCmd "" "" "" (Some "panic")) | _ => quiet_exec w argv end.

Lemma pipeline_argv_nonempty_witness :
  Execute (fun _ => 0%Z) (StandardPipeline quiet_exec (fun _ _ => false) (fun _ => 0%Z) " " "" [" "]) tt (demo_state "fix: a") =
  Execute (fun _ => 0%Z) (StandardPipeline broken_exec (fun _ _ => false) (fun _ => 0%Z) " " "" [" "]) tt (demo_state "fix: a").
Proof. apply (pipeline_argv_nonempty quiet_exec broken_exec). reflexivity. Defined.

Lemma claim_checks_map {World} (exec : World -> list string -> World * CmdResult) vs w w' checks out errs :
  claim_checks exec w vs = (w', (checks, out, errs)) ->
  map cc_Violation checks = List.filter (fun v => match v_Check v with Some c => negb (String.eqb (vc_Command c) "") | None => false end) vs.
Proof.
  revert w checks out errs. induction vs as [|v vs IH]; intros w checks out errs; cbn; [by intros [= <- <- <- <-]|].
  destruct (v_Check v) as [c|]; [|apply IH]. destruct (String.eqb (vc_Command c) ""); cbn; [apply IH|].
  destruct (runClaimCheck exec w c) as [w1 [[ver o] e]]. destruct (claim_checks exec w1 vs) as [w2 [[cs os] es]] eqn:E.
  intros [= <- <- <- <-]. cbn. f_equal. by eapply IH.
Qed.

(** The claim gate re-checks every claim that has a command, in order, and passes
    exactly when none is refuted; it reports the refuted violations and adds its report
    to the history; nothing else changes. *)
Theorem ClaimGate_spec {World} (exec : World -> list string -> World * CmdResult) clock w s w' result s' :
  ClaimGate_Run exec clock w s = (w', (result, s')) ->
  let report := Report result in
  map cc_Violation (g_ClaimChecks report) =
    List.filter (fun v => match v_Check v with Some c => negb (String.eqb (vc_Command c) "") | None => false end) (s_ViolationsFound s) /\
  g_Violations report = map cc_Violation (List.filter (fun c => negb (cc_Verified c)) (g_ClaimChecks report)) /\
  (result = GateSuccess report /\ g_Violations report = [] \/
   result = GateFailure report HaltGateFailure /\ g_Violations report <> []) /\
  s' = s <| s_History := (s_History s ++ [report])%list |> <| s_UpdatedAt := clock w' |>.
Proof.
  unfold ClaimGate_Run. destruct (claim_checks exec w (s_ViolationsFound s)) as [w1 [[checks out] errs]] eqn:E.
  apply claim_checks_map in E. set (refuted := map cc_Violation _). cbn [g_Passed].
  destruct refuted as [|v r] eqn:Er; cbn [negb]; intros [= <- <- <-]; cbn; (split_and!; [done|done| |done]); [by left|by right].
Qed.

Definition demo_claims : CycleState :=
  (demo_state "fix: a") <| s_ViolationsFound := [mkViolation "a.go" 1 "bug" "m" (Some (mkViolationCheck "true" "")); polish_violation "p"] |>.

Lemma ClaimGate_spec_witness :
  let result := fst (snd (ClaimGate_Run quiet_exec (fun _ => 0%Z) tt demo_claims)) in
  map cc_Violation (g_ClaimChecks (Report result)) = [mkViolation "a.go" 1 "bug" "m" (Some (mkViolationCheck "true" ""))].
Proof.
  cbv zeta. rewrite (proj1 (ClaimGate_spec quiet_exec (fun _ => 0%Z) tt demo_claims tt
    (fst (snd (ClaimGate_Run quiet_exec (fun _ => 0%Z) tt demo_claims))) (snd (snd (ClaimGate_Run quiet_exec (fun _ => 0%Z) tt demo_claims))) eq_refl)).
  reflexivity.
Defined.

(** Philosophy violations never grow unnoticed.  When the gate lets the cycle go on,
    the recorded violations are those of the diff since the baseline, and there are no
    more of them than before unless there were none; it halts with
    [self-audit-violation] exactly on such growth. *)
Theorem PhilosophyGate_drift {World} (exec : World -> list string -> World * CmdResult) clock w s w' result s' :
  PhilosophyGate_Run exec clock w s = (w', (result, s')) ->
  match result with
  | GateFailure _ HaltSelfAuditViolation =>
      s' = s /\ (0 < List.length (s_ViolationsFound s) < List.length (g_Violations (Report result)))%nat
  | GateFailure rep reason => s' = s /\ reason = HaltGateFailure /\ g_Violations rep = []
  | _ =>
      s_ViolationsFound s' = g_Violations (Report result) /\
      (s_ViolationsFound s = [] \/ (List.length (s_ViolationsFound s') <= List.length (s_ViolationsFound s))%nat)
  end.
Proof.
  unfold PhilosophyGate_Run. destruct (gitDiffSince exec w (s_BaselineSHA s)) as [w1 [e|diff]]; [by intros [= <- <- <-]|].
  destruct (philosophy_violations diff) as [|v vs]; [intros [= <- <- <-]; cbn; split; [done|right; lia]|].
  destruct (Nat.ltb_spec 0 (List.length (s_ViolationsFound s))) as [H0|H0]; cbn [andb].
  - destruct (Nat.ltb_spec (List.length (s_ViolationsFound s)) (List.length (v :: vs))) as [H1|H1]; intros [= <- <- <-]; cbn in *; split; auto.
  - intros [= <- <- <-]. cbn. split; [done|]. left. destruct (s_ViolationsFound s); [done|cbn in H0; lia].
Qed.

Lemma PhilosophyGate_drift_witness :
  s_ViolationsFound (snd (snd (PhilosophyGate_Run quiet_exec (fun _ => 0%Z) tt (demo_state "fix: a")))) = [].
Proof.
  refine (proj1 (PhilosophyGate_drift quiet_exec (fun _ => 0%Z) tt (demo_state "fix: a") tt
    (GateSuccess ((gate_report "philosophy") <| g_Passed := true |>)) (snd (snd (PhilosophyGate_Run quiet_exec (fun _ => 0%Z) tt (demo_state "fix: a")))) _)).
  reflexivity.
Defined.
