(* ===== verification/Adapter.v ===== *)
(** * Agent adapters

    [internal/adapter]: the prompt that carries a turn request to the command line of an
    agent, the answer found in what it prints, the diagnosis of its failures, the registry;
    [internal/adapter/claude] and [kimi], which run the program.

    The program is an operation of an abstract world: an argument list, to what it printed
    and how it ended.  Text functions are on ASCII, as in [GoStrings]. *)

From stdpp Require Import sorting.
From S2P Require Import Prelude Gates GoStrings Json Codec Contract Stuck Turns.
From Stdlib Require Import Ascii String.
#[local] Open Scope string_scope.

Definition nl : string := String (byte_of 10) "".
Definition backtick : ascii := byte_of 96.
Definition fence : string := String backtick (String backtick (String backtick "")).

(** ** The prompt *)

(* src: internal/adapter/prompt.go 15-25 promptRequest *)
Record promptRequest := mkPromptRequest {
  pr_Turn : Z; pr_Role : string; pr_RuntimeHint : string; pr_Budget : Budget; pr_LastTurn : option LastTurn;
  pr_Task : Task; pr_Scratch : string }.
#[export] Instance eta_promptRequest : Eta promptRequest := fun r =>
  mkPromptRequest (pr_Turn r) (pr_Role r) (pr_RuntimeHint r) (pr_Budget r) (pr_LastTurn r) (pr_Task r) (pr_Scratch r).

(* src: internal/adapter/prompt.go 15-25 promptRequest *)
Definition promptRequest_fields : list (Field promptRequest) :=
  [ Tag "turn" pr_Turn enc_int into_int;
    Tag "role" pr_Role enc_string into_string;
    Tag "runtime_hint" pr_RuntimeHint enc_string into_string;
    Tag "budget" pr_Budget (enc_struct Budget_fields) (into_struct Budget_fields);
    Tag "last_turn" pr_LastTurn (opt_ptr (encode_struct LastTurn_fields))
      (into_ptr LastTurn_zero (into_struct LastTurn_fields));
    Tag "task" pr_Task (enc_struct Task_fields) (into_struct Task_fields);
    Tag "scratch" pr_Scratch opt_string into_string ].
Definition promptRequest_zero := mkPromptRequest 0 "" "" Budget_zero None Task_zero "".

(* src: internal/adapter/prompt.go 27-37 BuildPrompt *)
Definition slim (req : TurnRequest) : promptRequest :=
  mkPromptRequest (tq_Turn req) (tq_Role req) (tq_RuntimeHint req) (tq_Budget req) (tq_LastTurn req) (tq_Task req) (tq_Scratch req).

Definition prompt_data (req : TurnRequest) : string := encode (encode_struct promptRequest_fields (slim req)).

Definition prompt_hints (req : TurnRequest) : string :=
  "You are a turn-taking agent in a multi-agent system." +:+
  (if String.eqb (tq_ModelHint req) "" then ""
   else nl +:+ "Model hint: use model " +:+ Quote (tq_ModelHint req) +:+ " for this turn." +:+ nl) +:+
  (if String.eqb (tq_Scratch req) "" then ""
   else nl +:+ nl +:+ "Shared scratchpad (read-only context from prior turns):" +:+ nl +:+ nl +:+ tq_Scratch req +:+ nl) +:+
  (match tq_LastTurn req with
   | None => ""
   | Some l =>
       if String.eqb (lt_Intent l) HandoffIntentCrossCheck then
         nl +:+ nl +:+ "Handoff intent: CROSS-CHECK the previous turn. Read the listed Artifacts and the original Task fresh. Do not accept the previous Summary at face value; look for mistakes, gaps, and contradictions." +:+ nl
       else
         nl +:+ nl +:+ "Handoff intent: CONTINUE the previous turn. Use the previous Summary as working state; Artifacts are context for your next step." +:+ nl
   end).

Definition prompt_rules : string :=
  nl +:+ nl +:+ "Respond with a JSON object conforming to the TurnResponse schema, wrapped in a fenced code block." +:+ nl +:+ nl +:+
  "TurnResponse fields:" +:+ nl +:+ "- done (bool)" +:+ nl +:+ "- handoff_to (string, optional)" +:+ nl +:+
  "- handoff_intent (string: continue or cross_check, optional)" +:+ nl +:+ "- summary (string)" +:+ nl +:+
  "- artifacts (array of strings, optional)" +:+ nl +:+ "- self_eval (string: confident, uncertain, blocked)" +:+ nl +:+
  "- notes_for_human (string, optional)" +:+ nl +:+ "- usage (object with tokens_in, tokens_out, ms, optional)" +:+ nl +:+
  "- claims (array of violations, optional)" +:+ nl +:+ nl +:+ "Do not include any text outside the fenced JSON block.".

(* src: internal/adapter/prompt.go 27-63 BuildPrompt *)
Definition BuildPrompt (req : TurnRequest) : string :=
  prompt_hints req +:+ nl +:+ nl +:+ "The following JSON is your TurnRequest:" +:+ nl +:+ nl +:+ fence +:+ "json" +:+ nl +:+
  prompt_data req +:+ nl +:+ fence +:+ prompt_rules.

(** ** The answer *)

(** The text before the first fence, and the text after it. *)
Fixpoint cut_fence (s : string) : option (string * string) :=
  if String.prefix fence s then Some ("", slice_from s 3)
  else match s with
       | "" => None
       | String c s' => match cut_fence s' with Some (a, b) => Some (String c a, b) | None => None end
       end.

(** [(?:json)?\s*], which matches greedily. *)
Definition after_open (s : string) : string :=
  trim_left re_space (if HasPrefix s "json" then slice_from s 4 else s).

(** The first group of each match of [jsonBlockRegex]: an opening fence, and the text up to
    the next one. *)
(* src: internal/adapter/prompt.go 13-13 jsonBlockRegex *)
Fixpoint fences (fuel : nat) (s : string) : list string :=
  match fuel with
  | O => []
  | S fuel =>
      match cut_fence s with
      | None => []
      | Some (_, r) => match cut_fence (after_open r) with None => [] | Some (body, rest) => body :: fences fuel rest end
      end
  end.
Definition all_fences (s : string) : list string := fences (S (String.length s)) s.

(** The bytes up to the brace that closes the first one, from depth [depth] on. *)
(* src: internal/adapter/prompt.go 95-128 lastBalancedObject *)
Fixpoint close (s : string) (depth : nat) (inStr esc : bool) (n : nat) : option nat :=
  match s with
  | "" => None
  | String c r =>
      if inStr then
        if esc then close r depth true false (S n)
        else if Ascii.eqb c "\" then close r depth true true (S n)
        else if Ascii.eqb c dquote then close r depth false false (S n)
        else close r depth true false (S n)
      else if Ascii.eqb c dquote then close r depth true false (S n)
      else if Ascii.eqb c "{" then close r (S depth) false false (S n)
      else if Ascii.eqb c "}" then
        match depth with S O => Some (S n) | S d => close r d false false (S n) | O => close r O false false (S n) end
      else close r depth false false (S n)
  end.

(* src: internal/adapter/prompt.go 85-131 lastBalancedObject *)
Fixpoint last_balanced (fuel : nat) (s : string) (best : option string) : option string :=
  match fuel, s with
  | O, _ | _, "" => best
  | S fuel, String c r =>
      if Ascii.eqb c "{" then
        match close s 0 false false 0 with
        | Some n => last_balanced fuel (slice_from s n) (Some (slice s 0 n))
        | None => last_balanced fuel r best
        end
      else last_balanced fuel r best
  end.
Definition lastBalancedObject (s : string) : option string := last_balanced (S (String.length s)) s None.

Inductive AnswerError : Set := ErrUnmarshal | ErrNoResponse.

(** [resp] is the zero value, as every caller passes it. *)
Definition unmarshal_response (data : string) : option TurnResponse := Unmarshal TurnResponse_zero (into_struct TurnResponse_fields) data.

(* src: internal/adapter/prompt.go 65-83 ParseLastJSONBlock *)
Definition ParseLastJSONBlock (out : string) : AnswerError + TurnResponse :=
  match last (all_fences out) with
  | Some block => match unmarshal_response block with Some resp => inr resp | None => inl ErrUnmarshal end
  | None =>
      match lastBalancedObject out with
      | Some obj => match unmarshal_response obj with Some resp => inr resp | None => inl ErrNoResponse end
      | None => inl ErrNoResponse
      end
  end.

(** ** Diagnosis *)

Inductive FailureKind : Set := FailureUnknown | FailureUnauthenticated | FailureRateLimited.

(* src: internal/adapter/diagnose.go 23-41 authMarkers *)
Definition authMarkers : list string :=
  [ "not authenticated"; "please log in"; "please run /login"; "run `claude` to log in"; "invalid api key"; "invalid x-api-key";
    "authentication_error"; "authentication failed"; "no api key"; "missing api key"; "401 unauthorized"; "unauthorized: ";
    "credit balance is too low" ].

(* src: internal/adapter/diagnose.go 43-57 rateMarkers *)
Definition rateMarkers : list string :=
  [ "rate limit"; "rate_limit"; "rate-limit"; "429 too many"; "too many requests"; "usage limit"; "overloaded_error";
    "quota exceeded"; "quota exhausted"; "out of quota" ].

(** [None] is [ok == false]. *)
(* src: internal/adapter/diagnose.go 67-81 DiagnoseOutput *)
Definition DiagnoseOutput (tool text : string) : option (string * FailureKind) :=
  let lower := ToLower text in
  if existsb (Contains lower) authMarkers then
    Some (tool +:+ " runtime is not authenticated — run `" +:+ tool +:+
          "` once interactively to log in (or set its API key), then retry", FailureUnauthenticated)
  else if existsb (Contains lower) rateMarkers then
    Some (tool +:+ " runtime hit a rate or usage limit — wait and retry, or check your plan limits", FailureRateLimited)
  else None.

(** The leading continuation bytes are dropped. *)
(* src: internal/adapter/snippet.go 12-25 Snippet *)
Definition Snippet (b : string) (maxLen : nat) : string :=
  let s := TrimSpace b in
  if (String.length s <=? maxLen)%nat then s
  else "…" +:+ trim_left is_cont (slice_from s (String.length s - maxLen)).

(** ** Running an agent *)

(** How the program ended: with a status and what it printed on the error stream, or it
    could not be run. *)
Inductive ExecError : Set := ExitError (text stderr : string) | StartError (text : string).

Inductive TurnError : Set :=
  | EDiagnosed (hint : string) (stderr : option string) | EExit (text stderr : string) | EStart (text : string)
  | EAnswer (e : AnswerError) (output : string).

Section Run.
Context {World : Type}.
(** The program, its arguments, its environment and its directory. *)
Variable output : World -> list string -> list string -> option string -> World * (string * option ExecError).
Variable environ : World -> list string.

(* src: internal/adapter/env.go 8-23 BuildEnv *)
Definition BuildEnv (env : list string) (allowed : list string) : list string :=
  List.filter (fun e => let key := match Split e "=" with k :: _ => k | [] => "" end in
                        existsb (fun a => String.eqb key a || HasPrefix key a) allowed) env.

Definition env_common : list string :=
  [ "PATH"; "HOME"; "LANG"; "TERM"; "USER"; "LOGNAME"; "SHELL"; "TMPDIR"; "XDG_CONFIG_HOME" ].
(* src: internal/adapter/claude/claude.go 21-25 envAllowlist *)
Definition claude_env : list string := (env_common ++ ["ANTHROPIC_"])%list.
(* src: internal/adapter/kimi/kimi.go 21-25 envAllowlist *)
Definition kimi_env : list string := (env_common ++ ["KIMI_"])%list.

(** An agent: the name of its program, the path found for it, the arguments that follow the
    prompt, what it may see of the environment. *)
Record Agent := mkAgent { ag_name : string; ag_binary : string; ag_args : list string; ag_env : list string }.
(* src: internal/adapter/claude/claude.go 61-75 Adapter.buildCmd *)
Definition claude (binary : string) : Agent := mkAgent "claude" binary ["--max-turns=1"] claude_env.
(* src: internal/adapter/kimi/kimi.go 61-75 Adapter.buildCmd *)
Definition kimi (binary : string) : Agent := mkAgent "kimi" binary [] kimi_env.

(* src: internal/adapter/claude/claude.go 77-110 Adapter.Run *)
Definition Run (a : Agent) (w : World) (req : TurnRequest) : World * (TurnError + TurnResponse) :=
  let dir := if String.eqb (tk_RepoRoot (tq_Task req)) "" then None else Some (tk_RepoRoot (tq_Task req)) in
  let '(w, (out, e)) := output w (ag_binary a :: "-p" :: BuildPrompt req :: ag_args a) (BuildEnv (environ w) (ag_env a)) dir in
  (w,
   match e with
   | Some (ExitError text stderr) =>
       inl (match DiagnoseOutput (ag_name a) (out +:+ nl +:+ stderr) with
            | Some (hint, _) => EDiagnosed hint (Some stderr)
            | None => EExit text stderr
            end)
   | Some (StartError text) => inl (EStart text)
   | None =>
       match ParseLastJSONBlock out with
       | inr resp => inr resp
       | inl err =>
           inl (match DiagnoseOutput (ag_name a) out with
                | Some (hint, _) => EDiagnosed hint None
                | None => EAnswer err (Snippet out 2000)
                end)
       end
   end).

(** The two adapters differ in their program alone. *)
(* src: internal/adapter/kimi/kimi.go 77-104 Adapter.Run *)
Definition kimi_Run (binary : string) : World -> TurnRequest -> World * (TurnError + TurnResponse) := Run (kimi binary).

(** ** The registry *)

Definition RunFn : Type := World -> TurnRequest -> World * (TurnError + TurnResponse).
(* src: internal/adapter/adapter.go 19-23 Registry *)
Definition Registry : Type := gmap string RunFn.

(* src: internal/adapter/adapter.go 32-41 Registry.Register *)
Definition Register (r : Registry) (name : string) (a : RunFn) : Registry * option string :=
  match r !! name with
  | Some _ => (r, Some ("adapter " +:+ Quote name +:+ " already registered"))
  | None => (<[name := a]> r, None)
  end.

(* src: internal/adapter/adapter.go 43-49 Registry.Get *)
Definition Get (r : Registry) (name : string) : option RunFn := r !! name.

(* src: internal/adapter/adapter.go 51-61 Registry.Names *)
Definition Names (r : Registry) : list string := sort_strings (map fst (map_to_list r)).
End Run.
Arguments Agent : clear implicits.

(** ** Fenced blocks *)

Lemma no_backtick_cons c s : no_byte backtick (String c s) = negb (Ascii.eqb backtick c) && no_byte backtick s.
Proof. done. Qed.

Lemma prefix_fence_no c s : no_byte backtick (String c "") = true -> String.prefix fence (String c s) = false.
Proof.
  rewrite no_backtick_cons. intros H. apply andb_true_iff in H as [H _]. apply negb_true_iff in H. unfold fence. cbn [String.prefix].
  destruct (ascii_dec backtick c) as [<-|]; [by rewrite Ascii.eqb_refl in H|done].
Qed.

Lemma cut_fence_app a r : no_byte backtick a = true -> cut_fence (a +:+ fence +:+ r) = Some (a, r).
Proof.
  induction a as [|c a IH].
  - intros _. change ("" +:+ fence +:+ r) with (fence +:+ r).
    assert (HP : String.prefix fence (fence +:+ r) = true) by (apply prefix_spec; by eexists).
    pose proof (slice_from_app fence r) as HS. change (String.length fence) with 3%nat in HS. revert HP HS.
    change (fence +:+ r) with (String backtick (String backtick (String backtick r))). intros HP HS. cbn [cut_fence]. rewrite HP. by rewrite HS.
  - intros H. rewrite no_backtick_cons in H. apply andb_true_iff in H as [Hc H]. cbn [String.append cut_fence].
    rewrite prefix_fence_no by (rewrite no_backtick_cons, Hc; done). by rewrite (IH H).
Qed.

Lemma cut_fence_none a : no_byte backtick a = true -> cut_fence a = None.
Proof.
  induction a as [|c a IH]; [done|]. intros H. rewrite no_backtick_cons in H. apply andb_true_iff in H as [Hc H]. cbn [cut_fence].
  rewrite prefix_fence_no by (rewrite no_backtick_cons, Hc; done). by rewrite (IH H).
Qed.

Lemma no_backtick_app a b : no_byte backtick (a +:+ b) = no_byte backtick a && no_byte backtick b.
Proof. apply string_forall_app. Qed.

Lemma trim_left_app f a c b : f c = false -> trim_left f (a +:+ String c b) = trim_left f a +:+ String c b.
Proof. intros Hc. induction a as [|d a IH]; cbn; [by rewrite Hc|]. by destruct (f d). Qed.

Lemma trim_left_no_backtick f a : no_byte backtick a = true -> no_byte backtick (trim_left f a) = true.
Proof.
  induction a as [|c a IH]; [done|]. intros H. pose proof H as H'. rewrite no_backtick_cons in H'. apply andb_true_iff in H' as [_ H'].
  cbn [trim_left]. destruct (f c); [by apply IH|done].
Qed.

(** Skipping the language and the white space stops at the next fence. *)
Lemma after_open_app a r : no_byte backtick a = true -> after_open (a +:+ fence +:+ r) = after_open a +:+ fence +:+ r /\ no_byte backtick (after_open a) = true.
Proof.
  intros Ha. unfold after_open.
  assert (HT : forall x, trim_left re_space (x +:+ fence +:+ r) = trim_left re_space x +:+ fence +:+ r) by (intros x; by apply trim_left_app).
  assert (HJ : HasPrefix (a +:+ fence +:+ r) "json" = HasPrefix a "json").
  { destruct (HasPrefix a "json") eqn:E.
    - apply HasPrefix_spec in E as [x ->]. apply HasPrefix_spec. exists (x +:+ fence +:+ r). by rewrite <-string_app_assoc.
    - apply not_true_iff_false. intros [x Ex]%HasPrefix_spec. apply not_true_iff_false in E. apply E. apply HasPrefix_spec.
      do 4 (destruct a as [|? a]; cbn in Ex; [discriminate Ex|]; injection Ex as <- Ex). by exists a. }
  rewrite HJ. destruct (HasPrefix a "json") eqn:E; [|split; [apply HT|by apply trim_left_no_backtick]].
  apply HasPrefix_spec in E as [x ->]. change 4%nat with (String.length "json"). rewrite <-string_app_assoc, !slice_from_app.
  rewrite no_backtick_app in Ha. apply andb_true_iff in Ha as [_ Ha]. split; [apply HT|by apply trim_left_no_backtick].
Qed.

(** Text with fenced blocks: before each block some text, after the last some text. *)
Definition with_blocks (blocks : list (string * string)) (post : string) : string :=
  fold_right (fun b s => fst b +:+ fence +:+ snd b +:+ fence +:+ s) post blocks.
Definition plain_blocks (blocks : list (string * string)) : bool :=
  forallb (fun b => no_byte backtick (fst b) && no_byte backtick (snd b)) blocks.

Lemma fences_blocks blocks post : plain_blocks blocks = true -> no_byte backtick post = true -> forall fuel, (List.length blocks < fuel)%nat ->
  fences fuel (with_blocks blocks post) = map (fun b => after_open (snd b)) blocks.
Proof.
  intros Hb Hp. induction blocks as [|[pre body] blocks IH]; intros [|fuel] Hf; cbn in Hf; [lia| |lia|].
  - cbn. by rewrite cut_fence_none.
  - cbn [plain_blocks forallb fst snd] in Hb. apply andb_true_iff in Hb as [H1 Hb]. apply andb_true_iff in H1 as [H1 H2].
    cbn [with_blocks fold_right fst snd fences]. fold (with_blocks blocks post). rewrite cut_fence_app by done.
    destruct (after_open_app body (with_blocks blocks post) H2) as [-> H3]. rewrite cut_fence_app by done. cbn [map snd]. f_equal.
    apply IH; [done|lia].
Qed.

Lemma with_blocks_length blocks post : (List.length blocks <= String.length (with_blocks blocks post))%nat.
Proof.
  induction blocks as [|b blocks IH]; cbn [with_blocks fold_right List.length]; [lia|]. fold (with_blocks blocks post).
  rewrite !string_length_app. change (String.length fence) with 3%nat. lia.
Qed.

Lemma all_fences_blocks blocks post : plain_blocks blocks = true -> no_byte backtick post = true ->
  all_fences (with_blocks blocks post) = map (fun b => after_open (snd b)) blocks.
Proof. intros H1 H2. apply fences_blocks; [done..|]. pose proof (with_blocks_length blocks post). lia. Qed.

(** ** Balanced objects *)

(** Bytes that leave the scanner inside a string. *)
Fixpoint in_string (esc : bool) (s : string) : bool :=
  match s with
  | "" => negb esc
  | String c r =>
      if esc then in_string false r
      else if Ascii.eqb c "\" then in_string true r
      else if Ascii.eqb c dquote then false
      else in_string false r
  end.

Lemma in_string_app e a b : in_string e a = true -> in_string false b = true -> in_string e (a +:+ b) = true.
Proof.
  revert e. induction a as [|c a IH]; intros e; cbn; [by destruct e|]. intros Ha Hb. destruct e; [auto|].
  destruct (Ascii.eqb c "\"); [auto|]. destruct (Ascii.eqb c dquote); [done|auto].
Qed.

Lemma close_in_string s r d n : forall e, in_string e s = true -> close (s +:+ r) d true e n = close r d true false (n + String.length s).
Proof.
  revert n. induction s as [|c s IH]; intros n e; cbn [in_string String.append close String.length].
  - destruct e; [done|]. by rewrite Nat.add_0_r.
  - rewrite <-plus_n_Sm. destruct e; [intros H; by rewrite (IH (S n)) by done|].
    destruct (Ascii.eqb c "\"); [intros H; by rewrite (IH (S n)) by done|].
    destruct (Ascii.eqb c dquote); [done|]. intros H. by rewrite (IH (S n)) by done.
Qed.

Lemma escape_byte_in_string c : in_string false (escape_byte c) = true.
Proof. by destruct c as [[] [] [] [] [] [] [] []]. Qed.

(** A byte above the ASCII bytes is no quote and no backslash. *)
Lemma wide_in_string c s : is_wide c = true -> in_string false (String c s) = in_string false s.
Proof.
  intros H%is_wide_spec. cbn [in_string]. destruct (Ascii.eqb_spec c "\") as [->|]; [by vm_compute in H|].
  destruct (Ascii.eqb_spec c dquote) as [->|]; [by vm_compute in H|done].
Qed.

Lemma quote_body_in_string s : in_string false (quote_body s) = true.
Proof.
  remember (String.length s) as n eqn:Hn. revert s Hn.
  induction n as [n IH] using lt_wf_ind. intros [|c s'] Hn; [done|]. cbn [quote_body].
  assert (HIH : forall r, (String.length r <= String.length s')%nat -> in_string false (quote_body r) = true).
  { intros r Hr. eapply IH; [|done]. subst n. cbn [String.length]. lia. }
  destruct (utf8_tail c s') as [[|[|[|k]]]|] eqn:E.
  - apply in_string_app; [apply escape_byte_in_string|by apply HIH].
  - pose proof E as (_ & a & r & -> & _)%utf8_tail_1. apply utf8_tail_wide in E as [Hc Hs].
    cbn [String.substring string_forall String.length] in *. rewrite !andb_true_iff in Hs. destruct Hs as [Hs _].
    rewrite !wide_in_string by done. apply HIH. lia.
  - pose proof E as (_ & a & b & r & -> & _)%utf8_tail_2. apply utf8_tail_wide in E as [Hc Hs].
    cbn [String.substring string_forall String.length] in *. rewrite !andb_true_iff in Hs. destruct Hs as (Ha & Hb & _).
    repeat case_match; [apply in_string_app; [done|apply HIH; lia]..|].
    rewrite !wide_in_string by done. apply HIH. lia.
  - pose proof E as (-> & _ & a & b & d & r & -> & _)%utf8_tail_3. apply utf8_tail_wide in E as [Hc Hs].
    cbn [String.substring string_forall String.length] in *. rewrite !andb_true_iff in Hs. destruct Hs as (Ha & Hb & Hd & _).
    rewrite !wide_in_string by done. apply HIH. lia.
  - apply in_string_app; [done|by apply HIH].
Qed.

(** Text that leaves the scanner at the depth it is at, outside a string. *)
Definition skips (s : string) : Prop := forall r d n,
  close (s +:+ r) (S d) false false n = close r (S d) false false (n + String.length s).

Lemma skips_app a b : skips a -> skips b -> skips (a +:+ b).
Proof. intros Ha Hb r d n. rewrite <-string_app_assoc, Ha, Hb, string_length_app. f_equal. lia. Qed.

Definition plain_byte (c : ascii) : bool := negb (Ascii.eqb c dquote) && negb (Ascii.eqb c "{") && negb (Ascii.eqb c "}").

Lemma skips_plain s : string_forall plain_byte s = true -> skips s.
Proof.
  intros H r d. induction s as [|c s IH]; intros n; [by cbn; rewrite Nat.add_0_r|]. cbn [string_forall] in H.
  apply andb_true_iff in H as [Hc H]. unfold plain_byte in Hc. rewrite !andb_true_iff, !negb_true_iff in Hc. destruct Hc as [[H1 H2] H3].
  cbn [String.append close String.length]. rewrite H1, H2, H3, IH by done. f_equal. lia.
Qed.

Lemma skips_quote s : skips (quote s).
Proof.
  intros r d n. unfold quote. cbn [String.append close]. rewrite <-string_app_assoc. change (Ascii.eqb dquote dquote) with true. cbv iota.
  rewrite close_in_string by apply quote_body_in_string. cbn [String.append close]. change (Ascii.eqb dquote "\") with false.
  change (Ascii.eqb dquote dquote) with true. cbv iota. cbn [String.length]. rewrite string_length_app. cbn [String.length]. f_equal. lia.
Qed.

Lemma skips_Join l : Forall skips l -> skips (Join l ",").
Proof.
  induction 1 as [|x l Hx Hl IH]; [by apply skips_plain|]. destruct l as [|y l]; [done|].
  rewrite Join_cons2. apply skips_app; [done|]. apply skips_app; [by apply skips_plain|done].
Qed.

Lemma skips_braces s : skips s -> skips ("{" +:+ s +:+ "}").
Proof.
  intros H r d n. rewrite <-!string_app_assoc. cbn [String.append close String.length]. rewrite H, string_length_app. cbn [String.append close String.length]. f_equal. lia.
Qed.

Lemma skips_Itoa z : skips (Itoa z).
Proof.
  assert (HP : forall lo hi c, (lo = 48)%Z -> (hi = 57)%Z -> in_range lo hi c = true -> plain_byte c = true).
  { intros ? ? c -> ->. by destruct c as [[] [] [] [] [] [] [] []]. }
  assert (Hd : forall d, string_forall is_digit d = true -> string_forall plain_byte d = true).
  { intros d. apply string_forall_impl. intros c. by apply HP. }
  apply skips_plain. destruct (Itoa_cases z) as [[-> ->]|(c & d & Hall & Hc & [(Hz & -> & Hv)|(Hz & -> & Hv)])]; auto.
  apply Hd in Hall. exact Hall.
Qed.

Lemma skips_members l : Forall (fun kv => skips (encode (snd kv))) l -> skips (Join (map encode_member l) ",").
Proof.
  intros H. apply skips_Join, Forall_map. eapply Forall_impl; [exact H|]. intros kv Hkv. unfold encode_member. cbn beta.
  apply skips_app; [apply skips_quote|]. by apply skips_app; [apply skips_plain|].
Qed.

Lemma skips_encode j : json_wf j = true -> skips (encode j).
Proof.
  induction j as [|b|lit|s|l IH|l IH] using json_nested_ind; cbn [json_wf]; intros Hwf.
  - by apply skips_plain.
  - apply skips_plain. by destruct b.
  - apply int_literal_b_spec in Hwf as [z ->]. apply skips_Itoa.
  - apply skips_quote.
  - cbn [encode]. apply skips_app; [by apply skips_plain|]. apply skips_app; [|by apply skips_plain]. apply skips_Join.
    rewrite forallb_forall in Hwf. apply Forall_forall. intros x (y & -> & Hy)%list_elem_of_fmap.
    rewrite Forall_forall in IH. apply IH; [done|]. by apply Hwf, list_elem_of_In.
  - rewrite encode_obj. apply skips_braces, skips_members. rewrite forallb_forall in Hwf. rewrite Forall_forall in IH |- *.
    intros kv Hkv. apply IH; [done|]. specialize (Hwf kv). rewrite <-list_elem_of_In in Hwf. specialize (Hwf Hkv). by reflect_bools.
Qed.

(** The scanner finds the end of an encoded object, whatever follows. *)
Lemma close_encode l r n : json_wf (JObj l) = true ->
  close (encode (JObj l) +:+ r) 0 false false n = Some (n + String.length (encode (JObj l)))%nat.
Proof.
  intros Hwf. assert (HS : skips (Join (map encode_member l) ",")).
  { apply skips_members, Forall_forall. intros kv Hkv. apply skips_encode. cbn [json_wf] in Hwf. rewrite forallb_forall in Hwf.
    specialize (Hwf kv). rewrite <-list_elem_of_In in Hwf. specialize (Hwf Hkv). by reflect_bools. }
  rewrite encode_obj, <-!string_app_assoc. cbn [String.append close String.length]. rewrite HS, string_length_app.
  cbn [String.append close String.length]. f_equal. lia.
Qed.

(** The text outside the objects of a sequence. *)
Definition with_objects (objs : list (string * list (string * json))) (post : string) : string :=
  fold_right (fun b s => fst b +:+ encode (JObj (snd b)) +:+ s) post objs.
Definition plain_objects (objs : list (string * list (string * json))) : bool :=
  forallb (fun b => no_byte "{" (fst b) && json_wf (JObj (snd b))) objs.

Lemma last_balanced_skip a s f best : no_byte "{" a = true ->
  last_balanced (String.length a + f) (a +:+ s) best = last_balanced f s best.
Proof.
  induction a as [|c a IH]; [done|]. cbn [no_byte string_forall]. intros H. apply andb_true_iff in H as [Hc H].
  cbn [String.length Nat.add String.append last_balanced]. rewrite Ascii.eqb_sym. apply negb_true_iff in Hc. rewrite Hc. by apply IH.
Qed.

Lemma last_balanced_object l s f best : json_wf (JObj l) = true ->
  last_balanced (S f) (encode (JObj l) +:+ s) best = last_balanced f s (Some (encode (JObj l))).
Proof.
  intros Hwf. assert (exists x, encode (JObj l) = String "{" x) as [x Hx] by by eexists.
  pose proof (close_encode l s 0 Hwf) as HC. pose proof (slice_app_mid "" (encode (JObj l)) s) as HS.
  pose proof (slice_from_app (encode (JObj l)) s) as HF. cbn [String.append String.length Nat.add] in HC, HS. rewrite Hx in *.
  cbn [String.append] in *. cbn [last_balanced]. change (Ascii.eqb "{" "{") with true. cbv iota. by rewrite HC, HS, HF.
Qed.

Lemma last_balanced_objects objs post f : plain_objects objs = true -> no_byte "{" post = true -> forall best,
  last_balanced (String.length (with_objects objs post) + f) (with_objects objs post) best =
  match last objs with Some b => Some (encode (JObj (snd b))) | None => best end.
Proof.
  intros Ho Hp. revert f. induction objs as [|[pre l] objs IH]; intros f best.
  - cbn [with_objects fold_right last]. rewrite <-(string_app_nil_r post) at 2. rewrite last_balanced_skip by done. by destruct f.
  - cbn [plain_objects forallb fst snd] in Ho. apply andb_true_iff in Ho as [H1 Ho]. apply andb_true_iff in H1 as [H1 H2].
    cbn [with_objects fold_right fst snd]. fold (with_objects objs post). rewrite !string_length_app, <-Nat.add_assoc.
    rewrite last_balanced_skip by done.
    assert (exists n, String.length (encode (JObj l)) = S n) as [n ->] by by eexists.
    replace (S n + String.length (with_objects objs post) + f)%nat with (S (String.length (with_objects objs post) + (n + f)))%nat by lia.
    rewrite last_balanced_object, IH by done. destruct objs as [|b objs]; [done|].
    rewrite last_cons_cons. by destruct (last (b :: objs)) eqn:E; [|apply last_None in E].
Qed.

(** ** An answer is read back *)

Lemma decode_line j : json_wf j = true -> is_num j = false -> decode (encode j +:+ nl) = Some j.
Proof. intros H1 H2. unfold decode. by rewrite parse_prefix_encode. Qed.

Lemma unmarshal_answer resp tail : TurnResponse_wf resp = true -> tail = "" \/ tail = nl ->
  unmarshal_response (encode (encode_struct TurnResponse_fields resp) +:+ tail) = Some resp.
Proof.
  intros H Ht. apply TurnResponse_roundtrip in H as [H1 H2]. unfold unmarshal_response, Unmarshal.
  destruct Ht as [-> | ->]; [rewrite string_app_nil_r, decode_encode by done|rewrite decode_line by done]; done.
Qed.

(** What an agent is asked to print. *)
Definition answer_block (resp : TurnResponse) : string := "json" +:+ nl +:+ encode (encode_struct TurnResponse_fields resp) +:+ nl.

Lemma after_open_json r : after_open ("json" +:+ nl +:+ String "{" r) = String "{" r.
Proof.
  unfold after_open. assert (HasPrefix ("json" +:+ nl +:+ String "{" r) "json" = true) as -> by (apply HasPrefix_spec; by eexists).
  change 4%nat with (String.length "json"). rewrite slice_from_app. reflexivity.
Qed.

Lemma after_open_answer resp :
  after_open (answer_block resp) = encode (encode_struct TurnResponse_fields resp) +:+ nl.
Proof. apply after_open_json. Qed.

(** In its last fenced block, whatever other fenced blocks and text come before it. *)
Lemma fenced_answer blocks pre post resp :
  plain_blocks (blocks ++ [(pre, answer_block resp)]) = true -> no_byte backtick post = true -> TurnResponse_wf resp = true ->
  ParseLastJSONBlock (with_blocks (blocks ++ [(pre, answer_block resp)]) post) = inr resp.
Proof.
  intros Hb Hp Hw. unfold ParseLastJSONBlock. rewrite all_fences_blocks, map_app by done. cbn [map snd]. rewrite last_snoc.
  by rewrite after_open_answer, unmarshal_answer by auto.
Qed.

(** Without a fence, as the last object of the text. *)
Lemma bare_answer objs pre post resp :
  plain_objects objs = true -> no_byte "{" pre = true -> no_byte "{" post = true -> TurnResponse_wf resp = true ->
  let out := with_objects (objs ++ [(pre, encode_fields TurnResponse_fields resp)]) post in
  no_byte backtick out = true -> ParseLastJSONBlock out = inr resp.
Proof.
  intros Ho Hpre Hpost Hw out Hn. pose proof Hw as [_ Hj]%TurnResponse_roundtrip. unfold ParseLastJSONBlock.
  rewrite <-(string_app_nil_r out) at 1. change (out +:+ "") with (with_blocks [] (out +:+ "")). rewrite string_app_nil_r, all_fences_blocks by done.
  cbn [map last]. unfold lastBalancedObject. replace (S (String.length out)) with (String.length out + 1)%nat by lia. unfold out.
  rewrite last_balanced_objects, last_snoc; [|unfold plain_objects in *; rewrite forallb_app, Ho; cbn [forallb fst snd]|done].
  - cbn [snd]. change (JObj (encode_fields TurnResponse_fields resp)) with (encode_struct TurnResponse_fields resp).
    pose proof (unmarshal_answer resp "" Hw ltac:(auto)) as HU. rewrite string_app_nil_r in HU. by rewrite HU.
  - unfold encode_struct in Hj. by rewrite Hpre, Hj.
Qed.

(** C29: an answer that is printed unambiguously reaches its caller.  When the program ends well and
    prints a response of valid text either in its last fenced block, or, with no fence, as the
    last object of its output, [Run] returns that response; the blocks, objects and prose printed
    before are passed over.  Unambiguous means, for the first: no backtick is in the prose, in the
    blocks before, or in the JSON of the response itself, other than the fences (a response whose
    summary quotes a fence is lost, see [summary_fence_lost]); for the second: no backtick
    is anywhere, and no brace is in the prose around the objects. *)
Theorem Run_reads_answer {World : Type} output environ a (w w' : World) req out resp objs blocks pre post :
  output w (ag_binary a :: "-p" :: BuildPrompt req :: ag_args a)%list (BuildEnv (environ w) (ag_env a))
    (if String.eqb (tk_RepoRoot (tq_Task req)) "" then None else Some (tk_RepoRoot (tq_Task req))) = (w', (out, None)) ->
  TurnResponse_wf resp = true ->
  (out = with_blocks (blocks ++ [(pre, answer_block resp)]) post /\
   plain_blocks (blocks ++ [(pre, answer_block resp)]) && no_byte backtick post = true) \/
  (out = with_objects (objs ++ [(pre, encode_fields TurnResponse_fields resp)]) post /\
   plain_objects objs && no_byte "{" pre && no_byte "{" post && no_byte backtick out = true) ->
  Adapter.Run output environ a w req = (w', inr resp).
Proof.
  intros Ho Hw Hout. unfold Run. rewrite Ho.
  assert (ParseLastJSONBlock out = inr resp) as ->; [|done].
  destruct Hout as [[-> H]|[Eo H]]; rewrite !andb_true_iff in H.
  - destruct H. by apply fenced_answer.
  - destruct H as (((H1 & H2) & H3) & H4). subst out. by apply bare_answer.
Qed.

Definition sample_answer : TurnResponse := mkTurnResponse false "b" "" "a {brace} and a quote" [] SelfEvalConfident "" None [].
Definition sample_output : string :=
  with_blocks [("thinking: ", "json {1}"); (" and then ", answer_block sample_answer)] " done".

Lemma Run_reads_answer_witness :
  snd (Adapter.Run (World := unit) (fun w _ _ _ => (w, (sample_output, None))) (fun _ => []) (claude "/usr/bin/claude") tt TurnRequest_zero)
  = inr sample_answer.
Proof.
  rewrite (Run_reads_answer (World := unit) (fun w _ _ _ => (w, (sample_output, None))) (fun _ => []) (claude "/usr/bin/claude") tt tt
             TurnRequest_zero sample_output sample_answer [] [("thinking: ", "json {1}")] " and then " " done");
    [reflexivity|reflexivity|vm_compute; reflexivity|left; split; vm_compute; reflexivity].
Defined.

(** ** The prompt carries the request *)

Definition promptRequest_wf (r : promptRequest) : bool :=
  in_int64 (pr_Turn r) && utf8_valid (pr_Role r) && utf8_valid (pr_RuntimeHint r) && Budget_wf (pr_Budget r) &&
  match pr_LastTurn r with Some l => LastTurn_wf l | None => true end && Task_wf (pr_Task r) && utf8_valid (pr_Scratch r).

Lemma promptRequest_table : table_ok promptRequest_zero promptRequest_fields.
Proof. solve_table. Qed.

Lemma promptRequest_roundtrip r : promptRequest_wf r = true -> struct_ok promptRequest_fields promptRequest_zero r.
Proof.
  unfold promptRequest_wf. intros. reflect_bools. solve_struct promptRequest_table.
  apply opt_ptr_struct_ok. intros l Hl. rewrite Hl in *. eauto with rallish_wf.
Qed.

Definition prompt_opening (req : TurnRequest) : string :=
  prompt_hints req +:+ nl +:+ nl +:+ "The following JSON is your TurnRequest:" +:+ nl +:+ nl.

Lemma BuildPrompt_blocks req :
  BuildPrompt req = with_blocks [(prompt_opening req, "json" +:+ nl +:+ prompt_data req +:+ nl)] prompt_rules.
Proof. unfold BuildPrompt, prompt_opening, with_blocks. cbn [fold_right fst snd]. by rewrite <-!string_app_assoc. Qed.

(** The prompt carries the request: for a request whose texts hold no backtick, the prompt has
    exactly one fenced block, and decoding that block gives back the turn, role, hint, budget, last turn,
    task and scratch of the request; the prose around it adds no block of its own. *)
Theorem prompt_carries_request req :
  promptRequest_wf (slim req) = true -> no_byte backtick (prompt_hints req +:+ prompt_data req) = true ->
  exists block, all_fences (BuildPrompt req) = [block] /\
    Unmarshal promptRequest_zero (into_struct promptRequest_fields) block = Some (slim req).
Proof.
  intros Hw Hn. rewrite no_backtick_app in Hn. apply andb_true_iff in Hn as [H1 H2].
  exists (prompt_data req +:+ nl). split.
  - rewrite BuildPrompt_blocks, all_fences_blocks; [|unfold plain_blocks, prompt_opening; cbn [forallb fst snd]|done].
    + cbn [map snd]. f_equal. unfold prompt_data, encode_struct. rewrite encode_obj. apply after_open_json.
    + rewrite !no_backtick_app, H1, H2. done.
  - apply promptRequest_roundtrip in Hw as [Hd Hj]. unfold Unmarshal, prompt_data. rewrite decode_line by done. exact Hd.
Qed.

Lemma prompt_carries_request_witness :
  let req := mkTurnRequest "s" 3 "a" "claude" "opus" Budget_zero "" "notes so far" None (mkTask "t" "write {it}" "/r") None None in
  exists block, all_fences (BuildPrompt req) = [block] /\
    Unmarshal promptRequest_zero (into_struct promptRequest_fields) block = Some (slim req).
Proof. intros req. apply prompt_carries_request; vm_compute; reflexivity. Defined.

(** A fence inside a summary ends the block early: the answer is lost. *)
Example summary_fence_lost :
  let resp := mkTurnResponse false "" "" ("use" +:+ fence) [] "" "" None [] in
  TurnResponse_wf resp = true /\ ParseLastJSONBlock (fence +:+ answer_block resp +:+ fence) = inl ErrUnmarshal.
Proof. split; vm_compute; reflexivity. Qed.

(** ** Snippets *)

Lemma trim_cont_valid s : utf8_valid s = true -> trim_left is_cont s = s.
Proof.
  destruct s as [|c s]; [done|]. cbn [utf8_valid trim_left]. intros H. destruct (is_cont c) eqn:E; [|done]. exfalso.
  assert (utf8_tail c s = None) as Hn; [|by rewrite Hn in H]. clear H.
  revert E. unfold is_cont, in_range, utf8_tail, is_ascii. intros E. reflect_bools.
  repeat case_match; try done; unfold in_range in *; reflect_bools; lia.
Qed.

Lemma trim_cont_all a b : string_forall is_cont a = true -> utf8_valid b = true -> trim_left is_cont (a +:+ b) = b.
Proof.
  intros Ha Hb. induction a as [|c a IH]; [by apply trim_cont_valid|]. cbn [string_forall] in Ha. apply andb_true_iff in Ha as [Hc Ha].
  cbn [String.append trim_left]. rewrite Hc. by apply IH.
Qed.

(** The first rune of valid text, and the text after it. *)
Lemma utf8_valid_cons c s : utf8_valid (String c s) = true ->
  exists t r, s = t +:+ r /\ string_forall is_cont t = true /\ utf8_valid r = true.
Proof.
  assert (Hr : forall lo hi x, (0x80 <= lo)%Z -> (hi <= 0xBF)%Z -> in_range lo hi x = true -> is_cont x = true).
  { intros lo hi x Hlo Hhi. unfold is_cont, in_range. intros H. reflect_bools. apply andb_true_iff; split; apply Z.leb_le; lia. }
  cbn [utf8_valid]. destruct (utf8_tail c s) as [k|] eqn:E; [|done]. revert E. unfold utf8_tail. cbn zeta.
  repeat case_match; intros; simplify_eq; reflect_bools;
    repeat match goal with H : in_range _ _ _ = true |- _ => apply Hr in H; [|lia..] end.
  all: first
    [ by exists "", s
    | by eexists (String _ ""), _; split; [done|]; split; [cbn; use_bools|done]
    | by eexists (String _ (String _ "")), _; split; [done|]; split; [cbn; use_bools|done]
    | by eexists (String _ (String _ (String _ ""))), _; split; [done|]; split; [cbn; use_bools|done] ].
Qed.

(** Cut valid text anywhere and drop the continuation bytes: what is left is valid, and is all of the
    cut but at most three bytes. *)
Lemma suffix_valid a b : utf8_valid (a +:+ b) = true -> utf8_valid (trim_left is_cont b) = true.
Proof.
  remember (String.length a) as n eqn:Hn. revert a Hn. induction n as [n IH] using lt_wf_ind. intros a -> H.
  destruct a as [|c a]; [cbn in H; by rewrite trim_cont_valid|]. cbn [String.append] in H.
  apply utf8_valid_cons in H as (t & r & E & Ht & Hr). cbn [String.length] in IH.
  destruct (app_cases a t b r E) as [(x & -> & ->)|(x & -> & ->)].
  - rewrite string_forall_app in Ht. apply andb_true_iff in Ht as [_ Ht]. by rewrite trim_cont_all.
  - apply (IH (String.length x)) with (a := x); [rewrite string_length_app; lia|done..].
Qed.

Lemma trim_left_suffix f s : exists a, s = a +:+ trim_left f s.
Proof. induction s as [|c s [a IH]]; [by exists ""|]. cbn [trim_left]. destruct (f c); [exists (String c a); cbn; by f_equal|by exists ""]. Qed.

Lemma slice_from_suffix s n : (n <= String.length s)%nat -> exists a, s = a +:+ slice_from s n /\ String.length a = n.
Proof.
  intros H. revert n H. induction s as [|c s IH]; intros [|n] H; cbn [String.length] in H; [by exists ""|lia|exists ""|].
  - split; [|done]. pose proof (slice_from_app "" (String c s)) as HS. cbn [String.append String.length] in HS. by rewrite HS.
  - destruct (IH n ltac:(lia)) as (a & E & Ha). exists (String c a). split; [|cbn; by rewrite Ha]. cbn [String.append]. by f_equal.
Qed.

(** A snippet of an agent's output never splits a character and stays short: of valid trimmed output
    it is valid UTF-8, of at most [maxLen] bytes or, behind the three bytes of the ellipsis, the end of the
    output from at most [maxLen] bytes before its end. *)
Theorem Snippet_valid b maxLen :
  utf8_valid (TrimSpace b) = true ->
  utf8_valid (Snippet b maxLen) = true /\ (String.length (Snippet b maxLen) <= maxLen + 3)%nat /\
  (Snippet b maxLen = TrimSpace b \/ exists cut tail, TrimSpace b = cut +:+ tail /\ Snippet b maxLen = "…" +:+ tail).
Proof.
  intros H. unfold Snippet. destruct (Nat.leb_spec (String.length (TrimSpace b)) maxLen) as [Hl|Hl]; [split_and!; [done|lia|by left]|].
  set (s := TrimSpace b) in *. destruct (slice_from_suffix s (String.length s - maxLen) ltac:(lia)) as (a & E & Ha).
  set (t := slice_from s (String.length s - maxLen)) in *. destruct (trim_left_suffix is_cont t) as (c & Ec).
  assert (HL : (String.length t <= maxLen)%nat) by (pose proof (f_equal String.length E) as HE; rewrite string_length_app in HE; lia).
  split_and!.
  - change (utf8_valid (trim_left is_cont t) = true). apply (suffix_valid a). by rewrite <-E.
  - rewrite string_length_app. change (String.length "…") with 3%nat. pose proof (f_equal String.length Ec) as HE.
    rewrite string_length_app in HE. lia.
  - right. exists (a +:+ c), (trim_left is_cont t). split; [|done]. by rewrite <-string_app_assoc, <-Ec.
Qed.

Lemma Snippet_valid_witness :
  let b := utf8_encode 0x2192 +:+ utf8_encode 0x2192 +:+ " " in
  utf8_valid (Snippet b 5) = true /\ (String.length (Snippet b 5) <= 5 + 3)%nat /\
  (Snippet b 5 = TrimSpace b \/ exists cut tail, TrimSpace b = cut +:+ tail /\ Snippet b 5 = "…" +:+ tail).
Proof. intros b. apply Snippet_valid. vm_compute. reflexivity. Defined.

(** ** The environment *)

(** The test for an exact key is subsumed: every entry of an allowlist is a prefix, ... *)
Lemma BuildEnv_spec env allowed e :
  In e (BuildEnv env allowed) <-> In e env /\ exists a, In a allowed /\ HasPrefix (match Split e "=" with k :: _ => k | [] => "" end) a = true.
Proof.
  unfold BuildEnv. rewrite filter_In, existsb_exists. split; intros [H (a & Ha & Hk)]; (split; [done|exists a; split; [done|]]).
  - apply orb_true_iff in Hk as [->%String.eqb_eq|Hk]; [|done]. apply HasPrefix_spec. exists "". by rewrite string_app_nil_r.
  - by rewrite Hk, orb_true_r.
Qed.

(** ... so an unrelated secret whose name begins like an allowed key reaches the agent. *)
Example env_home_prefix :
  BuildEnv ["HOME=/root"; "HOMEBREW_GITHUB_API_TOKEN=x"; "OPENAI_API_KEY=y"] claude_env = ["HOME=/root"; "HOMEBREW_GITHUB_API_TOKEN=x"].
Proof. reflexivity. Qed.

(** ** The registry's laws *)

Lemma Register_spec {World : Type} (r : Registry (World := World)) name a :
  match Adapter.Get r name with
  | None => snd (Adapter.Register r name a) = None /\ Adapter.Get (fst (Adapter.Register r name a)) name = Some a
  | Some _ => fst (Adapter.Register r name a) = r /\ snd (Adapter.Register r name a) <> None
  end /\
  (forall other, other <> name -> Adapter.Get (fst (Adapter.Register r name a)) other = Adapter.Get r other) /\
  (forall n, In n (Adapter.Names r) <-> is_Some (Adapter.Get r n)).
Proof.
  unfold Adapter.Get, Adapter.Register, Adapter.Names. split_and!.
  - destruct (r !! name); cbn [fst snd]; [done|]. split; [done|apply (lookup_insert_eq (M := gmap string))].
  - intros other Ho. destruct (r !! name); cbn [fst snd]; [done|]. by apply (lookup_insert_ne (M := gmap string)).
  - intros n. assert (HP : sort_strings (map fst (map_to_list r)) ≡ₚ map fst (map_to_list r)) by apply (merge_sort_Permutation string_le).
    rewrite <-list_elem_of_In, HP, list_elem_of_fmap. unfold Registry in *. split.
    + intros ([k v] & -> & Hk%elem_of_map_to_list). by eexists.
    + intros [v Hv]. exists (n, v). split; [done|]. by apply elem_of_map_to_list.
Qed.
