(* ===== verification/Doctor.v ===== *)
(** * The doctor

    [internal/doctor/doctor.go] and [internal/cli/doctor.go]: the checks of the daemon and of the
    agent programs, on the host of [Connect.v], which has the files, the sockets and the ports a
    client looks at.  The theorem says where the doctor looks and that it reports
    the daemon exactly when somebody listens there, and compares that with what a client finds;
    where the two differ is in the examples. *)

From S2P Require Import Prelude GoStrings Lines Paths Connect Ui Config Adapter.
From Stdlib Require Import Ascii String.
#[local] Open Scope string_scope.

(* src: internal/doctor/doctor.go 26-27 Status *)
Inductive Status : Set := StatusOK | StatusWarn | StatusFail | StatusInfo.
(* src: internal/doctor/doctor.go 37-43 Check *)
Record Check := mkCheck { ck_Name : string; ck_Status : Status; ck_Detail : string }.

(** The texts of the errors of other packages are not modelled: a check that quotes one has its
    fixed part as the detail. *)
Section Daemon.
Variable homeDir : string.
Variable cwd : string + string.
(** The pointer, if it is there, can be read (the port file always can); the permissions of a socket. *)
Variable readable : bool.
Variable perm : string -> Z.

Definition daemon_check_of (s : Status) (detail : string) : Check := mkCheck "daemon" s detail.

(** What is at a path: nothing, a socket, another file. *)
Inductive FileKind : Set := KNone | KSocket | KOther.
Definition stat (h : Host) (path : string) : FileKind :=
  match ho_sock h !! path, ho_files h !! path with Some _, _ => KSocket | None, Some _ => KOther | None, None => KNone end.

Inductive SocketState : Set := Escapes | Unclean | Missing | NotSocket | Dead (path : string) | Live (path : string).
(** The socket a pointer names, as far as it can be followed. *)
(* src: internal/doctor/doctor.go 155-183 daemonCheck *)
Definition socket_state (h : Host) (socketPath : string) : SocketState :=
  match UnderRoot cwd socketPath (sockDir homeDir) with
  | Some _ => Escapes
  | None =>
      match Clean cwd socketPath with
      | inl _ => Unclean
      | inr safePath =>
          match stat h safePath with
          | KNone => Missing
          | KOther => NotSocket
          | KSocket => if dialExistingDaemon h safePath then Live safePath else Dead safePath
          end
      end
  end.

(** The pointer file: its trimmed text, or that it cannot be read. *)
Definition pointer_text (h : Host) : option string + unit :=
  match ho_files h !! socketFile homeDir with
  | None => inl None
  | Some text => if readable then inl (Some (TrimSpace text)) else inr tt
  end.

(** A port file can outlive its daemon, so the port is dialled. *)
(* src: internal/doctor/doctor.go 186-202 daemonCheck *)
Definition port_check (h : Host) : Check :=
  match ho_files h !! portFile homeDir with
  | Some port => if dialPort h (TrimSpace port) then daemon_check_of StatusOK "reachable via port fallback"
                 else daemon_check_of StatusFail "port file present but not reachable (stale?)"
  | None => daemon_check_of StatusInfo "not running — will auto-spawn on `rally new`"
  end.

(* src: internal/doctor/doctor.go 148-205 daemonCheck *)
Definition daemonCheck (h : Host) : Check :=
  match pointer_text h with
  | inr _ => daemon_check_of StatusWarn "could not read socket pointer"
  | inl None => port_check h
  | inl (Some socketPath) =>
      if String.eqb socketPath "" then port_check h
      else match socket_state h socketPath with
           | Escapes => daemon_check_of StatusWarn "socket pointer escapes rallish home"
           | Unclean => daemon_check_of StatusWarn "path is not clean"
           | Missing => daemon_check_of StatusWarn "pointer present but socket missing"
           | NotSocket => daemon_check_of StatusWarn "pointer references non-socket file"
           | Dead _ => daemon_check_of StatusFail "not reachable"
           | Live _ => daemon_check_of StatusOK "reachable via unix socket"
           end
  end.

(** ** The older check, which logs *)

Inductive Level : Set := LInfo | LWarn | LError.

(** After whatever a pointer led to, the port file is looked at but not dialled. *)
(* src: internal/doctor/doctor.go 263-333 checkDaemon *)
Definition checkDaemon (h : Host) : list (Level * string) :=
  let port := match ho_files h !! portFile homeDir with
              | Some _ => [(LInfo, "daemon port file present; unix socket unavailable")]
              | None => [(LInfo, "daemon not running")]
              end in
  if String.eqb homeDir "" then []
  else match pointer_text h with
       | inr _ => ((LWarn, "could not read socket pointer") :: port)%list
       | inl None => port
       | inl (Some socketPath) =>
           if String.eqb socketPath "" then port
           else
             let loose path := if (Z.land (perm path) 63 =? 0)%Z then [] else [(LWarn, "daemon socket has loose permissions; expected 0600")] in
             match socket_state h socketPath with
             | Escapes => ((LWarn, "daemon socket pointer escapes rallish home; ignoring") :: port)%list
             | Unclean => ((LWarn, "daemon socket pointer invalid") :: port)%list
             | Missing => ((LWarn, "daemon socket pointer present but socket file missing") :: port)%list
             | NotSocket => ((LWarn, "daemon socket pointer references non-socket file") :: port)%list
             | Dead path => (loose path ++ (LWarn, "daemon unix socket not reachable") :: port)%list
             | Live path => (loose path ++ [(LInfo, "daemon reachable via unix socket")])%list
             end
       end.
End Daemon.

(** ** The agent programs *)

Section Agents.
Context {World : Type}.
Variable output : World -> list string -> list string -> option string -> World * (string * option ExecError).
Variable environ : World -> list string.
(** [exec.LookPath]; the mode of a file, or that it cannot be looked at. *)
Variable lookPath : string -> option string.
Variable mode : string -> option Z.
Variable cwd : string + string.

(* src: internal/adapter/claude/claude.go 27-38 New *)
Definition agent_New (make : string -> Agent) (name : string) : option Agent :=
  match lookPath name with
  | None => None
  | Some path => match filepath_Abs cwd path with inl _ => None | inr abs => Some (make abs) end
  end.

(** Some execute bit is enough. *)
(* src: internal/adapter/claude/claude.go 46-59 Adapter.Check *)
Definition agent_Check (a : Agent) : option string :=
  if String.eqb (ag_binary a) "" then Some (ag_name a +:+ " binary path not set")
  else match mode (ag_binary a) with
       | None => Some (ag_name a +:+ " binary not accessible")
       | Some m => if (Z.land m 73 =? 0)%Z then Some (ag_name a +:+ " binary is not executable: " +:+ ag_binary a) else None
       end.

(* src: internal/adapter/claude/claude.go 116-136 Adapter.Probe *)
Definition Probe (a : Agent) (w : World) : World * option string :=
  let '(w, (out, e)) := output w (ag_binary a :: "-p" :: "respond with the single word: ok" :: ag_args a) (BuildEnv (environ w) (ag_env a)) None in
  (w,
   match e with
   | Some err =>
       let stderr := match err with ExitError _ stderr => stderr | StartError _ => "" end in
       match DiagnoseOutput (ag_name a) (out +:+ nl +:+ stderr) with
       | Some (hint, _) => Some hint
       | None => Some (ag_name a +:+ " probe failed: " +:+ match err with ExitError text _ => text | StartError text => text end)
       end
   | None => match DiagnoseOutput (ag_name a) out with Some (hint, _) => Some hint | None => None end
   end).

(* src: internal/adapter/kimi/kimi.go 46-59 Adapter.Check *)
Definition kimi_Check (binary : string) : option string := agent_Check (kimi binary).
(* src: internal/adapter/kimi/kimi.go 106-128 Adapter.Probe *)
Definition kimi_Probe (binary : string) : World -> World * option string := Probe (kimi binary).

(* src: internal/doctor/doctor.go 126-134 probeCheck *)
Definition probeCheck (name : string) (a : Agent) (w : World) : World * Check :=
  match Probe a w with
  | (w, Some err) => (w, mkCheck name StatusFail err)
  | (w, None) => (w, mkCheck name StatusOK "authenticated (live probe answered)")
  end.

(* src: internal/doctor/doctor.go 141-146 adapterCheck *)
Definition adapterCheck (name : string) (a : Agent) : Check :=
  match agent_Check a with Some err => mkCheck name StatusFail err | None => mkCheck name StatusOK (ag_binary a) end.

(** The checks of one program. *)
(* src: internal/doctor/doctor.go 100-111 Inspect *)
Definition agent_checks (probe : bool) (make : string -> Agent) (program name missing : string) (w : World) : World * list Check :=
  match agent_New make program with
  | None => (w, [mkCheck name StatusInfo missing])
  | Some a => if probe then let '(w, c) := probeCheck (name +:+ ":auth") a w in (w, [adapterCheck name a; c]) else (w, [adapterCheck name a])
  end.

(** [None]: no home directory. *)
(* src: internal/doctor/doctor.go 76-124 Inspect *)
Definition Inspect (probe readable : bool) (homeDir : string) (userHome : option string) (h : Host) (w : World) : World * option (list Check) :=
  let homeDir := if String.eqb homeDir "" then default "" userHome else homeDir in
  if String.eqb homeDir "" then (w, None)
  else
    let '(w, c) := agent_checks probe Adapter.claude "claude" "adapter:claude" "not found on PATH (install Claude Code or Claude CLI)" w in
    let '(w, k) := agent_checks probe Adapter.kimi "kimi" "adapter:kimi" "not found on PATH (install kimi CLI to enable)" w in
    (w, Some (daemonCheck homeDir cwd readable h :: c ++ k)%list).

(** [doctor.Run]: the log of the older entry point. *)
(* src: internal/doctor/doctor.go 207-261 Run *)
Definition doctor_Run (readable : bool) (perm : string -> Z) (homeDir : string) (userHome : option string) (h : Host) : list (Level * string) :=
  let homeDir := if String.eqb homeDir "" then default "" userHome else homeDir in
  let found make program := match agent_New make program with None => ([(LInfo, "adapter not found")], []) | Some a => ([], [a]) end in
  let '(l1, c1) := found Adapter.claude "claude" in
  let '(l2, c2) := found Adapter.kimi "kimi" in
  (checkDaemon homeDir cwd readable perm h ++ l1 ++ l2 ++
   flat_map (fun a => [match agent_Check a with Some _ => (LError, "adapter check failed") | None => (LInfo, "adapter check passed") end;
                       (LInfo, "adapter path"); (LInfo, "adapter env allowlist")]) (c1 ++ c2))%list.

(** ** [rallish doctor] *)

(* src: internal/cli/doctor.go 79-91 renderCheck *)
Definition renderCheck (c : Check) (t : Term) : Term :=
  let label := pad_runes 18 (ck_Name c) +:+ " — " +:+ ck_Detail c in
  match ck_Status c with StatusOK => OK label t | StatusFail => Err label t | StatusWarn => Warn label t | StatusInfo => Info label t end.

(* src: internal/cli/doctor.go 93-98 configPathOrDefault *)
Definition configPathOrDefault (env : ConfigEnv) : string := match config_Path env with inr p => p | inl _ => "~/.rallish/config.yaml" end.

(** Both streams are the output here. *)
(* src: internal/cli/doctor.go 44-77 RunDoctor *)
Definition RunDoctor (probe readable : bool) (env : ConfigEnv) (h : Host) (w : World) (t : Term) : World * Term * bool :=
  let home := default "" (ce_home env) in
  match Inspect probe readable home (ce_home env) h w with
  | (w, None) => (w, Err "could not determine home directory" t, false)
  | (w, Some checks) =>
      let t := foldl (fun t c => renderCheck c t) (Heading "rallish doctor" t) checks in
      let t := print nl t in
      let t := Detail ("config:  " +:+ configPathOrDefault env) t in
      (w, Detail ("skill:   " +:+ home +:+ "/.claude/skills/rallish") t, true)
  end.
End Agents.

(** ** The two guards of the pointer *)

(** The doctor follows a pointer that is under a directory by its prefix, a client by the
    relative path: they agree. *)
Lemma rel_names_prefix rs l : rel_names rs (rs ++ l) = l.
Proof. induction rs as [|r rs IH]; cbn [app rel_names]; [done|]. by rewrite String.eqb_refl. Qed.

Lemma rel_names_outside rs es : ~ rs `prefix_of` es -> exists l, rel_names rs es = ".." :: l.
Proof.
  revert es. induction rs as [|r rs IH]; intros es Hn; [by destruct Hn; apply prefix_nil|]. destruct es as [|e es].
  - by eexists.
  - cbn [rel_names]. destruct (String.eqb_spec r e) as [->|_]; [|by eexists]. apply IH. intros H. apply Hn. by apply prefix_cons.
Qed.

Lemma Join_dotdot e l : name_ok e = true -> String.eqb (Join (e :: l) "/") ".." = false /\ HasPrefix (Join (e :: l) "/") "../" = false.
Proof.
  intros He. unfold name_ok in He. rewrite !andb_true_iff, !negb_true_iff in He. destruct He as [[[_ _] Hd] Hs].
  assert (Hcase : Join (e :: l) "/" = e \/ exists r, Join (e :: l) "/" = e +:+ String slash r).
  { destruct l as [|e' l]; [by left|]. right. by exists (Join (e' :: l) "/"). }
  assert (Hsl : forall r, no_byte slash (e +:+ String slash r) = false) by (intros r; rewrite no_byte_app; by rewrite andb_false_r).
  destruct Hcase as [-> | [r ->]]; split.
  - done.
  - apply not_true_is_false. intros [x ->]%HasPrefix_spec. done.
  - apply not_true_is_false. intros E%String.eqb_eq. specialize (Hsl r). by rewrite E in Hsl.
  - apply not_true_is_false. intros [x E]%HasPrefix_spec. change ("../" +:+ x) with (".." +:+ String slash x) in E.
    apply cut_eq in E as [-> _]; done.
Qed.

Lemma clean_abs_path es : Forall (fun e => name_ok e = true) es -> filepath_Clean (abs_path es) = abs_path es.
Proof. intros H. rewrite filepath_Clean_abs by (apply HasPrefix_spec; by eexists). by rewrite Split_abs_path. Qed.

Lemma guards_agree wd p root : HasPrefix wd "/" = true -> p <> "" -> root <> "" ->
  socketUnderRoot (inr wd) p root = match UnderRoot (inr wd) p root with None => true | Some _ => false end.
Proof.
  intros Hw Hp Hr. rewrite UnderRoot_names by done. unfold socketUnderRoot. rewrite !filepath_Abs_names by done.
  pose proof (names_ok wd p) as HP. pose proof (names_ok wd root) as HR. revert HP HR. generalize (names wd p) as es, (names wd root) as rs. intros es rs HP HR.
  rewrite !clean_abs_path by done. unfold filepath_Rel. rewrite !Split_abs_path by done. case_decide as D.
  - destruct D as [l ->]. rewrite rel_names_prefix. destruct l as [|e l]; [done|].
    apply Forall_app in HP as [_ HP]. inversion_clear HP as [|? ? He _]. destruct (Join_dotdot e l He) as [H1 H2].
    cbv zeta. by rewrite H1, H2.
  - destruct (rel_names_outside rs es D) as [l ->]. cbv zeta. destruct l as [|e l]; [done|].
    assert (E : HasPrefix (Join (".." :: e :: l) "/") "../" = true) by (apply HasPrefix_spec; by exists (Join (e :: l) "/")).
    by rewrite E, andb_false_r.
Qed.

(** ** What the doctor knows *)

Section Knows.
Variables homeDir wd : string.
Hypothesis wd_abs : HasPrefix wd "/" = true.
Hypothesis home_abs : HasPrefix homeDir "/" = true.
Abbreviation announced := (announced homeDir (inr wd)).

(** The pointer names its socket by a clean path, as the daemon writes it. *)
Definition clean_pointer (h : Host) : Prop :=
  forall text, ho_files h !! socketFile homeDir = Some text -> TrimSpace text <> "" -> Clean (inr wd) (TrimSpace text) = inr (TrimSpace text).

Lemma sockDir_nonempty : sockDir homeDir <> "".
Proof. rewrite sockDir_abs; [done|exact home_abs]. Qed.

Lemma pointer_follow h text : ho_files h !! socketFile homeDir = Some text ->
  Connect.pointer homeDir (inr wd) h = if String.eqb (TrimSpace text) "" then None
    else match UnderRoot (inr wd) (TrimSpace text) (sockDir homeDir) with None => Some (TrimSpace text) | Some _ => None end.
Proof.
  intros E. unfold Connect.pointer. rewrite E. destruct (String.eqb_spec (TrimSpace text) "") as [->|Hn]; [done|]. cbn [negb andb].
  rewrite guards_agree; [by destruct (UnderRoot _ _ _)|done..|apply sockDir_nonempty].
Qed.

Lemma port_check_ok h : ck_Status (port_check homeDir h) = StatusOK <-> exists port, readPortFile h (portFile homeDir) = Some port /\ dialPort h port = true.
Proof.
  unfold port_check, readPortFile. destruct (ho_files h !! portFile homeDir) as [text|]; cbn.
  - destruct (dialPort h (TrimSpace text)) eqn:E; cbn; split; try done; [by exists (TrimSpace text)|]. intros (p & [= <-] & H). congruence.
  - split; [done|]. by intros (? & ? & _).
Qed.

Lemma socket_state_live h p q : socket_state homeDir (inr wd) h p = Live q <->
  UnderRoot (inr wd) p (sockDir homeDir) = None /\ Clean (inr wd) p = inr q /\ dialExistingDaemon h q = true.
Proof.
  unfold socket_state, stat. destruct (UnderRoot _ _ _); [split; [done|by intros (? & _)]|].
  destruct (Clean (inr wd) p) as [e|r]; [split; [done|by intros (_ & ? & _)]|].
  destruct (ho_sock h !! r) as [[pid|]|] eqn:E.
  - unfold dialExistingDaemon at 1. rewrite E. split; [intros [= <-]|intros (_ & [= <-] & _); done]. unfold dialExistingDaemon. by rewrite E.
  - unfold dialExistingDaemon at 1. rewrite E. split; [done|]. intros (_ & [= <-] & H). unfold dialExistingDaemon in H. by rewrite E in H.
  - destruct (ho_files h !! r); (split; [done|]); intros (_ & [= <-] & H); unfold dialExistingDaemon in H; by rewrite E in H.
Qed.

(** Where the doctor looks: at the socket that the pointer names, its path made clean, when the
    pointer has a text and can be read, and the path is under the directory of the daemon; and
    at the port of the port file when there is no pointer, or an empty one. *)
Definition looked_at (readable : bool) (h : Host) (v : Via) : Prop :=
  let by_port := exists port, readPortFile h (portFile homeDir) = Some port /\ v = OverPort port in
  match ho_files h !! socketFile homeDir with
  | Some text => readable = true /\
      if String.eqb (TrimSpace text) "" then by_port
      else UnderRoot (inr wd) (TrimSpace text) (sockDir homeDir) = None /\ exists path, Clean (inr wd) (TrimSpace text) = inr path /\ v = OverSocket path
  | None => by_port
  end.

Lemma ok_looked_at readable h : ck_Status (daemonCheck homeDir (inr wd) readable h) = StatusOK <-> exists v, looked_at readable h v /\ reaches h v = true.
Proof.
  assert (HP : ck_Status (port_check homeDir h) = StatusOK <->
    exists v, (exists port, readPortFile h (portFile homeDir) = Some port /\ v = OverPort port) /\ reaches h v = true).
  { rewrite port_check_ok. split; [intros (port & H1 & H2); exists (OverPort port); split; [by exists port|done]|].
    intros (v & (port & H1 & ->) & H2). by exists port. }
  unfold daemonCheck, pointer_text, looked_at. destruct (ho_files h !! socketFile homeDir) as [text|]; [|exact HP].
  destruct readable; [|split; [done|by intros (v & [? _] & _)]].
  destruct (String.eqb_spec (TrimSpace text) "") as [He|Hn].
  - rewrite HP. split; intros (v & H1 & H2); exists v; [by split|]. by destruct H1.
  - split.
    + destruct (socket_state homeDir (inr wd) h (TrimSpace text)) as [| | | | |q] eqn:Es; try done. intros _.
      apply socket_state_live in Es as (Hu & Hc & Hd). exists (OverSocket q). split; [|done]. split; [done|]. split; [done|]. by exists q.
    + intros (v & (_ & Hu & path & Hc & ->) & Hd). by rewrite (proj2 (socket_state_live h (TrimSpace text) path)).
Qed.

(** For a clean pointer that is where a client looks first. *)
Lemma looked_at_announced h v : clean_pointer h -> reaches h v = true ->
  (looked_at true h v <->
   announced h = Some v /\ forall text, ho_files h !! socketFile homeDir = Some text -> TrimSpace text = "" \/ v = OverSocket (TrimSpace text)).
Proof.
  intros Hcl Hr. unfold looked_at, Connect.announced.
  assert (HP : (exists port, readPortFile h (portFile homeDir) = Some port /\ v = OverPort port) <->
    match readPortFile h (portFile homeDir) with Some port => if dialPort h port then Some (OverPort port) else None | None => None end = Some v).
  { destruct (readPortFile h (portFile homeDir)) as [port|]; [|split; [by intros (? & ? & _)|done]]. split.
    - intros (p & [= <-] & ->). cbn in Hr. by rewrite Hr.
    - destruct (dialPort h port); [|done]. intros [= <-]. by exists port. }
  destruct (ho_files h !! socketFile homeDir) as [text|] eqn:Ef.
  - rewrite (pointer_follow h text Ef). destruct (String.eqb_spec (TrimSpace text) "") as [He|Hn].
    + rewrite HP. split; [intros [_ H]; split; [done|]; intros ? [= <-]; by left|by intros [H _]].
    + rewrite (Hcl text Ef Hn). split.
      * intros (_ & -> & path & [= <-] & ->). cbn in Hr. rewrite Hr. split; [done|]. intros ? [= <-]. by right.
      * intros [H Ht]. destruct (Ht text eq_refl) as [?| ->]; [done|]. destruct (UnderRoot _ _ _) eqn:Eu.
        { destruct (readPortFile h (portFile homeDir)) as [port|]; [|done]. by destruct (dialPort h port). }
        split; [done|]. split; [done|]. by eexists.
  - unfold Connect.pointer. rewrite Ef, HP. split; [by intros H; split|by intros [H _]].
Qed.

End Knows.

(** A daemon that serves its port while the pointer of a killed one is left. *)
Definition stale_host : Host :=
  mkHost {["/h/.rallish/socket" := "/h/.rallish/rallish.sock"; "/h/.rallish/port" := "4000"]} {["/h/.rallish/rallish.sock" := None]} {["4000" := 7]}.
Definition served_host : Host :=
  mkHost {["/h/.rallish/socket" := "/h/.rallish/rallish.sock"]} {["/h/.rallish/rallish.sock" := Some 7]} ∅.


(** A pointer whose path is not clean: the doctor makes it clean before it dials, a client dials the
    path as it is, which the host need not have. *)
Example doctor_cleans_pointer :
  let h := mkHost {["/h/.rallish/socket" := "/h/.rallish/x/../rallish.sock"]} {["/h/.rallish/rallish.sock" := Some 7]} ∅ in
  ck_Status (daemonCheck "/h" (inr "/") true h) = StatusOK /\ snd (resolveBrokerClient "/h" (inr "/") 0 h) = None.
Proof. vm_compute. auto. Qed.

(** The doctor fails a daemon that every client finds. *)
Example doctor_fails_live_daemon : daemonCheck "/h" (inr "/") true stale_host = mkCheck "daemon" StatusFail "not reachable" /\
  bc_via <$> snd (resolveBrokerClient "/h" (inr "/") 0 stale_host) = Some (OverPort "4000").
Proof. vm_compute. auto. Qed.

(** The older check reports a port that nobody serves. *)
Example log_trusts_port : let h := mkHost {["/h/.rallish/port" := "4000"]} ∅ ∅ in
  checkDaemon "/h" (inr "/") true (fun _ => 384%Z) h = [(LInfo, "daemon port file present; unix socket unavailable")] /\
  ck_Status (daemonCheck "/h" (inr "/") true h) = StatusFail.
Proof. vm_compute. auto. Qed.
