(* ===== verification/Squash.v ===== *)
(** * Squash

    The rest of [internal/cli/squash.go], after the connection of [Connect.v]: the preset, the
    session that is created or resumed, and the runners that are started; the registry of
    [internal/cli/registry.go]; and the body of the request that creates a session, which
    [internal/broker/broker.go] decodes before it does what [TurnLoop.v] models.  The theorem
    composes the two sides: the session the command runs is the one the daemon made of it. *)

From S2P Require Import Prelude GoStrings Json Codec Utf8 Contract Paths Rally Turns Exit SessionStore Stuck TurnLoop Adapter McpClient.
From Stdlib Require Import Ascii String.
#[local] Open Scope string_scope.

(** ** The request *)

#[export] Instance eta_Role : Eta Role := fun r => mkRole (ro_ID r) (ro_Runtime r) (ro_Model r).
#[export] Instance eta_ScratchConfig : Eta ScratchConfig := fun r => mkScratchConfig (sc_MaxKB r) (sc_SummarizeWith r).
#[export] Instance eta_Preset : Eta Preset := fun r =>
  mkPreset (ps_Name r) (ps_Description r) (ps_Roles r) (ps_Routing r) (ps_Budget r) (ps_ExitWhen r) (ps_Scratch r).
Definition Role_zero := mkRole "" "" "".
Definition ScratchConfig_zero := mkScratchConfig 0 "".
Definition Preset_zero := mkPreset "" "" [] "" Budget_zero None ScratchConfig_zero.

(* src: pkg/contract/types.go 181-189 Role *)
Definition Role_fields : list (Field Role) :=
  [ Tag "id" ro_ID enc_string into_string; Tag "runtime" ro_Runtime enc_string into_string; Tag "model" ro_Model enc_string into_string ].
(* src: pkg/contract/types.go 191-197 ScratchConfig *)
Definition ScratchConfig_fields : list (Field ScratchConfig) :=
  [ Tag "max_kb" sc_MaxKB enc_int into_int; Tag "summarize_with" sc_SummarizeWith enc_string into_string ].
(** No roles are a nil slice; a preset that was loaded has some. *)
Definition enc_roles (l : list Role) : option json :=
  Some (match l with [] => JNull | _ => JArr (map (encode_struct Role_fields) l) end).
(* src: pkg/contract/types.go 199-215 Preset *)
Definition Preset_fields : list (Field Preset) :=
  [ Tag "name" ps_Name enc_string into_string; Tag "description" ps_Description enc_string into_string;
    Tag "roles" ps_Roles enc_roles (into_slice Role_zero (into_struct Role_fields)); Tag "routing" ps_Routing enc_string into_string;
    Tag "budget" ps_Budget (enc_struct Budget_fields) (into_struct Budget_fields);
    Tag "exit_when" ps_ExitWhen (enc_nilable JStr) (into_nilable "" into_string);
    Tag "scratch" ps_Scratch (enc_struct ScratchConfig_fields) (into_struct ScratchConfig_fields) ].

(* src: internal/cli/squash.go 186-196 RunSquash *)
Record CreateBody := mkCreateBody { cb_Preset : Preset; cb_Task : Task }.
#[export] Instance eta_CreateBody : Eta CreateBody := fun r => mkCreateBody (cb_Preset r) (cb_Task r).
(* src: internal/broker/broker.go 114-117 Server.handleCreateSession *)
Definition CreateBody_fields : list (Field CreateBody) :=
  [ Tag "preset" cb_Preset (enc_struct Preset_fields) (into_struct Preset_fields); Tag "task" cb_Task (enc_struct Task_fields) (into_struct Task_fields) ].
Definition CreateBody_zero := mkCreateBody Preset_zero Task_zero.

Definition Session_body (sess : Session) : string := encode (Session_json sess) +:+ nl.

(** The handler with its body and its answer; [None] of the second part is a panic. *)
(* src: internal/broker/broker.go 110-158 Server.handleCreateSession *)
Definition create_http (alive : bool) (t1 t2 : Time) (fault : CreateFault) (sv : Server) (body : string) : Server * Reply :=
  match Decode CreateBody_zero (into_struct CreateBody_fields) body with
  | None => (sv, Status 400 ("bad request" +:+ nl))
  | Some req =>
      match handleCreateSession alive t1 t2 fault sv (cb_Preset req) (cb_Task req) with
      | Done sv (inr sess) => (sv, Status 201 (Session_body sess))
      | Done sv (inl _) => (sv, Status 500 ("create session" +:+ nl))
      | Panics sv => (sv, NoReply)
      end
  end.

(** ** The registry *)

Section Registry.
Context {World : Type}.
(** The programs that are found, with their way to run a turn, and the fake one. *)
Variables claude kimi : option (RunFn (World := World)).
Variable fake : RunFn (World := World).

(* src: internal/cli/registry.go 13-32 BuildRegistry *)
Definition BuildRegistry : string + Registry :=
  let add (reg : Registry) (name : string) (a : option RunFn) : string + Registry :=
    match a with
    | None => inr reg
    | Some run => match Register reg name run with (_, Some err) => inl ("register " +:+ name +:+ ": " +:+ err) | (reg, None) => inr reg end
    end in
  match add ∅ "claude" claude with
  | inl e => inl e
  | inr reg => match add reg "kimi" kimi with inl e => inl e | inr reg => add reg "fake" (Some fake) end
  end.
End Registry.

(** ** [rallish squash] *)

(* src: internal/cli/squash.go 26-33 SquashOptions *)
Record SquashOptions := mkSquashOptions { sq_PresetName : string; sq_Task : string; sq_SessionID : string; sq_HomeDir : string; sq_Repo : string }.

Inductive SquashError : Type :=
  | QResolve | QNoRepo | QNotDirectory | QConnect | QRequest (what : string) | QNotFound (id : string) | QStatus (code : Z) | QDecode
  | QNoPreset (name : string) | QLoadPreset (name : string) (e : PresetError) | QTaskRequired | QCreateFailed (code : Z) (body : string)
  | QRegistry (e : string) | QUnknownRuntime (runtime role : string) | QRunner (e : string).

(** What it did of the part that starts runners: the printed text, the roles with a running loop. *)
Record SquashRun := mkSquashRun { sr_out : string; sr_started : list Role; sr_err : option SquashError }.
Definition squash_stops (e : SquashError) : SquashRun := mkSquashRun "" [] (Some e).

Section Squash.
Context {World : Type}.
Variable cwd : string + string.
Variable stat : string -> option bool.
(** The presets in the program; the decoded YAML of a file, if it can be opened. *)
Variable presets : gmap string Preset.
Variable preset_file : string -> option (option yamlPreset).
(** The connection, its requests, the registry of adapters. *)
Variable connected : bool.
Variable get : World -> string -> World * Reply.
Variable post : World -> string -> string -> World * Reply.
Variable registry : string + list string.
(** [errgroup]: the error of the loop that failed first, if one fails. *)
Variable wait : World -> string -> list Role -> World * option string.

(* src: internal/cli/squash.go 37-57 RunSquash *)
Definition squash_repo (repo : string) : SquashError + string :=
  let repoRoot := if String.eqb repo "" then match cwd with inl _ => None | inr wd => Some wd end else Some repo in
  match repoRoot with
  | None => inl QResolve
  | Some repoRoot =>
      match filepath_Abs cwd repoRoot with
      | inl _ => inl QResolve
      | inr repoRoot => match stat repoRoot with None => inl QNoRepo | Some false => inl QNotDirectory | Some true => inr repoRoot end
      end
  end.

(* src: internal/cli/squash.go 167-184 RunSquash *)
Definition find_preset (homeDir name : string) : SquashError + Preset :=
  match presets !! name with
  | Some p => inr p
  | None =>
      match preset_file (filepath_Join [homeDir; ".rallish"; "presets"; name +:+ ".yaml"]) with
      | None => inl (QNoPreset name)
      | Some yp => match Exit.Load yp with inl e => inl (QLoadPreset name e) | inr p => inr p end
      end
  end.

Definition decode_id : Into string := into_struct [MkField "id" id (fun v _ => v) enc_string into_string].

(** Only the id and the preset are used of a resumed session; the time is checked as it is decoded. *)
Definition resumed_fields : list (Field Session) :=
  [ Tag "id" se_ID enc_string into_string; Tag "preset_name" se_PresetName enc_string into_string; Tag "status" se_Status enc_string into_string;
    MkField "created_at" se_CreatedAt (fun t s => s <| se_CreatedAt := t |>) (fun t => Some (JStr (t_text t)))
      (fun j t => match into_time j (t_text t) with Some text => Some (mkTime (t_nanos t) text) | None => None end);
    Tag "turn_count" se_TurnCount enc_int into_int; Tag "task" se_Task (enc_struct Task_fields) (into_struct Task_fields) ].

(** Resuming: the session, and the preset it names. *)
(* src: internal/cli/squash.go 120-161 RunSquash *)
Definition resume_session (w : World) (opts : SquashOptions) (brokerURL : string) : World * (SquashError + (string * Preset)) :=
  let '(w, reply) := get w (brokerURL +:+ "/sessions/" +:+ sq_SessionID opts) in
  (w, match reply with
      | NoReply => inl (QRequest "resume session")
      | Status code body =>
          if (code =? 404)%Z then inl (QNotFound (sq_SessionID opts))
          else if negb (code =? 200)%Z then inl (QStatus code)
          else match Decode (mkSession "" "" "" (mkTime 0 "") 0 Task_zero) (into_struct resumed_fields) body with
               | None => inl QDecode
               | Some sess => match find_preset (sq_HomeDir opts) (se_PresetName sess) with inl e => inl e | inr p => inr (se_ID sess, p) end
               end
      end).

Definition create_body (p : Preset) (task : Task) : string := encode (encode_struct CreateBody_fields (mkCreateBody p task)).

(* src: internal/cli/squash.go 162-220 RunSquash *)
Definition create_session (w : World) (opts : SquashOptions) (brokerURL repoRoot : string) : World * (SquashError + (string * Preset)) :=
  if String.eqb (sq_Task opts) "" then (w, inl QTaskRequired)
  else match find_preset (sq_HomeDir opts) (sq_PresetName opts) with
       | inl e => (w, inl e)
       | inr p =>
           let '(w, reply) := post w (brokerURL +:+ "/sessions") (create_body p (mkTask (sq_Task opts) (sq_Task opts) repoRoot)) in
           (w, match reply with
               | NoReply => inl (QRequest "create session")
               | Status code body =>
                   if negb (code =? 201)%Z then inl (QCreateFailed code body)
                   else match Decode "" decode_id body with None => inl QDecode | Some id => inr (id, p) end
               end)
       end.

(** A loop is started for each role in turn; the first runtime that is not there ends it, with
    the loops before it running. *)
(* src: internal/cli/squash.go 230-245 RunSquash *)
Fixpoint start_loops (known : list string) (roles : list Role) : list Role * option Role :=
  match roles with
  | [] => ([], None)
  | role :: rest =>
      if existsb (String.eqb (ro_Runtime role)) known then let '(started, missing) := start_loops known rest in (role :: started, missing)
      else ([], Some role)
  end.

(** The session is there: it is printed, and its roles run until the session is over. *)
(* src: internal/cli/squash.go 222-254 RunSquash *)
Definition run_session (w : World) (homeDir repoRoot sessionID : string) (p : Preset) : World * SquashRun :=
  let out := sessionID +:+ nl in
  match registry with
  | inl e => (w, mkSquashRun out [] (Some (QRegistry e)))
  | inr known =>
      match start_loops known (ps_Roles p) with
      | (started, Some role) => (w, mkSquashRun out started (Some (QUnknownRuntime (ro_Runtime role) (ro_ID role))))
      | (started, None) =>
          match wait w sessionID started with
          | (w, Some e) => (w, mkSquashRun out started (Some (QRunner e)))
          | (w, None) =>
              let logPath := filepath_Join [homeDir; ".rallish"; "sessions"; sessionID; "log.jsonl"] in
              (w, mkSquashRun (out +:+ "Session " +:+ sessionID +:+ " in " +:+ repoRoot +:+ " completed successfully. Log: " +:+ logPath +:+ nl) started None)
          end
      end
  end.

(* src: internal/cli/squash.go 35-254 RunSquash *)
Definition RunSquash (w : World) (opts : SquashOptions) (brokerURL : string) : World * SquashRun :=
  match squash_repo (sq_Repo opts) with
  | inl e => (w, squash_stops e)
  | inr repoRoot =>
      if negb connected then (w, squash_stops QConnect)
      else
        let '(w, r) := if negb (String.eqb (sq_SessionID opts) "") then resume_session w opts brokerURL else create_session w opts brokerURL repoRoot in
        match r with
        | inl e => (w, squash_stops e)
        | inr (sessionID, p) => run_session w (sq_HomeDir opts) repoRoot sessionID p
        end
  end.
End Squash.

(** ** The request is read as it was meant *)

Definition Role_wf (r : Role) : bool := utf8_valid (ro_ID r) && utf8_valid (ro_Runtime r) && utf8_valid (ro_Model r).
Definition Preset_wf (p : Preset) : bool :=
  utf8_valid (ps_Name p) && utf8_valid (ps_Description p) && forallb Role_wf (ps_Roles p) && utf8_valid (ps_Routing p) && Budget_wf (ps_Budget p) &&
  strings_wf (default [] (ps_ExitWhen p)) && in_int64 (sc_MaxKB (ps_Scratch p)) && utf8_valid (sc_SummarizeWith (ps_Scratch p)).

Lemma Role_table : table_ok Role_zero Role_fields.
Proof. solve_table. Qed.
Lemma ScratchConfig_table : table_ok ScratchConfig_zero ScratchConfig_fields.
Proof. solve_table. Qed.
Lemma Preset_table : table_ok Preset_zero Preset_fields.
Proof. solve_table. Qed.
Lemma CreateBody_table : table_ok CreateBody_zero CreateBody_fields.
Proof. solve_table. Qed.

Lemma Role_roundtrip r : Role_wf r = true -> struct_ok Role_fields Role_zero r.
Proof. unfold Role_wf. intros. reflect_bools. solve_struct Role_table. Qed.
Lemma ScratchConfig_roundtrip s : in_int64 (sc_MaxKB s) = true -> utf8_valid (sc_SummarizeWith s) = true -> struct_ok ScratchConfig_fields ScratchConfig_zero s.
Proof. intros. solve_struct ScratchConfig_table. Qed.

Lemma enc_roles_ok l : forallb Role_wf l = true -> enc_ok enc_roles (into_slice Role_zero (into_struct Role_fields)) [] l.
Proof.
  intros H. destruct l as [|r l]; [done|]. rewrite forallb_forall in H.
  apply (opt_slice_ok Role_zero (into_struct Role_fields) (encode_struct Role_fields) (r :: l)). apply Forall_forall. intros x Hx.
  apply Role_roundtrip, H. by apply list_elem_of_In.
Qed.

#[local] Hint Resolve enc_roles_ok ScratchConfig_roundtrip : rallish_wf.

Lemma Preset_roundtrip p : Preset_wf p = true -> struct_ok Preset_fields Preset_zero p.
Proof. unfold Preset_wf. intros. reflect_bools. solve_struct Preset_table. Qed.

#[local] Hint Resolve Preset_roundtrip : rallish_wf.

Lemma create_body_read p task rest : Preset_wf p = true -> Task_wf task = true -> num_end rest = true ->
  Decode CreateBody_zero (into_struct CreateBody_fields) (create_body p task +:+ rest) = Some (mkCreateBody p task).
Proof.
  intros Hp Ht Hn. assert (Hs : struct_ok CreateBody_fields CreateBody_zero (mkCreateBody p task)) by solve_struct CreateBody_table.
  destruct Hs as [Hr Hj]. unfold Decode, create_body. by rewrite parse_prefix_encode.
Qed.

(** ** The session that is run *)

Lemma Session_read sess rest : json_wf (Session_json sess) = true -> num_end rest = true ->
  Decode "" decode_id (encode (Session_json sess) +:+ rest) = Some (se_ID sess).
Proof. intros Hj Hn. unfold Decode. by rewrite parse_prefix_encode. Qed.

Lemma Task_json_wf t : Task_wf t = true -> json_wf (encode_struct Task_fields t) = true.
Proof. intros H. by apply Task_roundtrip in H as [_ ?]. Qed.

(** What creation made: its session, registered with the preset. *)
Lemma handleCreateSession_inv alive t1 t2 fault sv p task : exists sv' r, handleCreateSession alive t1 t2 fault sv p task = Done sv' r /\
  match r with
  | inl _ => True
  | inr sess => (exists n, se_ID sess = generateID (t_nanos t1) n) /\ se_PresetName sess = ps_Name p /\ se_Status sess = "active" /\
      se_CreatedAt sess = t2 /\ se_TurnCount sess = 0%Z /\ se_Task sess = task /\ st_sessions (sv_store sv') !! se_ID sess = Some sess /\
      exists state, sv_states sv' !! se_ID sess = Some state /\ ss_preset state = p
  end.
Proof.
  unfold handleCreateSession, Create. destruct (negb alive); [by eexists _, _|]. cbv zeta. destruct (negb (validateSessionID _)); [by eexists _, _|].
  destruct fault; try by eexists _, _. eexists _, _. split; [reflexivity|]. cbn [se_ID se_PresetName se_Status se_CreatedAt se_TurnCount se_Task].
  split_and!; try done; [by eexists|cbn; by rewrite lookup_insert_eq|]. eexists. cbn. by rewrite lookup_insert_eq.
Qed.

Lemma created_json_wf sess p task n nanos : se_ID sess = generateID nanos n -> se_PresetName sess = ps_Name p -> se_Status sess = "active" ->
  se_TurnCount sess = 0%Z -> se_Task sess = task -> utf8_valid (ps_Name p) = true -> Task_wf task = true -> utf8_valid (t_text (se_CreatedAt sess)) = true ->
  json_wf (Session_json sess) = true.
Proof.
  intros Hi Hp Hs Hc Ht Hn Hw Hu. unfold Session_json. cbn [json_wf forallb fst snd]. rewrite Hi, Hp, Hs, Hc, Ht, Hn, Hu, Task_json_wf by done.
  unfold generateID. rewrite (utf8_valid_app (Itoa nanos)) by (apply utf8_valid_Itoa || (apply utf8_valid_app; [done|apply utf8_valid_Itoa])). done.
Qed.

Section Composed.
Variable cwd : string + string.
Variable stat : string -> option bool.
Variable presets : gmap string Preset.
Variable preset_file : string -> option (option yamlPreset).
Variable get : Server -> string -> Server * Reply.
Variable registry : string + list string.
Variable wait : Server -> string -> list Role -> Server * option string.
Variables (alive : bool) (t1 t2 : Time) (fault : CreateFault).

(** The daemon answers to the command. *)
Definition post_daemon (brokerURL : string) (sv : Server) (url body : string) : Server * Reply :=
  if String.eqb url (brokerURL +:+ "/sessions") then create_http alive t1 t2 fault sv body else (sv, Status 404 "").
Abbreviation squash := (RunSquash cwd stat presets preset_file true get).

Lemma start_loops_prefix known roles : fst (start_loops known roles) `prefix_of` roles /\
  (snd (start_loops known roles) = None <-> fst (start_loops known roles) = roles).
Proof.
  induction roles as [|r roles [IH1 IH2]]; [done|]. cbn [start_loops]. destruct (existsb (String.eqb (ro_Runtime r)) known); [|split; [apply prefix_nil|done]].
  destruct (start_loops known roles) as [started missing]. cbn [fst snd] in *. split; [by apply prefix_cons|]. rewrite IH2. split; [by intros ->|by intros [= ->]].
Qed.

(** C16: [rallish squash] with a task, talking to the daemon.  What the daemon makes of the request
    is what it would make of the preset and the task themselves: the body is read as it was
    meant.  When the session is created, it has the task as its title and its body and the resolved
    repository, its state has the preset of the command, and the command goes on with that session: it
    prints its id and starts the loops of the roles in order, all of them if it succeeds.  When the
    daemon does not create it, nothing is printed or started. *)
Theorem squash_creates (sv : Server) (opts : SquashOptions) (brokerURL root : string) (p : Preset) :
  sq_SessionID opts = "" -> sq_Task opts <> "" -> squash_repo cwd stat (sq_Repo opts) = inr root ->
  find_preset presets preset_file (sq_HomeDir opts) (sq_PresetName opts) = inr p ->
  Preset_wf p = true -> utf8_valid (sq_Task opts) = true -> utf8_valid root = true -> utf8_valid (t_text t2) = true ->
  let task := mkTask (sq_Task opts) (sq_Task opts) root in
  exists sv' r, handleCreateSession alive t1 t2 fault sv p task = Done sv' r /\
    let '(w, run) := squash (post_daemon brokerURL) registry wait sv opts brokerURL in
    match r with
    | inl _ => w = sv' /\ run = squash_stops (QCreateFailed 500 ("create session" +:+ nl))
    | inr sess => se_Task sess = task /\ (exists state, sv_states sv' !! se_ID sess = Some state /\ ss_preset state = p) /\
        (w, run) = run_session registry wait sv' (sq_HomeDir opts) root (se_ID sess) p /\
        HasPrefix (sr_out run) (se_ID sess +:+ nl) = true /\ sr_started run `prefix_of` ps_Roles p /\
        (sr_err run = None -> sr_started run = ps_Roles p)
    end.
Proof.
  intros Hs Ht Hr Hp Hwp Hut Hur Hu2 task. assert (Hwt : Task_wf task = true) by (unfold Task_wf; cbn; by rewrite Hut, Hur).
  destruct (handleCreateSession_inv alive t1 t2 fault sv p task) as (sv' & r & Eh & Hinv). exists sv', r. split; [done|].
  assert (Hpost : create_session presets preset_file (post_daemon brokerURL) sv opts brokerURL root =
                  (sv', match r with inl _ => inl (QCreateFailed 500 ("create session" +:+ nl)) | inr sess => inr (se_ID sess, p) end)).
  { unfold create_session. rewrite (proj2 (String.eqb_neq _ _) Ht), Hp. unfold post_daemon, create_http. rewrite String.eqb_refl.
    pose proof (create_body_read p task "" Hwp Hwt eq_refl) as Hread. rewrite string_app_nil_r in Hread. fold task. rewrite Hread.
    cbn [cb_Preset cb_Task]. rewrite Eh.
    destruct r as [e|sess]; [done|]. destruct Hinv as ((n & Hid) & Hn & Hst & Hc & Htc & Htk & _). unfold Session_body.
    rewrite Session_read; [done| |done]. eapply created_json_wf; try done; [|by rewrite Hc]. by unfold Preset_wf in Hwp; reflect_bools. }
  unfold RunSquash. rewrite Hr, Hs. cbn [negb String.eqb]. rewrite Hpost. destruct r as [e|sess]; [done|].
  destruct Hinv as (_ & _ & _ & _ & _ & Htk & _ & Hstate). destruct (run_session registry wait sv' (sq_HomeDir opts) root (se_ID sess) p) as [w run] eqn:E.
  split; [done|]. split; [done|]. split; [done|]. unfold run_session in E.
  assert (Hout : forall s, HasPrefix ((se_ID sess +:+ nl) +:+ s) (se_ID sess +:+ nl) = true) by (intros s; apply HasPrefix_spec; by exists s).
  pose proof (Hout "") as Hself. rewrite string_app_nil_r in Hself.
  destruct registry as [err|known]; [injection E as _ <-; split_and!; [exact Hself|apply prefix_nil|done]|].
  destruct (start_loops_prefix known (ps_Roles p)) as [Hpre Hall]. destruct (start_loops known (ps_Roles p)) as [started [role|]]; cbn [fst snd] in *.
  - injection E as _ <-. split_and!; [exact Hself|done|done].
  - destruct (wait sv' (se_ID sess) started) as [w' [err|]]; injection E as _ <-; cbn [sr_out sr_started sr_err]; (split_and!; [|done|intros _; by apply Hall]); [exact Hself|done].
Qed.
End Composed.

(** ** On concrete inputs *)

Definition demo_time : Time := mkTime 7 "2026-01-01T00:00:00Z".
Definition demo_opts (preset : string) : SquashOptions := mkSquashOptions preset "fix it" "" "/h" "/w".
Definition pair : Preset := mkPreset "pair" "two agents" [mkRole "a" "fake" "m"; mkRole "b" "gemini" "m"] "round_robin" (mkBudget 10 2 0 0) None (mkScratchConfig 4 "").
Definition demo_server : Server := NewServer (mkStore "/h/.rallish/sessions" 0 ∅ ∅).
Definition demo_squash (preset : string) (known : list string) : Server * SquashRun :=
  RunSquash (inr "/w") (fun _ => Some true) {["pair" := pair]} (fun _ => None) true (fun sv _ => (sv, NoReply))
    (post_daemon true demo_time demo_time CreateOk "http://rallish.local") (inr known) (fun sv _ _ => (sv, None)) demo_server (demo_opts preset) "http://rallish.local".

Example squash_creates_witness : let task := mkTask "fix it" "fix it" "/w" in
  exists sv' r, handleCreateSession true demo_time demo_time CreateOk demo_server pair task = Done sv' r /\
    let '(w, run) := demo_squash "pair" ["fake"; "gemini"] in
    match r with
    | inl _ => w = sv' /\ run = squash_stops (QCreateFailed 500 ("create session" +:+ nl))
    | inr sess => se_Task sess = task /\ (exists state, sv_states sv' !! se_ID sess = Some state /\ ss_preset state = pair) /\
        (w, run) = run_session (inr ["fake"; "gemini"]) (fun sv _ _ => (sv, None)) sv' "/h" "/w" (se_ID sess) pair /\
        HasPrefix (sr_out run) (se_ID sess +:+ nl) = true /\ sr_started run `prefix_of` ps_Roles pair /\
        (sr_err run = None -> sr_started run = ps_Roles pair)
    end.
Proof.
  apply (squash_creates (inr "/w") (fun _ => Some true) {["pair" := pair]} (fun _ => None) (fun sv _ => (sv, NoReply)) (inr ["fake"; "gemini"])
           (fun sv _ _ => (sv, None)) true demo_time demo_time CreateOk demo_server (demo_opts "pair") "http://rallish.local" "/w" pair); done.
Defined.

(** A runtime that is not installed is noticed when the session is there and other loops run. *)
Example unknown_runtime_too_late : let '(sv, run) := demo_squash "pair" ["fake"] in
  sr_started run = [mkRole "a" "fake" "m"] /\ sr_err run = Some (QUnknownRuntime "gemini" "b") /\ size (sv_states sv) = 1%nat.
Proof. vm_compute. auto. Qed.

(** A preset that [rallish add] installs below the working directory is not found. *)
Example local_preset_not_found : snd (RunSquash (inr "/w") (fun _ => Some true) ∅
    (fun path => if String.eqb path "/w/.rallish/presets/mine.yaml" then Some (Some solo_ralph_yaml) else None) true (fun sv _ => (sv, NoReply))
    (post_daemon true demo_time demo_time CreateOk "") (inr ["claude"]) (fun sv _ _ => (sv, None)) demo_server (demo_opts "mine") "") = squash_stops (QNoPreset "mine").
Proof. vm_compute. reflexivity. Qed.
