(* ===== verification/Main.v ===== *)
(** * The program

    [cmd/rallish/main.go] and [internal/buildinfo/buildinfo.go]: the exit status of a command,
    what a signal does to a running command, and [skill install].  The commands themselves are in
    the other files. *)

From S2P Require Import Prelude GoStrings Lines Contract Paths Ui Skills Setup.
From Stdlib Require Import Ascii String.
#[local] Open Scope string_scope.

(** ** Exit status *)

(** An error as [main] tells errors apart: one that carries a status, the timeout of a join, one
    that wraps an error of [pkg/contract], another one. *)
Inductive CmdError : Set := Coded (code : Z) | TimeoutWaitingForBaton | Wraps (e : ContractError) | OtherError.

Definition usage_error (e : ContractError) : bool :=
  match e with ErrInvalidName | ErrInvalidSessionID | ErrInvalidPattern => true | _ => false end.

(** The status, and whether the error is printed. *)
(* src: cmd/rallish/main.go 134-158 main *)
Definition error_exit (e : CmdError) : Z * bool :=
  match e with
  | Coded code => (code, true)
  | TimeoutWaitingForBaton => (2%Z, false)
  | Wraps e => if usage_error e then (64%Z, true) else (1%Z, true)
  | OtherError => (1%Z, true)
  end.

(** ** Signals *)

(** A process: whether its command is the daemon, whether the goroutine has taken a signal, whether
    the daemon was told to stop, the status so far, and the status it ended with. *)
Record Process := mkProcess { pc_daemon : bool; pc_caught : bool; pc_shutdown : bool; pc_code : Z; pc_exit : option Z }.
#[export] Instance eta_Process : Eta Process := fun p => mkProcess (pc_daemon p) (pc_caught p) (pc_shutdown p) (pc_code p) (pc_exit p).
Definition started (daemon : bool) : Process := mkProcess daemon false false 0 None.

(** SIGINT or SIGTERM; the command returns. *)
Inductive Event : Set := Signal | Returns (e : option CmdError).

(** The goroutine takes one signal; the ones after it stay in the channel or are dropped. *)
(* src: cmd/rallish/main.go 122-158 main *)
Definition process_step (p : Process) (ev : Event) : Process :=
  match pc_exit p with
  | Some _ => p
  | None =>
      match ev with
      | Signal => if pc_caught p then p
                  else if pc_daemon p then p <| pc_caught := true |> <| pc_shutdown := true |> else p <| pc_caught := true |> <| pc_code := 1%Z |>
      | Returns None => p <| pc_exit := Some (pc_code p) |>
      | Returns (Some e) => p <| pc_exit := Some (fst (error_exit e)) |>
      end
  end.

Lemma signals_taken n daemon : foldl process_step (started daemon) (repeat Signal (S n)) =
  if daemon then mkProcess true true true 0 None else mkProcess false true false 1 None.
Proof.
  assert (H : forall p, pc_exit p = None -> pc_caught p = true -> foldl process_step p (repeat Signal n) = p).
  { induction n as [|n IH]; intros p He Hc; [done|]. cbn [repeat foldl]. unfold process_step at 2. rewrite He, Hc. by apply IH. }
  cbn [repeat foldl]. by destruct daemon; rewrite H.
Qed.

(** Signals end no command by themselves: the daemon is told to stop, and any other command
    goes on; if it then returns without an error, the status is 1 and not 0, and if it returns an
    error, the status is that of the error. *)
Theorem signals_end_nothing (n : nat) (daemon : bool) (e : option CmdError) :
  let p := foldl process_step (started daemon) (repeat Signal n) in
  pc_exit p = None /\ pc_shutdown p = (daemon && (0 <? n)%nat) /\
  pc_exit (process_step p (Returns e)) = Some (match e with Some e => fst (error_exit e) | None => if daemon || (n =? 0)%nat then 0%Z else 1%Z end).
Proof. destruct n as [|n]; [by destruct daemon, e|]. rewrite signals_taken. by destruct daemon, e. Qed.

(** ** Version and skills *)

(** The values set by the linker; [module]: what [debug.ReadBuildInfo] knows. *)
(* src: internal/buildinfo/buildinfo.go 15-24 Version *)
Definition Version (version : string) (module : option string) : string :=
  if negb (String.eqb version "") then version else default "" module.
(* src: internal/buildinfo/buildinfo.go 36-43 String *)
Definition build_string (version commit date : string) (module : option string) : string :=
  let v := Version version module in
  "rallish " +:+ (if String.eqb v "" then "unknown" else v) +:+ " (commit: " +:+ commit +:+ ", built: " +:+ date +:+ ")".

(** Without a home directory the companion files go below the working directory. *)
(* src: cmd/rallish/main.go 200-246 skillInstallCmd *)
Definition skillInstall (embedded : list (string * string)) (f : DiskFaults) (userHome : option string) (target name : string) (d : Disk) (t : Term)
    : Disk * Term * option SetupError :=
  let dir := if String.eqb target "" then (fun home => filepath_Join [home; ".claude"; "skills"; name]) <$> userHome else Some target in
  match dir with
  | None => (d, t, Some SHomeDir)
  | Some dir =>
      match InstallNamed embedded f name dir d with
      | (d, _, Some e) => (d, t, Some (SInstall e))
      | (d, results, None) =>
          let t := show_results results (OK ("installed skill → " +:+ dir) t) in
          let '(d, t) :=
            if String.eqb name "autonomous-cycle" then
              match InstallCompanionFiles embedded f name (default "" userHome) d with
              | (d, _, Some _) => (d, Warn "companion files" t)
              | (d, rs, None) => (d, show_results rs t)
              end
            else (d, t) in
          (d, Detail "reload your coding-CLI session (or open a new chat) to pick up the skill" t, None)
      end
  end.

(** [main] prints the version line of [version] as it is. *)
Example unknown_build : build_string "" "" "" None = "rallish unknown (commit: , built: )".
Proof. reflexivity. Qed.
