(* ===== verification/CycleApi.v ===== *)
(** * The cycle endpoints of the broker

    [internal/broker/cycle.go]: the store of cycles (cached states, registered state files,
    event channels, running orchestrations), each of its locked methods, and the handlers
    that create, read, step, halt, watch and orchestrate a cycle.

    A handler is not atomic: between two accesses to the store, the state file, the ledger or
    the gates, other handlers and other processes move.  What a handler still has to do is a
    list of operations; [step] runs one operation, or one decision, of one handler.  The
    world says which accesses fail. *)

From S2P Require Import Prelude GoStrings Json Codec Contract Ledger Stuck Cycle Gates.
From Stdlib Require Import Ascii String.
#[local] Open Scope string_scope.

Section Broker.
Context {World : Type}.

(** The clock; whether an access to a file succeeds; and for a write, also whether the file
    was replaced when it failed. *)
Record CycleOps := mkCycleOps {
  co_clock : World -> Z;
  co_read : World -> World * bool;
  co_write : World -> World * option bool;
  co_remove : World -> World * bool;
  co_append : World -> World * bool;
  co_ledger : World -> World * option string }.
Variable ops : CycleOps.
(** Commands and files, for the gates. *)
Variable exec : World -> list string -> World * CmdResult.
Variable file_exists : World -> string -> bool.

(** ** State *)

(** A [chan contract.CycleEvent] of capacity 4. *)
Record EventChan := mkChan { ec_buf : list CycleEvent; ec_closed : bool }.
#[local] Instance eta_EventChan : Eta EventChan := fun r => mkChan (ec_buf r) (ec_closed r).

(** What a handler has left to do.  [OpWrite] and [OpRemove] act on the state file of a
    registered syncer; [OpGetSync] looks for it, and goes on to them when it is there. *)
Inductive Op : Type :=
  | OpAppend (id : string) (typ : LedgerEventType) (summary : string) (files : list string)
  | OpAppendGate (id : string) (report : GateReport)
  | OpGetSync (id : string) (state : CycleState) (remove : bool)
  | OpWrite (id : string) (state : CycleState)
  | OpRemove (id : string)
  | OpPut (id : string) (state : CycleState)
  | OpPutSync (id : string)
  | OpBroadcast (id : string) (state : CycleState)
  | OpCloseAll (id : string)
  | OpUnsubscribe (id : string) (ch : nat).

(** A handler in flight. *)
Inductive Handler : Type :=
  | HOps (l : list Op)
  | HStepGet (id goal : string)                       (* refreshed *)
  | HStepLedger (id goal : string) (state : CycleState)
  | HStepRun (id : string) (state : CycleState)       (* about to run the gates *)
  | HSubscribe (id : string)                          (* first event written *)
  | HWatch (id : string) (ch : nat)
  | HOrchLedger (id : string)
  | HOrchLock (id : string)
  | HOrchestrating (id : string).                     (* the goroutine of an orchestration *)

(** The store of the server, and what lies outside: the state files, the ledgers, the event
    channels and the handlers in flight. *)
(* src: internal/broker/cycle.go 32-50 cycleStore *)
Record CycleServer := mkCycleServer {
  cy_states : gmap string CycleState; cy_syncs : gset string; cy_events : gmap string (list nat);
  cy_orchestrating : gset string; cy_files : gmap string CycleState;
  cy_ledgers : gmap string (list HarnessLedgerEntry); cy_chans : gmap nat EventChan; cy_next : nat;
  cy_handlers : gmap nat Handler; cy_world : World }.
#[local] Instance eta_CycleServer : Eta CycleServer :=
  fun r => mkCycleServer (cy_states r) (cy_syncs r) (cy_events r) (cy_orchestrating r) (cy_files r) (cy_ledgers r)
    (cy_chans r) (cy_next r) (cy_handlers r) (cy_world r).

Definition ledger_of (sv : CycleServer) (id : string) : list HarnessLedgerEntry := default [] (cy_ledgers sv !! id).
Definition events_of (sv : CycleServer) (id : string) : list nat := default [] (cy_events sv !! id).
Definition now (sv : CycleServer) : Z := co_clock ops (cy_world sv).

(** ** The methods of the store *)

(** A state file that cannot be read, is missing or holds no id is no cycle. *)
(* src: internal/broker/cycle.go 587-592 loadCycleFromFile *)
Definition loadCycleFromFile (sv : CycleServer) (id : string) : CycleServer * option CycleState :=
  let '(w, ok) := co_read ops (cy_world sv) in
  let sv := sv <| cy_world := w |> in
  (sv, if ok then match cy_files sv !! id with
                  | Some fs => if String.eqb (s_ID fs) "" then None else Some fs
                  | None => None
                  end
       else None).

Definition register (sv : CycleServer) (id : string) (fs : CycleState) : CycleServer :=
  sv <| cy_states := <[id := fs]> (cy_states sv) |> <| cy_syncs := {[id]} ∪ cy_syncs sv |>.

(* src: internal/broker/cycle.go 73-92 cycleStore.get *)
Definition get (sv : CycleServer) (id : string) : CycleServer * option CycleState :=
  match cy_states sv !! id with
  | Some s => (sv, Some s)
  | None =>
      let '(sv, r) := loadCycleFromFile sv id in
      match r with
      | None => (sv, None)
      | Some fs => (register sv id fs, Some fs)
      end
  end.

(* src: internal/broker/cycle.go 94-98 cycleStore.put *)
Definition put (sv : CycleServer) (id : string) (state : CycleState) : CycleServer :=
  sv <| cy_states := <[id := state]> (cy_states sv) |>.

(* src: internal/broker/cycle.go 100-107 cycleStore.getSync *)
Definition getSync (sv : CycleServer) (id : string) : bool := bool_decide (id ∈ cy_syncs sv).

(* src: internal/broker/cycle.go 109-116 cycleStore.putSync *)
Definition putSync (sv : CycleServer) (id : string) : CycleServer := sv <| cy_syncs := {[id]} ∪ cy_syncs sv |>.

(* src: internal/broker/cycle.go 118-139 cycleStore.refreshFromFile *)
Definition refreshFromFile (sv : CycleServer) (id : string) : CycleServer :=
  let '(sv, r) := loadCycleFromFile sv id in
  match r with
  | None => sv
  | Some fs =>
      match cy_states sv !! id with
      | Some cached => if (s_UpdatedAt fs <? s_UpdatedAt cached)%Z then sv else register sv id fs
      | None => register sv id fs
      end
  end.

(* src: internal/broker/cycle.go 141-147 cycleStore.subscribe *)
Definition subscribe (sv : CycleServer) (id : string) : CycleServer * nat :=
  let ch := cy_next sv in
  (sv <| cy_chans := <[ch := mkChan [] false]> (cy_chans sv) |> <| cy_next := S ch |>
      <| cy_events := <[id := (events_of sv id ++ [ch])%list]> (cy_events sv) |>, ch).

(** [close(ch)]; [None] is the panic of closing a closed channel. *)
Definition close_chan (chans : gmap nat EventChan) (ch : nat) : option (gmap nat EventChan) :=
  match chans !! ch with
  | Some c => if ec_closed c then None else Some (<[ch := c <| ec_closed := true |>]> chans)
  | None => None
  end.

Fixpoint close_chans (chans : gmap nat EventChan) (chs : list nat) : option (gmap nat EventChan) :=
  match chs with
  | [] => Some chans
  | ch :: rest => match close_chan chans ch with Some chans => close_chans chans rest | None => None end
  end.

(** What the store is after the method, and whether it panicked; the mutex is released by
    [defer] in either case. *)
(* src: internal/broker/cycle.go 149-160 cycleStore.unsubscribe *)
Definition unsubscribe (sv : CycleServer) (id : string) (ch : nat) : CycleServer * bool :=
  let filtered := List.filter (fun c => negb (Nat.eqb c ch)) (events_of sv id) in
  let sv := sv <| cy_events := <[id := filtered]> (cy_events sv) |> in
  match close_chan (cy_chans sv) ch with
  | Some chans => (sv <| cy_chans := chans |>, true)
  | None => (sv, false)
  end.

(** [select { case ch <- evt: default: }] over the channels; [None] is the panic of a send on
    a closed channel. *)
(* src: internal/broker/cycle.go 162-171 cycleStore.broadcast *)
Fixpoint send_all (chans : gmap nat EventChan) (chs : list nat) (evt : CycleEvent) : option (gmap nat EventChan) :=
  match chs with
  | [] => Some chans
  | ch :: rest =>
      match chans !! ch with
      | None => None
      | Some c =>
          if ec_closed c then None
          else
            let chans := if (List.length (ec_buf c) <? 4)%nat then <[ch := c <| ec_buf := (ec_buf c ++ [evt])%list |>]> chans
                         else chans in
            send_all chans rest evt
      end
  end.

(* src: internal/broker/cycle.go 162-171 cycleStore.broadcast *)
Definition broadcast (sv : CycleServer) (id : string) (evt : CycleEvent) : CycleServer * bool :=
  match send_all (cy_chans sv) (events_of sv id) evt with
  | Some chans => (sv <| cy_chans := chans |>, true)
  | None => (sv, false)
  end.

(* src: internal/broker/cycle.go 173-182 cycleStore.closeAll *)
Definition closeAll (sv : CycleServer) (id : string) : CycleServer * bool :=
  match close_chans (cy_chans sv) (events_of sv id) with
  | Some chans =>
      (sv <| cy_chans := chans |> <| cy_events := delete id (cy_events sv) |> <| cy_states := delete id (cy_states sv) |>
          <| cy_syncs := cy_syncs sv ∖ {[id]} |>, true)
  | None => (sv, false)
  end.

(** ** Files and ledgers *)

(** An append that fails is logged, and the handler goes on. *)
(* src: internal/broker/cycle.go 594-599 Server.appendLedger *)
Definition appendLedger (sv : CycleServer) (id : string) (entry : HarnessLedgerEntry) : CycleServer :=
  let '(w, ok) := co_append ops (cy_world sv) in
  let sv := sv <| cy_world := w |> in
  if ok then sv <| cy_ledgers := <[id := (ledger_of sv id ++ [entry])%list]> (cy_ledgers sv) |> else sv.

(** The state file is replaced when the write reports no error, and sometimes when it
    does; whether it reported one. *)
Definition write_file (sv : CycleServer) (id : string) (state : CycleState) : CycleServer * bool :=
  let '(w, r) := co_write ops (cy_world sv) in
  let sv := sv <| cy_world := w |> in
  let written := sv <| cy_files := <[id := state]> (cy_files sv) |> in
  match r with
  | None => (written, true)
  | Some replaced => (if replaced then written else sv, false)
  end.

Definition remove_file (sv : CycleServer) (id : string) : CycleServer :=
  let '(w, ok) := co_remove ops (cy_world sv) in
  let sv := sv <| cy_world := w |> in
  if ok then sv <| cy_files := delete id (cy_files sv) |> else sv.

Definition read_ledger (sv : CycleServer) (id : string) : CycleServer * (string + list HarnessLedgerEntry) :=
  let '(w, e) := co_ledger ops (cy_world sv) in
  let sv := sv <| cy_world := w |> in
  (sv, match e with Some e => inl e | None => inr (ledger_of sv id) end).

(** ** The pipeline of a state *)

Definition standard (auditCmd polishTestCmd : string) (localGates : list string) : Pipeline World :=
  StandardPipeline exec file_exists (co_clock ops) auditCmd polishTestCmd localGates.
Definition commandGate (rawCmd : string) : Gate World := mkGate ("cmd:" +:+ rawCmd) (CommandGate_Run exec (co_clock ops) rawCmd).

(** The loop that inserts the local gates after the audit gate. *)
(* src: internal/broker/cycle.go 618-628 Server.pipelineForState *)
Definition insert_local (localGates : list string) (base : Pipeline World) : Pipeline World :=
  flat_map (fun gate => gate :: (if String.eqb (gate_Name gate) "audit" then map commandGate localGates else [])) base.

(* src: internal/broker/cycle.go 601-629 Server.pipelineForState *)
Definition pipelineForState (cyclePipeline : option (Pipeline World)) (state : CycleState) : Pipeline World :=
  if negb (String.eqb (s_AuditCmd state) "") || negb (String.eqb (s_PolishTestCmd state) "") then
    standard (s_AuditCmd state) (s_PolishTestCmd state) (s_LocalGates state)
  else
    match cyclePipeline with
    | None => standard (s_AuditCmd state) (s_PolishTestCmd state) (s_LocalGates state)
    | Some base => match s_LocalGates state with [] => base | gates => insert_local gates base end
    end.

(* src: internal/broker/cycle.go 184-188 Server.registerCycleRoutes *)
Definition default_pipeline (cyclePipeline : option (Pipeline World)) : option (Pipeline World) :=
  Some (default (standard "" "" []) cyclePipeline).

(** ** Decisions of the handlers *)

Inductive Status : Type :=
  | SNotFound | SBadRequest | SSealed (reason : HaltReason) | SConflict | SUnavailable | SInternal
  | SOk (state : CycleState) | SCreated (state : CycleState) | SAccepted.

(** Create, up to the write of the state file. *)
(* src: internal/broker/cycle.go 202-232 Server.handleCreateCycle *)
Definition create_decide (sv : CycleServer) (req : NewCycleRequest) (random : string)
    : CycleServer * (Status + (CycleState * list Op)) :=
  let id := "cyc_" +:+ Itoa (now sv) +:+ "_" +:+ random in
  match NewState (now sv) req id with
  | inl _ => (sv, inl SBadRequest)
  | inr state =>
      let '(sv, ok) := write_file sv id state in
      if ok then
        (sv, inr (state, [OpPut id state; OpPutSync id; OpAppend id LedgerEventCycleCreated "cycle created" (s_PendingFiles state)]))
      else (sv, inl SInternal)
  end.

(** The body of the answer holds at most the last 50 reports. *)
(* src: internal/broker/cycle.go 243-269 Server.handleGetCycle *)
Definition handleGetCycle (sv : CycleServer) (id : string) : CycleServer * Status :=
  let '(sv, r) := get (refreshFromFile sv id) id in
  match r with
  | None => (sv, SNotFound)
  | Some state =>
      let h := s_History state in
      (sv, SOk (if (50 <? List.length h)%nat then state <| s_History := skipn (List.length h - 50) h |> else state))
  end.

(* src: internal/broker/cycle.go 271-293 Server.handleCycleLedger *)
Definition handleCycleLedger (sv : CycleServer) (id : string) : CycleServer * (Status + list HarnessLedgerEntry) :=
  let '(sv, r) := read_ledger sv id in
  match r with
  | inl _ => (sv, inl SInternal)
  | inr [] => let '(sv, s) := get sv id in (sv, match s with Some _ => inr [] | None => inl SNotFound end)
  | inr entries => (sv, inr entries)
  end.

(** The step: the seal of the ledger, then the goal. *)
(* src: internal/broker/cycle.go 312-335 Server.handleStepCycle *)
Definition step_ledger (sv : CycleServer) (id goal : string) (state : CycleState) : CycleServer * (Status + CycleState) :=
  let '(sv, r) := read_ledger sv id in
  match r with
  | inl _ => (sv, inl SInternal)
  | inr entries =>
      match LedgerSealsResume entries with
      | Some reason => (sv, inl (SSealed reason))
      | None =>
          let state := if negb (String.eqb goal "") then state <| s_NextCycleGoal := goal |> else state in
          if String.eqb (TrimSpace (s_NextCycleGoal state)) "" then (sv, inl SBadRequest) else (sv, inr state)
      end
  end.

(* src: internal/broker/cycle.go 366-383 Server.handleStepCycle *)
Definition claim_ops (id : string) (report : GateReport) : list Op :=
  if String.eqb (g_Gate report) "claim" then
    map (fun cc =>
           let summary := v_Message (cc_Violation cc) in
           if cc_Verified cc then OpAppend id LedgerEventClaimVerified ("verified: " +:+ summary) [v_File (cc_Violation cc)]
           else OpAppend id LedgerEventClaimFalsified ("falsified: " +:+ summary) [v_File (cc_Violation cc)])
      (g_ClaimChecks report)
  else [].

(** The state after the gates, and what is left to do with it. *)
(* src: internal/broker/cycle.go 339-389 Server.handleStepCycle *)
Definition step_finish (at_ : Z) (id : string) (result : Result CycleState) : CycleState * list Op :=
  let state := if IsSuccess result then (value (CompleteCycle at_ (value result))) <| s_NextCycleGoal := "" |> else value result in
  (state,
   (if IsSuccess result
    then [OpAppend id LedgerEventValidationGreen "gate pipeline passed" []; OpAppend id LedgerEventCycleCompleted "cycle step completed" []]
    else []) ++
   flat_map (fun report => OpAppendGate id report :: claim_ops id report) (reports result) ++
   [OpGetSync id state false; OpPut id state; OpBroadcast id state])%list.

(* src: internal/broker/cycle.go 337-389 Server.handleStepCycle *)
Definition step_run (cyclePipeline : option (Pipeline World)) (sv : CycleServer) (id : string) (state : CycleState)
    : CycleServer * (CycleState * list Op) :=
  let '(w, result) := Execute (co_clock ops) (pipelineForState cyclePipeline state) (cy_world sv) state in
  let sv := sv <| cy_world := w |> in
  (sv, step_finish (now sv) id result).

(* src: internal/broker/cycle.go 417-422 Server.handleHaltCycle *)
Definition halt_reason (reason : string) : HaltReason :=
  if String.eqb reason "" then HaltUserRequested
  else match ParseHaltReason reason with inr r => r | inl _ => HaltUserRequested end.

(* src: internal/broker/cycle.go 424-438 Server.handleHaltCycle *)
Definition halt_ops (at_ : Z) (id : string) (state : CycleState) (reason : string) : list Op :=
  let r := halt_reason reason in
  let halted := value (Halt at_ state r) in
  [OpGetSync id halted true; OpAppend id LedgerEventCycleHalted (halt_string r) []; OpPut id halted; OpBroadcast id halted; OpCloseAll id].

(** ** Running operations *)

(** One operation: the server, what it adds to the list, and whether it panicked. *)
Definition run_op (sv : CycleServer) (op : Op) : CycleServer * list Op * bool :=
  match op with
  | OpAppend id typ summary files => (appendLedger sv id (NewHarnessLedgerEntry (now sv) id typ summary files), [], true)
  | OpAppendGate id report => (appendLedger sv id (NewGateLedgerEntry (now sv) id report), [], true)
  | OpGetSync id state remove =>
      (sv, if getSync sv id then OpWrite id state :: (if remove then [OpRemove id] else []) else [], true)
  | OpWrite id state => (fst (write_file sv id state), [], true)
  | OpRemove id => (remove_file sv id, [], true)
  | OpPut id state => (put sv id state, [], true)
  | OpPutSync id => (putSync sv id, [], true)
  | OpBroadcast id state => let '(sv, ok) := broadcast sv id (NewCycleEvent (now sv) state) in (sv, [], ok)
  | OpCloseAll id => let '(sv, ok) := closeAll sv id in (sv, [], ok)
  | OpUnsubscribe id ch => let '(sv, ok) := unsubscribe sv id ch in (sv, [], ok)
  end.

(** A list run without interruption; [OpGetSync] adds at most two operations.  [None]: a
    panic, or the fuel is spent. *)
Fixpoint run_ops (fuel : nat) (sv : CycleServer) (l : list Op) : option CycleServer :=
  match fuel, l with
  | _, [] => Some sv
  | O, _ => None
  | S fuel, op :: rest =>
      match run_op sv op with
      | (sv, more, true) => run_ops fuel sv (more ++ rest)%list
      | (_, _, false) => None
      end
  end.

(** A handler that nothing interrupts. *)
(* src: internal/broker/cycle.go 295-401 Server.handleStepCycle *)
Definition handleStepCycle (cyclePipeline : option (Pipeline World)) (sv : CycleServer) (id goal : string)
    : option (CycleServer * Status) :=
  let '(sv, r) := get (refreshFromFile sv id) id in
  match r with
  | None => Some (sv, SNotFound)
  | Some state =>
      let '(sv, r) := step_ledger sv id goal state in
      match r with
      | inl status => Some (sv, status)
      | inr state =>
          let '(sv, (state, l)) := step_run cyclePipeline sv id state in
          option_map (fun sv => (sv, SOk state)) (run_ops (3 * List.length l) sv l)
      end
  end.

(* src: internal/broker/cycle.go 403-446 Server.handleHaltCycle *)
Definition handleHaltCycle (sv : CycleServer) (id reason : string) : option (CycleServer * Status) :=
  let '(sv, r) := get sv id in
  match r with
  | None => Some (sv, SNotFound)
  | Some state =>
      option_map (fun sv' => (sv', SOk (value (Halt (now sv) state (halt_reason reason)))))
        (run_ops 15 sv (halt_ops (now sv) id state reason))
  end.

(* src: internal/broker/cycle.go 198-241 Server.handleCreateCycle *)
Definition handleCreateCycle (sv : CycleServer) (req : NewCycleRequest) (random : string) : option (CycleServer * Status) :=
  let '(sv, r) := create_decide sv req random in
  match r with
  | inl status => Some (sv, status)
  | inr (state, l) => option_map (fun sv => (sv, SCreated state)) (run_ops 3 sv l)
  end.

(** The parts of an orchestration request. *)
(* src: internal/broker/cycle.go 535-548 Server.handleOrchestrate *)
Definition orch_ledger (sv : CycleServer) (id : string) : CycleServer * option Status :=
  let '(sv, r) := read_ledger sv id in
  match r with
  | inl _ => (sv, Some SInternal)
  | inr entries => (sv, match LedgerSealsResume entries with Some reason => Some (SSealed reason) | None => None end)
  end.

(** The guard against a second orchestration of a cycle. *)
(* src: internal/broker/cycle.go 550-557 Server.handleOrchestrate *)
Definition orch_lock (sv : CycleServer) (id : string) : CycleServer * bool :=
  if bool_decide (id ∈ cy_orchestrating sv) then (sv, false)
  else (sv <| cy_orchestrating := {[id]} ∪ cy_orchestrating sv |>, true).

(* src: internal/broker/cycle.go 568-572 Server.handleOrchestrate *)
Definition orch_end (sv : CycleServer) (id : string) : CycleServer :=
  sv <| cy_orchestrating := cy_orchestrating sv ∖ {[id]} |>.

(** ** Steps *)

(** A request arrives, a handler moves on, or another process (a one-shot run, the
    goroutine of an orchestration) writes the state file or the ledger. *)
Inductive Label : Type :=
  | LCreate (req : NewCycleRequest) (random : string)
  | LGet (id : string)
  | LLedger (id : string)
  | LStep (id goal : string)
  | LHalt (id reason : string)
  | LEvents (id : string)
  | LOrchestrate (id : string) (decoded registry : bool)
  | LRun (k : nat)
  | LLeave (k : nat)                     (* the client of a watcher is gone *)
  | LWrite (id : string) (state : CycleState)
  | LAppend (id : string) (entry : HarnessLedgerEntry).

Definition spawn (sv : CycleServer) (h : Handler) : CycleServer :=
  sv <| cy_handlers := <[cy_next sv := h]> (cy_handlers sv) |> <| cy_next := S (cy_next sv) |>.
Definition goes_on (sv : CycleServer) (k : nat) (h : Handler) : CycleServer := sv <| cy_handlers := <[k := h]> (cy_handlers sv) |>.
Definition ends (sv : CycleServer) (k : nat) : CycleServer := sv <| cy_handlers := delete k (cy_handlers sv) |>.

(** A watcher receives an event, or sees its channel closed and drained, or waits ([None]).
    It leaves after the event of a halt. *)
(* src: internal/broker/cycle.go 479-503 Server.handleCycleEvents *)
Definition watch_step (sv : CycleServer) (k : nat) (id : string) (ch : nat) : option CycleServer :=
  match cy_chans sv !! ch with
  | None => None
  | Some c =>
      match ec_buf c with
      | evt :: rest =>
          let sv := sv <| cy_chans := <[ch := c <| ec_buf := rest |>]> (cy_chans sv) |> in
          Some (if ce_Halted evt then goes_on sv k (HOps [OpUnsubscribe id ch]) else sv)
      | [] => if ec_closed c then Some (goes_on sv k (HOps [OpUnsubscribe id ch])) else None
      end
  end.

(** The next move of the handler [k]; the flag is false when it panicked. *)
Definition run_handler (cyclePipeline : option (Pipeline World)) (sv : CycleServer) (k : nat) (h : Handler)
    : option (CycleServer * bool) :=
  match h with
  | HOps [] => Some (ends sv k, true)
  | HOps (op :: rest) =>
      match run_op sv op with
      | (sv, more, true) => Some (goes_on sv k (HOps (more ++ rest)), true)
      | (sv, _, false) => Some (ends sv k, false)
      end
  | HStepGet id goal =>
      let '(sv, r) := get sv id in
      Some (match r with Some state => goes_on sv k (HStepLedger id goal state) | None => ends sv k end, true)
  | HStepLedger id goal state =>
      let '(sv, r) := step_ledger sv id goal state in
      Some (match r with inr state => goes_on sv k (HStepRun id state) | inl _ => ends sv k end, true)
  | HStepRun id state => let '(sv, (_, l)) := step_run cyclePipeline sv id state in Some (goes_on sv k (HOps l), true)
  | HSubscribe id => let '(sv, ch) := subscribe sv id in Some (goes_on sv k (HWatch id ch), true)
  | HWatch id ch => option_map (fun sv => (sv, true)) (watch_step sv k id ch)
  | HOrchLedger id =>
      let '(sv, r) := orch_ledger sv id in
      Some (match r with Some _ => ends sv k | None => goes_on sv k (HOrchLock id) end, true)
  | HOrchLock id => let '(sv, ok) := orch_lock sv id in Some (if ok then goes_on sv k (HOrchestrating id) else ends sv k, true)
  | HOrchestrating id => Some (orch_end (ends sv k) id, true)
  end.

Definition step (cyclePipeline : option (Pipeline World)) (l : Label) (sv : CycleServer) : option (CycleServer * bool) :=
  match l with
  | LCreate req random =>
      let '(sv, r) := create_decide sv req random in
      Some (match r with inr (_, l) => spawn sv (HOps l) | inl _ => sv end, true)
  | LGet id => Some (fst (handleGetCycle sv id), true)
  | LLedger id => Some (fst (handleCycleLedger sv id), true)
  | LStep id goal => Some (spawn (refreshFromFile sv id) (HStepGet id goal), true)
  | LHalt id reason =>
      let '(sv, r) := get sv id in
      Some (match r with Some state => spawn sv (HOps (halt_ops (now sv) id state reason)) | None => sv end, true)
  | LEvents id =>
      let '(sv, r) := get sv id in Some (match r with Some _ => spawn sv (HSubscribe id) | None => sv end, true)
  | LOrchestrate id decoded registry =>
      let '(sv, r) := get sv id in
      Some (match r with
            | Some _ => if decoded then let sv := if getSync sv id then sv else putSync sv id in
                                        if registry then spawn sv (HOrchLedger id) else sv
                        else sv
            | None => sv
            end, true)
  | LRun k => match cy_handlers sv !! k with Some h => run_handler cyclePipeline sv k h | None => None end
  | LLeave k =>
      match cy_handlers sv !! k with Some (HWatch id ch) => Some (goes_on sv k (HOps [OpUnsubscribe id ch]), true) | _ => None end
  | LWrite id state => Some (sv <| cy_files := <[id := state]> (cy_files sv) |>, true)
  | LAppend id entry => Some (sv <| cy_ledgers := <[id := (ledger_of sv id ++ [entry])%list]> (cy_ledgers sv) |>, true)
  end.

(* src: internal/broker/cycle.go 42-50 newCycleStore *)
Definition newCycleServer (w : World) : CycleServer := mkCycleServer ∅ ∅ ∅ ∅ ∅ ∅ ∅ 0 ∅ w.

Inductive Reachable (cyclePipeline : option (Pipeline World)) (w : World) : CycleServer -> Prop :=
  | R_init : Reachable cyclePipeline w (newCycleServer w)
  | R_step l sv sv' ok : Reachable cyclePipeline w sv -> step cyclePipeline l sv = Some (sv', ok) -> Reachable cyclePipeline w sv'.
End Broker.
Arguments CycleOps World : clear implicits.
Arguments CycleServer World : clear implicits.
#[export] Existing Instance eta_EventChan.
#[export] Existing Instance eta_CycleServer.
