(* ===== verification/CycleApiSpec.v ===== *)
(** * CycleApiSpec: what the cycle endpoints promise

    The cache against the state file, the sealed ledger against a step, one orchestration
    per cycle, the event channels in every interleaving of the handlers, and the runs in
    which a halt loses against a handler in flight. *)

From S2P Require Import Prelude GoStrings Json Codec Contract Ledger Stuck Cycle Gates CycleApi.
From Stdlib Require Import Ascii String.
#[local] Open Scope string_scope.

Section Spec.
Context {World : Type} (ops : CycleOps World) (exec : World -> list string -> World * CmdResult)
  (file_exists : World -> string -> bool).
Implicit Type sv : CycleServer World.

(** Lookups in a map that was updated at one key. *)
Ltac at_key :=
  repeat match goal with
    | H : <[?i := _]> _ !! ?j = Some _ |- _ =>
        destruct (decide (j = i)) as [->|]; [rewrite lookup_insert_eq in H; try discriminate H; apply (inj Some) in H;
           match type of H with _ = ?y => try (is_var y; subst y) end
        |rewrite lookup_insert_ne in H by done]
    | H : delete ?i _ !! ?j = Some _ |- _ =>
        destruct (decide (j = i)) as [->|]; [by rewrite lookup_delete_eq in H|rewrite lookup_delete_ne in H by done]
    end.

(** ** The pipeline of a state *)

Lemma insert_local_none gates (base : Pipeline World) :
  Forall (fun g => String.eqb (gate_Name g) "audit" = false) base -> insert_local ops exec gates base = base.
Proof. induction 1 as [|g base Hg _ IH]; [done|]. unfold insert_local in *. cbn. by rewrite Hg, IH. Qed.

(** With the pipeline the server registers when none is injected, the pipeline of every
    state is the standard one with the state's overrides and local gates: the insertion of
    the local gates after the audit gate is the insertion the standard pipeline makes. *)
Theorem pipelineForState_standard state :
  pipelineForState ops exec file_exists (default_pipeline ops exec file_exists None) state =
  StandardPipeline exec file_exists (co_clock ops) (s_AuditCmd state) (s_PolishTestCmd state) (s_LocalGates state).
Proof.
  unfold pipelineForState. destruct (String.eqb_spec (s_AuditCmd state) "") as [->|]; [|done].
  destruct (String.eqb_spec (s_PolishTestCmd state) "") as [->|]; [|done]. cbn [negb orb default_pipeline default].
  destruct (s_LocalGates state) as [|g gates] eqn:E; [done|]. rewrite <-E. unfold standard, StandardPipeline, insert_local.
  cbn [map flat_map app gate_Name]. done.
Qed.

(** The gates of the pipeline of a state leave the plan alone when the injected ones do. *)
Lemma framed_pipelineForState cp state : (forall base, cp = Some base -> FramedPipeline base) ->
  FramedPipeline (pipelineForState ops exec file_exists cp state).
Proof.
  intros H. unfold pipelineForState, standard. destruct (_ || _); [apply _|]. destruct cp as [base|]; [|apply _].
  specialize (H base eq_refl). destruct (s_LocalGates state) as [|g gates]; [done|]. unfold insert_local.
  induction H as [|x base Hx _ IH]; [constructor|]. cbn. apply framed_cons; [done|]. apply framed_app; [|exact IH].
  destruct (String.eqb (gate_Name x) "audit"); apply _.
Qed.

(** ** The cache and the state file *)

(** What concerns the channels and the handlers. *)
Definition frame sv sv' : Prop :=
  cy_events sv' = cy_events sv /\ cy_chans sv' = cy_chans sv /\ cy_handlers sv' = cy_handlers sv /\
  cy_next sv' = cy_next sv /\ cy_orchestrating sv' = cy_orchestrating sv.
(** What lies outside the store. *)
Definition outside sv sv' : Prop := cy_ledgers sv' = cy_ledgers sv /\ cy_files sv' = cy_files sv.

Lemma load_frame sv id : exists w, fst (loadCycleFromFile ops sv id) = sv <| cy_world := w |>.
Proof. unfold loadCycleFromFile. destruct (co_read ops (cy_world sv)) as [w ok]. by exists w. Qed.

Lemma refresh_frame sv id : frame sv (refreshFromFile ops sv id) /\ outside sv (refreshFromFile ops sv id).
Proof.
  unfold refreshFromFile. destruct (load_frame sv id) as [w Hw]. destruct (loadCycleFromFile ops sv id) as [sv1 [fs|]]; cbn in Hw; subst sv1; [|done].
  destruct (cy_states _ !! id) as [c|]; [destruct (_ <? _)%Z|]; done.
Qed.

Lemma get_frame sv id : frame sv (fst (CycleApi.get ops sv id)) /\ outside sv (fst (CycleApi.get ops sv id)).
Proof.
  unfold CycleApi.get. destruct (cy_states sv !! id) as [c|]; [done|].
  destruct (load_frame sv id) as [w Hw]. by destruct (loadCycleFromFile ops sv id) as [sv1 [fs|]]; cbn in Hw; subst sv1.
Qed.

Lemma read_ledger_frame sv id : frame sv (fst (read_ledger ops sv id)) /\ outside sv (fst (read_ledger ops sv id)).
Proof. unfold read_ledger. by destruct (co_ledger ops (cy_world sv)) as [w e]. Qed.

Lemma step_ledger_frame sv id goal state :
  frame sv (fst (step_ledger ops sv id goal state)) /\ outside sv (fst (step_ledger ops sv id goal state)).
Proof.
  unfold step_ledger. pose proof (read_ledger_frame sv id) as H. destruct (read_ledger ops sv id) as [sv1 [e|es]]; [done|].
  destruct (LedgerSealsResume es); [done|]. by destruct (String.eqb (TrimSpace _) "").
Qed.

(** Reconciling with the state file never takes the cache back in time: afterwards the
    cached state is the one cached before or the one in the file, whichever was updated
    last (the file at equal times); a file that cannot be read, is missing or holds no id
    changes nothing; and no other cycle, file, ledger or channel is touched. *)
Theorem refresh_fresh sv id :
  let sv' := refreshFromFile ops sv id in
  (forall c', cy_states sv' !! id = Some c' ->
     (cy_states sv !! id = Some c' \/ cy_files sv !! id = Some c') /\
     (forall c, cy_states sv !! id = Some c -> (s_UpdatedAt c <= s_UpdatedAt c')%Z)) /\
  (snd (co_read ops (cy_world sv)) = true -> forall f, cy_files sv !! id = Some f -> s_ID f <> "" ->
     exists c', cy_states sv' !! id = Some c' /\ (s_UpdatedAt f <= s_UpdatedAt c')%Z) /\
  (forall i, i <> id -> cy_states sv' !! i = cy_states sv !! i) /\
  cy_files sv' = cy_files sv /\ cy_ledgers sv' = cy_ledgers sv /\ cy_chans sv' = cy_chans sv /\ cy_events sv' = cy_events sv.
Proof.
  cbv zeta. unfold refreshFromFile, loadCycleFromFile. destruct (co_read ops (cy_world sv)) as [w ok]. cbn.
  assert (Hkeep : forall c', cy_states sv !! id = Some c' ->
    (cy_states sv !! id = Some c' \/ cy_files sv !! id = Some c') /\
    (forall c, cy_states sv !! id = Some c -> (s_UpdatedAt c <= s_UpdatedAt c')%Z)).
  { intros c' Hc. split; [by left|]. intros c Hc'. assert (c = c') as -> by congruence. lia. }
  destruct ok; [|split; [exact Hkeep|by split_and!]].
  destruct (cy_files sv !! id) as [f|] eqn:Hf; [|split; [exact Hkeep|by split_and!]].
  destruct (String.eqb_spec (s_ID f) "") as [He|He].
  { split; [exact Hkeep|]. split_and!; try done. by intros _ ? [= <-]. }
  destruct (cy_states sv !! id) as [c|] eqn:Hc; [destruct (s_UpdatedAt f <? s_UpdatedAt c)%Z eqn:Hlt|]; reflect_bools.
  - cbn. rewrite Hc. split; [exact Hkeep|]. split_and!; try done. intros _ f' [= <-] _. exists c. split; [done|lia].
  - cbn. rewrite lookup_insert_eq. split; [|split_and!; try done].
    + intros c' [= <-]. split; [by right|]. intros c0 [= <-]. lia.
    + intros _ f' [= <-] _. exists f. split; [done|lia].
    + intros i Hi. by rewrite lookup_insert_ne.
  - cbn. rewrite lookup_insert_eq. split; [|split_and!; try done].
    + intros c' [= <-]. split; [by right|done].
    + intros _ f' [= <-] _. exists f. split; [done|lia].
    + intros i Hi. by rewrite lookup_insert_ne.
Qed.

(** The answer to a reader holds at most fifty reports, the most recent ones, whatever
    the history has grown to; everything else is the cached state. *)
Theorem history_bounded sv id sv' state : handleGetCycle ops sv id = (sv', SOk state) ->
  (List.length (s_History state) <= 50)%nat /\
  exists cached old, cy_states sv' !! id = Some cached /\ s_History cached = (old ++ s_History state)%list /\
    state = cached <| s_History := s_History state |>.
Proof.
  unfold handleGetCycle. set (sv0 := refreshFromFile ops sv id). unfold CycleApi.get, loadCycleFromFile.
  assert (H : forall sv1 cached, cy_states sv1 !! id = Some cached -> forall sv' state,
    (sv1, SOk (if (50 <? List.length (s_History cached))%nat then cached <| s_History := skipn (List.length (s_History cached) - 50) (s_History cached) |>
               else cached)) = (sv', SOk state) ->
    (List.length (s_History state) <= 50)%nat /\
    exists cached old, cy_states sv' !! id = Some cached /\ s_History cached = (old ++ s_History state)%list /\
      state = cached <| s_History := s_History state |>).
  { clear. intros sv1 cached Hc sv' state [= <- <-]. destruct (50 <? List.length (s_History cached))%nat eqn:Hl.
    - cbn [s_History set_with eta]. split; [cbn; rewrite length_skipn; apply Nat.ltb_lt in Hl; lia|].
      exists cached, (firstn (List.length (s_History cached) - 50) (s_History cached)). split; [done|]. cbn. split; [|done].
      by rewrite firstn_skipn.
    - apply Nat.ltb_ge in Hl. split; [done|]. exists cached, []. split; [done|]. split; [done|]. by destruct cached. }
  destruct (cy_states sv0 !! id) as [s|] eqn:E; [intros HE; exact (H _ s E _ _ HE)|].
  destruct (co_read ops (cy_world sv0)) as [w ok]. destruct (if ok then _ else _) as [fs|]; [|done].
  intros HE. eapply H; [|exact HE]. cbn. by rewrite lookup_insert_eq.
Qed.

(** ** The seal *)

(** A step of a cycle whose ledger is sealed is refused, whatever the state says, and
    leaves every ledger and every state file as it was. *)
Theorem sealed_step_refused cp sv id goal reason : LedgerSealsResume (ledger_of sv id) = Some reason ->
  exists sv' status, handleStepCycle ops exec file_exists cp sv id goal = Some (sv', status) /\
    status ∈ [SNotFound; SInternal; SSealed reason] /\
    cy_ledgers sv' = cy_ledgers sv /\ cy_files sv' = cy_files sv.
Proof.
  intros Hs. unfold handleStepCycle. destruct (refresh_frame sv id) as [_ [Hl0 Hf0]]. set (sv0 := refreshFromFile ops sv id) in *.
  destruct (get_frame sv0 id) as [_ [Hl1 Hf1]]. destruct (CycleApi.get ops sv0 id) as [sv1 [state|]]; cbn in Hl1, Hf1.
  2: { eexists _, _. split; [done|]. split; [set_solver|]. by rewrite Hl1, Hf1. }
  destruct (step_ledger_frame sv1 id goal state) as [_ [Hl2 Hf2]]. revert Hl2 Hf2.
  unfold step_ledger, read_ledger. destruct (co_ledger ops (cy_world sv1)) as [w [e|]]; cbn [fst].
  - intros Hl2 Hf2. eexists _, _. split; [done|]. split; [set_solver|]. by rewrite Hl2, Hf2, Hl1, Hf1.
  - assert (ledger_of (sv1 <| cy_world := w |>) id = ledger_of sv id) as -> by (unfold ledger_of; cbn; by rewrite Hl1, Hl0).
    rewrite Hs. cbn [fst]. intros Hl2 Hf2. eexists _, _. split; [done|]. split; [set_solver|]. by rewrite Hl2, Hf2, Hl1, Hf1.
Qed.

(** ** Event channels *)

Definition closed (chans : gmap nat EventChan) (ch : nat) : Prop := option_map ec_closed (chans !! ch) = Some true.

(** The channels of a list that are open all take an event, and all close. *)
Lemma send_all_open chs evt : forall chans, (forall ch, ch ∈ chs -> option_map ec_closed (chans !! ch) = Some false) ->
  exists chans', send_all chans chs evt = Some chans' /\
    forall ch, option_map ec_closed (chans' !! ch) = option_map ec_closed (chans !! ch).
Proof.
  induction chs as [|ch chs IH]; intros chans Ho; [by exists chans|]. cbn.
  assert (H := Ho ch ltac:(left)). destruct (chans !! ch) as [[buf cl]|] eqn:Hc; [|done]. cbn in H. injection H as ->. cbn.
  set (chans1 := if _ : bool then _ else _).
  assert (Hsame : forall c, option_map ec_closed (chans1 !! c) = option_map ec_closed (chans !! c)).
  { intros c. unfold chans1. case_match; [|done]. destruct (decide (c = ch)) as [->|].
    - by rewrite lookup_insert_eq, Hc.
    - by rewrite lookup_insert_ne. }
  destruct (IH chans1) as (chans' & -> & Hs); [intros c Hin; rewrite Hsame; apply Ho; by right|].
  exists chans'. split; [done|]. intros c. by rewrite Hs.
Qed.

Lemma close_chan_closed chans ch : (exists chans', close_chan chans ch = Some chans' /\
    forall c, option_map ec_closed (chans' !! c) = if decide (c = ch) then Some true else option_map ec_closed (chans !! c)) \/
  (close_chan chans ch = None /\ option_map ec_closed (chans !! ch) <> Some false).
Proof.
  unfold close_chan. destruct (chans !! ch) as [[buf [|]]|] eqn:Hc; cbn; [by right|left|by right].
  eexists. split; [done|]. intros c. case_decide as E; [by rewrite E, lookup_insert_eq|by rewrite lookup_insert_ne].
Qed.

Lemma close_chans_open chs : NoDup chs -> forall chans, (forall ch, ch ∈ chs -> option_map ec_closed (chans !! ch) = Some false) ->
  exists chans', close_chans chans chs = Some chans' /\
    forall c, option_map ec_closed (chans' !! c) = if decide (c ∈ chs) then Some true else option_map ec_closed (chans !! c).
Proof.
  induction 1 as [|ch chs Hn _ IH]; intros chans Ho; cbn.
  { exists chans. split; [done|]. intros c. case_decide as E; [by apply elem_of_nil in E|done]. }
  destruct (close_chan_closed chans ch) as [(chans1 & -> & H1)|[_ H]]; [|destruct H; apply Ho; by left].
  destruct (IH chans1) as (chans' & -> & H2).
  { intros c Hc. rewrite H1. case_decide as E; [by subst|]. apply Ho. by right. }
  exists chans'. split; [done|]. intros c. rewrite H2, H1. repeat case_decide; set_solver.
Qed.
Section Closed.
(** Channels known to be closed. *)
Context (K : nat -> Prop).

Definition evs (events : gmap string (list nat)) (id : string) : list nat := default [] (events !! id).

(** The channel of a watcher, and of a handler that is to unsubscribe one. *)
Definition watches (h : Handler) (id : string) (ch : nat) : Prop :=
  match h with HWatch i c => i = id /\ c = ch | HOps l => In (OpUnsubscribe id ch) l | _ => False end.

(** The channels of a cycle are open, distinct and not shared with another cycle; a watcher's
    channel exists and belongs to no other cycle. *)
Record EI (events : gmap string (list nat)) (chans : gmap nat EventChan) (handlers : gmap nat Handler) (next : nat) : Prop := mkEI {
  e_open : forall id ch, ch ∈ evs events id -> option_map ec_closed (chans !! ch) = Some false;
  e_nodup : forall id, NoDup (evs events id);
  e_inj : forall id id' ch, ch ∈ evs events id -> ch ∈ evs events id' -> id = id';
  e_watch : forall k h id ch, handlers !! k = Some h -> watches h id ch ->
    is_Some (chans !! ch) /\ forall id', ch ∈ evs events id' -> id' = id;
  e_chan_bound : forall ch c, chans !! ch = Some c -> (ch < next)%nat;
  e_handler_bound : forall k h, handlers !! k = Some h -> (k < next)%nat;
  e_closed : forall ch, K ch -> closed chans ch }.

(** A cycle is marked as orchestrating when one goroutine orchestrates it, and never two do. *)
Definition OI (orch : gset string) (handlers : gmap nat Handler) : Prop :=
  (forall id, id ∈ orch <-> exists k, handlers !! k = Some (HOrchestrating id)) /\
  (forall k k' id, handlers !! k = Some (HOrchestrating id) -> handlers !! k' = Some (HOrchestrating id) -> k = k').

Definition EIs sv : Prop := EI (cy_events sv) (cy_chans sv) (cy_handlers sv) (cy_next sv).
Definition OIs sv : Prop := OI (cy_orchestrating sv) (cy_handlers sv).
Definition Inv sv : Prop := EIs sv /\ OIs sv.

Lemma frame_EIs sv sv' : frame sv sv' -> EIs sv -> EIs sv'.
Proof. by intros (H1 & H2 & H3 & H4 & _); unfold EIs; rewrite H1, H2, H3, H4. Qed.
Lemma frame_OIs sv sv' : frame sv sv' -> OIs sv -> OIs sv'.
Proof. by intros (_ & _ & H & _ & H'); unfold OIs; rewrite H, H'. Qed.
Lemma frame_Inv sv sv' : frame sv sv' -> Inv sv -> Inv sv'.
Proof. intros Hf [HE HO]. split; [by eapply frame_EIs|by eapply frame_OIs]. Qed.

Lemma evs_insert events id l i : evs (<[id := l]> events) i = if decide (i = id) then l else evs events i.
Proof. unfold evs. case_decide as H; [by rewrite H, lookup_insert_eq|by rewrite lookup_insert_ne]. Qed.
Lemma evs_delete events id i : evs (delete id events) i = if decide (i = id) then [] else evs events i.
Proof. unfold evs. case_decide as H; [by rewrite H, lookup_delete_eq|by rewrite lookup_delete_ne]. Qed.

Section EI.
Context (events : gmap string (list nat)) (chans : gmap nat EventChan) (handlers : gmap nat Handler) (next : nat).
Hypothesis HI : EI events chans handlers next.

(** A handler is replaced by one that watches no more than it did. *)
Lemma EI_goes_on k h : (k < next)%nat -> (forall id ch, watches h id ch ->
    is_Some (chans !! ch) /\ forall id', ch ∈ evs events id' -> id' = id) ->
  EI events chans (<[k := h]> handlers) next.
Proof.
  intros Hk Hw. destruct HI as [O N J W C B D]. split; try done.
  - intros k' h' id ch H. at_key; eauto.
  - intros k' h' H. at_key; eauto.
Qed.

Lemma EI_ends k : EI events chans (delete k handlers) next.
Proof. destruct HI as [O N J W C B D]. split; try done; intros k' h'; [intros id ch|]; intros H; at_key; eauto. Qed.

Lemma EI_spawn h : (forall id ch, ~ watches h id ch) -> EI events chans (<[next := h]> handlers) (S next).
Proof.
  intros Hw. destruct HI as [O N J W C B D]. split; try done.
  - intros k' h' id ch H. at_key; [|eauto]. by intros ?%Hw.
  - intros ch c H%C. lia.
  - intros k' h' H. at_key; [lia|]. apply B in H. lia.
Qed.

(** Channels change what they buffer. *)
Lemma EI_chans chans' : (forall ch, option_map ec_closed (chans' !! ch) = option_map ec_closed (chans !! ch)) ->
  EI events chans' handlers next.
Proof.
  intros Hc. destruct HI as [O N J W C B D].
  assert (Hs : forall ch, is_Some (chans' !! ch) <-> is_Some (chans !! ch)).
  { intros ch. specialize (Hc ch). destruct (chans' !! ch), (chans !! ch); try done; split; intros; by eexists. }
  split; try done.
  - intros id ch H. rewrite Hc. eauto.
  - intros k h id ch Hk Hw. rewrite Hs. eauto.
  - intros ch c H. assert (is_Some (chans !! ch)) as [c' Hc'] by (apply Hs; by eexists). eauto.
  - intros ch H%D. unfold closed. by rewrite Hc.
Qed.

Lemma EI_subscribe id k : (k < next)%nat ->
  EI (<[id := (evs events id ++ [next])%list]> events) (<[next := mkChan [] false]> chans) (<[k := HWatch id next]> handlers) (S next).
Proof.
  intros Hk. destruct HI as [O N J W C B D].
  assert (Hf : forall i, next ∉ evs events i).
  { intros i H%O. destruct (chans !! next) eqn:E; [|done]. apply C in E. lia. }
  assert (Hin : forall i ch, ch ∈ evs (<[id := (evs events id ++ [next])%list]> events) i <-> ch ∈ evs events i \/ (i = id /\ ch = next)).
  { intros i ch. rewrite evs_insert. case_decide as E; [rewrite E, elem_of_app, list_elem_of_singleton|]; naive_solver. }
  assert (Hne : forall i ch, ch ∈ evs events i -> ch <> next) by (intros i ch H ->; by apply Hf in H).
  split.
  - intros i ch [H|[-> ->]]%Hin; [rewrite lookup_insert_ne by (apply not_eq_sym; eauto); eauto|by rewrite lookup_insert_eq].
  - intros i. rewrite evs_insert. case_decide as E; [|done]. apply NoDup_app. split_and!; [done| |apply NoDup_singleton].
    intros x Hx ->%list_elem_of_singleton. by apply Hf in Hx.
  - intros i i' ch [H|[-> ->]]%Hin [H'|[-> E]]%Hin; [eauto|subst; by apply Hf in H|by apply Hf in H'|done].
  - intros k' h i ch H Hw. at_key.
    + destruct Hw as [-> <-]. split; [rewrite lookup_insert_eq; by eexists|]. intros i' [H|[-> _]]%Hin; [by apply Hf in H|done].
    + destruct (W _ _ _ _ H Hw) as [[c Hc] Hi]. split; [rewrite lookup_insert_ne; [by eexists|apply C in Hc; lia]|].
      intros i' [H'|[-> ->]]%Hin; [eauto|]. apply C in Hc. lia.
  - intros ch c H. at_key; [lia|]. apply C in H. lia.
  - intros k' h H. at_key; [lia|]. apply B in H. lia.
  - intros ch H%D. unfold closed in *. destruct (chans !! ch) as [c|] eqn:Hc; [|done]. rewrite lookup_insert_ne, Hc; [done|].
    apply C in Hc. lia.
Qed.

(** A channel leaves the list of its cycle and is closed. *)
Lemma EI_unsubscribe id ch chans' k h : handlers !! k = Some h -> watches h id ch ->
  (forall c, option_map ec_closed (chans' !! c) = if decide (c = ch) then Some true else option_map ec_closed (chans !! c)) ->
  EI (<[id := List.filter (fun c => negb (Nat.eqb c ch)) (evs events id)]> events) chans' handlers next.
Proof.
  intros Hk Hw Hc. destruct HI as [O N J W C B D].
  assert (Hin : forall i c, c ∈ evs (<[id := List.filter (fun c => negb (Nat.eqb c ch)) (evs events id)]> events) i <->
    c ∈ evs events i /\ (i = id -> c <> ch)).
  { intros i c. rewrite evs_insert. case_decide as E; [|naive_solver].
    subst i. rewrite !list_elem_of_In, filter_In, negb_true_iff, Nat.eqb_neq. naive_solver. }
  assert (Hs : forall c, is_Some (chans !! c) -> is_Some (chans' !! c)).
  { intros c [x Hx]. specialize (Hc c). rewrite Hx in Hc. destruct (chans' !! c); [by eexists|by case_decide]. }
  split; try done.
  - intros i c [H Hne]%Hin. rewrite Hc. case_decide as E; [|eauto]. subst c. destruct (W _ _ _ _ Hk Hw) as [_ Hi].
    apply Hi in H as Hid. by apply Hne in Hid.
  - intros i. rewrite evs_insert. case_decide; [|done]. apply NoDup_ListNoDup, List.NoDup_filter, NoDup_ListNoDup, N.
  - intros i i' c [H _]%Hin [H' _]%Hin. eauto.
  - intros k' h' i c Hk' Hw'. destruct (W _ _ _ _ Hk' Hw') as [? Hi]. split; [auto|]. intros i' [? _]%Hin. auto.
  - intros c x Hx. specialize (Hc c). rewrite Hx in Hc. case_decide as E; [|].
    + subst c. destruct (W _ _ _ _ Hk Hw) as [[y Hy] _]. eauto.
    + destruct (chans !! c) eqn:Ec; [eauto|done].
  - intros c H%D. unfold closed. rewrite Hc. by case_decide.
Qed.

(** The channels of a cycle are closed and dropped. *)
Lemma EI_close_all id chans' :
  (forall c, option_map ec_closed (chans' !! c) = if decide (c ∈ evs events id) then Some true else option_map ec_closed (chans !! c)) ->
  EI (delete id events) chans' handlers next.
Proof.
  intros Hc. destruct HI as [O N J W C B D].
  assert (Hin : forall i c, c ∈ evs (delete id events) i -> c ∈ evs events i /\ i <> id).
  { intros i c. rewrite evs_delete. case_decide; [by intros ?%elem_of_nil|done]. }
  assert (Hs : forall c, is_Some (chans !! c) <-> is_Some (chans' !! c)).
  { intros c. specialize (Hc c). case_decide as E; [apply O in E|]; destruct (chans' !! c), (chans !! c); try done; split; intros; by eexists. }
  split; try done.
  - intros i c [H Hne]%Hin. rewrite Hc. case_decide as E; [|eauto]. by destruct Hne; eapply J.
  - intros i. rewrite evs_delete. case_decide; [constructor|done].
  - intros i i' c [H _]%Hin [H' _]%Hin. eauto.
  - intros k h i c Hk Hw. destruct (W _ _ _ _ Hk Hw) as [? Hi]. split; [by apply Hs|]. intros i' [? _]%Hin. auto.
  - intros c x Hx. assert (is_Some (chans !! c)) as [y Hy] by (apply Hs; by eexists). eauto.
  - intros c H%D. unfold closed. rewrite Hc. by case_decide.
Qed.
End EI.

(** ** Orchestrations *)

Definition orchestrates (h : Handler) : bool := match h with HOrchestrating _ => true | _ => false end.

Section OI.
Context (orch : gset string) (handlers : gmap nat Handler).
Hypothesis HO : OI orch handlers.

(** A handler that orchestrates nothing is added, changes, or ends. *)
Lemma OI_update k h : (forall h', handlers !! k = Some h' -> orchestrates h' = false) -> orchestrates h = false ->
  OI orch (<[k := h]> handlers).
Proof.
  intros Hk Hh. destruct HO as [H1 H2]. split.
  - intros id. rewrite H1. split; intros [k' H].
    + exists k'. rewrite lookup_insert_ne; [done|]. intros ->. by apply Hk in H.
    + exists k'. destruct (decide (k' = k)) as [->|]; [|by rewrite lookup_insert_ne in H]. rewrite lookup_insert_eq in H.
      by injection H as ->.
  - intros k1 k2 id. destruct (decide (k1 = k)) as [->|]; [rewrite lookup_insert_eq; by intros [= ->]|].
    destruct (decide (k2 = k)) as [->|]; [rewrite lookup_insert_eq; by intros _ [= ->]|]. rewrite !lookup_insert_ne by done. apply H2.
Qed.

Lemma OI_ends k : (forall h', handlers !! k = Some h' -> orchestrates h' = false) -> OI orch (delete k handlers).
Proof.
  intros Hk. destruct HO as [H1 H2]. split.
  - intros id. rewrite H1. split; intros [k' H]; exists k'.
    + rewrite lookup_delete_ne; [done|]. intros ->. by apply Hk in H.
    + by apply lookup_delete_Some in H as [_ H].
  - intros k1 k2 id [_ Ha]%lookup_delete_Some [_ Hb]%lookup_delete_Some. by eapply H2.
Qed.

Lemma OI_start k id : (forall h', handlers !! k = Some h' -> orchestrates h' = false) -> id ∉ orch ->
  OI ({[id]} ∪ orch) (<[k := HOrchestrating id]> handlers).
Proof.
  intros Hk Hn. destruct HO as [H1 H2]. assert (Hnone : forall k', handlers !! k' <> Some (HOrchestrating id)).
  { intros k' H. apply Hn, H1. by exists k'. }
  split.
  - intros i. rewrite elem_of_union, elem_of_singleton, H1. split.
    + intros [->|[k' H]]; [exists k; by rewrite lookup_insert_eq|]. exists k'. rewrite lookup_insert_ne; [done|]. intros ->. by apply Hk in H.
    + intros [k' H]. destruct (decide (k' = k)) as [->|]; [rewrite lookup_insert_eq in H; injection H as ->; by left|].
      rewrite lookup_insert_ne in H by done. right. by exists k'.
  - intros k1 k2 i. destruct (decide (k1 = k)) as [->|]; destruct (decide (k2 = k)) as [->|]; [done|..];
      rewrite ?lookup_insert_eq, ?lookup_insert_ne by done.
    + intros [= <-] H. by apply Hnone in H.
    + intros H [= <-]. by apply Hnone in H.
    + apply H2.
Qed.

Lemma OI_end k id : handlers !! k = Some (HOrchestrating id) -> OI (orch ∖ {[id]}) (delete k handlers).
Proof.
  intros Hk. destruct HO as [H1 H2]. split.
  - intros i. rewrite elem_of_difference, elem_of_singleton, H1. split.
    + intros [[k' H] Hne]. exists k'. rewrite lookup_delete_ne; [done|]. intros ->. rewrite Hk in H. by injection H as ->.
    + intros [k' [Hne H]%lookup_delete_Some]. split; [by exists k'|]. intros ->. by destruct Hne; eapply H2.
  - intros k1 k2 i [_ Ha]%lookup_delete_Some [_ Hb]%lookup_delete_Some. by eapply H2.
Qed.
End OI.

(** ** Every step keeps the invariant *)

Definition quiet (l : list Op) : Prop := forall id ch, ~ In (OpUnsubscribe id ch) l.
Lemma quiet_Forall l : Forall (fun op => match op with OpUnsubscribe _ _ => False | _ => True end) l -> quiet l.
Proof. intros H id ch Hin%list_elem_of_In. rewrite Forall_forall in H. by apply H in Hin. Qed.

Lemma quiet_nil : quiet [].
Proof. by intros id ch []. Qed.
Ltac quiet_done := split_and!; try done; try apply quiet_nil; try (apply quiet_Forall; by repeat constructor).

Lemma step_finish_quiet at_ id result : quiet (snd (step_finish at_ id result)).
Proof.
  apply quiet_Forall. cbn [snd step_finish]. apply Forall_app_2; [destruct (IsSuccess result); repeat constructor|].
  apply Forall_app_2; [|repeat constructor]. apply Forall_flat_map, Forall_forall. intros r _. constructor; [done|].
  unfold claim_ops. destruct (String.eqb (g_Gate r) "claim"); [|constructor]. apply Forall_map, Forall_forall. intros c _. cbn.
  by destruct (cc_Verified c).
Qed.

(** One operation of a handler: it concerns channels only, it adds no unsubscription, and it
    panics only when it unsubscribes a channel that is not open. *)
Lemma run_op_inv sv op k rest : EIs sv -> cy_handlers sv !! k = Some (HOps (op :: rest)) ->
  let '(sv', more, ok) := run_op ops sv op in
  EIs sv' /\ quiet more /\ cy_handlers sv' = cy_handlers sv /\ cy_next sv' = cy_next sv /\
  cy_orchestrating sv' = cy_orchestrating sv /\
  (ok = false -> exists id ch, op = OpUnsubscribe id ch /\ closed (cy_chans sv) ch).
Proof.
  intros HE Hk. destruct op as [id typ summary files|id report|id state remove|id state|id|id state|id|id state|id|id ch]; cbn [run_op].
  - unfold appendLedger. destruct (co_append _ _) as [w [|]]; quiet_done.
  - unfold appendLedger. destruct (co_append _ _) as [w [|]]; quiet_done.
  - destruct (getSync sv id), remove; quiet_done.
  - unfold write_file. destruct (co_write _ _) as [w [[|]|]]; quiet_done.
  - unfold remove_file. destruct (co_remove _ _) as [w [|]]; quiet_done.
  - quiet_done.
  - quiet_done.
  - unfold broadcast. destruct (send_all_open (events_of sv id) (NewCycleEvent (now ops sv) state) (cy_chans sv)) as (chans' & -> & Hs).
    { intros ch. apply (e_open _ _ _ _ HE). }
    split_and!; try done; [|apply quiet_nil]. by apply (EI_chans _ _ _ _ HE).
  - unfold closeAll. destruct (close_chans_open (events_of sv id) (e_nodup _ _ _ _ HE id) (cy_chans sv)) as (chans' & -> & Hs).
    { intros ch. apply (e_open _ _ _ _ HE). }
    split_and!; try done; [|apply quiet_nil]. by apply (EI_close_all _ _ _ _ HE).
  - assert (Hw : watches (HOps (OpUnsubscribe id ch :: rest)) id ch) by by left.
    unfold unsubscribe. cbn. destruct (close_chan_closed (cy_chans sv) ch) as [(chans' & -> & Hs)|[-> Hn]].
    + split_and!; try done; [|apply quiet_nil]. by eapply (EI_unsubscribe _ _ _ _ HE).
    + assert (Hc : closed (cy_chans sv) ch).
      { destruct (e_watch _ _ _ _ HE _ _ _ _ Hk Hw) as [[[buf cl] Hc] _]. unfold closed; rewrite Hc in Hn |- *. by destruct cl. }
      split_and!; try done; [|apply quiet_nil|by eauto].
      eapply (EI_unsubscribe _ _ _ _ HE); [done..|]. intros c. case_decide as E; [by rewrite E|done].
Qed.

Lemma goes_on_Inv sv k h h0 : Inv sv -> cy_handlers sv !! k = Some h0 -> orchestrates h0 = false -> orchestrates h = false ->
  (forall id ch, watches h id ch -> watches h0 id ch) -> Inv (goes_on sv k h).
Proof.
  intros [HE HO] Hk H0 H Hw. split.
  - apply EI_goes_on; [done|by eapply (e_handler_bound _ _ _ _ HE)|]. intros id ch ?%Hw. by eapply (e_watch _ _ _ _ HE).
  - apply OI_update; [done| |done]. intros h' Hk'. rewrite Hk in Hk'. by injection Hk' as <-.
Qed.

Lemma ends_Inv sv k h0 : Inv sv -> cy_handlers sv !! k = Some h0 -> orchestrates h0 = false -> Inv (ends sv k).
Proof.
  intros [HE HO] Hk H0. split; [by apply EI_ends|]. apply OI_ends; [done|]. intros h' Hk'. rewrite Hk in Hk'. by injection Hk' as <-.
Qed.

Lemma spawn_Inv sv h : Inv sv -> (forall id ch, ~ watches h id ch) -> orchestrates h = false -> Inv (spawn sv h).
Proof.
  intros [HE HO] Hw H. split; [by apply EI_spawn|]. apply OI_update; [done| |done]. intros h' Hk.
  apply (e_handler_bound _ _ _ _ HE) in Hk. lia.
Qed.

(** What a handler does when it moves: the invariant is kept, and when it panicked it was
    unsubscribing a closed channel. *)
Definition moves sv k (r : CycleServer World * bool) : Prop :=
  Inv (fst r) /\ (snd r = false -> exists id ch rest, cy_handlers sv !! k = Some (HOps (OpUnsubscribe id ch :: rest)) /\
    closed (cy_chans sv) ch).

Lemma moves_frame sv sv' k h h0 : Inv sv -> cy_handlers sv !! k = Some h0 -> frame sv sv' -> orchestrates h0 = false ->
  orchestrates h = false -> (forall id ch, watches h id ch -> watches h0 id ch) -> moves sv k (goes_on sv' k h, true).
Proof.
  intros HI Hk Hf H0 H Hw. split; [|done]. apply (goes_on_Inv sv' k h h0); [by eapply frame_Inv| |done..]. destruct Hf as (_ & _ & -> & _). exact Hk.
Qed.
Lemma moves_ends sv sv' k h0 : Inv sv -> cy_handlers sv !! k = Some h0 -> frame sv sv' -> orchestrates h0 = false ->
  moves sv k (ends sv' k, true).
Proof. intros HI Hk Hf H0. split; [|done]. apply (ends_Inv sv' k h0); [by eapply frame_Inv| |done]. destruct Hf as (_ & _ & -> & _). exact Hk. Qed.

Lemma cycles_watch_inv sv k id ch sv' : Inv sv -> cy_handlers sv !! k = Some (HWatch id ch) -> watch_step sv k id ch = Some sv' -> Inv sv'.
Proof.
  intros HI Hk. unfold watch_step. destruct (cy_chans sv !! ch) as [c|] eqn:Hc; [|done].
  assert (Hu : forall i c, watches (HOps [OpUnsubscribe id ch]) i c -> watches (HWatch id ch) i c).
  { intros i c' [[= <- <-]|[]]. by split. }
  destruct (ec_buf c) as [|evt rest].
  - destruct (ec_closed c); [|done]. intros [= <-]. by eapply goes_on_Inv.
  - set (sv1 := sv <| cy_chans := _ |>). intros [= <-]. assert (HI1 : Inv sv1).
    { destruct HI as [HE HO]. split; [|done]. apply (EI_chans _ _ _ _ HE). intros c'. cbn.
      destruct (decide (c' = ch)) as [->|]; [by rewrite lookup_insert_eq, Hc|by rewrite lookup_insert_ne]. }
    destruct (ce_Halted evt); [|done]. by eapply goes_on_Inv.
Qed.

Lemma run_handler_inv cp sv k h r : Inv sv -> cy_handlers sv !! k = Some h ->
  run_handler ops exec file_exists cp sv k h = Some r -> moves sv k r.
Proof.
  intros HI Hk. destruct h as [[|op rest]|id goal|id goal state|id state|id|id ch|id|id|id]; cbn [run_handler].
  - intros [= <-]. by eapply moves_ends.
  - pose proof (run_op_inv sv op k rest (proj1 HI) Hk) as H. destruct (run_op ops sv op) as [[sv' more] ok].
    destruct H as (HE & Hq & Hh & _ & Ho & Hp). rewrite <-Hh in Hk.
    assert (HI' : Inv sv') by (split; [done|]; unfold OIs; rewrite Ho, Hh; apply HI).
    destruct ok; intros [= <-]; (split; [|cbn; intros [=]]).
    + eapply goes_on_Inv; [done|done|done|done|]. intros id ch [Hin|Hin]%in_app_iff; [by apply Hq in Hin|by right].
    + by eapply ends_Inv.
    + destruct (Hp eq_refl) as (id & ch & -> & Hc). exists id, ch, rest. by rewrite <-Hh.
  - destruct (get_frame sv id) as [Hf _]. destruct (CycleApi.get ops sv id) as [sv' [state|]]; intros [= <-].
    + by eapply moves_frame.
    + by eapply moves_ends.
  - destruct (step_ledger_frame sv id goal state) as [Hf _]. destruct (step_ledger ops sv id goal state) as [sv' [status|state']]; intros [= <-].
    + by eapply moves_ends.
    + by eapply moves_frame.
  - unfold step_run. destruct (Execute _ _ _ _) as [w result]. set (q := step_finish _ _ _). pose proof (step_finish_quiet (now ops (sv <| cy_world := w |>)) id result) as Hq.
    fold q in Hq. destruct q as [state' l]. intros [= <-]. eapply moves_frame; [done|done|done|done|done|]. intros i c H. by apply Hq in H.
  - destruct (subscribe sv id) as [sv' ch] eqn:E. revert E. unfold subscribe. intros [= <- <-] [= <-]. destruct HI as [HE HO].
    assert (Hlt : (k < cy_next sv)%nat) by by eapply (e_handler_bound _ _ _ _ HE).
    split; [|done]. split; [by apply EI_subscribe|]. apply OI_update; [done| |done]. intros h' Hk'. cbn in Hk'. rewrite Hk in Hk'. by injection Hk' as <-.
  - destruct (watch_step sv k id ch) as [sv'|] eqn:E; [|done]. intros [= <-]. split; [|done]. by eapply cycles_watch_inv.
  - unfold orch_ledger. destruct (read_ledger_frame sv id) as [Hf _]. destruct (read_ledger ops sv id) as [sv' [e|es]]; [intros [= <-]; by eapply moves_ends|].
    destruct (LedgerSealsResume es); intros [= <-]; [by eapply moves_ends|by eapply moves_frame].
  - unfold orch_lock. case_bool_decide as Hin; intros [= <-]; [by eapply moves_ends|]. split; [|done]. destruct HI as [HE HO]. split.
    + apply EI_goes_on; [done|by eapply (e_handler_bound _ _ _ _ HE)|done].
    + apply OI_start; [done| |done]. intros h' Hk'. cbn in Hk'. rewrite Hk in Hk'. by injection Hk' as <-.
  - intros [= <-]. split; [|done]. destruct HI as [HE HO]. split; [by apply EI_ends|]. by apply OI_end.
Qed.

Lemma halt_ops_quiet at_ id state reason : quiet (halt_ops at_ id state reason).
Proof. apply quiet_Forall. unfold halt_ops. by repeat constructor. Qed.

Lemma create_decide_quiet sv req random sv' r : create_decide ops sv req random = (sv', r) ->
  frame sv sv' /\ match r with inr (_, l) => quiet l | inl _ => True end.
Proof.
  unfold create_decide, write_file. destruct (NewState _ _ _) as [e|state]; [by intros [= <- <-]|].
  destruct (co_write _ _) as [w [[|]|]]; intros [= <- <-]; by quiet_done.
Qed.

(** The moves that are no handler's: a spawned handler watches and orchestrates nothing. *)
Lemma spawned sv sv1 h : Inv sv -> frame sv sv1 -> (forall id ch, ~ watches h id ch) -> orchestrates h = false -> Inv (spawn sv1 h).
Proof. intros HI Hf. apply spawn_Inv. by eapply frame_Inv. Qed.

Lemma cycles_step_inv cp l sv sv' ok : Inv sv -> step ops exec file_exists cp l sv = Some (sv', ok) ->
  Inv sv' /\ (ok = false -> exists k id ch rest, l = LRun k /\ cy_handlers sv !! k = Some (HOps (OpUnsubscribe id ch :: rest)) /\
    closed (cy_chans sv) ch).
Proof.
  intros HI. destruct l as [req random|id|id|id goal|id reason|id|id decoded registry|k|k|id state|id entry]; cbn [step].
  - destruct (create_decide ops sv req random) as [sv1 r] eqn:E. apply create_decide_quiet in E as [Hf Hq]. intros [= <- <-]. split; [|done].
    destruct r as [status|[state l]]; [by eapply frame_Inv|by eapply spawned].
  - intros [= <- <-]. split; [|done]. destruct (refresh_frame sv id) as [Hf _]. eapply frame_Inv, frame_Inv, HI; [|exact Hf].
    unfold handleGetCycle. destruct (get_frame (refreshFromFile ops sv id) id) as [Hg _]. by destruct (CycleApi.get ops _ id) as [sv1 [state|]].
  - intros [= <- <-]. split; [|done]. destruct (read_ledger_frame sv id) as [Hf _]. eapply frame_Inv, frame_Inv, HI; [|exact Hf].
    unfold handleCycleLedger. destruct (read_ledger ops sv id) as [sv1 [e|[|e es]]]; [done| |done].
    destruct (get_frame sv1 id) as [Hg _]. by destruct (CycleApi.get ops sv1 id) as [sv2 [state|]].
  - intros [= <- <-]. split; [|done]. eapply spawned; [done|apply refresh_frame|by intros ?? []|done].
  - destruct (get_frame sv id) as [Hf _]. destruct (CycleApi.get ops sv id) as [sv1 [state|]]; intros [= <- <-]; (split; [|done]).
    + eapply spawned; [done|done|apply halt_ops_quiet|done].
    + by eapply frame_Inv.
  - destruct (get_frame sv id) as [Hf _]. destruct (CycleApi.get ops sv id) as [sv1 [state|]]; intros [= <- <-]; (split; [|done]).
    + eapply spawned; [done|done|by intros ?? []|done].
    + by eapply frame_Inv.
  - destruct (get_frame sv id) as [Hf _]. destruct (CycleApi.get ops sv id) as [sv1 [state|]]; intros [= <- <-]; (split; [|done]).
    + destruct decoded; [|by eapply frame_Inv]. destruct (getSync sv1 id), registry; try (by eapply frame_Inv); (eapply spawned; [done|done|by intros ?? []|done]).
    + by eapply frame_Inv.
  - destruct (cy_handlers sv !! k) as [h|] eqn:Hk; [|done]. intros [H1 H2]%run_handler_inv; [|done|done].
    split; [done|]. intros (id & ch & rest & ? & ?)%H2. exists k, id, ch, rest. split_and!; [done|congruence|done].
  - destruct (cy_handlers sv !! k) as [[]|] eqn:Hk; try done. intros [= <- <-]. split; [|done]. eapply goes_on_Inv; [done..|].
    intros i c [[= <- <-]|[]]. by split.
  - intros [= <- <-]. split; [|done]. exact HI.
  - intros [= <- <-]. split; [|done]. exact HI.
Qed.

End Closed.

Lemma init_Inv w : Inv (fun _ => False) (newCycleServer w).
Proof.
  split; split.
  - intros id ch. by intros ?%elem_of_nil.
  - constructor.
  - intros id id' ch. by intros ?%elem_of_nil.
  - done.
  - done.
  - done.
  - done.
  - intros id. split; [set_solver|]. by intros [k H].
  - done.
Qed.

Lemma cycles_reachable_inv cp w sv : Reachable ops exec file_exists cp w sv -> Inv (fun _ => False) sv.
Proof. induction 1 as [|l sv sv' ok _ IH Hs]; [apply init_Inv|by apply (cycles_step_inv (fun _ => False)) in Hs as []]. Qed.

(** In every interleaving of the handlers, the only operation that panics is the
    unsubscription of a watcher whose channel is closed already: an event is never sent on
    a closed channel, and closing the channels of a halted cycle closes each of them once. *)
Theorem cycle_panics cp w sv l sv' : Reachable ops exec file_exists cp w sv ->
  step ops exec file_exists cp l sv = Some (sv', false) ->
  exists k id ch rest, l = LRun k /\ cy_handlers sv !! k = Some (HOps (OpUnsubscribe id ch :: rest)) /\
    closed (cy_chans sv) ch.
Proof. intros HI%cycles_reachable_inv Hs. by apply (cycles_step_inv _ _ _ _ _ _ HI) in Hs as [_ H]; apply H. Qed.

(** At most one goroutine orchestrates a cycle at any time, and a cycle is marked as
    orchestrating exactly while one does: the guard is neither passed twice nor left set. *)
Theorem orchestrate_once cp w sv : Reachable ops exec file_exists cp w sv ->
  (forall id, id ∈ cy_orchestrating sv <-> exists k, cy_handlers sv !! k = Some (HOrchestrating id)) /\
  (forall k k' id, cy_handlers sv !! k = Some (HOrchestrating id) -> cy_handlers sv !! k' = Some (HOrchestrating id) -> k = k').
Proof. intros [_ HO]%cycles_reachable_inv. exact HO. Qed.

(** ** Runs *)

Definition leads cp : relation (CycleServer World) :=
  rtc (fun sv sv' => exists l ok, step ops exec file_exists cp l sv = Some (sv', ok)).

Lemma leads_inv K cp sv sv' : leads cp sv sv' -> Inv K sv -> Inv K sv'.
Proof. induction 1 as [|sv1 sv2 sv3 (l & ok & Hs) _ IH]; [done|]. intros HI. by apply IH, (cycles_step_inv _ _ _ _ _ _ HI Hs). Qed.

Lemma Inv_closed sv ch : Inv (fun _ => False) sv -> closed (cy_chans sv) ch -> Inv (eq ch) sv.
Proof. intros [[O N J W C B _] HO] Hc. split; [|done]. split; try done. by intros ? <-. Qed.

(** A halt closes the channel of every watcher of its cycle, and each of these watchers
    then panics when it leaves: however the run goes on, its deferred unsubscription closes
    the channel a second time. *)
Theorem halt_panics_watcher cp w sv j id rest sv1 ch : Reachable ops exec file_exists cp w sv ->
  cy_handlers sv !! j = Some (HOps (OpCloseAll id :: rest)) -> step ops exec file_exists cp (LRun j) sv = Some (sv1, true) ->
  ch ∈ events_of sv id ->
  forall sv2 k rest', leads cp sv1 sv2 -> cy_handlers sv2 !! k = Some (HOps (OpUnsubscribe id ch :: rest')) ->
    exists sv3, step ops exec file_exists cp (LRun k) sv2 = Some (sv3, false).
Proof.
  intros HI%cycles_reachable_inv Hj Hs Hch sv2 k rest' Hl Hk. pose proof (cycles_step_inv _ _ _ _ _ _ HI Hs) as [HI1 _].
  assert (Hc : closed (cy_chans sv1) ch).
  { revert Hs. cbn [step]. rewrite Hj. cbn [run_handler run_op]. unfold closeAll. destruct HI as [HE _].
    destruct (close_chans_open (events_of sv id) (e_nodup _ _ _ _ _ HE id) (cy_chans sv)) as (chans' & -> & Hs).
    { intros c. apply (e_open _ _ _ _ _ HE). }
    intros [= <-]. unfold closed. cbn. rewrite Hs. by case_decide. }
  assert (HI2 : Inv (eq ch) sv2) by (eapply leads_inv; [done|by apply Inv_closed]).
  assert (Hc2 : closed (cy_chans sv2) ch) by (apply HI2; done).
  cbn [step]. rewrite Hk. cbn [run_handler run_op]. unfold unsubscribe. cbn.
  destruct (close_chan_closed (cy_chans sv2) ch) as [(chans' & E & _)|[-> _]]; [|by eexists].
  exfalso. revert E Hc2. unfold closed, close_chan. destruct (cy_chans sv2 !! ch) as [[buf [|]]|]; done.
Qed.

(** ** What a step records *)

(** The operation appends an entry of this type to the ledger of [id]. *)
Definition appends (id : string) (op : Op) (typ : LedgerEventType) : Prop :=
  match op with
  | OpAppend i t _ _ => i = id /\ t = typ
  | OpAppendGate i r => i = id /\ typ = if g_Passed r then LedgerEventGatePassed else LedgerEventGateFailed
  | _ => False
  end.

Lemma run_appends id : (forall w, snd (co_append ops w) = true) -> forall l types, Forall2 (appends id) l types -> forall fuel sv rest,
  exists sv' new, run_ops ops (List.length l + fuel) sv (l ++ rest)%list = run_ops ops fuel sv' rest /\
    map Type_ new = types /\ ledger_of sv' id = (ledger_of sv id ++ new)%list /\ frame sv sv' /\ cy_states sv' = cy_states sv /\
    cy_syncs sv' = cy_syncs sv /\ cy_files sv' = cy_files sv.
Proof.
  intros Happ l types H. induction H as [|op typ l types Hop _ IH]; intros fuel sv rest.
  { exists sv, []. cbn. rewrite app_nil_r. by split_and!. }
  assert (exists sv1 e, run_op ops sv op = (sv1, [], true) /\ Type_ e = typ /\ ledger_of sv1 id = (ledger_of sv id ++ [e])%list /\
    frame sv sv1 /\ cy_states sv1 = cy_states sv /\ cy_syncs sv1 = cy_syncs sv /\ cy_files sv1 = cy_files sv)
    as (sv1 & e & Hrun & He & Hl & Hf & H1 & H2 & H3).
  { assert (Ha : forall e, Type_ e = typ -> exists sv1, appendLedger ops sv id e = sv1 /\ ledger_of sv1 id = (ledger_of sv id ++ [e])%list /\
      frame sv sv1 /\ cy_states sv1 = cy_states sv /\ cy_syncs sv1 = cy_syncs sv /\ cy_files sv1 = cy_files sv).
    { intros e _. unfold appendLedger. specialize (Happ (cy_world sv)). destruct (co_append ops (cy_world sv)) as [w b]. cbn in Happ. subst b.
      eexists. split; [done|]. unfold ledger_of. cbn. rewrite lookup_insert_eq. by split_and!. }
    destruct op as [i t s f|i r|i st r|i st|i|i st|i|i st|i|i c]; cbn [appends] in Hop; try done.
    - destruct Hop as [-> ->]. destruct (Ha (NewHarnessLedgerEntry (now ops sv) id typ s f) eq_refl) as (sv1 & <- & H).
      eexists _, _. split; [done|]. split; [|exact H]. done.
    - destruct Hop as [-> Ht]. destruct (Ha (NewGateLedgerEntry (now ops sv) id r)) as (sv1 & <- & H).
      { rewrite Ht. unfold NewGateLedgerEntry. by destruct (g_Passed r). }
      eexists _, _. split; [done|]. split; [|exact H]. rewrite Ht. unfold NewGateLedgerEntry. by destruct (g_Passed r). }
  destruct (IH fuel sv1 rest) as (sv' & new & Hr & Hn & Hl' & Hf' & H1' & H2' & H3').
  exists sv', (e :: new). cbn [List.length Nat.add app run_ops]. rewrite Hrun. cbn [app]. rewrite Hr.
  split; [done|]. split; [cbn; by rewrite He, Hn|]. split; [by rewrite Hl', Hl, <-app_assoc|].
  split; [unfold frame in *; intuition congruence|]. split_and!; congruence.
Qed.

(** What the entries of a report are. *)
Definition report_types (r : GateReport) : list LedgerEventType :=
  (if g_Passed r then LedgerEventGatePassed else LedgerEventGateFailed) ::
  (if String.eqb (g_Gate r) "claim"
   then map (fun cc => if cc_Verified cc then LedgerEventClaimVerified else LedgerEventClaimFalsified) (g_ClaimChecks r) else []).
Definition step_types (success : bool) (rs : list GateReport) : list LedgerEventType :=
  ((if success then [LedgerEventValidationGreen; LedgerEventCycleCompleted] else []) ++ flat_map report_types rs)%list.

Lemma report_appends id rs : Forall2 (appends id) (flat_map (fun r => OpAppendGate id r :: claim_ops id r) rs) (flat_map report_types rs).
Proof.
  induction rs as [|r rs IH]; [constructor|]. cbn [flat_map report_types app]. constructor; [done|]. apply Forall2_app; [|exact IH].
  unfold claim_ops. destruct (String.eqb (g_Gate r) "claim"); [|constructor].
  induction (g_ClaimChecks r) as [|cc l IHl]; [constructor|]. cbn [map]. constructor; [|exact IHl]. by destruct (cc_Verified cc).
Qed.

Lemma step_finish_split at_ id result : exists l,
  snd (step_finish at_ id result) = (l ++ [OpGetSync id (fst (step_finish at_ id result)) false; OpPut id (fst (step_finish at_ id result));
    OpBroadcast id (fst (step_finish at_ id result))])%list /\
  Forall2 (appends id) l (step_types (IsSuccess result) (reports result)).
Proof.
  unfold step_finish, step_types. cbn [fst snd]. destruct (IsSuccess result).
  - eexists (_ :: _ :: _)%list. split; [done|]. cbn [app]. repeat (constructor; [done|]). apply report_appends.
  - eexists. split; [done|]. apply report_appends.
Qed.

(** The end of a step: the state file, the cache, the watchers. *)
Lemma run_tail K sv id st fuel : EIs K sv ->
  exists sv', run_ops ops (4 + fuel) sv [OpGetSync id st false; OpPut id st; OpBroadcast id st] = Some sv' /\
    cy_states sv' = <[id := st]> (cy_states sv) /\ ledger_of sv' id = ledger_of sv id /\
    (id ∈ cy_syncs sv -> snd (co_write ops (cy_world sv)) = None -> cy_files sv' = <[id := st]> (cy_files sv)) /\
    (id ∉ cy_syncs sv -> cy_files sv' = cy_files sv).
Proof.
  intros HE.
  assert (Hb : forall sv1 fuel', cy_events sv1 = cy_events sv -> cy_chans sv1 = cy_chans sv ->
    exists sv', run_ops ops (2 + fuel') sv1 [OpPut id st; OpBroadcast id st] = Some sv' /\
      cy_states sv' = <[id := st]> (cy_states sv1) /\ cy_ledgers sv' = cy_ledgers sv1 /\ cy_files sv' = cy_files sv1).
  { intros sv1 fuel' He Hc. cbn [Nat.add run_ops run_op app]. unfold broadcast. cbn.
    destruct (send_all_open (events_of sv1 id) (NewCycleEvent (now ops (put sv1 id st)) st) (cy_chans sv1)) as (chans' & E & _).
    { intros ch. unfold events_of. rewrite He, Hc. apply (e_open _ _ _ _ _ HE). }
    unfold events_of in *. cbn. rewrite E. eexists. split; [by destruct fuel'|]. done. }
  change (4 + fuel)%nat with (S (3 + fuel)). cbn [run_ops run_op]. unfold getSync. case_bool_decide as Hin; cbn [app].
  - change (3 + fuel)%nat with (S (2 + fuel)). cbn [run_ops run_op]. unfold write_file. destruct (co_write ops (cy_world sv)) as [w r].
    set (sv1 := fst _). assert (H1 : cy_events sv1 = cy_events sv /\ cy_chans sv1 = cy_chans sv /\ cy_states sv1 = cy_states sv /\
      cy_ledgers sv1 = cy_ledgers sv /\ (r = None -> cy_files sv1 = <[id := st]> (cy_files sv))) by by destruct r as [[|]|].
    destruct H1 as (He & Hc & Hst & Hl & Hf). destruct (Hb sv1 fuel He Hc) as (sv' & Hr & H1 & H2 & H3).
    exists sv'. cbn [app]. rewrite Hr. split_and!; [done|by rewrite H1, Hst|unfold ledger_of; by rewrite H2, Hl|intros _ E; rewrite H3; by apply Hf|done].
  - destruct (Hb sv (S fuel) eq_refl eq_refl) as (sv' & Hr & H1 & H2 & H3).
    exists sv'. change (3 + fuel)%nat with (2 + S fuel)%nat. rewrite Hr. split_and!; [done|done|unfold ledger_of; by rewrite H2|done|done].
Qed.

Lemma seals_app entries new : LedgerSealsResume entries = None -> LedgerEventCycleHalted ∉ map Type_ new ->
  LedgerSealsResume (entries ++ new)%list = None.
Proof.
  intros H. induction new as [|e new IH] using rev_ind; [by rewrite app_nil_r|]. rewrite map_app, app_assoc, seal_snoc. intros Hn.
  destruct (String.eqb_spec (Type_ e) LedgerEventCycleHalted) as [E|]; [exfalso; apply Hn; rewrite <-E; set_solver|].
  destruct (String.eqb _ _); [done|]. apply IH. set_solver.
Qed.

Lemma step_types_no_halt b rs : LedgerEventCycleHalted ∉ step_types b rs.
Proof.
  unfold step_types. rewrite elem_of_app. intros [H|H].
  - destruct b; [|by apply elem_of_nil in H]. by repeat (apply elem_of_cons in H as [?|H]); [..|apply elem_of_nil in H].
  - apply list_elem_of_In, in_flat_map in H as (r & _ & H). revert H. unfold report_types. cbn [In]. intros [H|H].
    + by destruct (g_Passed r).
    + destruct (String.eqb _ _); [|done]. apply in_map_iff in H as (cc & H & _). by destruct (cc_Verified cc).
Qed.

(** The step of [id] reaches the gates with this state. *)
Definition reaches_gates sv id goal sv2 state : Prop :=
  exists sv1 s0, CycleApi.get ops (refreshFromFile ops sv id) id = (sv1, Some s0) /\ step_ledger ops sv1 id goal s0 = (sv2, inr state).

Lemma reaches_frame sv id goal sv2 state : reaches_gates sv id goal sv2 state ->
  frame sv sv2 /\ outside sv sv2 /\ LedgerSealsResume (ledger_of sv id) = None.
Proof.
  intros (sv1 & s0 & Hg & Hs). destruct (refresh_frame sv id) as [Hf0 [Hl0 Ho0]]. destruct (get_frame (refreshFromFile ops sv id) id) as [Hf1 [Hl1 Ho1]].
  rewrite Hg in Hf1, Hl1, Ho1. destruct (step_ledger_frame sv1 id goal s0) as [Hf2 [Hl2 Ho2]]. rewrite Hs in Hf2, Hl2, Ho2. cbn in *.
  split; [unfold frame in *; intuition congruence|]. split; [split; congruence|].
  assert (ledger_of sv id = ledger_of sv1 id) as -> by (unfold ledger_of; by rewrite Hl1, Hl0).
  revert Hs. unfold step_ledger, read_ledger. destruct (co_ledger ops (cy_world sv1)) as [w [e|]]; [done|].
  change (ledger_of (sv1 <| cy_world := w |>) id) with (ledger_of sv1 id). by destruct (LedgerSealsResume (ledger_of sv1 id)).
Qed.

Lemma step_runs cp w0 sv id goal sv2 state w result : Reachable ops exec file_exists cp w0 sv -> (forall w, snd (co_append ops w) = true) ->
  reaches_gates sv id goal sv2 state -> Execute (co_clock ops) (pipelineForState ops exec file_exists cp state) (cy_world sv2) state = (w, result) ->
  let st := fst (step_finish (co_clock ops w) id result) in
  exists sv' new, handleStepCycle ops exec file_exists cp sv id goal = Some (sv', SOk st) /\ cy_states sv' !! id = Some st /\
    ledger_of sv' id = (ledger_of sv id ++ new)%list /\ map Type_ new = step_types (IsSuccess result) (reports result).
Proof.
  intros HI%cycles_reachable_inv Happ Hr HE st. destruct (reaches_frame _ _ _ _ _ Hr) as (Hf & [Hl _] & _).
  destruct Hr as (sv1 & s0 & Hg & Hs). unfold handleStepCycle. rewrite Hg, Hs. unfold step_run. rewrite HE.
  set (sv3 := sv2 <| cy_world := w |>). change (now ops sv3) with (co_clock ops w).
  destruct (step_finish_split (co_clock ops w) id result) as (l & E & Hl2). fold st in E.
  replace (step_finish (co_clock ops w) id result) with (st, snd (step_finish (co_clock ops w) id result)) by (unfold st; by destruct (step_finish _ _ _)).
  rewrite E. rewrite length_app. cbn [List.length].
  replace (3 * (List.length l + 3))%nat with (List.length l + (4 + (2 * List.length l + 5)))%nat by lia.
  destruct (run_appends id Happ l _ Hl2 (4 + (2 * List.length l + 5)) sv3 [OpGetSync id st false; OpPut id st; OpBroadcast id st])
    as (sv4 & new & -> & Ht & Hled & Hf4 & _ & _ & _).
  assert (H4 : EIs (fun _ => False) sv4).
  { eapply frame_EIs; [exact Hf4|]. change (EIs (fun _ => False) sv2). eapply frame_EIs; [exact Hf|apply HI]. }
  destruct (run_tail _ sv4 id st (2 * List.length l + 5) H4) as (sv' & -> & H1 & H2 & _).
  exists sv', new. split; [done|]. split; [rewrite H1; by rewrite lookup_insert_eq|]. split; [|done].
  rewrite H2, Hled. unfold ledger_of. cbn. by rewrite Hl.
Qed.

(** A step that is not refused always answers, with the state the gates left (completed
    and without its goal when they passed), which is the cached state afterwards; it records
    in order the progress signal and the completion, when the gates passed, and then what
    each gate and each checked claim did.  It never seals: a step whose gates fail leaves a
    halted state and a ledger that refuses nothing. *)
Theorem step_records cp w0 sv id goal sv2 state w result : Reachable ops exec file_exists cp w0 sv -> (forall w, snd (co_append ops w) = true) ->
  reaches_gates sv id goal sv2 state -> Execute (co_clock ops) (pipelineForState ops exec file_exists cp state) (cy_world sv2) state = (w, result) ->
  let st := fst (step_finish (co_clock ops w) id result) in
  exists sv' new, handleStepCycle ops exec file_exists cp sv id goal = Some (sv', SOk st) /\ cy_states sv' !! id = Some st /\
    ledger_of sv' id = (ledger_of sv id ++ new)%list /\ map Type_ new = step_types (IsSuccess result) (reports result) /\
    LedgerSealsResume (ledger_of sv' id) = None /\ (IsSuccess result = false -> s_Halted st = true).
Proof.
  intros HR Happ Hr HE st. destruct (step_runs _ _ _ _ _ _ _ _ _ HR Happ Hr HE) as (sv' & new & H1 & H2 & H3 & H4).
  exists sv', new. split_and!; [done..| |].
  - rewrite H3. apply seals_app; [by eapply reaches_frame|]. rewrite H4. apply step_types_no_halt.
  - unfold st. destruct (pipeline_runs (co_clock ops) (pipelineForState ops exec file_exists cp state) (cy_world sv2) state)
      as [(rs & w' & s' & Hp)|(rs & reason & w' & s' & Hp)].
    + pose proof (passes_execute (co_clock ops) _ _ _ _ _ _ [] Hp) as E. unfold Execute in HE. rewrite HE in E. injection E as _ ->. done.
    + pose proof (stops_execute _ _ _ _ _ _ _ _ Hp) as E. rewrite HE in E. injection E as _ ->. intros _. by inversion Hp.
Qed.

(** A step of a cycle that its gates had halted runs the gates again, and when they pass
    it records the progress and the completion of a cycle, yet completes none: the counter
    stays, the state stays halted, and the goal is dropped. *)
Theorem halted_step_counts_nothing cp w0 sv id goal sv2 state w st rs : Reachable ops exec file_exists cp w0 sv ->
  (forall w, snd (co_append ops w) = true) -> (forall base, cp = Some base -> FramedPipeline base) ->
  reaches_gates sv id goal sv2 state -> s_Halted state = true ->
  Execute (co_clock ops) (pipelineForState ops exec file_exists cp state) (cy_world sv2) state = (w, Success st rs) ->
  exists sv' new st', handleStepCycle ops exec file_exists cp sv id goal = Some (sv', SOk st') /\ cy_states sv' !! id = Some st' /\
    s_CompletedCycles st' = s_CompletedCycles state /\ s_Halted st' = true /\ s_NextCycleGoal st' = "" /\
    ledger_of sv' id = (ledger_of sv id ++ new)%list /\
    exists more, map Type_ new = LedgerEventValidationGreen :: LedgerEventCycleCompleted :: more.
Proof.
  intros HR Happ HP Hr Hh HE. destruct (step_runs _ _ _ _ _ _ _ _ _ HR Happ Hr HE) as (sv' & new & H1 & H2 & H3 & H4).
  assert (Hsp : same_plan state st).
  { destruct (pipeline_runs (co_clock ops) (pipelineForState ops exec file_exists cp state) (cy_world sv2) state)
      as [(rs1 & w' & s' & Hp)|(rs1 & reason & w' & s' & Hp)].
    - pose proof (passes_execute (co_clock ops) _ _ _ _ _ _ [] Hp) as E. unfold Execute in HE. rewrite HE in E. injection E as _ -> _.
      eapply passes_frame, Hp. by apply framed_pipelineForState.
    - pose proof (stops_execute _ _ _ _ _ _ _ _ Hp) as E. by rewrite HE in E. }
  destruct Hsp as [_ Hc _ _ _ Hs _ _ _ _]. rewrite Hh in Hs.
  exists sv', new, (st <| s_NextCycleGoal := "" |>). revert H1 H2. unfold step_finish. cbn [fst IsSuccess Success err value CompleteCycle]. unfold CompleteCycle.
  rewrite Hs. cbn [value Failure]. intros H1 H2. split_and!; [done..|]. eexists. by rewrite H4.
Qed.

(** ** A halt during a step *)

Lemma run_op_goes_on sv k h op :
  run_op ops (goes_on sv k h) op = let '(sv', more, ok) := run_op ops sv op in (goes_on sv' k h, more, ok).
Proof.
  destruct op as [i t su f|i r|i st r|i st|i|i st|i|i st|i|i c]; cbn [run_op].
  - unfold appendLedger. cbn. by destruct (co_append _ _) as [w [|]].
  - unfold appendLedger. cbn. by destruct (co_append _ _) as [w [|]].
  - done.
  - unfold write_file. cbn. by destruct (co_write _ _) as [w [[|]|]].
  - unfold remove_file. cbn. by destruct (co_remove _ _) as [w [|]].
  - done.
  - done.
  - unfold broadcast. cbn. by destruct (send_all _ _ _).
  - unfold closeAll. cbn. by destruct (close_chans _ _).
  - unfold unsubscribe. cbn. by destruct (close_chan _ _).
Qed.

(** Uninterrupted, a handler runs its list as [run_ops] does. *)
Lemma run_ops_leads cp k fuel : forall sv l sv', run_ops ops fuel sv l = Some sv' ->
  leads cp (goes_on sv k (HOps l)) (goes_on sv' k (HOps [])).
Proof.
  induction fuel as [|fuel IH]; intros sv [|op l] sv'; cbn [run_ops]; [by intros [= <-]|done|by intros [= <-]|].
  destruct (run_op ops sv op) as [[sv1 more] [|]] eqn:E; [|done]. intros H. eapply rtc_l; [|exact (IH _ _ _ H)].
  exists (LRun k), true. cbn [step]. cbn [goes_on cy_handlers set_with eta]. rewrite lookup_insert_eq. cbn [run_handler].
  change (sv <| cy_handlers := _ |>) with (goes_on sv k (HOps (op :: l))). rewrite run_op_goes_on, E. unfold goes_on. cbn. by rewrite insert_insert_eq.
Qed.

(** A halt that completes while a step runs its gates does not hold: whatever was
    recorded since the step looked at the ledger, a passing step records its progress signal
    after it, which lifts the seal, and puts back a state that is not halted. *)
Theorem step_lifts_halt cp w0 sv k id state w st rs : Reachable ops exec file_exists cp w0 sv -> (forall w, snd (co_append ops w) = true) ->
  cy_handlers sv !! k = Some (HStepRun id state) ->
  Execute (co_clock ops) (pipelineForState ops exec file_exists cp state) (cy_world sv) state = (w, Success st rs) -> s_Halted st = false ->
  exists sv' st', leads cp sv sv' /\ LedgerSealsResume (ledger_of sv' id) = None /\ cy_states sv' !! id = Some st' /\ s_Halted st' = false.
Proof.
  intros HI%cycles_reachable_inv Happ Hk HE Hh. set (sv1 := sv <| cy_world := w |>). set (result := Success st rs) in *.
  destruct (step_finish_split (co_clock ops w) id result) as (l & E & Hl). set (st' := fst (step_finish _ id result)) in E.
  destruct (run_appends id Happ l _ Hl 4 sv1 [OpGetSync id st' false; OpPut id st'; OpBroadcast id st']) as (sv2 & new & Hrun & Ht & Hled & Hf & _).
  assert (H2 : EIs (fun _ => False) sv2) by (eapply frame_EIs; [exact Hf|apply HI]).
  destruct (run_tail _ sv2 id st' 0 H2) as (sv3 & Hr3 & Hst & Hl3 & _). change (4 + 0)%nat with 4%nat in Hr3. rewrite Hr3, <-E in Hrun.
  exists (goes_on sv3 k (HOps [])), st'. split; [|split; [|split]].
  - eapply rtc_l; [|exact (run_ops_leads cp k _ _ _ _ Hrun)]. exists (LRun k), true. cbn [step]. rewrite Hk. cbn [run_handler].
    unfold step_run. rewrite HE. fold sv1. change (now ops sv1) with (co_clock ops w).
    by rewrite (surjective_pairing (step_finish (co_clock ops w) id result)).
  - change (ledger_of (goes_on sv3 k (HOps [])) id) with (ledger_of sv3 id). rewrite Hl3, Hled. unfold step_types in Ht. cbn in Ht.
    destruct new as [|e new]; [done|]. cbn in Ht. injection Ht as He Ht. change (e :: new) with ([e] ++ new)%list. rewrite app_assoc.
    apply seals_app; [rewrite seal_snoc, He; done|]. rewrite Ht. pose proof (step_types_no_halt true rs) as Hn. unfold step_types in Hn.
    intros Hin. apply Hn. cbn. right. exact Hin.
  - cbn. by rewrite Hst, lookup_insert_eq.
  - unfold st', step_finish. cbn [fst IsSuccess result Success err value]. unfold CompleteCycle. rewrite Hh. cbn. exact Hh.
Qed.

(** ** Creation *)

(** Creating a cycle always answers. A request that [NewState] refuses changes nothing;
    a state file that cannot be written leaves no cycle in the store; otherwise the answer
    is the new state, which is then cached, in its state file, and registered for the
    writes that follow. *)
Theorem create_spec sv req random :
  let id := "cyc_" +:+ Itoa (now ops sv) +:+ "_" +:+ random in
  exists sv' status, handleCreateCycle ops sv req random = Some (sv', status) /\
    match NewState (now ops sv) req id with
    | inl _ => status = SBadRequest /\ sv' = sv
    | inr st =>
        (status = SInternal /\ cy_states sv' = cy_states sv /\ cy_syncs sv' = cy_syncs sv /\ cy_ledgers sv' = cy_ledgers sv) \/
        (status = SCreated st /\ s_ID st = id /\ cy_states sv' !! id = Some st /\ cy_files sv' !! id = Some st /\ getSync sv' id = true)
    end.
Proof.
  intros id. unfold handleCreateCycle, create_decide. fold id. destruct (NewState (now ops sv) req id) as [e|st] eqn:HN.
  { eexists _, _. by split. }
  assert (Hid : s_ID st = id).
  { revert HN. unfold NewState. destruct (_ || _); [done|]. destruct (String.eqb (nc_Goal req) ""); [done|]. by intros [= <-]. }
  unfold write_file. destruct (co_write ops (cy_world sv)) as [w [[|]|]].
  - eexists _, _. split; [done|]. by left.
  - eexists _, _. split; [done|]. by left.
  - cbn [run_ops run_op app]. unfold appendLedger. cbn. destruct (co_append ops w) as [w' [|]]; eexists _, _; (split; [done|]); right.
    all: cbn; unfold getSync; cbn; rewrite !lookup_insert_eq; split_and!; [done..|]; apply bool_decide_eq_true; set_solver.
Qed.
End Spec.

(** ** Concrete runs *)

Definition demo_ops : CycleOps unit :=
  mkCycleOps (fun _ => 7%Z) (fun w => (w, true)) (fun w => (w, None)) (fun w => (w, true)) (fun w => (w, true)) (fun w => (w, None)).
Definition demo_exec (w : unit) (_ : list string) : unit * CmdResult := (w, mkCmd "" "" "" None).
Definition no_files (_ : unit) (_ : string) : bool := false.
Definition demo_pipeline : option (Pipeline unit) :=
  Some [mkGate "g" (fun w s => (w, (GateSuccess ((gate_report "g") <| g_Passed := true |>), s)))].
Definition demo_request : NewCycleRequest := mkNewCycleRequest "fix: a" "" 3 0 true [] [] "" "" None.
Definition demo_id : string := "cyc_7_r".

Definition demo_step (l : Label) (sv : CycleServer unit) : option (CycleServer unit * bool) :=
  step demo_ops demo_exec no_files demo_pipeline l sv.

(** The run of some labels; it stays where it is when a label is not enabled. *)
Fixpoint demo_run (ls : list Label) (sv : CycleServer unit) : CycleServer unit :=
  match ls with
  | [] => sv
  | l :: ls => match demo_step l sv with Some (sv, _) => demo_run ls sv | None => sv end
  end.
Definition demo_server (ls : list Label) : CycleServer unit := demo_run ls (newCycleServer tt).

Lemma demo_run_reachable ls : forall sv, Reachable demo_ops demo_exec no_files demo_pipeline tt sv ->
  Reachable demo_ops demo_exec no_files demo_pipeline tt (demo_run ls sv).
Proof.
  induction ls as [|l ls IH]; intros sv H; cbn; [done|]. destruct (demo_step l sv) as [[sv' ok]|] eqn:E; [|done]. apply IH.
  by eapply R_step.
Qed.
Lemma cycles_demo_reachable ls : Reachable demo_ops demo_exec no_files demo_pipeline tt (demo_server ls).
Proof. apply demo_run_reachable. constructor. Qed.
Lemma demo_run_leads ls : forall sv, leads demo_ops demo_exec no_files demo_pipeline sv (demo_run ls sv).
Proof.
  induction ls as [|l ls IH]; intros sv; cbn; [done|]. destruct (demo_step l sv) as [[sv' ok]|] eqn:E; [|done].
  eapply rtc_l; [by exists l, ok|apply IH].
Qed.

Definition steps_to (l : Label) (sv : CycleServer unit) (ok : bool) : bool :=
  match demo_step l sv with Some (_, b) => Bool.eqb b ok | None => false end.
Definition after (l : Label) (sv : CycleServer unit) : CycleServer unit := match demo_step l sv with Some (sv, _) => sv | None => sv end.
Lemma steps_to_spec l sv ok : steps_to l sv ok = true -> demo_step l sv = Some (after l sv, ok).
Proof. unfold steps_to, after. destruct (demo_step l sv) as [[sv' b]|]; [|done]. by intros ->%Bool.eqb_prop. Qed.

(** A cycle is created; a client watches it. *)
Definition watched : list Label := [LCreate demo_request "r"; LRun 0; LRun 0; LRun 0; LRun 0; LEvents demo_id; LRun 1].
(** It is halted, up to the closing of the channels. *)
Definition halting : list Label := (watched ++ [LHalt demo_id ""; LRun 3; LRun 3; LRun 3; LRun 3; LRun 3; LRun 3])%list.
(** The watcher sees the halt and leaves. *)
Definition leaving : list Label := [LRun 1].

Definition handler_is (sv : CycleServer unit) (k : nat) (f : Handler -> bool) : bool :=
  match cy_handlers sv !! k with Some h => f h | None => false end.
Definition closes (h : Handler) : bool := match h with HOps [OpCloseAll i] => String.eqb i demo_id | _ => false end.
Definition unsubscribes (h : Handler) : bool := match h with HOps [OpUnsubscribe i 2] => String.eqb i demo_id | _ => false end.
Lemma handler_closes sv k : handler_is sv k closes = true -> cy_handlers sv !! k = Some (HOps [OpCloseAll demo_id]).
Proof.
  unfold handler_is. destruct (cy_handlers sv !! k) as [h|]; [|done]. unfold closes. repeat (case_match; try done); subst.
  by intros ->%String.eqb_eq.
Qed.
Lemma handler_unsubscribes sv k : handler_is sv k unsubscribes = true -> cy_handlers sv !! k = Some (HOps [OpUnsubscribe demo_id 2]).
Proof.
  unfold handler_is. destruct (cy_handlers sv !! k) as [h|]; [|done]. unfold unsubscribes. repeat (case_match; try done); subst.
  by intros ->%String.eqb_eq.
Qed.

(** A step looks at the ledger; the cycle is then halted; the step has yet to run the gates. *)
Definition stepping : list Label := [LCreate demo_request "r"; LRun 0; LRun 0; LRun 0; LRun 0; LStep demo_id ""; LRun 1; LRun 1].
Definition overtaken : list Label :=
  (stepping ++ [LHalt demo_id ""; LRun 2; LRun 2; LRun 2; LRun 2; LRun 2; LRun 2; LRun 2; LRun 2])%list.
Definition runs (h : Handler) : bool := match h with HStepRun i _ => String.eqb i demo_id | _ => false end.
Definition run_state (sv : CycleServer unit) (k : nat) : CycleState :=
  match cy_handlers sv !! k with Some (HStepRun _ s) => s | _ => CycleState_zero end.
Lemma handler_runs sv k : handler_is sv k runs = true -> cy_handlers sv !! k = Some (HStepRun demo_id (run_state sv k)).
Proof.
  unfold handler_is, run_state. destruct (cy_handlers sv !! k) as [h|]; [|done]. unfold runs. destruct h; try done.
  by intros ->%String.eqb_eq.
Qed.

(** A server that holds the demo cycle in this state, with this ledger. *)
Definition holding (state : CycleState) (ledger : list HarnessLedgerEntry) : CycleServer unit :=
  (newCycleServer tt) <| cy_states := {[demo_id := state]} |> <| cy_ledgers := {[demo_id := ledger]} |>.
Definition demo_cycle : CycleState := CycleState_zero <| s_ID := demo_id |> <| s_NextCycleGoal := "fix: a" |>.
Definition halt_entry : HarnessLedgerEntry := Entry_zero <| Type_ := LedgerEventCycleHalted |> <| Summary := halt_string HaltUserRequested |>.

(** The last fifty of sixty reports. *)
Definition long_history : CycleServer unit := holding (demo_cycle <| s_History := repeat (gate_report "g") 60 |>) [].
Definition answered (p : CycleServer unit * Status) : CycleState := match snd p with SOk s => s | _ => CycleState_zero end.

Lemma history_bounded_witness :
  (List.length (s_History (answered (handleGetCycle demo_ops long_history demo_id))) <= 50)%nat.
Proof.
  refine (proj1 (history_bounded demo_ops long_history demo_id (fst (handleGetCycle demo_ops long_history demo_id))
    (answered (handleGetCycle demo_ops long_history demo_id)) _)).
  vm_compute. reflexivity.
Defined.

Definition sealed_server : CycleServer unit := holding demo_cycle [halt_entry].
Lemma sealed_step_refused_witness :
  exists sv' status, handleStepCycle demo_ops demo_exec no_files demo_pipeline sealed_server demo_id "fix: b" = Some (sv', status) /\
    status ∈ [SNotFound; SInternal; SSealed HaltUserRequested] /\
    cy_ledgers sv' = cy_ledgers sealed_server /\ cy_files sv' = cy_files sealed_server.
Proof. apply (sealed_step_refused demo_ops demo_exec no_files demo_pipeline). vm_compute. reflexivity. Defined.

(** The watcher of a halted cycle panics. *)
Definition left : list Label := (halting ++ [LRun 3] ++ leaving)%list.
Lemma cycle_panics_witness :
  exists k id ch rest, LRun 1 = LRun k /\ cy_handlers (demo_server left) !! k = Some (HOps (OpUnsubscribe id ch :: rest)) /\
    closed (cy_chans (demo_server left)) ch.
Proof.
  apply (cycle_panics demo_ops demo_exec no_files demo_pipeline tt (demo_server left) (LRun 1) (after (LRun 1) (demo_server left))).
  - apply cycles_demo_reachable.
  - apply steps_to_spec. vm_compute. reflexivity.
Defined.

Lemma halt_panics_watcher_witness :
  exists sv3, demo_step (LRun 1) (demo_run leaving (after (LRun 3) (demo_server halting))) = Some (sv3, false).
Proof.
  apply (halt_panics_watcher demo_ops demo_exec no_files demo_pipeline tt (demo_server halting) 3 demo_id []
    (after (LRun 3) (demo_server halting)) 2) with (rest' := []).
  - apply cycles_demo_reachable.
  - apply handler_closes. vm_compute. reflexivity.
  - apply steps_to_spec. vm_compute. reflexivity.
  - apply (bool_decide_eq_true_1 _). vm_compute. reflexivity.
  - apply demo_run_leads.
  - apply handler_unsubscribes. vm_compute. reflexivity.
Defined.

Lemma orchestrate_once_witness :
  let sv := demo_server [LCreate demo_request "r"; LRun 0; LRun 0; LRun 0; LRun 0; LOrchestrate demo_id true true;
                         LOrchestrate demo_id true true; LRun 1; LRun 1; LRun 2; LRun 2] in
  (forall id, id ∈ cy_orchestrating sv <-> exists k, cy_handlers sv !! k = Some (HOrchestrating id)) /\
  (forall k k' id, cy_handlers sv !! k = Some (HOrchestrating id) -> cy_handlers sv !! k' = Some (HOrchestrating id) -> k = k').
Proof. apply (orchestrate_once demo_ops demo_exec no_files demo_pipeline tt). apply cycles_demo_reachable. Defined.

Lemma step_lifts_halt_witness :
  LedgerSealsResume (ledger_of (demo_server overtaken) demo_id) = Some HaltUserRequested /\
  exists sv' st', leads demo_ops demo_exec no_files demo_pipeline (demo_server overtaken) sv' /\
    LedgerSealsResume (ledger_of sv' demo_id) = None /\ cy_states sv' !! demo_id = Some st' /\ s_Halted st' = false.
Proof.
  split; [vm_compute; reflexivity|].
  apply (step_lifts_halt demo_ops demo_exec no_files demo_pipeline tt (demo_server overtaken) 1 demo_id (run_state (demo_server overtaken) 1)
    tt (run_state (demo_server overtaken) 1) [(gate_report "g") <| g_Passed := true |>]).
  - apply cycles_demo_reachable.
  - intros w. reflexivity.
  - apply handler_runs. vm_compute. reflexivity.
  - vm_compute. reflexivity.
  - vm_compute. reflexivity.
Defined.

(** A state file whose state a gate halted, and an empty ledger. *)
Definition gate_halted : CycleServer unit := demo_server [LWrite demo_id (demo_cycle <| s_Halted := true |> <| s_HaltReason := Some HaltGateFailure |>)].
Definition got (sv : CycleServer unit) (id : string) : CycleServer unit * option CycleState :=
  CycleApi.get demo_ops (refreshFromFile demo_ops sv id) id.
Definition decided (sv : CycleServer unit) (id goal : string) : CycleServer unit * (Status + CycleState) :=
  step_ledger demo_ops (fst (got sv id)) id goal (default CycleState_zero (snd (got sv id))).
Definition gates_state (sv : CycleServer unit) (id goal : string) : CycleState :=
  match snd (decided sv id goal) with inr s => s | inl _ => CycleState_zero end.
Definition to_gates (sv : CycleServer unit) (id goal : string) : bool :=
  match snd (got sv id), snd (decided sv id goal) with Some _, inr _ => true | _, _ => false end.
Lemma to_gates_spec sv id goal : to_gates sv id goal = true ->
  reaches_gates demo_ops sv id goal (fst (decided sv id goal)) (gates_state sv id goal).
Proof.
  unfold to_gates, gates_state, reaches_gates, decided. fold (got sv id). destruct (got sv id) as [sv1 [s0|]]; cbn [fst snd default]; [|discriminate].
  unfold Datatypes.id; destruct (step_ledger demo_ops sv1 id goal s0) as [sv2 [status|state]] eqn:E; cbn [fst snd]; [discriminate|]. intros _.
  exists sv1, s0. split; [reflexivity|exact E].
Qed.

Lemma demo_framed base : demo_pipeline = Some base -> FramedPipeline base.
Proof. intros [= <-]. constructor; [|constructor]. intros w s w' r s' [= <- <- <-]. reflexivity. Qed.

Lemma step_records_witness :
  exists sv' new, handleStepCycle demo_ops demo_exec no_files demo_pipeline gate_halted demo_id "" =
      Some (sv', SOk (fst (step_finish 7 demo_id (Success (gates_state gate_halted demo_id "") [(gate_report "g") <| g_Passed := true |>])))) /\
    map Type_ new = [LedgerEventValidationGreen; LedgerEventCycleCompleted; LedgerEventGatePassed].
Proof.
  destruct (step_records demo_ops demo_exec no_files demo_pipeline tt gate_halted demo_id "" (fst (decided gate_halted demo_id ""))
    (gates_state gate_halted demo_id "") tt (Success (gates_state gate_halted demo_id "") [(gate_report "g") <| g_Passed := true |>]))
    as (sv' & new & H1 & _ & _ & H4 & _).
  - apply cycles_demo_reachable.
  - intros w. reflexivity.
  - apply to_gates_spec. vm_compute. reflexivity.
  - vm_compute. reflexivity.
  - exists sv', new. split; [exact H1|exact H4].
Defined.

Lemma halted_step_counts_nothing_witness :
  exists sv' new st', handleStepCycle demo_ops demo_exec no_files demo_pipeline gate_halted demo_id "" = Some (sv', SOk st') /\
    cy_states sv' !! demo_id = Some st' /\ s_CompletedCycles st' = 0%Z /\ s_Halted st' = true /\ s_NextCycleGoal st' = "" /\
    ledger_of sv' demo_id = (ledger_of gate_halted demo_id ++ new)%list /\
    exists more, map Type_ new = LedgerEventValidationGreen :: LedgerEventCycleCompleted :: more.
Proof.
  apply (halted_step_counts_nothing demo_ops demo_exec no_files demo_pipeline tt gate_halted demo_id "" (fst (decided gate_halted demo_id ""))
    (gates_state gate_halted demo_id "") tt (gates_state gate_halted demo_id "") [(gate_report "g") <| g_Passed := true |>]).
  - apply cycles_demo_reachable.
  - intros w. reflexivity.
  - apply demo_framed.
  - apply to_gates_spec. vm_compute. reflexivity.
  - vm_compute. reflexivity.
  - vm_compute. reflexivity.
Defined.
