(* ===== verification/CycleClient.v ===== *)
(** * The cycle commands

    [internal/cli/cycle.go]: [cycle new], [start], [status], [ledger], [next], [halt] and [watch],
    from their arguments to the text they print and the error they return, with the JSON of the
    requests.  The daemon's answers are arguments of a command; [serve_create] and its siblings
    are the handlers of [CycleApi.v] with the bytes they read and write, and the theorems put
    them at the other end. *)

From S2P Require Import Prelude GoStrings Json Codec Lines Utf8 JsonIndent Contract StateFile Paths Ledger Stuck Cycle Gates CycleApi CycleApiSpec.
From S2P Require Import Rally McpClient RallyClient.
From Stdlib Require Import Ascii String.
#[local] Open Scope string_scope.

(** ** The JSON of requests and events *)

#[export] Instance eta_NewCycleRequest : Eta NewCycleRequest := fun r =>
  mkNewCycleRequest (nc_Goal r) (nc_Branch r) (nc_MaxCycles r) (nc_MaxDurationMinutes r) (nc_AutoGoal r) (nc_PendingFiles r)
    (nc_LocalGates r) (nc_AuditCmd r) (nc_PolishTestCmd r) (nc_Orchestrator r).
#[export] Instance eta_CycleEvent : Eta CycleEvent := fun e =>
  mkCycleEvent (ce_CycleID e) (ce_Phase e) (ce_CompletedCycles e) (ce_Halted e) (ce_HaltReason e) (ce_LastFailedGate e) (ce_At e).

(* src: pkg/contract/cycle.go 339-363 NewCycleRequest *)
Definition NewCycleRequest_fields : list (Field NewCycleRequest) :=
  [ Tag "goal" nc_Goal enc_string into_string;
    Tag "branch" nc_Branch opt_string into_string;
    Tag "max_cycles" nc_MaxCycles opt_int into_int;
    Tag "max_duration_minutes" nc_MaxDurationMinutes opt_int into_int;
    Tag "auto_goal" nc_AutoGoal opt_bool into_bool;
    Tag "pending_files" nc_PendingFiles (opt_slice JStr) (into_slice "" into_string);
    Tag "local_gates" nc_LocalGates (opt_slice JStr) (into_slice "" into_string);
    Tag "audit_cmd" nc_AuditCmd opt_string into_string;
    Tag "polish_test_cmd" nc_PolishTestCmd opt_string into_string;
    Tag "orchestrator" nc_Orchestrator (opt_ptr (encode_struct OrchestratorConfig_fields))
      (into_ptr OrchestratorConfig_zero (into_struct OrchestratorConfig_fields)) ].
Definition NewCycleRequest_zero := mkNewCycleRequest "" "" 0 0 false [] [] "" "" None.

(** The requests of a step and of a halt are one string each. *)
(* src: pkg/contract/cycle.go 365-369 StepRequest *)
Definition StepRequest_fields : list (Field string) := [MkField "goal" id (fun v _ => v) opt_string into_string].
(* src: pkg/contract/cycle.go 371-375 HaltRequest *)
Definition HaltRequest_fields : list (Field string) := [MkField "reason" id (fun v _ => v) opt_string into_string].

(* src: pkg/contract/cycle.go 287-303 CycleEvent *)
Definition CycleEvent_fields : list (Field CycleEvent) :=
  [ Tag "cycle_id" ce_CycleID enc_string into_string;
    Tag "phase" ce_Phase enc_phase into_phase;
    Tag "completed_cycles" ce_CompletedCycles enc_int into_int;
    Tag "halted" ce_Halted opt_bool into_bool;
    Tag "halt_reason" ce_HaltReason opt_reason into_reason;
    Tag "last_failed_gate" ce_LastFailedGate opt_string into_string;
    Tag "at" ce_At enc_int into_int ].
Definition CycleEvent_zero := mkCycleEvent "" CyclePhaseUnset 0 false None "" 0.

(** ** Outcomes *)

Inductive CycleError : Type :=
| XHome (e : string) | XBlank (flag : string) | XBroker | XRequest (what : string)
| XFailed (what : string) (code : Z) (body : string) | XDecode | XNotFound | XUnmarshal | XStream.

(** What a command printed, and its error. *)
Record Printed := mkPrinted { pr_out : string; pr_err : option CycleError }.
Definition stops (e : CycleError) : Printed := mkPrinted "" (Some e).

(** The answers of a daemon to the requests of one command. *)
Record CycleDaemon := mkCycleDaemon { cd_get : string -> Reply; cd_post : string -> string -> Reply }.

Definition decode_state (body : string) : option CycleState := Decode CycleState_zero (into_struct CycleState_fields) body.

(** [fmt.Fprintf] of one line. *)
Definition put_line (label v : string) : string := label +:+ v +:+ nl.

(** The [%v] verb. *)
Definition bool_text (b : bool) : string := if b then "true" else "false".
Definition strings_text (l : list string) : string := "[" +:+ String.concat " " l +:+ "]".
Definition reason_text (r : option HaltReason) : string := match r with Some r => halt_string r | None => "" end.

(** ** Creating a cycle *)

(** [changed]: the flag was given. *)
(* src: internal/cli/cycle.go 96-104 rejectBlankOverride *)
Definition rejectBlankOverride (changed : bool) (flagName value : string) : option CycleError :=
  if negb changed then None else if String.eqb (TrimSpace value) "" then Some (XBlank flagName) else None.

(** The home directory is the one of the process, which the commands do not pass. *)
(* src: internal/cli/cycle.go 401-407 cycleStateFileDisplay *)
Definition cycleStateFileDisplay (home : string + string) (id : string) : string :=
  match CyclesDir home with
  | inl _ => filepath_Join ["~"; ".rallish"; "cycles"; "cycle-" +:+ id +:+ ".json"]
  | inr dir => filepath_Join [dir; "cycle-" +:+ id +:+ ".json"]
  end.

(** The gates of a state, after their number. *)
(* src: internal/cli/cycle.go 388-393 runCycleNew *)
Definition gate_lines (label bullet : string) (gates : list string) : string :=
  match gates with
  | [] => ""
  | _ => put_line label (Itoa (Z.of_nat (List.length gates))) +:+ String.concat "" (map (put_line bullet) gates)
  end.

(* src: internal/cli/cycle.go 344-359 runCycleNew *)
Definition new_request (goal branch : string) (maxCycles maxDurationMinutes : Z) (autoGoal : bool) (agents workingDir : string)
    (localGates : list string) (auditCmd polishTestCmd : string) : NewCycleRequest :=
  mkNewCycleRequest goal branch maxCycles maxDurationMinutes autoGoal [] localGates auditCmd polishTestCmd
    (if negb (String.eqb agents "") || negb (String.eqb workingDir "")
     then Some (mkOrchestratorConfig (Some (Split agents ","%char)) "" 0 "" workingDir 0) else None).

(** The state of the answer to the request, or the error. *)
(* src: internal/cli/cycle.go 361-382 runCycleNew *)
Definition create (d : CycleDaemon) (req : NewCycleRequest) : CycleError + CycleState :=
  match cd_post d "/cycles" (encode (encode_struct NewCycleRequest_fields req)) with
  | NoReply => inl (XRequest "post cycles")
  | Status code body =>
      if negb (code =? 201)%Z then inl (XFailed "create cycle" code body)
      else match decode_state body with None => inl XDecode | Some state => inr state end
  end.

(* src: internal/cli/cycle.go 384-394 runCycleNew *)
Definition created_text (home : string + string) (state : CycleState) : string :=
  put_line "cycle created: " (s_ID state) +:+ put_line "  branch:       " (s_Branch state) +:+
  put_line "  max_cycles:   " (Itoa (s_MaxCycles state)) +:+ put_line "  goal:         " (s_NextCycleGoal state) +:+
  gate_lines "  local_gates: " "    - " (s_LocalGates state) +:+ put_line "  state_file:   " (cycleStateFileDisplay home (s_ID state)).

(* src: internal/cli/cycle.go 338-396 runCycleNew *)
Definition runCycleNew (home : string + string) (bc : option CycleDaemon) (goal branch : string) (maxCycles maxDurationMinutes : Z)
    (autoGoal : bool) (agents workingDir : string) (localGates : list string) (auditCmd polishTestCmd : string) : Printed :=
  match bc with
  | None => stops XBroker
  | Some d =>
      match create d (new_request goal branch maxCycles maxDurationMinutes autoGoal agents workingDir localGates auditCmd polishTestCmd) with
      | inl e => stops e
      | inr state => mkPrinted (created_text home state) None
      end
  end.

(** The command around it. *)
(* src: internal/cli/cycle.go 57-74 CycleNewCmd *)
Definition CycleNewCmd (home : string + string) (bc : option CycleDaemon) (goal branch : string) (maxCycles maxDurationMinutes : Z)
    (autoGoal : bool) (agents workingDir : string) (localGates : list string) (auditCmd polishTestCmd : option string) : Printed :=
  let value := default "" in
  let changed (o : option string) := match o with Some _ => true | None => false end in
  match home with
  | inl e => stops (XHome e)
  | inr _ =>
      match rejectBlankOverride (changed auditCmd) "audit-cmd" (value auditCmd),
            rejectBlankOverride (changed polishTestCmd) "polish-test-cmd" (value polishTestCmd) with
      | Some e, _ | None, Some e => stops e
      | None, None =>
          runCycleNew home bc goal branch maxCycles maxDurationMinutes autoGoal agents workingDir localGates (value auditCmd) (value polishTestCmd)
      end
  end.

(** ** The state and the ledger of a cycle *)

(* src: internal/cli/cycle.go 511-533 readCycleLedgerWithClient *)
Definition readCycleLedger (d : CycleDaemon) (cycleID : string) : CycleError + list HarnessLedgerEntry :=
  match cd_get d ("/cycles/" +:+ cycleID +:+ "/ledger") with
  | NoReply => inl (XRequest "get cycle ledger")
  | Status code body =>
      if negb (code =? 200)%Z then inl (XFailed "cycle ledger" code body)
      else match Decode [] (into_slice Entry_zero (into_struct Entry_fields)) body with None => inl XDecode | Some l => inr l end
  end.

(** A nil slice is written as [null]: the entries of an answer with none are nil unless the
    answer is an empty array, which the daemon does not write. *)
Definition enc_entries (l : list HarnessLedgerEntry) : json :=
  match l with [] => JNull | _ => JArr (map (encode_struct Entry_fields) l) end.

(* src: internal/cli/cycle.go 498-509 runCycleLedgerWithClient *)
Definition runCycleLedger (bc : option CycleDaemon) (cycleID : string) : Printed :=
  match bc with
  | None => stops XBroker
  | Some d => match readCycleLedger d cycleID with
              | inl e => stops e
              | inr entries => mkPrinted (MarshalIndent (enc_entries entries) +:+ nl) None
              end
  end.

(** The file is read when the daemon does not answer with a state; its backup is not. *)
(* src: internal/cli/cycle.go 435-451 runCycleStatusWithClient *)
Definition local_state (home : string + string) (file : string -> option string) (cycleID : string) : CycleError + CycleState :=
  match CyclesDir home with
  | inl e => inl (XHome e)
  | inr cyclesDir =>
      match file (filepath_Join [cyclesDir; "cycle-" +:+ filepath_Base cycleID +:+ ".json"]) with
      | None => inl XNotFound
      | Some data => match Unmarshal CycleState_zero (into_struct CycleState_fields) data with None => inl XUnmarshal | Some s => inr s end
      end
  end.

(** The number of entries and the last of them. *)
(* src: internal/cli/cycle.go 465-473 runCycleStatusWithClient *)
Definition ledger_text (r : CycleError + list HarnessLedgerEntry) : string :=
  match r with
  | inl _ => ""
  | inr entries =>
      match last entries with
      | None => ""
      | Some e => "ledger:       " +:+ Itoa (Z.of_nat (List.length entries)) +:+ " entries" +:+ nl +:+ "ledger_last:  " +:+ Type_ e +:+
                  (if String.eqb (Ledger.Gate e) "" then "" else " gate=" +:+ Ledger.Gate e) +:+ nl
      end
  end.

(* src: internal/cli/cycle.go 453-486 runCycleStatusWithClient *)
Definition status_text (state : CycleState) (ledger : CycleError + list HarnessLedgerEntry) : string :=
  put_line "cycle:        " (s_ID state) +:+ put_line "phase:        " (phase_string (s_Phase state)) +:+
  put_line "completed:    " (Itoa (s_CompletedCycles state) +:+ " / " +:+ Itoa (s_MaxCycles state)) +:+
  put_line "branch:       " (s_Branch state) +:+ put_line "baseline:     " (s_BaselineSHA state) +:+
  put_line "goal:         " (s_NextCycleGoal state) +:+ gate_lines "local_gates:  " "  - " (s_LocalGates state) +:+ ledger_text ledger +:+
  (if ShouldRotateAgent state then put_line "agent_rotate: yes (3-cycle reset)" "" else "") +:+
  put_line "halted:       " (bool_text (s_Halted state)) +:+
  (if s_Halted state then put_line "halt_reason:  " (reason_text (s_HaltReason state)) else "") +:+
  match s_ViolationsFound state with
  | [] => ""
  | vs => put_line "violations:   " (Itoa (Z.of_nat (List.length vs))) +:+
          String.concat "" (map (fun v => "  - [" +:+ v_Type v +:+ "] " +:+ v_File v +:+ ":" +:+ Itoa (v_Line v) +:+ " " +:+ v_Message v +:+ nl) vs)
  end.

(* src: internal/cli/cycle.go 417-488 runCycleStatusWithClient *)
Definition runCycleStatus (home : string + string) (file : string -> option string) (bc : option CycleDaemon) (cycleID : string) : Printed :=
  match bc with
  | None => stops XBroker
  | Some d =>
      match cd_get d ("/cycles/" +:+ cycleID) with
      | NoReply => stops (XRequest "get cycle")
      | Status code body =>
          match (if (code =? 200)%Z then match decode_state body with None => inl XDecode | Some s => inr s end
                 else local_state home file cycleID) with
          | inl e => stops e
          | inr state => mkPrinted (status_text state (readCycleLedger d cycleID)) None
          end
      end
  end.

(** ** A step and a halt *)

(** The state of the answer to a request of one string, or the error. *)
(* src: internal/cli/cycle.go 581-603 runCycleHalt *)
Definition change (d : CycleDaemon) (what path : string) (fields : list (Field string)) (arg : string) : CycleError + CycleState :=
  match cd_post d path (encode (encode_struct fields arg)) with
  | NoReply => inl (XRequest what)
  | Status code body =>
      if negb (code =? 200)%Z then inl (XFailed what code (TrimSpace body))
      else match decode_state body with None => inl XDecode | Some state => inr state end
  end.

(* src: internal/cli/cycle.go 565-571 runCycleNext *)
Definition stepped_text (state : CycleState) : string :=
  put_line "cycle stepped: " (s_ID state) +:+ put_line "phase:        " (phase_string (s_Phase state)) +:+
  put_line "completed:    " (Itoa (s_CompletedCycles state) +:+ " / " +:+ Itoa (s_MaxCycles state)) +:+
  (if s_Halted state then put_line "halted:       true" "" +:+ put_line "halt_reason:  " (reason_text (s_HaltReason state)) else "").

(* src: internal/cli/cycle.go 535-573 runCycleNext *)
Definition runCycleNext (bc : option CycleDaemon) (cycleID goal : string) : Printed :=
  match bc with
  | None => stops XBroker
  | Some d => match change d "step cycle" ("/cycles/" +:+ cycleID +:+ "/step") StepRequest_fields goal with
              | inl e => stops e
              | inr state => mkPrinted (stepped_text state) None
              end
  end.

(* src: internal/cli/cycle.go 605-606 runCycleHalt *)
Definition halted_text (state : CycleState) : string :=
  put_line "cycle halted: " (s_ID state) +:+ put_line "halt_reason:  " (reason_text (s_HaltReason state)).

(* src: internal/cli/cycle.go 575-608 runCycleHalt *)
Definition runCycleHalt (bc : option CycleDaemon) (cycleID reason : string) : Printed :=
  match bc with
  | None => stops XBroker
  | Some d => match change d "halt cycle" ("/cycles/" +:+ cycleID +:+ "/halt") HaltRequest_fields reason with
              | inl e => stops e
              | inr state => mkPrinted (halted_text state) None
              end
  end.

(** ** Watching *)

(** The answer to the request for the events: none; or a status and the body as it arrives, each
    piece with the milliseconds since the request, and when the daemon ends it. *)
Inductive EventsReply : Set := EventsNone | Events (code : Z) (pieces : list (Z * string)) (ended : option Z).

(** [http.Client.Timeout] of [resolveBrokerClient(home, 0)], in milliseconds: it bounds the reading
    of the body. *)
(* src: internal/cli/broker_client.go 34-37 resolveBrokerClient *)
Definition watch_timeout : Z := 30000.

(** The text that arrives in time, and whether the end of the body does. *)
Fixpoint arrives (pieces : list (Z * string)) (ended : option Z) : string * bool :=
  match pieces with
  | [] => ("", match ended with Some t => (t <? watch_timeout)%Z | None => false end)
  | (t, text) :: rest =>
      if (t <? watch_timeout)%Z then let '(s, whole) := arrives rest ended in (text +:+ s, whole) else ("", false)
  end.

(* src: internal/cli/cycle.go 655-660 runCycleWatch *)
Definition event_text (clock : string) (evt : CycleEvent) : string :=
  "[" +:+ clock +:+ "] phase=" +:+ phase_string (ce_Phase evt) +:+ " cycles=" +:+ Itoa (ce_CompletedCycles evt) +:+ " halted=" +:+
  bool_text (ce_Halted evt) +:+ nl.

Section Watch.
(** The time of day when the [n]-th line of the stream is handled. *)
Variable clock : nat -> string.

(** What the lines print, and whether an event ended the loop. *)
(* src: internal/cli/cycle.go 650-680 runCycleWatch *)
Fixpoint watch_lines (n : nat) (lines : list string) : string * bool :=
  match lines with
  | [] => ("", false)
  | line :: rest =>
      match strip "data: " line with
      | None => watch_lines (S n) rest
      | Some data =>
          match Unmarshal CycleEvent_zero (into_struct CycleEvent_fields) data with
          | None => let '(more, r) := watch_lines (S n) rest in (line +:+ nl +:+ more, r)
          | Some evt =>
              if ce_Halted evt then (event_text (clock n) evt +:+ put_line "halt_reason: " (reason_text (ce_HaltReason evt)), true)
              else let '(more, r) := watch_lines (S n) rest in (event_text (clock n) evt +:+ more, r)
          end
      end
  end.

(** The log file: none asked for, a path that is refused, one that cannot be opened, or open.  The
    text of the refusal is the error's. *)
Inductive LogFile : Set := NoLog | BadLog (e : string) | ClosedLog (e : string) | OpenLog.

(* src: internal/cli/cycle.go 632-646 runCycleWatch *)
Definition open_log (cwd : string + string) (openable : string -> option string) (path_error : PathError -> string) (logFile : string) : LogFile :=
  if String.eqb logFile "" then NoLog
  else match Clean cwd logFile with
       | inl e => BadLog (path_error e)
       | inr safeLog => match openable safeLog with Some e => ClosedLog e | None => OpenLog end
       end.
Definition log_warning (l : LogFile) : string :=
  match l with
  | BadLog e => put_line "warn: invalid log file path: " e
  | ClosedLog e => put_line "warn: cannot open log file: " e
  | _ => ""
  end.

(** What was printed, what was appended to the log file, and the error. *)
Record Watched := mkWatched { wa_out : string; wa_log : string; wa_err : option CycleError }.

(* src: internal/cli/cycle.go 610-682 runCycleWatch *)
Definition runCycleWatch (events : option (string -> EventsReply)) (log : LogFile) (cycleID : string) : Watched :=
  match events with
  | None => mkWatched "" "" (Some XBroker)
  | Some events =>
      match events ("/cycles/" +:+ cycleID +:+ "/events") with
      | EventsNone => mkWatched "" "" (Some (XRequest "get events"))
      | Events code pieces ended =>
          let '(body, whole) := arrives pieces ended in
          if negb (code =? 200)%Z then mkWatched "" "" (Some (XFailed "events" code body))
          else
            let '(lines, long) := scan body in
            let '(printed, halted) := watch_lines 0 lines in
            mkWatched (log_warning log +:+ put_line "watching cycle " (cycleID +:+ " events...") +:+ printed)
              (match log with OpenLog => printed | _ => "" end)
              (if halted || (whole && negb long) then None else Some XStream)
      end
  end.

(** ** [cycle start] *)

(* src: internal/cli/cycle.go 232-249 CycleStartCmd *)
Definition start_request (goal branch : string) (maxCycles maxDurationMinutes : Z) (autoGoal : bool) (agents : string)
    (localGates : list string) : NewCycleRequest * list string :=
  let agentList := if String.eqb agents "" then [] else Split agents ","%char in
  (mkNewCycleRequest goal branch maxCycles maxDurationMinutes autoGoal [] localGates "" ""
     (if String.eqb agents "" then None else Some (mkOrchestratorConfig (Some agentList) "" 0 "" "." 0)), agentList).

(* src: internal/cli/cycle.go 296-307 runCycleStart *)
Definition started_text (home : string + string) (state : CycleState) : string :=
  put_line "cycle started: " (s_ID state) +:+ put_line "  branch:      " (s_Branch state) +:+
  put_line "  max_cycles:  " (Itoa (s_MaxCycles state)) +:+ put_line "  max_duration:" (Itoa (s_MaxDurationMinutes state) +:+ " min") +:+
  put_line "  auto_goal:   " (bool_text (s_AutoGoal state)) +:+ gate_lines "  local_gates: " "    - " (s_LocalGates state) +:+
  put_line "  state_file:  " (cycleStateFileDisplay home (s_ID state)).

(** The request to orchestrate, when there are agents. *)
(* src: internal/cli/cycle.go 309-331 runCycleStart *)
Definition orchestrate (d : CycleDaemon) (id : string) (agents : list string) : string * option CycleError :=
  match agents with
  | [] => ("", None)
  | _ =>
      match cd_post d ("/cycles/" +:+ id +:+ "/orchestrate")
              (encode (encode_struct OrchestratorConfig_fields (mkOrchestratorConfig (Some agents) "" 0 "" "." 0))) with
      | NoReply => ("", Some (XRequest "orchestrate"))
      | Status code _ => if negb (code =? 202)%Z then ("", Some (XFailed "orchestrate" code ""))
                         else (put_line "orchestration started with agents: " (strings_text agents), None)
      end
  end.

(** The error texts of a creation that fails are those of [create] up to their first words. *)
(* src: internal/cli/cycle.go 266-336 runCycleStart *)
Definition runCycleStart (home : string + string) (bc : option CycleDaemon) (events : option (string -> EventsReply)) (log : LogFile)
    (req : NewCycleRequest) (agents : list string) : Watched :=
  match bc with
  | None => mkWatched "" "" (Some XBroker)
  | Some d =>
      match create d req with
      | inl e => mkWatched "" "" (Some e)
      | inr state =>
          match orchestrate d (s_ID state) agents with
          | (text, Some e) => mkWatched (started_text home state +:+ text) "" (Some e)
          | (text, None) =>
              let w := runCycleWatch events log (s_ID state) in
              mkWatched (started_text home state +:+ text +:+ nl +:+
                         "watching events... (Ctrl+C to detach, cycle continues in background)" +:+ nl +:+ nl +:+ wa_out w) (wa_log w) (wa_err w)
          end
      end
  end.
End Watch.

(** ** The daemon's side *)

(** The body the handlers write, and the texts of their errors. *)
(* src: internal/broker/cycle.go 439-446 Server.handleHaltCycle *)
Definition state_body (state : CycleState) : string := encode (encode_struct CycleState_fields state) +:+ nl.
Definition error_reply (code : Z) (text : string) : Reply := Status code (text +:+ nl).

(** An error's own text is an argument: [bad] of a request, [internal] of a failed access; so is the
    body of an accepted orchestration. *)
(* src: internal/broker/cycle.go 304-337 Server.handleStepCycle *)
Definition reply (notfound bad internal accepted : string) (s : CycleApi.Status) : Reply :=
  match s with
  | SNotFound => error_reply 404 notfound
  | SBadRequest => error_reply 400 bad
  | SSealed reason => error_reply 409 ("cycle halted (" +:+ halt_string reason +:+ "); resume refused")
  | SConflict => error_reply 409 "orchestration already running for this cycle"
  | SUnavailable => error_reply 503 "orchestration unavailable: adapter registry not configured"
  | SInternal => error_reply 500 internal
  | SOk state => Status 200 (state_body state)
  | SCreated state => Status 201 (state_body state)
  | SAccepted => Status 202 accepted
  end.

(** What [json.Decoder.Decode] leaves in a zero struct of string fields when its error is ignored:
    a member that does not fit is passed over. *)
Definition decode_kept {R} (fs : list (Field R)) (zero : R) (body : string) : R :=
  match parse_prefix body with
  | Some (JObj l, _) => foldl (fun cur kv => default cur (into_member fs cur kv)) zero l
  | _ => zero
  end.

Section Serve.
Context {World : Type}.
Variable ops : CycleOps World.
Variable exec : World -> list string -> World * CmdResult.
Variable file_exists : World -> string -> bool.
Variables bad internal : string.

(* src: internal/broker/cycle.go 198-241 Server.handleCreateCycle *)
Definition serve_create (sv : CycleServer World) (body random : string) : option (CycleServer World * Reply) :=
  match Decode NewCycleRequest_zero (into_struct NewCycleRequest_fields) body with
  | None => Some (sv, error_reply 400 ("bad request: " +:+ bad))
  | Some req => option_map (fun '(sv, s) => (sv, reply "" ("invalid request: " +:+ bad) ("write state: " +:+ internal) "" s)) (handleCreateCycle ops sv req random)
  end.

(* src: internal/broker/cycle.go 243-269 Server.handleGetCycle *)
Definition serve_get (sv : CycleServer World) (id : string) : CycleServer World * Reply :=
  let '(sv, s) := handleGetCycle ops sv id in (sv, reply "cycle not found" "" "" "" s).

(** [ReadAll] returns a nil slice when there is no entry. *)
(* src: internal/broker/cycle.go 271-293 Server.handleCycleLedger *)
Definition serve_ledger (sv : CycleServer World) (id : string) : CycleServer World * Reply :=
  let '(sv, r) := handleCycleLedger ops sv id in
  (sv, match r with
       | inl s => reply "cycle ledger not found" "" ("read ledger: " +:+ internal) "" s
       | inr entries => Status 200 (encode (enc_entries entries) +:+ nl)
       end).

(* src: internal/broker/cycle.go 295-401 Server.handleStepCycle *)
Definition serve_step (cyclePipeline : option (Pipeline World)) (sv : CycleServer World) (id body : string) : option (CycleServer World * Reply) :=
  option_map (fun '(sv, s) => (sv, reply "cycle not found" "next_cycle_goal is empty" ("read ledger: " +:+ internal) "" s))
    (handleStepCycle ops exec file_exists cyclePipeline sv id (decode_kept StepRequest_fields "" body)).

(* src: internal/broker/cycle.go 403-446 Server.handleHaltCycle *)
Definition serve_halt (sv : CycleServer World) (id body : string) : option (CycleServer World * Reply) :=
  option_map (fun '(sv, s) => (sv, reply "cycle not found" "" "" "" s)) (handleHaltCycle ops sv id (decode_kept HaltRequest_fields "" body)).
End Serve.

(** ** Round trips *)

Definition NewCycleRequest_wf (r : NewCycleRequest) : bool :=
  utf8_valid (nc_Goal r) && utf8_valid (nc_Branch r) && in_int64 (nc_MaxCycles r) && in_int64 (nc_MaxDurationMinutes r) &&
  strings_wf (nc_PendingFiles r) && strings_wf (nc_LocalGates r) && utf8_valid (nc_AuditCmd r) && utf8_valid (nc_PolishTestCmd r) &&
  match nc_Orchestrator r with Some o => OrchestratorConfig_wf o | None => true end.
Definition CycleEvent_wf (e : CycleEvent) : bool :=
  utf8_valid (ce_CycleID e) && phase_wf (ce_Phase e) && in_int64 (ce_CompletedCycles e) && reason_wf (ce_HaltReason e) &&
  utf8_valid (ce_LastFailedGate e) && in_int64 (ce_At e).

Lemma NewCycleRequest_table : table_ok NewCycleRequest_zero NewCycleRequest_fields.
Proof. solve_table. Qed.
Lemma CycleEvent_table : table_ok CycleEvent_zero CycleEvent_fields.
Proof. solve_table. Qed.
Lemma StepRequest_table : table_ok "" StepRequest_fields.
Proof. solve_table. Qed.
Lemma HaltRequest_table : table_ok "" HaltRequest_fields.
Proof. solve_table. Qed.

Lemma NewCycleRequest_roundtrip r : NewCycleRequest_wf r = true -> struct_ok NewCycleRequest_fields NewCycleRequest_zero r.
Proof.
  unfold NewCycleRequest_wf. intros. reflect_bools. solve_struct NewCycleRequest_table.
  apply opt_ptr_struct_ok. intros c Hc. rewrite Hc in *. by apply OrchestratorConfig_roundtrip.
Qed.
Lemma CycleEvent_roundtrip e : CycleEvent_wf e = true -> struct_ok CycleEvent_fields CycleEvent_zero e.
Proof. unfold CycleEvent_wf. intros. reflect_bools. solve_struct CycleEvent_table. Qed.
Lemma StepRequest_roundtrip goal : utf8_valid goal = true -> struct_ok StepRequest_fields "" goal.
Proof. intros. solve_struct StepRequest_table. Qed.
Lemma HaltRequest_roundtrip reason : utf8_valid reason = true -> struct_ok HaltRequest_fields "" reason.
Proof. intros. solve_struct HaltRequest_table. Qed.

(** A request that fits is decoded in the same way when errors are ignored. *)
Lemma decode_kept_encode {R} (fs : list (Field R)) zero r : struct_ok fs zero r -> decode_kept fs zero (encode (encode_struct fs r)) = r.
Proof.
  intros [Hr Hj]. unfold decode_kept. rewrite <-(string_app_nil_r (encode _)), parse_prefix_encode by done.
  change (encode_struct fs r) with (JObj (encode_fields fs r)). change (into_members fs (encode_fields fs r) zero = Some r) in Hr.
  clear Hj. revert zero Hr. generalize (encode_fields fs r) as l. induction l as [|kv l IH]; intros cur; cbn [into_members foldl]; [by intros [= ->]|].
  destruct (into_member fs cur kv); [apply IH|done].
Qed.

Lemma decode_encode_struct {R} (fs : list (Field R)) zero r rest : struct_ok fs zero r -> num_end rest = true ->
  Decode zero (into_struct fs) (encode (encode_struct fs r) +:+ rest) = Some r.
Proof. intros [Hr Hj] Hn. unfold Decode. by rewrite parse_prefix_encode. Qed.

Lemma state_read s : CycleState_wf s = true -> decode_state (state_body s) = Some s.
Proof. intros H%CycleState_roundtrip. unfold decode_state, state_body. rewrite (decode_encode_struct _ _ s nl); [done|exact H|reflexivity]. Qed.

(** ** Watching *)

(** An event with the time it arrives. *)
Definition piece (p : Z * CycleEvent) : Z * string := (fst p, data_event (encode (encode_struct CycleEvent_fields (snd p)))).
Fixpoint in_time (evs : list (Z * CycleEvent)) : list CycleEvent :=
  match evs with [] => [] | (t, evt) :: rest => if (t <? watch_timeout)%Z then evt :: in_time rest else [] end.
Definition event_readable (evt : CycleEvent) : bool := CycleEvent_wf evt && fits (encode (encode_struct CycleEvent_fields evt)).

(** What is printed of a list of events: every one up to the first halt; an event takes two lines. *)
Fixpoint watch_text (clock : nat -> string) (n : nat) (evs : list CycleEvent) : string :=
  match evs with
  | [] => ""
  | evt :: rest =>
      event_text (clock n) evt +:+
      (if ce_Halted evt then put_line "halt_reason: " (reason_text (ce_HaltReason evt)) else watch_text clock (S (S n)) rest)
  end.

Definition event_stream (evs : list CycleEvent) : string :=
  String.concat "" (map (fun evt => data_event (encode (encode_struct CycleEvent_fields evt))) evs).

Lemma concat_cons x l : String.concat "" (x :: l) = x +:+ String.concat "" l.
Proof. destruct l as [|y l]; cbn; [by rewrite string_app_nil_r|done]. Qed.

Lemma arrives_pieces evs ended : exists whole,
  arrives (map piece evs) ended = (event_stream (in_time evs), whole) /\
  (whole = true <-> (List.length (in_time evs) = List.length evs /\ exists t, ended = Some t /\ (t < watch_timeout)%Z)).
Proof.
  induction evs as [|[t evt] evs (whole & E & H)]; cbn [map piece fst snd arrives in_time].
  - eexists. split; [done|]. destruct ended as [t|].
    + rewrite Z.ltb_lt. split; [intros; split; [done|by exists t]|by intros (_ & ? & [= ->] & ?)].
    + split; [done|by intros (_ & ? & ? & _)].
  - destruct (t <? watch_timeout)%Z.
    + rewrite E. exists whole. unfold event_stream. cbn [map List.length]. rewrite concat_cons. split; [done|]. rewrite H. split; intros [? ?]; split; congruence || lia || done.
    + exists false. split; [done|]. split; [done|]. cbn. intros [? _]. lia.
Qed.

Lemma scan_events evs : forallb event_readable evs = true ->
  scan (event_stream evs) = (flat_map (fun evt => ["data: " +:+ encode (encode_struct CycleEvent_fields evt); ""]) evs, false).
Proof.
  induction evs as [|evt evs IH]; [reflexivity|]. cbn [forallb]. intros [He Hs]%andb_true_iff. unfold event_readable in He. reflect_bools.
  destruct (CycleEvent_roundtrip evt) as [_ Hj]; [done|]. unfold event_stream. cbn [map]. rewrite concat_cons.
  rewrite scan_data_event by by apply line_ok_encode. change (String.concat "" (map _ evs)) with (event_stream evs). by rewrite IH.
Qed.

Lemma watch_event clock n data rest :
  watch_lines clock n (("data: " +:+ data) :: "" :: rest) =
    match Unmarshal CycleEvent_zero (into_struct CycleEvent_fields) data with
    | None => let '(more, r) := watch_lines clock (S (S n)) rest in (("data: " +:+ data) +:+ nl +:+ more, r)
    | Some evt =>
        if ce_Halted evt then (event_text (clock n) evt +:+ put_line "halt_reason: " (reason_text (ce_HaltReason evt)), true)
        else let '(more, r) := watch_lines clock (S (S n)) rest in (event_text (clock n) evt +:+ more, r)
    end.
Proof. cbn [watch_lines]. by rewrite strip_app. Qed.

Lemma watch_lines_events clock n evs : forallb event_readable evs = true ->
  watch_lines clock n (flat_map (fun evt => ["data: " +:+ encode (encode_struct CycleEvent_fields evt); ""]) evs) =
    (watch_text clock n evs, existsb ce_Halted evs).
Proof.
  revert n. induction evs as [|evt evs IH]; intros n; [done|]. cbn [forallb]. intros [He Hs]%andb_true_iff. unfold event_readable in He. reflect_bools.
  destruct (CycleEvent_roundtrip evt) as [Hr Hj]; [done|]. pose proof (Unmarshal_encode _ _ _ evt Hj Hr) as Hu. cbn [flat_map app].
  revert Hu. generalize (encode (encode_struct CycleEvent_fields evt)) as data. intros data Hu.
  rewrite watch_event, Hu, IH by done. cbn [watch_text existsb]. by destruct (ce_Halted evt).
Qed.

(** C22: [cycle watch] prints the events of the first thirty seconds, up to the first halt, and only
    those: it ends without an error exactly when a halt was among them or the daemon ended the
    stream in that time. *)
Theorem watch_prints clock events log cycleID evs ended : forallb event_readable (map snd evs) = true ->
  events ("/cycles/" +:+ cycleID +:+ "/events") = Events 200 (map piece evs) ended ->
  let w := runCycleWatch clock (Some events) log cycleID in
  wa_out w = log_warning log +:+ put_line "watching cycle " (cycleID +:+ " events...") +:+ watch_text clock 0 (in_time evs) /\
  (log = OpenLog -> wa_log w = watch_text clock 0 (in_time evs)) /\
  (wa_err w = None <-> existsb ce_Halted (in_time evs) = true \/
     (List.length (in_time evs) = List.length evs /\ exists t, ended = Some t /\ (t < watch_timeout)%Z)) /\
  (wa_err w = None \/ wa_err w = Some XStream).
Proof.
  intros Hr He. unfold runCycleWatch. rewrite He. destruct (arrives_pieces evs ended) as (whole & -> & Hw). change (negb (200 =? 200)%Z) with false. cbn iota.
  assert (Ht : forallb event_readable (in_time evs) = true).
  { clear -Hr. induction evs as [|[t e] evs IH]; [done|]. cbn [map snd forallb] in Hr. apply andb_true_iff in Hr as [He Hr]. cbn [in_time].
    destruct (t <? watch_timeout)%Z; [cbn [forallb]; by rewrite He, IH|done]. }
  rewrite scan_events, watch_lines_events by done. cbn [wa_out wa_log wa_err]. rewrite andb_true_r, <-Hw.
  split; [done|]. split; [by intros ->|]. split; [|by destruct (_ || _); auto].
  destruct (existsb ce_Halted (in_time evs)), whole; cbn; naive_solver.
Qed.

(** ** The commands against the handlers *)

Section Wired.
Context {World : Type}.
Variable ops : CycleOps World.
Variable exec : World -> list string -> World * CmdResult.
Variable file_exists : World -> string -> bool.
Variables bad internal : string.

(** What a created cycle is, and where it is. *)
Lemma created_state sv sv' req random state : handleCreateCycle ops sv req random = Some (sv', SCreated state) ->
  s_ID state = "cyc_" +:+ Itoa (now ops sv) +:+ "_" +:+ random /\ NewState (now ops sv) req (s_ID state) = inr state /\
  cy_states sv' !! s_ID state = Some state /\ s_ID state ∈ cy_syncs sv'.
Proof.
  intros Hc. unfold handleCreateCycle, create_decide in Hc.
  destruct (NewState (now ops sv) req ("cyc_" +:+ Itoa (now ops sv) +:+ "_" +:+ random)) as [e|st] eqn:En; [done|].
  assert (Hid : s_ID st = "cyc_" +:+ Itoa (now ops sv) +:+ "_" +:+ random).
  { unfold NewState in En. repeat case_match; simplify_eq; done. }
  destruct (write_file ops sv _ st) as [sv1 ok]. destruct ok; [|done]. cbn [run_ops run_op app option_map] in Hc. injection Hc as <- <-.
  rewrite Hid. split_and!; [done|done|..]; unfold appendLedger; destruct (co_append ops _) as [w okl]; destruct okl; cbn;
    first [by rewrite (lookup_insert_eq (M := gmap string))|clear exec file_exists; set_solver].
Qed.

(** [cycle new] creates the cycle of its flags: the state the daemon made of the request is the one
    of [NewState] on the flags, it is in the store, and what is printed is of that state. *)
Theorem new_creates home d sv sv' random state goal branch maxCycles maxDurationMinutes autoGoal agents workingDir localGates auditCmd polishTestCmd :
  let req := new_request goal branch maxCycles maxDurationMinutes autoGoal agents workingDir localGates auditCmd polishTestCmd in
  NewCycleRequest_wf req = true -> CycleState_wf state = true ->
  handleCreateCycle ops sv req random = Some (sv', SCreated state) ->
  (forall body r, serve_create ops bad internal sv body random = Some (sv', r) -> cd_post d "/cycles" body = r) ->
  runCycleNew home (Some d) goal branch maxCycles maxDurationMinutes autoGoal agents workingDir localGates auditCmd polishTestCmd =
    mkPrinted (created_text home state) None /\
  NewState (now ops sv) req (s_ID state) = inr state /\ cy_states sv' !! s_ID state = Some state /\ s_ID state ∈ cy_syncs sv'.
Proof.
  intros req Hq Hs Hc Hd. split.
  - unfold runCycleNew, create. fold req.
    pose proof (NewCycleRequest_roundtrip req Hq) as Hok.
    rewrite (Hd _ (Status 201 (state_body state))); [change (negb (201 =? 201)%Z) with false; cbn iota; by rewrite state_read|].
    unfold serve_create. rewrite <-(string_app_nil_r (encode _)), decode_encode_struct by done. by rewrite Hc.
  - by apply (created_state _ _ _ random).
Qed.

(** [cycle next] is one step of the daemon: what it prints is of the state the step left, and a
    refusal is told with its reason. *)
Theorem next_steps d sv sv' cyclePipeline id goal s : utf8_valid goal = true ->
  handleStepCycle ops exec file_exists cyclePipeline sv id goal = Some (sv', s) ->
  (forall state, s = SOk state -> CycleState_wf state = true) ->
  (forall body r, serve_step ops exec file_exists internal cyclePipeline sv id body = Some (sv', r) ->
     cd_post d ("/cycles/" +:+ id +:+ "/step") body = r) ->
  (forall state, s = SOk state -> runCycleNext (Some d) id goal = mkPrinted (stepped_text state) None) /\
  (forall reason, s = SSealed reason -> runCycleNext (Some d) id goal =
     stops (XFailed "step cycle" 409 (TrimSpace ("cycle halted (" +:+ halt_string reason +:+ "); resume refused" +:+ nl)))) /\
  (s = SNotFound -> runCycleNext (Some d) id goal = stops (XFailed "step cycle" 404 "cycle not found")) /\
  (s = SBadRequest -> runCycleNext (Some d) id goal = stops (XFailed "step cycle" 400 "next_cycle_goal is empty")).
Proof.
  intros Hg Hh Hw Hd.
  assert (Hp : cd_post d ("/cycles/" +:+ id +:+ "/step") (encode (encode_struct StepRequest_fields goal)) =
    reply "cycle not found" "next_cycle_goal is empty" ("read ledger: " +:+ internal) "" s).
  { apply Hd. unfold serve_step. rewrite decode_kept_encode by by apply StepRequest_roundtrip. by rewrite Hh. }
  unfold runCycleNext, change. rewrite Hp. split_and!.
  - intros state ->. cbn [reply]. change (negb (200 =? 200)%Z) with false. cbn iota. by rewrite state_read by by apply Hw.
  - intros reason ->. cbn [reply error_reply]. change (negb (409 =? 200)%Z) with true. cbn iota. by rewrite <-!string_app_assoc.
  - by intros ->.
  - by intros ->.
Qed.

(** What the daemon answers to [cycle halt], and what it is afterwards: the state is out of the store. *)
Lemma halted_store sv sv' id reason state : (forall w, snd (co_remove ops w) = true) -> id ∈ cy_syncs (fst (CycleApi.get ops sv id)) ->
  handleHaltCycle ops sv id reason = Some (sv', SOk state) ->
  s_HaltReason state = Some (halt_reason reason) /\ cy_states sv' !! id = None /\ cy_files sv' !! id = None.
Proof.
  intros Hrm Hsync. unfold handleHaltCycle. destruct (CycleApi.get ops sv id) as [sv1 [st|]]; [|done]. cbn [fst] in Hsync.
  unfold halt_ops. cbn [run_ops]. cbn [run_op]. unfold getSync. rewrite bool_decide_eq_true_2 by done. cbn [app run_ops run_op].
  destruct (write_file ops sv1 id _) as [sv2 ok2]. cbn [fst]. set (sv3 := remove_file ops sv2 id).
  assert (H3 : cy_files sv3 !! id = None).
  { subst sv3. unfold remove_file. specialize (Hrm (cy_world sv2)). destruct (co_remove ops (cy_world sv2)) as [w ok]. cbn [snd] in Hrm. subst ok.
    cbn. by rewrite (lookup_delete_eq (M := gmap string)). }
  clearbody sv3. set (sv4 := appendLedger ops sv3 id _).
  assert (H4 : cy_files sv4 !! id = None).
  { subst sv4. unfold appendLedger. by destruct (co_append ops _) as [w []]. }
  clearbody sv4. unfold broadcast. destruct (send_all _ _ _) as [chans|]; [|done]. cbn [app run_ops run_op].
  unfold closeAll. destruct (close_chans _ _) as [chans'|]; [|done]. cbn [app run_ops option_map]. intros [= <- <-].
  split; [done|]. cbn. by rewrite (lookup_delete_eq (M := gmap string)).
Qed.

(** A cycle halted with [cycle halt], when its state file can be removed and no step of it runs
    meanwhile (a step in flight puts the state back, [CycleApiSpec.step_lifts_halt]), cannot be looked
    at any more: the state is neither with the daemon nor in the state file, so that [cycle status]
    finds nothing and [cycle next] and a second halt are refused. *)
Lemma halt_hides home dir file d sv sv' id reason state cyclePipeline goal : utf8_valid reason = true ->
  (forall w, snd (co_remove ops w) = true) -> id ∈ cy_syncs (fst (CycleApi.get ops sv id)) ->
  handleHaltCycle ops sv id reason = Some (sv', SOk state) -> CycleState_wf state = true ->
  (forall body r, serve_halt ops sv id body = Some (sv', r) -> cd_post d ("/cycles/" +:+ id +:+ "/halt") body = r) ->
  runCycleHalt (Some d) id reason = mkPrinted (halted_text state) None /\ s_HaltReason state = Some (halt_reason reason) /\
  (forall d', cd_get d' ("/cycles/" +:+ id) = snd (serve_get ops sv' id) ->
     CyclesDir home = inr dir -> filepath_Base id = id ->
     file (filepath_Join [dir; "cycle-" +:+ id +:+ ".json"]) = option_map Marshal_state (cy_files sv' !! id) ->
     runCycleStatus home file (Some d') id = stops XNotFound) /\
  (forall reason', exists sv'', handleHaltCycle ops sv' id reason' = Some (sv'', SNotFound)) /\
  (exists sv'', handleStepCycle ops exec file_exists cyclePipeline sv' id goal = Some (sv'', SNotFound)).
Proof.
  intros Hr Hrm Hsync Hh Hw Hd. destruct (halted_store sv sv' id reason state Hrm Hsync Hh) as (Hs & Hst & Hf).
  assert (Hload : forall s, cy_files s !! id = None -> exists w, loadCycleFromFile ops s id = (s <| cy_world := w |>, None)).
  { intros s Hn. unfold loadCycleFromFile. destruct (co_read ops (cy_world s)) as [w ok]. exists w. cbn. rewrite Hn. by destruct ok. }
  assert (Hget : forall s, cy_files s !! id = None -> cy_states s !! id = None -> exists w, CycleApi.get ops s id = (s <| cy_world := w |>, None)).
  { intros s Hn Hm. unfold CycleApi.get. rewrite Hm. destruct (Hload s Hn) as [w ->]. by exists w. }
  assert (Hgr : exists w, CycleApi.get ops (refreshFromFile ops sv' id) id = (sv' <| cy_world := w |>, None)).
  { unfold refreshFromFile. destruct (Hload sv' Hf) as [w ->]. destruct (Hget (sv' <| cy_world := w |>)) as [w' E]; [done..|]. exists w'. by rewrite E. }
  split_and!.
  - unfold runCycleHalt, change. rewrite (Hd _ (Status 200 (state_body state))).
    + change (negb (200 =? 200)%Z) with false. cbn iota. by rewrite state_read.
    + unfold serve_halt. rewrite decode_kept_encode by by apply HaltRequest_roundtrip. by rewrite Hh.
  - done.
  - intros d' Hg Hdir Hb Hfile. unfold runCycleStatus. rewrite Hg. unfold serve_get, handleGetCycle. destruct Hgr as [w ->]. cbn [snd reply error_reply].
    change (404 =? 200)%Z with false. cbn iota. unfold local_state. by rewrite Hdir, Hb, Hfile, Hf.
  - intros reason'. unfold handleHaltCycle. destruct (Hget sv' Hf Hst) as [w ->]. by eexists.
  - unfold handleStepCycle. destruct Hgr as [w ->]. by eexists.
Qed.


Lemma entries_read entries rest : forallb Entry_wf entries = true -> num_end rest = true ->
  Decode [] (into_slice Entry_zero (into_struct Entry_fields)) (encode (enc_entries entries) +:+ rest) = Some entries /\
  Unmarshal [] (into_slice Entry_zero (into_struct Entry_fields)) (MarshalIndent (enc_entries entries)) = Some entries.
Proof.
  intros He Hn.
  assert (H : into_slice Entry_zero (into_struct Entry_fields) (enc_entries entries) [] = Some entries /\ json_wf (enc_entries entries) = true).
  { destruct entries as [|e es]; [done|].
    apply (enc_slice_ok Entry_zero (into_struct Entry_fields) (encode_struct Entry_fields) (e :: es)).
    apply Forall_forall. intros x Hx%list_elem_of_In. apply Entry_roundtrip. by apply (proj1 (forallb_forall _ _) He). }
  destruct H as [Hi Hj]. unfold Decode, Unmarshal. rewrite parse_prefix_encode, decode_MarshalIndent by (done || by destruct entries). done.
Qed.

Lemma ledger_read d sv sv' id entries : handleCycleLedger ops sv id = (sv', inr entries) -> forallb Entry_wf entries = true ->
  cd_get d ("/cycles/" +:+ id +:+ "/ledger") = snd (serve_ledger ops internal sv id) -> readCycleLedger d id = inr entries.
Proof.
  intros Hh He Hd. unfold readCycleLedger. rewrite Hd. unfold serve_ledger. rewrite Hh. cbn [snd]. change (negb (200 =? 200)%Z) with false. cbn iota.
  by rewrite (proj1 (entries_read entries nl He eq_refl)).
Qed.

(** [cycle ledger] prints the whole ledger of the daemon: its text parses back to the entries. *)
Theorem ledger_prints d sv sv' id entries : handleCycleLedger ops sv id = (sv', inr entries) -> forallb Entry_wf entries = true ->
  cd_get d ("/cycles/" +:+ id +:+ "/ledger") = snd (serve_ledger ops internal sv id) ->
  exists text, runCycleLedger (Some d) id = mkPrinted (text +:+ nl) None /\
    Unmarshal [] (into_slice Entry_zero (into_struct Entry_fields)) text = Some entries.
Proof.
  intros Hh He Hd. exists (MarshalIndent (enc_entries entries)). unfold runCycleLedger. rewrite (ledger_read d sv sv' id entries) by done.
  split; [done|]. by apply (entries_read entries nl).
Qed.

(** [cycle status] prints the state the daemon holds and the last entry of its ledger; when the
    daemon has no such cycle, it prints the state in the file a one-shot run left. *)
Theorem status_prints home dir file d sv sv1 sv2 id :
  (forall state entries, handleGetCycle ops sv id = (sv1, SOk state) -> CycleState_wf state = true ->
     handleCycleLedger ops sv1 id = (sv2, inr entries) -> forallb Entry_wf entries = true ->
     cd_get d ("/cycles/" +:+ id) = snd (serve_get ops sv id) -> cd_get d ("/cycles/" +:+ id +:+ "/ledger") = snd (serve_ledger ops internal sv1 id) ->
     runCycleStatus home file (Some d) id = mkPrinted (status_text state (inr entries)) None) /\
  (forall state, handleGetCycle ops sv id = (sv1, SNotFound) -> CycleState_wf state = true ->
     cd_get d ("/cycles/" +:+ id) = snd (serve_get ops sv id) -> CyclesDir home = inr dir ->
     file (filepath_Join [dir; "cycle-" +:+ filepath_Base id +:+ ".json"]) = Some (Marshal_state state) ->
     runCycleStatus home file (Some d) id = mkPrinted (status_text state (readCycleLedger d id)) None).
Proof.
  split.
  - intros state entries Hh Hs Hl He Hg Hgl. unfold runCycleStatus. rewrite Hg. unfold serve_get. rewrite Hh. cbn [snd reply].
    change (200 =? 200)%Z with true. cbn iota. rewrite state_read by done. by rewrite (ledger_read d sv1 sv2 id entries).
  - intros state Hh Hs Hg Hdir Hf. unfold runCycleStatus. rewrite Hg. unfold serve_get. rewrite Hh. cbn [snd reply error_reply].
    change (404 =? 200)%Z with false. cbn iota. unfold local_state. rewrite Hdir, Hf. unfold Unmarshal.
    destruct (decode_Marshal_state state Hs) as [-> Hi]. by rewrite Hi.
Qed.
End Wired.

(** ** Concrete runs *)

(** A cycle that moves on after ten milliseconds and is halted after thirty-one seconds. *)
Definition demo_event (completed : Z) (halted : bool) : CycleEvent :=
  mkCycleEvent "cyc_1" (if halted then CyclePhaseHalted else CyclePhaseAudit) completed halted (if halted then Some HaltSuccess else None) "" 7.
Definition slow_events : list (Z * CycleEvent) := [(10, demo_event 0 false); (31000, demo_event 1 true)]%Z.
Definition quick_events : list (Z * CycleEvent) := [(10, demo_event 0 false); (20, demo_event 1 true)]%Z.
Definition serve_events (evs : list (Z * CycleEvent)) (path : string) : EventsReply := Events 200 (map piece evs) None.
Definition noon (n : nat) : string := "12:00:00".

(** The text of the quick watch. *)
Example quick_watch : runCycleWatch noon (Some (serve_events quick_events)) NoLog "cyc_1" =
  mkWatched ("watching cycle cyc_1 events..." +:+ nl +:+ "[12:00:00] phase=audit cycles=0 halted=false" +:+ nl +:+
             "[12:00:00] phase=halted cycles=1 halted=true" +:+ nl +:+ "halt_reason: success" +:+ nl) "" None.
Proof. vm_compute. reflexivity. Qed.

(** The halt comes too late for the slow one. *)
Lemma watch_prints_witness :
  let w := runCycleWatch noon (Some (serve_events slow_events)) NoLog "cyc_1" in
  wa_out w = "" +:+ put_line "watching cycle " ("cyc_1" +:+ " events...") +:+ watch_text noon 0 [demo_event 0 false] /\ wa_err w = Some XStream.
Proof.
  destruct (watch_prints noon (serve_events slow_events) NoLog "cyc_1" slow_events None) as (H1 & _ & H3 & [H4|H4]).
  - vm_compute. reflexivity.
  - reflexivity.
  - exfalso. apply H3 in H4 as [H4|[H4 _]]; vm_compute in H4; discriminate.
  - split; [exact H1|exact H4].
Defined.

Definition synced_server : CycleServer unit := (holding demo_cycle []) <| cy_syncs := {[demo_id]} |>.
Definition halt_result : CycleServer unit * CycleApi.Status := default (synced_server, SNotFound) (handleHaltCycle demo_ops synced_server demo_id "stuck").
Definition halt_daemon : CycleDaemon :=
  mkCycleDaemon (fun _ => NoReply) (fun _ body => match serve_halt demo_ops synced_server demo_id body with Some (_, r) => r | None => NoReply end).

Lemma halt_hides_witness :
  runCycleHalt (Some halt_daemon) demo_id "stuck" = mkPrinted (halted_text (answered halt_result)) None /\
  exists sv'', handleHaltCycle demo_ops (fst halt_result) demo_id "" = Some (sv'', SNotFound).
Proof.
  destruct (halt_hides demo_ops demo_exec no_files (inr "/home/u") "/home/u/.rallish/cycles" (fun _ => None) halt_daemon synced_server (fst halt_result)
    demo_id "stuck" (answered halt_result) demo_pipeline "") as (H1 & _ & _ & H4 & _).
  - reflexivity.
  - intros w. reflexivity.
  - apply (bool_decide_eq_true_1 _). vm_compute. reflexivity.
  - vm_compute. reflexivity.
  - vm_compute. reflexivity.
  - intros body r E. unfold halt_daemon. cbn [cd_post]. rewrite E. reflexivity.
  - split; [exact H1|]. exact (H4 "").
Defined.
