(* ===== verification/Routes.v ===== *)
(** * Routes

    How a request gets from a command to a handler: the URL a client builds around an id
    ([internal/cli], [internal/runner]), what [net/url] and [net/http] make of it, and the mux of
    [internal/broker/broker.go] with the routes of [a2a.go], [rally.go], [mcp.go] and [cycle.go].
    The parts of the standard library are definitions, as of Go 1.25.  The theorems: which handler
    a request reaches, and with which id, for an id of any text. *)

From S2P Require Import Prelude GoStrings Json Codec Lines Utf8 StateFile Paths Contract Rally SessionStore Ledger Stuck Cycle Gates CycleApi CycleApiSpec McpClient CycleClient.
From Stdlib Require Import Ascii String.
#[local] Open Scope string_scope.

(** ** [net/url] *)

Definition percent : ascii := "%"%char.
Definition one_of (l : string) (c : ascii) : bool := ContainsByte l c.

(** The percent encoding is undone; a ["%"] without two digits is an error. *)
Fixpoint unescape (s : string) : option string :=
  match s with
  | "" => Some ""
  | String c r =>
      if Ascii.eqb c percent then
        match r with
        | String h (String l r') =>
            match hex_val h, hex_val l, unescape r' with
            | Some x, Some y, Some t => Some (String (byte_of (x * 16 + y)) t)
            | _, _, _ => None
            end
        | _ => None
        end
      else option_map (String c) (unescape r)
  end.

(** Letters, digits and the four marks. *)
Definition unreserved (c : ascii) : bool :=
  let z := byte_val c in
  ((97 <=? z) && (z <=? 122) || (65 <=? z) && (z <=? 90) || (48 <=? z) && (z <=? 57))%Z || one_of "-_.~" c.
(** The bytes of a path that are not escaped, and those that may stand in it as they are. *)
Definition path_plain (c : ascii) : bool := unreserved c || one_of "$&+,/:;=@" c.
Definition path_valid (c : ascii) : bool := path_plain c || one_of "!'()*[]%" c.

Definition upper_hex (n : Z) : ascii := byte_of (if (n <? 10)%Z then 48 + n else 55 + n).
Definition escape_byte (c : ascii) : string :=
  if path_plain c then String c "" else String percent (String (upper_hex (byte_val c / 16)) (String (upper_hex (byte_val c mod 16)) "")).
Fixpoint escape (s : string) : string := match s with "" => "" | String c r => escape_byte c +:+ escape r end.

(** The escaped form of an absolute path: as it was written if that is valid. *)
Definition EscapedPath (p : string) : option string :=
  option_map (fun path => if string_forall path_valid p then p else escape path) (unescape p).

(** Before and after the first [c]. *)
Fixpoint Cut (s : string) (c : ascii) : string * string :=
  match s with
  | "" => ("", "")
  | String d r => if Ascii.eqb d c then ("", r) else let '(a, b) := Cut r c in (String d a, b)
  end.

Definition control (c : ascii) : bool := let z := byte_val c in ((z <? 32) || (z =? 127))%Z.

(** [url.Parse] of the address of the daemon followed by [tail], which begins with a slash: the
    escaped path and the query. *)
Definition parse_url (tail : string) : option (string * string) :=
  let '(u, fragment) := Cut tail "#"%char in
  if negb (string_forall (fun c => negb (control c)) u) then None
  else match unescape fragment with
       | None => None
       | Some _ => let '(p, query) := Cut u "?"%char in option_map (fun e => (e, query)) (EscapedPath p)
       end.

(** ** [http.ServeMux] *)

Inductive Seg : Set := Lit (s : string) | Wild (name : string).
Record Pattern := mkPattern { pt_method : string; pt_segs : list Seg }.

Definition parse_seg (s : string) : Seg :=
  if HasPrefix s "{" && HasSuffix s "}" then Wild (String.substring 1 (String.length s - 2) s) else Lit s.
(** ["METHOD /path"]: what the program uses of [http.HandleFunc]'s patterns. *)
Definition parse_pattern (s : string) : Pattern :=
  let '(method, path) := Cut s " "%char in mkPattern method (map parse_seg (tail (Split path slash))).

Inductive Relation : Set := Equivalent | MoreGeneral | MoreSpecific | Overlaps | Disjoint.
Definition combineRelationships (r1 r2 : Relation) : Relation :=
  match r1, r2 with
  | Equivalent, _ => r2
  | Disjoint, _ => Disjoint
  | Overlaps, Disjoint => Disjoint
  | Overlaps, _ => Overlaps
  | _, Equivalent => r1
  | MoreGeneral, MoreSpecific | MoreSpecific, MoreGeneral => Overlaps
  | _, _ => r2
  end.
Definition compareSegments (s1 s2 : Seg) : Relation :=
  match s1, s2 with
  | Wild _, Wild _ => Equivalent
  | Wild _, Lit _ => MoreGeneral
  | Lit _, Wild _ => MoreSpecific
  | Lit s, Lit s' => if String.eqb s s' then Equivalent else Disjoint
  end.
Fixpoint comparePaths (rel : Relation) (l1 l2 : list Seg) : Relation :=
  match l1, l2 with
  | [], [] => rel
  | s1 :: l1, s2 :: l2 => comparePaths (combineRelationships rel (compareSegments s1 s2)) l1 l2
  | _, _ => Disjoint
  end.
Definition compareMethods (m1 m2 : string) : Relation :=
  if String.eqb m1 m2 then Equivalent
  else if String.eqb m1 "GET" && String.eqb m2 "HEAD" then MoreGeneral
  else if String.eqb m1 "HEAD" && String.eqb m2 "GET" then MoreSpecific else Disjoint.
Definition conflictsWith (p1 p2 : Pattern) : bool :=
  match combineRelationships (compareMethods (pt_method p1) (pt_method p2)) (comparePaths Equivalent (pt_segs p1) (pt_segs p2)) with
  | Equivalent | Overlaps => true
  | _ => false
  end.

Section Mux.
Context {H : Type}.
Abbreviation Mux := (list (Pattern * H)).

(** It panics when patterns conflict. *)
Definition HandleFunc (m : Mux) (r : string * H) : option Mux :=
  let p := parse_pattern (fst r) in
  if existsb (fun q => conflictsWith p (fst q)) m then None else Some (m ++ [(p, snd r)])%list.
Definition HandleAll (rs : list (string * H)) (m : Mux) : option Mux :=
  foldl (fun m r => match m with Some m => HandleFunc m r | None => None end) (Some m) rs.

(** The rest of the routes below a literal segment, and below a wildcard. *)
Abbreviation Below := (list (list Seg * H)).
Fixpoint below_lit (seg : string) (rs : Below) : Below :=
  match rs with
  | [] => []
  | (Lit s :: p, h) :: rs => if String.eqb s seg then (p, h) :: below_lit seg rs else below_lit seg rs
  | _ :: rs => below_lit seg rs
  end.
Fixpoint below_wild (rs : Below) : Below :=
  match rs with
  | [] => []
  | (Wild _ :: p, h) :: rs => (p, h) :: below_wild rs
  | _ :: rs => below_wild rs
  end.
Fixpoint leaf (rs : Below) : option H :=
  match rs with [] => None | ([], h) :: _ => Some h | _ :: rs => leaf rs end.

(** The search in the routing tree: literals first; no wildcard takes the slash at the end. *)
Fixpoint matchPath (rs : Below) (segs : list string) (matches : list string) : option (H * list string) :=
  match segs with
  | [] => option_map (fun h => (h, matches)) (leaf rs)
  | seg :: rest =>
      match matchPath (below_lit seg rs) rest matches with
      | Some r => Some r
      | None => if String.eqb seg "/" then None else matchPath (below_wild rs) rest (matches ++ [seg])%list
      end
  end.

(** The segments of a clean path, each with its escapes undone; the slash at the end is a segment. *)
Definition segments (path : string) : list string :=
  map (fun e => if String.eqb e "" then "/" else default e (unescape e)) (tail (Split path slash)).

Definition of_method (method : string) (m : Mux) : Below :=
  omap (fun r => if String.eqb (pt_method (fst r)) method then Some (pt_segs (fst r), snd r) else None) m.
Definition matchMethodAndPath (m : Mux) (method : string) (segs : list string) : option (H * list string) :=
  match matchPath (of_method method m) segs [] with
  | Some r => Some r
  | None => if String.eqb method "HEAD" then matchPath (of_method "GET" m) segs [] else None
  end.

Definition cleanPath (p : string) : string :=
  if String.eqb p "" then "/"
  else let p := if HasPrefix p "/" then p else "/" +:+ p in
       let np := filepath_Clean p in
       if HasSuffix p "/" && negb (String.eqb np "/") then np +:+ "/" else np.

(** What the mux does with a request: the handler and the values of the wildcards; the escaped path
    it redirects to; or its own answers.  No route ends in a slash, so there is no other redirect. *)
Inductive Found : Type := Serves (h : H) (matches : list string) | Redirects (path : string) | MethodNotAllowed | NotFound.

Definition findHandler (m : Mux) (method escapedPath : string) : Found :=
  let path := cleanPath escapedPath in
  if negb (String.eqb path escapedPath) then Redirects (escape path)
  else match matchMethodAndPath m method (segments path) with
       | Some (h, matches) => Serves h matches
       | None => if existsb (fun r => bool_decide (is_Some (matchMethodAndPath m (pt_method (fst r)) (segments path)))) m
                 then MethodNotAllowed else NotFound
       end.

(** ** The client *)

(** What becomes of a request: it reaches a handler, with a method, the values and the query; it was
    never sent; the server refuses its first line; the mux answers; or there are too many redirects. *)
Inductive Arrival : Type :=
| Arrives (method : string) (h : H) (matches : list string) (query : string)
| Unsendable | BadRequest | NotAllowed | Missing | TooManyRedirects.

(** A redirect is a 301, which makes a GET of every other method. *)
Definition redirectMethod (method : string) : string := if String.eqb method "HEAD" then "HEAD" else "GET".
(** The bytes of a query above 127 are escaped in the header of a redirect. *)
Fixpoint hexEscapeNonASCII (s : string) : string :=
  match s with
  | "" => ""
  | String c r => (if (byte_val c <? 128)%Z then String c "" else String percent (hex_encode (String c ""))) +:+ hexEscapeNonASCII r
  end.

Fixpoint follow (redirects : nat) (m : Mux) (method path query : string) : Arrival :=
  if negb (no_byte " "%char query) then BadRequest
  else match findHandler m method path with
       | Serves h matches => Arrives method h matches query
       | MethodNotAllowed => NotAllowed
       | NotFound => Missing
       | Redirects path' => match redirects with
                            | O => TooManyRedirects
                            | S n => follow n m (redirectMethod method) path' (hexEscapeNonASCII query)
                            end
       end.
(** [http.Client.Do]: ten requests at most. *)
Definition fetch (m : Mux) (method tail : string) : Arrival :=
  match parse_url tail with None => Unsendable | Some (path, query) => follow 9 m method path query end.
End Mux.
Arguments Found : clear implicits.
Arguments Arrival : clear implicits.

(** ** The broker's mux *)

Inductive Endpoint : Set :=
| HCreateSession | HGetSession | HNextTurn | HPostTurn | HAgentCard | HA2A
| HRallyCreate | HRallyBaton | HRallyDone | HRallyStatus | HMCPSSE | HMCPMessage
| HCreateCycle | HGetCycle | HCycleLedger | HStepCycle | HHaltCycle | HCycleEvents | HOrchestrate.
#[export] Instance Endpoint_eq_dec : EqDecision Endpoint.
Proof. solve_decision. Defined.
Abbreviation Mux := (list (Pattern * Endpoint)).

(* src: internal/broker/a2a.go 22-28 Server.registerA2ARoutes *)
Definition registerA2ARoutes : Mux -> option Mux :=
  HandleAll [("GET /.well-known/agent-card.json", HAgentCard); ("GET /.well-known/agent.json", HAgentCard); ("POST /a2a", HA2A)].
(* src: internal/broker/rally.go 139-145 Server.registerRallyRoutes *)
Definition registerRallyRoutes : Mux -> option Mux :=
  HandleAll [("POST /rally/sessions", HRallyCreate); ("GET /rally/sessions/{id}/baton", HRallyBaton);
             ("POST /rally/sessions/{id}/done", HRallyDone); ("GET /rally/sessions/{id}", HRallyStatus)].
(* src: internal/broker/mcp.go 80-83 Server.registerMCPRoutes *)
Definition registerMCPRoutes : Mux -> option Mux :=
  HandleAll [("GET /mcp/sse", HMCPSSE); ("POST /mcp/message", HMCPMessage)].
(* src: internal/broker/cycle.go 189-195 Server.registerCycleRoutes *)
Definition registerCycleRoutes : Mux -> option Mux :=
  HandleAll [("POST /cycles", HCreateCycle); ("GET /cycles/{id}", HGetCycle); ("GET /cycles/{id}/ledger", HCycleLedger);
             ("POST /cycles/{id}/step", HStepCycle); ("POST /cycles/{id}/halt", HHaltCycle);
             ("GET /cycles/{id}/events", HCycleEvents); ("POST /cycles/{id}/orchestrate", HOrchestrate)].
(** The mux of a new server; [None]: a panic. *)
(* src: internal/broker/broker.go 69-78 NewServer *)
Definition NewServer_mux : option Mux :=
  foldl (fun m register => match m with Some m => register m | None => None end)
    (HandleAll [("POST /sessions", HCreateSession); ("GET /sessions/{id}", HGetSession);
                ("GET /sessions/{id}/next", HNextTurn); ("POST /sessions/{id}/turn", HPostTurn)] [])
    [registerA2ARoutes; registerRallyRoutes; registerMCPRoutes; registerCycleRoutes].
Definition routes : Mux := default [] NewServer_mux.

(* src: internal/broker/broker.go 95-98 Server.ServeHTTP *)
Definition ServeHTTP (method escapedPath : string) : Found Endpoint := findHandler routes method escapedPath.

(** ** The requests of the clients *)

(* src: internal/cli/rally.go 239-239 runRallyJoin *)
Definition baton_url (sessionID as_ : string) : string := "/rally/sessions/" +:+ sessionID +:+ "/baton?as=" +:+ as_.
(* src: internal/cli/rally.go 399-399 runRallyDone *)
Definition done_url (sessionID as_ : string) : string := "/rally/sessions/" +:+ sessionID +:+ "/done?as=" +:+ as_.
(* src: internal/cli/rally.go 444-444 runRallyStatus *)
Definition rally_url (sessionID : string) : string := "/rally/sessions/" +:+ sessionID.
(* src: internal/runner/runner.go 101-101 Loop.pollNext *)
Definition next_url (sessionID role : string) : string := "/sessions/" +:+ sessionID +:+ "/next?as=" +:+ role.
(* src: internal/runner/runner.go 143-143 Loop.postTurn *)
Definition turn_url (sessionID : string) : string := "/sessions/" +:+ sessionID +:+ "/turn".
(* src: internal/cli/squash.go 122-122 RunSquash *)
Definition session_url (sessionID : string) : string := "/sessions/" +:+ sessionID.
(** [action] is [/ledger], [/step], [/halt], [/events], [/orchestrate] or nothing. *)
(* src: internal/cli/cycle.go 512-512 readCycleLedgerWithClient *)
Definition cycle_url (cycleID action : string) : string := "/cycles/" +:+ cycleID +:+ action.

Example routes_of : NewServer_mux <> None /\ List.length routes = 20%nat.
Proof. by split. Qed.
Example step_arrives : fetch routes "POST" (cycle_url "cyc_1" "/step") = Arrives "POST" HStepCycle ["cyc_1"] "".
Proof. vm_compute. reflexivity. Qed.
(** A name with bytes that have a meaning in a URL is not escaped by the client. *)
Example injected_halt : fetch routes "POST" (cycle_url "cyc_1/halt?" "/step") = Arrives "POST" HHaltCycle ["cyc_1"] "/step".
Proof. vm_compute. reflexivity. Qed.
Example redirected_get : fetch routes "GET" (cycle_url "../sessions/s" "") = Arrives "GET" HGetSession ["s"] "".
Proof. vm_compute. reflexivity. Qed.
Example redirected_post : fetch routes "POST" (cycle_url "x/../cyc_1" "/step") = NotAllowed.
Proof. vm_compute. reflexivity. Qed.
Example escaped_slash : fetch routes "GET" (cycle_url "..%2Fx" "") = Arrives "GET" HGetCycle ["../x"] "" /\
  fetch routes "GET" (cycle_url "a/..%2Fx" "/../y") = Missing /\ fetch routes "GET" (cycle_url "%2f" "") = Missing.
Proof. vm_compute. split_and!; reflexivity. Qed.
Example odd_names : fetch routes "GET" (cycle_url "a b" "") = Arrives "GET" HGetCycle ["a b"] "" /\
  fetch routes "GET" (cycle_url "a?b c" "") = BadRequest /\ fetch routes "GET" (cycle_url "50%" "") = Unsendable /\
  fetch routes "GET" (cycle_url "" "") = Missing /\ fetch routes "GET" (cycle_url "." "/ledger") = Arrives "GET" HGetCycle ["ledger"] "".
Proof. vm_compute. split_and!; reflexivity. Qed.

(** ** Escaping *)

Lemma unescape_escape_byte c r : unescape (escape_byte c +:+ r) = option_map (String c) (unescape r).
Proof. destruct c as [[] [] [] [] [] [] [] []]; cbn [escape_byte]; vm_compute escape_byte; cbn -[unescape]; cbn; by destruct (unescape r). Qed.

Lemma unescape_escape s : unescape (escape s) = Some s.
Proof. induction s as [|c s IH]; [done|]. cbn [escape]. by rewrite unescape_escape_byte, IH. Qed.

Lemma escape_app a b : escape (a +:+ b) = escape a +:+ escape b.
Proof. induction a as [|c a IH]; [done|]. cbn [escape String.append]. by rewrite IH, string_app_assoc. Qed.

Lemma escape_byte_valid c : string_forall path_valid (escape_byte c) = true.
Proof. destruct c as [[] [] [] [] [] [] [] []]; reflexivity. Qed.

Lemma escape_valid s : string_forall path_valid (escape s) = true.
Proof. induction s as [|c s IH]; [done|]. cbn [escape]. by rewrite string_forall_app, escape_byte_valid. Qed.

Lemma escape_byte_slash c : c <> slash -> no_byte slash (escape_byte c) = true.
Proof. intros H. destruct c as [[] [] [] [] [] [] [] []]; reflexivity || by destruct H. Qed.

Lemma escape_no_slash s : no_byte slash s = true -> no_byte slash (escape s) = true.
Proof.
  induction s as [|c s IH]; [done|]. unfold no_byte at 1. cbn [string_forall escape]. rewrite andb_true_iff. intros [H1 H2].
  rewrite no_byte_app, (IH H2), andb_true_r. apply escape_byte_slash. intros ->. by rewrite Ascii.eqb_refl in H1.
Qed.

Lemma escape_name e : name_ok e = true -> name_ok (escape e) = true.
Proof.
  intros H. assert (Hne : forall k, escape e = k -> unescape k = Some e) by (intros k <-; apply unescape_escape).
  unfold name_ok in *. rewrite !andb_true_iff, !negb_true_iff, !String.eqb_neq in *. destruct H as [[[H1 H2] H3] H4].
  split_and!; [intros E; apply Hne in E; cbn in E; congruence..|by apply escape_no_slash].
Qed.

(** What stands in a valid path unescaped. *)
Lemma unescape_app a b : no_byte percent a = true -> unescape (a +:+ b) = option_map (fun y => a +:+ y) (unescape b).
Proof.
  induction a as [|c a IH]; [cbn [String.append]; by destruct (unescape b)|]. unfold no_byte. cbn [string_forall String.append unescape].
  rewrite andb_true_iff, negb_true_iff, Ascii.eqb_sym. intros [-> H]. rewrite (IH H). by destruct (unescape b).
Qed.

(** A path whose first and last parts are plain keeps them, whatever is between. *)
Definition plain_path (s : string) : bool := string_forall (fun c => path_plain c && negb (Ascii.eqb percent c)) s.

Lemma plain_path_app a b : plain_path (a +:+ b) = plain_path a && plain_path b.
Proof. apply string_forall_app. Qed.

Lemma plain_path_facts a : plain_path a = true -> no_byte percent a = true /\ string_forall path_valid a = true /\ escape a = a.
Proof.
  unfold plain_path, no_byte. induction a as [|c a IH]; [done|]. cbn [string_forall escape]. rewrite !andb_true_iff. intros [[H1 H2] H].
  destruct (IH H) as (-> & -> & ->). unfold path_valid, escape_byte. by rewrite H1, H2.
Qed.

Lemma unescape_plain a : plain_path a = true -> unescape a = Some a.
Proof. intros (H & _)%plain_path_facts. rewrite <-(string_app_nil_r a), unescape_app by done. cbn. by rewrite string_app_nil_r. Qed.

Lemma EscapedPath_plain a : plain_path a = true -> EscapedPath a = Some a.
Proof. intros H. unfold EscapedPath. rewrite unescape_plain by done. apply plain_path_facts in H as (_ & H & _). cbn. by rewrite H. Qed.

(** The escapes of the two parts of a string are those of the whole when the second part starts with a slash. *)
Lemma unescape_around x b : unescape (x +:+ String slash b) = match unescape x, unescape b with Some y, Some z => Some (y +:+ String slash z) | _, _ => None end.
Proof.
  induction x as [x IH] using (induction_ltof1 _ String.length); unfold ltof in IH. destruct x as [|c x]; [cbn; by destruct (unescape b)|].
  cbn [String.append unescape]. destruct (Ascii.eqb c percent).
  - destruct x as [|h [|l x]]; cbn [String.append].
    + by destruct b as [|? ?]; cbn.
    + cbn. by destruct (hex_val h).
    + destruct (hex_val h), (hex_val l); try done. rewrite IH by (cbn; lia). by destruct (unescape x), (unescape b).
  - rewrite IH by (cbn; lia). by destruct (unescape x), (unescape b).
Qed.

Lemma EscapedPath_around a x b : plain_path a = true -> plain_path b = true ->
  match unescape x with
  | None => EscapedPath (a +:+ x +:+ String slash b) = None
  | Some y => exists x', EscapedPath (a +:+ x +:+ String slash b) = Some (a +:+ x' +:+ String slash b) /\ unescape x' = Some y
  end.
Proof.
  intros Ha Hb. destruct (plain_path_facts _ Ha) as (Ha1 & Ha2 & Ha3), (plain_path_facts _ Hb) as (_ & Hb2 & Hb3).
  unfold EscapedPath. rewrite unescape_app, unescape_around, (unescape_plain b Hb) by done. destruct (unescape x) as [y|] eqn:E; [|done]. cbn [option_map].
  destruct (string_forall path_valid (a +:+ x +:+ String slash b)); [by exists x|]. exists (escape y). split; [|apply unescape_escape].
  rewrite !escape_app, Ha3. cbn [escape]. by rewrite Hb3.
Qed.

(** ** Clean paths *)

Definition slash_end (trailing : bool) : string := if trailing then "/" else "".
Abbreviation names_good := (Forall (fun e => name_ok e = true)).

Lemma abs_rooted es t : HasPrefix (abs_path es +:+ t) "/" = true.
Proof. apply HasPrefix_spec. exists (Join es "/" +:+ t). unfold abs_path. by rewrite <-string_app_assoc. Qed.

Lemma cleanPath_good es trailing : names_good es -> (trailing = true -> es <> []) -> cleanPath (abs_path es +:+ slash_end trailing) = abs_path es +:+ slash_end trailing.
Proof.
  intros He Ht. assert (Hc : forall t, filepath_Clean (abs_path es +:+ slash_end t) = abs_path es).
  { intros t. rewrite filepath_Clean_abs by apply abs_rooted. f_equal. destruct t; cbn [slash_end].
    - rewrite Split_app. unfold clean_elems. rewrite foldl_app. cbn [Split foldl]. apply Split_abs_path, He.
    - rewrite string_app_nil_r. apply Split_abs_path, He. }
  unfold cleanPath. rewrite abs_rooted.
  change (String.eqb (abs_path es +:+ slash_end trailing) "") with false. cbn iota. rewrite Hc. destruct trailing; cbn [slash_end].
  - assert (HasSuffix (abs_path es +:+ "/") "/" = true) as -> by (apply HasSuffix_spec; eauto).
    destruct (String.eqb_spec (abs_path es) "/") as [E|_]; [|done]. exfalso. apply (Ht eq_refl), abs_path_suffix; [done|]. by rewrite E.
  - rewrite string_app_nil_r. destruct (HasSuffix (abs_path es) "/") eqn:E; [|done]. apply abs_path_suffix in E as ->; done.
Qed.

Lemma cleanPath_shape p : exists es trailing, names_good es /\ (trailing = true -> es <> []) /\ cleanPath p = abs_path es +:+ slash_end trailing.
Proof.
  unfold cleanPath. destruct (String.eqb p ""); [by exists [], false|]. set (q := if HasPrefix p "/" then p else "/" +:+ p).
  assert (Hq : HasPrefix q "/" = true) by (unfold q; destruct (HasPrefix p "/") eqn:E; [done|apply HasPrefix_spec; by exists p]).
  rewrite (filepath_Clean_abs q Hq). set (es := clean_elems true (Split q slash)).
  assert (He : names_good es) by apply clean_elems_ok, Split_no_slash. destruct (HasSuffix q "/" && negb (String.eqb (abs_path es) "/")) eqn:E.
  - exists es, true. split_and!; [done| |done]. intros _ ->. cbn in E. by rewrite andb_false_r in E.
  - exists es, false. split_and!; [done..|]. by rewrite string_app_nil_r.
Qed.

Lemma escape_abs es trailing : escape (abs_path es +:+ slash_end trailing) = abs_path (map escape es) +:+ slash_end trailing.
Proof.
  rewrite escape_app. assert (escape (slash_end trailing) = slash_end trailing) as -> by by destruct trailing. f_equal.
  unfold abs_path. rewrite escape_app. f_equal. induction es as [|e [|e' es] IH]; [done|done|].
  change (Join (e :: e' :: es) "/") with (e +:+ "/" +:+ Join (e' :: es) "/"). rewrite !escape_app, IH. done.
Qed.

(** Where the mux redirects to, it does not redirect from. *)
Lemma redirect_clean p : cleanPath (escape (cleanPath p)) = escape (cleanPath p).
Proof.
  destruct (cleanPath_shape p) as (es & t & He & Ht & ->). rewrite escape_abs. apply cleanPath_good.
  - apply List.Forall_map. eapply Forall_impl; [exact He|]. apply escape_name.
  - intros E. apply Ht in E. by destruct es.
Qed.

Lemma Split_names es : es <> [] -> names_good es -> Split (Join es "/") slash = es.
Proof.
  intros Hn He. induction He as [|e es H He IH]; [done|]. apply andb_true_iff in H as [_ H]. destruct es as [|e' es]; [by apply Split_no_byte|].
  change (Join (e :: e' :: es) "/") with (e +:+ String slash (Join (e' :: es) "/")). rewrite Split_app, IH by done. by rewrite Split_no_byte.
Qed.

Lemma segments_abs es : es <> [] -> names_good es -> segments (abs_path es) = map (fun e => default e (unescape e)) es.
Proof.
  intros Hn He. unfold segments, abs_path. change ("/" +:+ Join es "/") with ("" +:+ String slash (Join es "/")). rewrite Split_app. cbn [Split app tail].
  rewrite Split_names by done. apply map_ext_Forall. eapply Forall_impl; [exact He|]. intros e H. destruct (String.eqb_spec e "") as [->|]; done.
Qed.

(** ** The search *)

Fixpoint seg_match (p : list Seg) (segs : list string) : option (list string) :=
  match p, segs with
  | [], [] => Some []
  | Lit s :: p, seg :: rest => if String.eqb s seg then seg_match p rest else None
  | Wild _ :: p, seg :: rest => if String.eqb seg "/" then None else option_map (cons seg) (seg_match p rest)
  | _, _ => None
  end.

Lemma seg_match_length p : forall segs v, seg_match p segs = Some v -> List.length p = List.length segs.
Proof.
  induction p as [|[s|n] p IH]; intros [|seg segs] v E; try done; cbn in E.
  - destruct (String.eqb s seg); [|done]. cbn. by rewrite (IH _ _ E).
  - destruct (String.eqb seg "/"); [done|]. destruct (seg_match p segs) eqn:Em; [|done]. cbn. by rewrite (IH _ _ Em).
Qed.

Lemma seg_match_snoc p : forall a l w v, seg_match (p ++ [a]) (l ++ [w]) = Some v ->
  exists v', seg_match p l = Some v' /\ match a with Lit s => s = w /\ v = v' | Wild _ => v = (v' ++ [w])%list end.
Proof.
  induction p as [|b p IH]; intros a l w v E.
  - pose proof (seg_match_length _ _ _ E) as Hl. rewrite !length_app in Hl. cbn in Hl. destruct l; [|cbn in Hl; lia]. exists []. split; [done|].
    destruct a as [s|n]; cbn in E; [destruct (String.eqb_spec s w)|destruct (String.eqb w "/")]; by simplify_eq.
  - pose proof (seg_match_length _ _ _ E) as Hl. cbn in Hl. rewrite !length_app in Hl. destruct l as [|x l]; [cbn in Hl; lia|].
    cbn [app seg_match] in E |- *. destruct b as [s|n].
    + destruct (String.eqb s x); [|done]. by apply IH.
    + destruct (String.eqb x "/"); [done|]. destruct (seg_match (p ++ [a]) (l ++ [w])) as [v0|] eqn:E0; [|done]. injection E as <-.
      apply IH in E0 as (v' & -> & H). exists (x :: v'). split; [done|]. destruct a; naive_solver.
Qed.

(** A pattern without wildcards yields no values. *)
Lemma seg_match_literal ss : forall l v, seg_match (map Lit ss) l = Some v -> v = [].
Proof. induction ss as [|s ss IH]; intros [|x l] v E; cbn in E; try by simplify_eq. destruct (String.eqb s x); [by apply IH in E|done]. Qed.

Section Search.
Context {H : Type}.

Lemma below_lit_spec (seg : string) (rs : list (list Seg * H)) p h : In (p, h) (below_lit seg rs) <-> In (Lit seg :: p, h) rs.
Proof.
  induction rs as [|[[|[s|n] q] h'] rs IH]; cbn [below_lit In]; rewrite <-?IH; [done|naive_solver| |naive_solver].
  destruct (String.eqb_spec s seg) as [->|]; cbn [In]; naive_solver.
Qed.

Lemma below_wild_spec (rs : list (list Seg * H)) p h : In (p, h) (below_wild rs) <-> exists n, In (Wild n :: p, h) rs.
Proof. induction rs as [|[[|[s|n] q] h'] rs IH]; cbn [below_wild In]; rewrite ?IH; naive_solver. Qed.

Lemma leaf_spec (rs : list (list Seg * H)) h : leaf rs = Some h -> In ([], h) rs.
Proof. induction rs as [|[[|s p] h'] rs IH]; cbn; naive_solver. Qed.

Lemma leaf_found (rs : list (list Seg * H)) h : In ([], h) rs -> leaf rs <> None.
Proof. induction rs as [|[[|s p] h'] rs IH]; cbn; naive_solver. Qed.

Lemma matchPath_sound segs : forall (rs : list (list Seg * H)) m h vals, matchPath rs segs m = Some (h, vals) ->
  exists p v, In (p, h) rs /\ seg_match p segs = Some v /\ vals = (m ++ v)%list.
Proof.
  induction segs as [|seg segs IH]; cbn [matchPath]; intros rs m h vals E.
  - destruct (leaf rs) as [h'|] eqn:El; [|done]. injection E as -> ->. exists [], []. rewrite app_nil_r. split_and!; [by apply leaf_spec|done|done].
  - destruct (matchPath (below_lit seg rs) segs m) as [[h' v']|] eqn:E1.
    + injection E as -> ->. apply IH in E1 as (p & v & Hp%below_lit_spec & Hm & ->). exists (Lit seg :: p), v. cbn. by rewrite String.eqb_refl.
    + destruct (String.eqb seg "/") eqn:Es; [done|]. apply IH in E as (p & v & [n Hp]%below_wild_spec & Hm & ->).
      exists (Wild n :: p), (seg :: v). cbn. rewrite Es, Hm. split_and!; [done|done|]. by rewrite <-app_assoc.
Qed.

Lemma matchPath_complete segs : forall (rs : list (list Seg * H)) m p h v, In (p, h) rs -> seg_match p segs = Some v -> matchPath rs segs m <> None.
Proof.
  induction segs as [|seg segs IH]; intros rs m [|[s|n] p] h v Hi E; try done; cbn [matchPath].
  - apply leaf_found in Hi. by destruct (leaf rs).
  - cbn in E. destruct (String.eqb_spec s seg) as [->|]; [|done]. apply below_lit_spec in Hi. pose proof (IH _ m _ _ _ Hi E) as Hm. by destruct (matchPath (below_lit seg rs) segs m) as [[]|].
  - cbn in E. destruct (matchPath (below_lit seg rs) segs m) as [[]|]; [done|]. destruct (String.eqb seg "/"); [done|].
    destruct (seg_match p segs) eqn:Em; [|done]. eapply IH; [|done]. apply below_wild_spec. by exists n.
Qed.
End Search.

#[export] Instance Seg_eq_dec : EqDecision Seg.
Proof. solve_decision. Defined.
#[export] Instance Relation_eq_dec : EqDecision Relation.
Proof. solve_decision. Defined.
#[export] Instance Pattern_eq_dec : EqDecision Pattern.
Proof. solve_decision. Defined.

#[local] Opaque routes.

(** Patterns that the registration tells apart do not match the same path. *)
Lemma compare_match segs : forall p q rel, rel <> Disjoint -> is_Some (seg_match p segs) -> is_Some (seg_match q segs) -> comparePaths rel p q <> Disjoint.
Proof.
  induction segs as [|seg segs IH]; intros [|s p] [|s' q] rel Hr Hp Hq; try by (destruct Hp as [? Hp]; first [destruct s|idtac]; discriminate Hp).
  - done.
  - destruct Hq as [? Hq]. by destruct s'.
  - destruct Hq as [? Hq]. discriminate Hq.
  - cbn [comparePaths].
    assert (Hs : is_Some (seg_match p segs) /\ is_Some (seg_match q segs) /\ compareSegments s s' <> Disjoint).
    { destruct Hp as [v Hp], Hq as [v' Hq]. destruct s as [s|n], s' as [s'|n']; cbn in Hp, Hq |- *;
        repeat match goal with
          | H : (if String.eqb ?a ?b then _ else _) = Some _ |- _ => destruct (String.eqb a b) eqn:?; try discriminate H
          | H : option_map _ (seg_match ?a ?b) = Some _ |- _ => destruct (seg_match a b) eqn:?; try discriminate H
          end; reflect_bools; subst; rewrite ?String.eqb_refl; split_and!; eauto. }
    destruct Hs as (H1 & H2 & H3). apply IH; [|done..]. destruct rel, (compareSegments s s'); done.
Qed.

(** A route serves a method; those of GET serve HEAD as well. *)
Definition takes (p : Pattern) (method : string) : Prop := pt_method p = method \/ method = "HEAD" /\ pt_method p = "GET".

Lemma of_method_In {H} method (m : list (Pattern * H)) segs h :
  In (segs, h) (of_method method m) <-> In (mkPattern method segs, h) m.
Proof.
  unfold of_method. rewrite <-!list_elem_of_In, list_elem_of_omap. split.
  - intros ([[mt sg] h'] & Hi & E). cbn in E. destruct (String.eqb_spec mt method) as [->|]; [|done]. by injection E as -> ->.
  - intros Hi. eexists. split; [exact Hi|]. cbn. by rewrite String.eqb_refl.
Qed.

Definition told_apart (r r' : Pattern * Endpoint) : bool :=
  bool_decide (r = r') || negb (String.eqb (pt_method (fst r)) (pt_method (fst r'))) ||
  bool_decide (comparePaths Equivalent (pt_segs (fst r)) (pt_segs (fst r')) = Disjoint).

Lemma routes_apart p h p' h' segs : In (p, h) routes -> In (p', h') routes -> pt_method p = pt_method p' ->
  is_Some (seg_match (pt_segs p) segs) -> is_Some (seg_match (pt_segs p') segs) -> (p, h) = (p', h').
Proof.
  intros Hp Hq Hm Hs Hs'. assert (Hall : forallb (fun r => forallb (told_apart r) routes) routes = true) by (vm_compute; reflexivity).
  rewrite forallb_forall in Hall. specialize (Hall _ Hp). rewrite forallb_forall in Hall. specialize (Hall _ Hq). unfold told_apart in Hall.
  cbn [fst] in Hall. rewrite Hm, String.eqb_refl, orb_false_r in Hall. apply orb_true_iff in Hall as [E%bool_decide_eq_true|E%bool_decide_eq_true]; [done|].
  by apply (compare_match segs _ _ Equivalent) in E.
Qed.

Lemma routes_methods p h : In (p, h) routes -> pt_method p = "GET" \/ pt_method p = "POST".
Proof.
  intros Hi. assert (Hall : forallb (fun r => String.eqb (pt_method (fst r)) "GET" || String.eqb (pt_method (fst r)) "POST") routes = true) by (vm_compute; reflexivity).
  rewrite forallb_forall in Hall. specialize (Hall _ Hi). cbn in Hall. apply orb_true_iff in Hall as [E%String.eqb_eq|E%String.eqb_eq]; auto.
Qed.

Lemma match_routes method segs h vals : matchMethodAndPath routes method segs = Some (h, vals) <->
  exists p, In (p, h) routes /\ takes p method /\ seg_match (pt_segs p) segs = Some vals.
Proof.
  assert (Hs : forall mt v, matchPath (of_method mt routes) segs [] = Some (h, v) -> exists p, In (p, h) routes /\ pt_method p = mt /\ seg_match (pt_segs p) segs = Some v).
  { intros mt v (p & w & Hi%of_method_In & Hw & ->)%matchPath_sound. by exists (mkPattern mt p). }
  assert (Hc : forall p v, In (p, h) routes -> seg_match (pt_segs p) segs = Some v -> matchPath (of_method (pt_method p) routes) segs [] = Some (h, v)).
  { intros [mt sg] v Hi Hw. pose proof (proj2 (of_method_In mt routes sg h) Hi) as Hi'.
    destruct (matchPath (of_method mt routes) segs []) as [[h' v']|] eqn:E; [|by eapply matchPath_complete in E].
    cbn [pt_method]. rewrite E. apply matchPath_sound in E as (p' & w & Hi2%of_method_In & Hw' & ->). cbn [app pt_segs] in *.
    pose proof (routes_apart _ _ _ _ segs Hi Hi2 eq_refl (mk_is_Some _ _ Hw) (mk_is_Some _ _ Hw')) as [= <- <-]. congruence. }
  unfold matchMethodAndPath. split.
  - destruct (matchPath (of_method method routes) segs []) as [[h' v']|] eqn:E.
    + intros [= -> ->]. apply Hs in E as (p & Hi & Hm & Hw). exists p. split_and!; [done|by left|done].
    + destruct (String.eqb_spec method "HEAD") as [->|]; [|done]. intros (p & Hi & Hm & Hw)%Hs. exists p. split; [done|]. split; [by right|done].
  - intros (p & Hi & [<-|[-> Hm]] & Hw); [by rewrite (Hc _ _ Hi Hw)|]. assert (of_method "HEAD" routes = []) as -> by (vm_compute; reflexivity).
    assert (matchPath (@nil (list Seg * Endpoint)) segs [] = None) as ->.
    { destruct (matchPath [] segs []) as [[? ?]|] eqn:E; [|done]. by apply matchPath_sound in E as (? & ? & [] & _). }
    rewrite <-Hm. by rewrite (Hc _ _ Hi Hw).
Qed.

(** ** What a request reaches *)

Lemma no_byte_spaceless q : no_byte " "%char q = true -> no_byte " "%char (hexEscapeNonASCII q) = true.
Proof.
  induction q as [|c q IH]; [done|]. unfold no_byte at 1. cbn [string_forall hexEscapeNonASCII]. rewrite andb_true_iff. intros [H1 H2].
  rewrite no_byte_app, (IH H2), andb_true_r. clear IH H2. destruct c as [[] [] [] [] [] [] [] []]; done.
Qed.

Lemma follow_clean n m method path query : cleanPath path = path -> follow (H := Endpoint) n m method path query = follow 0 m method path query.
Proof.
  intros Hc. destruct n; [done|]. cbn [follow]. unfold findHandler. rewrite Hc, String.eqb_refl. cbn [negb].
  destruct (negb _); [done|]. destruct (matchMethodAndPath _ _ _) as [[]|]; [done|]. by destruct (existsb _ _).
Qed.

Lemma follow_redirect n m method path query : cleanPath path <> path -> no_byte " "%char query = true ->
  follow (H := Endpoint) (S n) m method path query = follow 0 m (redirectMethod method) (escape (cleanPath path)) (hexEscapeNonASCII query).
Proof.
  intros Hc Hq. rewrite <-(follow_clean n) by apply redirect_clean. cbn [follow]. rewrite Hq. cbn [negb]. unfold findHandler at 1.
  by rewrite (proj2 (String.eqb_neq _ _) Hc).
Qed.

Lemma follow_zero m method path query : cleanPath path = path -> no_byte " "%char query = true ->
  follow (H := Endpoint) 0 m method path query =
  match matchMethodAndPath m method (segments path) with
  | Some (h, matches) => Arrives method h matches query
  | None => match findHandler m method path with MethodNotAllowed => NotAllowed | _ => Missing end
  end.
Proof.
  intros Hc Hq. cbn [follow]. rewrite Hq. cbn [negb]. unfold findHandler. rewrite Hc, String.eqb_refl. cbn [negb].
  destruct (matchMethodAndPath _ _ _) as [[]|]; [done|]. by destruct (existsb _ _).
Qed.

(** The names of a path that a client sends as they are. *)
Definition plain (s : string) : bool :=
  string_forall unreserved s && negb (String.eqb s "") && negb (String.eqb s ".") && negb (String.eqb s "..").

Lemma plain_bytes s : string_forall unreserved s = true -> plain_path s = true /\ no_byte slash s = true /\ no_byte "?"%char s = true /\
  no_byte "#"%char s = true /\ no_byte " "%char s = true /\ string_forall (fun c => negb (control c)) s = true.
Proof.
  unfold plain_path, no_byte. induction s as [|c s IH]; [done|]. cbn [string_forall]. intros [H1 H2]%andb_true_iff.
  destruct (IH H2) as (-> & -> & -> & -> & -> & ->). rewrite !andb_true_r. clear IH H2.
  destruct c as [[] [] [] [] [] [] [] []]; (discriminate H1 || by split_and!).
Qed.

Lemma plain_name s : plain s = true -> name_ok s = true /\ String.eqb s "/" = false /\ string_forall unreserved s = true.
Proof.
  unfold plain, name_ok. intros H. rewrite !andb_true_iff in H. destruct H as [[[H1 H2] H3] H4]. destruct (plain_bytes s H1) as (_ & -> & _). rewrite H2, H3, H4.
  split_and!; [done| |done]. destruct (String.eqb_spec s "/") as [->|]; done.
Qed.

Lemma Cut_absent s c : no_byte c s = true -> Cut s c = (s, "").
Proof.
  unfold no_byte. induction s as [|d s IH]; [done|]. cbn [string_forall Cut]. rewrite andb_true_iff, negb_true_iff, Ascii.eqb_sym. intros [-> H]. by rewrite IH.
Qed.

Lemma Cut_first a c b : no_byte c a = true -> Cut (a +:+ String c b) c = (a, b).
Proof.
  unfold no_byte. induction a as [|d a IH]; cbn [string_forall Cut String.append]; [by rewrite Ascii.eqb_refl|].
  rewrite andb_true_iff, negb_true_iff, Ascii.eqb_sym. intros [-> H]. by rewrite IH.
Qed.

Lemma forall_abs (P : ascii -> bool) names : P slash = true -> Forall (fun e => string_forall P e = true) names -> string_forall P (abs_path names) = true.
Proof.
  intros Hs H. change (P slash && string_forall P (Join names "/") = true). rewrite Hs. cbn [andb]. induction H as [|e [|e' names] He _ IH]; [done|done|].
  change (Join (e :: e' :: names) "/") with (e +:+ String slash (Join (e' :: names) "/")).
  rewrite string_forall_app, He. change (P slash && string_forall P (Join (e' :: names) "/") = true). by rewrite Hs, IH.
Qed.

(** The query of a request, and the bytes it may have. *)
Definition with_query (q : option string) : string := match q with Some q => String "?"%char q | None => "" end.
Definition query_ok (c : ascii) : bool := negb (Ascii.eqb "#" c) && negb (Ascii.eqb " " c) && negb (control c).

Lemma query_bytes q : string_forall query_ok q = true -> no_byte "#"%char q = true /\ no_byte " "%char q = true /\ string_forall (fun c => negb (control c)) q = true.
Proof.
  unfold no_byte, query_ok. induction q as [|c q IH]; [done|]. cbn [string_forall]. rewrite !andb_true_iff. intros [[[H1 H2] H3] H].
  destruct (IH H) as (-> & -> & ->). by rewrite H1, H2, H3.
Qed.

Lemma forall_query (P : ascii -> bool) q : P "?"%char = true -> string_forall P (default "" q) = true -> string_forall P (with_query q) = true.
Proof. intros H Hq. destruct q as [q|]; [|done]. cbn [with_query string_forall default] in *. by rewrite H. Qed.

(** A request for plain names is answered by the route of these names. *)
Lemma fetch_plain method names q h vals : names <> [] -> Forall (fun e => plain e = true) names ->
  string_forall query_ok (default "" q) = true -> matchMethodAndPath routes method names = Some (h, vals) ->
  fetch routes method (abs_path names +:+ with_query q) = Arrives method h vals (default "" q).
Proof.
  intros Hn Hp Hq Hm. destruct (query_bytes _ Hq) as (Hq1 & Hq2 & Hq3).
  assert (Hg : names_good names) by (eapply Forall_impl; [exact Hp|]; intros e He; by apply plain_name in He as [? _]).
  assert (Hb : forall P : ascii -> bool, P slash = true -> (forall s, string_forall unreserved s = true -> string_forall P s = true) -> string_forall P (abs_path names) = true).
  { intros P H1 H2. apply forall_abs; [done|]. eapply Forall_impl; [exact Hp|]. intros e (_ & _ & He)%plain_name. by apply H2. }
  assert (Hpath : plain_path (abs_path names) = true) by (apply Hb; [done|]; intros s Hs; apply (plain_bytes s Hs)).
  assert (Hmark : no_byte "?"%char (abs_path names) = true) by (apply Hb; [done|]; intros s Hs; apply (plain_bytes s Hs)).
  assert (Hhash : no_byte "#"%char (abs_path names) = true) by (apply Hb; [done|]; intros s Hs; apply (plain_bytes s Hs)).
  assert (Hctl : string_forall (fun c => negb (control c)) (abs_path names) = true) by (apply Hb; [done|]; intros s Hs; apply (plain_bytes s Hs)).
  assert (Hc : cleanPath (abs_path names) = abs_path names).
  { pose proof (cleanPath_good names false Hg) as E. cbn [slash_end] in E. rewrite string_app_nil_r in E. by apply E. }
  unfold fetch, parse_url. rewrite Cut_absent by (rewrite no_byte_app, Hhash; by apply (forall_query (fun d => negb (Ascii.eqb "#" d)))).
  assert (string_forall (fun c => negb (control c)) (abs_path names +:+ with_query q) = true) as -> by (rewrite string_forall_app, Hctl; by apply (forall_query (fun c => negb (control c)))).
  cbn [negb unescape]. assert (Cut (abs_path names +:+ with_query q) "?"%char = (abs_path names, default "" q)) as ->.
  { destruct q as [q|]; cbn [with_query default]; [by apply Cut_first|rewrite string_app_nil_r; by apply Cut_absent]. }
  rewrite EscapedPath_plain by done. cbn [option_map]. rewrite (follow_clean 9), follow_zero, segments_abs by done.
  assert (map (fun e => default e (unescape e)) names = names) as ->; [|by rewrite Hm].
  clear -Hp. induction Hp as [|e names He _ IH]; [done|]. cbn [map]. rewrite IH. apply plain_name in He as (_ & _ & He).
  apply plain_bytes in He as (He & _). by rewrite (unescape_plain e He).
Qed.

Lemma plain_alone id : plain id = true -> String.eqb id "/" = false.
Proof. apply plain_name. Qed.

Lemma session_plain s id : NewSessionID s = inr id -> plain s = true.
Proof.
  intros (-> & d & h & -> & _ & Hd & _ & Hh)%NewSessionID_spec. unfold plain. rewrite !andb_true_iff. split_and!; try done.
  rewrite !string_forall_app. rewrite (string_forall_impl is_digit unreserved d), (string_forall_impl lower_hex_byte unreserved h); [done|intros c ?|done|intros c ?|done].
  all: destruct c as [[] [] [] [] [] [] [] []]; done.
Qed.

Lemma participant_unreserved s n : NewParticipantName s = inr n -> string_forall unreserved s = true.
Proof.
  unfold NewParticipantName, participantNameRe. destruct (string_forall name_byte s) eqn:E; [|done]. intros _.
  apply (string_forall_impl name_byte); [|done]. intros c ?. destruct c as [[] [] [] [] [] [] [] []]; done.
Qed.

Lemma unreserved_query c : unreserved c = true -> query_ok c = true.
Proof. destruct c as [[] [] [] [] [] [] [] []]; done. Qed.

Lemma query_plain k v : string_forall query_ok k = true -> string_forall unreserved v = true -> string_forall query_ok (k +:+ v) = true.
Proof. intros Hk Hv. rewrite string_forall_app, Hk. by apply (string_forall_impl unreserved); [apply unreserved_query|]. Qed.

(** The tail of a request as its names and query, and the pattern that takes it. *)
Ltac request names q p :=
  match goal with |- fetch _ _ ?t = _ =>
    replace t with (abs_path names +:+ with_query q)
      by (cbn; unfold cycle_url; rewrite <-?string_app_assoc, ?string_app_nil_r; reflexivity)
  end;
  apply (fetch_plain _ names q);
  [done|by repeat (apply Forall_cons_2; [done|]); apply Forall_nil_2|
   first [done|by apply query_plain]|
   apply match_routes; exists (parse_pattern p); split_and!; [vm_compute; tauto|by left|cbn; rewrite ?plain_alone by done; reflexivity]].

Lemma plain_requests (id name : string) : plain id = true -> string_forall unreserved name = true ->
  fetch routes "POST" "/rally/sessions" = Arrives "POST" HRallyCreate [] "" /\
  fetch routes "GET" (baton_url id name) = Arrives "GET" HRallyBaton [id] ("as=" +:+ name) /\
  fetch routes "POST" (done_url id name) = Arrives "POST" HRallyDone [id] ("as=" +:+ name) /\
  fetch routes "GET" (rally_url id) = Arrives "GET" HRallyStatus [id] "" /\
  fetch routes "POST" "/sessions" = Arrives "POST" HCreateSession [] "" /\
  fetch routes "GET" (session_url id) = Arrives "GET" HGetSession [id] "" /\
  fetch routes "GET" (next_url id name) = Arrives "GET" HNextTurn [id] ("as=" +:+ name) /\
  fetch routes "POST" (turn_url id) = Arrives "POST" HPostTurn [id] "" /\
  fetch routes "GET" "/mcp/sse" = Arrives "GET" HMCPSSE [] "" /\
  fetch routes "POST" (endpoint_path id) = Arrives "POST" HMCPMessage [] ("session_id=" +:+ id) /\
  fetch routes "POST" "/cycles" = Arrives "POST" HCreateCycle [] "" /\
  fetch routes "GET" (cycle_url id "") = Arrives "GET" HGetCycle [id] "" /\
  fetch routes "GET" (cycle_url id "/ledger") = Arrives "GET" HCycleLedger [id] "" /\
  fetch routes "POST" (cycle_url id "/step") = Arrives "POST" HStepCycle [id] "" /\
  fetch routes "POST" (cycle_url id "/halt") = Arrives "POST" HHaltCycle [id] "" /\
  fetch routes "GET" (cycle_url id "/events") = Arrives "GET" HCycleEvents [id] "" /\
  fetch routes "POST" (cycle_url id "/orchestrate") = Arrives "POST" HOrchestrate [id] "".
Proof.
  intros Hid Hn. pose proof (plain_name id Hid) as (_ & _ & Hu). split_and!.
  - request ["rally"; "sessions"] (None (A := string)) "POST /rally/sessions".
  - request ["rally"; "sessions"; id; "baton"] (Some ("as=" +:+ name)) "GET /rally/sessions/{id}/baton".
  - request ["rally"; "sessions"; id; "done"] (Some ("as=" +:+ name)) "POST /rally/sessions/{id}/done".
  - request ["rally"; "sessions"; id] (None (A := string)) "GET /rally/sessions/{id}".
  - request ["sessions"] (None (A := string)) "POST /sessions".
  - request ["sessions"; id] (None (A := string)) "GET /sessions/{id}".
  - request ["sessions"; id; "next"] (Some ("as=" +:+ name)) "GET /sessions/{id}/next".
  - request ["sessions"; id; "turn"] (None (A := string)) "POST /sessions/{id}/turn".
  - request ["mcp"; "sse"] (None (A := string)) "GET /mcp/sse".
  - request ["mcp"; "message"] (Some ("session_id=" +:+ id)) "POST /mcp/message".
  - request ["cycles"] (None (A := string)) "POST /cycles".
  - request ["cycles"; id] (None (A := string)) "GET /cycles/{id}".
  - request ["cycles"; id; "ledger"] (None (A := string)) "GET /cycles/{id}/ledger".
  - request ["cycles"; id; "step"] (None (A := string)) "POST /cycles/{id}/step".
  - request ["cycles"; id; "halt"] (None (A := string)) "POST /cycles/{id}/halt".
  - request ["cycles"; id; "events"] (None (A := string)) "GET /cycles/{id}/events".
  - request ["cycles"; id; "orchestrate"] (None (A := string)) "POST /cycles/{id}/orchestrate".
Qed.

(** Every request of a client for a session or cycle with a plain name (letters, digits, ["-"],
    ["_"], ["."] and ["~"]) reaches the handler it is meant for, with that name, on the first try and
    with the query it was given; the ids the daemon makes and the names a rally accepts are plain. *)
Theorem requests_arrive (id name : string) : plain id = true -> string_forall unreserved name = true ->
  fetch routes "POST" "/rally/sessions" = Arrives "POST" HRallyCreate [] "" /\
  fetch routes "GET" (baton_url id name) = Arrives "GET" HRallyBaton [id] ("as=" +:+ name) /\
  fetch routes "POST" (done_url id name) = Arrives "POST" HRallyDone [id] ("as=" +:+ name) /\
  fetch routes "GET" (rally_url id) = Arrives "GET" HRallyStatus [id] "" /\
  fetch routes "POST" "/sessions" = Arrives "POST" HCreateSession [] "" /\
  fetch routes "GET" (session_url id) = Arrives "GET" HGetSession [id] "" /\
  fetch routes "GET" (next_url id name) = Arrives "GET" HNextTurn [id] ("as=" +:+ name) /\
  fetch routes "POST" (turn_url id) = Arrives "POST" HPostTurn [id] "" /\
  fetch routes "GET" "/mcp/sse" = Arrives "GET" HMCPSSE [] "" /\
  fetch routes "POST" (endpoint_path id) = Arrives "POST" HMCPMessage [] ("session_id=" +:+ id) /\
  fetch routes "POST" "/cycles" = Arrives "POST" HCreateCycle [] "" /\
  fetch routes "GET" (cycle_url id "") = Arrives "GET" HGetCycle [id] "" /\
  fetch routes "GET" (cycle_url id "/ledger") = Arrives "GET" HCycleLedger [id] "" /\
  fetch routes "POST" (cycle_url id "/step") = Arrives "POST" HStepCycle [id] "" /\
  fetch routes "POST" (cycle_url id "/halt") = Arrives "POST" HHaltCycle [id] "" /\
  fetch routes "GET" (cycle_url id "/events") = Arrives "GET" HCycleEvents [id] "" /\
  fetch routes "POST" (cycle_url id "/orchestrate") = Arrives "POST" HOrchestrate [id] "".
Proof. apply plain_requests. Qed.

(** ** The ids the daemon makes *)

(** [b]: the random bytes, when the system has some; [nanos]: the clock, which then counts. *)
(* src: internal/broker/cycle.go 631-638 randomHex *)
Definition randomHex (n : nat) (b : option string) (nanos : string) : string :=
  match b with Some b => hex_encode b | None => slice nanos 0 (n * 2) end.

Lemma Itoa_unreserved z : string_forall unreserved (Itoa z) = true.
Proof.
  destruct (Itoa_cases z) as [[-> _]|(c & d & Hd & _ & [(_ & -> & _)|(_ & -> & _)])]; [done| |rewrite string_forall_app];
    apply (string_forall_impl is_digit unreserved) in Hd; try by rewrite ?Hd. all: intros x ?; destruct x as [[] [] [] [] [] [] [] []]; done.
Qed.

Lemma hex_unreserved b : string_forall unreserved (hex_encode b) = true.
Proof. induction b as [|c b IH]; [done|]. destruct c as [[] [] [] [] [] [] [] []]; exact IH. Qed.

Lemma plain_with a c b : c <> "."%char -> string_forall unreserved (a +:+ String c b) = true -> plain (a +:+ String c b) = true.
Proof.
  intros Hc Hu. unfold plain. rewrite Hu.
  assert (Hne : forall k, k = "" \/ k = "." \/ k = ".." -> String.eqb (a +:+ String c b) k = false).
  { intros k Hk. apply String.eqb_neq. intros <-. destruct a as [|x [|y [|z a]]]; cbn [String.append] in Hk; naive_solver. }
  rewrite !Hne by auto. done.
Qed.

(** The names of new sessions, cycles and rallies are plain. *)
Lemma made_plain now n b : plain (generateID now n) = true /\ plain ("cyc_" +:+ Itoa now +:+ "_" +:+ hex_encode b) = true /\
  plain (generateRallyID now b) = true.
Proof.
  split_and!.
  - apply (plain_with (Itoa now) "-" (Itoa n)); [done|]. change (string_forall unreserved (Itoa now +:+ ("-" +:+ Itoa n)) = true).
    by rewrite !string_forall_app, !Itoa_unreserved.
  - apply (plain_with "" "c"); [done|]. change (string_forall unreserved ("cyc_" +:+ Itoa now +:+ "_" +:+ hex_encode b) = true).
    by rewrite !string_forall_app, Itoa_unreserved, hex_unreserved.
  - apply (plain_with "" "r"); [done|]. change (string_forall unreserved ("rly_" +:+ Itoa now +:+ "_" +:+ hex_encode b) = true).
    by rewrite !string_forall_app, Itoa_unreserved, hex_unreserved.
Qed.

(** ** Names of any text *)

(** The last segment of a path that ends in a name is that name, before and after cleaning. *)
Lemma clean_last x w : name_ok w = true -> HasPrefix x "/" = true ->
  exists es, names_good es /\ cleanPath (x +:+ "/" +:+ w) = abs_path (es ++ [w]).
Proof.
  intros Hw Hx. exists (clean_elems true (Split x slash)). split; [apply clean_elems_ok, Split_no_slash|].
  apply HasPrefix_spec in Hx as [r ->]. set (p := ("/" +:+ r) +:+ "/" +:+ w).
  assert (Hp : HasPrefix p "/" = true) by (apply HasPrefix_spec; exists (r +:+ "/" +:+ w); done).
  assert (Hn : no_byte slash w = true) by (by unfold name_ok in Hw; apply andb_true_iff in Hw as [_ ?]).
  assert (Hc : filepath_Clean p = abs_path (clean_elems true (Split ("/" +:+ r) slash) ++ [w])).
  { rewrite filepath_Clean_abs by done. f_equal. unfold p. change ("/" +:+ w) with (String slash w). rewrite Split_app, (Split_no_byte w) by done. by apply clean_elems_snoc. }
  unfold cleanPath. change (String.eqb p "") with false. cbn iota. rewrite Hp, Hc. destruct (HasSuffix p "/") eqn:E; [|done]. exfalso.
  apply HasSuffix_spec in E as [a E]. unfold p in E.
  assert (Hs : exists w', w = w' +:+ "/").
  { change (("/" +:+ r) +:+ "/" +:+ w) with ("/" +:+ r +:+ "/" +:+ w) in E. rewrite !string_app_assoc in E.
    apply app_cases in E as [(m & _ & ->)|(m & _ & E)]; [by exists m|]. destruct m as [|c m]; [by exists ""|].
    injection E as _ E. destruct m; [|discriminate E]. cbn in E. by subst w. }
  destruct Hs as [w' ->]. rewrite no_byte_app in Hn. by rewrite andb_false_r in Hn.
Qed.

Lemma segments_around x w : no_byte slash w = true -> unescape w = Some w -> w <> "" ->
  segments ("/cycles/" +:+ x +:+ "/" +:+ w) = ("cycles" :: map (fun e => if String.eqb e "" then "/" else default e (unescape e)) (Split x slash) ++ [w])%list.
Proof.
  intros Hn Hu Hw. unfold segments. change ("/cycles/" +:+ x +:+ "/" +:+ w) with ("" +:+ String slash ("cycles" +:+ String slash (x +:+ String slash w))).
  rewrite !Split_app. rewrite (Split_no_byte w), (Split_no_byte "cycles") by done. cbn [Split app tail map]. rewrite map_app. cbn [map].
  rewrite (proj2 (String.eqb_neq _ _) Hw), Hu. done.
Qed.

Definition actions : list (string * Endpoint) := [("step", HStepCycle); ("halt", HHaltCycle); ("orchestrate", HOrchestrate)].

(** What the routes of POST make of the segments of such a path, and those of GET of a path with such an end. *)
Lemma post_route segs w hw h vals : In (w, hw) actions -> segs <> [] ->
  matchMethodAndPath routes "POST" ("cycles" :: segs ++ [w]) = Some (h, vals) -> h = hw /\ exists e, segs = [e] /\ e <> "/" /\ vals = [e].
Proof.
  intros Ha Hs (p & Hi & [Hp|[? _]] & Hm)%match_routes; [|done].
  assert (Hx : In (p, h) (filter (fun r => pt_method (fst r) = "POST") routes)) by (rewrite <-list_elem_of_In, list_elem_of_filter, list_elem_of_In; done).
  assert (Hr : filter (fun r => pt_method (fst r) = "POST") routes =
    map (fun r : string * Endpoint => (parse_pattern (fst r), snd r))
      [("POST /sessions", HCreateSession); ("POST /sessions/{id}/turn", HPostTurn); ("POST /a2a", HA2A); ("POST /rally/sessions", HRallyCreate);
       ("POST /rally/sessions/{id}/done", HRallyDone); ("POST /mcp/message", HMCPMessage); ("POST /cycles", HCreateCycle);
       ("POST /cycles/{id}/step", HStepCycle); ("POST /cycles/{id}/halt", HHaltCycle); ("POST /cycles/{id}/orchestrate", HOrchestrate)]) by (vm_compute; reflexivity).
  rewrite Hr in Hx. clear Hi Hr. destruct segs as [|e [|e' segs]]; [done| |].
  - cbn [map fst snd In app] in Hx. unfold actions in Ha. cbn [In] in Ha.
    repeat match goal with H : _ \/ _ |- _ => destruct H as [H|H] end; try done; injection Hx as <- <-; injection Ha as <- <-;
      cbn in Hm; try discriminate Hm; destruct (String.eqb_spec e "/"); cbn in Hm; try discriminate Hm; injection Hm as <-; eauto.
  - exfalso. pose proof (seg_match_length _ _ _ Hm) as Hl. cbn [List.length app] in Hl. rewrite length_app in Hl. cbn [List.length] in Hl.
    clear Ha. cbn [map fst snd In app] in Hx.
    repeat match goal with H : _ \/ _ |- _ => destruct H as [H|H] end; [injection Hx as <- <-; first [cbn in Hl; lia|discriminate Hm]..|done].
Qed.

Lemma get_route l w hw h vals : In (w, hw) actions -> matchMethodAndPath routes "GET" (l ++ [w]) = Some (h, vals) ->
  In h [HGetCycle; HGetSession; HRallyStatus] /\ vals = [w].
Proof.
  intros Ha (p & Hi & [Hp|[? _]] & Hm)%match_routes; [|done].
  assert (Hx : In (p, h) (filter (fun r => pt_method (fst r) = "GET") routes)) by (rewrite <-list_elem_of_In, list_elem_of_filter, list_elem_of_In; done).
  assert (Hr : filter (fun r => pt_method (fst r) = "GET") routes =
    map (fun r : list Seg * Seg * Endpoint => (mkPattern "GET" (fst (fst r) ++ [snd (fst r)]), snd r))
      [(map Lit ["sessions"], Wild "id", HGetSession); ([Lit "sessions"; Wild "id"], Lit "next", HNextTurn);
       (map Lit [".well-known"], Lit "agent-card.json", HAgentCard); (map Lit [".well-known"], Lit "agent.json", HAgentCard);
       ([Lit "rally"; Lit "sessions"; Wild "id"], Lit "baton", HRallyBaton); (map Lit ["rally"; "sessions"], Wild "id", HRallyStatus);
       (map Lit ["mcp"], Lit "sse", HMCPSSE); (map Lit ["cycles"], Wild "id", HGetCycle); ([Lit "cycles"; Wild "id"], Lit "ledger", HCycleLedger);
       ([Lit "cycles"; Wild "id"], Lit "events", HCycleEvents)]) by (vm_compute; reflexivity).
  rewrite Hr in Hx. clear Hi Hr. apply in_map_iff in Hx as ([[i a] h'] & [= <- <-] & Hx). cbn [fst snd pt_segs] in Hm.
  apply seg_match_snoc in Hm as (v & Hv & Hm). unfold actions in Ha. cbn [In] in Ha, Hx.
  repeat match goal with H : _ \/ _ |- _ => destruct H as [H|H] end; try done; injection Hx as <- <- <-; injection Ha as <- <-;
    try (by destruct Hm);
    (match type of Hv with seg_match ?i _ = _ =>
       let ss := eval cbv in (omap (fun s => match s with Lit s => Some s | Wild _ => None end) i) in apply (seg_match_literal ss) in Hv as -> end);
    subst vals; cbn; tauto.
Qed.

Lemma Split_single s c y : Split s c = [y] -> y = s.
Proof.
  revert y. induction s as [|d s IH]; intros y; cbn [Split]; [by intros [= <-]|]. destruct (Ascii.eqb d c).
  - intros [= _ H]. by apply Split_nonempty in H.
  - destruct (Split s c) as [|p ps] eqn:E; [by apply Split_nonempty in E|]. intros [= <- ->]. by rewrite (IH p eq_refl).
Qed.

Lemma action_facts w hw : In (w, hw) actions -> name_ok w = true /\ no_byte slash w = true /\ unescape w = Some w /\ w <> "" /\
  escape w = w /\ plain_path ("/" +:+ w) = true /\ no_byte "?"%char w = true /\ no_byte "#"%char w = true.
Proof. unfold actions. cbn [In]. intros [[= <- <-]|[[= <- <-]|[[= <- <-]|[]]]]; by split_and!. Qed.

(** C20: a command that changes a cycle changes the cycle it names or none, whatever text the name is,
    unless it has a ["?"] or a ["#"] (then it may reach any route: [injected_halt]).  The request of [next],
    [halt] or [start] reaches the handler it is meant for, with the name as the percent encoding of
    the id; or, after a redirect has made a GET of it, a handler that only reads; or no handler. *)
Theorem posts_land (cycleID action : string) (hw : Endpoint) : In (action, hw) actions ->
  no_byte "?"%char cycleID = true -> no_byte "#"%char cycleID = true ->
  match fetch routes "POST" (cycle_url cycleID ("/" +:+ action)) with
  | Arrives method h vals query => query = "" /\
      (method = "POST" /\ h = hw /\ (exists id, unescape cycleID = Some id /\ vals = [id]) \/
       method = "GET" /\ In h [HGetCycle; HGetSession; HRallyStatus] /\ vals = [action])
  | _ => True
  end.
Proof.
  intros Ha Hq Hh. destruct (action_facts _ _ Ha) as (Hw1 & Hw2 & Hw3 & Hw4 & Hw5 & Hw6 & Hw7 & Hw8).
  unfold fetch, parse_url, cycle_url.
  assert (Hcut : forall c, no_byte c "/cycles/" = true -> no_byte c cycleID = true -> no_byte c ("/" +:+ action) = true ->
    Cut ("/cycles/" +:+ cycleID +:+ "/" +:+ action) c = ("/cycles/" +:+ cycleID +:+ "/" +:+ action, "")).
  { intros c H1 H2 H3. apply Cut_absent. by rewrite !no_byte_app, H1, H2, <-no_byte_app. }
  rewrite Hcut by done. destruct (negb _); [done|]. cbn [unescape]. rewrite Hcut by done.
  pose proof (EscapedPath_around "/cycles/" cycleID action eq_refl) as He. change (String slash action) with ("/" +:+ action) in He.
  specialize (He Hw6). destruct (unescape cycleID) as [id|]; [|by rewrite He]. destruct He as (x & -> & Hx). cbn [option_map].
  set (e := "/cycles/" +:+ x +:+ "/" +:+ action).
  destruct (clean_last ("/cycles/" +:+ x) action Hw1 eq_refl) as (es & Hes & Hc). rewrite <-string_app_assoc in Hc. fold e in Hc.
  destruct (decide (cleanPath e = e)) as [E|E].
  - rewrite (follow_clean 9), follow_zero by done. unfold e at 1. rewrite segments_around by done.
    destruct (matchMethodAndPath _ _ _) as [[h vals]|] eqn:Em; [|by destruct (findHandler _ _ _)]. split; [done|]. left. split; [done|].
    apply (post_route _ _ hw) in Em as (-> & e0 & Es & He0 & ->); [|done|].
    2: { intros Es%map_eq_nil. by apply Split_nonempty in Es. }
    split; [done|]. exists id. split; [done|]. destruct (Split x slash) as [|y [|? ?]] eqn:Ey; [done| |done].
    apply Split_single in Ey as ->. injection Es as Es. destruct (String.eqb_spec x "") as [->|]; [by destruct He0|].
    rewrite Hx in Es. cbn in Es. by subst e0.
  - rewrite (follow_redirect 8), follow_zero by done || apply redirect_clean. rewrite Hc.
    pose proof (escape_abs (es ++ [action]) false) as Hesc. cbn [slash_end] in Hesc. rewrite !string_app_nil_r in Hesc. rewrite Hesc, map_app. cbn [map]. rewrite Hw5.
    rewrite segments_abs, map_app.
    2: by destruct (map escape es).
    2: { rewrite <-Hw5 at 1. change [escape action] with (map escape [action]). rewrite <-map_app. apply List.Forall_map. eapply Forall_impl; [|apply escape_name].
         apply Forall_app. split; [done|]. by repeat constructor. }
    cbn [map]. rewrite Hw3. cbn [default].
    destruct (matchMethodAndPath _ _ _) as [[h vals]|] eqn:Em; [|by destruct (findHandler _ _ _)]. split; [done|]. right. split; [done|].
    by apply (get_route _ _ hw) in Em.
Qed.

(** The mux is the list of its patterns.  Registering the routes does not panic; whatever the method
    and the segments of a clean path, the search of the routing tree finds a route exactly when the
    pattern of the route takes the method and matches the segments, with the values of its
    wildcards, and no other pattern does. *)
Theorem mux_serves (method : string) (segs : list string) : NewServer_mux = Some routes /\
  (forall h vals, matchMethodAndPath routes method segs = Some (h, vals) <->
     exists p, In (p, h) routes /\ takes p method /\ seg_match (pt_segs p) segs = Some vals) /\
  (forall p h v p' h' v', In (p, h) routes -> In (p', h') routes -> takes p method -> takes p' method ->
     seg_match (pt_segs p) segs = Some v -> seg_match (pt_segs p') segs = Some v' -> p = p' /\ h = h' /\ v = v').
Proof.
  split; [vm_compute; reflexivity|]. split; [intros; apply match_routes|]. intros p h v p' h' v' Hp Hp' Ht Ht' Hm Hm'.
  assert (E : pt_method p = pt_method p').
  { destruct (routes_methods _ _ Hp) as [E|E], (routes_methods _ _ Hp') as [E'|E'], Ht as [T|[-> T]], Ht' as [T'|[T0 T']]; congruence. }
  pose proof (routes_apart _ _ _ _ segs Hp Hp' E (mk_is_Some _ _ Hm) (mk_is_Some _ _ Hm')) as [= <- <-]. naive_solver.
Qed.

(** One redirect at most is followed: the client never gives up on the daemon's redirects, and every request
    ends as it does with one of them. *)
Theorem redirects_end (method tail : string) :
  fetch routes method tail <> TooManyRedirects /\
  fetch routes method tail = match parse_url tail with None => Unsendable | Some (path, query) => follow 1 routes method path query end.
Proof.
  unfold fetch. destruct (parse_url tail) as [[path query]|]; [|done].
  destruct (no_byte " "%char query) eqn:Hq; [|by cbn [follow]; rewrite Hq].
  destruct (decide (cleanPath path = path)) as [E|E].
  - rewrite (follow_clean 9), (follow_clean 1), follow_zero by done. split; [|done].
    destruct (matchMethodAndPath _ _ _) as [[]|]; [done|]. by destruct (findHandler _ _ _).
  - rewrite (follow_redirect 8), (follow_redirect 0), follow_zero by (done || apply redirect_clean || by apply no_byte_spaceless). split; [|done].
    destruct (matchMethodAndPath _ _ _) as [[]|]; [done|]. by destruct (findHandler _ _ _).
Qed.

(** ** The cycle commands over the wire *)

(** The answers of the mux itself. *)
Definition mux_answer (a : Arrival Endpoint) : Reply :=
  match a with
  | BadRequest => Status 400 "400 Bad Request"
  | NotAllowed => error_reply 405 "Method Not Allowed"
  | Missing => error_reply 404 "404 page not found"
  | _ => NoReply
  end.

Section Wired.
Context {World : Type}.
Variable ops : CycleOps World.
Variable exec : World -> list string -> World * CmdResult.
Variable file_exists : World -> string -> bool.
Variables bad internal random : string.
Variable cyclePipeline : option (Pipeline World).
(** The handlers of other components, and those of the events and of an orchestration. *)
Variable other : CycleServer World -> Endpoint -> list string -> string -> string -> option (CycleServer World * Reply).

(** One request to the daemon; [None]: a panic.  A redirect drops the body. *)
Definition cycle_http (sv : CycleServer World) (method tail body : string) : option (CycleServer World * Reply) :=
  match fetch routes method tail with
  | Arrives method' h vals query =>
      let body := if String.eqb method' method then body else "" in
      match h, vals with
      | HCreateCycle, [] => serve_create ops bad internal sv body random
      | HGetCycle, [id] => Some (serve_get ops sv id)
      | HCycleLedger, [id] => Some (serve_ledger ops internal sv id)
      | HStepCycle, [id] => serve_step ops exec file_exists internal cyclePipeline sv id body
      | HHaltCycle, [id] => serve_halt ops sv id body
      | _, _ => other sv h vals query body
      end
  | a => Some (sv, mux_answer a)
  end.

(** The daemon in a state, as the commands see it: each request is answered from that state. *)
Definition wired (sv : CycleServer World) : CycleDaemon :=
  let answer o := match o with Some (_, r) => r | None => NoReply end in
  mkCycleDaemon (fun tail => answer (cycle_http sv "GET" tail "")) (fun tail body => answer (cycle_http sv "POST" tail body)).

(** What the theorems of [CycleClient.v] ask of a daemon, for a plain name. *)
Lemma wired_answers sv id : plain id = true ->
  cd_get (wired sv) ("/cycles/" +:+ id) = snd (serve_get ops sv id) /\
  cd_get (wired sv) ("/cycles/" +:+ id +:+ "/ledger") = snd (serve_ledger ops internal sv id) /\
  (forall sv' body r, serve_create ops bad internal sv body random = Some (sv', r) -> cd_post (wired sv) "/cycles" body = r) /\
  (forall sv' body r, serve_step ops exec file_exists internal cyclePipeline sv id body = Some (sv', r) ->
     cd_post (wired sv) ("/cycles/" +:+ id +:+ "/step") body = r) /\
  (forall sv' body r, serve_halt ops sv id body = Some (sv', r) -> cd_post (wired sv) ("/cycles/" +:+ id +:+ "/halt") body = r).
Proof.
  intros H. destruct (plain_requests id "" H eq_refl) as (_ & _ & _ & _ & _ & _ & _ & _ & _ & _ & Hc & Hg & Hl & Hs & Hh & _).
  unfold cycle_url in *. rewrite string_app_nil_r in Hg.
  cbn [wired cd_get cd_post]. unfold cycle_http. rewrite Hc, Hg, Hl, Hs, Hh. cbn.
  split_and!; [by destruct (serve_get _ _ _)|by destruct (serve_ledger _ _ _)|by intros ??? ->..].
Qed.

(** A cycle can be worked on under the name it is printed with.  When the daemon creates a cycle for [cycle
    new], the command prints it, and from then on [cycle next] with the printed id, over the same
    routes, is a step of that cycle: it prints the state the step left, or the reason the daemon
    refused it for. *)
Theorem new_then_next home sv sv' b state goal branch maxCycles maxDurationMinutes autoGoal agents workingDir localGates auditCmd polishTestCmd :
  let req := new_request goal branch maxCycles maxDurationMinutes autoGoal agents workingDir localGates auditCmd polishTestCmd in
  NewCycleRequest_wf req = true -> CycleState_wf state = true -> random = hex_encode b ->
  handleCreateCycle ops sv req random = Some (sv', SCreated state) ->
  runCycleNew home (Some (wired sv)) goal branch maxCycles maxDurationMinutes autoGoal agents workingDir localGates auditCmd polishTestCmd =
    mkPrinted (created_text home state) None /\
  forall next sv2 s, utf8_valid next = true -> (forall state2, s = SOk state2 -> CycleState_wf state2 = true) ->
    handleStepCycle ops exec file_exists cyclePipeline sv' (s_ID state) next = Some (sv2, s) ->
    runCycleNext (Some (wired sv')) (s_ID state) next =
      match s with
      | SOk state2 => mkPrinted (stepped_text state2) None
      | _ => match reply "cycle not found" "next_cycle_goal is empty" ("read ledger: " +:+ internal) "" s with
             | Status code body => if (code =? 200)%Z then stops XDecode else stops (XFailed "step cycle" code (TrimSpace body))
             | NoReply => stops (XRequest "step cycle")
             end
      end.
Proof.
  intros req Hq Hs Hb Hc. destruct (wired_answers sv "x" eq_refl) as (_ & _ & Hnew & _). destruct (created_state _ _ _ _ _ _ Hc) as (Hid & _).
  split; [eapply new_creates; eauto|].
  intros next sv2 s Hnext Hw Hstep.
  assert (Hplain : plain (s_ID state) = true) by (rewrite Hid, Hb; apply (made_plain _ 0 b)).
  destruct (wired_answers sv' (s_ID state) Hplain) as (_ & _ & _ & Hd & _).
  assert (Hp : cd_post (wired sv') ("/cycles/" +:+ s_ID state +:+ "/step") (encode (encode_struct StepRequest_fields next)) =
    reply "cycle not found" "next_cycle_goal is empty" ("read ledger: " +:+ internal) "" s).
  { apply (Hd sv2). unfold serve_step. rewrite decode_kept_encode by by apply StepRequest_roundtrip. by rewrite Hstep. }
  unfold runCycleNext, change. rewrite Hp.
  destruct s; cbn [reply error_reply]; try done; cbn [negb Z.eqb Pos.eqb]; try done; by rewrite state_read by by apply Hw.
Qed.
End Wired.

(** ** Witnesses *)

Lemma requests_arrive_witness : fetch routes "POST" (done_url "rly_7_00ff" "alice") = Arrives "POST" HRallyDone ["rly_7_00ff"] "as=alice" /\
  fetch routes "GET" (next_url "7-1" "") = Arrives "GET" HNextTurn ["7-1"] "as=".
Proof.
  destruct (requests_arrive "rly_7_00ff" "alice" eq_refl eq_refl) as (_ & _ & H & _).
  destruct (requests_arrive "7-1" "" eq_refl eq_refl) as (_ & _ & _ & _ & _ & _ & H' & _). by split.
Defined.

(** The percent encoding of another id, and a name that is cleaned away. *)
Definition landed (a : Arrival Endpoint) (cycleID action : string) (hw : Endpoint) : Prop :=
  match a with
  | Arrives method h vals query => query = "" /\
      (method = "POST" /\ h = hw /\ (exists id, unescape cycleID = Some id /\ vals = [id]) \/
       method = "GET" /\ In h [HGetCycle; HGetSession; HRallyStatus] /\ vals = [action])
  | _ => True
  end.
Lemma posts_land_witness :
  (fetch routes "POST" (cycle_url "%63yc_1" "/halt") = Arrives "POST" HHaltCycle ["cyc_1"] "" /\
   landed (fetch routes "POST" (cycle_url "%63yc_1" "/halt")) "%63yc_1" "halt" HHaltCycle) /\
  (fetch routes "POST" (cycle_url "../cycles" "/step") = Arrives "GET" HGetCycle ["step"] "" /\
   landed (fetch routes "POST" (cycle_url "../cycles" "/step")) "../cycles" "step" HStepCycle).
Proof.
  split; (split; [vm_compute; reflexivity|]).
  - apply (posts_land "%63yc_1" "halt" HHaltCycle); [cbn; tauto|reflexivity|reflexivity].
  - apply (posts_land "../cycles" "step" HStepCycle); [cbn; tauto|reflexivity|reflexivity].
Defined.

Definition wire_new : CycleServer unit * CycleApi.Status :=
  default (newCycleServer tt, SNotFound) (handleCreateCycle demo_ops (newCycleServer tt) (new_request "fix: a" "" 3 0 true "" "" [] "" "") (hex_encode "r")).
Definition wire_next : CycleServer unit * CycleApi.Status :=
  default (newCycleServer tt, SNotFound) (handleStepCycle demo_ops demo_exec no_files demo_pipeline (fst wire_new) "cyc_7_72" "fix: b").
Definition wire_state : CycleState := match snd wire_new with SCreated s => s | _ => CycleState_zero end.
Definition no_other (sv : CycleServer unit) (h : Endpoint) (vals : list string) (query body : string) : option (CycleServer unit * Reply) := Some (sv, NoReply).

Lemma new_then_next_witness :
  runCycleNext (Some (wired demo_ops demo_exec no_files "" "" (hex_encode "r") demo_pipeline no_other (fst wire_new))) (s_ID wire_state) "fix: b" =
    mkPrinted (stepped_text (answered wire_next)) None.
Proof.
  destruct (new_then_next demo_ops demo_exec no_files "" "" (hex_encode "r") demo_pipeline no_other (inr "/home/u") (newCycleServer tt) (fst wire_new)
    "r" wire_state "fix: a" "" 3 0 true "" "" [] "" "") as (_ & H).
  - vm_compute. reflexivity.
  - vm_compute. reflexivity.
  - reflexivity.
  - vm_compute. reflexivity.
  - specialize (H "fix: b" (fst wire_next) (SOk (answered wire_next)) eq_refl).
    apply H; [intros s [= <-]; vm_compute; reflexivity|vm_compute; reflexivity].
Defined.
