(* ===== verification/Driver.v ===== *)
(** * The cycle driver and the orchestrator

    [internal/cycle/driver.go]: one gated step, the single-agent loop, goal discovery;
    [internal/cycle/orchestrator.go]: one iteration of the multi-agent loop (stuck and
    budget guards, agent turn, handshake, step, persist) and the loop itself.

    The state of the process is the outside world, the state file and the ledger.  The
    world says which reads, writes, appends and sleeps fail; a write that fails may have
    replaced the file before it failed (the backup is written last).  Each driver owns its
    file: other writers are [StateFile.v]'s, which also has the text of the file; by [Write_Read] a
    read after a write without an error returns the state written, as here. *)

From S2P Require Import Prelude GoStrings Json Codec Contract Ledger Stuck Cycle.
From Stdlib Require Import Ascii String.
#[local] Open Scope string_scope.

(** ** The process *)

Section Process.
Context {World : Type}.

(** What the driver asks of the world. *)
Record WorldOps := mkWorldOps {
  wo_clock : World -> Z;
  wo_read_fault : World -> World * option string;
  (** The error of a write, and whether the file was replaced before it. *)
  wo_write_fault : World -> World * option (string * bool);
  wo_append_fault : World -> World * option string;
  wo_ledger_fault : World -> World * option string;
  wo_sleep : World -> Z -> World * option string;
  wo_pause : World -> Z -> World }.
Variable ops : WorldOps.

(** The ledger is [None] when none is injected. *)
(* src: internal/cycle/driver.go 43-52 Driver *)
Record Sys := mkSys { sy_world : World; sy_file : option CycleState; sy_ledger : option (list HarnessLedgerEntry) }.
#[local] Instance eta_Sys : Eta Sys := fun r => mkSys (sy_world r) (sy_file r) (sy_ledger r).

Definition now (sys : Sys) : Z := wo_clock ops (sy_world sys).

(** A missing file reads as the zero state. *)
(* src: internal/cycle/sync.go 31-54 StateFileSync.Read *)
Definition sync_Read (sys : Sys) : Sys * (string + CycleState) :=
  let '(w, e) := wo_read_fault ops (sy_world sys) in
  (mkSys w (sy_file sys) (sy_ledger sys), match e with Some e => inl e | None => inr (default CycleState_zero (sy_file sys)) end).

(* src: internal/cycle/sync.go 58-122 StateFileSync.Write *)
Definition sync_Write (sys : Sys) (state : CycleState) : Sys * option string :=
  let '(w, e) := wo_write_fault ops (sy_world sys) in
  match e with
  | None => (mkSys w (Some state) (sy_ledger sys), None)
  | Some (e, replaced) => (mkSys w (if replaced then Some state else sy_file sys) (sy_ledger sys), Some e)
  end.

(** Append to an injected ledger; without one nothing happens. *)
Definition ledger_Append (sys : Sys) (entry : HarnessLedgerEntry) : Sys * option string :=
  match sy_ledger sys with
  | None => (sys, None)
  | Some l =>
      let '(w, e) := wo_append_fault ops (sy_world sys) in
      match e with
      | None => (mkSys w (sy_file sys) (Some (l ++ [entry])%list), None)
      | Some e => (mkSys w (sy_file sys) (Some l), Some e)
      end
  end.

Definition append_all (sys : Sys) (entries : list HarnessLedgerEntry) : Sys :=
  foldl (fun sys e => fst (ledger_Append sys e)) sys entries.

(** ** One step *)

(** The entries of a successful step. *)
(* src: internal/cycle/driver.go 224-249 Driver.Step *)
Definition success_entries (at_ : Z) (id : string) (rs : list GateReport) : list HarnessLedgerEntry :=
  (map (NewGateLedgerEntry at_ id) rs ++
   [ NewHarnessLedgerEntry at_ id LedgerEventValidationGreen "gate pipeline passed" [];
     NewHarnessLedgerEntry at_ id LedgerEventCycleCompleted "cycle step completed" [] ])%list.

(* src: internal/cycle/driver.go 177-205 Driver.Step *)
Definition pin_gates (sys : Sys) (state : CycleState) : Sys :=
  let '(pinnedDigest, pins) := PinGates (s_LocalGates state) in
  let sys := fst (ledger_Append sys (NewGatesPinnedEntry (now sys) (s_ID state) pinnedDigest pins false)) in
  if GatesTampered pinnedDigest (s_LocalGates state) then
    let '(currentDigest, currentPins) := PinGates (s_LocalGates state) in
    fst (ledger_Append sys (NewGatesPinnedEntry (now sys) (s_ID state) currentDigest currentPins true))
  else sys.

Definition step_error (state : CycleState) (e : CycleError) : Result CycleState := Failure state e [].

(* src: internal/cycle/driver.go 162-252 Driver.Step *)
Definition Step (p : Pipeline World) (sys : Sys) (state : CycleState) : Sys * Result CycleState :=
  match p with
  | [] => (sys, step_error state (EOther "no pipeline configured"))
  | _ =>
      if String.eqb (TrimSpace (s_NextCycleGoal state)) "" then (sys, step_error state (EContract ErrGoalRequired))
      else
        let sys := pin_gates sys state in
        let '(w, result) := Execute (wo_clock ops) p (sy_world sys) state in
        let sys := sys <| sy_world := w |> in
        if IsFailure result then (sys, result)
        else
          let completed := CompleteCycle (now sys) (value result) in
          if IsFailure completed then (sys, completed)
          else
            let current := (value completed) <| s_NextCycleGoal := "" |> <| s_UpdatedAt := now sys |> in
            (append_all sys (success_entries (now sys) (s_ID current) (reports result)), Success current (reports result))
  end.

(** ** The single-agent loop *)

(** The error of a run: [None] is a nil error. *)
Definition RunResult : Type := option CycleError.

(* src: internal/cycle/driver.go 148-158 Driver.readWithRetry *)
Fixpoint read_loop (retries : nat) (i : Z) (lastErr : string) (sys : Sys) : Sys * (string + CycleState) :=
  match retries with
  | O => (sys, inl lastErr)
  | S retries =>
      let '(sys, r) := sync_Read sys in
      match r with
      | inr state => (sys, inr state)
      | inl e =>
          let sys := match retries with
                     | O => sys
                     | _ => sys <| sy_world := wo_pause ops (sy_world sys) ((i + 1) * 1000) |>
                     end in
          read_loop retries (i + 1) e sys
      end
  end.

(* src: internal/cycle/driver.go 143-160 Driver.readWithRetry *)
Definition readWithRetry (ReadRetries : Z) (sys : Sys) : Sys * (string + CycleState) :=
  let retries := if (ReadRetries <=? 0)%Z then 3%Z else ReadRetries in
  read_loop (Z.to_nat retries) 0 "" sys.

(** The driver: its pipeline, its retries and its goal discoverer. *)
(* src: internal/cycle/driver.go 43-52 Driver *)
Record Driver := mkDriver {
  d_pipeline : Pipeline World; d_ReadRetries : Z;
  d_goalDiscoverer : World -> CycleState -> World * (list string + string) }.

(** What an iteration does next. *)
Inductive Continue : Type := Stop (r : RunResult) | Again.

(** The goal of the next cycle, or the end of the run. *)
(* src: internal/cycle/driver.go 111-123 Driver.Run *)
Definition next_goal (d : Driver) (sys : Sys) (next : CycleState) : Sys * (RunResult + CycleState) :=
  if s_AutoGoal next && negb (s_Halted next) && String.eqb (TrimSpace (s_NextCycleGoal next)) "" then
    let '(w, g) := d_goalDiscoverer d (sy_world sys) next in
    let sys := sys <| sy_world := w |> in
    match g with
    | inl errs => (sys, inl (Some (EOther ("goal discovery: goal discovery: all strategies failed to run: " +:+ Join errs newline))))
    | inr goal =>
        if String.eqb goal "" then
          let halted := value (Halt (now sys) next HaltSuccess) in
          (fst (sync_Write sys halted), inl None)
        else (sys, inr (next <| s_NextCycleGoal := goal |> <| s_UpdatedAt := now sys |>))
    end
  else (sys, inr next).

(* src: internal/cycle/driver.go 90-140 Driver.Run *)
Definition run_iteration (d : Driver) (sys : Sys) : Sys * Continue :=
  let '(sys, r) := readWithRetry (d_ReadRetries d) sys in
  match r with
  | inl e => (sys, Stop (Some (EOther ("read state: " +:+ e))))
  | inr state =>
      if negb (CanAdvance (now sys) state) then (sys, Stop None)
      else
        let '(sys, result) := Step (d_pipeline d) sys state in
        match err result with
        | Some (EHalted reason rs) => (fst (sync_Write sys (value result)), Stop (Some (EHalted reason rs)))
        | Some e => (sys, Stop (Some e))
        | None =>
            let '(sys, g) := next_goal d sys (value result) in
            match g with
            | inl r => (sys, Stop r)
            | inr next =>
                let '(sys, e) := sync_Write sys next in
                match e with
                | Some e => (sys, Stop (Some (EOther ("write state: " +:+ e))))
                | None =>
                    if negb (CanAdvance (now sys) next) then (sys, Stop None)
                    else
                      let '(w, e) := wo_sleep ops (sy_world sys) 30000 in
                      let sys := sys <| sy_world := w |> in
                      match e with Some e => (sys, Stop (Some (EOther e))) | None => (sys, Again) end
                end
            end
        end
  end.

(** [fuel] bounds the iterations; [None] when it runs out. *)
(* src: internal/cycle/driver.go 87-141 Driver.Run *)
Fixpoint Run (fuel : nat) (d : Driver) (sys : Sys) : option (Sys * RunResult) :=
  match fuel with
  | O => None
  | S fuel =>
      match run_iteration d sys with
      | (sys, Stop r) => Some (sys, r)
      | (sys, Again) => Run fuel d sys
      end
  end.

(** ** The orchestrator *)

(* src: pkg/contract/types.go 77-84 Task *)
Record Task := mkTask { t_Title : string; t_Body : string; t_RepoRoot : string }.

(** The request of a cycle turn; the fields the orchestrator leaves at zero are left out. *)
(* src: pkg/contract/types.go 96-122 TurnRequest *)
Record TurnRequest := mkTurnRequest {
  q_Session : string; q_Turn : Z; q_Role : string; q_RuntimeHint : string; q_Task : Task;
  q_TurnsLeft : Z; q_WorkContract : WorkContract }.

(* src: internal/cycle/orchestrator.go 251-266 cycleStateSummary *)
Record cycleStateSummary := mkSummary {
  cs_ID : string; cs_Phase : CyclePhase; cs_CompletedCycles : Z; cs_MaxCycles : Z; cs_Branch : string;
  cs_BaselineSHA : string; cs_PendingFiles : list string; cs_LocalGates : list string; cs_NextCycleGoal : string;
  cs_ViolationsFound : list Violation; cs_Halted : bool; cs_HaltReason : option HaltReason }.

(* src: internal/cycle/orchestrator.go 268-297 summariseState *)
Definition summariseState (state : CycleState) : cycleStateSummary :=
  mkSummary (s_ID state) (s_Phase state) (s_CompletedCycles state) (s_MaxCycles state) (s_Branch state)
    (s_BaselineSHA state) (take 20 (s_PendingFiles state)) (take 20 (s_LocalGates state)) (s_NextCycleGoal state)
    (take 10 (s_ViolationsFound state)) (s_Halted state) (s_HaltReason state).

(** [json.Marshal(summary)]: the members, those with [omitempty] when they are not
    empty. *)
(* src: internal/cycle/orchestrator.go 253-266 cycleStateSummary *)
Definition summary_json (c : cycleStateSummary) : json :=
  let opt (b : bool) (kv : string * json) := if b then [] else [kv] in
  JObj ([("id", JStr (cs_ID c)); ("phase", JStr (phase_string (cs_Phase c)));
         ("completed_cycles", JNum (Itoa (cs_CompletedCycles c))); ("max_cycles", JNum (Itoa (cs_MaxCycles c)));
         ("branch", JStr (cs_Branch c))] ++
        opt (String.eqb (cs_BaselineSHA c) "") ("baseline_sha", JStr (cs_BaselineSHA c)) ++
        opt (match cs_PendingFiles c with [] => true | _ => false end) ("pending_files", JArr (map JStr (cs_PendingFiles c))) ++
        opt (match cs_LocalGates c with [] => true | _ => false end) ("local_gates", JArr (map JStr (cs_LocalGates c))) ++
        [("next_cycle_goal", JStr (cs_NextCycleGoal c))] ++
        opt (match cs_ViolationsFound c with [] => true | _ => false end)
          ("violations_found", JArr (map (encode_struct Violation_fields) (cs_ViolationsFound c))) ++
        [("halted", JBool (cs_Halted c))] ++
        match cs_HaltReason c with Some r => [("halt_reason", JStr (halt_string r))] | None => [] end)%list.

(* src: internal/cycle/orchestrator.go 299-322 MultiAgentOrchestrator.buildRequest *)
Definition buildRequest (state : CycleState) (agentName : string) (cfg : OrchestratorConfig) : TurnRequest :=
  mkTurnRequest (s_ID state) (s_CompletedCycles state + 1) agentName agentName
    (mkTask "autonomous-cycle" (encode (summary_json (summariseState state))) (o_WorkingDir cfg))
    (s_MaxCycles state - s_CompletedCycles state) (WorkContract_of_state state (o_WorkingDir cfg) (Some cfg)).

(** The adapters of the registry act on the world; [o_pipeline] is the state-aware factory,
    which replaces the pipeline of the driver when it is set. *)
(* src: internal/cycle/orchestrator.go 16-24 MultiAgentOrchestrator *)
Record Orchestrator := mkOrchestrator {
  oc_registry : string -> option (World -> TurnRequest -> World * (string + TurnResponse));
  oc_driver_pipeline : Pipeline World;
  oc_pipeline : option (CycleState -> Pipeline World) }.

(* src: internal/cycle/orchestrator.go 324-352 MultiAgentOrchestrator.applyResponse *)
Definition applyResponse (at_ : Z) (state : CycleState) (resp : TurnResponse) : CycleState * option HaltReason :=
  match ParseTurnPayload (r_Summary resp) with
  | (_, false) => (value (Halt at_ state HaltUnparseableTurn), Some HaltUnparseableTurn)
  | (payload, true) =>
      if p_HaltRequested payload then (value (Halt at_ state HaltUserRequested), Some HaltUserRequested)
      else
        let state := if negb (String.eqb (p_NextGoal payload) "") then state <| s_NextCycleGoal := p_NextGoal payload |> else state in
        let state := match p_ViolationsFound payload with [] => state | vs => value (AppendViolations at_ state vs) end in
        (state <| s_UpdatedAt := at_ |>, None)
  end.

(** The entry that makes a halt sticky. *)
Definition halted_entry (at_ : Z) (id : string) (reason : HaltReason) : HarnessLedgerEntry :=
  NewHarnessLedgerEntry at_ id LedgerEventCycleHalted (halt_string reason) [].

(** The state to persist, and the error: the halt itself unless the write fails. *)
(* src: internal/cycle/orchestrator.go 354-366 MultiAgentOrchestrator.handleHandshakeHalt *)
Definition handleHandshakeHalt (sys : Sys) (state : CycleState) (reason : HaltReason) : Sys * CycleError :=
  let sys := fst (ledger_Append sys (halted_entry (now sys) (s_ID state) reason)) in
  let '(sys, e) := sync_Write sys state in
  (sys, match e with Some e => EOther ("orchestrator write halted state: " +:+ e) | None => EHalted reason [] end).

(* src: internal/cycle/orchestrator.go 234-249 MultiAgentOrchestrator.appendTurnLedger *)
Definition appendTurnLedger (sys : Sys) (cycleID agentName : string) (resp : TurnResponse) : Sys * option CycleError :=
  match sy_ledger sys with
  | None => (sys, None)
  | Some _ =>
      let '(sys, e) := ledger_Append sys (NewAgentTurnLedgerEntry (now sys) cycleID agentName resp) in
      match e with
      | Some e => (sys, Some (EOther ("orchestrator append agent turn ledger: " +:+ e)))
      | None =>
          if String.eqb (r_HandoffTo resp) "" then (sys, None)
          else
            let '(sys, e) := ledger_Append sys (NewHandoffLedgerEntry (now sys) cycleID agentName resp) in
            (sys, match e with Some e => Some (EOther ("orchestrator append handoff ledger: " +:+ e)) | None => None end)
      end
  end.

(* src: internal/cycle/orchestrator.go 111-119 IterationOutcome *)
Record IterationOutcome := mkOutcome { io_State : CycleState; io_Advanced : bool; io_Terminal : bool }.

Definition stopped (state : CycleState) : IterationOutcome := mkOutcome state false false.

(** [o.ledger.ReadAll()], when a ledger is injected. *)
Definition ledger_ReadAll (sys : Sys) : Sys * (string + list HarnessLedgerEntry) :=
  let '(w, e) := wo_ledger_fault ops (sy_world sys) in
  (mkSys w (sy_file sys) (sy_ledger sys), match e with Some e => inl e | None => inr (default [] (sy_ledger sys)) end).

(** The reason to halt before the turn, if any. *)
(* src: internal/cycle/orchestrator.go 152-163 MultiAgentOrchestrator.RunOnce *)
Definition anti_spin (cfg : OrchestratorConfig) (entries : list HarnessLedgerEntry) : option HaltReason :=
  match Stuck entries with
  | Some reason => Some reason
  | None => if ExceedsLifetimeCeiling entries (o_MaxLifetimeTurns cfg) then Some HaltBudgetExceeded else None
  end.

(** The panic of an index below zero, which ends the process before anything else happens; as an
    error it ends the run. *)
Definition index_panic (i : Z) : CycleError := EOther ("panic: runtime error: index out of range [" +:+ Itoa i +:+ "]").

(** The part of an iteration after the guards: the agent turn, the handshake, the step.
    An error is [Some].  The quotient and the remainder of Go round towards zero: the index of a
    state whose count is negative is negative, or zero. *)
(* src: internal/cycle/orchestrator.go 177-232 MultiAgentOrchestrator.RunOnce *)
Definition run_turn (o : Orchestrator) (cfg : OrchestratorConfig) (agents : list string) (sys : Sys) (state : CycleState)
    : Sys * IterationOutcome * option CycleError :=
  let resetEvery := if (o_ResetEvery cfg <=? 0)%Z then 3%Z else o_ResetEvery cfg in
  let agentIdx := Z.rem (Z.quot (s_CompletedCycles state) resetEvery) (Z.of_nat (List.length agents)) in
  let agentName := nth (Z.to_nat agentIdx) agents "" in
  if (agentIdx <? 0)%Z then (sys, stopped state, Some (index_panic agentIdx))
  else
  match oc_registry o agentName with
  | None => (sys, stopped state, Some (EOther ("orchestrator: adapter " +:+ agentName +:+ " not found in registry")))
  | Some adapt =>
      let '(w, resp) := adapt (sy_world sys) (buildRequest state agentName cfg) in
      let sys := sys <| sy_world := w |> in
      match resp with
      | inl e => (sys, stopped state, Some (EOther ("orchestrator adapter " +:+ agentName +:+ " run: " +:+ e)))
      | inr resp =>
          let '(sys, e) := appendTurnLedger sys (s_ID state) agentName resp in
          match e with
          | Some e => (sys, stopped state, Some e)
          | None =>
              let '(state, halt) := applyResponse (now sys) state resp in
              match halt with
              | Some reason => let '(sys, e) := handleHandshakeHalt sys state reason in (sys, stopped state, Some e)
              | None =>
                  let p := match oc_pipeline o with Some f => f state | None => oc_driver_pipeline o end in
                  let '(sys, result) := Step p sys state in
                  match err result with
                  | Some (EHalted reason rs) =>
                      (fst (sync_Write sys (value result)), stopped (value result), Some (EHalted reason rs))
                  | Some e => (sys, stopped (value result), Some e)
                  | None =>
                      let state := value result in
                      let '(sys, e) := sync_Write sys state in
                      match e with
                      | Some e => (sys, stopped state, Some (EOther ("orchestrator write state: " +:+ e)))
                      | None => (sys, mkOutcome state true (negb (CanAdvance (now sys) state)), None)
                      end
                  end
              end
          end
      end
  end.

(* src: internal/cycle/orchestrator.go 121-232 MultiAgentOrchestrator.RunOnce *)
Definition RunOnce (o : Orchestrator) (cfg : OrchestratorConfig) (sys : Sys) (state : CycleState)
    : Sys * IterationOutcome * option CycleError :=
  match default [] (o_Agents cfg) with
  | [] => (sys, stopped state, Some (EOther "orchestrator: no agents configured"))
  | agents =>
      if negb (CanAdvance (now sys) state) then (sys, mkOutcome state false true, None)
      else
        match sy_ledger sys with
        | None => run_turn o cfg agents sys state
        | Some _ =>
            let '(sys, r) := ledger_ReadAll sys in
            match r with
            | inl e => (sys, stopped state, Some (EOther ("orchestrator read ledger: " +:+ e)))
            | inr entries =>
                match anti_spin cfg entries with
                | Some reason =>
                    let st := value (Halt (now sys) state reason) in
                    let '(sys, e) := handleHandshakeHalt sys st reason in (sys, stopped st, Some e)
                | None => run_turn o cfg agents sys state
                end
            end
        end
  end.

(** The loop after the guard; [None] when the fuel runs out. *)
(* src: internal/cycle/orchestrator.go 93-108 MultiAgentOrchestrator.Run *)
Fixpoint orchestrate_loop (fuel : nat) (o : Orchestrator) (cfg : OrchestratorConfig) (sys : Sys) : option (Sys * RunResult) :=
  match fuel with
  | O => None
  | S fuel =>
      let '(sys, r) := sync_Read sys in
      match r with
      | inl e => Some (sys, Some (EOther ("orchestrator read state: " +:+ e)))
      | inr state =>
          let '(sys, outcome, e) := RunOnce o cfg sys state in
          match e with
          | Some e => Some (sys, Some e)
          | None =>
              if io_Terminal outcome then Some (sys, None)
              else
                let '(w, e) := wo_sleep ops (sy_world sys) 30000 in
                let sys := sys <| sy_world := w |> in
                match e with Some e => Some (sys, Some (EOther e)) | None => orchestrate_loop fuel o cfg sys end
          end
      end
  end.

(* src: internal/cycle/orchestrator.go 68-109 MultiAgentOrchestrator.Run *)
Definition orchestrate (fuel : nat) (o : Orchestrator) (cfg : OrchestratorConfig) (sys : Sys) : option (Sys * RunResult) :=
  match default [] (o_Agents cfg) with
  | [] => Some (sys, Some (EOther "orchestrator: no agents configured"))
  | _ =>
      match sy_ledger sys with
      | None => orchestrate_loop fuel o cfg sys
      | Some _ =>
          let '(sys, r) := ledger_ReadAll sys in
          match r with
          | inl e => Some (sys, Some (EOther ("orchestrator read ledger: " +:+ e)))
          | inr entries =>
              match LedgerSealsResume entries with
              | Some reason => Some (sys, Some (EHalted reason []))
              | None => orchestrate_loop fuel o cfg sys
              end
          end
      end
  end.
End Process.
Arguments Sys World : clear implicits.
Arguments WorldOps World : clear implicits.
Arguments Driver World : clear implicits.
Arguments Orchestrator World : clear implicits.
#[export] Existing Instance eta_Sys.
