(* ===== verification/DriverSpec.v ===== *)
(** * DriverSpec: what a driver run guarantees

    The theorems on [Driver]: one step on every branch, the records it leaves in the
    ledger, the termination of both loops, the halts of the orchestrator and the rotation
    of its agents. *)

From S2P Require Import Prelude GoStrings Json Codec Contract Ledger Stuck Cycle Gates Driver.
From Stdlib Require Import Ascii String.
#[local] Open Scope string_scope.

Section Spec.
Context {World : Type} (ops : WorldOps World).
#[local] Arguments pin_gates : simpl never.
#[local] Arguments append_all : simpl never.

(** ** The ledger *)

Lemma ledger_Append_file (sys : Sys World) e : sy_file (fst (ledger_Append ops sys e)) = sy_file sys.
Proof. unfold ledger_Append. destruct (sy_ledger sys); [|done]. destruct (wo_append_fault ops _) as [w [?|]]; done. Qed.

Lemma append_all_file (sys : Sys World) es : sy_file (append_all ops sys es) = sy_file sys.
Proof.
  unfold append_all. revert sys. induction es as [|e es IH]; intros sys; cbn; [done|]. by rewrite IH, ledger_Append_file.
Qed.

(** The gates are pinned and never found tampered: the second digest is taken from the
    same command list. *)
Lemma pin_gates_pin (sys : Sys World) state :
  pin_gates ops sys state =
    fst (ledger_Append ops sys (NewGatesPinnedEntry (now ops sys) (s_ID state) (fst (PinGates (s_LocalGates state)))
                                  (snd (PinGates (s_LocalGates state))) false)).
Proof. unfold pin_gates, GatesTampered. cbn. by rewrite String.eqb_refl. Qed.

Lemma pin_gates_file (sys : Sys World) state : sy_file (pin_gates ops sys state) = sy_file sys.
Proof. by rewrite pin_gates_pin, ledger_Append_file. Qed.

(** Appends that never fail. *)
Definition appends_succeed : Prop := forall w, snd (wo_append_fault ops w) = None.

Lemma append_ok (sys : Sys World) l e :
  appends_succeed -> sy_ledger sys = Some l -> sy_ledger (fst (ledger_Append ops sys e)) = Some (l ++ [e])%list.
Proof.
  intros H Hl. unfold ledger_Append. rewrite Hl. specialize (H (sy_world sys)).
  destruct (wo_append_fault ops (sy_world sys)) as [w f]. cbn in H. by subst.
Qed.

Lemma append_entries_ok (sys : Sys World) l es :
  appends_succeed -> sy_ledger sys = Some l -> sy_ledger (append_all ops sys es) = Some (l ++ es)%list.
Proof.
  intros H. unfold append_all. revert sys l. induction es as [|e es IH]; intros sys l Hl; cbn; [by rewrite app_nil_r|].
  rewrite (IH _ (l ++ [e])%list) by by apply append_ok. by rewrite <- app_assoc.
Qed.

(** ** One step *)

Lemma Step_cases (p : Pipeline World) (sys : Sys World) state :
  (p = [] /\ Step ops p sys state = (sys, step_error state (EOther "no pipeline configured"))) \/
  (p <> [] /\ TrimSpace (s_NextCycleGoal state) = "" /\ Step ops p sys state = (sys, step_error state (EContract ErrGoalRequired))) \/
  (p <> [] /\ TrimSpace (s_NextCycleGoal state) <> "" /\
   Step ops p sys state =
     let sys := pin_gates ops sys state in
     let '(w, result) := Execute (wo_clock ops) p (sy_world sys) state in
     let sys := mkSys w (sy_file sys) (sy_ledger sys) in
     if IsFailure result then (sys, result)
     else let completed := CompleteCycle (now ops sys) (value result) in
          if IsFailure completed then (sys, completed)
          else let current := (value completed) <| s_NextCycleGoal := "" |> <| s_UpdatedAt := now ops sys |> in
               (append_all ops sys (success_entries (now ops sys) (s_ID current) (reports result)), Success current (reports result))).
Proof.
  destruct p as [|g p]; [by left|right]. unfold Step.
  destruct (String.eqb_spec (TrimSpace (s_NextCycleGoal state)) ""); [by left|by right].
Qed.

(** What the success of a step does to the state. *)
Definition stepped (at_ : Z) (s s' : CycleState) : Prop :=
  exists s1, same_plan s s1 /\
    s' = s1 <| s_CompletedCycles := (s_CompletedCycles s1 + 1)%Z |> <| s_Phase := CyclePhasePreflight |>
            <| s_NextCycleGoal := "" |> <| s_UpdatedAt := at_ |>.

Lemma Step_success p (sys sys' : Sys World) state r :
  FramedPipeline p -> Step ops p sys state = (sys', r) -> err r = None ->
  exists w s1, passes p (sy_world (pin_gates ops sys state)) state (reports r) w s1 /\ s_Halted state = false /\
    same_plan state s1 /\ value r = s1 <| s_CompletedCycles := (s_CompletedCycles s1 + 1)%Z |> <| s_Phase := CyclePhasePreflight |>
            <| s_NextCycleGoal := "" |> <| s_UpdatedAt := wo_clock ops w |> /\
    sys' = append_all ops (mkSys w (sy_file sys) (sy_ledger (pin_gates ops sys state)))
             (success_entries (wo_clock ops w) (s_ID state) (reports r)).
Proof.
  intros HF HS Hr. destruct (Step_cases p sys state) as [(_ & E)|[(_ & _ & E)|(_ & _ & E)]]; rewrite E in HS.
  1,2: injection HS as <- <-; done.
  cbn zeta in HS. destruct (Execute (wo_clock ops) p _ state) as [w result] eqn:Ex.
  destruct (IsFailure result) eqn:Hf; [injection HS as <- <-; unfold IsFailure in Hf; by rewrite Hr in Hf|].
  assert (result = Success (value result) (reports result)) as Es.
  { destruct result as [v e rs]. unfold IsFailure in Hf. cbn in Hf |- *. by destruct e. }
  rewrite Es in Ex. apply (proj1 (Execute_cases (wo_clock ops) p _ state)) in Ex. pose proof (passes_frame _ _ _ _ _ _ HF Ex) as Hp.
  unfold CompleteCycle in HS. rewrite (sp_Halted _ _ Hp) in HS. destruct (s_Halted state) eqn:Hh; cbn in HS.
  - injection HS as <- <-. done.
  - injection HS as <- <-. exists w, (value result). cbn. rewrite pin_gates_file, (sp_ID _ _ Hp). by split_and!.
Qed.

Lemma Step_failure p (sys sys' : Sys World) state r e :
  FramedPipeline p -> Step ops p sys state = (sys', r) -> err r = Some e ->
  sy_file sys' = sy_file sys /\
  ((sys' = sys /\ value r = state /\ (p = [] \/ TrimSpace (s_NextCycleGoal state) = "")) \/
   (exists rs reason w s', stops (wo_clock ops) p (sy_world (pin_gates ops sys state)) state rs reason w s' /\
      e = EHalted reason rs /\ value r = s' /\ sys' = mkSys w (sy_file sys) (sy_ledger (pin_gates ops sys state))) \/
   (s_Halted state = true /\ e = EContract ErrCycleHalted)).
Proof.
  intros HF HS Hr. destruct (Step_cases p sys state) as [(Hp & E)|[(Hp & Hg & E)|(Hp & Hg & E)]]; rewrite E in HS.
  - injection HS as <- <-. split; [done|]. left. by split_and!; [..|left].
  - injection HS as <- <-. split; [done|]. left. by split_and!; [..|right].
  - cbn zeta in HS. destruct (Execute (wo_clock ops) p _ state) as [w result] eqn:Ex.
    destruct (IsFailure result) eqn:Hf.
    + injection HS as <- <-. cbn. rewrite pin_gates_file. split; [done|]. right. left.
      assert (result = Failure (value result) e (reports result)) as Es by (destruct result as [v e' rs]; cbn in *; by subst).
      rewrite Es in Ex. apply (proj2 (Execute_cases (wo_clock ops) p _ state)) in Ex as (reason & -> & Hs).
      exists (reports result), reason, w, (value result). by split_and!.
    + assert (result = Success (value result) (reports result)) as Es.
      { destruct result as [v e' rs]. unfold IsFailure in Hf. cbn in Hf |- *. by destruct e'. }
      rewrite Es in Ex. apply (proj1 (Execute_cases (wo_clock ops) p _ state)) in Ex. pose proof (passes_frame _ _ _ _ _ _ HF Ex) as Hpl.
      unfold CompleteCycle in HS. rewrite (sp_Halted _ _ Hpl) in HS. destruct (s_Halted state) eqn:Hh; cbn in HS.
      * injection HS as <- <-. cbn in *. rewrite pin_gates_file. split; [done|]. right. right. by simplify_eq.
      * by injection HS as <- <-.
Qed.

(** One step, on every branch.  Without a pipeline or a goal it fails and touches
    nothing.  Otherwise it pins the gates; if a gate fails the result is the state that
    gate sealed; if all pass the result has one more completed cycle, no goal and the
    first phase, and keeps the identity, the plan and the limits of the cycle.  The state
    file is never written by a step. *)
Theorem Step_spec p (sys sys' : Sys World) state r :
  FramedPipeline p -> s_Halted state = false -> Step ops p sys state = (sys', r) ->
  sy_file sys' = sy_file sys /\
  match err r with
  | None =>
      exists w s1, passes p (sy_world (pin_gates ops sys state)) state (reports r) w s1 /\ same_plan state s1 /\
        value r = s1 <| s_CompletedCycles := (s_CompletedCycles state + 1)%Z |> <| s_Phase := CyclePhasePreflight |>
                     <| s_NextCycleGoal := "" |> <| s_UpdatedAt := wo_clock ops w |>
  | Some (EHalted reason rs) =>
      exists w, stops (wo_clock ops) p (sy_world (pin_gates ops sys state)) state rs reason w (value r)
  | Some _ => sys' = sys /\ value r = state /\ (p = [] \/ TrimSpace (s_NextCycleGoal state) = "")
  end.
Proof.
  intros HF Hh HS. destruct (err r) as [e|] eqn:Hr.
  - destruct (Step_failure _ _ _ _ _ _ HF HS Hr) as [Hfile [(-> & Hv & Hg)|[(rs & reason & w & s' & Hs & -> & Hv & Hsys)|(Hh' & _)]]].
    + split; [done|]. destruct (Step_cases p sys state) as [(_ & E)|[(_ & _ & E)|(Hp & Hg' & _)]]; [..|naive_solver];
        rewrite E in HS; injection HS as <-; cbn in Hr; simplify_eq; done.
    + split; [done|]. exists w. by rewrite Hv.
    + congruence.
  - destruct (Step_success _ _ _ _ _ HF HS Hr) as (w & s1 & Hp & _ & Hpl & Hv & Hsys). split.
    + by rewrite Hsys, append_all_file.
    + exists w, s1. split_and!; [done..|]. rewrite Hv. by rewrite (sp_Completed _ _ Hpl).
Qed.

(** ** What a step records *)

Lemma seal_tail entries e e' :
  Type_ e = LedgerEventValidationGreen -> Type_ e' <> LedgerEventCycleHalted ->
  LedgerSealsResume (entries ++ [e; e']) = None.
Proof.
  intros He He'. change [e; e'] with ([e] ++ [e'])%list. rewrite app_assoc, seal_snoc, seal_snoc, He.
  rewrite (proj2 (String.eqb_neq _ _) He'). by case_match.
Qed.

(** A successful step leaves its proof in the ledger.  If appends succeed, the ledger
    grows by the pin of the gate commands, never reported as tampered, one entry per gate
    report, a [validation_green] and a [cycle_completed], so that a sealed cycle may
    resume; a step that does not succeed records the pin at most, so no failed step can
    lift a seal. *)
Theorem step_ledger p (sys sys' : Sys World) state r l :
  FramedPipeline p -> s_Halted state = false -> appends_succeed -> sy_ledger sys = Some l ->
  Step ops p sys state = (sys', r) ->
  let pin := NewGatesPinnedEntry (now ops sys) (s_ID state) (fst (PinGates (s_LocalGates state)))
               (snd (PinGates (s_LocalGates state))) false in
  match err r with
  | None => exists at_, sy_ledger sys' = Some (l ++ pin :: success_entries at_ (s_ID state) (reports r))%list /\
                        LedgerSealsResume (default [] (sy_ledger sys')) = None
  | Some _ => sy_ledger sys' = Some l \/ sy_ledger sys' = Some (l ++ [pin])%list
  end /\
  LedgerSealsResume (l ++ [pin]) = LedgerSealsResume l.
Proof.
  intros HF Hh Hok Hl HS. cbn zeta.
  assert (Hpin : sy_ledger (pin_gates ops sys state) =
                 Some (l ++ [NewGatesPinnedEntry (now ops sys) (s_ID state) (fst (PinGates (s_LocalGates state)))
                               (snd (PinGates (s_LocalGates state))) false])%list) by (rewrite pin_gates_pin; by apply append_ok).
  split.
  - destruct (err r) as [e|] eqn:Hr.
    + destruct (Step_failure _ _ _ _ _ _ HF HS Hr) as [_ [(-> & _)|[(rs & reason & w & s' & _ & _ & _ & ->)|(Hh' & _)]]];
        [by left|right; by rewrite <- Hpin|congruence].
    + destruct (Step_success _ _ _ _ _ HF HS Hr) as (w & s1 & _ & _ & _ & _ & ->). exists (wo_clock ops w).
      erewrite append_entries_ok by done. rewrite <- app_assoc. split; [done|]. cbn [default]. unfold id, success_entries.
      rewrite (app_assoc _ _ [_; _]), (app_assoc l). by apply seal_tail.
  - rewrite seal_snoc. done.
Qed.

(** ** Warnings and the stuck detector *)

Lemma warned_entry at_ id rs rep :
  rep ∈ rs -> g_Passed rep = false ->
  (g_Gate rep, g_Stderr rep) ∈ map (fun e => (Ledger.Gate e, Summary e)) (failures (success_entries at_ id rs)).
Proof.
  intros Hin Hp. apply list_elem_of_fmap. exists (NewGateLedgerEntry at_ id rep).
  unfold NewGateLedgerEntry. rewrite Hp. cbn. split; [done|].
  unfold failures, success_entries. rewrite List.filter_app. apply elem_of_app. left.
  apply list_elem_of_In, filter_In. split; [|done]. apply in_map_iff. exists rep. split; [|by apply list_elem_of_In].
  unfold NewGateLedgerEntry. by rewrite Hp.
Qed.

Lemma occurrences_app {K} `{EqDecision K} (k : K) l l' : occurrences k (l ++ l') = (occurrences k l + occurrences k l')%nat.
Proof. unfold occurrences. by rewrite filter_app, length_app. Qed.

Lemma occurrences_elem {K} `{EqDecision K} (k : K) l : k ∈ l -> (1 <= occurrences k l)%nat.
Proof.
  intros H. unfold occurrences. destruct (filter (fun x => x = k) l) eqn:E; [|cbn; lia].
  exfalso. assert (k ∈ filter (fun x => x = k) l) as H' by by apply list_elem_of_filter. rewrite E in H'. by apply elem_of_nil in H'.
Qed.

(** Three completed cycles with the same warning halt the run as stuck.  A step
    records every report that did not pass, warnings included, as [gate_failed]; so three
    successful steps whose philosophy gate warned with the same message make the stuck
    detector fire, whatever else the ledger holds and although each cycle completed. *)
Theorem warned_steps_stuck l1 l2 l3 l4 t1 t2 t3 id rs1 rs2 rs3 rep1 rep2 rep3 :
  rep1 ∈ rs1 -> rep2 ∈ rs2 -> rep3 ∈ rs3 ->
  Forall (fun rep => g_Passed rep = false /\ g_Gate rep = g_Gate rep1 /\ g_Stderr rep = g_Stderr rep1) [rep1; rep2; rep3] ->
  Stuck (l1 ++ success_entries t1 id rs1 ++ l2 ++ success_entries t2 id rs2 ++ l3 ++ success_entries t3 id rs3 ++ l4) = Some HaltStuck.
Proof.
  intros H1 H2 H3 HF. inversion_clear HF as [|? ? [P1 _] HF']. inversion_clear HF' as [|? ? (P2 & G2 & S2) HF].
  inversion_clear HF as [|? ? (P3 & G3 & S3) _].
  apply (warned_entry t1 id) in H1; [|done]. apply (warned_entry t2 id) in H2; [|done]. apply (warned_entry t3 id) in H3; [|done].
  rewrite G2, S2 in H2. rewrite G3, S3 in H3.
  unfold Stuck. rewrite stuck_pass_spec. cbn [turnCount gateFailCount]. case_match; [done|].
  enough (E : some_count StuckRepeatGateFailThreshold (counter (map (fun e => (Ledger.Gate e, Summary e))
    (failures (l1 ++ success_entries t1 id rs1 ++ l2 ++ success_entries t2 id rs2 ++ l3 ++ success_entries t3 id rs3 ++ l4)%list))) = true)
    by by rewrite E.
  apply some_count_spec; [unfold StuckRepeatGateFailThreshold; lia|]. exists (g_Gate rep1, g_Stderr rep1).
  unfold failures in *. rewrite !List.filter_app, !map_app, !occurrences_app.
  apply occurrences_elem in H1, H2, H3. unfold StuckRepeatGateFailThreshold. lia.
Qed.

(** ** Termination of the single-agent loop *)

Lemma read_loop_file n i e (sys sys' : Sys World) r :
  read_loop ops n i e sys = (sys', r) -> sy_file sys' = sy_file sys /\ forall s, r = inr s -> s = default CycleState_zero (sy_file sys).
Proof.
  revert i e sys. induction n as [|n IH]; intros i e sys; cbn [read_loop]; [by intros [= <- <-]|].
  unfold sync_Read. destruct (wo_read_fault ops (sy_world sys)) as [w [f|]].
  - intros H. apply IH in H. by destruct n.
  - intros [= <- <-]. split; [done|]. by intros s [= <-].
Qed.

(** An iteration that goes on has written a state with one more completed cycle, and still
    below the limit. *)
Lemma run_iteration_again d (sys sys' : Sys World) :
  FramedPipeline (d_pipeline d) -> run_iteration ops d sys = (sys', Again) ->
  exists s', sy_file sys' = Some s' /\ let s := default CycleState_zero (sy_file sys) in
    s_CompletedCycles s' = (s_CompletedCycles s + 1)%Z /\ s_MaxCycles s' = s_MaxCycles s /\
    ((0 < s_MaxCycles s)%Z -> (s_CompletedCycles s' < s_MaxCycles s')%Z).
Proof.
  intros HF. unfold run_iteration, readWithRetry. destruct (read_loop _ _ _ _ _) as [sys1 [e|s]] eqn:Er; [done|].
  apply read_loop_file in Er as [Hfile Hs]. specialize (Hs s eq_refl). destruct (CanAdvance _ s) eqn:Hc; cbn [negb]; [|done].
  destruct (Step ops (d_pipeline d) sys1 s) as [sys2 r] eqn:Hstep.
  destruct (err r) as [[]|] eqn:Hr; [done..|]. destruct (Step_success _ _ _ _ _ HF Hstep Hr) as (w & s1 & _ & _ & Hpl & Hv & _).
  destruct (next_goal ops d sys2 (value r)) as [sys3 [?|next]] eqn:Hg; [done|].
  assert (Hn : s_CompletedCycles next = (s_CompletedCycles s + 1)%Z /\ s_MaxCycles next = s_MaxCycles s).
  { unfold next_goal in Hg. destruct (_ && _ && _).
    - destruct (d_goalDiscoverer d _ _) as [w' [?|g]]; [done|]. destruct (String.eqb g ""); [done|].
      injection Hg as <- <-. cbn. rewrite Hv. cbn. by rewrite (sp_Completed _ _ Hpl), (sp_Max _ _ Hpl).
    - injection Hg as <- <-. rewrite Hv. cbn. by rewrite (sp_Completed _ _ Hpl), (sp_Max _ _ Hpl). }
  destruct Hn as [Hn1 Hn2]. unfold sync_Write. destruct (wo_write_fault ops (sy_world sys3)) as [w4 [[e rep]|]]; [done|].
  destruct (CanAdvance _ next) eqn:Hc'; cbn [negb]; [|done]. destruct (wo_sleep ops _ _) as [w5 [?|]]; [done|].
  intros [= <-]. exists next. cbn. rewrite <- Hs. split_and!; [done..|]. intros Hmax.
  unfold CanAdvance in Hc'. destruct (s_Halted next); [done|]. rewrite Hn2 in *.
  destruct (Z.ltb_spec 0 (s_MaxCycles s)); [|lia]. cbn [andb] in Hc'. by destruct (Z.leb_spec (s_MaxCycles s) (s_CompletedCycles next)).
Qed.

(** C33: a bounded cycle ends.  Whatever the gates and goal discovery do, and whatever
    reads, writes and sleeps fail, a run over a state file with a cycle limit returns
    within that many iterations, a failed run included: the fuel is never what stops it. *)
Theorem Run_terminates fuel d (sys : Sys World) s :
  FramedPipeline (d_pipeline d) -> sy_file sys = Some s -> (0 < s_MaxCycles s)%Z ->
  (Z.to_nat (s_MaxCycles s - s_CompletedCycles s) < fuel)%nat ->
  exists sys' r, Run ops fuel d sys = Some (sys', r).
Proof.
  intros HF. revert sys s. induction fuel as [|fuel IH]; intros sys s Hfile Hmax Hfuel; [lia|].
  cbn [Run]. destruct (run_iteration ops d sys) as [sys' [r|]] eqn:Hi; [by eexists _, _|].
  apply run_iteration_again in Hi as (s' & Hs' & Hc & Hm & Hlt); [|done]. rewrite Hfile in Hc, Hm, Hlt. cbn in Hc, Hm, Hlt.
  apply (IH sys' s'); [done|lia|lia].
Qed.

(** ** The orchestrator *)

(** The agent whose turn it is. *)
Definition agent_index (cfg : OrchestratorConfig) (agents : list string) (state : CycleState) : Z :=
  let resetEvery := if (o_ResetEvery cfg <=? 0)%Z then 3%Z else o_ResetEvery cfg in
  Z.rem (Z.quot (s_CompletedCycles state) resetEvery) (Z.of_nat (List.length agents)).
Definition agent_of (cfg : OrchestratorConfig) (agents : list string) (state : CycleState) : string :=
  nth (Z.to_nat (agent_index cfg agents state)) agents "".

Definition pipeline_of (o : Orchestrator World) (state : CycleState) : Pipeline World :=
  match oc_pipeline o with Some f => f state | None => oc_driver_pipeline o end.

Lemma applyResponse_ok at_ state resp state' :
  applyResponse at_ state resp = (state', None) ->
  (exists payload, ParseTurnPayload (r_Summary resp) = (payload, true) /\ p_HaltRequested payload = false) /\
  s_CompletedCycles state' = s_CompletedCycles state /\ s_MaxCycles state' = s_MaxCycles state /\ s_Halted state' = s_Halted state.
Proof.
  unfold applyResponse. destruct (ParseTurnPayload (r_Summary resp)) as [payload [|]]; [|done].
  destruct (p_HaltRequested payload) eqn:Hh; [done|]. intros [= <-]. split; [by exists payload|].
  cbn. destruct (negb _), (p_ViolationsFound payload); done.
Qed.

(** A reason the parser reads back. *)
Definition halt_named (r : HaltReason) : bool := match r with HaltOther _ => false | _ => true end.

Lemma applyResponse_halt at_ state resp state' reason :
  applyResponse at_ state resp = (state', Some reason) -> s_Halted state' = true /\ s_HaltReason state' = Some reason /\ s_ID state' = s_ID state /\ halt_named reason = true.
Proof.
  unfold applyResponse. destruct (ParseTurnPayload (r_Summary resp)) as [payload [|]]; [|by intros [= <- <-]].
  destruct (p_HaltRequested payload) eqn:Hh; [by intros [= <- <-]|done].
Qed.

Lemma append_turn_file (sys : Sys World) id agent resp : sy_file (fst (appendTurnLedger ops sys id agent resp)) = sy_file sys.
Proof.
  unfold appendTurnLedger. destruct (sy_ledger sys); [|done].
  pose proof (ledger_Append_file sys (NewAgentTurnLedgerEntry (now ops sys) id agent resp)) as H1.
  destruct (ledger_Append ops sys _) as [sys1 [e|]]; cbn in *; [done|]. case_match; [done|].
  pose proof (ledger_Append_file sys1 (NewHandoffLedgerEntry (now ops sys1) id agent resp)) as H2.
  destruct (ledger_Append ops sys1 _) as [sys2 e2]; cbn in *. congruence.
Qed.

(** What an iteration that advances has done: the agent whose turn it is was asked; its turn
    was recorded; its response was a handshake that does not halt; every gate of the pipeline
    passed on the state it left; and the state with one more completed cycle is in the file. *)
Record advanced (o : Orchestrator World) (cfg : OrchestratorConfig) (agents : list string) (s : CycleState)
    (sys' : Sys World) (s' : CycleState) : Prop := {
  adv_index : (0 <= agent_index cfg agents s)%Z;
  adv_turn : exists adapt (sys0 sys1 : Sys World) w resp payload s1 reports w2 s2,
    oc_registry o (agent_of cfg agents s) = Some adapt /\
    adapt (sy_world sys0) (buildRequest s (agent_of cfg agents s) cfg) = (w, inr resp) /\
    appendTurnLedger ops (sys0 <| sy_world := w |>) (s_ID s) (agent_of cfg agents s) resp = (sys1, None) /\
    ParseTurnPayload (r_Summary resp) = (payload, true) /\ p_HaltRequested payload = false /\
    applyResponse (now ops sys1) s resp = (s1, None) /\
    passes (pipeline_of o s1) (sy_world (pin_gates ops sys1 s1)) s1 reports w2 s2 /\
    s' = s2 <| s_CompletedCycles := (s_CompletedCycles s2 + 1)%Z |> <| s_Phase := CyclePhasePreflight |>
            <| s_NextCycleGoal := "" |> <| s_UpdatedAt := wo_clock ops w2 |>;
  adv_file : sy_file sys' = Some s';
  adv_completed : s_CompletedCycles s' = (s_CompletedCycles s + 1)%Z;
  adv_max : s_MaxCycles s' = s_MaxCycles s;
  adv_halted : s_Halted s' = false }.

Lemma run_turn_advanced o cfg agents (sys sys' : Sys World) s out :
  (forall s, FramedPipeline (pipeline_of o s)) -> s_Halted s = false ->
  run_turn ops o cfg agents sys s = (sys', out, None) ->
  io_Advanced out = true /\ io_Terminal out = negb (CanAdvance (now ops sys') (io_State out)) /\
  advanced o cfg agents s sys' (io_State out).
Proof.
  intros HF Hh. unfold run_turn. fold (agent_index cfg agents s). fold (agent_of cfg agents s).
  destruct (Z.ltb_spec (agent_index cfg agents s) 0) as [|Hi]; [done|].
  destruct (oc_registry o _) as [adapt|] eqn:Hreg; [|done].
  destruct (adapt (sy_world sys) _) as [w [e|resp]] eqn:Hrun; [done|].
  destruct (appendTurnLedger ops _ _ _ _) as [sys1 [e|]] eqn:Hat; [done|].
  destruct (applyResponse _ s resp) as [s1 [reason|]] eqn:Ha; [by destruct (handleHandshakeHalt _ _ _ _)|].
  pose proof Ha as Ha'. apply applyResponse_ok in Ha as ((payload & Hp & Hhr) & Hc & Hm & Hh1). fold (pipeline_of o s1).
  destruct (Step ops (pipeline_of o s1) sys1 s1) as [sys2 r] eqn:Hstep. destruct (err r) as [[]|] eqn:Hr; [done..|].
  destruct (Step_success _ _ _ _ _ (HF s1) Hstep Hr) as (w2 & s2 & Hpass & _ & Hpl & Hv & _).
  destruct (sync_Write ops sys2 (value r)) as [sys3 [e|]] eqn:Hw; [done|]. intros [= <- <-]. split_and!; [done..|].
  split; cbn.
  - done.
  - by exists adapt, sys, sys1, w, resp, payload, s1, (reports r), w2, s2.
  - unfold sync_Write in Hw. destruct (wo_write_fault ops _) as [w3 [[? ?]|]]; [done|]. by injection Hw as <-.
  - rewrite Hv. cbn. by rewrite (sp_Completed _ _ Hpl), Hc.
  - rewrite Hv. cbn. by rewrite (sp_Max _ _ Hpl), Hm.
  - rewrite Hv. cbn. by rewrite (sp_Halted _ _ Hpl), Hh1.
Qed.

Lemma CanAdvance_not_halted t s : CanAdvance t s = true -> s_Halted s = false.
Proof. unfold CanAdvance. by destruct (s_Halted s). Qed.

Lemma RunOnce_ok o cfg (sys sys' : Sys World) s out :
  (forall s, FramedPipeline (pipeline_of o s)) -> RunOnce ops o cfg sys s = (sys', out, None) ->
  if CanAdvance (now ops sys) s
  then io_Advanced out = true /\ io_Terminal out = negb (CanAdvance (now ops sys') (io_State out)) /\
       advanced o cfg (default [] (o_Agents cfg)) s sys' (io_State out)
  else sys' = sys /\ out = mkOutcome s false true.
Proof.
  intros HF. unfold RunOnce. destruct (default [] (o_Agents cfg)) as [|a agents]; [done|].
  destruct (CanAdvance (now ops sys) s) eqn:Hc; cbn [negb]; [|by intros [= <- <-]].
  apply CanAdvance_not_halted in Hc. destruct (sy_ledger sys) as [l|]; [|intros H; by eapply run_turn_advanced].
  destruct (ledger_ReadAll ops sys) as [sys1 [e|entries]]; [done|].
  destruct (anti_spin cfg entries) as [reason|]; [by destruct (handleHandshakeHalt _ _ _ _)|].
  intros H. by eapply run_turn_advanced.
Qed.


(** A cycle whose count is negative has no agent: the index of one panics. *)
Lemma negative_index_panics o cfg agents (sys : Sys World) s : (agent_index cfg agents s < 0)%Z ->
  run_turn ops o cfg agents sys s = (sys, stopped s, Some (index_panic (agent_index cfg agents s))).
Proof. intros H. unfold run_turn. fold (agent_index cfg agents s). by apply Z.ltb_lt in H as ->. Qed.

(** ** Sticky halts *)

Lemma seal_halted l at_ id reason : halt_named reason = true ->
  LedgerSealsResume (l ++ [halted_entry at_ id reason]) = Some reason.
Proof. intros Hn. rewrite seal_snoc. cbn. unfold parseHaltReasonOrStuck. by destruct reason. Qed.

Lemma anti_spin_named cfg entries reason : anti_spin cfg entries = Some reason -> halt_named reason = true.
Proof.
  unfold anti_spin. destruct (Stuck entries) as [r|] eqn:E.
  - intros [= <-]. unfold Stuck in E. by repeat (case_match; [by simplify_eq|]).
  - case_match; [by intros [= <-]|done].
Qed.

Lemma ledger_Append_some (sys : Sys World) e : is_Some (sy_ledger sys) -> is_Some (sy_ledger (fst (ledger_Append ops sys e))).
Proof. unfold ledger_Append. intros [l ->]. by destruct (wo_append_fault ops _) as [w [?|]]; eexists. Qed.

Lemma ledger_Append_cases (sys sys' : Sys World) e r : is_Some (sy_ledger sys) -> ledger_Append ops sys e = (sys', r) ->
  sy_ledger sys' = match r with None => Some (default [] (sy_ledger sys) ++ [e])%list | Some _ => sy_ledger sys end.
Proof. unfold ledger_Append. intros [l ->]. by destruct (wo_append_fault ops _) as [w [?|]]; intros [= <- <-]. Qed.

(** What a halt by the guards or the handshake does: its record is appended, then its state
    written; the record seals the ledger unless that append fails, which is ignored. *)
Definition sealed_by (sys' : Sys World) (st : CycleState) (reason : HaltReason) : Prop :=
  exists sys1 sys2 e, is_Some (sy_ledger sys1) /\ ledger_Append ops sys1 (halted_entry (now ops sys1) (s_ID st) reason) = (sys2, e) /\
    sync_Write ops sys2 st = (sys', None) /\ sy_file sys' = Some st /\
    match e with
    | None => LedgerSealsResume (default [] (sy_ledger sys')) = Some reason
    | Some _ => sy_ledger sys' = sy_ledger sys1
    end.

Lemma handshake_halt (sys sys' : Sys World) s reason e :
  halt_named reason = true -> is_Some (sy_ledger sys) -> handleHandshakeHalt ops sys s reason = (sys', e) ->
  (e = EHalted reason [] /\ sealed_by sys' s reason) \/ exists t, e = EOther t.
Proof.
  intros Hn Hl. unfold handleHandshakeHalt. destruct (ledger_Append ops sys _) as [sys1 r] eqn:HA. cbn [fst].
  pose proof (ledger_Append_cases _ _ _ _ Hl HA) as HL.
  destruct (sync_Write ops sys1 s) as [sys2 [t|]] eqn:HW; intros [= <- <-]; [right; eauto|left]. split; [done|].
  assert (H2 : sy_file sys2 = Some s /\ sy_ledger sys2 = sy_ledger sys1).
  { unfold sync_Write in HW. destruct (wo_write_fault ops _) as [w [[? ?]|]]; [done|]. by injection HW as <-. }
  destruct H2 as [Hf HL2]. exists sys, sys1, r. split_and!; [done..|]. rewrite HL2, HL. destruct r; [done|]. cbn [default]. by apply seal_halted.
Qed.

Lemma append_turn_ledger (sys sys' : Sys World) id agent resp e :
  is_Some (sy_ledger sys) -> appendTurnLedger ops sys id agent resp = (sys', e) -> is_Some (sy_ledger sys').
Proof.
  intros Hl. unfold appendTurnLedger. destruct (sy_ledger sys) as [l|] eqn:El; [|by destruct Hl].
  pose proof (ledger_Append_some sys (NewAgentTurnLedgerEntry (now ops sys) id agent resp)) as H1. rewrite El in H1. specialize (H1 Hl).
  destruct (ledger_Append ops sys _) as [sys1 [e1|]]; cbn [fst] in H1; [by intros [= <- <-]|]. case_match; [by intros [= <- <-]|].
  pose proof (ledger_Append_some sys1 (NewHandoffLedgerEntry (now ops sys1) id agent resp) H1) as H2.
  destruct (ledger_Append ops sys1 _) as [sys2 e2]; cbn [fst] in H2. by intros [= <- _].
Qed.

(** The halt of a gate: the gates before it passed, it failed with that reason, and its report is
    the last of those the error carries. *)
Definition stopped_by_gate (o : Orchestrator World) (st : CycleState) (reason : HaltReason) (rs : list GateReport) : Prop :=
  exists (sys1 : Sys World) s1 w, stops (wo_clock ops) (pipeline_of o s1) (sy_world (pin_gates ops sys1 s1)) s1 rs reason w st.

(** What a halt leaves. *)
Definition halts_with (o : Orchestrator World) (sys' : Sys World) (st : CycleState) (reason : HaltReason) (rs : list GateReport) : Prop :=
  s_Halted st = true /\ s_HaltReason st = Some reason /\ (forall t, CanAdvance t st = false) /\
  ((rs = [] /\ sealed_by sys' st reason) \/ stopped_by_gate o st reason rs).

Lemma halted_cannot_advance st t : s_Halted st = true -> CanAdvance t st = false.
Proof. intros E. unfold CanAdvance. by rewrite E. Qed.

Lemma handshake_halts o (sys sys' : Sys World) s reason reason' rs :
  halt_named reason' = true -> is_Some (sy_ledger sys) -> s_Halted s = true -> s_HaltReason s = Some reason' ->
  handleHandshakeHalt ops sys s reason' = (sys', EHalted reason rs) -> halts_with o sys' s reason rs.
Proof.
  intros Hn Hl Hh Hr H. destruct (handshake_halt _ _ _ _ _ Hn Hl H) as [[[= -> ->] Hs]|[t [=]]].
  split_and!; [done..| |by left]. intros t. by apply halted_cannot_advance.
Qed.

Lemma Step_halts o (sys sys' sys2 : Sys World) s r reason rs :
  FramedPipeline (pipeline_of o s) -> s_Halted s = false -> Step ops (pipeline_of o s) sys s = (sys', r) -> err r = Some (EHalted reason rs) ->
  halts_with o sys2 (value r) reason rs.
Proof.
  intros HF Hh HS Hr.
  destruct (Step_failure _ _ _ _ _ _ HF HS Hr) as [_ [(_ & _ & Hg)|[(rs1 & reason1 & w2 & s2 & Hst & [= <- <-] & Hv & _)|(Hc' & _)]]].
  - destruct (Step_cases (pipeline_of o s) sys s) as [(_ & E)|[(_ & _ & E)|(Hp & Hg' & _)]]; [..|naive_solver];
      rewrite E in HS; injection HS as _ Er; by rewrite <- Er in Hr.
  - rewrite Hv. assert (H : s_Halted s2 = true /\ s_HaltReason s2 = Some reason) by by inversion Hst.
    destruct H as [H1 H2]. split_and!; [done..| |right; by exists sys, s, w2]. intros t. by apply halted_cannot_advance.
  - congruence.
Qed.

Lemma run_turn_halts o cfg agents (sys sys' : Sys World) s out reason rs :
  (forall s, FramedPipeline (pipeline_of o s)) -> is_Some (sy_ledger sys) -> s_Halted s = false ->
  run_turn ops o cfg agents sys s = (sys', out, Some (EHalted reason rs)) -> halts_with o sys' (io_State out) reason rs.
Proof.
  intros HF Hl Hc. unfold run_turn. fold (agent_index cfg agents s). fold (agent_of cfg agents s).
  destruct (agent_index cfg agents s <? 0)%Z; [done|]. destruct (oc_registry o _) as [adapt|]; [|done].
  destruct (adapt _ _) as [w1 [e|resp]]; [done|]. destruct (appendTurnLedger ops _ _ _ _) as [sys1 [e|]] eqn:Hat.
  { intros [= <- <- ->]. unfold appendTurnLedger in Hat. cbn in Hat. repeat case_match; simplify_eq. }
  eapply append_turn_ledger in Hat; [|exact Hl].
  destruct (applyResponse _ s resp) as [s1 [reason'|]] eqn:Ha.
  - destruct (handleHandshakeHalt ops sys1 s1 reason') as [sys2 e] eqn:Hhh. intros [= <- <- ->].
    apply applyResponse_halt in Ha as (H1 & H2 & _ & Hnm). by eapply handshake_halts.
  - apply applyResponse_ok in Ha as (_ & _ & _ & Hh1). fold (pipeline_of o s1).
    destruct (Step ops (pipeline_of o s1) sys1 s1) as [sys2 r] eqn:Hstep.
    destruct (err r) as [e|] eqn:Hr; [|by destruct (sync_Write _ _ _) as [? [|]]].
    destruct e as [|reason' rs'|]; [done| |done]. intros [= <- <- -> ->].
    apply (Step_halts o sys1 sys2 _ s1 r); [apply HF|congruence|done..].
Qed.

Lemma RunOnce_halting o cfg (sys sys' : Sys World) s out reason rs :
  (forall s, FramedPipeline (pipeline_of o s)) -> is_Some (sy_ledger sys) ->
  RunOnce ops o cfg sys s = (sys', out, Some (EHalted reason rs)) -> halts_with o sys' (io_State out) reason rs.
Proof.
  intros HF [l Hl]. unfold RunOnce. destruct (default [] (o_Agents cfg)) as [|a agents]; [done|].
  destruct (CanAdvance (now ops sys) s) eqn:Hc; cbn [negb]; [|done]. apply CanAdvance_not_halted in Hc. rewrite Hl.
  unfold ledger_ReadAll. destruct (wo_ledger_fault ops (sy_world sys)) as [w [e|]]; [done|]. rewrite Hl. cbn [default].
  destruct (anti_spin cfg _) as [reason'|] eqn:Has.
  - apply anti_spin_named in Has. destruct (handleHandshakeHalt ops _ _ reason') as [sys1 e] eqn:Hhh. intros [= <- <- ->].
    eapply handshake_halts in Hhh; [exact Hhh|done|cbn; by eexists|done..].
  - intros H. by eapply run_turn_halts in H; [|done|cbn; by eexists|done].
Qed.

(** C25: every halt of an orchestrator with a ledger is final for its state, and where it comes from
    is known.  When an iteration ends in a halt, the state it reports is halted with that reason
    and may not advance.  Either the guards or the handshake halted it: then the record of the
    halt was appended and that state was written to the file, and the ledger is sealed with the
    reason, so that no later run resumes, unless that very append failed, which the code
    ignores and which leaves the ledger as it was.  Or a gate did: the gates before it passed,
    it failed with that reason, and the error carries their reports with its own at the end. *)
Theorem RunOnce_halts o cfg (sys sys' : Sys World) s out reason rs :
  (forall s, FramedPipeline (pipeline_of o s)) -> is_Some (sy_ledger sys) ->
  RunOnce ops o cfg sys s = (sys', out, Some (EHalted reason rs)) ->
  s_Halted (io_State out) = true /\ s_HaltReason (io_State out) = Some reason /\
  (forall t, CanAdvance t (io_State out) = false) /\
  ((rs = [] /\ sealed_by sys' (io_State out) reason) \/ stopped_by_gate o (io_State out) reason rs).
Proof. apply RunOnce_halting. Qed.

(** A sealed cycle is not revived.  A run over a ledger that seals the cycle returns
    that halt at once: no agent is asked, no gate runs, the state file and the ledger are
    as before. *)
Theorem sealed_run_refused fuel o cfg (sys : Sys World) l reason :
  default [] (o_Agents cfg) <> [] -> sy_ledger sys = Some l -> snd (wo_ledger_fault ops (sy_world sys)) = None ->
  LedgerSealsResume l = Some reason ->
  exists w, orchestrate ops fuel o cfg sys = Some (mkSys w (sy_file sys) (Some l), Some (EHalted reason [])).
Proof.
  intros Ha Hl Hf Hs. unfold orchestrate. destruct (default [] (o_Agents cfg)) as [|a agents]; [done|]. rewrite Hl.
  unfold ledger_ReadAll. destruct (wo_ledger_fault ops (sy_world sys)) as [w f]. cbn in Hf. subst. rewrite Hl. cbn. rewrite Hs.
  by exists w.
Qed.

(** A bounded orchestration ends, within as many iterations as its cycle limit
    leaves. *)
Theorem orchestrate_terminates fuel o cfg (sys : Sys World) s :
  (forall s, FramedPipeline (pipeline_of o s)) -> sy_file sys = Some s -> (0 < s_MaxCycles s)%Z ->
  (Z.to_nat (s_MaxCycles s - s_CompletedCycles s) < fuel)%nat ->
  exists sys' r, orchestrate ops fuel o cfg sys = Some (sys', r).
Proof.
  intros HF Hfile Hmax Hfuel.
  assert (HL : forall sys' : Sys World, sy_file sys' = Some s -> exists sys2 r, orchestrate_loop ops fuel o cfg sys' = Some (sys2, r)).
  { clear sys Hfile. revert s Hmax Hfuel. induction fuel as [|fuel IH]; intros s Hmax Hfuel sys Hfile; [lia|].
    cbn [orchestrate_loop]. unfold sync_Read. destruct (wo_read_fault ops (sy_world sys)) as [w [e|]]; [by eexists _, _|].
    rewrite Hfile. cbn [default]. unfold id. destruct (RunOnce ops o cfg _ s) as [[sys1 out] [e|]] eqn:HR; [by eexists _, _|].
    destruct (io_Terminal out) eqn:Ht; [by eexists _, _|].
    pose proof (RunOnce_ok _ _ _ _ _ _ HF HR) as HO. destruct (CanAdvance _ s) eqn:Hca; [|by destruct HO as [_ ->]].
    destruct HO as (_ & Ht' & [_ _ Hf Hc Hm Hh]).
    rewrite Ht in Ht'. symmetry in Ht'. apply negb_false_iff in Ht'.
    assert (Hlt : (s_CompletedCycles (io_State out) < s_MaxCycles (io_State out))%Z).
    { unfold CanAdvance in Ht'. rewrite Hh in Ht'. destruct (Z.ltb_spec 0 (s_MaxCycles (io_State out))); [|lia].
      cbn [andb] in Ht'. by destruct (Z.leb_spec (s_MaxCycles (io_State out)) (s_CompletedCycles (io_State out))). }
    destruct (wo_sleep ops _ _) as [w2 [e|]]; [by eexists _, _|]. apply (IH (io_State out)); [lia|lia|done]. }
  unfold orchestrate. destruct (default [] (o_Agents cfg)) as [|a agents]; [by eexists _, _|]. destruct (sy_ledger sys) as [l|] eqn:Hl; [|by apply HL].
  unfold ledger_ReadAll. destruct (wo_ledger_fault ops _) as [w [e|]]; [by eexists _, _|].
  destruct (LedgerSealsResume _); [by eexists _, _|]. by apply HL.
Qed.
End Spec.

(** ** A concrete world *)

(** Every command succeeds quietly, nothing fails. *)
Definition quiet_ops : WorldOps unit :=
  mkWorldOps (fun _ => 0%Z) (fun w => (w, None)) (fun w => (w, None)) (fun w => (w, None)) (fun w => (w, None))
    (fun w _ => (w, None)) (fun w _ => w).
Definition quiet_pipeline : Pipeline unit := StandardPipeline quiet_exec (fun _ _ => false) (fun _ => 0%Z) "" "" ["make lint"].
Definition quiet_sys (ledger : list HarnessLedgerEntry) : Sys unit := mkSys tt (Some (demo_state "fix: a")) (Some ledger).
Definition quiet_driver : Driver unit := mkDriver quiet_pipeline 0 (fun w _ => (w, inr "")).

Lemma quiet_appends : appends_succeed quiet_ops.
Proof. done. Qed.

Definition quiet_step : Sys unit * Result CycleState := Step quiet_ops quiet_pipeline (quiet_sys []) (demo_state "fix: a").

Lemma Step_spec_witness :
  sy_file (fst quiet_step) = Some (demo_state "fix: a") /\ s_CompletedCycles (value (snd quiet_step)) = 1%Z.
Proof.
  destruct (Step_spec quiet_ops quiet_pipeline (quiet_sys []) (fst quiet_step) (demo_state "fix: a") (snd quiet_step)
              _ eq_refl (surjective_pairing _)) as [H1 H2].
  split; [exact H1|]. assert (E : err (snd quiet_step) = None) by reflexivity. rewrite E in H2.
  destruct H2 as (w & s1 & _ & _ & ->). reflexivity.
Defined.

Lemma step_ledger_witness : LedgerSealsResume (default [] (sy_ledger (fst quiet_step))) = None.
Proof.
  destruct (step_ledger quiet_ops quiet_pipeline (quiet_sys []) (fst quiet_step) (demo_state "fix: a") (snd quiet_step) []
              _ eq_refl quiet_appends eq_refl (surjective_pairing _)) as [H _].
  assert (E : err (snd quiet_step) = None) by reflexivity. rewrite E in H. destruct H as (at_ & _ & H). exact H.
Defined.

Definition warned : GateReport := mkGateReport "philosophy" false 0 "" "found 1 philosophy violation(s)" [] [].

Lemma warned_steps_stuck_witness :
  Stuck (success_entries 1 "c" [warned] ++ success_entries 2 "c" [warned] ++ success_entries 3 "c" [warned]) = Some HaltStuck.
Proof.
  assert (H : warned ∈ [warned]) by (by left).
  pose proof (warned_steps_stuck [] [] [] [] 1 2 3 "c" [warned] [warned] [warned] warned warned warned H H H) as HS.
  cbn [app] in HS |- *. rewrite app_nil_r in HS. apply HS. by repeat constructor.
Defined.

Lemma Run_terminates_witness : exists sys' r, Run quiet_ops 4 quiet_driver (quiet_sys []) = Some (sys', r).
Proof.
  apply (Run_terminates quiet_ops 4 quiet_driver (quiet_sys []) (demo_state "fix: a")).
  - apply framed_standard.
  - reflexivity.
  - reflexivity.
  - vm_compute. lia.
Defined.

Definition quiet_cfg : OrchestratorConfig := mkOrchestratorConfig (Some ["claude"; "codex"]) "" 1 "" "/repo" 0.
Definition say (summary : string) : TurnResponse := mkTurnResponse false "" "" summary [] "" "" None [].
Definition quiet_orchestrator (summary : string) : Orchestrator unit :=
  mkOrchestrator (fun _ => Some (fun w _ => (w, inr (say summary)))) quiet_pipeline None.

Lemma quiet_framed summary s : FramedPipeline (pipeline_of (quiet_orchestrator summary) s).
Proof. apply framed_standard. Qed.

Definition once (summary : string) : Sys unit * IterationOutcome * option CycleError :=
  RunOnce quiet_ops (quiet_orchestrator summary) quiet_cfg (quiet_sys []) (demo_state "fix: a").

Lemma triple_eta {A B C} (x : A * B * C) c : snd x = c -> x = (fst (fst x), snd (fst x), c).
Proof. by destruct x as [[a b] c']; intros <-. Qed.


Lemma RunOnce_halts_witness :
  let '(sys', out, _) := once "prose" in
  s_Halted (io_State out) = true /\
  ((@nil GateReport = [] /\ sealed_by quiet_ops sys' (io_State out) HaltUnparseableTurn) \/
   stopped_by_gate quiet_ops (quiet_orchestrator "prose") (io_State out) HaltUnparseableTurn []) /\
  LedgerSealsResume (default [] (sy_ledger sys')) = Some HaltUnparseableTurn.
Proof.
  assert (Hs : LedgerSealsResume (default [] (sy_ledger (fst (fst (once "prose"))))) = Some HaltUnparseableTurn) by (vm_compute; reflexivity).
  assert (E0 : snd (once "prose") = Some (EHalted HaltUnparseableTurn [])) by (vm_compute; reflexivity). apply triple_eta in E0 as E.
  destruct (RunOnce_halts quiet_ops (quiet_orchestrator "prose") quiet_cfg (quiet_sys []) _ _ _ _ _ (quiet_framed "prose") (ex_intro _ [] eq_refl) E)
    as (H1 & _ & _ & H4).
  destruct (once "prose") as [[sys' out] e]. split; [exact H1|]. split; [exact H4|exact Hs].
Defined.

(** A count below zero: the rotation asks for the agent at -1. *)
Example negative_count_panics :
  snd (RunOnce quiet_ops (quiet_orchestrator "") quiet_cfg (quiet_sys []) ((demo_state "fix: a") <| s_CompletedCycles := (-1)%Z |>)) =
    Some (EOther "panic: runtime error: index out of range [-1]").
Proof. vm_compute. reflexivity. Qed.

Lemma sealed_run_refused_witness :
  exists w, orchestrate quiet_ops 0 (quiet_orchestrator "") quiet_cfg (quiet_sys [halted_entry 0 "c1" HaltStuck]) =
    Some (mkSys w (Some (demo_state "fix: a")) (Some [halted_entry 0 "c1" HaltStuck]), Some (EHalted HaltStuck [])).
Proof.
  apply (sealed_run_refused quiet_ops 0 (quiet_orchestrator "") quiet_cfg (quiet_sys [halted_entry 0 "c1" HaltStuck]) _ HaltStuck);
    [discriminate|reflexivity|reflexivity|reflexivity].
Defined.

Lemma orchestrate_terminates_witness :
  exists sys' r, orchestrate quiet_ops 4 (quiet_orchestrator "") quiet_cfg (quiet_sys []) = Some (sys', r).
Proof.
  apply (orchestrate_terminates quiet_ops 4 (quiet_orchestrator "") quiet_cfg (quiet_sys []) (demo_state "fix: a")).
  - apply quiet_framed.
  - reflexivity.
  - reflexivity.
  - vm_compute. lia.
Defined.
