(* ===== verification/OneShot.v ===== *)
(** * The one-shot run of a cycle

    [internal/cli/cycle_run.go]: [cycle run --once], the command a scheduler calls.  It
    resumes a cycle from its files, looks at the guards, advances it by one step, with or
    without an agent turn before it, and ends with an exit code.  It composes the driver and
    the orchestrator of [Driver]; the files and the world are theirs.

    The flags are in [Cli.v]; the lines printed are left out. *)

From S2P Require Import Prelude GoStrings Json Codec Contract Ledger Stuck Cycle Gates Driver DriverSpec.
From Stdlib Require Import Ascii String.
#[local] Open Scope string_scope.

(** ** Exit codes *)

(** The reason of a halted state is [None] when it is the empty string. *)
(* src: internal/cli/cycle_run.go 75-100 exitCodeForHalt *)
Definition exitCodeForHalt (reason : option HaltReason) : Z :=
  match reason with
  | Some HaltSuccess => 0
  | Some HaltStuck => 10
  | Some HaltBudgetExceeded => 11
  | Some HaltPreflightFailed => 12
  | Some HaltGateFailure => 13
  | Some HaltUnparseableTurn => 14
  | Some HaltUserRequested => 15
  | Some HaltSelfAuditViolation => 16
  | Some HaltSSHAuthFailed => 17
  | Some HaltMaxCyclesReached => 18
  | Some (HaltOther _) | None => 19
  end.

(** The operation that failed. *)
Inductive RunError : Type :=
  | FReadState (e : string) | FNotFound | FReadLedger (e : string) | FStep (e : CycleError) | FWriteAdvanced (e : string)
  | FRegistry (e : string) | FWorkingDir (e : string) | FPass (e : CycleError) | FAppendHalted (e : string) | FWriteHalted (e : string).

(** How a run ends.  The first two return no error and differ in the line they print. *)
Inductive Outcome : Type :=
  | OAdvanced (state : CycleState)
  | ONothing
  | OHalted (reason : option HaltReason) (detail : string)
  | OFailed (e : RunError).

(** The status of the process: an error that carries no code is status 1. *)
(* src: internal/cli/cycle_run.go 452-462 reportHalt *)
Definition exit_status (out : Outcome) : Z :=
  match out with
  | OAdvanced _ | ONothing => 0
  | OHalted reason _ => exitCodeForHalt reason
  | OFailed _ => 1
  end.

(* src: internal/cli/cycle_run.go 469-479 failedStderr *)
Definition failedStderr (rs : list GateReport) : string :=
  match List.find (fun r => negb (g_Passed r)) (rev rs) with
  | Some r => g_Stderr r
  | None => match rev rs with r :: _ => g_Stderr r | [] => "" end
  end.

Section OneShot.
Context {World : Type} (ops : WorldOps World).

Definition Adapter : Type := World -> TurnRequest -> World * (string + TurnResponse).

(** The registry of adapters is built, and the working directory looked up, when a turn is
    asked for. *)
(* src: internal/cli/cycle_run.go 230-245 runOnceOptions *)
Record RunOptions := mkRunOptions {
  ro_goal : string; ro_maxLifetimeTurns : Z; ro_agents : list string;
  ro_pipeline : CycleState -> Pipeline World;
  ro_buildRegistry : World -> World * (string + (string -> option Adapter));
  ro_getwd : World -> World * (string + string) }.

(* src: internal/cli/cycle_run.go 427-445 haltOnce *)
Definition haltOnce (sys : Sys World) (state : CycleState) (reason : HaltReason) (detail : string) : Sys World * Outcome :=
  let halted := value (Halt (now ops sys) state reason) in
  let '(sys, e) := ledger_Append ops sys (halted_entry (now ops sys) (s_ID halted) reason) in
  match e with
  | Some e => (sys, OFailed (FAppendHalted e))
  | None =>
      let '(sys, e) := sync_Write ops sys halted in
      match e with Some e => (sys, OFailed (FWriteHalted e)) | None => (sys, OHalted (Some reason) detail) end
  end.

(* src: internal/cli/cycle_run.go 385-394 runCycleOnceAgents *)
Definition agents_orchestrator (opts : RunOptions) (reg : string -> option Adapter) : Orchestrator World :=
  mkOrchestrator reg [] (Some (ro_pipeline opts)).
Definition agents_config (opts : RunOptions) (cwd : string) : OrchestratorConfig :=
  OrchestratorConfig_zero <| o_Agents := Some (ro_agents opts) |> <| o_WorkingDir := cwd |>
    <| o_MaxLifetimeTurns := ro_maxLifetimeTurns opts |>.

(* src: internal/cli/cycle_run.go 367-420 runCycleOnceAgents *)
Definition runCycleOnceAgents (opts : RunOptions) (sys : Sys World) (state : CycleState) : Sys World * Outcome :=
  let '(w, reg) := ro_buildRegistry opts (sy_world sys) in
  let sys := sys <| sy_world := w |> in
  match reg with
  | inl e => (sys, OFailed (FRegistry e))
  | inr reg =>
      let '(w, cwd) := ro_getwd opts (sy_world sys) in
      let sys := sys <| sy_world := w |> in
      match cwd with
      | inl e => (sys, OFailed (FWorkingDir e))
      | inr cwd =>
          let '(sys, outcome, e) := RunOnce ops (agents_orchestrator opts reg) (agents_config opts cwd) sys state in
          match e with
          | Some (EHalted reason rs) => (sys, OHalted (Some reason) (failedStderr rs))
          | Some e => (sys, OFailed (FPass e))
          | None => if io_Advanced outcome then (sys, OAdvanced (io_State outcome)) else (sys, ONothing)
          end
      end
  end.

(** The gated step without an agent. *)
(* src: internal/cli/cycle_run.go 313-355 runCycleOnce *)
Definition reference_step (opts : RunOptions) (sys : Sys World) (entries : list HarnessLedgerEntry) (state : CycleState)
    : Sys World * Outcome :=
  match Stuck entries with
  | Some reason => haltOnce sys state reason ""
  | None =>
      if ExceedsLifetimeCeiling entries (ro_maxLifetimeTurns opts) then haltOnce sys state HaltBudgetExceeded ""
      else
        let '(sys, result) := Step ops (ro_pipeline opts state) sys state in
        match err result with
        | Some (EHalted reason rs) => haltOnce sys (value result) reason (failedStderr rs)
        | Some e => (sys, OFailed (FStep e))
        | None =>
            let '(sys, e) := sync_Write ops sys (value result) in
            match e with Some e => (sys, OFailed (FWriteAdvanced e)) | None => (sys, OAdvanced (value result)) end
        end
  end.

(* src: internal/cli/cycle_run.go 251-355 runCycleOnce *)
Definition runCycleOnce (opts : RunOptions) (sys : Sys World) : Sys World * Outcome :=
  let '(sys, r) := sync_Read ops sys in
  match r with
  | inl e => (sys, OFailed (FReadState e))
  | inr state =>
      if String.eqb (s_ID state) "" then (sys, OFailed FNotFound)
      else if s_Halted state then (sys, OHalted (s_HaltReason state) "")
      else if negb (CanAdvance (now ops sys) state) then (sys, ONothing)
      else
        let '(sys, r) := ledger_ReadAll ops sys in
        match r with
        | inl e => (sys, OFailed (FReadLedger e))
        | inr entries =>
            match LedgerSealsResume entries with
            | Some reason => (sys, OHalted (Some reason) "")
            | None =>
                let state := if negb (String.eqb (TrimSpace (ro_goal opts)) "") then state <| s_NextCycleGoal := ro_goal opts |> else state in
                match ro_agents opts with
                | [] => reference_step opts sys entries state
                | _ => runCycleOnceAgents opts sys state
                end
            end
        end
  end.

(** A scheduler runs the command again and again; the world may move in between. *)
Fixpoint run_passes (l : list (RunOptions * (World -> World))) (sys : Sys World) : Sys World * list Outcome :=
  match l with
  | [] => (sys, [])
  | (opts, elapse) :: l =>
      let '(sys, out) := runCycleOnce opts sys in
      let '(sys, outs) := run_passes l (sys <| sy_world := elapse (sy_world sys) |>) in
      (sys, out :: outs)
  end.
End OneShot.

(** ** What a run does to the files *)

(** The same cycle, no less advanced. *)
Record kin (s s' : CycleState) : Prop := {
  k_ID : s_ID s' = s_ID s;
  k_Max : s_MaxCycles s' = s_MaxCycles s;
  k_Completed : (s_CompletedCycles s <= s_CompletedCycles s')%Z }.

#[export] Instance kin_preorder : PreOrder kin.
Proof. split; [by intros ?; split|]. intros s1 s2 s3 [] []. split; [congruence..|lia]. Qed.

Lemma same_plan_kin s s' : same_plan s s' -> kin s s'.
Proof. intros []. split; [done..|lia]. Qed.

Section Files.
Context {World : Type} (ops : WorldOps World).
Implicit Types (sys : Sys World) (s : CycleState).

Lemma sync_Write_file sys sys' s e : sync_Write ops sys s = (sys', e) ->
  sy_ledger sys' = sy_ledger sys /\ (sy_file sys' = sy_file sys \/ sy_file sys' = Some s) /\ (e = None -> sy_file sys' = Some s).
Proof. unfold sync_Write. destruct (wo_write_fault ops (sy_world sys)) as [w [[t [|]]|]]; intros [= <- <-]; cbn; naive_solver. Qed.

Lemma stops_kin p w s rs reason w' s' : FramedPipeline p -> stops (wo_clock ops) p w s rs reason w' s' ->
  kin s s' /\ s_Halted s' = true /\ s_HaltReason s' = Some reason.
Proof.
  intros HF H. inversion H as [p1 g p2 w0 s0 rs0 w1 s1 w2 rep reason0 s2 Hp Hg]; subst.
  apply Forall_app in HF as [HF1 HF2]. inversion_clear HF2 as [|? ? Hfg _]. apply passes_frame in Hp; [|done]. apply Hfg in Hg.
  split; [|done]. transitivity s1; [by apply same_plan_kin|]. transitivity s2; [by apply same_plan_kin|]. by split.
Qed.

(** A step of a state that is not halted. *)
Lemma Step_files p sys sys' s r : FramedPipeline p -> s_Halted s = false -> Step ops p sys s = (sys', r) ->
  sy_file sys' = sy_file sys /\ kin s (value r) /\
  match err r with
  | None => s_Halted (value r) = false /\ s_CompletedCycles (value r) = (s_CompletedCycles s + 1)%Z
  | Some (EHalted reason _) => s_Halted (value r) = true /\ s_HaltReason (value r) = Some reason
  | Some _ => True
  end.
Proof.
  intros HF Hh HS. destruct (err r) as [e|] eqn:Hr.
  - destruct (Step_failure _ _ _ _ _ _ _ HF HS Hr) as [Hfile [(-> & Hv & Hg)|[(rs & reason & w & s' & Hs & -> & Hv & Hsys)|(Hh' & _)]]].
    + split; [done|]. rewrite Hv. split; [done|]. destruct (Step_cases ops p sys s) as [(_ & E)|[(_ & _ & E)|(Hp & Hg' & _)]]; [..|naive_solver];
        rewrite E in HS; injection HS as <-; cbn in Hr; by simplify_eq.
    + split; [done|]. rewrite Hv. by eapply stops_kin.
    + congruence.
  - destruct (Step_success _ _ _ _ _ _ HF HS Hr) as (w & s1 & _ & _ & Hpl & Hv & ->).
    split; [by rewrite append_all_file|]. rewrite Hv. destruct Hpl. split; [split; cbn; [congruence..|lia]|]. cbn. split; congruence.
Qed.

Lemma Halt_kin t s reason : kin s (value (Halt t s reason)).
Proof. by split. Qed.

Lemma applyResponse_kin at_ s resp s' h : applyResponse at_ s resp = (s', h) -> kin s s'.
Proof.
  unfold applyResponse. destruct (ParseTurnPayload (r_Summary resp)) as [payload [|]]; [|intros [= <- _]; by split].
  destruct (p_HaltRequested payload); [intros [= <- _]; by split|]. intros [= <- _].
  split; cbn; destruct (negb _), (p_ViolationsFound payload); done.
Qed.

Lemma handshake_files sys sys' s reason e : handleHandshakeHalt ops sys s reason = (sys', e) ->
  (sy_file sys' = sy_file sys \/ sy_file sys' = Some s) /\ forall r rs, e = EHalted r rs -> sy_file sys' = Some s.
Proof.
  unfold handleHandshakeHalt. pose proof (ledger_Append_file ops sys (halted_entry (now ops sys) (s_ID s) reason)) as Hf.
  destruct (sync_Write ops _ s) as [sys1 e1] eqn:Hw. apply sync_Write_file in Hw as (_ & H1 & H2). rewrite Hf in H1.
  intros [= <- <-]. split; [done|]. destruct e1; [done|]. auto.
Qed.

Ltac untouched := cbn; split; [first [reflexivity|assumption]|split; [left; first [reflexivity|assumption]|intros _ ? ? [=]]].

(** One iteration of the orchestrator leaves the file alone or writes the state it reports,
    which is the same cycle; a halt is always written when writes succeed. *)
Lemma RunOnce_files o cfg sys sys' s out e : (forall s, FramedPipeline (pipeline_of o s)) -> RunOnce ops o cfg sys s = (sys', out, e) ->
  kin s (io_State out) /\ (sy_file sys' = sy_file sys \/ sy_file sys' = Some (io_State out)) /\
  ((forall w, snd (wo_write_fault ops w) = None) -> forall r rs, e = Some (EHalted r rs) -> sy_file sys' = Some (io_State out)).
Proof.
  intros HF. unfold RunOnce. destruct (default [] (o_Agents cfg)) as [|a agents]; [intros [= <- <- <-]; untouched|].
  destruct (CanAdvance (now ops sys) s) eqn:Hc; cbn [negb]; [|intros [= <- <- <-]; untouched]. apply CanAdvance_not_halted in Hc.
  assert (HT : forall sys1, sy_file sys1 = sy_file sys -> run_turn ops o cfg (a :: agents) sys1 s = (sys', out, e) ->
    kin s (io_State out) /\ (sy_file sys' = sy_file sys \/ sy_file sys' = Some (io_State out)) /\
    ((forall w, snd (wo_write_fault ops w) = None) -> forall r rs, e = Some (EHalted r rs) -> sy_file sys' = Some (io_State out))).
  { intros sys1 Hf1. rewrite <-Hf1. unfold run_turn. destruct (_ <? 0)%Z; [intros [= <- <- <-]; untouched|]. destruct (oc_registry o _) as [adapt|]; [|intros [= <- <- <-]; untouched].
    destruct (adapt _ _) as [w [t|resp]]; [intros [= <- <- <-]; untouched|].
    pose proof (append_turn_file ops (sys1 <| sy_world := w |>) (s_ID s)
      (nth (Z.to_nat (Z.rem (Z.quot (s_CompletedCycles s) (if (o_ResetEvery cfg <=? 0)%Z then 3%Z else o_ResetEvery cfg))
         (Z.of_nat (List.length (a :: agents))))) (a :: agents) "") resp) as Hf2.
    destruct (appendTurnLedger ops _ _ _ _) as [sys2 [t|]] eqn:Hat; cbn [fst] in Hf2; cbn [sy_file set_with eta] in Hf2.
    { intros [= <- <- <-]. cbn. split; [reflexivity|]. split; [by left|]. intros _ r rs [= ->]. unfold appendTurnLedger in Hat.
      repeat case_match; simplify_eq. }
    destruct (applyResponse _ s resp) as [s1 h] eqn:Ha. pose proof (applyResponse_kin _ _ _ _ _ Ha) as Hk1. destruct h as [reason|].
    { destruct (handleHandshakeHalt ops sys2 s1 reason) as [sys3 e3] eqn:Hh. apply handshake_files in Hh as [H1 H2].
      intros [= <- <- <-]. cbn. rewrite Hf2 in H1. split; [done|]. split; [done|]. intros _ r rs [= ->]. by eapply H2. }
    apply applyResponse_ok in Ha as (_ & _ & _ & Hh1). rewrite Hc in Hh1. fold (pipeline_of o s1).
    destruct (Step ops (pipeline_of o s1) sys2 s1) as [sys3 r] eqn:Hstep. apply Step_files in Hstep as (Hf3 & Hk3 & _); [|done|done].
    assert (Hk : kin s (value r)) by by transitivity s1. rewrite Hf2 in Hf3.
    destruct (err r) as [[ce|reason rs|t]|] eqn:Hr.
    - intros [= <- <- <-]. untouched.
    - destruct (sync_Write ops sys3 (value r)) as [sys4 e4] eqn:Hw. apply sync_Write_file in Hw as Hw'. destruct Hw' as (_ & H1 & H2).
      intros [= <- <- <-]. cbn. rewrite Hf3 in H1. split; [done|]. split; [done|]. intros Hok _ _ _. apply H2.
      unfold sync_Write in Hw. specialize (Hok (sy_world sys3)). destruct (wo_write_fault ops (sy_world sys3)) as [w' f]. cbn in Hok. subst f. by injection Hw.
    - intros [= <- <- <-]. untouched.
    - destruct (sync_Write ops sys3 (value r)) as [sys4 e4] eqn:Hw. apply sync_Write_file in Hw as (_ & H1 & H2). rewrite Hf3 in H1.
      destruct e4; intros [= <- <- <-]; cbn; (split; [done|]); (split; [done|]); intros _ r0 rs0 [=]. }
  destruct (sy_ledger sys) as [l|]; [|by apply HT]. unfold ledger_ReadAll. destruct (wo_ledger_fault ops _) as [w [t|]]; [intros [= <- <- <-]; untouched|].
  destruct (anti_spin cfg _) as [reason|]; [|by apply HT].
  destruct (handleHandshakeHalt ops _ _ reason) as [sys3 e3] eqn:Hh. apply handshake_files in Hh as [H1 H2].
  intros [= <- <- <-]. split; [by split|]. split; [exact H1|]. intros _ r rs [= ->]. by eapply H2.
Qed.

Lemma haltOnce_files sys sys' s reason d out : haltOnce ops sys s reason d = (sys', out) ->
  let halted := value (Halt (now ops sys) s reason) in
  (sy_file sys' = sy_file sys \/ sy_file sys' = Some halted) /\
  match out with OHalted r _ => r = Some reason /\ sy_file sys' = Some halted | OFailed _ => True | _ => False end.
Proof.
  unfold haltOnce. pose proof (ledger_Append_file ops sys (halted_entry (now ops sys) (s_ID (value (Halt (now ops sys) s reason))) reason)) as Hf.
  destruct (ledger_Append ops sys _) as [sys1 [e|]]; cbn [fst] in Hf; [intros [= <- <-]; by auto|].
  destruct (sync_Write ops sys1 _) as [sys2 e] eqn:Hw. apply sync_Write_file in Hw as (_ & H1 & H2). rewrite Hf in H1.
  destruct e; intros [= <- <-]; [done|]. split; [done|]. by auto.
Qed.

(** The run without an agent. *)
Lemma reference_files opts sys sys' entries s out : (forall s, FramedPipeline (ro_pipeline opts s)) -> s_Halted s = false ->
  reference_step ops opts sys entries s = (sys', out) ->
  (sy_file sys' = sy_file sys \/ exists s', sy_file sys' = Some s' /\ kin s s') /\
  match out with
  | OAdvanced st => sy_file sys' = Some st /\ s_CompletedCycles st = (s_CompletedCycles s + 1)%Z /\ s_Halted st = false /\ kin s st
  | OHalted r _ => exists st, sy_file sys' = Some st /\ s_Halted st = true /\ s_HaltReason st = r /\ kin s st
  | ONothing => False
  | OFailed _ => True
  end.
Proof.
  intros HF Hh. unfold reference_step.
  assert (HH : forall sys1 st reason d, sy_file sys1 = sy_file sys -> kin s st -> haltOnce ops sys1 st reason d = (sys', out) ->
    (sy_file sys' = sy_file sys \/ exists s', sy_file sys' = Some s' /\ kin s s') /\
    match out with
    | OAdvanced st => sy_file sys' = Some st /\ s_CompletedCycles st = (s_CompletedCycles s + 1)%Z /\ s_Halted st = false /\ kin s st
    | OHalted r _ => exists st, sy_file sys' = Some st /\ s_Halted st = true /\ s_HaltReason st = r /\ kin s st
    | ONothing => False
    | OFailed _ => True
    end).
  { intros sys1 st reason d Hf Hk [H1 H2]%haltOnce_files. rewrite Hf in H1.
    assert (Hk' : kin s (value (Halt (now ops sys1) st reason))) by (transitivity st; [done|apply Halt_kin]).
    split; [destruct H1 as [H1|H1]; [by left|right; by eexists]|]. destruct out; [done|done| |done]. destruct H2 as [-> H2]. by eexists. }
  destruct (Stuck entries) as [reason|]; [by apply HH|]. destruct (ExceedsLifetimeCeiling _ _); [by apply HH|].
  destruct (Step ops (ro_pipeline opts s) sys s) as [sys1 r] eqn:Hstep. apply Step_files in Hstep as (Hf & Hk & Hr); [|done|done].
  destruct (err r) as [[ce|reason rs|t]|] eqn:He.
  - intros [= <- <-]. split; [by left|done].
  - by apply HH.
  - intros [= <- <-]. split; [by left|done].
  - destruct (sync_Write ops sys1 (value r)) as [sys2 e] eqn:Hw. apply sync_Write_file in Hw as (_ & H1 & H2). rewrite Hf in H1.
    destruct Hr as [Hr1 Hr2]. destruct e; intros [= <- <-]; (split; [destruct H1 as [H1|H1]; [by left|right; by eexists]|]); [done|]. by auto.
Qed.

(** The run with an agent. *)
Lemma agents_files opts sys sys' s out : (forall s, FramedPipeline (ro_pipeline opts s)) -> s_Halted s = false ->
  runCycleOnceAgents ops opts sys s = (sys', out) ->
  (sy_file sys' = sy_file sys \/ exists s', sy_file sys' = Some s' /\ kin s s') /\
  match out with
  | OAdvanced st => sy_file sys' = Some st /\ s_CompletedCycles st = (s_CompletedCycles s + 1)%Z /\ s_Halted st = false /\ kin s st
  | ONothing => sy_file sys' = sy_file sys /\ sy_ledger sys' = sy_ledger sys
  | _ => True
  end.
Proof.
  intros HF Hh. unfold runCycleOnceAgents. destruct (ro_buildRegistry opts (sy_world sys)) as [w [t|reg]]; [intros [= <- <-]; split; [by left|done]|].
  cbn [sy_world set_with eta]. destruct (ro_getwd opts w) as [w' [t|cwd]]; [intros [= <- <-]; split; [by left|done]|].
  destruct (RunOnce ops _ _ _ s) as [[sys1 out1] e] eqn:HR. apply RunOnce_files in HR as HR'; [|done]. destruct HR' as (Hk & Hf & _).
  cbn [sy_file set_with eta] in Hf. assert (Hf' : sy_file sys1 = sy_file sys \/ exists s', sy_file sys1 = Some s' /\ kin s s').
  { destruct Hf as [Hf|Hf]; [by left|right; by eexists]. }
  destruct e as [[ce|reason rs|t]|]; [intros [= <- <-]; by split..|].
  apply RunOnce_ok in HR; [|done]. destruct (CanAdvance _ s); [|destruct HR as [-> ->]; cbn; intros [= <- <-]; by auto].
  destruct HR as (Ha & _ & [_ _ H2 H3 H4 H5]).
  rewrite Ha. intros [= <- <-]. by auto.
Qed.

Lemma run_files opts sys sys' out : (forall s, FramedPipeline (ro_pipeline opts s)) -> runCycleOnce ops opts sys = (sys', out) ->
  let s := default CycleState_zero (sy_file sys) in
  (sy_file sys' = sy_file sys \/ exists s', sy_file sys' = Some s' /\ kin s s') /\
  match out with
  | OAdvanced st => sy_file sys' = Some st /\ s_CompletedCycles st = (s_CompletedCycles s + 1)%Z /\ s_Halted st = false /\ kin s st /\
      ((0 < s_MaxCycles s)%Z -> (s_CompletedCycles s < s_MaxCycles s)%Z)
  | ONothing => sy_file sys' = sy_file sys /\ sy_ledger sys' = sy_ledger sys
  | _ => True
  end.
Proof.
  intros HF. cbv zeta. unfold runCycleOnce, sync_Read. destruct (wo_read_fault ops (sy_world sys)) as [w [t|]]; [intros [= <- <-]; split; [by left|done]|].
  set (s := default CycleState_zero (sy_file sys)). destruct (String.eqb (s_ID s) ""); [intros [= <- <-]; split; [by left|done]|].
  destruct (s_Halted s) eqn:Hh; [intros [= <- <-]; split; [by left|done]|].
  destruct (CanAdvance _ s) eqn:Hc; cbn [negb]; [|intros [= <- <-]; split; [by left|done]].
  assert (Hlt : (0 < s_MaxCycles s)%Z -> (s_CompletedCycles s < s_MaxCycles s)%Z).
  { intros Hm. unfold CanAdvance in Hc. rewrite Hh in Hc. destruct (Z.ltb_spec 0 (s_MaxCycles s)); [|lia]. cbn [andb] in Hc.
    by destruct (Z.leb_spec (s_MaxCycles s) (s_CompletedCycles s)). }
  unfold ledger_ReadAll. cbn [sy_world]. destruct (wo_ledger_fault ops w) as [w' [t|]]; [intros [= <- <-]; split; [by left|done]|].
  destruct (LedgerSealsResume _); [intros [= <- <-]; split; [by left|done]|].
  set (s1 := if negb _ then _ else s).
  assert (Hk1 : kin s s1 /\ s_CompletedCycles s1 = s_CompletedCycles s /\ s_Halted s1 = false) by (unfold s1; destruct (negb _); by split).
  destruct Hk1 as (Hk1 & Hc1 & Hh1). intros Hrun.
  assert (HX : (sy_file sys' = sy_file sys \/ exists s', sy_file sys' = Some s' /\ kin s1 s') /\
    match out with
    | OAdvanced st => sy_file sys' = Some st /\ s_CompletedCycles st = (s_CompletedCycles s1 + 1)%Z /\ s_Halted st = false /\ kin s1 st
    | ONothing => sy_file sys' = sy_file sys /\ sy_ledger sys' = sy_ledger sys
    | _ => True
    end).
  { destruct (ro_agents opts).
    - apply reference_files in Hrun as [H1 H2]; [|done|done]. split; [exact H1|]. by destruct out.
    - apply agents_files in Hrun as [H1 H2]; [|done|done]. by split. }
  destruct HX as [H1 H2]. split.
  - destruct H1 as [H1|(s' & H1 & Hk)]; [by left|right]. exists s'. split; [done|]. by transitivity s1.
  - destruct out; [|done..]. destruct H2 as (H2 & H3 & H4 & H5). split_and!; [done|congruence|done|by transitivity s1|done].
Qed.

(** What a status means.  A run that reports an advance has written a state of the same
    cycle, not halted, with exactly one more completed cycle; a run that finds nothing to do
    leaves the state file and the ledger as they were; whatever else happens, the state file
    is what it was or holds the same cycle, no less advanced. *)
Theorem one_shot_files opts sys sys' out : (forall s, FramedPipeline (ro_pipeline opts s)) -> runCycleOnce ops opts sys = (sys', out) ->
  let s := default CycleState_zero (sy_file sys) in
  (sy_file sys' = sy_file sys \/ exists s', sy_file sys' = Some s' /\ kin s s') /\
  match out with
  | OAdvanced st => sy_file sys' = Some st /\ s_CompletedCycles st = (s_CompletedCycles s + 1)%Z /\ s_Halted st = false /\ kin s st
  | ONothing => sy_file sys' = sy_file sys /\ sy_ledger sys' = sy_ledger sys
  | _ => True
  end.
Proof.
  intros HF H. apply run_files in H as [H1 H2]; [|done]. split; [exact H1|]. destruct out; [|done..]. by destruct H2 as (? & ? & ? & ? & _).
Qed.

Definition is_advanced (out : Outcome) : bool := match out with OAdvanced _ => true | _ => false end.

(** C26: A scheduler cannot spin.  However often the command is run on a cycle with a limit,
    with whatever options, faults and changes of the world in between, it advances at most
    as many times as the limit leaves. *)
Theorem advances_bounded l sys s : Forall (fun p => forall s, FramedPipeline (ro_pipeline (fst p) s)) l ->
  sy_file sys = Some s -> (0 < s_MaxCycles s)%Z ->
  (Z.of_nat (List.length (List.filter is_advanced (snd (run_passes ops l sys)))) <= Z.max 0 (s_MaxCycles s - s_CompletedCycles s))%Z.
Proof.
  intros HF. revert sys s. induction HF as [|[opts elapse] l Ho _ IH]; intros sys s Hf Hm; cbn [run_passes fst]; [cbn; lia|].
  destruct (runCycleOnce ops opts sys) as [sys1 out] eqn:Hr. apply run_files in Hr as [H1 H2]; [|done]. rewrite Hf in H1, H2. cbn [default] in H1, H2.
  unfold id in H1, H2. set (sys2 := sys1 <| sy_world := elapse (sy_world sys1) |>). destruct (run_passes ops l sys2) as [sys3 outs] eqn:Hp.
  assert (Hs : exists s', sy_file sys2 = Some s' /\ kin s s') by (destruct H1 as [H1|H1]; [by exists s|done]).
  destruct Hs as (s' & Hs' & [_ Hm' Hc']). specialize (IH sys2 s' Hs' ltac:(lia)). rewrite Hp in IH. cbn [snd List.filter] in IH |- *.
  destruct (is_advanced out) eqn:Ha; cbn [List.length]; [|lia]. destruct out; try done. destruct H2 as (H2 & H3 & _ & _ & H4).
  cbn in Hs'. assert (s' = state) as -> by congruence. specialize (H4 Hm). lia.
Qed.

(** ** Halts are final *)

(** No access to a file fails. *)
Record no_faults : Prop := {
  nf_read : forall w, snd (wo_read_fault ops w) = None;
  nf_write : forall w, snd (wo_write_fault ops w) = None;
  nf_append : appends_succeed ops;
  nf_ledger : forall w, snd (wo_ledger_fault ops w) = None }.

(** What makes the next run refuse: a halted state, or a ledger that seals the cycle. *)
Definition stopped_for sys (r : option HaltReason) : Prop :=
  let s := default CycleState_zero (sy_file sys) in
  s_ID s <> "" /\
  ((s_Halted s = true /\ s_HaltReason s = r) \/
   (s_Halted s = false /\ exists reason, r = Some reason /\ LedgerSealsResume (default [] (sy_ledger sys)) = Some reason)).

Lemma stopped_refused opts sys sys' out r : no_faults -> stopped_for sys r -> runCycleOnce ops opts sys = (sys', out) ->
  (out = OHalted r "" \/ out = ONothing) /\ sy_file sys' = sy_file sys /\ sy_ledger sys' = sy_ledger sys.
Proof.
  intros [NR _ _ NL] [Hid Hs]. unfold runCycleOnce, sync_Read. specialize (NR (sy_world sys)).
  destruct (wo_read_fault ops (sy_world sys)) as [w f]. cbn in NR. subst f. set (s := default CycleState_zero (sy_file sys)) in *.
  rewrite (proj2 (String.eqb_neq _ _) Hid). destruct Hs as [[-> <-]|(-> & reason & -> & Hs)]; [intros [= <- <-]; by auto|].
  destruct (CanAdvance _ s); cbn [negb]; [|intros [= <- <-]; by auto]. unfold ledger_ReadAll. cbn [sy_world sy_ledger].
  specialize (NL w). destruct (wo_ledger_fault ops w) as [w' f]. cbn in NL. subst f. rewrite Hs. intros [= <- <-]. by auto.
Qed.

Lemma agents_halts opts sys sys' s l r d : no_faults -> (forall s, FramedPipeline (ro_pipeline opts s)) -> sy_ledger sys = Some l ->
  runCycleOnceAgents ops opts sys s = (sys', OHalted r d) ->
  exists st, sy_file sys' = Some st /\ s_Halted st = true /\ s_HaltReason st = r /\ kin s st.
Proof.
  intros [_ NW NA _] HF Hl. unfold runCycleOnceAgents. destruct (ro_buildRegistry opts (sy_world sys)) as [w [t|reg]]; [done|].
  cbn [sy_world set_with eta]. destruct (ro_getwd opts w) as [w' [t|cwd]]; [done|].
  destruct (RunOnce ops _ _ _ s) as [[sys1 out1] e] eqn:HR.
  destruct e as [[ce|reason rs|t]|]; [done| |done|by destruct (io_Advanced out1)]. intros [= <- <- <-].
  apply RunOnce_files in HR as HR'; [|done]. destruct HR' as (Hk & _ & Hw). specialize (Hw NW _ _ eq_refl).
  eapply RunOnce_halting in HR; [|done|cbn; by rewrite Hl]. destruct HR as (H1 & H2 & _). by eexists.
Qed.

Lemma halted_stops opts sys sys' l r d : no_faults -> (forall s, FramedPipeline (ro_pipeline opts s)) -> sy_ledger sys = Some l ->
  runCycleOnce ops opts sys = (sys', OHalted r d) -> stopped_for sys' r.
Proof.
  intros NF HF Hl. unfold runCycleOnce, sync_Read. destruct (wo_read_fault ops (sy_world sys)) as [w [t|]]; [done|].
  set (s := default CycleState_zero (sy_file sys)). destruct (String.eqb_spec (s_ID s) "") as [|Hid]; [done|].
  destruct (s_Halted s) eqn:Hh; [intros [= <- <- <-]; split; [done|by left]|].
  destruct (CanAdvance _ s); cbn [negb]; [|done]. unfold ledger_ReadAll. cbn [sy_world].
  destruct (wo_ledger_fault ops w) as [w' [t|]]; [done|]. destruct (LedgerSealsResume _) as [reason|] eqn:Hs.
  { intros [= <- <- <-]. split; [done|]. right. split; [done|]. by exists reason. }
  set (s1 := if negb _ then _ else s).
  assert (Hk1 : kin s s1 /\ s_Halted s1 = false) by (unfold s1; destruct (negb _); by split).
  destruct Hk1 as (Hk1 & Hh1). intros Hrun.
  assert (HX : exists st, sy_file sys' = Some st /\ s_Halted st = true /\ s_HaltReason st = r /\ kin s1 st).
  { destruct (ro_agents opts).
    - by apply reference_files in Hrun as [_ H2].
    - eapply agents_halts in Hrun; [exact Hrun|done..]. }
  destruct HX as (st & H1 & H2 & H3 & [Hki _ _]). unfold stopped_for. rewrite H1. cbn [default]. unfold id. split; [|by left].
  rewrite Hki. by destruct Hk1 as [-> _ _].
Qed.

(** A halt is final.  After a run that ended in a halt, whatever options the next run is
    given, with or without agents, and however the world has moved, that run does not
    advance: it ends in the same halt, with the same status, or finds the time of the cycle
    spent, and leaves the state file and the ledger as they were. *)
Theorem halt_sticky opts opts' elapse sys sys1 sys2 l r d out : no_faults -> (forall s, FramedPipeline (ro_pipeline opts s)) ->
  sy_ledger sys = Some l -> runCycleOnce ops opts sys = (sys1, OHalted r d) ->
  runCycleOnce ops opts' (sys1 <| sy_world := elapse (sy_world sys1) |>) = (sys2, out) ->
  (out = OHalted r "" \/ out = ONothing) /\ sy_file sys2 = sy_file sys1 /\ sy_ledger sys2 = sy_ledger sys1.
Proof. intros NF HF Hl Hs H. eapply stopped_refused in H; [exact H|done|]. by eapply halted_stops in Hs. Qed.
End Files.

(** The code of a halt tells its reason: two different known reasons never have the same
    code, only success is 0, and no halt is taken for an operational error. *)
Theorem exit_codes_distinct r r' : halt_named r = true -> halt_named r' = true ->
  (exitCodeForHalt (Some r) = exitCodeForHalt (Some r') <-> r = r') /\
  (exitCodeForHalt (Some r) = 0%Z <-> r = HaltSuccess) /\ exitCodeForHalt (Some r) <> exit_status (OFailed FNotFound).
Proof. intros H H'. destruct r; try discriminate H; destruct r'; try discriminate H'; split_and!; by split || done. Qed.

(** ** Concrete runs *)

Definition quiet_options (agents : list string) (summary : string) : RunOptions :=
  mkRunOptions "" 0 agents (fun _ => quiet_pipeline) (fun w => (w, inr (fun _ => Some (fun w _ => (w, inr (say summary))))))
    (fun w => (w, inr "/repo")).

Lemma quiet_options_framed agents summary s : FramedPipeline (ro_pipeline (quiet_options agents summary) s).
Proof. apply framed_standard. Qed.
Lemma quiet_no_faults : no_faults quiet_ops.
Proof. by split. Qed.

Definition quiet_once : Sys unit * Outcome := runCycleOnce quiet_ops (quiet_options [] "") (quiet_sys []).
Lemma one_shot_files_witness : is_advanced (snd quiet_once) = true /\ exists s', sy_file (fst quiet_once) = Some s' /\ s_CompletedCycles s' = 1%Z.
Proof.
  destruct (one_shot_files quiet_ops (quiet_options [] "") (quiet_sys []) (fst quiet_once) (snd quiet_once) (quiet_options_framed [] "")
    (surjective_pairing _)) as [_ H].
  assert (E : is_advanced (snd quiet_once) = true) by (vm_compute; reflexivity). split; [exact E|].
  destruct (snd quiet_once) as [st| | |]; [|discriminate E..]. destruct H as (H1 & H2 & _). exists st. split; [exact H1|exact H2].
Defined.

Lemma advances_bounded_witness :
  (Z.of_nat (List.length (List.filter is_advanced (snd (run_passes quiet_ops [(quiet_options [] "", id); (quiet_options ["claude"] "", id)] (quiet_sys []))))) <= 3)%Z.
Proof.
  apply (advances_bounded quiet_ops [(quiet_options [] "", id); (quiet_options ["claude"] "", id)] (quiet_sys []) (demo_state "fix: a")).
  - apply Forall_cons. split; [apply quiet_options_framed|]. apply Forall_cons. split; [apply quiet_options_framed|]. apply Forall_nil. exact I.
  - reflexivity.
  - vm_compute. reflexivity.
Defined.

(** A turn of an agent that cannot be parsed halts the cycle. *)
Definition halting_once : Sys unit * Outcome := runCycleOnce quiet_ops (quiet_options ["claude"] "prose") (quiet_sys []).
Definition halted_outcome (out : Outcome) : bool :=
  match out with OHalted (Some HaltUnparseableTurn) d => String.eqb d "" | _ => false end.
Lemma halted_outcome_eq out : halted_outcome out = true -> out = OHalted (Some HaltUnparseableTurn) "".
Proof. unfold halted_outcome. repeat (case_match; try discriminate). intros ->%String.eqb_eq. reflexivity. Qed.

Definition next_once : Sys unit * Outcome := runCycleOnce quiet_ops (quiet_options [] "") ((fst halting_once) <| sy_world := id (sy_world (fst halting_once)) |>).
Lemma halt_sticky_witness :
  (snd next_once = OHalted (Some HaltUnparseableTurn) "" \/ snd next_once = ONothing) /\
  sy_file (fst next_once) = sy_file (fst halting_once) /\ sy_ledger (fst next_once) = sy_ledger (fst halting_once).
Proof.
  apply (halt_sticky quiet_ops (quiet_options ["claude"] "prose") (quiet_options [] "") id (quiet_sys []) (fst halting_once) (fst next_once)
    [] (Some HaltUnparseableTurn) "" (snd next_once)).
  - apply quiet_no_faults.
  - apply quiet_options_framed.
  - reflexivity.
  - assert (E : snd halting_once = OHalted (Some HaltUnparseableTurn) "") by (apply halted_outcome_eq; vm_compute; reflexivity).
    rewrite <-E. apply surjective_pairing.
  - apply surjective_pairing.
Defined.

Lemma exit_codes_distinct_witness : exitCodeForHalt (Some HaltStuck) <> exit_status (OFailed FNotFound).
Proof. apply (exit_codes_distinct HaltStuck HaltSuccess); reflexivity. Defined.
