(* ===== verification/Commands.v ===== *)
(** * Two commands over the ledger

    [internal/cli/cycle_verify.go]: [cycle verify], the audit of a ledger: its chain, its
    Merkle root and, on request, an inclusion and a consistency proof;
    [internal/cli/gate.go]: [gate tooluse], the decision on a pending command, which the
    hook of a runtime honours, and its record in a ledger.

    The flags and the lines that [cycle verify] prints are in [Cli.v]. *)

From S2P Require Import Prelude GoStrings Json Codec Contract Paths Ledger Merkle ActionGate.
From Stdlib Require Import Ascii String.
#[local] Open Scope string_scope.

(** ** [cycle verify] *)

(* src: internal/cli/cycle_verify.go 20-24 cycleVerifyOptions *)
Record VerifyOptions := mkVerifyOptions { vo_inclusion : Z; vo_consistency : Z }.

Inductive Verdict : Set := VOk | VError (e : MerkleError) | VRejected | VBeyond.

(** What each part of the audit found; [None] is a part that was not asked for. *)
Record VerifyReport := mkVerifyReport {
  vr_brokenIndex : Z; vr_intact : bool; vr_root : string; vr_inclusion : option Verdict; vr_consistency : option Verdict }.

Definition verdict_ok (v : option Verdict) : bool := match v with None | Some VOk => true | _ => false end.

(** An index that the proof accepted is in range. *)
(* src: internal/cli/cycle_verify.go 90-104 verifyLedgerEntries *)
Definition verify_inclusion (entries : list HarnessLedgerEntry) (root : string) (i : Z) : option (option Verdict) :=
  if (i <? 0)%Z then Some None
  else
    p ← InclusionProof entries i;
    match p with
    | inl e => Some (Some (VError e))
    | inr proof =>
        entry ← entries !! Z.to_nat i;
        ok ← VerifyInclusion entry proof root;
        Some (Some (if (ok : bool) then VOk else VRejected))
    end.

(* src: internal/cli/cycle_verify.go 106-126 verifyLedgerEntries *)
Definition verify_consistency (entries : list HarnessLedgerEntry) (root : string) (m : Z) : option (option Verdict) :=
  if (m <? 0)%Z then Some None
  else
    oldRoot ← (if (m <=? len entries)%Z then MerkleRoot (slice_to entries m) else Some "");
    p ← ConsistencyProof m entries;
    Some (Some
      (if (len entries <? m)%Z then VBeyond
       else match p with
            | inl e => VError e
            | inr proof => if VerifyConsistency proof oldRoot root then VOk else VRejected
            end)).

(** [None]: a loop of the Merkle layer does not end, or an index is out of range. *)
(* src: internal/cli/cycle_verify.go 72-131 verifyLedgerEntries *)
Definition verifyLedgerEntries (entries : list HarnessLedgerEntry) (opts : VerifyOptions) : option VerifyReport :=
  let '(brokenIndex, ok) := VerifyChain entries in
  root ← MerkleRoot entries;
  inclusion ← verify_inclusion entries root (vo_inclusion opts);
  consistency ← verify_consistency entries root (vo_consistency opts);
  Some (mkVerifyReport brokenIndex ok root inclusion consistency).

(* src: internal/cli/cycle_verify.go 128-131 verifyLedgerEntries *)
Definition verify_failed (r : VerifyReport) : bool :=
  negb (vr_intact r) || negb (verdict_ok (vr_inclusion r)) || negb (verdict_ok (vr_consistency r)).

(* src: internal/cli/cycle_verify.go 151-152 verifyFailedError.ExitCode *)
Definition verify_exit (r : VerifyReport) : Z := if verify_failed r then 15 else 0.

Lemma inclusion_verdict es root i : (len es <= 2 ^ 62)%Z -> MerkleRoot es = Some root ->
  exists v, verify_inclusion es root i = Some v /\ (verdict_ok v = true <-> (i < len es)%Z \/ (i < 0)%Z).
Proof.
  intros Hlen Hr. unfold verify_inclusion. destruct (Z.ltb_spec i 0); [exists None; split; [done|]; split; [by right|done]|].
  destruct (Z.ltb_spec i (len es)) as [Hi|Hi].
  - destruct (lookup_lt_is_Some_2 es (Z.to_nat i)) as [e He]; [unfold len in Hi; lia|].
    destruct (inclusion_complete es (Z.to_nat i) e He Hlen) as (root' & p & Hr' & Hp & Hv). rewrite Z2Nat.id in Hp by lia.
    rewrite Hp. cbn [mbind option_bind]. rewrite He. cbn [mbind option_bind]. rewrite Hr in Hr'. injection Hr' as <-. rewrite Hv.
    cbn. eexists. split; [done|]. split; [by left|done].
  - unfold InclusionProof. destruct (Z.eqb_spec (len es) 0); [eexists; split; [done|]; split; [done|intros [?|?]; lia]|].
    assert (((i <? 0) || (len es <=? i))%Z = true) as -> by (apply orb_true_iff; right; by apply Z.leb_le).
    eexists. split; [done|]. split; [done|intros [?|?]; lia].
Qed.

Lemma consistency_verdict es root m : (len es <= 2 ^ 62)%Z -> MerkleRoot es = Some root ->
  exists v, verify_consistency es root m = Some v /\ (verdict_ok v = true <-> (m <= len es)%Z).
Proof.
  intros Hlen Hr. assert (0 <= len es)%Z by (unfold len; lia). unfold verify_consistency.
  destruct (Z.ltb_spec m 0); [exists None; split; [done|]; split; [lia|done]|].
  destruct (Z.leb_spec m (len es)) as [Hm|Hm].
  - destruct (consistency_complete es (Z.to_nat m) ltac:(unfold len in Hm; lia) Hlen) as (old & new & p & Ho & Hn & Hp & Hv).
    rewrite Z2Nat.id in Hp by lia. unfold slice_to. rewrite Ho. cbn [mbind option_bind]. rewrite Hp. cbn [mbind option_bind].
    rewrite Hr in Hn. injection Hn as <-. rewrite Hv. destruct (Z.ltb_spec (len es) m); [lia|]. eexists. split; [done|]. split; [lia|done].
  - cbn [mbind option_bind]. unfold ConsistencyProof.
    assert (((m <? 0) || (len es <? m))%Z = true) as -> by (apply orb_true_iff; right; by apply Z.ltb_lt).
    cbn [mbind option_bind]. destruct (Z.ltb_spec (len es) m); [|lia]. eexists. split; [done|]. split; [done|lia].
Qed.

Lemma verify_from_index prev i es b : verify_from prev i es = (b, true) -> b = NoBrokenLink.
Proof.
  revert prev i. induction es as [|e es IH]; intros prev i; cbn [verify_from]; [by intros [= <-]|].
  repeat (case_match; [done|]). apply IH.
Qed.

Lemma verify_verdict_cases es opts : (len es <= 2 ^ 62)%Z ->
  exists r, verifyLedgerEntries es opts = Some r /\
    (verify_failed r = false <-> VerifyChain es = (NoBrokenLink, true) /\ (vo_inclusion opts < len es \/ vo_inclusion opts < 0)%Z /\
       (vo_consistency opts <= len es)%Z).
Proof.
  intros Hlen. destruct (MerkleRoot_hex es Hlen) as (root & Hr & _). unfold verifyLedgerEntries. destruct (VerifyChain es) as [b ok] eqn:Hc.
  rewrite Hr. cbn [mbind option_bind]. destruct (inclusion_verdict es root (vo_inclusion opts) Hlen Hr) as (vi & -> & Hi).
  destruct (consistency_verdict es root (vo_consistency opts) Hlen Hr) as (vc & -> & Hv). cbn [mbind option_bind].
  eexists. split; [done|]. unfold verify_failed. cbn. rewrite !orb_false_iff, !negb_false_iff, Hi, Hv.
  assert (Hb : ok = true <-> (b, ok) = (NoBrokenLink, true)).
  { split; [|by intros [= _ ->]]. intros ->. by rewrite (verify_from_index _ _ _ _ Hc). }
  rewrite Hb. tauto.
Qed.

(** C27: The verdict of the audit, on every input.  For a ledger of up to 2^62 entries it
    always returns, and passes exactly when the chain is intact, the entry asked for exists
    and the prefix asked for is no longer than the ledger: a proof it builds itself is never
    rejected, and a broken chain fails it whatever else is asked. *)
Theorem verify_verdict es opts : (len es <= 2 ^ 62)%Z ->
  exists r, verifyLedgerEntries es opts = Some r /\
    (verify_exit r = 0%Z <-> VerifyChain es = (NoBrokenLink, true) /\ (vo_inclusion opts < len es \/ vo_inclusion opts < 0)%Z /\
       (vo_consistency opts <= len es)%Z).
Proof.
  intros H. destruct (verify_verdict_cases es opts H) as (r & Hr & Hv). exists r. split; [done|]. rewrite <-Hv. unfold verify_exit.
  by destruct (verify_failed r).
Qed.

(** Whatever well-formed entries the program appends to a new ledger, reading it back and
    auditing it passes, for every entry and every prefix of it. *)
Theorem appended_ledger_audits path es opts : forallb Entry_wf es = true -> (len es <= 2 ^ 62)%Z ->
  (vo_inclusion opts < len es)%Z -> (vo_consistency opts <= len es)%Z ->
  exists read r, ReadAll (append_all empty_fs path es) path = inr read /\ verifyLedgerEntries read opts = Some r /\ verify_exit r = 0%Z.
Proof.
  intros Hwf Hlen Hi Hc. pose proof (append_all_ok es empty_fs path [] (ledger_ok_empty path) Hwf) as H. cbn [app] in H.
  change (tail_hash LedgerGenesisHash []) with LedgerGenesisHash in H. set (read := chain_entries LedgerGenesisHash es) in *.
  assert (Hl : len read = len es).
  { unfold read, len. clear. f_equal. generalize LedgerGenesisHash. induction es as [|e es IH]; intros p; cbn; [done|]. by rewrite IH. }
  rewrite <-Hl in *. destruct (verify_verdict_cases read opts Hlen) as (r & Hr & Hv). exists read, r. split; [by apply ReadAll_ok in H|].
  split; [done|]. unfold verify_exit. rewrite (proj2 Hv); [done|]. split; [|by auto]. apply VerifyChain_chain. by destruct H as (_ & _ & H & _).
Qed.

(** ** [gate tooluse] *)

(* src: internal/cli/gate.go 117-132 exitCodeForToolUseVerdict *)
Definition exitCodeForToolUseVerdict (v : ActionVerdict) : Z :=
  match v with ActionAllow => 0 | ActionDeny => 13 | ActionNeedsHITL => 14 end.

(* src: internal/cli/gate.go 38-49 gateTooluseOptions *)
Record GateOptions := mkGateOptions { go_command : string; go_cycleID : string; go_stateDir : string }.

(** [json.Marshal(decision)]. *)
(* src: pkg/contract/tooluse_gate.go 64-76 ToolUseDecision *)
Definition decision_json (d : ToolUseDecision) : json :=
  let opt (k v : string) := if String.eqb v "" then [] else [(k, JStr v)] in
  JObj (("verdict", JStr (verdict_string (tu_Verdict d))) ::
        opt "check" (check_string (tu_Check d)) ++ opt "rule" (tu_Rule d) ++ opt "reason" (tu_Reason d))%list.

Inductive GateError : Set := GateWrite | GateRecord (e : LedgerError) | GateBlock (v : ActionVerdict) (check : ToolUseCheck).

(** The status of the process. *)
(* src: internal/cli/gate.go 184-195 gateBlockError *)
Definition gate_exit (e : option GateError) : Z :=
  match e with None => 0 | Some (GateBlock v _) => exitCodeForToolUseVerdict v | Some _ => 1 end.

(* src: internal/cli/gate.go 197-208 appendToolUseLedgerEntry *)
Definition appendToolUseLedgerEntry (fault : AppendFault) (st : LedgerFS) (opts : GateOptions) (entry : HarnessLedgerEntry)
    : LedgerFS * option LedgerError :=
  Append fault st (filepath_Join [go_stateDir opts; "cycle-" +:+ go_cycleID opts +:+ "-ledger.jsonl"]) entry.

(** The ledgers afterwards, what was printed, and the error. *)
(* src: internal/cli/gate.go 134-177 runGateTooluse *)
Definition runGateTooluse (print_ok : bool) (fault : AppendFault) (at_ : Z) (st : LedgerFS) (opts : GateOptions)
    : LedgerFS * string * option GateError :=
  let decision := DecideToolUse (go_command opts) in
  if negb print_ok then (st, "", Some GateWrite)
  else
    let printed := encode (decision_json decision) +:+ newline in
    let '(st, e) := if negb (String.eqb (go_cycleID opts) "") && IsBlocking decision
                    then appendToolUseLedgerEntry fault st opts (NewToolUseDecisionLedgerEntry at_ (go_cycleID opts) (go_command opts) decision)
                    else (st, None) in
    match e with
    | Some e => (st, printed, Some (GateRecord e))
    | None =>
        let code := exitCodeForToolUseVerdict (tu_Verdict decision) in
        (st, printed, if (code =? 0)%Z then None else Some (GateBlock (tu_Verdict decision) (tu_Check decision)))
    end.

(** C28: The hook is never told to proceed by mistake.  The status is 0 exactly when the
    decision could be printed and allows the command, also when the record fails; an allowed
    command is never recorded; a blocked one, in the context of a cycle, is recorded as the
    next entry of the verified chain of its ledger before its verdict is returned. *)
Theorem gate_tooluse_spec print_ok fault at_ st opts st' printed e : runGateTooluse print_ok fault at_ st opts = (st', printed, e) ->
  let d := DecideToolUse (go_command opts) in
  let path := filepath_Join [go_stateDir opts; "cycle-" +:+ go_cycleID opts +:+ "-ledger.jsonl"] in
  let entry := NewToolUseDecisionLedgerEntry at_ (go_cycleID opts) (go_command opts) d in
  (gate_exit e = 0%Z <-> print_ok = true /\ tu_Verdict d = ActionAllow) /\
  (print_ok = true -> printed = encode (decision_json d) +:+ newline) /\
  (IsBlocking d = false -> st' = st) /\
  (forall es, print_ok = true -> IsBlocking d = true -> go_cycleID opts <> "" -> fault = NoFault -> ledger_ok st path es -> Entry_wf entry = true ->
     ledger_ok st' path (es ++ [chained entry (tail_hash LedgerGenesisHash es)]) /\
     e = Some (GateBlock (tu_Verdict d) (tu_Check d))).
Proof.
  cbv zeta. unfold runGateTooluse. set (d := DecideToolUse (go_command opts)).
  set (entry := NewToolUseDecisionLedgerEntry at_ (go_cycleID opts) (go_command opts) d).
  assert (HB : IsBlocking d = true <-> tu_Verdict d <> ActionAllow) by (unfold IsBlocking; by destruct (tu_Verdict d)).
  destruct print_ok; cbn [negb]; [|intros [= <- <- <-]; split_and!; [split; [done|by intros [[=] _]]|done|done|done]].
  destruct (negb (String.eqb (go_cycleID opts) "") && IsBlocking d) eqn:Hc.
  - apply andb_true_iff in Hc as [_ Hb]. destruct (appendToolUseLedgerEntry fault st opts entry) as [st1 [le|]] eqn:Ha.
    + intros [= <- <- <-]. split_and!; [|done|by rewrite Hb|].
      * split; [done|]. intros [_ HA]. by apply HB in Hb.
      * intros es _ _ _ -> Hok Hwf. unfold appendToolUseLedgerEntry in Ha. destruct (Append_ok _ _ _ entry Hok Hwf) as (st2 & E & _). congruence.
    + intros [= <- <- <-]. split_and!; [|done|by rewrite Hb|].
      * split; [|intros [_ HA]; by apply HB in Hb]. unfold gate_exit. by destruct (tu_Verdict d).
      * intros es _ _ _ -> Hok Hwf. unfold appendToolUseLedgerEntry in Ha. destruct (Append_ok _ _ _ entry Hok Hwf) as (st2 & E & Hok2 & _).
        assert (st2 = st1) as -> by congruence. split; [done|]. apply HB in Hb. by destruct (tu_Verdict d).
  - intros [= <- <- <-]. split_and!; [|done|done|].
    + unfold gate_exit. destruct (tu_Verdict d); cbn; split; first [done|by intros [_ [=]]].
    + intros es _ Hb Hid. apply andb_false_iff in Hc as [Hc|Hc]; [|congruence]. apply negb_false_iff, String.eqb_eq in Hc. done.
Qed.

(** ** Concrete runs *)

Lemma verify_verdict_witness :
  exists r, verifyLedgerEntries (chain_entries LedgerGenesisHash [entry_1; entry_2]) (mkVerifyOptions 1 1) = Some r /\
    (verify_exit r = 0%Z <-> VerifyChain (chain_entries LedgerGenesisHash [entry_1; entry_2]) = (NoBrokenLink, true) /\
       (1 < len (chain_entries LedgerGenesisHash [entry_1; entry_2]) \/ 1 < 0)%Z /\
       (1 <= len (chain_entries LedgerGenesisHash [entry_1; entry_2]))%Z).
Proof. apply (verify_verdict _ (mkVerifyOptions 1 1)). unfold len. cbn. lia. Defined.

Lemma appended_ledger_audits_witness :
  exists read r, ReadAll (append_all empty_fs "l.jsonl" [entry_1; entry_2]) "l.jsonl" = inr read /\
    verifyLedgerEntries read (mkVerifyOptions 1 2) = Some r /\ verify_exit r = 0%Z.
Proof.
  apply (appended_ledger_audits "l.jsonl" [entry_1; entry_2] (mkVerifyOptions 1 2)).
  - vm_compute. reflexivity.
  - unfold len. cbn. lia.
  - unfold len. cbn. lia.
  - unfold len. cbn. lia.
Defined.

Lemma surjective_pairing3 {A B C} (x : A * B * C) : x = (fst (fst x), snd (fst x), snd x).
Proof. by destruct x as [[a b] c]. Qed.

Definition push_main : GateOptions := mkGateOptions "git push --force origin main" "cyc_1" "/c".
Lemma gate_tooluse_spec_witness :
  gate_exit (snd (runGateTooluse true NoFault 7 empty_fs push_main)) <> 0%Z /\
  exists es, ledger_ok (fst (fst (runGateTooluse true NoFault 7 empty_fs push_main))) "/c/cycle-cyc_1-ledger.jsonl" es /\ List.length es = 1%nat.
Proof.
  destruct (gate_tooluse_spec true NoFault 7 empty_fs push_main (fst (fst (runGateTooluse true NoFault 7 empty_fs push_main)))
    (snd (fst (runGateTooluse true NoFault 7 empty_fs push_main))) (snd (runGateTooluse true NoFault 7 empty_fs push_main))
    (surjective_pairing3 _)) as (H1 & _ & _ & H4).
  assert (Hd : IsBlocking (DecideToolUse (go_command push_main)) = true) by (vm_compute; reflexivity).
  split.
  - intros E. apply H1 in E. destruct E as [_ E]. unfold IsBlocking in Hd. rewrite E in Hd. discriminate Hd.
  - assert (Hp : filepath_Join [go_stateDir push_main; "cycle-" +:+ go_cycleID push_main +:+ "-ledger.jsonl"] = "/c/cycle-cyc_1-ledger.jsonl")
      by (vm_compute; reflexivity). rewrite Hp in H4.
    destruct (H4 [] eq_refl Hd ltac:(discriminate) eq_refl (ledger_ok_empty _)) as [H _]; [vm_compute; reflexivity|].
    eexists. split; [exact H|reflexivity].
Defined.
