(* ===== verification/Cli.v ===== *)
(** * The commands

    [internal/cli]: the commands of [rallish rally], [rallish cycle] and [rallish gate], from the
    flags that were given to what is printed: the required flags, the defaults, the home directory
    and the daemon that is looked for ([Connect.v]), around the functions of [RallyClient.v],
    [McpClient.v], [CycleClient.v], [OneShot.v] and [Commands.v].  A flag is [None] when it is not
    on the command line; its text is parsed by a third-party library.

    The theorems put the parts together: a command, the daemon it finds on the host, the routes and
    the handlers. *)

From S2P Require Import Prelude GoStrings Json Codec Lines Utf8 JsonIndent StateFile Contract Paths Connect Ledger Merkle Rally Stuck Cycle Gates.
From S2P Require Import CycleApi CycleApiSpec RallyInv McpClient RallyClient CycleClient Routes ActionGate Commands Driver OneShot.
From Stdlib Require Import Ascii String.
#[local] Open Scope string_scope.

(** ** Running a command *)

(** What becomes of a command line: a required flag is not set, there is no home directory, or the
    command runs. *)
Inductive Invoked (A : Type) : Type := FlagsMissing (names : list string) | NoHome (e : string) | Runs (a : A).
Arguments FlagsMissing {A} _.
Arguments NoHome {A} _.
Arguments Runs {A} _.

Definition given {T : Type} (flag : option T) : bool := match flag with Some _ => true | None => false end.
(** The names of the required flags that are missing, in the order of the names. *)
Definition missing (required : list (string * bool)) : list string :=
  omap (fun r : string * bool => if snd r then None else Some (fst r)) required.

Section Run.
(** [os.UserHomeDir] and the working directory. *)
Variable userHome : string + string.
Variable cwd : string + string.

(** The required flags are looked at first, then the home directory. *)
Definition command {A} (required : list (string * bool)) (run : string -> Host -> Host * A) (h : Host) : Host * Invoked A :=
  match missing required with
  | [] => match userHome with inl e => (h, NoHome e) | inr home => let '(h, a) := run home h in (h, Runs a) end
  | names => (h, FlagsMissing names)
  end.

(** A command of a cycle looks for the daemon before anything else. *)
Definition on_daemon {A} (run : option brokerClient -> A) (home : string) (h : Host) : Host * A :=
  let '(h, bc) := resolveBrokerClient home cwd 0 h in (h, run bc).

(** A command of a rally looks for it when its arguments are accepted, which shows in the error it
    has without a daemon. *)
Definition accepted (c : Cli) : bool := match cli_err c with Some EBroker => true | _ => false end.
Definition when_accepted (connect : Host -> Host * option brokerClient) (run : option brokerClient -> Cli) (h : Host) : Host * Cli :=
  if accepted (run None) then let '(h, bc) := connect h in (h, run bc) else (h, run None).
(** Thirty seconds. *)
Definition rally_timeout : Z := 30000000000.

(** ** [rallish cycle] *)

Section CycleCommands.
(** The daemon behind a client, and its events; the local state files. *)
Variable daemon : brokerClient -> CycleDaemon.
Variable events : brokerClient -> string -> EventsReply.
Variable file : string -> option string.
Variable log_file : string -> LogFile.
(** The time of an event, as it is printed. *)
Variable clock : nat -> string.

(* src: internal/cli/cycle.go 75-87 CycleNewCmd *)
Definition cycle_new (goal branch : option string) (maxCycles maxDurationMinutes : option Z) (autoGoal : option bool)
    (agents workingDir : option string) (localGates : list string) (auditCmd polishTestCmd : option string) : Host -> Host * Invoked Printed :=
  command [("goal", given goal)] (fun home h =>
    let run bc := CycleNewCmd (inr home) (option_map daemon bc) (default "" goal) (default "" branch) (default 10%Z maxCycles)
      (default 0%Z maxDurationMinutes) (default false autoGoal) (default "" agents) (default "" workingDir) localGates auditCmd polishTestCmd in
    match pr_err (run None) with
    | Some XBroker => on_daemon run home h
    | _ => (h, run None)
    end).

(* src: internal/cli/cycle.go 106-122 CycleStatusCmd *)
Definition CycleStatusCmd (cycleID : option string) : Host -> Host * Invoked Printed :=
  command [("cycle-id", given cycleID)] (fun home =>
    on_daemon (fun bc => runCycleStatus (inr home) file (option_map daemon bc) (default "" cycleID)) home).
(* src: internal/cli/cycle.go 125-142 CycleLedgerCmd *)
Definition CycleLedgerCmd (cycleID : option string) : Host -> Host * Invoked Printed :=
  command [("cycle-id", given cycleID)] (on_daemon (fun bc => runCycleLedger (option_map daemon bc) (default "" cycleID))).
(* src: internal/cli/cycle.go 144-165 CycleNextCmd *)
Definition CycleNextCmd (cycleID goal : option string) : Host -> Host * Invoked Printed :=
  command [("cycle-id", given cycleID)] (on_daemon (fun bc => runCycleNext (option_map daemon bc) (default "" cycleID) (default "" goal))).
(* src: internal/cli/cycle.go 167-188 CycleHaltCmd *)
Definition CycleHaltCmd (cycleID reason : option string) : Host -> Host * Invoked Printed :=
  command [("cycle-id", given cycleID)]
    (on_daemon (fun bc => runCycleHalt (option_map daemon bc) (default "" cycleID) (default "user-requested" reason))).
(* src: internal/cli/cycle.go 190-211 CycleWatchCmd *)
Definition CycleWatchCmd (cycleID logFile : option string) : Host -> Host * Invoked Watched :=
  command [("cycle-id", given cycleID)]
    (on_daemon (fun bc => runCycleWatch clock (option_map events bc) (log_file (default "" logFile)) (default "" cycleID))).
(* src: internal/cli/cycle.go 213-264 CycleStartCmd *)
Definition CycleStartCmd (goal branch : option string) (maxCycles maxDurationMinutes : option Z) (autoGoal : option bool)
    (agents : option string) (localGates : list string) (logFile : option string) : Host -> Host * Invoked Watched :=
  command [("goal", given goal)] (fun home =>
    let '(req, agentList) := start_request (default "" goal) (default "" branch) (default 0%Z maxCycles) (default 240%Z maxDurationMinutes)
      (default true autoGoal) (default "" agents) localGates in
    on_daemon (fun bc => runCycleStart clock (inr home) (option_map daemon bc) (option_map events bc) (log_file (default "" logFile)) req agentList) home).

(** The options of an audit: an index below zero is not asked for. *)
(* src: internal/cli/cycle_verify.go 57-67 runCycleVerify *)
Definition runCycleVerify (bc : option brokerClient) (cycleID : string) (opts : VerifyOptions) : CycleError + option VerifyReport :=
  match bc with
  | None => inl XBroker
  | Some bc => match readCycleLedger (daemon bc) cycleID with
               | inl e => inl e
               | inr entries => inr (verifyLedgerEntries entries opts)
               end
  end.
(* src: internal/cli/cycle_verify.go 42-53 CycleVerifyCmd *)
Definition CycleVerifyCmd (cycleID : option string) (inclusion consistency : option Z) : Host -> Host * Invoked (CycleError + option VerifyReport) :=
  command [("cycle-id", given cycleID)] (on_daemon (fun bc =>
    runCycleVerify bc (default "" cycleID) (mkVerifyOptions (default (-1)%Z inclusion) (default (-1)%Z consistency)))).
End CycleCommands.

(** [cycle run]: the one-shot of [OneShot.v] on the files of the cycle in the directory of the flag,
    which is the daemon's unless it is given.  [at_files]: the system with these as the state file
    and the ledger; [exec], [file_exists], [now]: what the gates run on. *)
Section RunCommand.
Context {World : Type}.
Variable ops : WorldOps World.
Variable exec : World -> list string -> World * CmdResult.
Variable file_exists : World -> string -> bool.
Variable at_files : string -> string -> Sys World.
Variable buildRegistry : World -> World * (string + (string -> option (Adapter (World := World)))).
Variable getwd : World -> World * (string + string).

(* src: internal/cli/cycle_run.go 222-224 buildCLIPipeline *)
Definition buildCLIPipeline (state : CycleState) : Pipeline World :=
  StandardPipeline exec file_exists (wo_clock ops) (s_AuditCmd state) (s_PolishTestCmd state) (s_LocalGates state).

Inductive RunCommandError : Type := NotOnce | NoStateDir (e : string).
(* src: internal/cli/cycle_run.go 163-191 CycleRunCmd *)
Definition CycleRunCmd (cycleID goal stateDir : option string) (once : bool) (maxLifetimeTurns : option Z) (agents : option (list string))
    : Invoked (RunCommandError + (Sys World * Outcome)) :=
  match missing [("cycle-id", given cycleID)] with
  | [] =>
      Runs (if negb once then inl NotOnce
            else match resolveStateDir userHome (default "" stateDir) with
                 | inl e => inl (NoStateDir e)
                 | inr dir =>
                     let file suffix := filepath_Join [dir; "cycle-" +:+ default "" cycleID +:+ suffix] in
                     inr (runCycleOnce ops (mkRunOptions (default "" goal) (default 0%Z maxLifetimeTurns) (default [] agents) buildCLIPipeline buildRegistry getwd)
                       (at_files (file ".json") (file "-ledger.jsonl")))
                 end)
  | names => FlagsMissing names
  end.
End RunCommand.

(* src: internal/cli/cycle_verify.go 134-140 count *)
Definition count (n : Z) (singular plural : string) : string := Itoa n +:+ " " +:+ (if (n =? 1)%Z then singular else plural).

(** The text of an audit.  [error]: the texts of the errors of the proofs; [nodes]: the length of the
    audit path of a proof that verified. *)
Section AuditText.
Variable error : MerkleError -> string.
(* src: internal/cli/cycle_verify.go 90-104 verifyLedgerEntries *)
Definition inclusion_text (i nodes : Z) (v : option Verdict) : string :=
  let line s := "inclusion[" +:+ Itoa i +:+ "]: " +:+ s +:+ nl in
  match v with
  | None => ""
  | Some (VError e) => line ("✗ " +:+ error e)
  | Some VOk => line ("✓ committed (audit path: " +:+ count nodes "node" "nodes" +:+ ")")
  | Some _ => line "✗ proof did not verify against root"
  end.
(* src: internal/cli/cycle_verify.go 112-126 verifyLedgerEntries *)
Definition consistency_text (m n : Z) (v : option Verdict) : string :=
  let line s := "consistency:  " +:+ s +:+ nl in
  match v with
  | None => ""
  | Some VBeyond => line ("✗ oldSize " +:+ Itoa m +:+ " exceeds " +:+ Itoa n +:+ " entries")
  | Some (VError e) => line ("✗ " +:+ error e)
  | Some VOk => line ("✓ first " +:+ Itoa m +:+ " entries are an append-only prefix")
  | Some VRejected => line "✗ proof did not verify (not an append-only prefix)"
  end.
(* src: internal/cli/cycle_verify.go 72-87 verifyLedgerEntries *)
Definition audit_text (cycleID : string) (opts : VerifyOptions) (n nodes : Z) (r : VerifyReport) : string :=
  "cycle " +:+ cycleID +:+ " — " +:+ count n "ledger entry" "ledger entries" +:+ nl +:+
  (if vr_intact r then "hash-chain:   ✓ intact" +:+ nl else "hash-chain:   ✗ TAMPERED at entry " +:+ Itoa (vr_brokenIndex r) +:+ nl) +:+
  "merkle-root:  " +:+ vr_root r +:+ " (RFC 9162)" +:+ nl +:+
  inclusion_text (vo_inclusion opts) nodes (vr_inclusion r) +:+ consistency_text (vo_consistency opts) n (vr_consistency r).
End AuditText.

(** ** [rallish rally] *)

Section RallyCommands.
(** What [os.Stat] says of a path; the answers of the daemon behind a client; a new daemon, and
    what happens on the host while a command sleeps. *)
Variable stat : string -> option bool.
Variable create_answer : brokerClient -> string -> Reply.
Variable stream : brokerClient -> string -> JoinReply.
Variable post : brokerClient -> string -> string -> Reply.
Variable get : brokerClient -> string -> Reply.
Variable agent : brokerClient -> McpClient.Daemon.
Variable startDaemon : Host -> option Host.
Variable elapse : Host -> Host.
Variable nowMS : Z.

(* src: internal/cli/rally.go 43-68 RallyNewCmd *)
Definition RallyNewCmd (participants repo task firstHolder : option string) : Host -> Host * Invoked Cli :=
  command [("participants", given participants)] (fun home =>
    when_accepted (ensureBrokerClient home cwd startDaemon elapse rally_timeout) (fun bc =>
      runRallyNew cwd stat (option_map create_answer bc) (default "" participants) (default "" repo) (default "" task) (default "" firstHolder))).
(** How the stream ends says whether the timer of the flag [timeout] ran out. *)
(* src: internal/cli/rally.go 70-96 RallyJoinCmd *)
Definition RallyJoinCmd (sessionID as_ : option string) (once : bool) : Host -> Host * Invoked Cli :=
  command [("as", given as_); ("session-id", given sessionID)] (fun home =>
    when_accepted (resolveBrokerClient home cwd rally_timeout) (fun bc =>
      runRallyJoin (option_map stream bc) (default "" sessionID) (default "" as_) once)).
(* src: internal/cli/rally.go 98-124 RallyDoneCmd *)
Definition RallyDoneCmd (sessionID as_ note handoffTo : option string) : Host -> Host * Invoked Cli :=
  command [("as", given as_); ("session-id", given sessionID)] (fun home =>
    when_accepted (resolveBrokerClient home cwd rally_timeout) (fun bc =>
      runRallyDone (option_map post bc) (default "" sessionID) (default "" as_) (default "" note) (default "" handoffTo))).
(* src: internal/cli/rally.go 126-143 RallyStatusCmd *)
Definition RallyStatusCmd (sessionID : option string) : Host -> Host * Invoked Cli :=
  command [("session-id", given sessionID)] (fun home =>
    when_accepted (resolveBrokerClient home cwd rally_timeout) (fun bc =>
      runRallyStatus (option_map get bc) nowMS (default "" sessionID))).

(** The mode decides the timeout of the client, and with it nothing that [resolveBrokerClient] does
    to the host; the host is looked at once at most. *)
(* src: internal/cli/rally_mcp_agent.go 55-75 RallyMCPAgentCmd *)
Definition RallyMCPAgentCmd (float_literal : string -> option string) (mode participants repo task firstHolder sessionID as_ : option string)
    (timeout : option Z) (note handoffTo : option string) : Host -> Host * Invoked McpClient.Ran :=
  command [("mode", given mode)] (fun home h =>
    let opts := mkAgentOptions (default "" mode) (default "" participants) (default "" repo) (default "" task) (default "" firstHolder)
      (default "" sessionID) (default "" as_) (default mcpClientDefaultTimeout timeout) (default "" note) (default "" handoffTo) in
    let resolve t := option_map agent (snd (resolveBrokerClient home cwd t h)) in
    let looked := match rn_err (runRallyMCPAgent float_literal (fun _ => None) opts) with Some CBroker => true | _ => false end in
    (if looked then fst (resolveBrokerClient home cwd 0 h) else h, runRallyMCPAgent float_literal resolve opts)).
End RallyCommands.
End Run.

(** ** [rallish gate tooluse] *)

(** The directory of the ledger is [tmp] unless it is given. *)
(* src: internal/cli/gate.go 95-103 GateTooluseCmd *)
Definition GateTooluseCmd (print_ok : bool) (fault : AppendFault) (at_ : Z) (command cycleID stateDir : option string) (st : LedgerFS)
    : Invoked (LedgerFS * string * option GateError) :=
  match missing [("command", given command)] with
  | [] => Runs (runGateTooluse print_ok fault at_ st (mkGateOptions (default "" command) (default "" cycleID) (default "tmp" stateDir)))
  | names => FlagsMissing names
  end.

(** ** The daemon on the host *)

(** The timeout of a client is no matter of the host. *)
Lemma resolve_timeout homeDir cwd t h : fst (resolveBrokerClient homeDir cwd t h) = fst (resolveBrokerClient homeDir cwd 0 h).
Proof.
  unfold resolveBrokerClient. destruct (pointer homeDir cwd h) as [path|]; [destruct (dialExistingDaemon h path); [done|]|];
    (destruct (readPortFile _ _) as [port|]; [by destruct (dialPort _ port)|done]).
Qed.

Section Host.
Variable home : string.
Variable cwd : string + string.
Hypothesis home_abs : HasPrefix home "/" = true.

(** A client resolves: the system goes on, and the daemon that is up is where it was. *)
Lemma resolved t s pid st : Solo home cwd s -> sy_daemons s = {[pid := st]} -> is_up st = true ->
  exists h' bc, resolveBrokerClient home cwd t (sy_host s) = (h', Some bc) /\ listener (sy_host s) (bc_via bc) = Some pid /\
    Solo home cwd (s <| sy_host := h' |>).
Proof.
  intros HS Hd Hu. assert (Hpid : sy_daemons s !! pid = Some st) by (rewrite Hd; apply (lookup_singleton_eq (M := gmap nat))).
  destruct (solo_found home cwd home_abs s t pid st HS Hpid Hu) as [Hr Hl].
  pose proof (solo_resolves home cwd s t HS) as HS'. destruct (resolveBrokerClient home cwd t (sy_host s)) as [h' r]. cbn [fst snd] in *. subst r.
  eexists h', _. split_and!; [done|done|]. apply HS'. intros p x Hp. rewrite Hd in Hp. apply lookup_singleton_Some in Hp as [_ <-]. by destruct st.
Qed.

(** With no daemon up, and nobody who took the port of an earlier one, the commands of a cycle end
    with the error of a daemon that is not running, or, for [status], with what the state file says. *)
Lemma without_daemon s daemon file id : Solo home cwd s -> sy_daemons s = ∅ ->
  (forall port, readPortFile (sy_host s) (portFile home) = Some port -> ho_ports (sy_host s) !! port = None) ->
  (forall action reason goal,
     snd (CycleLedgerCmd (inr home) cwd daemon (Some id) (sy_host s)) = Runs (stops XBroker) /\
     snd (CycleNextCmd (inr home) cwd daemon (Some id) goal (sy_host s)) = Runs (stops XBroker) /\
     snd (CycleHaltCmd (inr home) cwd daemon (Some id) reason (sy_host s)) = Runs (stops XBroker) /\
     snd (CycleVerifyCmd (inr home) cwd daemon (Some id) action action (sy_host s)) = Runs (inl XBroker)) /\
  snd (CycleStatusCmd (inr home) cwd daemon file (Some id) (sy_host s)) = Runs (runCycleStatus (inr home) file None id).
Proof.
  intros HS Hd Hport. assert (Hr : snd (resolveBrokerClient home cwd 0 (sy_host s)) = None).
  { destruct (resolve_shape home cwd home_abs 0 (sy_host s)) as (h' & -> & _). cbn [snd]. unfold announced.
    assert (Hno : forall pid st, sy_daemons s !! pid = Some st -> is_up st = false) by (intros pid st H; by rewrite Hd in H).
    assert (E : match pointer home cwd (sy_host s) with Some path => if dialExistingDaemon (sy_host s) path then Some path else None | None => None end = None).
    { destruct (pointer home cwd (sy_host s)) as [path|]; [|done]. by rewrite (solo_none home s path (solo_inv home cwd home_abs s HS) Hno). }
    rewrite E. destruct (readPortFile (sy_host s) (portFile home)) as [port|] eqn:Ep; [|done]. unfold dialPort. rewrite (Hport port eq_refl).
    by destruct (String.eqb port ""). }
  unfold CycleLedgerCmd, CycleNextCmd, CycleHaltCmd, CycleVerifyCmd, CycleStatusCmd, command. cbn [missing omap list_omap given fst snd]. unfold on_daemon.
  destruct (resolveBrokerClient home cwd 0 (sy_host s)) as [h' r]. cbn [snd] in Hr. by subst r.
Qed.
End Host.

Section EndToEnd.
Context {World : Type}.
Variable ops : CycleOps World.
Variable exec : World -> list string -> World * CmdResult.
Variable file_exists : World -> string -> bool.
Variables bad internal : string.
Variable cyclePipeline : option (Pipeline World).
Variable other : CycleServer World -> Endpoint -> list string -> string -> string -> option (CycleServer World * Reply).
Variable home : string.
Variable cwd : string + string.
Hypothesis home_abs : HasPrefix home "/" = true.

(** What answers to a client: the server of the process that listens; nobody. *)
Definition behind (random : string) (h : Host) (servers : gmap nat (CycleServer World)) (bc : brokerClient) : CycleDaemon :=
  match listener h (bc_via bc) with
  | Some pid => match servers !! pid with
                | Some sv => wired ops exec file_exists bad internal random cyclePipeline other sv
                | None => mkCycleDaemon (fun _ => NoReply) (fun _ _ => NoReply)
                end
  | None => mkCycleDaemon (fun _ => NoReply) (fun _ _ => NoReply)
  end.

End EndToEnd.

(** ** A rally over the wire *)

(** [url.Values.Get] after [url.ParseQuery]: pairs that do not parse are skipped, the first value
    counts. *)
Definition query_pair (piece : string) : option (string * string) :=
  let unescape s := unescape (string_map (fun c => if Ascii.eqb c "+"%char then " "%char else c) s) in
  if String.eqb piece "" || negb (no_byte ";"%char piece) then None
  else let '(k, v) := Cut piece "="%char in
       match unescape k, unescape v with Some k, Some v => Some (k, v) | _, _ => None end.
Definition query_get (key query : string) : string :=
  match filter (fun kv => fst kv = key) (omap query_pair (Split query "&"%char)) with (_, v) :: _ => v | [] => "" end.

Lemma query_as name : string_forall unreserved name = true -> query_get "as" ("as=" +:+ name) = name.
Proof.
  intros H. assert (Hn : forall c, unreserved c = false -> no_byte c name = true).
  { intros c Hc. unfold no_byte. apply (string_forall_impl unreserved); [|done]. intros d Hd. apply negb_true_iff, Ascii.eqb_neq. intros ->. congruence. }
  assert (Hp : string_map (fun c => if Ascii.eqb c "+"%char then " "%char else c) name = name).
  { clear Hn. induction name as [|c name IH]; [done|]. cbn [string_map string_forall] in *. apply andb_true_iff in H as [Hc H]. rewrite (IH H).
    destruct (Ascii.eqb_spec c "+"%char) as [->|]; done. }
  assert (Hu : unescape name = Some name).
  { apply unescape_plain. unfold plain_path. apply (string_forall_impl unreserved); [|done]. intros c Hc. by destruct c as [[] [] [] [] [] [] [] []]. }
  unfold query_get. rewrite Split_no_byte by (rewrite no_byte_app; by rewrite (Hn "&"%char eq_refl)). cbn [omap list_omap]. unfold query_pair.
  change (String.eqb ("as=" +:+ name) "") with false. rewrite no_byte_app, (Hn ";"%char eq_refl).
  change ("as=" +:+ name) with (String "a" (String "s" (String "=" name))). cbn [orb andb negb no_byte string_forall Ascii.eqb Bool.eqb Cut].
  by rewrite Hp, Hu.
Qed.

Section RallyWire.
(** The text of a refusal; the handlers of other components. *)
Variable refusal : Rallies -> string -> string -> string -> string.
Variable others : Rallies -> Endpoint -> list string -> string -> string -> option (Rallies * Reply).
Variable home : string.
Variable cwd : string + string.
Hypothesis home_abs : HasPrefix home "/" = true.

(** One request to the rallies of a daemon; [None]: a panic.  A POST is sent as JSON.  [now1], [now2],
    [rand]: the clock and the random bytes of the request. *)
Definition rally_http (now1 now2 : Z) (rand : option string) (st : Rallies) (method tail body : string) : option (Rallies * Reply) :=
  let reply r := match rsp_body r with
                 | Some pub => McpClient.Status (rsp_code r) (session_body pub)
                 | None => McpClient.Status (rsp_code r) (refusal st method tail body)
                 end in
  match fetch routes method tail with
  | Arrives method' h vals query =>
      let body := if String.eqb method' method then body else "" in
      let ctype := if String.eqb method' "POST" then json_type else "" in
      match h, vals with
      | HRallyCreate, [] => let '(st, r) := handleRallyCreate now1 now2 rand st ctype body in Some (st, reply r)
      | HRallyDone, [id] => match handleRallyDone now1 st ctype id (query_get "as" query) body with
                            | Some (st, r) => Some (st, reply r)
                            | None => None
                            end
      | HRallyStatus, [id] => Some (st, reply (handleRallyStatus now1 st id))
      | _, _ => others st h vals query body
      end
  | a => Some (st, mux_answer a)
  end.

(** What answers to a client, by a method. *)
Definition rally_answer (now1 now2 : Z) (rand : option string) (h : Host) (rallies : gmap nat Rallies) (method : string) (bc : brokerClient)
    (tail body : string) : Reply :=
  match listener h (bc_via bc) with
  | Some pid => match rallies !! pid with
                | Some st => match rally_http now1 now2 rand st method tail body with Some (_, r) => r | None => NoReply end
                | None => NoReply
                end
  | None => NoReply
  end.

(** C23: The baton is passed from the command line, through every part in between.  On a host
    where daemons run one at a time and one is up ([Solo]: others may have died there, and lookups be
    under way), with the session in that daemon, valid identifiers and texts that are UTF-8: when the session would hand the baton over, [rally done]
    finds the daemon, its request is routed to the handler and leaves the daemon with the baton where
    the session put it, and the command, once it is answered, prints the holder and the turn; and a
    [rally status] that follows finds the same daemon and prints the session as it is then. *)
Theorem baton_end_to_end s pid st rallies rl rl' pub sid as_ note handoffTo now1 now2 rand :
  Solo home cwd s -> sy_daemons s = {[pid := st]} -> is_up st = true -> rallies !! pid = Some rl -> joins sid as_ = true ->
  (handoffTo = "" \/ exists n, NewParticipantName handoffTo = inr n) -> utf8_valid note = true -> utf8_valid handoffTo = true ->
  advanceRallyBaton now1 rl sid as_ (mkDoneRequest note handoffTo) = Some (rl', inr pub) -> RallySession_wf pub = true ->
  (exists body reply, rally_http now1 now2 rand rl "POST" (done_url sid as_) body = Some (rl', reply)) /\
  exists h', RallyDoneCmd (inr home) cwd (rally_answer now1 now2 rand (sy_host s) rallies "POST") (Some sid) (Some as_) (Some note) (Some handoffTo) (sy_host s) =
      (h', Runs (mkCli ("ok — baton passed to " +:+ rs_Holder pub +:+ " (turn " +:+ Itoa (rs_TurnN pub) +:+ ")" +:+ nl) None)) /\
    Solo home cwd (s <| sy_host := h' |>) /\
    forall later nowMS pub2, getRallySession later rl' sid = inr pub2 -> RallySession_wf pub2 = true ->
      snd (RallyStatusCmd (inr home) cwd (fun bc tail => rally_answer later now2 rand h' (<[pid := rl']> rallies) "GET" bc tail "") nowMS (Some sid) h') =
        Runs (mkCli (printRallyStatus nowMS pub2) None).
Proof.
  intros HS Hd Hup Hrl Hj Hh Hn Ht Ha Hw. destruct (resolved home cwd home_abs rally_timeout s pid st HS Hd Hup) as (h' & bc & Hr & Hl & HS').
  assert (Hids : plain sid = true /\ string_forall unreserved as_ = true /\ NewSessionID sid = inr sid).
  { unfold joins in Hj. destruct (NewSessionID sid) as [|id] eqn:Es; [done|]. destruct (NewParticipantName as_) as [|nm] eqn:En; [done|].
    split_and!; [by eapply session_plain|by eapply participant_unreserved|]. by apply NewSessionID_spec in Es as [<- _]. }
  destruct Hids as (Hp & Hu & Hid). destruct (plain_requests sid as_ Hp Hu) as (_ & _ & Hdone & Hstatus & _).
  destruct (done_passes now1 rl rl' pub sid as_ note handoffTo (rally_answer now1 now2 rand (sy_host s) rallies "POST" bc) Hj Hh Hn Ht Ha Hw) as (body & Hhandle & Hprint).
  assert (Hhttp : rally_http now1 now2 rand rl "POST" (done_url sid as_) body = Some (rl', McpClient.Status 200 (session_body pub))).
  { unfold rally_http. rewrite Hdone. cbn [String.eqb Ascii.eqb Bool.eqb]. by rewrite (query_as as_ Hu), Hhandle. }
  split; [by eexists _, _|]. exists h'. split_and!; [|done|].
  - assert (Hacc : accepted (runRallyDone None sid as_ note handoffTo) = true).
    { unfold joins in Hj. unfold runRallyDone. destruct (NewSessionID sid); [done|]. destruct (NewParticipantName as_); [done|].
      destruct Hh as [->|[n Hh]]; [done|]. rewrite Hh. by destruct (String.eqb handoffTo ""). }
    unfold RallyDoneCmd, command. cbn [missing omap list_omap given fst snd from_option]. unfold when_accepted, id. cbn [option_map]. rewrite Hacc, Hr. cbn [option_map]. refine (f_equal (fun c => (h', Runs c)) (Hprint _)).
    unfold rally_answer. rewrite Hl, Hrl. unfold done_url in Hhttp. by rewrite Hhttp.
  - intros later nowMS pub2 Hg Hw2. destruct (resolved home cwd home_abs rally_timeout _ pid st HS' Hd Hup) as (h2 & bc2 & Hr2 & Hl2 & _).
    unfold RallyStatusCmd, command. cbn [missing omap list_omap given fst snd from_option]. unfold when_accepted, runRallyStatus, id. rewrite Hid.
    cbn [accepted cli_err fails_with option_map]. cbn [sy_host] in Hr2, Hl2. change (sy_host (s <| sy_host := h' |>)) with h' in *. rewrite Hr2. cbn [option_map snd].
    unfold rally_answer. rewrite Hl2, (lookup_insert_eq (M := gmap nat)). unfold rally_http. unfold rally_url in Hstatus. rewrite Hstatus. cbn [handleRallyStatus].
    unfold handleRallyStatus. rewrite Hid, Hg. cbn. by rewrite session_read.
Qed.
End RallyWire.

(** ** Witnesses *)

(** A daemon was killed, another gave up; a third one listens and is found on its port. *)
Lemma crashes_Solo : Solo "/h" (inr "/") (Connect.after Connect.crashes).
Proof.
  assert (He : solo_after Connect.crashes = Connect.after Connect.crashes) by (vm_compute; reflexivity). rewrite <-He. apply solo_after_Solo.
Qed.


Definition baton_request : DoneRequest := mkDoneRequest "over to you" "carol".
Definition baton_passed : Rallies * RallySession :=
  match advanceRallyBaton 1800 (demo []) demo_id "alice" baton_request with Some (st, inr pub) => (st, pub) | _ => (demo [], Mcp.RallySession_zero) end.
Lemma baton_end_to_end_witness : exists h',
  RallyDoneCmd (inr "/h") (inr "/") (rally_answer (fun _ _ _ _ => "") (fun st _ _ _ _ => Some (st, NoReply)) 1800 0 None (sy_host (Connect.after Connect.crashes))
      {[2%nat := demo []]} "POST") (Some demo_id) (Some "alice") (Some "over to you") (Some "carol") (sy_host (Connect.after Connect.crashes)) =
    (h', Runs (mkCli ("ok — baton passed to carol (turn 2)" +:+ nl) None)).
Proof.
  destruct (baton_end_to_end (fun _ _ _ _ => "") (fun st _ _ _ _ => Some (st, NoReply)) "/h" (inr "/") eq_refl (Connect.after Connect.crashes) 2 (Checked "3")
    {[2%nat := demo []]} (demo []) (fst baton_passed) (snd baton_passed) demo_id "alice" "over to you" "carol" 1800 0 None) as (_ & h' & H & _).
  - exact crashes_Solo.
  - vm_compute. reflexivity.
  - reflexivity.
  - reflexivity.
  - vm_compute. reflexivity.
  - right. by eexists.
  - reflexivity.
  - reflexivity.
  - vm_compute. reflexivity.
  - vm_compute. reflexivity.
  - assert (Hp : rs_Holder (snd baton_passed) = "carol" /\ rs_TurnN (snd baton_passed) = 2%Z) by (vm_compute; split; reflexivity).
    destruct Hp as [E1 E2]. rewrite E1, E2 in H. exists h'. exact H.
Defined.

(** The record of a denial is not in the ledger of the daemon's cycle unless the directory is given. *)
Definition gate_ledgers (stateDir : option string) : list string :=
  match GateTooluseCmd true NoFault 7 (Some "git push --force origin main") (Some "cyc_1") stateDir empty_fs with
  | Runs (st, _, _) => map fst (map_to_list (lf_files st))
  | _ => []
  end.
Example gate_default_dir : gate_ledgers None = ["tmp/cycle-cyc_1-ledger.jsonl"] /\
  gate_ledgers (Some "/h/.rallish/cycles") = ["/h/.rallish/cycles/cycle-cyc_1-ledger.jsonl"] /\
  (dir ← match CyclesDir (inr "/h") with inr dir => Some dir | inl _ => None end; Some (ledgerPath dir "cyc_1")) = Some "/h/.rallish/cycles/cycle-cyc_1-ledger.jsonl".
Proof. vm_compute. by split. Qed.
Example first_value : query_get "as" "x;y&as=a%20b+c&as=d" = "a b c" /\ query_get "as" "as=%zz" = "".
Proof. vm_compute. by split. Qed.
